(* ===== verification/_CoqProject ===== *)
-Q . S2P
Prelude.v
BTree.v
AlignExt.v
Interval.v
FreeRegion.v
PageTable.v
PageTableFacts.v
PtInterface.v
Frame.v
FrameFacts.v
MemorySet.v
MemorySetFacts.v
VmSpace.v
Perms.v
VmMapping.v
VmMappingFacts.v
Vmar.v
VmarFacts.v
VmarSpec.v
VmarFault.v
Vmo.v
VmoFacts.v
VmarExamples.v
VmoExamples.v
RwLock.v
RwLockFacts.v
WaitQueue.v
WaitQueueFacts.v
WaitQueueInv.v
Credentials.v
Pod.v
Signals.v
SignalFacts.v
SignalReturn.v
ProcessTree.v
ProcessTreeFacts.v
SlotVec.v
PathLookup.v
RamFs.v
FsTree.v
RamFsFacts.v
RamFsSpec.v
RamFsProps.v
RamFsReaddir.v
Dentry.v
DentryFacts.v
DentrySpec.v
DentryProps.v
PathLookupFacts.v
MountProps.v
VirtQueue.v
VirtQueueFacts.v
Ext2Raw.v
Ext2RawFacts.v
Ext2Alloc.v
Ext2AllocFacts.v
Ext2Conc.v
Ext2Inode.v
Ext2InodeFacts.v
Ext2Files.v
Ext2Dir.v
Ext2DirFacts.v
Ext2DirSpec.v
Ext2Namei.v
Ext2Tree.v
Ext2NameiFacts.v
Ext2NameiRefine.v
Ext2NameiProps.v
Ext2Namespace.v
