(* ===== verification/Prelude.v ===== *)
(** * Asterinas: memory, synchronisation, processes, signals and file systems

    A verification development for the Asterinas kernel.  Paths below are
    relative to src/; [frame/] stands for framework/aster-frame/src/ and [nix/]
    for kernel/aster-nix/src/.

    ** The program and its model

    The kernel has a framework (aster-frame: physical frames, page tables,
    address spaces, locks, wait queues, tasks) and, above it, the services of a
    Linux-like kernel (aster-nix: virtual memory regions and objects,
    processes, signals, file systems, network, system calls).  The development
    models the memory management of both layers from the page-table entry up
    to [mmap], [munmap], page faults and copy-on-write; the locks and wait
    queues that every other part relies on; credentials, signals, and the tables
    of processes, groups and sessions; and the file systems from path resolution
    and the dentry cache through ramfs down to the blocks, inodes and directories
    of ext2, with the virtqueues that carry requests to devices.

    The embedding is shallow: a Rust function is a Rocq function, a struct a
    [Record], an enum an [Inductive].  A call returns [Ok], [Err] with the
    error value, or [Panic]; stateful code is in the state monad [stM], whose
    state survives an error return.  Machine integers are [Z] at their width,
    with the overflow behaviour of the repository's default (dev) profile:
    [+], [-] and [*] panic on overflow, and [assert!], [debug_assert!] and
    [unwrap] are live.  Concurrent code is a step relation over the atomic
    accesses of the source, with any interleaving of any number of calls.
    One-line accessors are notations.  Logging is left out.

    ** Files

    - [Prelude]: outcomes, the state monad, machine integers, ranges, lists,
      counting, invariants of step relations.
    - [BTree]: [BTreeMap] with its cursors.  [Pod]: plain-old-data values as
      bytes and the interface to user memory (nix/util/mod.rs).
    - [AlignExt]: framework/libs/align_ext.
    - [PageTable], [PageTableFacts]: frame/vm/page_table.rs and the x86-64
      entries of frame/arch/x86/mm/mod.rs; tables live in a physical memory of
      512-entry frames, and the walk is the loop of the source.  The facts
      relate the radix tree to a flat map.  [PtInterface]: the class of page
      tables that the layers above use, with the radix tree as its instance.
    - [Frame], [FrameFacts]: frame/vm/frame.rs, frame_allocator.rs, options.rs
      and mod.rs: frames, readers and writers, frame vectors, allocation, and
      the drop protocol of frame handles as an interleaving of atomic steps.
    - [MemorySet], [MemorySetFacts], [VmSpace]: frame/vm/memory_set.rs and
      space.rs, against the page-table class.
    - [Perms]: nix/error.rs, kernel/libs/aster-rights, nix/vm/perms.rs.
    - [Interval], [FreeRegion]: nix/vm/vmar/interval.rs and the free regions of
      nix/vm/vmar/mod.rs.
    - [VmMapping], [VmMappingFacts], [Vmar], [VmarFacts], [VmarSpec],
      [VmarFault], [VmarExamples]: nix/vm/vmar.  A VMAR tree is a value whose
      children are updated in place; the VMO behind a mapping is a class.
    - [Vmo], [VmoFacts], [VmoExamples]: nix/vm/vmo.  Page arrays live in a
      store by number, so slices and copy-on-write children share them.
    - [RwLock], [RwLockFacts]: frame/sync/rwlock.rs and rwmutex.rs.
    - [WaitQueue], [WaitQueueFacts], [WaitQueueInv]: frame/sync/wait.rs,
      sync/mutex/wq_mutex.rs, task/task.rs, task/processor.rs.
    - [Credentials]: nix/process/credentials and the set*id system calls.
    - [Signals], [SignalFacts], [SignalReturn]: nix/process/signal,
      nix/process/kill.rs, nix/events/subject.rs and the signal system calls.
    - [ProcessTree], [ProcessTreeFacts]: the tables of processes, groups and
      sessions (nix/process: process, process_table.rs, exit.rs, wait.rs,
      clone.rs), as one state that the operations change step by step.
    - [SlotVec]: kernel/libs/aster-util/src/slot_vec.rs.
    - [PathLookup], [PathLookupFacts]: nix/fs/fs_resolver.rs over a class of
      dentries.
    - [RamFs], [RamFsFacts], [RamFsSpec], [RamFsProps], [RamFsReaddir]:
      nix/fs/ramfs/fs.rs.  [FsTree]: the trees that it refines.
    - [Dentry], [DentryFacts], [DentrySpec], [DentryProps], [MountProps]:
      nix/fs/utils/dentry.rs and mount.rs over any implementation of the inode
      interface.
    - [VirtQueue], [VirtQueueFacts]: kernel/comps/virtio/src/queue.rs.
    - [Ext2Raw], [Ext2RawFacts]: the metadata of nix/fs/ext2 on the device and
      in memory.  [Ext2Alloc], [Ext2AllocFacts], [Ext2Conc]: bitmaps, groups and
      counters, alone and interleaved (block_group.rs, fs.rs, super_block.rs,
      kernel/libs/aster-util/src/id_allocator.rs).  [Ext2Inode],
      [Ext2InodeFacts], [Ext2Files]: inodes and the blocks of their files
      (inode.rs, blocks_hole.rs) over a device whose answers are a list.
    - [Ext2Dir], [Ext2DirFacts], [Ext2DirSpec]: directory entries as records in
      the bytes of a directory (dir.rs, [Inner] of inode.rs), and the maps from
      names that the bytes stand for.  [Ext2Namei]: [Inode::create], [lookup],
      [link], [unlink], [rmdir] and [rename].  [Ext2Tree]: trees of inodes with
      link counts, and when they are consistent.  [Ext2NameiFacts],
      [Ext2NameiRefine], [Ext2NameiProps], [Ext2Namespace]: that the operations
      act on the bytes, inodes and bitmaps as on the tree.

    ** What the theorems show

    - Page tables ([radix_refines_flat_map], [kernel_half_preserved]): the radix
      tree implements a flat map, errors included; a new user table gets the
      kernel entries of the root, and mapping, unmapping and protecting leave them
      alone.
    - Address spaces ([vmspace_map_spec], [vmspace_unmap_spec],
      [vmspace_protect_spec], [vmspace_copy_clear], [vmspace_io_roundtrip]): each
      operation on every branch, with areas and page table in agreement, and
      that reads return what was written.
    - Frames ([frame_vec_roundtrip], [frame_drop_safe]): reads return what was
      written, no frame is freed while a handle is live.
    - VMARs and VMOs ([mmap_spec], [munmap_spec], [page_fault_spec],
      [vmo_write_isolated], [vmo_read_returns_content],
      [cow_child_snapshot]): what backs an address after each call, and that
      copy-on-write isolates parent and child.  The theorems on the contents of
      VMOs are for VMOs without a pager: with one, missing pages come from the
      file, and a child shares the pages of a parent that is not itself
      copy-on-write until the child writes them.  The lemmas
      [munmap_loses_pages] and [fork_loses_pages] are runs outside the
      hypotheses of these theorems on which the code goes wrong.
    - Locks ([rwlock_exclusion], [rwmutex_wakeups], [mutex_no_lost_wakeup],
      [wait_loses_task]): exclusion and wake-ups under every interleaving.
    - Credentials ([credentials_escalation]) and signals
      ([sig_queues_refine], [kill_process_spec], [handler_roundtrip],
      [sigkill_unprotected]).
    - Processes ([process_tree_consistent]): the tables of processes, groups and
      sessions stay consistent with each other, each call taken as one step.
    - Paths and mounts ([path_lookup_equiv], [path_lookup_terminates],
      [dcache_transparent], [mount_umount]): resolution against a recursive
      definition, its termination, and that the cache does to the tree of names
      what the file system does, after checks of its own.
    - ramfs ([ramfs_refines_tree], [readdir_complete]): its operations are those
      of a tree while no inode is dropped, with exact sizes and link counts that
      are high enough, and a listing in pieces gives every entry once.
    - Virtqueues ([virtqueue_lifo]): requests that complete in the order of a
      stack keep the free list; the lemma [virtqueue_fifo_corrupts] is a run in
      the order of a queue that destroys it.
    - ext2 ([ext2_namespace], [ext2_files_refine], [ext2_allocators],
      [ext2_alloc_interleavings], [ext2_loads_typed],
      [ext2_metadata_roundtrip], [ext2_inode_persists], [ext2_backup_groups]):
      names, files and allocators refine a tree of inodes, lists of blocks and
      sets of identifiers; which metadata loads and what the loaded fields are;
      and what writing it back keeps and clears.
      [ext2_namespace] is for trees whose inodes are all in memory, and claims
      nothing of the state after [ENOSPC].  The lemmas
      [ext2_create_leaves_entry] and [ext2_freed_inode_overwrites] are runs on
      which the file system ends inconsistent.

    ** Parameters, bounds and fuel

    Third-party code is a parameter with named laws: the frame allocator
    (buddy_system_allocator), [XArray] (xarray), the general registers
    (trapframe).  Pagers, and the page cache of an ext2 directory, are classes of
    operations; the laws of the page cache say that accesses within its size
    succeed, as they do while the device answers.  Witnesses instantiate each of
    them with a concrete function.  The recursion over a VMAR tree takes the depth
    of the tree as fuel, and the theorems hold for every fuel above it; the resolution of a path
    takes any fuel, and [path_lookup_terminates] says how much is enough; loops
    over ranges recur on the list of their indices; the page-table walk recurs
    on the level; a loop over the entries of a directory takes one more than its
    size, and each record of a directory that is well formed has at least 12 bytes.  The reader-writer lock
    theorems hold for fewer than [2^60] concurrent calls, the number the lock
    word can count.  Files of ext2 have at most 12 blocks, the direct blocks that
    the code supports, and [ext2_namespace] asks that a directory may still grow
    by one.

    ** Not modelled

    Weak memory (atomic accesses are sequentially consistent), the TLB,
    interrupts and page-table activation: hardware effects outside the state.
    Boot, architecture code, drivers, virtio devices and transports, TDX: device
    registers and assembly.  The network stack: a layer over third-party code.
    Scheduler policies, timers and clocks: the models of concurrent code take
    every choice.  Page caches of files, the block layer, the listing of ext2
    directories and the locks of its inodes; devpts and procfs; file tables,
    pipes, epoll and terminals; futexes; program loading, which calls the modelled
    VMAR and VMO operations on what a third-party parser returns; the remaining
    system calls, which read arguments from user memory and call operations;
    the build tools (osdk) and test framework. *)

From stdpp Require Export base decidable numbers list option gmap sets sorting relations.
From Stdlib Require Export ZArith Lia Bool.

#[global] Set Default Goal Selector "!".
#[global] Open Scope Z_scope.

(** * Outcomes

    A Rust call returns normally ([Ok]), returns an error value ([Err]) or
    panics ([Panic]).  The development follows the repository's default build
    profile (cargo's [dev] profile): integer overflow, [assert!],
    [debug_assert!] and [unwrap] on an absent value all panic. *)

Inductive outcome (E A : Type) : Type :=
  | Ok (a : A)
  | Err (e : E)
  | Panic.
Arguments Ok {E A} a.
Arguments Err {E A} e.
Arguments Panic {E A}.

#[export] Instance outcome_eq_dec {E A} `{EqDecision E, EqDecision A} :
  EqDecision (outcome E A).
Proof. solve_decision. Defined.

Definition obind {E A B} (m : outcome E A) (k : A -> outcome E B) : outcome E B :=
  match m with
  | Ok a => k a
  | Err e => Err e
  | Panic => Panic
  end.

(** [assert!(b)] and [debug_assert!(b)]. *)
Definition oassert {E} (b : bool) : outcome E unit := if b then Ok tt else Panic.

(** [Option::unwrap]. *)
Definition ounwrap {E A} (o : option A) : outcome E A :=
  match o with Some a => Ok a | None => Panic end.

(** * A state monad over outcomes: the state survives an error return. *)

Definition stM (S E A : Type) : Type := S -> outcome E A * S.

Definition sret {S E A} (a : A) : stM S E A := fun s => (Ok a, s).
Definition serr {S E A} (e : E) : stM S E A := fun s => (Err e, s).
Definition spanic {S E A} : stM S E A := fun s => (Panic, s).
Definition sget {S E} : stM S E S := fun s => (Ok s, s).
Definition sput {S E} (s' : S) : stM S E unit := fun _ => (Ok tt, s').
Definition slift {S E A} (o : outcome E A) : stM S E A := fun s => (o, s).

Definition sbind {S E A B} (m : stM S E A) (k : A -> stM S E B) : stM S E B :=
  fun s =>
    match m s with
    | (Ok a, s') => k a s'
    | (Err e, s') => (Err e, s')
    | (Panic, s') => (Panic, s')
    end.

(** A [for] loop over an iterator whose body may return early with [?]. *)
Fixpoint sfor {S E A} (l : list A) (body : A -> stM S E unit) : stM S E unit :=
  match l with
  | [] => sret tt
  | x :: l' => sbind (body x) (fun _ => sfor l' body)
  end.

Declare Scope monad_scope.
Delimit Scope monad_scope with monad.

Notation "'let?' x ':=' m 'in' k" := (obind m (fun x => k))
  (at level 10, x binder, m at level 200, k at level 200) : monad_scope.
Notation "'let!' x ':=' m 'in' k" := (sbind m (fun x => k))
  (at level 10, x binder, m at level 200, k at level 200) : monad_scope.
Notation "m ';!' k" := (sbind m (fun _ => k))
  (at level 199, k at level 200, right associativity) : monad_scope.
#[global] Open Scope monad_scope.

(** * Machine integers *)

Definition usize_bits : Z := 64.
Definition usize_max : Z := 18446744073709551615.

Definition is_usize (z : Z) : Prop := 0 <= z <= usize_max.

(** [checked_add]. *)
Definition checked_add (a b : Z) : option Z :=
  if a + b <=? usize_max then Some (a + b) else None.

(** [+], [-] and [*] on [usize], which panic on overflow. *)
Definition uadd {E} (a b : Z) : outcome E Z :=
  if a + b <=? usize_max then Ok (a + b) else Panic.
Definition usub {E} (a b : Z) : outcome E Z :=
  if b <=? a then Ok (a - b) else Panic.
Definition umul {E} (a b : Z) : outcome E Z :=
  if a * b <=? usize_max then Ok (a * b) else Panic.

Definition PAGE_SIZE : Z := 4096.

Lemma uadd_ok {E} a b : a + b <= usize_max -> @uadd E a b = Ok (a + b).
Proof. intros H. unfold uadd. by rewrite (proj2 (Z.leb_le _ _) H). Qed.

Lemma usub_ok {E} a b : b <= a -> @usub E a b = Ok (a - b).
Proof. intros H. unfold usub. by rewrite (proj2 (Z.leb_le _ _) H). Qed.

Lemma umul_ok {E} a b : a * b <= usize_max -> @umul E a b = Ok (a * b).
Proof. intros H. unfold umul. by rewrite (proj2 (Z.leb_le _ _) H). Qed.

Lemma usub_inv {E} a b c : @usub E a b = Ok c -> c = a - b /\ b <= a.
Proof. unfold usub. destruct (Z.leb_spec b a); [|done]. by intros [= <-]. Qed.

Lemma uadd_inv {E} a b c : @uadd E a b = Ok c -> c = a + b /\ a + b <= usize_max.
Proof. unfold uadd. destruct (Z.leb_spec (a + b) usize_max); [|done]. by intros [= <-]. Qed.

(** * Half-open ranges of addresses ([core::ops::Range<usize>]) *)

Record range : Type := Range { r_start : Z; r_end : Z }.

#[export] Instance range_eq_dec : EqDecision range.
Proof. solve_decision. Defined.

Definition in_range (a : Z) (r : range) : Prop := r_start r <= a < r_end r.

#[export] Instance in_range_dec a r : Decision (in_range a r).
Proof. unfold in_range. apply _. Defined.

(** [a..b] as an iterator: the integers from [a] to [b], exclusive. *)
Definition zrange (a b : Z) : list Z := seqZ a (b - a).

Lemma elem_of_zrange x a b : x ∈ zrange a b <-> a <= x < b.
Proof. unfold zrange. rewrite elem_of_seqZ. lia. Qed.

Lemma zrange_nil a b : b <= a -> zrange a b = [].
Proof. intros. unfold zrange. apply seqZ_nil. lia. Qed.

Lemma zrange_cons a b : a < b -> zrange a b = a :: zrange (a + 1) b.
Proof.
  intros. unfold zrange. rewrite seqZ_cons by lia. f_equal. rewrite <- Z.add_1_r. f_equal. lia.
Qed.

(** * Running programs *)

Lemma sbind_ok {S E A B} (m : stM S E A) (k : A -> stM S E B) s a s' :
  m s = (Ok a, s') -> sbind m k s = k a s'.
Proof. unfold sbind. by intros ->. Qed.

Lemma sbind_eq {S E A B} (m : stM S E A) (k : A -> stM S E B) s r s' :
  m s = (r, s') -> sbind m k s = match r with Ok a => k a s' | Err e => (Err e, s') | Panic => (Panic, s') end.
Proof. unfold sbind. by intros ->. Qed.

Lemma sbind_assoc {S E A B C} (m : stM S E A) (k : A -> stM S E B) (k' : B -> stM S E C) s :
  sbind (sbind m k) k' s = sbind m (fun a => sbind (k a) k') s.
Proof. unfold sbind. by destruct (m s) as [[a|e|] s']. Qed.

Lemma slift_ok {S E A B} (o : outcome E A) (k : A -> stM S E B) s a :
  o = Ok a -> sbind (slift o) k s = k a s.
Proof. by intros ->. Qed.

Lemma sbind_inv {S E A B} (m : stM S E A) (k : A -> stM S E B) s b s' :
  sbind m k s = (Ok b, s') -> exists a s1, m s = (Ok a, s1) /\ k a s1 = (Ok b, s').
Proof. unfold sbind. destruct (m s) as [[a| |] s1]; [eauto|done|done]. Qed.

Lemma slift_inv {S E A} (o : outcome E A) (s s' : S) a : slift o s = (Ok a, s') -> o = Ok a /\ s' = s.
Proof. by intros [= -> ->]. Qed.

(** A loop over [a..b] with an invariant that no iteration breaks. *)
Lemma sfor_zrange {S E} (body : Z -> stM S E unit) (I : Z -> S -> Prop) a b s :
  a <= b -> I a s ->
  (forall i s, a <= i < b -> I i s -> exists s', body i s = (Ok tt, s') /\ I (i + 1) s') ->
  exists s', sfor (zrange a b) body s = (Ok tt, s') /\ I b s'.
Proof.
  intros Hab. remember (Z.to_nat (b - a)) as n eqn:Hn. revert a s Hab Hn.
  induction n as [|n IH]; intros a s Hab Hn HI Hstep.
  - assert (a = b) as -> by lia. exists s. by rewrite zrange_nil by lia.
  - rewrite zrange_cons by lia. cbn [sfor].
    destruct (Hstep a s) as (s1 & Hrun & HI1); [lia|done|].
    rewrite (sbind_ok _ _ _ _ _ Hrun). apply IH; [lia|lia|done|].
    intros i s2 Hi. apply Hstep. lia.
Qed.

(** * Lists *)

Lemma filter_none {A} (P : A -> Prop) `{!forall x, Decision (P x)} (l : list A) :
  (forall x, x ∈ l -> ~ P x) -> filter P l = [].
Proof.
  induction l as [|x l IH]; intros Hl; [done|].
  rewrite filter_cons, decide_False by (apply Hl; set_solver).
  apply IH. intros. apply Hl. set_solver.
Qed.

Lemma filter_all {A} (P : A -> Prop) `{!forall x, Decision (P x)} (l : list A) :
  (forall x, x ∈ l -> P x) -> filter P l = l.
Proof.
  induction l as [|x l IH]; intros Hl; [done|].
  rewrite filter_cons, decide_True by (apply Hl; set_solver).
  f_equal. apply IH. intros. apply Hl. set_solver.
Qed.

(** How many elements of a list satisfy a test. *)
Definition count {A} (p : A -> bool) (l : list A) : Z := Z.of_nat (length (filter (fun x => p x = true) l)).

Lemma count_cons {A} (p : A -> bool) x (l : list A) : count p (x :: l) = Z.b2z (p x) + count p l.
Proof. unfold count. rewrite filter_cons. destruct (p x); [rewrite decide_True|rewrite decide_False]; cbn [length Z.b2z]; by lia. Qed.

Lemma count_app {A} (p : A -> bool) (l k : list A) : count p (l ++ k) = count p l + count p k.
Proof. unfold count. rewrite filter_app, length_app. lia. Qed.

Lemma count_insert {A} (p : A -> bool) (l : list A) i x y :
  l !! i = Some x -> count p (<[i := y]> l) = count p l - Z.b2z (p x) + Z.b2z (p y).
Proof.
  intros Hi. pose proof (lookup_lt_Some _ _ _ Hi) as Hlt.
  assert (count p l = count p (take i l ++ x :: drop (S i) l)) as -> by (by rewrite take_drop_middle).
  rewrite (insert_take_drop l i y Hlt), !count_app, !count_cons. lia.
Qed.

Lemma count_range {A} (p : A -> bool) (l : list A) : 0 <= count p l <= Z.of_nat (length l).
Proof. unfold count. pose proof (length_filter (fun x => p x = true) l). lia. Qed.

Lemma count_pos {A} (p : A -> bool) (l : list A) i x : l !! i = Some x -> p x = true -> 1 <= count p l.
Proof.
  revert i. induction l as [|z l IH]; intros [|i] Hi Hp; [done|done| |];
    rewrite count_cons; cbn in Hi; pose proof (count_range p l).
  - injection Hi as ->. rewrite Hp. cbn. lia.
  - specialize (IH i Hi Hp). destruct (p z); cbn; lia.
Qed.

(** Two places that satisfy the test count for two. *)
Lemma count_two {A} (p : A -> bool) (l : list A) i j x y :
  i <> j -> l !! i = Some x -> l !! j = Some y -> p x = true -> p y = true -> 2 <= count p l.
Proof.
  revert i j. induction l as [|z l IH]; intros [|i] [|j] Hne Hi Hj Hx Hy; try done;
    rewrite count_cons; cbn in Hi, Hj; pose proof (count_range p l).
  - injection Hi as ->. rewrite Hx. pose proof (count_pos p l j y Hj Hy). cbn. lia.
  - injection Hj as ->. rewrite Hy. pose proof (count_pos p l i x Hi Hx). cbn. lia.
  - assert (2 <= count p l) by (apply (IH i j); [congruence|done..]). destruct (p z); cbn; lia.
Qed.

Lemma count_none {A} (p : A -> bool) (l : list A) :
  (forall x, x ∈ l -> p x = false) -> count p l = 0.
Proof. intros Hl. unfold count. rewrite filter_none; [done|]. intros x Hx. by rewrite (Hl x Hx). Qed.

Lemma count_fmap {A} (p : A -> bool) (l : list A) : count p l = count (fun b => b) (p <$> l).
Proof. induction l as [|x l IH]; [done|]. cbn [fmap list_fmap]. by rewrite !count_cons, IH. Qed.

(** * Step relations *)

(** An invariant of every step holds in every reachable state. *)
Lemma rtc_invariant {A} (R : A -> A -> Prop) (P : A -> Prop) x y :
  (forall a b, R a b -> P a -> P b) -> rtc R x y -> P x -> P y.
Proof. intros Hstep. induction 1; [done|]. naive_solver. Qed.

(** * Tactics *)

(** Case analysis on the boolean comparisons of a goal. *)
Ltac zbool :=
  repeat match goal with
  | |- context [?a <=? ?b] => destruct (Z.leb_spec a b)
  | |- context [?a <? ?b] => destruct (Z.ltb_spec a b)
  | |- context [?a =? ?b] => destruct (Z.eqb_spec a b)
  | H : context [?a <=? ?b] |- _ => destruct (Z.leb_spec a b)
  | H : context [?a <? ?b] |- _ => destruct (Z.ltb_spec a b)
  | H : context [?a =? ?b] |- _ => destruct (Z.eqb_spec a b)
  end.

Create HintDb kern.
#[export] Hint Rewrite @uadd_ok @usub_ok @umul_ok using lia : kern.
