(* ===== verification/BTree.v ===== *)
(** The parts of [alloc::collections::BTreeMap] the kernel uses, keyed by
    addresses ([usize]): an association list in strictly increasing key order,
    with the cursor interface ([lower_bound], [move_next], [move_prev]) that
    the interval sets of the address-space code walk. *)

From S2P Require Import Prelude.

Section BTree.
Context {V : Type}.
Implicit Types (m : list (Z * V)) (k : Z) (v : V).

(** ** Map operations *)

Fixpoint bt_get k m : option V :=
  match m with
  | [] => None
  | (k', v) :: m' => if k =? k' then Some v else bt_get k m'
  end.

(** [BTreeMap::insert]: an existing entry is replaced. *)
Fixpoint bt_insert k v m : list (Z * V) :=
  match m with
  | [] => [(k, v)]
  | (k', v') :: m' =>
      if k <? k' then (k, v) :: m
      else if k =? k' then (k, v) :: m'
      else (k', v') :: bt_insert k v m'
  end.

(** [BTreeMap::remove], the map part (the removed value is [bt_get k m]). *)
Definition bt_remove k m : list (Z * V) :=
  filter (fun p => p.1 <> k) m.

Definition bt_keys m : list Z := m.*1.
Definition bt_values m : list V := m.*2.

(** [BTreeMap::append]: every entry of [m'] is inserted. *)
Definition bt_append m m' : list (Z * V) :=
  foldl (fun acc p => bt_insert p.1 p.2 acc) m m'.

(** [BTreeMap::retain]. *)
Definition bt_retain (f : V -> bool) m : list (Z * V) :=
  filter (fun p => f p.2 = true) m.

(** ** Cursors: [None] is the "ghost" non-element. *)

Definition cursor : Type := option nat.

Fixpoint bt_lower_excl_from (i : nat) k m : cursor :=
  match m with
  | [] => None
  | (k', _) :: m' => if k <? k' then Some i else bt_lower_excl_from (S i) k m'
  end.

(** [lower_bound(Bound::Excluded(&k))]: the first element whose key is > k. *)
Definition bt_lower_excl k m : cursor := bt_lower_excl_from 0 k m.

Definition cur_value m (c : cursor) : option V :=
  match c with
  | None => None
  | Some i => snd <$> m !! i
  end.

Definition cur_next m (c : cursor) : cursor :=
  match c with
  | None => if decide (m = []) then None else Some 0%nat
  | Some i => if decide (S i < length m)%nat then Some (S i) else None
  end.

Definition cur_prev m (c : cursor) : cursor :=
  match c with
  | None => if decide (m = []) then None else Some (pred (length m))
  | Some O => None
  | Some (S i) => Some i
  end.

(** ** Order invariant *)

Definition key_lt (p q : Z * V) : Prop := p.1 < q.1.

Definition bt_sorted m : Prop := StronglySorted key_lt m.

#[local] Instance key_lt_trans : Transitive key_lt.
Proof. intros [] [] []; unfold key_lt; simpl; lia. Qed.

Lemma bt_sorted_cons p m :
  bt_sorted (p :: m) <-> Forall (key_lt p) m /\ bt_sorted m.
Proof. unfold bt_sorted. rewrite StronglySorted_cons. tauto. Qed.

Lemma bt_sorted_app m1 m2 :
  bt_sorted (m1 ++ m2) <->
  bt_sorted m1 /\ bt_sorted m2 /\ (forall p q, p ∈ m1 -> q ∈ m2 -> key_lt p q).
Proof.
  unfold bt_sorted. rewrite StronglySorted_app. naive_solver.
Qed.

(** ** Lookup and membership *)

Lemma bt_get_elem k v m : bt_get k m = Some v -> (k, v) ∈ m.
Proof.
  induction m as [|[k' v'] m IH]; simpl; [done|].
  destruct (Z.eqb_spec k k'); intros; simplify_eq; set_solver.
Qed.

Lemma bt_elem_get k v m : bt_sorted m -> (k, v) ∈ m -> bt_get k m = Some v.
Proof.
  induction m as [|[k' v'] m IH]; [set_solver|].
  rewrite bt_sorted_cons. intros [Hall Hs] Hin. simpl.
  apply elem_of_cons in Hin as [[= -> ->]|Hin]; [by rewrite Z.eqb_refl|].
  rewrite Forall_forall in Hall. specialize (Hall _ Hin). unfold key_lt in Hall.
  simpl in Hall. destruct (Z.eqb_spec k k'); [lia|auto].
Qed.

Lemma bt_get_iff k v m : bt_sorted m -> bt_get k m = Some v <-> (k, v) ∈ m.
Proof. split; eauto using bt_get_elem, bt_elem_get. Qed.

Lemma bt_get_none k m : bt_get k m = None <-> (forall v, (k, v) ∉ m).
Proof.
  induction m as [|[k' v'] m IH]; simpl; [set_solver|].
  destruct (Z.eqb_spec k k').
  - subst. split; [done|]. intros H. exfalso. apply (H v'). set_solver.
  - rewrite IH. set_solver.
Qed.

Lemma bt_sorted_unique k v1 v2 m :
  bt_sorted m -> (k, v1) ∈ m -> (k, v2) ∈ m -> v1 = v2.
Proof.
  intros Hs H1%bt_elem_get H2%bt_elem_get; [congruence|done..].
Qed.

(** ** Insert *)

Lemma bt_elem_insert p k v m :
  bt_sorted m ->
  p ∈ bt_insert k v m <-> p = (k, v) \/ (p ∈ m /\ p.1 <> k).
Proof.
  induction m as [|[k' v'] m IH]; simpl; [set_solver|].
  rewrite bt_sorted_cons. intros [Hall Hs]. rewrite Forall_forall in Hall.
  unfold key_lt in Hall. simpl in Hall.
  assert (Hm : p ∈ m -> k' < p.1) by (intros; auto).
  destruct (Z.ltb_spec k k'); [|destruct (Z.eqb_spec k k')];
    rewrite !elem_of_cons; [| |rewrite IH by done].
  - split; [intros [->|[->|Hin]]|intros [->|[[->|Hin] Hk]]];
      try specialize (Hm Hin); simpl in *; eauto with lia.
  - subst. split; [intros [->|Hin]|intros [->|[[->|Hin] Hk]]];
      try specialize (Hm Hin); simpl in *; eauto with lia.
  - split; [intros [->|[->|[Hin Hk]]]|intros [->|[[->|Hin] Hk]]];
      try specialize (Hm Hin); simpl in *; eauto with lia.
Qed.

Lemma bt_insert_sorted k v m : bt_sorted m -> bt_sorted (bt_insert k v m).
Proof.
  induction m as [|[k' v'] m IH]; simpl; [intros; repeat constructor|].
  intros Hsm. apply bt_sorted_cons in Hsm as Hsm'. destruct Hsm' as [Hall Hs].
  destruct (Z.ltb_spec k k'); [|destruct (Z.eqb_spec k k')];
    rewrite bt_sorted_cons; split; auto.
  - constructor; [done|]. eapply Forall_impl; [done|].
    unfold key_lt; simpl; lia.
  - subst. exact Hall.
  - rewrite Forall_forall. intros p Hp. apply bt_elem_insert in Hp; [|done].
    rewrite Forall_forall in Hall. unfold key_lt in *. simpl in *.
    destruct Hp as [->|[Hp _]]; simpl; [lia|]. by apply Hall.
Qed.

Lemma bt_get_insert k k' v m :
  bt_sorted m ->
  bt_get k (bt_insert k' v m) = if k =? k' then Some v else bt_get k m.
Proof.
  intros Hs. pose proof (bt_insert_sorted k' v m Hs) as Hs'.
  apply option_eq. intros w. rewrite bt_get_iff, bt_elem_insert by done.
  destruct (Z.eqb_spec k k').
  - naive_solver.
  - rewrite bt_get_iff by done. simpl. naive_solver.
Qed.

Lemma bt_insert_same k v m : bt_sorted m -> bt_get k m = Some v -> bt_insert k v m = m.
Proof.
  induction m as [|[k' v'] m IH]; [done|]. simpl. intros Hs Hg.
  apply bt_sorted_cons in Hs as [Hall Hs]. rewrite Forall_forall in Hall.
  zbool; subst; try lia; [|naive_solver|f_equal; auto].
  apply bt_get_elem, Hall in Hg. unfold key_lt in Hg. simpl in Hg. lia.
Qed.

Lemma bt_insert_insert k v v' m : bt_insert k v (bt_insert k v' m) = bt_insert k v m.
Proof.
  induction m as [|[k1 v1] m IH]; simpl; zbool; simpl; zbool; subst; try lia; try done.
  by rewrite IH.
Qed.

Lemma bt_lookup_insert k k' v m :
  bt_get k (bt_insert k' v m) = if k =? k' then Some v else bt_get k m.
Proof. induction m as [|[k1 v1] m IH]; simpl; zbool; simpl; zbool; subst; done || lia || auto. Qed.

(** ** Remove, retain and append *)

Lemma bt_elem_remove p k m : p ∈ bt_remove k m <-> p ∈ m /\ p.1 <> k.
Proof. unfold bt_remove. rewrite list_elem_of_filter. tauto. Qed.

Lemma bt_get_remove k k' m :
  bt_get k (bt_remove k' m) = if k =? k' then None else bt_get k m.
Proof.
  induction m as [|[k1 v1] m IH]; [by destruct (k =? k')|].
  unfold bt_remove in *. rewrite filter_cons. simpl.
  case_decide as Hk; simpl; rewrite ?IH; zbool; subst; done || lia.
Qed.

Lemma bt_filter_sorted (P : Z * V -> Prop) `{!forall x, Decision (P x)} m :
  bt_sorted m -> bt_sorted (filter P m).
Proof.
  induction m as [|p m IH]; [done|]. rewrite bt_sorted_cons. intros [Hall Hs].
  rewrite filter_cons. case_decide; [|auto].
  rewrite bt_sorted_cons. split; [|auto].
  rewrite Forall_forall in *. intros q Hq.
  apply list_elem_of_filter in Hq. naive_solver.
Qed.

Lemma bt_remove_sorted k m : bt_sorted m -> bt_sorted (bt_remove k m).
Proof. apply bt_filter_sorted. Qed.

Lemma bt_retain_sorted f m : bt_sorted m -> bt_sorted (bt_retain f m).
Proof. apply bt_filter_sorted. Qed.

Lemma bt_elem_retain f p m : p ∈ bt_retain f m <-> p ∈ m /\ f p.2 = true.
Proof. unfold bt_retain. rewrite list_elem_of_filter. tauto. Qed.

Lemma bt_append_sorted m m' : bt_sorted m -> bt_sorted (bt_append m m').
Proof.
  unfold bt_append. revert m. induction m' as [|p m' IH]; simpl; [done|].
  intros m Hs. apply IH, bt_insert_sorted, Hs.
Qed.

(** Appending entries whose keys are new and pairwise distinct. *)
Lemma bt_elem_append p m m' :
  bt_sorted m -> NoDup (bt_keys m') ->
  p ∈ bt_append m m' <-> p ∈ m' \/ (p ∈ m /\ p.1 ∉ bt_keys m').
Proof.
  unfold bt_append, bt_keys. revert m.
  induction m' as [|q m' IH]; simpl; intros m Hs Hnd; [set_solver|].
  apply NoDup_cons in Hnd as [Hq Hnd].
  rewrite IH; [|by apply bt_insert_sorted|done].
  rewrite bt_elem_insert by done. rewrite !elem_of_cons.
  destruct q as [qk qv]; simpl in *.
  split.
  - intros [H|[[->|[H1 H2]] H3]]; naive_solver.
  - intros [[->|H]|[H1 H2]]; simpl in *; naive_solver.
Qed.

Lemma bt_append_nil_elem p m : NoDup (bt_keys m) -> p ∈ bt_append [] m <-> p ∈ m.
Proof. intros Hnd. rewrite bt_elem_append; [|constructor|done]. set_solver. Qed.

Lemma bt_removes_elem p (ks : list Z) m :
  p ∈ foldl (fun l k => bt_remove k l) m ks <-> p ∈ m /\ p.1 ∉ ks.
Proof.
  revert m. induction ks as [|k ks IH]; intros m; simpl; [set_solver|].
  rewrite IH, bt_elem_remove. set_solver.
Qed.

Lemma bt_removes_sorted (ks : list Z) m :
  bt_sorted m -> bt_sorted (foldl (fun l k => bt_remove k l) m ks).
Proof. revert m. induction ks as [|k ks IH]; intros m Hs; simpl; [done|]. by apply IH, bt_remove_sorted. Qed.

Lemma bt_keys_elem k m : k ∈ bt_keys m <-> exists v, (k, v) ∈ m.
Proof.
  unfold bt_keys. rewrite list_elem_of_fmap. split.
  - intros ([k' v] & -> & Hin). by exists v.
  - intros [v Hin]. by exists (k, v).
Qed.

Lemma bt_sorted_NoDup_keys m : bt_sorted m -> NoDup (bt_keys m).
Proof.
  unfold bt_keys. induction m as [|p m IH]; [constructor|].
  rewrite bt_sorted_cons. intros [Hall Hs]. rewrite fmap_cons. constructor; [|auto].
  rewrite list_elem_of_fmap. intros (q & Heq & Hq). rewrite Forall_forall in Hall.
  specialize (Hall q Hq). unfold key_lt in Hall. lia.
Qed.

(** ** Cursor lemmas *)

(** The lower bound splits the map at the key. *)
Lemma bt_lower_excl_spec k m :
  bt_sorted m ->
  exists m1 m2, m = m1 ++ m2 /\
    (forall p, p ∈ m1 -> p.1 <= k) /\ (forall p, p ∈ m2 -> k < p.1) /\
    bt_lower_excl k m = (if decide (m2 = []) then None else Some (length m1)).
Proof.
  unfold bt_lower_excl. intros Hs.
  enough (forall i, exists m1 m2, m = m1 ++ m2 /\
    (forall p, p ∈ m1 -> p.1 <= k) /\ (forall p, p ∈ m2 -> k < p.1) /\
    bt_lower_excl_from i k m =
      (if decide (m2 = []) then None else Some (i + length m1)%nat)) as H
    by apply (H 0%nat).
  revert Hs. induction m as [|[k' v] m IH]; intros Hs i; simpl.
  { exists [], []. set_solver. }
  apply bt_sorted_cons in Hs as [Hall Hs]. rewrite Forall_forall in Hall.
  destruct (Z.ltb_spec k k').
  - exists [], ((k', v) :: m). rewrite Nat.add_0_r. split; [done|].
    split; [set_solver|]. split; [|done].
    intros p [->|Hp]%elem_of_cons; simpl; [done|].
    specialize (Hall p Hp). unfold key_lt in Hall. simpl in Hall. lia.
  - destruct (IH Hs (S i)) as (m1 & m2 & -> & H1 & H2 & ->).
    exists ((k', v) :: m1), m2. split; [done|]. split; [|split; [done|]].
    + intros p [->|Hp]%elem_of_cons; simpl; auto.
    + case_decide; [done|]. simpl. f_equal. lia.
Qed.

(** The element before the lower bound is the last one with key <= k. *)
Lemma cur_prev_lower m1 m2 :
  cur_prev (m1 ++ m2) (if decide (m2 = []) then None else Some (length m1)) =
  if decide (m1 = []) then None else Some (pred (length m1)).
Proof.
  unfold cur_prev. destruct m1 as [|p m1]; simpl.
  - destruct m2; [done|]. by rewrite !decide_False.
  - case_decide; [subst|done]. simpl. by rewrite app_nil_r.
Qed.

End BTree.

#[export] Hint Resolve bt_insert_sorted bt_remove_sorted bt_retain_sorted
  bt_append_sorted bt_filter_sorted bt_sorted_NoDup_keys : kern.
