(* ===== verification/AlignExt.v ===== *)
(** Alignment of unsigned integers to powers of two
    (framework/libs/align_ext/src/lib.rs), for every width the macro
    [impl_align_ext!] instantiates. *)

From S2P Require Import Prelude.

Section Align.
(** The width of the integer type: 8, 16, 32 or 64. *)
Variable w : Z.

Definition uint_max : Z := 2 ^ w - 1.

(** [!x] on a [w]-bit unsigned integer. *)
Definition unot (x : Z) : Z := Z.lxor x uint_max.

Definition is_power_of_two (x : Z) : bool :=
  negb (x =? 0) && (Z.land x (x - 1) =? 0).

Definition align_up {E} (x align : Z) : outcome E Z :=
  let? _ := oassert (is_power_of_two align && (2 <=? align)) in
  let? sum := ounwrap (if x + (align - 1) <=? uint_max
                       then Some (x + (align - 1)) else None) in
  Ok (Z.land sum (unot (align - 1))).

Definition align_down {E} (x align : Z) : outcome E Z :=
  let? _ := oassert (is_power_of_two align && (2 <=? align)) in
  Ok (Z.land x (unot (align - 1))).

End Align.

(** * Lemmas *)

Lemma testbit_top k r : 0 <= k -> 0 <= r < 2 ^ k -> Z.testbit (2 ^ k + r) k = true.
Proof.
  intros Hk Hr. rewrite Z.testbit_true by done.
  rewrite Z.add_comm. replace (2 ^ k) with (1 * 2 ^ k) at 1 by lia.
  rewrite Z.div_add by lia. rewrite Z.div_small by lia. reflexivity.
Qed.

Lemma is_power_of_two_spec x :
  0 <= x -> is_power_of_two x = true <-> exists k, 0 <= k /\ x = 2 ^ k.
Proof.
  intros Hx. unfold is_power_of_two.
  rewrite andb_true_iff, negb_true_iff, Z.eqb_neq, Z.eqb_eq. split.
  - intros [Hnz Hland]. exists (Z.log2 x). split; [apply Z.log2_nonneg|].
    destruct (Z.log2_spec x) as [Hlo Hhi]; [lia|].
    rewrite Z.pow_succ_r in Hhi by apply Z.log2_nonneg.
    set (k := Z.log2 x) in *. assert (Hk : 0 <= k) by apply Z.log2_nonneg.
    destruct (Z.eq_dec x (2 ^ k)) as [|Hne]; [done|exfalso].
    assert (H1 : Z.testbit x k = true).
    { replace x with (2 ^ k + (x - 2 ^ k)) by lia. apply testbit_top; lia. }
    assert (H2 : Z.testbit (x - 1) k = true).
    { replace (x - 1) with (2 ^ k + (x - 1 - 2 ^ k)) by lia.
      apply testbit_top; lia. }
    assert (Hb : Z.testbit (Z.land x (x - 1)) k = true)
      by (by rewrite Z.land_spec, H1, H2).
    rewrite Hland, Z.testbit_0_l in Hb. done.
  - intros (k & Hk & ->). assert (0 < 2 ^ k) by (apply Z.pow_pos_nonneg; lia).
    split; [lia|].
    replace (2 ^ k - 1) with (Z.ones k) by (rewrite Z.ones_equiv; lia).
    rewrite Z.land_ones by lia. apply Z.mod_same. lia.
Qed.

(** Clearing the low [k] bits of a [w]-bit value rounds it down. *)
Lemma land_unot w k x :
  0 <= k <= w -> 0 <= x < 2 ^ w ->
  Z.land x (unot w (2 ^ k - 1)) = x / 2 ^ k * 2 ^ k.
Proof.
  intros Hk Hx. unfold unot, uint_max.
  rewrite <- Z.shiftr_div_pow2, <- Z.shiftl_mul_pow2 by lia.
  apply Z.bits_inj'. intros n Hn.
  replace (2 ^ k - 1) with (Z.ones k) by (rewrite Z.ones_equiv; lia).
  replace (2 ^ w - 1) with (Z.ones w) by (rewrite Z.ones_equiv; lia).
  rewrite Z.land_spec, Z.lxor_spec, Z.shiftl_spec by lia.
  destruct (Z.lt_ge_cases n k).
  - rewrite (Z.testbit_neg_r _ (n - k)) by lia.
    rewrite !Z.ones_spec_low by lia. by rewrite andb_false_r.
  - rewrite Z.shiftr_spec by lia. replace (n - k + k) with n by lia.
    rewrite (Z.ones_spec_high k) by lia.
    destruct (Z.lt_ge_cases n w).
    + rewrite Z.ones_spec_low by lia. by rewrite andb_true_r.
    + rewrite Z.ones_spec_high by lia. simpl. rewrite andb_false_r.
      destruct (Z.eq_dec x 0) as [->|]; [by rewrite Z.testbit_0_l|].
      symmetry. apply Z.bits_above_log2; [lia|].
      apply Z.log2_lt_pow2; [lia|].
      apply Z.lt_le_trans with (2 ^ w); [lia|]. apply Z.pow_le_mono_r; lia.
Qed.

Lemma align_valid k : 1 <= k -> is_power_of_two (2 ^ k) && (2 <=? 2 ^ k) = true.
Proof.
  intros Hk. apply andb_true_iff. split.
  - apply is_power_of_two_spec; [apply Z.pow_nonneg; lia|]. exists k. lia.
  - apply Z.leb_le. replace 2 with (2 ^ 1) at 1 by done.
    apply Z.pow_le_mono_r; lia.
Qed.

Lemma align_down_eq {E} w k x :
  1 <= k <= w -> 0 <= x < 2 ^ w ->
  @align_down w E x (2 ^ k) = Ok (x / 2 ^ k * 2 ^ k).
Proof.
  intros Hk Hx. unfold align_down. rewrite align_valid by lia. simpl.
  by rewrite land_unot by lia.
Qed.

Lemma align_up_eq {E} w k x :
  1 <= k <= w -> 0 <= x -> x + (2 ^ k - 1) < 2 ^ w ->
  @align_up w E x (2 ^ k) = Ok ((x + (2 ^ k - 1)) / 2 ^ k * 2 ^ k).
Proof.
  intros Hk Hx Hov. unfold align_up. rewrite align_valid by lia. simpl.
  unfold uint_max. destruct (Z.leb_spec (x + (2 ^ k - 1)) (2 ^ w - 1)); [|lia].
  simpl. assert (0 < 2 ^ k) by (apply Z.pow_pos_nonneg; lia).
  by rewrite land_unot by lia.
Qed.

(** The page-aligned instances on [usize]. *)
Definition page_up (x : Z) : Z := (x + 4095) / 4096 * 4096.
Definition page_down (x : Z) : Z := x / 4096 * 4096.

Lemma align_up_page {E} x :
  0 <= x -> x + 4095 <= usize_max -> @align_up 64 E x PAGE_SIZE = Ok (page_up x).
Proof.
  intros Hx Hov. unfold usize_max in Hov. unfold PAGE_SIZE, page_up.
  change 4096 with (2 ^ 12) at 1.
  rewrite align_up_eq; [reflexivity|lia|lia|]. change (2 ^ 12) with 4096.
  change (2 ^ 64) with 18446744073709551616. lia.
Qed.

Lemma align_down_page {E} x :
  0 <= x <= usize_max -> @align_down 64 E x PAGE_SIZE = Ok (page_down x).
Proof.
  intros Hx. unfold usize_max in Hx. unfold PAGE_SIZE, page_down.
  change 4096 with (2 ^ 12) at 1. apply align_down_eq; [lia|].
  change (2 ^ 64) with 18446744073709551616. lia.
Qed.

(** * Properties *)

(** On every [w]-bit unsigned type, [align_up] with an alignment [2^k]
    (k >= 1) panics exactly when [x + 2^k - 1] overflows the type, and
    otherwise returns the least multiple of [2^k] that is at least [x]. *)
Lemma align_up_least (E : Type) (w k x : Z) :
  1 <= k <= w -> 0 <= x < 2 ^ w ->
  (2 ^ w <= x + (2 ^ k - 1) /\ @align_up w E x (2 ^ k) = Panic) \/
  (exists y, @align_up w E x (2 ^ k) = Ok y /\ (2 ^ k | y) /\ x <= y < 2 ^ w /\
     forall z, (2 ^ k | z) -> x <= z -> y <= z).
Proof.
  intros Hk Hx. assert (Hp : 0 < 2 ^ k) by (apply Z.pow_pos_nonneg; lia).
  destruct (Z.lt_ge_cases (x + (2 ^ k - 1)) (2 ^ w)) as [Hov|Hov].
  - right. eexists. split; [apply align_up_eq; lia|].
    split; [by eexists|]. pose proof (Z.div_mod (x + (2 ^ k - 1)) (2 ^ k) ltac:(lia)).
    pose proof (Z.mod_pos_bound (x + (2 ^ k - 1)) (2 ^ k) Hp).
    split; [nia|]. intros z [q ->] Hz.
    apply Z.mul_le_mono_nonneg_r; [lia|].
    apply Z.lt_succ_r, Z.div_lt_upper_bound; nia.
  - left. split; [done|]. unfold align_up. rewrite align_valid by lia. simpl.
    unfold uint_max. by destruct (Z.leb_spec (x + (2 ^ k - 1)) (2 ^ w - 1)); [lia|].
Qed.

(** [align_down] returns the greatest multiple of the alignment that is
    at most [x] and never panics on a power of two >= 2; both operations panic
    on an alignment that is not a power of two >= 2. *)
Lemma align_down_greatest (E : Type) (w k x : Z) :
  1 <= k <= w -> 0 <= x < 2 ^ w ->
  (exists y, @align_down w E x (2 ^ k) = Ok y /\ (2 ^ k | y) /\ 0 <= y <= x /\
     forall z, (2 ^ k | z) -> z <= x -> z <= y) /\
  (forall a, 0 <= a < 2 ^ w -> (forall j, 1 <= j -> a <> 2 ^ j) ->
     @align_down w E x a = Panic /\ @align_up w E x a = Panic).
Proof.
  intros Hk Hx. assert (Hp : 0 < 2 ^ k) by (apply Z.pow_pos_nonneg; lia). split.
  - eexists. split; [apply align_down_eq; lia|]. split; [by eexists|].
    pose proof (Z.div_mod x (2 ^ k) ltac:(lia)).
    pose proof (Z.div_pos x (2 ^ k) ltac:(lia) Hp). pose proof (Z.mod_pos_bound x (2 ^ k) Hp).
    split; [nia|]. intros z [q ->] Hz.
    apply Z.mul_le_mono_nonneg_r; [lia|]. apply Z.div_le_lower_bound; nia.
  - intros a Ha Hna.
    enough (is_power_of_two a && (2 <=? a) = false) as Hf
      by (unfold align_down, align_up; by rewrite Hf).
    apply not_true_is_false. rewrite andb_true_iff, is_power_of_two_spec, Z.leb_le by lia.
    intros [(j & Hj & ->) H2]. apply (Hna j); [|done].
    destruct (Z.eq_dec j 0) as [->|]; [simpl in H2; lia|lia].
Qed.

Lemma align_down_greatest_witness :
  (exists y, @align_down 64 unit 12 (2 ^ 3) = Ok y /\ (2 ^ 3 | y) /\ 0 <= y <= 12 /\
     forall z, (2 ^ 3 | z) -> z <= 12 -> z <= y) /\
  @align_down 64 unit 12 6 = Panic.
Proof.
  split; [|vm_compute; reflexivity].
  exact (proj1 (align_down_greatest unit 64 3 12 ltac:(lia) ltac:(lia))).
Defined.
