(* ===== verification/Interval.v ===== *)
(** Interval sets over address ranges and the free regions of a VMAR
    (kernel/aster-nix/src/vm/vmar/interval.rs and the second half of
    kernel/aster-nix/src/vm/vmar/mod.rs). *)

From S2P Require Import Prelude BTree.

(** The trait [Interval<usize>]. *)
Class Interval (V : Type) : Type := irange : V -> range.

Definition istart {V} `{Interval V} (v : V) : Z := r_start (irange v).
Definition iend {V} `{Interval V} (v : V) : Z := r_end (irange v).

(** * Ranges *)

Notation is_intersected range1 range2 := (Z.max (r_start range1) (r_start range2) <? Z.min (r_end range1) (r_end range2)) (only parsing).

Definition get_intersected_range {E} (range1 range2 : range) : outcome E range :=
  let? _ := oassert (is_intersected range1 range2) in
  Ok (Range (Z.max (r_start range1) (r_start range2))
            (Z.min (r_end range1) (r_end range2))).

(** * [impl IntervalSet for BTreeMap<Vaddr, V>] *)

Section IntervalSet.
Context {V : Type} `{Interval V}.
Implicit Types (m : list (Z * V)) (v : V) (r : range).

(** The loop of [find] that walks [end_cursor]; one step of fuel per element. *)
Fixpoint find_collect (fuel : nat) m r (c : cursor) : list V :=
  match fuel with
  | O => []
  | S fuel' =>
      match cur_value m c with
      | None => []
      | Some v =>
          if r_end r <=? istart v then []
          else v :: find_collect fuel' m r (cur_next m c)
      end
  end.

Definition find m r : list V :=
  let start_cursor := cur_prev m (bt_lower_excl (r_start r) m) in
  let start_cursor :=
    match cur_value m start_cursor with
    | None => cur_next m start_cursor
    | Some v =>
        if iend v <=? r_start r then cur_next m start_cursor else start_cursor
    end in
  match cur_value m start_cursor with
  | None => []
  | Some v =>
      if r_end r <=? istart v then []
      else find_collect (length m) m r start_cursor
  end.

Definition find_one m (point : Z) : option V :=
  let c := cur_prev m (bt_lower_excl point m) in
  let c :=
    match cur_value m c with
    | None => cur_next m c
    | Some v => if iend v <=? point then cur_next m c else c
    end in
  match cur_value m c with
  | None => None
  | Some v => if point <? istart v then None else Some v
  end.

(** ** Well-formed interval maps: keyed by their start, non-empty, disjoint *)

Record iv_ok m : Prop := {
  iv_sorted : bt_sorted m;
  iv_key : forall k v, (k, v) ∈ m -> k = istart v /\ istart v < iend v;
  iv_disj : forall k1 v1 k2 v2,
    (k1, v1) ∈ m -> (k2, v2) ∈ m -> k1 < k2 -> iend v1 <= istart v2;
}.

(** The addresses an interval map covers. *)
Definition covered m (a : Z) : Prop :=
  exists k v, (k, v) ∈ m /\ in_range a (irange v).

Definition overlaps r v : Prop := istart v < r_end r /\ r_start r < iend v.

#[export] Instance overlaps_dec r v : Decision (overlaps r v).
Proof. unfold overlaps. apply _. Defined.

Lemma iv_ok_nil : iv_ok [].
Proof. split; [constructor|set_solver..]. Qed.

Lemma iv_ok_sub m m' :
  iv_ok m -> bt_sorted m' -> (forall p, p ∈ m' -> p ∈ m) -> iv_ok m'.
Proof. intros [Hs Hk Hd] Hs' Hsub. split; eauto. Qed.

Lemma iv_ok_app_r m1 m2 : iv_ok (m1 ++ m2) -> iv_ok m2.
Proof.
  intros Hok. eapply iv_ok_sub; [done| |set_solver].
  apply iv_sorted, bt_sorted_app in Hok. tauto.
Qed.

Lemma iv_ok_tail p m : iv_ok (p :: m) -> iv_ok m.
Proof. apply (iv_ok_app_r [p]). Qed.

Lemma iv_ok_head k v m :
  iv_ok ((k, v) :: m) ->
  k = istart v /\ istart v < iend v /\
  (forall k' v', (k', v') ∈ m -> k < k' /\ iend v <= istart v').
Proof.
  intros Hok. destruct (iv_key _ Hok k v) as [-> Hne]; [set_solver|].
  split; [done|]. split; [done|]. intros k' v' Hin.
  pose proof (iv_sorted _ Hok) as Hs. apply bt_sorted_cons in Hs as [Hall _].
  rewrite Forall_forall in Hall. specialize (Hall _ Hin).
  unfold key_lt in Hall. simpl in Hall. split; [lia|].
  eapply (iv_disj _ Hok); [| |done]; set_solver.
Qed.

Lemma iv_ok_cons v m :
  iv_ok m -> istart v < iend v ->
  (forall k' v', (k', v') ∈ m -> iend v <= istart v') ->
  iv_ok ((istart v, v) :: m).
Proof.
  intros Hok Hne Hrest.
  assert (Hlt : forall k' v', (k', v') ∈ m -> istart v < k').
  { intros k' v' Hin. destruct (iv_key _ Hok _ _ Hin) as [-> _].
    specialize (Hrest _ _ Hin). lia. }
  split.
  - apply bt_sorted_cons. split; [|by apply iv_sorted].
    rewrite Forall_forall. intros [k' v'] Hin. by apply (Hlt k' v').
  - intros k' v' [[= -> ->]|Hin]%elem_of_cons; [done|by apply (iv_key _ Hok)].
  - intros k1 v1 k2 v2 H1 H2 Hk.
    apply elem_of_cons in H1 as [[= -> ->]|H1];
      apply elem_of_cons in H2 as [[= -> ->]|H2]; [lia|by eapply Hrest| |].
    + specialize (Hlt _ _ H1). lia.
    + eapply (iv_disj _ Hok); [exact H1|exact H2|done].
Qed.

Lemma iv_ok_insert v m :
  iv_ok m -> istart v < iend v ->
  (forall k v', (k, v') ∈ m -> k <> istart v ->
     iend v <= istart v' \/ iend v' <= istart v) ->
  iv_ok (bt_insert (istart v) v m).
Proof.
  intros Hok Hne Hdisj. pose proof (iv_sorted _ Hok) as Hs.
  split; [by apply bt_insert_sorted| |].
  - intros k v' Hin. apply bt_elem_insert in Hin as [[= -> ->]|[Hin _]]; [done| |done].
    by apply (iv_key _ Hok).
  - intros k1 v1 k2 v2 H1 H2 Hlt.
    apply bt_elem_insert in H1; [|done]. apply bt_elem_insert in H2; [|done].
    simpl in *. destruct H1 as [[= -> ->]|[H1 Hn1]], H2 as [[= -> ->]|[H2 Hn2]].
    + lia.
    + destruct (iv_key _ Hok _ _ H2). destruct (Hdisj _ _ H2 Hn2); lia.
    + destruct (iv_key _ Hok _ _ H1). destruct (Hdisj _ _ H1 Hn1); lia.
    + eapply (iv_disj _ Hok); [exact H1|exact H2|done].
Qed.

Lemma iv_ok_remove k m : iv_ok m -> iv_ok (bt_remove k m).
Proof.
  intros Hok. eapply iv_ok_sub; [done|by apply bt_remove_sorted, iv_sorted|].
  intros p. rewrite bt_elem_remove. tauto.
Qed.

(** A boolean check of [iv_ok], for concrete maps. *)
Fixpoint iv_okb m : bool :=
  match m with
  | [] => true
  | (k, v) :: m' =>
      (k =? istart v) && (istart v <? iend v) &&
      match m' with [] => true | (_, v') :: _ => iend v <=? istart v' end &&
      iv_okb m'
  end.

Lemma iv_okb_ok m : iv_okb m = true -> iv_ok m.
Proof.
  induction m as [|[k v] m IH]; [intros; apply iv_ok_nil|]. simpl.
  rewrite !andb_true_iff, Z.eqb_eq, Z.ltb_lt.
  intros [[[-> Hne] Hnext] Hrest]. specialize (IH Hrest).
  apply iv_ok_cons; [done|done|]. destruct m as [|[k1 v1] m]; [set_solver|].
  apply Z.leb_le in Hnext. destruct (iv_ok_head _ _ _ IH) as (-> & Hne1 & Hm).
  intros k' v' [[= -> ->]|Hin]%elem_of_cons; [done|].
  destruct (Hm _ _ Hin). lia.
Qed.

Lemma bt_remove_head k v m : iv_ok ((k, v) :: m) -> bt_remove k ((k, v) :: m) = m.
Proof.
  intros Hok. destruct (iv_ok_head _ _ _ Hok) as (_ & _ & Hrest).
  unfold bt_remove. rewrite filter_cons, decide_False by (simpl; lia).
  apply filter_all. intros [k' v'] Hin. destruct (Hrest _ _ Hin). simpl. lia.
Qed.

Lemma covered_nil a : ~ covered [] a.
Proof. unfold covered. set_solver. Qed.

Lemma covered_app m1 m2 a : covered (m1 ++ m2) a <-> covered m1 a \/ covered m2 a.
Proof. unfold covered. set_solver. Qed.

Lemma covered_cons k v m a :
  covered ((k, v) :: m) a <-> in_range a (irange v) \/ covered m a.
Proof. unfold covered. set_solver. Qed.

Lemma covered_insert v m a :
  bt_sorted m -> (forall v', (istart v, v') ∉ m) ->
  covered (bt_insert (istart v) v m) a <-> in_range a (irange v) \/ covered m a.
Proof.
  intros Hs Hfresh. unfold covered. setoid_rewrite bt_elem_insert; [|done]. split.
  - intros (k & v' & [[= -> ->]|[Hin _]] & Ha); [by left|right; eauto].
  - intros [Ha|(k & v' & Hin & Ha)]; [eauto|]. exists k, v'. split; [right|done].
    split; [done|]. simpl. intros ->. by apply (Hfresh v').
Qed.

(** Two different members of a well-formed map do not overlap. *)
Lemma iv_ok_sep k1 v1 k2 v2 m :
  iv_ok m -> (k1, v1) ∈ m -> (k2, v2) ∈ m -> k1 <> k2 ->
  iend v1 <= istart v2 \/ iend v2 <= istart v1.
Proof.
  intros Hok H1 H2 Hne. destruct (Z.lt_total k1 k2) as [|[|]]; [left|lia|right];
    eauto using iv_disj.
Qed.

(** An address lies in at most one member. *)
Lemma covered_unique m a k1 v1 k2 v2 :
  iv_ok m -> (k1, v1) ∈ m -> (k2, v2) ∈ m ->
  in_range a (irange v1) -> in_range a (irange v2) -> k1 = k2 /\ v1 = v2.
Proof.
  intros Hok H1 H2 Ha1 Ha2.
  unfold in_range in *. fold (istart v1) (iend v1) (istart v2) (iend v2) in *.
  destruct (Z.eq_dec k1 k2) as [->|Hne].
  - split; [done|]. eapply bt_sorted_unique; eauto using iv_sorted.
  - destruct (iv_ok_sep _ _ _ _ _ Hok H1 H2 Hne); lia.
Qed.

(** Members without a common point are in order. *)
Lemma iv_ok_points m :
  bt_sorted m -> (forall k v, (k, v) ∈ m -> k = istart v /\ istart v < iend v) ->
  (forall k1 v1 k2 v2 x, (k1, v1) ∈ m -> (k2, v2) ∈ m -> k1 <> k2 ->
     in_range x (irange v1) -> in_range x (irange v2) -> False) ->
  iv_ok m.
Proof.
  intros Hs Hk Hd. constructor; [done|done|]. intros k1 v1 k2 v2 H1 H2 Hlt.
  destruct (Hk _ _ H1) as [-> Hn1], (Hk _ _ H2) as [-> Hn2]. apply Z.le_ngt. intros Hx.
  eapply (Hd _ _ _ _ (istart v2) H1 H2); [lia|..]; unfold in_range; fold (istart v1) (iend v1) (istart v2) (iend v2); lia.
Qed.

(** ** [find] computes the overlapping members, in order *)

(** The collecting loop on the remaining entries. *)
Fixpoint take_before r m : list V :=
  match m with
  | [] => []
  | (_, v) :: m' => if r_end r <=? istart v then [] else v :: take_before r m'
  end.

Lemma find_collect_drop fuel m r i :
  (length m <= fuel + i)%nat -> (i < length m)%nat ->
  find_collect fuel m r (Some i) = take_before r (drop i m).
Proof.
  revert i. induction fuel as [|fuel IH]; intros i Hf Hi; [lia|]. simpl.
  destruct (lookup_lt_is_Some_2 m i Hi) as [[k v] Hkv]. rewrite Hkv. simpl.
  rewrite (drop_S _ _ _ Hkv). simpl. destruct (r_end r <=? istart v); [done|].
  f_equal. case_decide as Hlt; [apply IH; lia|].
  rewrite drop_ge by lia. by destruct fuel.
Qed.

Lemma take_before_filter r m :
  iv_ok m -> (forall k v, (k, v) ∈ m -> r_start r < iend v) ->
  take_before r m = filter (overlaps r) (bt_values m).
Proof.
  unfold bt_values. induction m as [|[k v] m IH]; intros Hok Hend; [done|].
  destruct (iv_ok_head _ _ _ Hok) as (-> & Hne & Hrest). simpl.
  rewrite filter_cons. assert (Hv : r_start r < iend v) by (apply (Hend (istart v)); set_solver).
  destruct (Z.leb_spec (r_end r) (istart v)).
  - rewrite decide_False by (unfold overlaps; lia).
    symmetry. apply filter_none. intros v' Hv'.
    apply list_elem_of_fmap in Hv' as ([k' w] & -> & Hin). simpl.
    destruct (Hrest _ _ Hin). unfold overlaps. lia.
  - rewrite decide_True by (unfold overlaps; lia). f_equal.
    apply IH; [by eapply iv_ok_tail|]. intros k' v' Hin. apply (Hend k'). set_solver.
Qed.

Lemma filter_values_app (P : V -> Prop) `{!forall x, Decision (P x)} m1 m2 :
  filter P (bt_values (m1 ++ m2)) = filter P (bt_values m1) ++ filter P (bt_values m2).
Proof. unfold bt_values. by rewrite fmap_app, filter_app. Qed.

(** Entries that end before the range starts are not found. *)
Lemma filter_before_nil r m :
  (forall k v, (k, v) ∈ m -> iend v <= r_start r) -> filter (overlaps r) (bt_values m) = [].
Proof.
  intros Hm. apply filter_none. intros v Hv.
  apply list_elem_of_fmap in Hv as ([k w] & -> & Hin). specialize (Hm _ _ Hin).
  unfold overlaps. simpl. lia.
Qed.

(** [find] started at index [length m1]: nothing before it overlaps, everything
    from it on ends after the range's start. *)
Lemma find_from m1 m2 r :
  iv_ok (m1 ++ m2) ->
  (forall k v, (k, v) ∈ m1 -> iend v <= r_start r) ->
  (forall k v, (k, v) ∈ m2 -> r_start r < iend v) ->
  match cur_value (m1 ++ m2) (if decide (m2 = []) then None else Some (length m1)) with
  | None => []
  | Some v =>
      if r_end r <=? istart v then []
      else find_collect (length (m1 ++ m2)) (m1 ++ m2) r
             (if decide (m2 = []) then None else Some (length m1))
  end = filter (overlaps r) (bt_values (m1 ++ m2)).
Proof.
  intros Hok H1 H2. rewrite filter_values_app, (filter_before_nil r m1 H1). simpl.
  rewrite <- take_before_filter; [|by eapply iv_ok_app_r|done].
  destruct m2 as [|[k v] m2]; [done|]. rewrite decide_False by done. simpl.
  rewrite lookup_app_r, Nat.sub_diag by done. simpl.
  destruct (r_end r <=? istart v) eqn:E; [done|].
  rewrite find_collect_drop; rewrite ?length_app; simpl; [|lia..].
  rewrite drop_app_length. simpl. by rewrite E.
Qed.

(** The position both searches start from: the first entry that ends after
    the point. *)
Lemma start_cursor_spec m (a : Z) :
  iv_ok m ->
  exists m1 m2, m = m1 ++ m2 /\
    (forall k v, (k, v) ∈ m1 -> iend v <= a) /\
    (forall k v, (k, v) ∈ m2 -> a < iend v) /\
    match cur_value m (cur_prev m (bt_lower_excl a m)) with
    | None => cur_next m (cur_prev m (bt_lower_excl a m))
    | Some v =>
        if iend v <=? a then cur_next m (cur_prev m (bt_lower_excl a m))
        else cur_prev m (bt_lower_excl a m)
    end = if decide (m2 = []) then None else Some (length m1).
Proof.
  intros Hok. destruct (bt_lower_excl_spec a m (iv_sorted _ Hok))
    as (m1 & m2 & -> & H1 & H2 & ->). rewrite cur_prev_lower.
  assert (Hm2 : forall k v, (k, v) ∈ m2 -> a < iend v).
  { intros k v Hin. destruct (iv_key _ Hok k v) as [-> ?]; [set_solver|].
    specialize (H2 _ Hin). simpl in H2. lia. }
  destruct m1 as [|[k v] m0 _] using rev_ind.
  - exists [], m2. split; [done|]. split; [set_solver|]. split; [done|]. simpl.
    by destruct m2.
  - assert (Hlen : length (m0 ++ [(k, v)]) = S (length m0))
      by (rewrite length_app; simpl; lia).
    rewrite (decide_False (P := m0 ++ [(k, v)] = [])) by (by destruct m0).
    rewrite Hlen. rewrite <- app_assoc in *. simpl.
    rewrite lookup_app_r, Nat.sub_diag by done. simpl.
    assert (H0 : forall k' v', (k', v') ∈ m0 -> iend v' <= a).
    { intros k' v' Hin. assert (Hlt : k' < k).
      { pose proof (iv_sorted _ Hok) as Hs. apply bt_sorted_app in Hs as (_ & _ & Hs).
        specialize (Hs (k', v') (k, v) Hin). unfold key_lt in Hs. apply Hs. set_solver. }
      pose proof (iv_disj _ Hok k' v' k v) as Hd. specialize (H1 (k, v)). simpl in H1.
      destruct (iv_key _ Hok k v) as [-> ?]; [set_solver|].
      enough (iend v' <= istart v) by (enough (istart v <= a) by lia; apply H1; set_solver).
      apply Hd; [set_solver|set_solver|done]. }
    destruct (Z.leb_spec (iend v) a).
    + exists (m0 ++ [(k, v)]), m2. rewrite <- app_assoc. split; [done|].
      split; [|split; [done|]].
      * intros k' v' [Hin|Hin]%elem_of_app; [by eapply H0|].
        apply list_elem_of_singleton in Hin. by simplify_eq.
      * rewrite Hlen, length_app. simpl. destruct m2; simpl; case_decide; try done; lia.
    + exists m0, ((k, v) :: m2). split; [done|]. split; [done|]. split; [|done].
      intros k' v' [[= -> ->]|Hin]%elem_of_cons; [done|by eapply Hm2].
Qed.

Lemma find_filter m r : iv_ok m -> find m r = filter (overlaps r) (bt_values m).
Proof.
  intros Hok. destruct (start_cursor_spec m (r_start r) Hok)
    as (m1 & m2 & Hm & H1 & H2 & Hc). unfold find. rewrite Hc, Hm.
  apply find_from; [by rewrite <- Hm|done|done].
Qed.

Lemma elem_of_find m r v :
  iv_ok m -> v ∈ find m r <-> (istart v, v) ∈ m /\ overlaps r v.
Proof.
  intros Hok. rewrite find_filter by done. rewrite list_elem_of_filter.
  unfold bt_values. rewrite list_elem_of_fmap. split.
  - intros (Ho & [k w] & -> & Hin). simpl in *.
    destruct (iv_key _ Hok _ _ Hin) as [-> _]. done.
  - intros [Hin Ho]. split; [done|]. by exists (istart v, v).
Qed.

(** Nothing is found in a range that the members avoid. *)
Lemma find_avoid m r :
  iv_ok m -> r_start r < r_end r -> (forall x, in_range x r -> ~ covered m x) -> find m r = [].
Proof.
  intros Hok Hne Hno. rewrite find_filter by done. apply filter_none. intros c Hin [H1 H2].
  apply list_elem_of_fmap in Hin as ([k c'] & -> & Hin). destruct (iv_key _ Hok _ _ Hin) as [-> Hlt].
  cbn [snd] in *. apply (Hno (Z.max (istart c') (r_start r))); [unfold in_range; lia|].
  exists (istart c'), c'. split; [done|]. unfold in_range. fold (istart c') (iend c'). lia.
Qed.

Lemma find_one_spec m a v :
  iv_ok m -> find_one m a = Some v <-> (istart v, v) ∈ m /\ in_range a (irange v).
Proof.
  intros Hok. destruct (start_cursor_spec m a Hok) as (m1 & m2 & Hm & H1 & H2 & Hc).
  unfold find_one. rewrite Hc. unfold in_range. fold (istart v) (iend v).
  destruct m2 as [|[k w] m2].
  - rewrite decide_True by done. simpl. split; [done|]. intros [Hin Ha].
    rewrite Hm, app_nil_r in Hin. specialize (H1 _ _ Hin). lia.
  - rewrite decide_False by done. simpl.
    rewrite Hm, lookup_app_r, Nat.sub_diag by done. simpl.
    assert (Hw : (k, w) ∈ m) by (rewrite Hm; set_solver).
    destruct (iv_key _ Hok _ _ Hw) as [-> Hne].
    assert (a < iend w) by (apply (H2 (istart w)); set_solver).
    destruct (Z.ltb_spec a (istart w)).
    + split; [done|]. intros [Hin Ha]. rewrite <- Hm in Hin. exfalso.
      destruct (decide (istart v = istart w)) as [|Hdiff]; [lia|].
      rewrite Hm in Hin. apply elem_of_app in Hin as [Hin|Hin].
      { specialize (H1 _ _ Hin). lia. }
      assert (Hok2 : iv_ok ((istart w, w) :: m2))
        by (apply (iv_ok_app_r m1); by rewrite <- Hm).
      destruct (iv_ok_head _ _ _ Hok2) as (_ & _ & Hrest).
      apply elem_of_cons in Hin as [[= ? ->]|Hin]; [lia|].
      destruct (Hrest _ _ Hin). lia.
    + split.
      * intros [= ->]. rewrite <- Hm. split; [done|lia].
      * intros [Hin Ha]. f_equal. rewrite <- Hm in Hin.
        apply (covered_unique m a (istart w) w (istart v) v Hok Hw Hin);
          unfold in_range; fold (istart v) (iend v) (istart w) (iend w); lia.
Qed.

Lemma find_one_none m a : iv_ok m -> ~ covered m a -> find_one m a = None.
Proof.
  intros Hok Hno. destruct (find_one m a) as [v|] eqn:Hf; [exfalso|done].
  apply find_one_spec in Hf as [Hin Ha]; [|done]. apply Hno. by exists (istart v), v.
Qed.


End IntervalSet.
