(* ===== verification/FreeRegion.v ===== *)
(** Free regions of a VMAR: splitting one to allocate a range, and merging
    adjacent ones after a deallocation
    (kernel/aster-nix/src/vm/vmar/mod.rs, [FreeRegion] and
    [merge_continuous_regions]). *)

From S2P Require Import Prelude BTree Interval.

Record FreeRegion : Type := MkFreeRegion { fr_range : range }.

#[export] Instance free_region_interval : Interval FreeRegion := fr_range.

Definition fr_start (r : FreeRegion) : Z := r_start (fr_range r).
Definition fr_end (r : FreeRegion) : Z := r_end (fr_range r).

(** [FreeRegion::allocate_range]: what is left of a region. *)
Definition allocate_range (self : FreeRegion) (allocate_range : range) : list FreeRegion :=
  (if fr_start self <? r_start allocate_range
   then [MkFreeRegion (Range (fr_start self) (r_start allocate_range))] else []) ++
  (if r_end allocate_range <? fr_end self
   then [MkFreeRegion (Range (r_end allocate_range) (fr_end self))] else []).

(** [FreeRegion::merge_other_region]. *)
Definition merge_other_region {E} (self other : FreeRegion) : outcome E FreeRegion :=
  let? _ := oassert (fr_end self =? fr_start other) in
  let? _ := oassert (fr_start self <? fr_end other) in
  Ok (MkFreeRegion (Range (fr_start self) (fr_end other))).

Definition insert_region (m : list (Z * FreeRegion)) (r : FreeRegion) :=
  bt_insert (fr_start r) r m.

(** [while let Some(another_region) = free_regions.remove(&region_end)]: every
    turn removes an entry, so the number of entries is enough fuel. *)
Fixpoint merge_while {E} (fuel : nat) (free_region : FreeRegion) (region_end : Z)
    (free_regions : list (Z * FreeRegion))
    : outcome E (FreeRegion * list (Z * FreeRegion)) :=
  match fuel with
  | O => Ok (free_region, free_regions)
  | S fuel' =>
      match bt_get region_end free_regions with
      | None => Ok (free_region, free_regions)
      | Some another_region =>
          let? merged := merge_other_region free_region another_region in
          merge_while fuel' merged (fr_end another_region)
            (bt_remove region_end free_regions)
      end
  end.

(** The [for key in keys] loop. *)
Fixpoint merge_keys {E} (keys : list Z) (free_regions new_free_regions : list (Z * FreeRegion))
    : outcome E (list (Z * FreeRegion)) :=
  match keys with
  | [] => Ok new_free_regions
  | key :: keys' =>
      match bt_get key free_regions with
      | None => merge_keys keys' free_regions new_free_regions
      | Some free_region =>
          let free_regions := bt_remove key free_regions in
          let? p := merge_while (length free_regions) free_region
                      (fr_end free_region) free_regions in
          merge_keys keys' p.2 (insert_region new_free_regions p.1)
      end
  end.

Definition merge_continuous_regions {E} (free_regions : list (Z * FreeRegion))
    : outcome E (list (Z * FreeRegion)) :=
  let? new_free_regions := merge_keys (bt_keys free_regions) free_regions [] in
  Ok (bt_append [] new_free_regions).

(** * Splitting *)

Lemma fr_in_range a r : in_range a (irange r) <-> fr_start r <= a < fr_end r.
Proof. done. Qed.

Lemma elem_of_allocate_range self a p :
  p ∈ allocate_range self a <->
  (p = MkFreeRegion (Range (fr_start self) (r_start a)) /\ fr_start self < r_start a) \/
  (p = MkFreeRegion (Range (r_end a) (fr_end self)) /\ r_end a < fr_end self).
Proof.
  unfold allocate_range. rewrite elem_of_app.
  destruct (Z.ltb_spec (fr_start self) (r_start a)),
    (Z.ltb_spec (r_end a) (fr_end self));
    rewrite ?list_elem_of_singleton, ?elem_of_nil; naive_solver lia.
Qed.

(** Removing a region and putting back what an allocation leaves of it. *)
Definition carve (m : list (Z * FreeRegion)) (r : FreeRegion) (a : range) :=
  foldl insert_region (bt_remove (fr_start r) m) (allocate_range r a).

Section Carve.
Variables (m : list (Z * FreeRegion)) (r : FreeRegion) (a : range).
Hypothesis Hok : iv_ok m.
Hypothesis Hin : (fr_start r, r) ∈ m.
Hypothesis Ha : fr_start r <= r_start a /\ r_start a < r_end a /\ r_end a <= fr_end r.

(** Inserting one piece of [r] into the map without [r]. *)
Lemma piece_insert m' p :
  iv_ok m' ->
  (forall k v, (k, v) ∈ m' -> ((k, v) ∈ m /\ k <> fr_start r) \/
     (fr_end v <= fr_start p)) ->
  fr_start r <= fr_start p -> fr_start p < fr_end p -> fr_end p <= fr_end r ->
  iv_ok (insert_region m' p).
Proof.
  intros Hok' Hm' H1 H2 H3. apply iv_ok_insert; [done|done|].
  intros k v Hkv Hne. destruct (Hm' _ _ Hkv) as [[Hkm Hkr]|Hle]; [|by right].
  destruct (iv_ok_sep _ _ _ _ _ Hok Hkm Hin Hkr) as [Hs|Hs];
    unfold istart, iend, irange, free_region_interval, fr_start, fr_end in *; lia.
Qed.

Lemma carve_ok : iv_ok (carve m r a).
Proof.
  unfold carve, allocate_range.
  assert (Hrm : forall k v, (k, v) ∈ bt_remove (fr_start r) m ->
            (k, v) ∈ m /\ k <> fr_start r)
    by (intros k v; rewrite bt_elem_remove; done).
  assert (Hok0 : iv_ok (bt_remove (fr_start r) m)) by (by apply iv_ok_remove).
  destruct (Z.ltb_spec (fr_start r) (r_start a)) as [Hl|Hl],
    (Z.ltb_spec (r_end a) (fr_end r)) as [Hr|Hr]; simpl; [| | |done].
  - apply piece_insert; [| |unfold fr_start, fr_end in *; simpl; lia..].
    + apply piece_insert; [done|eauto|unfold fr_start, fr_end in *; simpl; lia..].
    + intros k v Hkv. apply bt_elem_insert in Hkv as [[= -> ->]|[Hkv _]];
        [right; unfold fr_start, fr_end in *; simpl; lia|eauto|by apply iv_sorted].
  - apply piece_insert; [done|eauto|unfold fr_start, fr_end in *; simpl; lia..].
  - apply piece_insert; [done|eauto|unfold fr_start, fr_end in *; simpl; lia..].
Qed.

Lemma elem_of_carve k v :
  (k, v) ∈ carve m r a <->
  ((k, v) ∈ m /\ k <> fr_start r) \/ (v ∈ allocate_range r a /\ k = fr_start v).
Proof.
  assert (Hs0 : bt_sorted (bt_remove (fr_start r) m))
    by (by apply bt_remove_sorted, iv_sorted).
  assert (Hfar : forall k v, (k, v) ∈ m -> k <> fr_start r -> k <> r_end a \/ fr_end r <= r_end a).
  { intros k0 v0 Hk0 Hne0. destruct (iv_key _ Hok _ _ Hk0) as [-> ?].
    destruct (iv_ok_sep _ _ _ _ _ Hok Hk0 Hin Hne0) as [Hx|Hx];
      unfold istart, iend, irange, free_region_interval, fr_start, fr_end in *; lia. }
  unfold carve. rewrite elem_of_allocate_range. unfold allocate_range, insert_region.
  destruct (Z.ltb_spec (fr_start r) (r_start a)) as [Hl|Hl],
    (Z.ltb_spec (r_end a) (fr_end r)) as [Hr|Hr]; simpl.
  - rewrite bt_elem_insert, bt_elem_insert, bt_elem_remove by auto with kern.
    unfold fr_start in *; simpl in *. split.
    + intros [[= -> ->]|[[[= -> ->]|[[H1 H2] H3]] H4]]; simpl in *; eauto 6.
    + intros [[H1 H2]|[[[-> H1]|[-> H1]] ->]]; simpl in *; [|right|left; done].
      * right. specialize (Hfar _ _ H1 H2). split; [right; auto|lia].
      * split; [left; done|lia].
  - rewrite bt_elem_insert, bt_elem_remove by auto with kern.
    unfold fr_start in *; simpl in *. split.
    + intros [[= -> ->]|[[H1 H2] H3]]; simpl in *; eauto 6.
    + intros [[H1 H2]|[[[-> H1]|[-> H1]] ->]]; simpl in *; [right; auto|left; done|lia].
  - rewrite bt_elem_insert, bt_elem_remove by auto with kern.
    unfold fr_start in *; simpl in *. split.
    + intros [[= -> ->]|[[H1 H2] H3]]; simpl in *; eauto 6.
    + intros [[H1 H2]|[[[-> H1]|[-> H1]] ->]]; simpl in *; [|lia|left; done].
      right. specialize (Hfar _ _ H1 H2). split; [auto|lia].
  - rewrite bt_elem_remove. simpl. split; [eauto|].
    intros [?|[[[-> H1]|[-> H1]] ->]]; [done|lia..].
Qed.

(** After a split exactly the allocated range is no longer free. *)
Lemma covered_carve x : covered (carve m r a) x <-> covered m x /\ ~ in_range x a.
Proof.
  unfold covered. setoid_rewrite elem_of_carve. split.
  - intros (k & v & [[Hkv Hne]|[Hv ->]] & Hx).
    + split; [by exists k, v|]. intros Hxa.
      destruct (iv_ok_sep _ _ _ _ _ Hok Hkv Hin Hne);
        unfold in_range, istart, iend, irange, free_region_interval, fr_start, fr_end in *;
        lia.
    + apply elem_of_allocate_range in Hv. split.
      * exists (fr_start r), r. split; [done|].
        destruct Hv as [[-> ?]|[-> ?]];
          unfold in_range, irange, free_region_interval, fr_start, fr_end in *; simpl in *; lia.
      * destruct Hv as [[-> ?]|[-> ?]];
          unfold in_range, irange, free_region_interval, fr_start, fr_end in *; simpl in *; lia.
  - intros [(k & v & Hkv & Hx) Hxa].
    destruct (decide (k = fr_start r)) as [->|Hne]; [|by exists k, v; auto].
    assert (v = r) as -> by (eapply bt_sorted_unique; eauto using iv_sorted).
    destruct (decide (x < r_start a)).
    + eexists _, (MkFreeRegion (Range (fr_start r) (r_start a))). split.
      * right. split; [|done]. apply elem_of_allocate_range. left.
        unfold in_range, irange, free_region_interval, fr_start, fr_end in *. split; [done|lia].
      * unfold in_range, irange, free_region_interval, fr_start, fr_end in *. simpl. lia.
    + eexists _, (MkFreeRegion (Range (r_end a) (fr_end r))). split.
      * right. split; [|done]. apply elem_of_allocate_range. right.
        unfold in_range, irange, free_region_interval, fr_start, fr_end in *. split; [done|lia].
      * unfold in_range, irange, free_region_interval, fr_start, fr_end in *. simpl. lia.
Qed.
End Carve.

(** * Merging *)

Section Merge.
Context {E : Type}.

(** A maximal run of adjacent regions is merged, and the rest starts strictly
    after it. *)
Lemma merge_while_spec r m :
  iv_ok ((fr_start r, r) :: m) ->
  exists r' chain m',
    m = chain ++ m' /\
    @merge_while E (length m) r (fr_end r) m = Ok (r', m') /\
    fr_start r' = fr_start r /\ fr_end r <= fr_end r' /\
    (forall a, in_range a (irange r') <-> in_range a (irange r) \/ covered chain a) /\
    (forall k v, (k, v) ∈ m' -> fr_end r' < fr_start v).
Proof.
  revert r. induction m as [|[k2 r2] m IH]; intros r Hok.
  { exists r, [], []. unfold covered. set_solver by lia. }
  destruct (iv_ok_head _ _ _ Hok) as (_ & Hne & Hrest).
  pose proof (iv_ok_tail _ _ Hok) as Hok2.
  destruct (iv_ok_head _ _ _ Hok2) as (-> & Hne2 & Hrest2).
  destruct (Hrest (istart r2) r2) as [Hlt Hle]; [set_solver|].
  change (istart r2) with (fr_start r2) in *. change (iend r2) with (fr_end r2) in *.
  change (istart r) with (fr_start r) in *. change (iend r) with (fr_end r) in *.
  simpl. destruct (Z.eqb_spec (fr_end r) (fr_start r2)) as [Heq|Hneq].
  - unfold merge_other_region. rewrite (proj2 (Z.eqb_eq _ _) Heq). simpl.
    destruct (Z.ltb_spec (fr_start r) (fr_end r2)); [simpl|lia].
    set (rm := MkFreeRegion (Range (fr_start r) (fr_end r2))).
    rewrite Heq, (bt_remove_head _ _ _ Hok2).
    assert (Hokm : iv_ok ((fr_start rm, rm) :: m)).
    { apply (iv_ok_cons rm); [by eapply iv_ok_tail|done|].
      intros k v Hin. by destruct (Hrest2 _ _ Hin). }
    destruct (IH rm Hokm) as (r' & chain & m' & -> & Hw & Hs' & He' & Hcov & Hgap).
    exists r', ((fr_start r2, r2) :: chain), m'. split; [done|].
    split; [exact Hw|]. split; [done|]. split; [unfold rm, fr_end in *; simpl in *; lia|].
    split; [|done]. intros a. rewrite Hcov. unfold covered. split.
    + intros [Ha|(k & v & Hin & Ha)]; [|right; exists k, v; set_solver].
      destruct (decide (a < fr_end r)); [left|right; exists (fr_start r2), r2];
        unfold in_range, irange, free_region_interval, rm, fr_start, fr_end in *;
        simpl in *; [lia|]. split; [set_solver|lia].
    + intros [Ha|(k & v & [[= -> ->]|Hin]%elem_of_cons & Ha)]; [left|left|right; eauto];
        unfold in_range, irange, free_region_interval, rm, fr_start, fr_end in *;
        simpl in *; lia.
  - assert (Hnone : bt_get (fr_end r) m = None).
    { apply bt_get_none. intros v Hin. destruct (Hrest2 _ _ Hin). lia. }
    rewrite Hnone. exists r, [], ((fr_start r2, r2) :: m).
    split; [done|]. split; [done|]. split; [done|]. split; [lia|].
    split; [unfold covered; set_solver|].
    intros k v [[= -> ->]|Hin]%elem_of_cons; [lia|].
    destruct (Hrest2 _ _ Hin) as [? Hx]. change (istart v) with (fr_start v) in Hx.
    pose proof Hne2. lia.
Qed.

(** Keys of regions already merged away are skipped. *)
Lemma merge_keys_skip (ks ks' : list Z) (m new : list (Z * FreeRegion)) :
  (forall k, k ∈ ks -> bt_get k m = None) ->
  @merge_keys E (ks ++ ks') m new = merge_keys ks' m new.
Proof.
  induction ks as [|k ks IH]; intros Hk; [done|]. simpl.
  rewrite (Hk k) by set_solver. apply IH. set_solver.
Qed.

(** No region of a map ends where another one starts. *)
Definition no_adjacent (m : list (Z * FreeRegion)) : Prop :=
  forall k1 r1 k2 r2, (k1, r1) ∈ m -> (k2, r2) ∈ m -> fr_end r1 <> fr_start r2.

(** The new map so far lies strictly below the regions still to visit. *)
Definition below (new m : list (Z * FreeRegion)) : Prop :=
  forall k1 r1 k2 r2, (k1, r1) ∈ new -> (k2, r2) ∈ m -> fr_end r1 < fr_start r2.

(** Inserting a region above all of [new]. *)
Lemma insert_above new r :
  iv_ok new -> no_adjacent new -> fr_start r < fr_end r ->
  (forall k v, (k, v) ∈ new -> fr_end v < fr_start r) ->
  iv_ok (insert_region new r) /\ no_adjacent (insert_region new r) /\
  (forall a, covered (insert_region new r) a <-> in_range a (irange r) \/ covered new a).
Proof.
  intros Hok Hadj Hne Habove.
  assert (Hpos : forall k v, (k, v) ∈ new -> k = fr_start v /\ fr_start v < fr_end v)
    by apply (iv_key _ Hok).
  split; [|split].
  - apply iv_ok_insert; [done|done|]. intros k v Hin _. right.
    specialize (Habove _ _ Hin). change (fr_end v <= fr_start r). lia.
  - intros k1 r1 k2 r2 H1 H2.
    apply bt_elem_insert in H1; [|by apply iv_sorted].
    apply bt_elem_insert in H2; [|by apply iv_sorted].
    destruct H1 as [[= -> ->]|[H1 _]], H2 as [[= -> ->]|[H2 _]]; [lia| | |eauto].
    + specialize (Habove _ _ H2). destruct (Hpos _ _ H2). lia.
    + specialize (Habove _ _ H1). lia.
  - intros a. apply covered_insert; [by apply iv_sorted|].
    intros v Hin. specialize (Habove _ _ Hin). destruct (Hpos _ _ Hin) as [Heq ?].
    change (fr_start r = fr_start v) in Heq. lia.
Qed.

Lemma merge_keys_spec (n : nat) (m new : list (Z * FreeRegion)) :
  (length m <= n)%nat -> iv_ok m -> iv_ok new -> no_adjacent new -> below new m ->
  exists m', @merge_keys E (bt_keys m) m new = Ok m' /\ iv_ok m' /\ no_adjacent m' /\
    (forall a, covered m' a <-> covered new a \/ covered m a).
Proof.
  revert m new. induction n as [|n IH]; intros m new Hn Hok Hoknew Hadj Hgap.
  { destruct m; [|simpl in Hn; lia]. exists new. unfold covered. set_solver. }
  destruct m as [|[k r] m]; [exists new; unfold covered; set_solver|].
  destruct (iv_ok_head _ _ _ Hok) as (-> & Hne & Hrest).
  change (istart r) with (fr_start r) in *. change (iend r) with (fr_end r) in *.
  destruct (merge_while_spec r m Hok)
    as (r' & chain & m' & -> & Hw & Hs & He & Hcov & Hgap').
  simpl. rewrite Z.eqb_refl. simpl.
  rewrite (bt_remove_head _ _ _ Hok), Hw. simpl. unfold bt_keys. rewrite fmap_app.
  pose proof (iv_ok_tail _ _ Hok) as Hokt.
  rewrite merge_keys_skip; [change (m'.*1) with (bt_keys m')|].
  - assert (Habove : forall k v, (k, v) ∈ new -> fr_end v < fr_start r').
    { intros k v Hin. specialize (Hgap k v (fr_start r) r Hin ltac:(set_solver)). lia. }
    destruct (insert_above new r' Hoknew Hadj ltac:(lia) Habove) as (Hok1 & Hadj1 & Hcov1).
    destruct (IH m' (insert_region new r')) as (m'' & -> & Hok'' & Hadj'' & Hcov'');
      [|by eapply iv_ok_app_r|done|done| |].
    + simpl in Hn. rewrite length_app in Hn. lia.
    + intros k1 r1 k2 r2 H1 H2.
      apply bt_elem_insert in H1; [|by apply iv_sorted].
      destruct H1 as [[= -> ->]|[H1 _]]; [by eapply Hgap'|].
      apply (Hgap k1 r1 k2 r2); [done|]. set_solver.
    + exists m''. split_and!; [done..|]. intros a.
      rewrite Hcov'', Hcov1, Hcov, covered_cons, covered_app. tauto.
  - intros k Hk. apply bt_get_none. intros v Hin.
    apply list_elem_of_fmap in Hk as ([k' v'] & -> & Hk'). simpl in Hin.
    pose proof (iv_sorted _ Hokt) as Hst. apply bt_sorted_app in Hst as (_ & _ & Hst).
    specialize (Hst _ _ Hk' Hin). unfold key_lt in Hst. simpl in Hst. lia.
Qed.

End Merge.

(** Appending to an empty map gives the map back. *)
Lemma elem_of_append_nil {V} (m : list (Z * V)) p :
  bt_sorted m -> p ∈ bt_append [] m <-> p ∈ m.
Proof.
  intros Hs. rewrite bt_elem_append; [|constructor|by apply bt_sorted_NoDup_keys].
  set_solver.
Qed.

Lemma merge_spec {E} (m : list (Z * FreeRegion)) :
  iv_ok m ->
  exists m', @merge_continuous_regions E m = Ok m' /\ iv_ok m' /\ no_adjacent m' /\
    (forall a, covered m' a <-> covered m a).
Proof.
  intros Hok.
  destruct (@merge_keys_spec E (length m) m []) as (m' & Hm & Hok' & Hadj & Hcov);
    [done|done|apply iv_ok_nil|unfold no_adjacent; set_solver|unfold below; set_solver|].
  unfold merge_continuous_regions. rewrite Hm. simpl. eexists. split; [done|].
  pose proof (elem_of_append_nil m') as Hel. split_and!.
  - eapply iv_ok_sub; [done|apply bt_append_sorted; constructor|].
    intros p. by rewrite Hel by by apply iv_sorted.
  - intros k1 r1 k2 r2. rewrite !Hel by by apply iv_sorted. apply Hadj.
  - intros a. unfold covered in *. setoid_rewrite Hel; [|by apply iv_sorted].
    rewrite Hcov. set_solver.
Qed.

(** * Properties *)

(** On a well-formed interval map (keyed by start, members non-empty and
    disjoint), [find] returns exactly the members that overlap the range, in
    address order, and [find_one] returns the unique member that contains the
    point. *)
Lemma interval_search_correct (V : Type) (iv : Interval V) (m : list (Z * V))
    (r : range) (point : Z) :
  iv_ok m ->
  find m r = filter (overlaps r) (bt_values m) /\
  (forall v, find_one m point = Some v <->
     (istart v, v) ∈ m /\ in_range point (irange v)).
Proof.
  intros Hok. split; [by apply find_filter|]. intros v. by apply find_one_spec.
Qed.

(** [merge_continuous_regions] never panics and terminates on well-formed
    free regions; the result is well-formed, covers the same addresses and no
    region ends where another starts. *)
Lemma merge_continuous_regions_correct (E : Type) (m : list (Z * FreeRegion)) :
  iv_ok m ->
  exists m', @merge_continuous_regions E m = Ok m' /\ iv_ok m' /\ no_adjacent m' /\
    (forall a, covered m' a <-> covered m a).
Proof. apply merge_spec. Qed.

