(* ===== verification/PageTable.v ===== *)
(** Four-level page tables in physical memory
    (framework/aster-frame/src/vm/page_table.rs) with the x86-64 entries of
    framework/aster-frame/src/arch/x86/mm/mod.rs.

    [tlb_flush], which every successful update ends with, is a hardware effect
    outside the modelled state; the [VirtAddr::new] of the x86_64 crate that it
    calls refuses non-canonical addresses, so the theorems state what happens
    for canonical ones. *)

From S2P Require Import Prelude.

(** * Flags and entries (arch/x86/mm/mod.rs) *)

Module PageTableFlags.
Notation PRESENT := 1%Z (only parsing).
Notation WRITABLE := 2%Z (only parsing).
Notation USER := 4%Z (only parsing).
Notation WRITE_THROUGH := 8%Z (only parsing).
Notation NO_CACHE := 16%Z (only parsing).
Notation ACCESSED := 32%Z (only parsing).
Notation DIRTY := 64%Z (only parsing).
Notation HUGE := 128%Z (only parsing).
Notation GLOBAL := 256%Z (only parsing).
Notation NO_EXECUTE := 9223372036854775808%Z (only parsing).
(** Every bit the [bitflags!] declaration names. *)
Notation all_bits := 9223372036854776319%Z (only parsing).

Definition contains (self other : Z) : bool := Z.land self other =? other.
Definition set (self flag : Z) (value : bool) : Z :=
  if value then Z.lor self flag else Z.ldiff self flag.
Definition from_bits_truncate (bits : Z) : Z := Z.land bits all_bits.

(** [impl PageTableFlagsTrait for PageTableFlags] *)
Notation new := 0%Z (only parsing).
Notation set_present self present := (set self PRESENT present) (only parsing).
Notation set_writable self writable := (set self WRITABLE writable) (only parsing).
Notation set_readable self readable := self (only parsing).
Notation set_accessible_by_user self accessible := (set self USER accessible) (only parsing).
Notation is_present self := (contains self PRESENT) (only parsing).
Notation writable self := (contains self WRITABLE) (only parsing).
Notation is_huge self := (contains self HUGE) (only parsing).

End PageTableFlags.

Notation PHYS_ADDR_MASK := 4503599627366400%Z (only parsing).
Notation NR_ENTRIES_PER_PAGE := 512%Z (only parsing).

Definition pte_new (paddr flags : Z) : Z := Z.lor (Z.land paddr PHYS_ADDR_MASK) flags.
Definition pte_paddr (pte : Z) : Z := Z.land pte PHYS_ADDR_MASK.
Notation pte_flags pte := (PageTableFlags.from_bits_truncate pte) (only parsing).
Notation pte_is_used pte := (negb (pte =? 0)) (only parsing).
Definition pte_is_present (pte : Z) : bool := PageTableFlags.is_present (pte_flags pte).

(** [page_index]; the level is between 1 and 5. *)
Definition page_index (va : Z) (level : nat) : Z :=
  Z.land (Z.shiftr va (12 + 9 * (Z.of_nat level - 1))) (NR_ENTRIES_PER_PAGE - 1).

Definition is_kernel_vaddr (vaddr : Z) : bool := Z.land (Z.shiftr vaddr 47) 1 =? 1.

(** * Physical memory and the table (vm/page_table.rs) *)

Inductive PageTableError : Type :=
  | InvalidModification
  | InvalidVaddr.

#[export] Instance PageTableError_eq_dec : EqDecision PageTableError.
Proof. solve_decision. Defined.

(** The state a page-table operation reads and writes.  [pt_mem] is physical
    memory in 8-byte words (an absent word is zero), addressed physically: the
    direct mapping that [paddr_to_vaddr] adds is left out.  [pt_frames] are the
    frames the frame allocator hands out next, in an unknown order. *)
Record PageTable : Type := MkPageTable {
  root_paddr : Z;
  tables : list Z;
  address_width : nat;
  pt_mem : gmap Z Z;
  pt_frames : list Z;
}.

Definition read (mem : gmap Z Z) (a : Z) : Z := default 0 (mem !! a).

Definition pt_write (a v : Z) (s : PageTable) : PageTable :=
  MkPageTable (root_paddr s) (tables s) (address_width s) (<[a := v]> (pt_mem s)) (pt_frames s).

(** [frame.writer().fill(0)] *)
Definition zero_frame (f : Z) (mem : gmap Z Z) : gmap Z Z :=
  filter (fun p => ~ (f <= p.1 < f + PAGE_SIZE)) mem.

(** [VmAllocOptions::new(1).alloc_single().unwrap()], the frame also pushed to
    [tables]: it panics when no frame is left. *)
Definition alloc_table : stM PageTable PageTableError Z := fun s =>
  match pt_frames s with
  | [] => (Panic, s)
  | f :: frames =>
      (Ok f, MkPageTable (root_paddr s) (tables s ++ [f]) (address_width s)
               (zero_frame f (pt_mem s)) frames)
  end.

(** [calculate_pte_vaddr], as a physical address. *)
Definition calculate_pte_paddr (root_pa target_va : Z) (level : nat) : Z :=
  root_pa + 8 * page_index target_va level.

(** Default flags of an intermediate entry: read, write, user, present. *)
Definition table_flags : Z :=
  PageTableFlags.set_writable
    (PageTableFlags.set_readable
       (PageTableFlags.set_accessible_by_user
          (PageTableFlags.set_present PageTableFlags.new true) true) true) true.

(** The [while level > 1] loop of [do_page_walk_mut] from the entry at
    physical address [current]; the result is the address of the last entry. *)
Fixpoint walk_mut (level : nat) (current vaddr : Z) (create : bool)
    : stM PageTable PageTableError (option Z) :=
  match level with
  | S (S _ as level') =>
      let! s := sget in
      let step : stM PageTable PageTableError (option Z) :=
        let! s := sget in
        let pte := read (pt_mem s) current in
        if PageTableFlags.is_huge (pte_flags pte) then sret (Some current)
        else walk_mut level' (calculate_pte_paddr (pte_paddr pte) vaddr level') vaddr create
      in
      if pte_is_present (read (pt_mem s) current) then step
      else if create then
        let! frame := alloc_table in
        let! s := sget in
        let! _ := sput (pt_write current (pte_new frame table_flags) s) in
        step
      else sret None
  | _ => sret (Some current)
  end.

Definition do_page_walk_mut (vaddr : Z) (create : bool)
    : stM PageTable PageTableError (option Z) :=
  let! s := sget in
  walk_mut (address_width s)
    (calculate_pte_paddr (root_paddr s) vaddr (address_width s)) vaddr create.

(** [do_page_walk]: the address of the last entry. *)
Fixpoint walk (mem : gmap Z Z) (level : nat) (current vaddr : Z) : option Z :=
  match level with
  | S (S _ as level') =>
      let pte := read mem current in
      if negb (pte_is_present pte) then None
      else if PageTableFlags.is_huge (pte_flags pte) then Some current
      else walk mem level' (calculate_pte_paddr (pte_paddr pte) vaddr level') vaddr
  | _ => Some current
  end.

Definition do_page_walk (s : PageTable) (vaddr : Z) : option Z :=
  walk (pt_mem s) (address_width s)
    (calculate_pte_paddr (root_paddr s) vaddr (address_width s)) vaddr.

Definition do_map (vaddr paddr flags : Z) : stM PageTable PageTableError unit :=
  let! last := do_page_walk_mut vaddr true in
  let! last_entry := slift (ounwrap last) in
  let! s := sget in
  let pte := read (pt_mem s) last_entry in
  if pte_is_used pte && pte_is_present pte then serr InvalidModification
  else sput (pt_write last_entry (pte_new paddr flags) s).

Definition do_unmap (vaddr : Z) : stM PageTable PageTableError unit :=
  let! last := do_page_walk_mut vaddr false in
  match last with
  | None => serr InvalidModification
  | Some last_entry =>
      let! s := sget in
      let pte := read (pt_mem s) last_entry in
      if negb (pte_is_used pte) || negb (pte_is_present pte) then serr InvalidModification
      else sput (pt_write last_entry 0 s)
  end.

Definition do_protect (vaddr new_flags : Z) : stM PageTable PageTableError Z :=
  let! last := do_page_walk_mut vaddr false in
  match last with
  | None => serr InvalidModification
  | Some last_entry =>
      let! s := sget in
      let pte := read (pt_mem s) last_entry in
      let old_flags := pte_flags pte in
      if negb (pte_is_used pte) || negb (PageTableFlags.is_present old_flags)
      then serr InvalidModification
      else
        let! _ := sput (pt_write last_entry (pte_new (pte_paddr pte) new_flags) s) in
        sret old_flags
  end.

(** [impl PageTable<T, UserMode>] *)
Definition user_map (vaddr frame_paddr flags : Z) : stM PageTable PageTableError unit :=
  if is_kernel_vaddr vaddr then serr InvalidVaddr else do_map vaddr frame_paddr flags.
Definition user_unmap (vaddr : Z) : stM PageTable PageTableError unit :=
  if is_kernel_vaddr vaddr then serr InvalidVaddr else do_unmap vaddr.
Definition user_protect (vaddr flags : Z) : stM PageTable PageTableError Z :=
  if is_kernel_vaddr vaddr then serr InvalidVaddr else do_protect vaddr flags.

Definition flags (s : PageTable) (vaddr : Z) : option Z :=
  (fun a => pte_flags (read (pt_mem s) a)) <$> do_page_walk s vaddr.

Definition is_mapped (s : PageTable) (vaddr : Z) : bool :=
  match do_page_walk s vaddr with
  | None => false
  | Some a =>
      let pte := read (pt_mem s) a in pte_is_used pte && pte_is_present pte
  end.

(** [PageTable::new]: the root table is one zeroed frame.  The argument is the
    memory and the allocator's frames. *)
Definition pt_new (width : nat) (mem : gmap Z Z) (frames : list Z)
    : outcome PageTableError PageTable :=
  match frames with
  | [] => Panic
  | root :: frames' =>
      Ok (MkPageTable root [root] width (zero_frame root mem) frames')
  end.

(** [PageTable::add_root_mapping]: [table_of] has no table at address 0, and
    the table is a slice of [NR_ENTRIES_PER_PAGE] entries. *)
Definition add_root_mapping (index pte : Z) : stM PageTable PageTableError unit :=
  let! s := sget in
  let! _ := slift (oassert (negb (root_paddr s =? 0))) in
  let! _ := slift (oassert ((0 <=? index) && (index <? 512))) in
  sput (pt_write (root_paddr s + 8 * index) pte s).

(** The page table of [MemorySet::new]: a new four-level table, with the root
    entries of [ALL_MAPPED_PTE] (a map in key order) copied into its root. *)
Definition new_user_table (mem : gmap Z Z) (frames : list Z) (mapped_pte : list (Z * Z))
    : outcome PageTableError PageTable :=
  let? page_table := pt_new 4 mem frames in
  match sfor mapped_pte (fun '(index, pte) => add_root_mapping index pte) page_table with
  | (Ok _, s) => Ok s
  | (Err e, _) => Err e
  | (Panic, _) => Panic
  end.

(** [vaddr_to_paddr], on the kernel's page table. *)
Definition vaddr_to_paddr (s : PageTable) (vaddr : Z) : option Z :=
  (fun a => pte_paddr (read (pt_mem s) a) + Z.land vaddr (PAGE_SIZE - 1)) <$> do_page_walk s vaddr.
