(* ===== verification/PageTableFacts.v ===== *)
(** The radix page table of [PageTable.v] refines a flat map from virtual
    pages to frames: the invariant of the tree, and what [map], [unmap] and
    [protect] do to the view an address space has of it. *)

From S2P Require Import Prelude PageTable.

(** * Entries *)

Definition valid_flags (fl : Z) : Prop :=
  Z.land fl PageTableFlags.all_bits = fl /\ PageTableFlags.is_present fl = true.

Definition valid_frame (f : Z) : Prop := 0 < f < 2 ^ 52 /\ f mod PAGE_SIZE = 0.

Lemma all_bits_mask : Z.land PageTableFlags.all_bits PHYS_ADDR_MASK = 0.
Proof. reflexivity. Qed.

Lemma flags_mask fl : Z.land fl PageTableFlags.all_bits = fl -> Z.land fl PHYS_ADDR_MASK = 0.
Proof.
  intros <-. rewrite <- Z.land_assoc, all_bits_mask. apply Z.land_0_r.
Qed.

Lemma frame_mask f : valid_frame f -> Z.land f PHYS_ADDR_MASK = f.
Proof.
  intros [Hf Hal]. change PHYS_ADDR_MASK with (Z.land (Z.ones 52) (Z.lnot (Z.ones 12))).
  rewrite Z.land_assoc, Z.land_ones, <- Z.ldiff_land, Z.ldiff_ones_r by lia.
  rewrite Z.mod_small, Z.shiftl_mul_pow2, Z.shiftr_div_pow2 by lia.
  change (2 ^ 12) with PAGE_SIZE. unfold PAGE_SIZE in *.
  pose proof (Z.div_mod f 4096 ltac:(lia)). lia.
Qed.

Lemma pte_paddr_new pa fl :
  Z.land fl PageTableFlags.all_bits = fl ->
  pte_paddr (pte_new pa fl) = Z.land pa PHYS_ADDR_MASK.
Proof.
  intros Hfl. unfold pte_paddr, pte_new.
  rewrite Z.land_lor_distr_l, <- Z.land_assoc, Z.land_diag, (flags_mask _ Hfl).
  apply Z.lor_0_r.
Qed.

Lemma pte_flags_new pa fl :
  Z.land fl PageTableFlags.all_bits = fl -> pte_flags (pte_new pa fl) = fl.
Proof.
  intros Hfl. unfold pte_new, PageTableFlags.from_bits_truncate.
  rewrite Z.land_lor_distr_l, <- Z.land_assoc, Hfl.
  change (Z.land PHYS_ADDR_MASK PageTableFlags.all_bits) with 0.
  by rewrite Z.land_0_r.
Qed.

Lemma pte_new_used pa fl : valid_flags fl -> pte_is_used (pte_new pa fl) = true.
Proof.
  intros [Hfl Hp]. apply negb_true_iff, Z.eqb_neq. intros H0.
  pose proof (pte_flags_new pa fl Hfl) as Hx. rewrite H0 in Hx. by subst fl.
Qed.

Lemma pte_new_present pa fl : valid_flags fl -> pte_is_present (pte_new pa fl) = true.
Proof. intros [Hfl Hp]. unfold pte_is_present. by rewrite pte_flags_new. Qed.

Lemma present_used pte : pte_is_present pte = true -> pte_is_used pte = true.
Proof.
  intros H. apply negb_true_iff, Z.eqb_neq. by intros ->.
Qed.

Lemma table_flags_valid : valid_flags table_flags.
Proof. done. Qed.

(** * Addresses *)

Section Addr.
(** The number of levels. *)
Variable L : nat.

(** The index path of an address down to level [l]. *)
Definition prefix (va : Z) (l : nat) : Z :=
  va mod 2 ^ (12 + 9 * Z.of_nat L) / 2 ^ (12 + 9 * Z.of_nat l).

Lemma page_index_eq va l :
  page_index va (S l) = va / 2 ^ (12 + 9 * Z.of_nat l) mod 512.
Proof.
  unfold page_index. change (512 - 1) with (Z.ones 9).
  rewrite Z.land_ones, Z.shiftr_div_pow2 by lia.
  replace (12 + 9 * (Z.of_nat (S l) - 1)) with (12 + 9 * Z.of_nat l) by lia. done.
Qed.

Lemma page_index_range va l : 0 <= page_index va (S l) < 512.
Proof. rewrite page_index_eq. apply Z.mod_pos_bound. lia. Qed.

Lemma prefix_step va l :
  (S l <= L)%nat -> prefix va l = prefix va (S l) * 512 + page_index va (S l).
Proof.
  intros Hl. rewrite page_index_eq. unfold prefix.
  set (D := 2 ^ (12 + 9 * Z.of_nat l)).
  assert (HD : 0 < D) by (apply Z.pow_pos_nonneg; lia).
  assert (HD' : 2 ^ (12 + 9 * Z.of_nat (S l)) = D * 512).
  { unfold D. change 512 with (2 ^ 9). rewrite <- Z.pow_add_r by lia. f_equal. lia. }
  set (K := 2 ^ (9 * (Z.of_nat L - Z.of_nat l - 1))).
  assert (HK : 0 < K) by (apply Z.pow_pos_nonneg; lia).
  assert (HM : 2 ^ (12 + 9 * Z.of_nat L) = K * 512 * D).
  { unfold D, K. change 512 with (2 ^ 9). rewrite <- !Z.pow_add_r by lia. f_equal. lia. }
  rewrite HM, HD'. rewrite <- Z.div_div by lia.
  set (x := va mod (K * 512 * D)).
  assert (Hva : va / D mod 512 = x / D mod 512).
  { rewrite (Z.div_mod va (K * 512 * D)) at 1 by lia. fold x.
    replace (K * 512 * D * (va / (K * 512 * D)) + x)
      with (x + (va / (K * 512 * D) * K * 512) * D) by lia.
    rewrite Z.div_add by lia. rewrite Z.mod_add by lia. done. }
  rewrite Hva. pose proof (Z.div_mod (x / D) 512 ltac:(lia)). lia.
Qed.

Lemma prefix_top va : prefix va L = 0.
Proof.
  unfold prefix. apply Z.div_small, Z.mod_pos_bound, Z.pow_pos_nonneg; lia.
Qed.

Lemma prefix_page va va' l :
  (l <= L)%nat -> prefix va 0 = prefix va' 0 -> prefix va l = prefix va' l.
Proof.
  intros Hl H0. induction l as [|l IH]; [done|]. specialize (IH ltac:(lia)).
  rewrite !(prefix_step _ l) in IH by lia.
  pose proof (page_index_range va l). pose proof (page_index_range va' l). lia.
Qed.

(** Addresses of one page have the same index at every level. *)
Lemma page_index_page va va' l :
  (S l <= L)%nat -> prefix va 0 = prefix va' 0 -> page_index va (S l) = page_index va' (S l).
Proof.
  intros Hl H0. pose proof (prefix_page va va' l ltac:(lia) H0) as H1.
  rewrite !(prefix_step _ l), (prefix_page va va' (S l)) in H1 by (done || lia). lia.
Qed.

Lemma walk_page va va' mem l cur :
  (l <= L)%nat -> prefix va 0 = prefix va' 0 -> walk mem l cur va = walk mem l cur va'.
Proof.
  intros Hl H0. revert cur. induction l as [|[|l] IH]; intros cur; [done|done|].
  cbn [walk]. unfold calculate_pte_paddr.
  rewrite (page_index_page va va' l) by (done || lia).
  destruct (negb _); [done|]. destruct (PageTableFlags.is_huge _); [done|].
  apply IH. lia.
Qed.
End Addr.

(** Entry slots of distinct tables, or at distinct indices, are distinct words. *)
Lemma slot_inj p p' i i' :
  valid_frame p -> valid_frame p' -> 0 <= i < 512 -> 0 <= i' < 512 ->
  p + 8 * i = p' + 8 * i' -> p = p' /\ i = i'.
Proof.
  unfold valid_frame, PAGE_SIZE. intros [_ Hp] [_ Hp'] Hi Hi' Heq.
  pose proof (Z.div_mod p 4096 ltac:(lia)). pose proof (Z.div_mod p' 4096 ltac:(lia)). lia.
Qed.

Lemma slot_outside p f i :
  valid_frame p -> valid_frame f -> p <> f -> 0 <= i < 512 ->
  ~ (f <= p + 8 * i < f + PAGE_SIZE).
Proof.
  unfold valid_frame, PAGE_SIZE. intros [_ Hp] [_ Hf] Hne Hi.
  pose proof (Z.div_mod p 4096 ltac:(lia)). pose proof (Z.div_mod f 4096 ltac:(lia)). lia.
Qed.

(** * Memory *)

Lemma read_insert mem a b v : read (<[a := v]> mem) b = if decide (a = b) then v else read mem b.
Proof. unfold read. rewrite lookup_insert. by case_decide. Qed.

Lemma read_zero mem f a :
  read (zero_frame f mem) a =
  if decide (f <= a < f + PAGE_SIZE) then 0 else read mem a.
Proof.
  unfold read, zero_frame. case_decide as Hd.
  - rewrite map_lookup_filter_None_2; [done|]. right. intros x _. simpl. lia.
  - destruct (mem !! a) as [x|] eqn:Hx; simpl.
    + by rewrite (map_lookup_filter_Some_2 _ _ _ x) by done.
    + rewrite map_lookup_filter_None_2; [done|]. by left.
Qed.

(** * The invariant *)

(** [T] is the set of table frames: the level of each and the index path that
    leads to it.  The root is the table of the empty path.  Of the root, only
    the lower half belongs to the user address space. *)
Record pt_wf (s : PageTable) (T : gmap Z (nat * Z)) : Prop := {
  wf_level : (2 <= address_width s)%nat;
  wf_root : T !! root_paddr s = Some (address_width s, 0);
  wf_table : forall p x, T !! p = Some x -> valid_frame p;
  wf_inner : forall p l pre idx,
    T !! p = Some (S (S l), pre) -> 0 <= idx < 512 ->
    (S (S l) = address_width s -> idx < 256) ->
    pte_is_present (read (pt_mem s) (p + 8 * idx)) = true ->
    PageTableFlags.is_huge (pte_flags (read (pt_mem s) (p + 8 * idx))) = false /\
    T !! pte_paddr (read (pt_mem s) (p + 8 * idx)) = Some (S l, pre * 512 + idx);
  wf_leaf : forall p pre idx,
    T !! p = Some (1%nat, pre) -> 0 <= idx < 512 ->
    read (pt_mem s) (p + 8 * idx) = 0 \/
    pte_is_present (read (pt_mem s) (p + 8 * idx)) = true;
  wf_frames : NoDup (pt_frames s);
  wf_free : forall f, f ∈ pt_frames s -> valid_frame f /\ T !! f = None;
}.

(** Addresses below the kernel's half of the root. *)
Definition low (s : PageTable) (va : Z) : Prop :=
  page_index va (address_width s) < 256.

(** A table on the path of [va]. *)
Definition on_path (s : PageTable) (T : gmap Z (nat * Z)) (l : nat) (p va : Z) : Prop :=
  T !! p = Some (l, prefix (address_width s) va l) /\ (1 <= l <= address_width s)%nat.

(** What an address space sees at [va]: the present entry, if any. *)
Definition pte_at (mem : gmap Z Z) (o : option Z) : option Z :=
  match o with
  | None => None
  | Some a => let pte := read mem a in
      if pte_is_used pte && pte_is_present pte then Some pte else None
  end.

Definition view (s : PageTable) (va : Z) : option Z := pte_at (pt_mem s) (do_page_walk s va).

(** * Walks *)

Lemma walk_SS mem l cur va :
  walk mem (S (S l)) cur va =
  if negb (pte_is_present (read mem cur)) then None
  else if PageTableFlags.is_huge (pte_flags (read mem cur)) then Some cur
  else walk mem (S l) (calculate_pte_paddr (pte_paddr (read mem cur)) va (S l)) va.
Proof. done. Qed.

Section Walk.
Variables (s : PageTable) (T : gmap Z (nat * Z)).
Hypothesis Hwf : pt_wf s T.

Lemma on_path_root va : on_path s T (address_width s) (root_paddr s) va.
Proof.
  pose proof (wf_level _ _ Hwf). split; [|lia].
  rewrite prefix_top. by apply wf_root.
Qed.

(** A present intermediate entry on the path of [va] leads to the next table. *)
Lemma on_path_next l p va :
  low s va -> on_path s T (S (S l)) p va ->
  let pte := read (pt_mem s) (calculate_pte_paddr p va (S (S l))) in
  pte_is_present pte = true ->
  PageTableFlags.is_huge (pte_flags pte) = false /\ on_path s T (S l) (pte_paddr pte) va.
Proof.
  intros Hlow [Hp Hl] pte Hpres.
  destruct (wf_inner _ _ Hwf p l _ (page_index va (S (S l))) Hp) as [Hh Hn];
    [apply page_index_range|intros Heq; rewrite Heq; apply Hlow|exact Hpres|].
  split; [exact Hh|]. split; [|lia].
  rewrite (prefix_step _ _ (S l)) by lia. exact Hn.
Qed.

(** A completed walk ends in the level-1 table of the address. *)
Lemma walk_end l p va a :
  low s va -> on_path s T l p va ->
  walk (pt_mem s) l (calculate_pte_paddr p va l) va = Some a ->
  exists q, on_path s T 1 q va /\ a = calculate_pte_paddr q va 1.
Proof.
  intros Hlow. revert p. induction l as [|[|l] IH]; intros p Hp Hw.
  - destruct Hp as [_ ?]. lia.
  - simpl in Hw. simplify_eq. by exists p.
  - simpl in Hw.
    destruct (pte_is_present (read (pt_mem s) (calculate_pte_paddr p va (S (S l)))))
      eqn:Hpres; simpl in Hw; [|done].
    destruct (on_path_next l p va Hlow Hp Hpres) as [Hh Hn].
    rewrite Hh in Hw. by apply (IH _ Hn).
Qed.

(** Without [create], the mutable walk is the immutable one. *)
Lemma walk_mut_false l p va :
  low s va -> on_path s T l p va ->
  walk_mut l (calculate_pte_paddr p va l) va false s =
  (Ok (walk (pt_mem s) l (calculate_pte_paddr p va l) va), s).
Proof.
  intros Hlow. revert p. induction l as [|[|l] IH]; intros p Hp; [done|done|].
  cbn [walk_mut walk sbind sget sret].
  destruct (pte_is_present (read (pt_mem s) (calculate_pte_paddr p va (S (S l)))))
    eqn:Hpres; simpl negb; [|done].
  destruct (on_path_next l p va Hlow Hp Hpres) as [Hh Hn]. unfold sbind, sget.
  rewrite Hh. by apply (IH _ Hn).
Qed.

(** Slots of tables at different levels differ. *)
Lemma slot_ne p l pre i p' l' pre' i' :
  T !! p = Some (l, pre) -> T !! p' = Some (l', pre') ->
  0 <= i < 512 -> 0 <= i' < 512 -> (l, pre, i) <> (l', pre', i') ->
  p + 8 * i <> p' + 8 * i'.
Proof.
  intros Hp Hp' Hi Hi' Hne Heq.
  destruct (slot_inj p p' i i') as [-> ->];
    [by eapply wf_table|by eapply wf_table|done|done|done|].
  rewrite Hp in Hp'. by simplify_eq.
Qed.

(** ** Writing a leaf entry *)

Section LeafWrite.
Variables (q va v : Z).
Hypothesis Hq : on_path s T 1 q va.
Hypothesis Hv : v = 0 \/ pte_is_present v = true.
Let a := calculate_pte_paddr q va 1.
Let s' := pt_write a v s.

Lemma leaf_read_inner p l pre i :
  T !! p = Some (S (S l), pre) -> 0 <= i < 512 ->
  read (pt_mem s') (p + 8 * i) = read (pt_mem s) (p + 8 * i).
Proof.
  intros Hp Hi. simpl. rewrite read_insert, decide_False; [done|].
  apply not_eq_sym. destruct Hq as [Hq1 _].
  by apply (slot_ne _ _ _ _ _ _ _ _ Hp Hq1 Hi (page_index_range va 0)).
Qed.

Lemma leaf_walk l p va' :
  low s va' -> on_path s T l p va' ->
  walk (pt_mem s') l (calculate_pte_paddr p va' l) va' =
  walk (pt_mem s) l (calculate_pte_paddr p va' l) va'.
Proof.
  intros Hlow. revert p. induction l as [|[|l] IH]; intros p Hp; [done|done|].
  rewrite !walk_SS. destruct Hp as [Hp1 Hp2].
  pose proof (leaf_read_inner _ _ _ _ Hp1 (page_index_range va' (S l))) as Hr.
  fold (calculate_pte_paddr p va' (S (S l))) in Hr. rewrite Hr.
  destruct (pte_is_present (read (pt_mem s) (calculate_pte_paddr p va' (S (S l)))))
    eqn:Hpres; simpl negb; [|done].
  destruct (on_path_next l p va' Hlow (conj Hp1 Hp2) Hpres) as [Hh Hn].
  rewrite Hh. by apply IH.
Qed.

Lemma leaf_wf : pt_wf s' T.
Proof.
  split; simpl.
  - by apply (wf_level _ _ Hwf).
  - by apply (wf_root _ _ Hwf).
  - by apply (wf_table _ _ Hwf).
  - intros p l pre idx Hp Hi Hlow. fold s'.
    change (<[a:=v]> (pt_mem s)) with (pt_mem s').
    rewrite (leaf_read_inner _ _ _ _ Hp Hi). by apply (wf_inner _ _ Hwf).
  - intros p pre idx Hp Hi. rewrite read_insert. case_decide; [done|].
    by apply (wf_leaf _ _ Hwf p pre).
  - by apply (wf_frames _ _ Hwf).
  - by apply (wf_free _ _ Hwf).
Qed.

(** Only the page of [va] changes. *)
Lemma leaf_view va' :
  low s va' -> do_page_walk s va = Some a ->
  view s' va' =
  if decide (prefix (address_width s) va' 0 = prefix (address_width s) va 0)
  then pte_at (pt_mem s') (Some a) else view s va'.
Proof.
  intros Hlow Hwalk. unfold view, do_page_walk in *. simpl address_width. simpl root_paddr.
  rewrite (leaf_walk _ _ va' Hlow (on_path_root va')).
  set (w' := walk (pt_mem s) (address_width s) _ va').
  destruct Hq as [Hq1 Hq2].
  case_decide as Hpage.
  - assert (Hw : w' = Some a); [|by rewrite Hw]. unfold w'. rewrite <- Hwalk.
    pose proof (wf_level _ _ Hwf). unfold calculate_pte_paddr.
    destruct (address_width s) as [|l] eqn:HL; [lia|].
    rewrite (page_index_page (S l) va' va l) by done. by apply walk_page with (L := S l).
  - destruct w' as [b|] eqn:Hb; [|done]. simpl.
    destruct (walk_end _ _ va' b Hlow (on_path_root va') Hb) as (r & [Hr1 Hr2] & ->).
    rewrite read_insert, decide_False; [done|].
    apply not_eq_sym.
    apply (slot_ne _ _ _ _ _ _ _ _ Hr1 Hq1 (page_index_range va' 0) (page_index_range va 0)).
    intros [= Hpre Hidx]. apply Hpage.
    rewrite !(prefix_step _ _ 0) by lia. by rewrite Hpre, Hidx.
Qed.
End LeafWrite.
End Walk.

(** ** Creating an intermediate table *)

Section Create.
Variables (s : PageTable) (T : gmap Z (nat * Z)).
Hypothesis Hwf : pt_wf s T.
Variables (l : nat) (p va f : Z) (fs : list Z).
Hypothesis Hlow : low s va.
Hypothesis Hp : on_path s T (S (S l)) p va.
Hypothesis Hnone : pte_is_present (read (pt_mem s) (calculate_pte_paddr p va (S (S l)))) = false.
Hypothesis Hframes : pt_frames s = f :: fs.

Let cur := calculate_pte_paddr p va (S (S l)).
Let s' := MkPageTable (root_paddr s) (tables s ++ [f]) (address_width s)
            (<[cur := pte_new f table_flags]> (zero_frame f (pt_mem s))) fs.
Let T' := <[f := (S l, prefix (address_width s) va (S l))]> T.

Lemma fresh_frame : valid_frame f /\ T !! f = None /\ f ∉ fs.
Proof.
  destruct (wf_free _ _ Hwf f) as [? ?]; [rewrite Hframes; set_solver|].
  pose proof (wf_frames _ _ Hwf) as Hnd. rewrite Hframes in Hnd.
  apply NoDup_cons in Hnd. naive_solver.
Qed.

Lemma table_lookup q x : T !! q = Some x -> T' !! q = Some x /\ q <> f.
Proof.
  intros Hq. destruct fresh_frame as (_ & Hf & _).
  assert (q <> f) by congruence. split; [|done]. unfold T'. by rewrite lookup_insert_ne.
Qed.

(** Words of the new table read as zero; the slot of [cur] holds the new entry;
    other tables are unchanged. *)
Lemma create_read_new i : 0 <= i < 512 -> read (pt_mem s') (f + 8 * i) = 0.
Proof.
  intros Hi. destruct fresh_frame as (Hvf & Hf & _). destruct Hp as [Hp1 _].
  destruct (table_lookup _ _ Hp1) as [_ Hne]. simpl.
  rewrite read_insert, decide_False.
  - rewrite read_zero, decide_True; [done|]. unfold PAGE_SIZE. lia.
  - unfold cur, calculate_pte_paddr. intros Heq.
    destruct (slot_inj p f (page_index va (S (S l))) i) as [? _];
      [by eapply wf_table|done|apply page_index_range|done|done|done].
Qed.

Lemma create_read_old q x i :
  T !! q = Some x -> 0 <= i < 512 ->
  read (pt_mem s') (q + 8 * i) =
  if decide (cur = q + 8 * i) then pte_new f table_flags else read (pt_mem s) (q + 8 * i).
Proof.
  intros Hq Hi. destruct fresh_frame as (Hvf & Hf & _).
  destruct (table_lookup _ _ Hq) as [_ Hne]. simpl. rewrite read_insert.
  case_decide; [done|]. rewrite read_zero, decide_False; [done|].
  apply slot_outside; [by eapply wf_table|done..].
Qed.

Lemma new_entry_paddr : pte_paddr (pte_new f table_flags) = f.
Proof.
  destruct fresh_frame as (Hvf & _). rewrite pte_paddr_new by done. by apply frame_mask.
Qed.

Lemma create_wf : pt_wf s' T'.
Proof.
  destruct fresh_frame as (Hvf & Hf & Hfs). destruct Hp as [Hp1 Hp2]. split; simpl.
  - by apply (wf_level _ _ Hwf).
  - apply (table_lookup _ _ (wf_root _ _ Hwf)).
  - intros q x. unfold T'. rewrite lookup_insert. case_decide as Hd.
    + by intros; subst.
    + apply (wf_table _ _ Hwf).
  - change (<[cur:=pte_new f table_flags]> (zero_frame f (pt_mem s))) with (pt_mem s').
    intros q l0 pre idx Hq Hi Hidx. unfold T' in Hq. rewrite lookup_insert in Hq.
    case_decide as Hd.
    { subst q. rewrite create_read_new by done. done. }
    rewrite (create_read_old _ _ _ Hq Hi). case_decide as Hc.
    + intros _. split; [by rewrite pte_flags_new|]. rewrite new_entry_paddr. unfold T'.
      rewrite lookup_insert_eq. f_equal.
      destruct (slot_inj p q (page_index va (S (S l))) idx) as [-> <-];
        [by eapply wf_table|by eapply wf_table|apply page_index_range|done|done|].
      rewrite Hp1 in Hq. simplify_eq. f_equal. apply prefix_step. lia.
    + intros Hpres. destruct (wf_inner _ _ Hwf q l0 pre idx Hq Hi Hidx Hpres) as [Hh Hn].
      split; [done|]. by apply table_lookup.
  - change (<[cur:=pte_new f table_flags]> (zero_frame f (pt_mem s))) with (pt_mem s').
    intros q pre idx Hq Hi. unfold T' in Hq. rewrite lookup_insert in Hq.
    case_decide as Hd; [subst q; left; by apply create_read_new|].
    rewrite (create_read_old _ _ _ Hq Hi). case_decide; [right; by apply pte_new_present|].
    by apply (wf_leaf _ _ Hwf q pre).
  - pose proof (wf_frames _ _ Hwf) as Hnd. rewrite Hframes in Hnd.
    by apply NoDup_cons in Hnd as [_ ?].
  - intros g Hg. destruct (wf_free _ _ Hwf g) as [? ?]; [rewrite Hframes; set_solver|].
    split; [done|]. unfold T'. rewrite lookup_insert_ne; [done|]. by intros ->.
Qed.

(** The new, empty table maps nothing. *)
Lemma empty_table_view l' va' :
  (S l' <= S l)%nat -> pte_at (pt_mem s') (walk (pt_mem s') (S l') (calculate_pte_paddr f va' (S l')) va') = None.
Proof.
  intros Hl'. pose proof (create_read_new _ (page_index_range va' l')) as H0.
  fold (calculate_pte_paddr f va' (S l')) in H0.
  destruct l' as [|l']; [|rewrite walk_SS, H0; done]. cbn [walk pte_at]. by rewrite H0.
Qed.

Lemma create_view_from k q va' :
  low s va' -> on_path s T k q va' ->
  pte_at (pt_mem s') (walk (pt_mem s') k (calculate_pte_paddr q va' k) va') =
  pte_at (pt_mem s) (walk (pt_mem s) k (calculate_pte_paddr q va' k) va').
Proof.
  intros Hlow'. revert q. induction k as [|[|k] IH]; intros q [Hq1 Hq2]; [lia| |].
  - cbn [walk pte_at]. unfold calculate_pte_paddr.
    rewrite (create_read_old _ _ _ Hq1 (page_index_range va' 0)).
    rewrite decide_False; [done|]. unfold cur, calculate_pte_paddr. destruct Hp as [Hp1 _].
    by apply (slot_ne _ _ Hwf _ _ _ _ _ _ _ _ Hp1 Hq1 (page_index_range va (S l))
      (page_index_range va' 0)).
  - rewrite !walk_SS.
    pose proof (create_read_old _ _ _ Hq1 (page_index_range va' (S k))) as Hr.
    fold (calculate_pte_paddr q va' (S (S k))) in Hr. rewrite Hr.
    case_decide as Hc.
    + rewrite <- Hc. fold cur in Hnone. rewrite Hnone.
      rewrite pte_new_present by apply table_flags_valid. simpl negb. cbv iota.
      rewrite pte_flags_new, new_entry_paddr by done.
      change (PageTableFlags.is_huge table_flags) with false. cbv iota.
      apply empty_table_view.
      destruct (slot_inj p q (page_index va (S (S l))) (page_index va' (S (S k)))) as [-> _];
        [destruct Hp; by eapply wf_table|by eapply wf_table|apply page_index_range
        |apply page_index_range|done|].
      destruct Hp as [Hp1 _]. rewrite Hp1 in Hq1. simplify_eq. lia.
    + destruct (pte_is_present (read (pt_mem s) (calculate_pte_paddr q va' (S (S k)))))
        eqn:Hpres; simpl negb; [|done].
      destruct (on_path_next _ _ Hwf k q va' Hlow' (conj Hq1 Hq2) Hpres) as [Hh Hn].
      rewrite Hh. by apply IH.
Qed.

End Create.

(** ** The creating walk *)

(** What a creating walk from one state to another preserves. *)
Record grows (s : PageTable) (T : gmap Z (nat * Z)) (s' : PageTable) (T' : gmap Z (nat * Z)) : Prop := {
  gr_wf : pt_wf s' T';
  gr_sub : forall q x, T !! q = Some x -> T' !! q = Some x;
  gr_root : root_paddr s' = root_paddr s;
  gr_width : address_width s' = address_width s;
  gr_view : forall va, low s va -> view s' va = view s va;
  gr_keep : forall q l pre i, T !! q = Some (S (S l), pre) -> 0 <= i < 512 ->
    pte_is_present (read (pt_mem s) (q + 8 * i)) = true ->
    read (pt_mem s') (q + 8 * i) = read (pt_mem s) (q + 8 * i);
  gr_kernel : forall i, 256 <= i < 512 ->
    read (pt_mem s') (root_paddr s + 8 * i) = read (pt_mem s) (root_paddr s + 8 * i);
}.

Lemma grows_refl s T : pt_wf s T -> grows s T s T.
Proof. by split. Qed.

Lemma grows_trans s T s1 T1 s2 T2 : grows s T s1 T1 -> grows s1 T1 s2 T2 -> grows s T s2 T2.
Proof.
  intros H1 H2. split.
  - by eapply gr_wf.
  - intros q x Hq. by eapply (gr_sub _ _ _ _ H2), (gr_sub _ _ _ _ H1).
  - by rewrite (gr_root _ _ _ _ H2), (gr_root _ _ _ _ H1).
  - by rewrite (gr_width _ _ _ _ H2), (gr_width _ _ _ _ H1).
  - intros va Hlow. rewrite (gr_view _ _ _ _ H2), (gr_view _ _ _ _ H1); [done|done|].
    unfold low. by rewrite (gr_width _ _ _ _ H1).
  - intros q l pre i Hq Hi Hp. pose proof (gr_keep _ _ _ _ H1 q l pre i Hq Hi Hp) as Hk.
    rewrite <- Hk in Hp |- *. apply (gr_keep _ _ _ _ H2 q l pre); [|done|done].
    by apply (gr_sub _ _ _ _ H1).
  - intros i Hi. rewrite <- (gr_kernel _ _ _ _ H1) by done.
    rewrite <- (gr_root _ _ _ _ H1). by apply (gr_kernel _ _ _ _ H2).
Qed.

Lemma create_grows s T l p va f fs :
  pt_wf s T -> low s va -> on_path s T (S (S l)) p va ->
  pte_is_present (read (pt_mem s) (calculate_pte_paddr p va (S (S l)))) = false ->
  pt_frames s = f :: fs ->
  grows s T
    (MkPageTable (root_paddr s) (tables s ++ [f]) (address_width s)
       (<[calculate_pte_paddr p va (S (S l)) := pte_new f table_flags]>
          (zero_frame f (pt_mem s))) fs)
    (<[f := (S l, prefix (address_width s) va (S l))]> T).
Proof.
  intros Hwf Hlow Hp Hnone Hfr. split; [by apply create_wf| |done|done| | |].
  - intros q x Hq. by eapply (table_lookup s T).
  - intros va' Hlow'. unfold view, do_page_walk. simpl root_paddr. simpl address_width.
    eapply create_view_from; [done..|]. by apply on_path_root.
  - intros q l' pre i Hq Hi Hpres.
    rewrite (create_read_old s T Hwf l p va f fs Hlow Hp Hnone Hfr _ _ _ Hq Hi).
    rewrite decide_False; [done|]. intros Heq. rewrite <- Heq, Hnone in Hpres. done.
  - intros i Hi. pose proof (wf_root _ _ Hwf) as Hr.
    assert (Hi' : 0 <= i < 512) by lia.
    rewrite (create_read_old s T Hwf l p va f fs Hlow Hp Hnone Hfr _ _ _ Hr Hi').
    rewrite decide_False; [done|]. intros Heq. destruct Hp as [Hp1 _].
    destruct (slot_inj p (root_paddr s) (page_index va (S (S l))) i) as [-> Hidx];
      [by eapply wf_table|by eapply wf_table|apply page_index_range|lia|exact Heq|].
    rewrite Hr in Hp1. injection Hp1 as HL _. unfold low in Hlow. rewrite HL in Hlow. lia.
Qed.

(** One turn of the loop, from the entry [cur]. *)
Definition walk_step (l : nat) (cur va : Z) (create : bool) (s : PageTable)
    : outcome PageTableError (option Z) * PageTable :=
  let pte := read (pt_mem s) cur in
  if PageTableFlags.is_huge (pte_flags pte) then (Ok (Some cur), s)
  else walk_mut (S l) (calculate_pte_paddr (pte_paddr pte) va (S l)) va create s.

Lemma walk_mut_create l cur va s :
  walk_mut (S (S l)) cur va true s =
  if pte_is_present (read (pt_mem s) cur) then walk_step l cur va true s
  else match pt_frames s with
       | [] => (Panic, s)
       | f :: fs =>
           walk_step l cur va true
             (MkPageTable (root_paddr s) (tables s ++ [f]) (address_width s)
                (<[cur := pte_new f table_flags]> (zero_frame f (pt_mem s))) fs)
       end.
Proof.
  unfold walk_step. cbn [walk_mut]. unfold sbind, sget, sret, sput, alloc_table.
  destruct (pte_is_present _).
  - by destruct (PageTableFlags.is_huge _).
  - destruct (pt_frames s); [done|]. by destruct (PageTableFlags.is_huge _).
Qed.

Lemma walk_mut_true l va : forall p s T,
  pt_wf s T -> low s va -> on_path s T l p va -> (l <= S (length (pt_frames s)))%nat ->
  exists a s' T',
    walk_mut l (calculate_pte_paddr p va l) va true s = (Ok (Some a), s') /\
    grows s T s' T' /\
    (length (pt_frames s) <= length (pt_frames s') + pred l)%nat /\
    walk (pt_mem s') l (calculate_pte_paddr p va l) va = Some a.
Proof.
  induction l as [|[|l] IH]; intros p s T Hwf Hlow Hp Hfr.
  - destruct Hp as [_ ?]. lia.
  - eexists _, s, T. split; [done|]. split; [by apply grows_refl|]. split; [lia|done].
  - set (cur := calculate_pte_paddr p va (S (S l))).
    (* a present entry at [cur], whether found or created *)
    assert (Hstep : forall s1 T1, grows s T s1 T1 ->
      pte_is_present (read (pt_mem s1) cur) = true ->
      (S l <= S (length (pt_frames s1)))%nat ->
      exists a s' T', walk_step l cur va true s1 = (Ok (Some a), s') /\
        grows s T s' T' /\ (length (pt_frames s1) <= length (pt_frames s') + l)%nat /\
        walk (pt_mem s') (S (S l)) cur va = Some a).
    { intros s1 T1 Hg Hpres Hfr1. destruct Hp as [Hp1 Hp2].
      assert (Hp' : on_path s1 T1 (S (S l)) p va).
      { split; rewrite (gr_width _ _ _ _ Hg); [|done]. by apply (gr_sub _ _ _ _ Hg). }
      assert (Hlow1 : low s1 va) by (unfold low; by rewrite (gr_width _ _ _ _ Hg)).
      destruct (on_path_next _ _ (gr_wf _ _ _ _ Hg) l p va Hlow1 Hp' Hpres) as [Hh Hn].
      fold cur in Hh, Hn. unfold walk_step. rewrite Hh.
      destruct (IH _ s1 T1 (gr_wf _ _ _ _ Hg) Hlow1 Hn Hfr1)
        as (a & s' & T' & -> & Hg' & Hlen & Hw).
      exists a, s', T'. split; [done|]. split; [by eapply grows_trans|].
      split; [simpl in Hlen; lia|].
      assert (Hcur : read (pt_mem s') cur = read (pt_mem s1) cur).
      { destruct Hp' as [Hp1' _]. apply (gr_keep _ _ _ _ Hg' p l _ _ Hp1');
          [apply page_index_range|done]. }
      rewrite walk_SS, Hcur, Hpres, Hh. exact Hw. }
    rewrite walk_mut_create. fold cur.
    destruct (pte_is_present (read (pt_mem s) cur)) eqn:Hpres.
    + destruct (Hstep s T) as (a & s' & T' & Hs & Hg & Hlen & Hw);
        [by apply grows_refl|done|lia|].
      exists a, s', T'. split_and!; [done|done|simpl; lia|done].
    + destruct (pt_frames s) as [|f fs] eqn:Hfs; [simpl in Hfr; lia|].
      pose proof (create_grows s T l p va f fs Hwf Hlow Hp Hpres Hfs) as Hg. fold cur in Hg.
      destruct (Hstep _ _ Hg) as (a & s' & T' & Hs & Hg' & Hlen & Hw).
      * simpl. rewrite read_insert, decide_True by done. by apply pte_new_present.
      * simpl in *. lia.
      * exists a, s', T'. split_and!; [done|done|simpl in *; lia|done].
Qed.
