(* ===== verification/PtInterface.v ===== *)
(** What a page table promises to the memory sets built on it, and the proof
    that the radix tree of [PageTable.v] keeps the promise. *)

From S2P Require Import Prelude BTree PageTable PageTableFacts.

(** * The interface *)

(** The operations [MemorySet] calls on its page table. *)
Class PtOps (PT : Type) : Type := {
  op_map : Z -> Z -> Z -> stM PT PageTableError unit;
  op_unmap : Z -> stM PT PageTableError unit;
  op_protect : Z -> Z -> stM PT PageTableError Z;
  op_flags : PT -> Z -> option Z;
  op_is_mapped : PT -> Z -> bool;
}.

(** User addresses and user pages. *)
Definition user_va (va : Z) : Prop := 0 <= va < 2 ^ 47.
Definition user_page (n : Z) : Prop := 0 <= n < 2 ^ 35.
Definition vpn (va : Z) : Z := va / PAGE_SIZE.

(** The laws: [ok] is the invariant of the table, [view] the flat map from page
    numbers to (frame, flags) it implements and [room] the number of frames
    left for its own tables, of which a [map] takes at most three. *)
Class PtLaws {PT} (ops : PtOps PT) (ok : PT -> Prop)
    (view : PT -> Z -> option (Z * Z)) (room : PT -> nat) : Prop := {
  law_is_mapped : forall s va, ok s -> user_va va ->
    op_is_mapped s va = bool_decide (is_Some (view s (vpn va)));
  law_flags : forall s va, ok s -> user_va va ->
    match view s (vpn va) with
    | Some (_, fl) => op_flags s va = Some fl
    | None => op_flags s va = None \/ op_flags s va = Some 0
    end;
  law_map : forall s va pa fl, ok s -> user_va va -> valid_frame pa -> valid_flags fl ->
    (3 <= room s)%nat ->
    exists r s', op_map va pa fl s = (r, s') /\ ok s' /\ (room s <= room s' + 3)%nat /\
      match view s (vpn va) with
      | Some _ => r = Err InvalidModification /\
          forall n, user_page n -> view s' n = view s n
      | None => r = Ok tt /\
          forall n, user_page n ->
            view s' n = if decide (n = vpn va) then Some (pa, fl) else view s n
      end;
  law_unmap : forall s va, ok s -> user_va va ->
    match view s (vpn va) with
    | None => op_unmap va s = (Err InvalidModification, s)
    | Some _ => exists s', op_unmap va s = (Ok tt, s') /\ ok s' /\ room s' = room s /\
        forall n, user_page n ->
          view s' n = if decide (n = vpn va) then None else view s n
    end;
  law_protect : forall s va fl, ok s -> user_va va -> valid_flags fl ->
    match view s (vpn va) with
    | None => op_protect va fl s = (Err InvalidModification, s)
    | Some (pa, old) => exists s', op_protect va fl s = (Ok old, s') /\ ok s' /\
        room s' = room s /\
        forall n, user_page n ->
          view s' n = if decide (n = vpn va) then Some (pa, fl) else view s n
    end;
}.

(** * The radix page table *)

#[export] Instance radix_ops : PtOps PageTable := {
  op_map := user_map;
  op_unmap := user_unmap;
  op_protect := user_protect;
  op_flags := flags;
  op_is_mapped := is_mapped;
}.

Definition radix_ok (s : PageTable) : Prop := address_width s = 4%nat /\ exists T, pt_wf s T.

Definition radix_view (s : PageTable) (n : Z) : option (Z * Z) :=
  (fun pte => (pte_paddr pte, pte_flags pte)) <$> view s (n * PAGE_SIZE).

Definition radix_room (s : PageTable) : nat := length (pt_frames s).

Lemma user_low s va : address_width s = 4%nat -> user_va va -> low s va.
Proof.
  intros HL [H0 Hva]. unfold low. rewrite HL, page_index_eq.
  change (12 + 9 * Z.of_nat 3) with 39.
  assert (0 <= va / 2 ^ 39 < 256).
  { split; [by apply Z.div_pos|]. apply Z.div_lt_upper_bound; lia. }
  rewrite Z.mod_small; lia.
Qed.

Lemma user_not_kernel va : user_va va -> is_kernel_vaddr va = false.
Proof.
  intros [H0 Hva]. unfold is_kernel_vaddr.
  rewrite Z.shiftr_div_pow2, Z.div_small by lia. done.
Qed.

Lemma user_prefix va : user_va va -> prefix 4 va 0 = vpn va.
Proof.
  intros [H0 Hva]. unfold prefix, vpn. change (12 + 9 * Z.of_nat 4) with 48.
  change (2 ^ (12 + 9 * Z.of_nat 0)) with PAGE_SIZE. rewrite Z.mod_small; [done|].
  split; [lia|]. etrans; [exact Hva|]. by apply Z.pow_lt_mono_r.
Qed.

Lemma user_page_va n : user_page n -> user_va (n * PAGE_SIZE).
Proof. unfold user_page, user_va, PAGE_SIZE. lia. Qed.

Lemma vpn_page n : vpn (n * PAGE_SIZE) = n.
Proof. unfold vpn. by rewrite Z.div_mul. Qed.

Lemma vpn_user va : user_va va -> user_page (vpn va).
Proof.
  unfold user_va, user_page, vpn, PAGE_SIZE. intros [H0 H1].
  split; [by apply Z.div_pos|]. apply Z.div_lt_upper_bound; lia.
Qed.

(** All addresses of a page see the same entry. *)
Lemma view_page s va :
  address_width s = 4%nat -> user_va va -> view s va = view s (vpn va * PAGE_SIZE).
Proof.
  intros HL Hva. pose proof (user_page_va _ (vpn_user _ Hva)) as Hva'.
  assert (Hp : prefix 4 va 0 = prefix 4 (vpn va * PAGE_SIZE) 0)
    by (rewrite !user_prefix, vpn_page by done; done).
  unfold view, do_page_walk, calculate_pte_paddr. rewrite HL.
  rewrite (page_index_page 4 _ _ 3 ltac:(lia) Hp).
  by rewrite (walk_page 4 _ _ _ 4 _ ltac:(lia) Hp).
Qed.

Lemma walk_view s T va a :
  pt_wf s T -> low s va -> do_page_walk s va = Some a ->
  exists q, on_path s T 1 q va /\ a = calculate_pte_paddr q va 1.
Proof. intros Hwf Hlow. by apply walk_end, on_path_root. Qed.

(** A leaf update of the entry of [va], in terms of the flat view. *)
Lemma leaf_update s T va a v :
  pt_wf s T -> address_width s = 4%nat -> user_va va -> do_page_walk s va = Some a ->
  v = 0 \/ pte_is_present v = true ->
  radix_ok (pt_write a v s) /\
  forall n, user_page n ->
    radix_view (pt_write a v s) n =
    if decide (n = vpn va)
    then (fun pte => (pte_paddr pte, pte_flags pte)) <$>
           (if pte_is_present v then Some v else None)
    else radix_view s n.
Proof.
  intros Hwf HL Hva Hw Hv. pose proof (user_low s va HL Hva) as Hlow.
  destruct (walk_view s T va a Hwf Hlow Hw) as (q & Hq & ->). split.
  - split; [done|]. exists T. by apply leaf_wf.
  - intros n Hn. unfold radix_view. pose proof (user_page_va n Hn) as Hnva.
    rewrite (leaf_view s T Hwf q va v Hq _ (user_low _ _ HL Hnva) Hw).
    rewrite HL, !user_prefix, vpn_page by done. case_decide; [|done].
    simpl pte_at. rewrite read_insert, decide_True by done.
    destruct (pte_is_present v) eqn:Hp; [by rewrite (present_used v Hp)|].
    by rewrite andb_false_r.
Qed.

Lemma radix_view_vpn s va :
  address_width s = 4%nat -> user_va va ->
  radix_view s (vpn va) =
  (fun pte => (pte_paddr pte, pte_flags pte)) <$> pte_at (pt_mem s) (do_page_walk s va).
Proof. intros HL Hva. unfold radix_view. by rewrite <- view_page. Qed.

Lemma do_page_walk_mut_false s T va :
  pt_wf s T -> low s va -> do_page_walk_mut va false s = (Ok (do_page_walk s va), s).
Proof. intros Hwf Hlow. by apply (walk_mut_false s T), on_path_root. Qed.

Lemma pte_at_some mem o pte :
  pte_at mem o = Some pte ->
  exists a, o = Some a /\ pte = read mem a /\ pte_is_used pte = true /\ pte_is_present pte = true.
Proof.
  destruct o as [a|]; simpl; [|done].
  destruct (pte_is_used _) eqn:H1, (pte_is_present _) eqn:H2; simpl; [|done..].
  intros [= <-]. by exists a.
Qed.

(** Looking up an unmapped page: no entry, or a zero one. *)
Lemma pte_at_none s T va :
  pt_wf s T -> low s va -> pte_at (pt_mem s) (do_page_walk s va) = None ->
  do_page_walk s va = None \/
  exists a, do_page_walk s va = Some a /\ read (pt_mem s) a = 0.
Proof.
  intros Hwf Hlow Hn. destruct (do_page_walk s va) as [a|] eqn:Hw; [right|by left].
  exists a. split; [done|].
  destruct (walk_view s T va a Hwf Hlow Hw) as (q & [Hq _] & ->).
  destruct (wf_leaf _ _ Hwf q _ _ Hq (page_index_range va 0)) as [H0|Hp]; [done|exfalso].
  unfold pte_at, calculate_pte_paddr in Hn. by rewrite Hp, (present_used _ Hp) in Hn.
Qed.

(** ** The laws *)

Lemma radix_is_mapped s va :
  radix_ok s -> user_va va -> is_mapped s va = bool_decide (is_Some (radix_view s (vpn va))).
Proof.
  intros [HL [T Hwf]] Hva. rewrite radix_view_vpn by done. unfold is_mapped, pte_at.
  destruct (do_page_walk s va) as [a|]; [|done].
  by destruct (pte_is_used _ && pte_is_present _).
Qed.

Lemma radix_flags s va :
  radix_ok s -> user_va va ->
  match radix_view s (vpn va) with
  | Some (_, fl) => flags s va = Some fl
  | None => flags s va = None \/ flags s va = Some 0
  end.
Proof.
  intros [HL [T Hwf]] Hva. rewrite radix_view_vpn by done. unfold flags.
  destruct (pte_at _ _) as [pte|] eqn:Hp; simpl.
  - by destruct (pte_at_some _ _ _ Hp) as (a & -> & -> & _).
  - destruct (pte_at_none s T va Hwf (user_low _ _ HL Hva) Hp) as [->|(a & -> & H0)];
      [by left|right]. simpl. by rewrite H0.
Qed.

Lemma radix_unmap s va :
  radix_ok s -> user_va va ->
  match radix_view s (vpn va) with
  | None => user_unmap va s = (Err InvalidModification, s)
  | Some _ => exists s', user_unmap va s = (Ok tt, s') /\ radix_ok s' /\
      radix_room s' = radix_room s /\
      forall n, user_page n ->
        radix_view s' n = if decide (n = vpn va) then None else radix_view s n
  end.
Proof.
  intros [HL [T Hwf]] Hva. pose proof (user_low _ _ HL Hva) as Hlow.
  rewrite radix_view_vpn by done. unfold user_unmap, do_unmap.
  rewrite user_not_kernel by done. unfold sbind, sget.
  rewrite !(do_page_walk_mut_false s T) by done.
  destruct (pte_at _ _) as [pte|] eqn:Hp; simpl.
  - destruct (pte_at_some _ _ _ Hp) as (a & Hw & -> & Hu & Hpr). rewrite Hw.
    rewrite Hu, Hpr. simpl.
    destruct (leaf_update s T va a 0 Hwf HL Hva Hw) as [Hok Hv]; [by left|].
    eexists. split; [done|]. split; [done|]. split; [done|]. exact Hv.
  - destruct (pte_at_none s T va Hwf Hlow Hp) as [->|(a & -> & H0)]; [done|].
    by rewrite H0.
Qed.

Lemma radix_protect s va fl :
  radix_ok s -> user_va va -> valid_flags fl ->
  match radix_view s (vpn va) with
  | None => user_protect va fl s = (Err InvalidModification, s)
  | Some (pa, old) => exists s', user_protect va fl s = (Ok old, s') /\ radix_ok s' /\
      radix_room s' = radix_room s /\
      forall n, user_page n ->
        radix_view s' n = if decide (n = vpn va) then Some (pa, fl) else radix_view s n
  end.
Proof.
  intros [HL [T Hwf]] Hva Hfl. pose proof (user_low _ _ HL Hva) as Hlow.
  rewrite radix_view_vpn by done. unfold user_protect, do_protect.
  rewrite user_not_kernel by done. unfold sbind, sget.
  rewrite !(do_page_walk_mut_false s T) by done.
  destruct (pte_at _ _) as [pte|] eqn:Hp; simpl.
  - destruct (pte_at_some _ _ _ Hp) as (a & Hw & -> & Hu & Hpr). rewrite Hw.
    unfold pte_is_present in Hpr. rewrite Hu, Hpr. simpl.
    destruct (leaf_update s T va a (pte_new (pte_paddr (read (pt_mem s) a)) fl) Hwf HL Hva Hw)
      as [Hok Hv]; [right; by apply pte_new_present|].
    eexists. split; [done|]. split; [done|]. split; [done|].
    intros n Hn. rewrite Hv by done. case_decide; [|done].
    rewrite pte_new_present by done. destruct Hfl as [Hfl _]. simpl.
    rewrite pte_paddr_new, pte_flags_new by done. unfold pte_paddr.
    by rewrite <- Z.land_assoc, Z.land_diag.
  - destruct (pte_at_none s T va Hwf Hlow Hp) as [->|(a & -> & H0)]; [done|].
    by rewrite H0.
Qed.

Lemma radix_map s va pa fl :
  radix_ok s -> user_va va -> valid_frame pa -> valid_flags fl -> (3 <= radix_room s)%nat ->
  exists r s', user_map va pa fl s = (r, s') /\ radix_ok s' /\
    (radix_room s <= radix_room s' + 3)%nat /\
    match radix_view s (vpn va) with
    | Some _ => r = Err InvalidModification /\
        forall n, user_page n -> radix_view s' n = radix_view s n
    | None => r = Ok tt /\
        forall n, user_page n ->
          radix_view s' n = if decide (n = vpn va) then Some (pa, fl) else radix_view s n
    end.
Proof.
  intros [HL [T Hwf]] Hva Hpa Hfl Hroom. pose proof (user_low _ _ HL Hva) as Hlow.
  unfold radix_room in Hroom.
  destruct (walk_mut_true 4 va (root_paddr s) s T Hwf Hlow) as (a & s1 & T1 & Hmut & Hg & Hlen & Hw);
    [rewrite <- HL; by apply on_path_root|lia|].
  assert (HL1 : address_width s1 = 4%nat) by (by rewrite (gr_width _ _ _ _ Hg)).
  assert (Hw1 : do_page_walk s1 va = Some a)
    by (unfold do_page_walk; by rewrite HL1, (gr_root _ _ _ _ Hg)).
  assert (Hview : forall n, user_page n -> radix_view s1 n = radix_view s n).
  { intros n Hn. unfold radix_view. rewrite (gr_view _ _ _ _ Hg); [done|].
    apply user_low; [done|]. by apply user_page_va. }
  pose proof (gr_wf _ _ _ _ Hg) as Hwf1.
  rewrite <- Hview by (by apply vpn_user). rewrite radix_view_vpn, Hw1 by done.
  unfold user_map, do_map, do_page_walk_mut. rewrite user_not_kernel by done.
  unfold sbind, sget. rewrite HL, Hmut. simpl. unfold slift, serr, sput. simpl.
  destruct (pte_is_used (read (pt_mem s1) a) && pte_is_present (read (pt_mem s1) a)) eqn:Hup;
    eexists _, _; (split; [done|]).
  - split; [split; [done|by exists T1]|]. split; [unfold radix_room; simpl in Hlen; lia|].
    done.
  - destruct (leaf_update s1 T1 va a (pte_new pa fl) Hwf1 HL1 Hva Hw1) as [Hok Hv];
      [right; by apply pte_new_present|].
    split; [done|]. split; [unfold radix_room; simpl in *; lia|].
    split; [done|]. intros n Hn. rewrite Hv by done. case_decide; [|by apply Hview].
    rewrite pte_new_present by done. destruct Hfl as [Hfl _]. simpl.
    by rewrite pte_paddr_new, pte_flags_new, frame_mask by done.
Qed.

#[export] Instance radix_laws : PtLaws radix_ops radix_ok radix_view radix_room.
Proof.
  split; intros.
  - by apply radix_is_mapped.
  - by apply radix_flags.
  - by apply radix_map.
  - by apply radix_unmap.
  - by apply radix_protect.
Qed.

(** ** A new page table is empty *)

(** Entry [i] of the root table. *)
Definition root_entry (s : PageTable) (i : Z) : Z := read (pt_mem s) (root_paddr s + 8 * i).

(** A four-level table whose root has no entry in the user half. *)
Record blank (s : PageTable) : Prop := {
  bl_width : address_width s = 4%nat;
  bl_nodup : NoDup (root_paddr s :: pt_frames s);
  bl_valid : forall f, f ∈ root_paddr s :: pt_frames s -> valid_frame f;
  bl_user : forall i, 0 <= i < 256 -> root_entry s i = 0;
}.

Lemma blank_wf s : blank s -> pt_wf s {[ root_paddr s := (4%nat, 0) ]}.
Proof.
  intros [HL Hnd Hval Hz]. apply NoDup_cons in Hnd as [Hroot Hnd]. split.
  - rewrite HL. lia.
  - by rewrite HL, lookup_singleton_eq.
  - intros p x Hp. apply lookup_singleton_Some in Hp as [<- _]. apply Hval. set_solver.
  - intros p l pre idx Hp Hi Hlow. apply lookup_singleton_Some in Hp as [<- [= <- <-]].
    fold (root_entry s idx). rewrite Hz by (rewrite HL in Hlow; lia). done.
  - intros p pre idx Hp Hi. by apply lookup_singleton_Some in Hp as [_ ?].
  - done.
  - intros f Hf. split; [apply Hval; set_solver|]. apply lookup_singleton_None. set_solver.
Qed.

Lemma blank_ok s : blank s -> radix_ok s /\ forall n, user_page n -> radix_view s n = None.
Proof.
  intros Hb. split; [split; [by apply bl_width|eexists; by apply blank_wf]|].
  intros n Hn. unfold radix_view, view, do_page_walk. rewrite (bl_width _ Hb), walk_SS.
  unfold calculate_pte_paddr at 1 2. fold (root_entry s (page_index (n * PAGE_SIZE) 4)).
  pose proof (page_index_range (n * PAGE_SIZE) 3) as Hi.
  rewrite bl_user; [done|done|]. split; [apply Hi|].
  assert (Hlow : low s (n * PAGE_SIZE)).
  { apply user_low; [by apply bl_width|]. unfold user_page, user_va, PAGE_SIZE in *. lia. }
  unfold low in Hlow. by rewrite (bl_width _ Hb) in Hlow.
Qed.

Lemma pt_new_blank mem root frames :
  NoDup (root :: frames) -> (forall f, f ∈ root :: frames -> valid_frame f) ->
  exists s, pt_new 4 mem (root :: frames) = Ok s /\ blank s /\ pt_frames s = frames /\
    forall i, 0 <= i < 512 -> root_entry s i = 0.
Proof.
  intros Hnd Hval. eexists. split; [done|].
  assert (Hz : forall i, 0 <= i < 512 -> read (zero_frame root mem) (root + 8 * i) = 0).
  { intros i Hi. rewrite read_zero, decide_True; [done|]. unfold PAGE_SIZE. lia. }
  split_and!; [|done|done]. constructor; [done..|]. intros i Hi. apply Hz. lia.
Qed.

Lemma pt_new_ok mem root frames :
  NoDup (root :: frames) -> (forall f, f ∈ root :: frames -> valid_frame f) ->
  exists s, pt_new 4 mem (root :: frames) = Ok s /\ radix_ok s /\
    radix_room s = length frames /\ forall n, user_page n -> radix_view s n = None.
Proof.
  intros Hnd Hval. destruct (pt_new_blank mem root frames Hnd Hval) as (s & Hnew & Hb & Hf & _).
  destruct (blank_ok s Hb) as [Hok Hv]. exists s. split_and!; [done..| |done]. unfold radix_room. by rewrite Hf.
Qed.

(** [add_root_mapping] on a kernel entry of a table without user mappings. *)
Lemma add_root_mapping_blank s index pte :
  blank s -> 256 <= index < 512 ->
  exists s', add_root_mapping index pte s = (Ok tt, s') /\ blank s' /\ pt_frames s' = pt_frames s /\
    forall i, root_entry s' i = if decide (i = index) then pte else root_entry s i.
Proof.
  intros Hb Hi. destruct (bl_valid _ Hb (root_paddr s)) as [Hpos _]; [left|].
  exists (pt_write (root_paddr s + 8 * index) pte s).
  assert (Hent : forall i, root_entry (pt_write (root_paddr s + 8 * index) pte s) i =
    if decide (i = index) then pte else root_entry s i).
  { intros i. unfold root_entry. simpl. rewrite read_insert.
    destruct (decide (i = index)) as [->|]; [by rewrite decide_True|rewrite decide_False; [done|lia]]. }
  split_and!; [| |done|done].
  - unfold add_root_mapping, sbind, sget, slift.
    rewrite (proj2 (Z.eqb_neq _ 0)), (proj2 (Z.leb_le 0 index)), (proj2 (Z.ltb_lt index 512)) by lia. done.
  - destruct Hb as [HL Hnd Hval Hz]. constructor; [done..|].
    intros i Hi'. rewrite Hent, decide_False by lia. by apply Hz.
Qed.

Lemma add_root_mappings_blank ptes s :
  blank s -> bt_sorted ptes -> (forall i pte, (i, pte) ∈ ptes -> 256 <= i < 512) ->
  exists s', sfor ptes (fun '(index, pte) => add_root_mapping index pte) s = (Ok tt, s') /\
    blank s' /\ pt_frames s' = pt_frames s /\
    forall i, root_entry s' i = default (root_entry s i) (bt_get i ptes).
Proof.
  revert s. induction ptes as [|[j pte] ptes IH]; intros s Hb Hs Hin; [by exists s|].
  destruct (add_root_mapping_blank s j pte Hb) as (s1 & Hrun & Hb1 & Hf1 & He1); [apply (Hin j pte); left|].
  apply bt_sorted_cons in Hs as [Hall Hs].
  destruct (IH s1 Hb1 Hs) as (s2 & Hrun2 & Hb2 & Hf2 & He2); [intros i p Hp; apply (Hin i p); by right|].
  exists s2. cbn [sfor]. rewrite (sbind_ok _ _ _ _ _ Hrun). split_and!; [done..|by rewrite Hf2|].
  intros i. rewrite He2, He1. simpl. destruct (decide (i = j)) as [->|Hne].
  - rewrite Z.eqb_refl. destruct (bt_get j ptes) as [q|] eqn:Hq; [|done].
    apply bt_get_elem in Hq. rewrite Forall_forall in Hall. specialize (Hall _ Hq). unfold key_lt in Hall. simpl in Hall. lia.
  - by rewrite (proj2 (Z.eqb_neq i j)).
Qed.

(** [MemorySet::new]'s page table. *)
Lemma new_user_table_ok mem root frames ptes :
  NoDup (root :: frames) -> (forall f, f ∈ root :: frames -> valid_frame f) ->
  bt_sorted ptes -> (forall i pte, (i, pte) ∈ ptes -> 256 <= i < 512) ->
  exists s, new_user_table mem (root :: frames) ptes = Ok s /\ radix_ok s /\
    radix_room s = length frames /\ (forall n, user_page n -> radix_view s n = None) /\
    forall i, 0 <= i < 512 -> root_entry s i = default 0 (bt_get i ptes).
Proof.
  intros Hnd Hval Hs Hin. destruct (pt_new_blank mem root frames Hnd Hval) as (s0 & Hnew & Hb0 & Hf0 & Hz).
  destruct (add_root_mappings_blank ptes s0 Hb0 Hs Hin) as (s & Hrun & Hb & Hf & He).
  destruct (blank_ok s Hb) as [Hok Hv]. exists s. split_and!; [|done| |done|].
  - unfold new_user_table. rewrite Hnew. cbn [obind]. by rewrite Hrun.
  - unfold radix_room. by rewrite Hf, Hf0.
  - intros i Hi. by rewrite He, Hz.
Qed.

(** ** The kernel half of the root table *)

Lemma not_kernel_low s va :
  address_width s = 4%nat -> is_kernel_vaddr va = false -> low s va.
Proof.
  intros HL Hk. unfold low. rewrite HL, page_index_eq.
  change (12 + 9 * Z.of_nat 3) with 39.
  unfold is_kernel_vaddr in Hk. apply Z.eqb_neq in Hk.
  change 1 with (Z.ones 1) in Hk at 1. rewrite Z.land_ones, Z.shiftr_div_pow2 in Hk by lia.
  change (2 ^ 47) with (2 ^ 39 * 256) in Hk. rewrite <- Z.div_div in Hk by lia.
  change (2 ^ 1) with 2 in Hk. set (x := va / 2 ^ 39) in *.
  change 512 with (256 * 2). rewrite Z.rem_mul_r by lia.
  pose proof (Z.mod_pos_bound x 256 ltac:(lia)).
  pose proof (Z.mod_pos_bound (x / 256) 2 ltac:(lia)). lia.
Qed.

(** A leaf entry is not a root entry. *)
Lemma leaf_not_root s T q va i :
  pt_wf s T -> on_path s T 1 q va -> 0 <= i < 512 ->
  calculate_pte_paddr q va 1 <> root_paddr s + 8 * i.
Proof.
  intros Hwf [Hq _] Hi. pose proof (wf_level _ _ Hwf).
  apply (slot_ne s T Hwf _ _ _ _ _ _ _ _ Hq (wf_root _ _ Hwf) (page_index_range va 0) Hi).
  intros [= ? _ _]. lia.
Qed.

Lemma leaf_kernel s T va a v i :
  pt_wf s T -> low s va -> do_page_walk s va = Some a -> 0 <= i < 512 ->
  root_entry (pt_write a v s) i = root_entry s i.
Proof.
  intros Hwf Hlow Hw Hi. destruct (walk_view s T va a Hwf Hlow Hw) as (q & Hq & ->).
  unfold root_entry. simpl. rewrite read_insert, decide_False; [done|].
  by eapply leaf_not_root.
Qed.

(** * Properties *)

(** A page-table entry built from a physical address and flags gives both
    back: the frame address of any page-aligned frame below 2^52 and every
    combination of the declared flag bits. *)
Lemma pte_roundtrip (pa fl : Z) :
  valid_frame pa -> Z.land fl PageTableFlags.all_bits = fl ->
  pte_paddr (pte_new pa fl) = pa /\ pte_flags (pte_new pa fl) = fl.
Proof.
  intros Hpa Hfl. rewrite pte_paddr_new, pte_flags_new by done.
  split; [by apply frame_mask|done].
Qed.

(** C2: the radix page table refines a flat map from user pages to (frame,
    flags): a new table is empty and well-formed, and on every well-formed
    table [is_mapped], [flags], [map], [unmap] and [protect] read and update
    exactly the page of the address, report [InvalidModification] exactly when
    the page is already mapped (map) or not mapped (unmap, protect), keep the
    tree well-formed, and [map] uses at most three new tables. *)
Theorem radix_refines_flat_map :
  (forall mem root frames,
     NoDup (root :: frames) -> (forall f, f ∈ root :: frames -> valid_frame f) ->
     exists s, pt_new 4 mem (root :: frames) = Ok s /\ radix_ok s /\
       radix_room s = length frames /\ forall n, user_page n -> radix_view s n = None) /\
  PtLaws radix_ops radix_ok radix_view radix_room.
Proof. split; [apply pt_new_ok|apply radix_laws]. Qed.

(** C20: the kernel half (entries 256 to 511) of a user page table's root.
    [MemorySet::new] builds a table without user mappings whose root holds
    exactly the kernel entries it copies with [add_root_mapping], provided they
    are all kernel entries.  From then on [map], [unmap] and [protect], whatever
    the address they are called with, change no entry of that half; [map] with
    three free frames for tables. *)
Theorem kernel_half_preserved :
  (forall mem root frames ptes,
     NoDup (root :: frames) -> (forall f, f ∈ root :: frames -> valid_frame f) ->
     bt_sorted ptes -> (forall i pte, (i, pte) ∈ ptes -> 256 <= i < 512) ->
     exists s, new_user_table mem (root :: frames) ptes = Ok s /\ radix_ok s /\
       radix_room s = length frames /\ (forall n, user_page n -> radix_view s n = None) /\
       forall i, 0 <= i < 512 -> root_entry s i = default 0 (bt_get i ptes)) /\
  forall (s : PageTable) (va pa fl i : Z),
    radix_ok s -> (3 <= radix_room s)%nat -> 256 <= i < 512 ->
    root_entry (user_map va pa fl s).2 i = root_entry s i /\
    root_entry (user_unmap va s).2 i = root_entry s i /\
    root_entry (user_protect va fl s).2 i = root_entry s i.
Proof.
  split; [apply new_user_table_ok|].
  intros s va pa fl i [HL [T Hwf]] Hroom Hi. unfold user_map, user_unmap, user_protect.
  destruct (is_kernel_vaddr va) eqn:Hk; [done|].
  pose proof (not_kernel_low s va HL Hk) as Hlow. split_and!.
  - unfold radix_room in Hroom.
    destruct (walk_mut_true 4 va (root_paddr s) s T Hwf Hlow)
      as (a & s1 & T1 & Hmut & Hg & Hlen & Hw);
      [rewrite <- HL; by apply on_path_root|lia|].
    assert (HL1 : address_width s1 = 4%nat) by (by rewrite (gr_width _ _ _ _ Hg)).
    assert (Hk1 : root_entry s1 i = root_entry s i).
    { unfold root_entry. rewrite (gr_root _ _ _ _ Hg). by apply (gr_kernel _ _ _ _ Hg). }
    assert (Hw1 : do_page_walk s1 va = Some a)
      by (unfold do_page_walk; by rewrite HL1, (gr_root _ _ _ _ Hg)).
    unfold do_map, do_page_walk_mut, sbind, sget. rewrite HL, Hmut. simpl.
    destruct (_ && _); simpl; [done|]. rewrite <- Hk1.
    apply (leaf_kernel s1 T1 va); [by eapply gr_wf|by apply not_kernel_low|done|lia].
  - unfold do_unmap, sbind, sget. rewrite (do_page_walk_mut_false s T) by done.
    destruct (do_page_walk s va) as [a|] eqn:Hw; [|done].
    destruct (_ || _); [done|]. apply (leaf_kernel s T va); [done|done|done|lia].
  - unfold do_protect, sbind, sget. rewrite (do_page_walk_mut_false s T) by done.
    destruct (do_page_walk s va) as [a|] eqn:Hw; [|done].
    destruct (_ || _); [done|]. apply (leaf_kernel s T va); [done|done|done|lia].
Qed.

Lemma kernel_half_preserved_witness :
  exists s, new_user_table ∅ [0x1000; 0x2000; 0x3000; 0x4000] [(256, 0x7003); (511, 0x8003)] = Ok s /\
    root_entry (user_map 0x40000000 0x9000 7 s).2 511 = 0x8003.
Proof.
  destruct kernel_half_preserved as [Hnew Hkeep].
  destruct (Hnew ∅ 0x1000 [0x2000; 0x3000; 0x4000] [(256, 0x7003); (511, 0x8003)])
    as (s & Hrun & Hok & Hroom & _ & Hent).
  - apply (bool_decide_unpack _). vm_compute. exact I.
  - intros f Hf. rewrite !elem_of_cons, elem_of_nil in Hf.
    destruct Hf as [->|[->|[->|[->|[]]]]]; done.
  - repeat constructor.
  - intros i pte Hin. rewrite !elem_of_cons, elem_of_nil in Hin.
    destruct Hin as [[= -> _]|[[= -> _]|[]]]; lia.
  - exists s. split; [exact Hrun|].
    destruct (Hkeep s 0x40000000 0x9000 7 511 Hok) as [Hmap _]; [rewrite Hroom; simpl; lia|lia|].
    rewrite Hmap. apply (Hent 511). lia.
Defined.
