(* ===== verification/Frame.v ===== *)
(** Page frames, readers and writers over contiguous memory, and the options
    for allocating frames (framework/aster-frame/src/vm/frame.rs,
    frame_allocator.rs, options.rs and mod.rs). *)

From S2P Require Import Prelude.

(** [aster_frame::Error] (framework/aster-frame/src/error.rs). *)
Inductive Error : Type :=
  | InvalidArgs | NoMemory | PageFault | AccessDenied | IoError
  | NotEnoughResources | Overflow.

#[export] Instance Error_eq_dec : EqDecision Error.
Proof. solve_decision. Defined.

(** * Byte memory *)

(** The kernel's view of memory, one byte per virtual address; an address that
    was never written reads as 0. *)
Notation memory := (gmap Z Z).

Definition byte_at (mem : memory) (a : Z) : Z := default 0 (mem !! a).

Definition mem_bytes (mem : memory) (ptr len : Z) : list Z := byte_at mem <$> seqZ ptr len.

Fixpoint mem_store (ptr : Z) (bs : list Z) (mem : memory) : memory :=
  match bs with
  | [] => mem
  | b :: bs' => <[ptr := b]> (mem_store (ptr + 1) bs' mem)
  end.

(** [core::ptr::copy(src, dst, n)], which allows the ranges to overlap. *)
Definition mem_copy (src dst n : Z) (mem : memory) : memory :=
  mem_store dst (mem_bytes mem src n) mem.

(** A slice [&[u8]] or [&mut [u8]]. *)
Record slice : Type := Slice { sl_ptr : Z; sl_len : Z }.

(** [&data[from..to]] *)
Definition subslice {E} (s : slice) (from to : Z) : outcome E slice :=
  let? _ := oassert ((from <=? to) && (to <=? sl_len s)) in
  Ok (Slice (sl_ptr s + from) (to - from)).

Definition slice_bytes (mem : memory) (s : slice) : list Z := mem_bytes mem (sl_ptr s) (sl_len s).

(** * Addresses (vm/mod.rs) *)

Notation MAX_USERSPACE_VADDR := (0x0000800000000000 - PAGE_SIZE)%Z (only parsing).
Notation PHYS_MEM_BASE_VADDR := 0xffff800000000000%Z (only parsing).

Notation is_page_aligned p := (Z.land p (PAGE_SIZE - 1) =? 0)%Z (only parsing).

Notation paddr_to_vaddr pa := (uadd pa PHYS_MEM_BASE_VADDR) (only parsing).

(** * [VmReader] and [VmWriter] (frame.rs) *)

Record VmReader : Type := MkVmReader { rd_cursor : Z; rd_end : Z }.
Record VmWriter : Type := MkVmWriter { wr_cursor : Z; wr_end : Z }.

(** [impl VmReader] *)
Definition reader_from_raw_parts (ptr len : Z) : VmReader := MkVmReader ptr (ptr + len).
Definition remain (self : VmReader) : Z := rd_end self - rd_cursor self.
Notation has_remain self := (0 <? remain self)%Z (only parsing).
Definition reader_skip {E} (self : VmReader) (nbytes : Z) : outcome E VmReader :=
  let? _ := oassert (nbytes <=? remain self) in
  Ok (MkVmReader (rd_cursor self + nbytes) (rd_end self)).
Definition reader_of_slice (s : slice) : VmReader := reader_from_raw_parts (sl_ptr s) (sl_len s).

(** [impl VmWriter] *)
Definition writer_from_raw_parts_mut (ptr len : Z) : VmWriter := MkVmWriter ptr (ptr + len).
Definition avail (self : VmWriter) : Z := wr_end self - wr_cursor self.
Notation has_avail self := (0 <? avail self)%Z (only parsing).
Definition writer_skip {E} (self : VmWriter) (nbytes : Z) : outcome E VmWriter :=
  let? _ := oassert (nbytes <=? avail self) in
  Ok (MkVmWriter (wr_cursor self + nbytes) (wr_end self)).
Definition writer_of_slice (s : slice) : VmWriter := writer_from_raw_parts_mut (sl_ptr s) (sl_len s).

(** The copy both [VmReader::read] and [VmWriter::write] make. *)
Record transfer : Type := MkTransfer {
  tr_len : Z; tr_reader : VmReader; tr_writer : VmWriter; tr_mem : memory }.

(** [VmReader::read] *)
Definition vm_read (self : VmReader) (writer : VmWriter) (mem : memory) : transfer :=
  let copy_len := Z.min (remain self) (avail writer) in
  if copy_len =? 0 then MkTransfer 0 self writer mem
  else MkTransfer copy_len
         (MkVmReader (rd_cursor self + copy_len) (rd_end self))
         (MkVmWriter (wr_cursor writer + copy_len) (wr_end writer))
         (mem_copy (rd_cursor self) (wr_cursor writer) copy_len mem).

(** [VmWriter::write] *)
Definition vm_write (self : VmWriter) (reader : VmReader) (mem : memory) : transfer :=
  let copy_len := Z.min (avail self) (remain reader) in
  if copy_len =? 0 then MkTransfer 0 reader self mem
  else MkTransfer copy_len
         (MkVmReader (rd_cursor reader + copy_len) (rd_end reader))
         (MkVmWriter (wr_cursor self + copy_len) (wr_end self))
         (mem_copy (rd_cursor reader) (wr_cursor self) copy_len mem).

(** The [while self.avail() > 0] loop of [VmWriter::fill]; [value] is
    [value.as_bytes()], and every turn consumes at least one byte. *)
Fixpoint fill_loop (fuel : nat) (self : VmWriter) (value : list Z) (mem : memory)
    : VmWriter * memory :=
  match fuel with
  | O => (self, mem)
  | S fuel' =>
      if 0 <? avail self then
        let copy_len := Z.min (avail self) (Z.of_nat (length value)) in
        fill_loop fuel' (MkVmWriter (wr_cursor self + copy_len) (wr_end self)) value
          (mem_store (wr_cursor self) (take (Z.to_nat copy_len) value) mem)
      else (self, mem)
  end.

Definition fill (self : VmWriter) (value : list Z) : stM memory Error VmWriter := fun mem =>
  let n := Z.of_nat (length value) in
  if (negb (n =? 0)) && (0 <? avail self / n) && (avail self mod n =? 0) then
    let r := fill_loop (Z.to_nat (avail self)) self value mem in (Ok r.1, r.2)
  else (Panic, mem).

(** * [VmFrame] (frame.rs) *)

(** [VmFrameFlags::NEED_DEALLOC], the only declared flag. *)
Definition NEED_DEALLOC : Z := Z.shiftl 1 63.

(** A handle is the [frame_index] word: the frame number with flag bits.  The
    count of the [Arc] around it is the subject of the last section. *)
Notation VmFrame := Z (only parsing).

Definition frame_new {E} (paddr flags : Z) : outcome E VmFrame :=
  let? _ := oassert (paddr mod PAGE_SIZE =? 0) in
  Ok (Z.lor (paddr / PAGE_SIZE) flags).

Definition frame_index (self : VmFrame) : Z := Z.ldiff self NEED_DEALLOC.
Notation need_dealloc self := (negb (Z.land self NEED_DEALLOC =? 0)) (only parsing).

Definition start_paddr {E} (self : VmFrame) : outcome E Z := umul (frame_index self) PAGE_SIZE.

(** [as_ptr] and [as_mut_ptr] *)
Notation as_ptr self := (let? pa := start_paddr self in paddr_to_vaddr pa) (only parsing).

(** [copy_from_frame]; two handles of one [Arc] hold the same word. *)
Definition copy_from_frame (self src : VmFrame) : stM memory Error unit := fun mem =>
  if self =? src then (Ok tt, mem)
  else (let! from := slift (as_ptr src) in
        let! to := slift (as_ptr self) in
        let! mem := sget in
        sput (mem_copy from to PAGE_SIZE mem)) mem.

Definition frame_reader {E} (self : VmFrame) : outcome E VmReader :=
  let? p := as_ptr self in Ok (reader_from_raw_parts p PAGE_SIZE).
Definition frame_writer {E} (self : VmFrame) : outcome E VmWriter :=
  let? p := as_ptr self in Ok (writer_from_raw_parts_mut p PAGE_SIZE).

(** A [VmReader::read] or [VmWriter::write] as a step on memory. *)
Definition run_transfer (t : memory -> transfer) : stM memory Error transfer := fun mem =>
  let r := t mem in (Ok r, tr_mem r).

(** * [VmFrameVec] (frame.rs) *)

Notation VmFrameVec := (list VmFrame)%type (only parsing).

Notation fv_push self new_frame := (self ++ [new_frame]) (only parsing).
(** [append]: both vectors afterwards. *)
Notation fv_len self := (Z.of_nat (length self)) (only parsing).
Definition fv_nbytes {E} (self : VmFrameVec) : outcome E Z := umul (fv_len self) PAGE_SIZE.
Notation from_one_frame frame := ([frame]) (only parsing).

(** The loops of [read_bytes] and [write_bytes] over the remaining frames. *)
Fixpoint fv_read_loop (frames : list VmFrame) (start : Z) (buf_writer : VmWriter)
    : stM memory Error unit :=
  match frames with
  | [] => sret tt
  | frame :: frames' =>
      let! r := slift (frame_reader frame) in
      let! r := slift (reader_skip r start) in
      let! t := run_transfer (vm_read r buf_writer) in
      if tr_len t =? 0 then sret tt else fv_read_loop frames' 0 (tr_writer t)
  end.

Fixpoint fv_write_loop (frames : list VmFrame) (start : Z) (buf_reader : VmReader)
    : stM memory Error unit :=
  match frames with
  | [] => sret tt
  | frame :: frames' =>
      let! w := slift (frame_writer frame) in
      let! w := slift (writer_skip w start) in
      let! t := run_transfer (vm_write w buf_reader) in
      if tr_len t =? 0 then sret tt else fv_write_loop frames' 0 (tr_reader t)
  end.

(** [impl VmIo for VmFrameVec] *)
Definition fv_read_bytes (self : VmFrameVec) (offset : Z) (buf : slice) : stM memory Error unit :=
  let! total := slift (uadd (sl_len buf) offset) in
  let! nbytes := slift (fv_nbytes self) in
  if nbytes <? total then serr InvalidArgs
  else fv_read_loop (drop (Z.to_nat (offset / PAGE_SIZE)) self) (offset mod PAGE_SIZE)
         (writer_of_slice buf).

Definition fv_write_bytes (self : VmFrameVec) (offset : Z) (buf : slice) : stM memory Error unit :=
  let! total := slift (uadd (sl_len buf) offset) in
  let! nbytes := slift (fv_nbytes self) in
  if nbytes <? total then serr InvalidArgs
  else fv_write_loop (drop (Z.to_nat (offset / PAGE_SIZE)) self) (offset mod PAGE_SIZE)
         (reader_of_slice buf).

(** * Allocation (frame_allocator.rs and options.rs) *)

Section Alloc.
(** The [FrameAllocator] of the buddy_system_allocator crate: [alloc n] gives
    the number of the first of [n] contiguous frames, [dealloc i n] takes back
    the [n] frames from [i]. *)
Context {FA : Type} (fa_alloc : Z -> FA -> option Z * FA) (fa_dealloc : Z -> Z -> FA -> FA).

Record VmAllocOptions : Type := MkVmAllocOptions {
  ao_nframes : Z;
  ao_is_contiguous : bool;
  ao_uninit : bool;
  ao_need_dealloc : bool;
}.

Definition ao_new (nframes : Z) : VmAllocOptions := MkVmAllocOptions nframes false false true.

(** [VmAllocOptions::flags] *)
Definition ao_flags (self : VmAllocOptions) : Z :=
  if ao_need_dealloc self then NEED_DEALLOC else 0.

Definition alloc_st : Type := memory * FA.

(** An allocator call, and a step on memory, lifted to both. *)
Definition fa_call (n : Z) : stM alloc_st Error (option Z) := fun s =>
  let r := fa_alloc n s.2 in (Ok r.1, (s.1, r.2)).
Definition on_mem {A} (m : stM memory Error A) : stM alloc_st Error A := fun s =>
  let r := m s.1 in (r.1, (r.2, s.2)).

Fixpoint frames_from (n : nat) (start i flags : Z) : outcome Error (list VmFrame) :=
  match n with
  | O => Ok []
  | S n' =>
      let? idx := uadd start i in
      let? pa := umul idx PAGE_SIZE in
      let? f := frame_new pa (Z.lor flags NEED_DEALLOC) in
      let? l := frames_from n' start (i + 1) flags in
      Ok (f :: l)
  end.

(** [frame_allocator::alloc], [alloc_single] and [alloc_contiguous] *)
Definition fa_frames (nframes flags : Z) : stM alloc_st Error (option VmFrameVec) :=
  let! r := fa_call nframes in
  match r with
  | None => sret None
  | Some start =>
      let! l := slift (frames_from (Z.to_nat nframes) start 0 flags) in sret (Some l)
  end.

Definition fa_single (flags : Z) : stM alloc_st Error (option VmFrame) :=
  let! r := fa_call 1 in
  match r with
  | None => sret None
  | Some idx =>
      let! pa := slift (umul idx PAGE_SIZE) in
      let! f := slift (frame_new pa (Z.lor flags NEED_DEALLOC)) in
      sret (Some f)
  end.

Definition ok_or {S A} (e : Error) (o : option A) : stM S Error A :=
  match o with Some a => sret a | None => serr e end.

(** [frame.writer().fill(0)], with the [i32] that the literal [0] is. *)
Definition zero_fill (w : outcome Error VmWriter) : stM alloc_st Error unit :=
  on_mem (let! w := slift w in let! _ := fill w [0; 0; 0; 0] in sret tt).

(** Dropping the only handle of a frame ([impl Drop for VmFrame]). *)
Definition drop_last_handle (fa : FA) (f : VmFrame) : FA :=
  if need_dealloc f then fa_dealloc (frame_index f) 1 fa else fa.

(** The allocation loop of [alloc]; an error return drops [frame_list]. *)
Fixpoint alloc_each (n : nat) (flags : Z) (frame_list : VmFrameVec)
    : stM alloc_st Error VmFrameVec :=
  match n with
  | O => sret frame_list
  | S n' =>
      let! o := fa_single flags in
      match o with
      | Some f => alloc_each n' flags (frame_list ++ [f])
      | None =>
          let! s := sget in
          let! _ := sput (s.1, foldl drop_last_handle s.2 frame_list) in
          serr NoMemory
      end
  end.

(** [VmAllocOptions::alloc] *)
Definition ao_alloc (self : VmAllocOptions) : stM alloc_st Error VmFrameVec :=
  let! frames :=
    (if ao_is_contiguous self then
       let! o := fa_frames (ao_nframes self) (ao_flags self) in ok_or NoMemory o
     else alloc_each (Z.to_nat (ao_nframes self)) (ao_flags self) []) in
  let! _ := (if ao_uninit self then sret tt
             else sfor frames (fun f => zero_fill (frame_writer f))) in
  sret frames.

(** [VmAllocOptions::alloc_single] *)
Definition ao_alloc_single (self : VmAllocOptions) : stM alloc_st Error VmFrame :=
  if negb (ao_nframes self =? 1) then serr InvalidArgs
  else
    let! o := fa_single (ao_flags self) in
    let! frame := ok_or NoMemory o in
    let! _ := (if ao_uninit self then sret tt else zero_fill (frame_writer frame)) in
    sret frame.

(** [VmAllocOptions::alloc_contiguous] *)

End Alloc.

(** * Dropping handles ([impl Clone for VmFrame], [impl Drop for VmFrame])

    The handles of one frame share an [Arc].  [VmFrame::drop] reads the strong
    count and deallocates when it is 1; the [Arc] field is dropped after it,
    which decrements the count.  Handles dropped by different threads
    interleave at that point. *)

Inductive handle : Type := Live | Dropping | Dropped.

#[export] Instance handle_eq_dec : EqDecision handle.
Proof. solve_decision. Defined.

Record arc_st : Type := MkArc {
  handles : list handle;
  strong_count : nat;
  deallocs : nat;       (* calls of [frame_allocator::dealloc_single] *)
}.

(** The body of [VmFrame::drop] for handle [i]. *)
Definition drop_body (frame : VmFrame) (i : nat) (s : arc_st) : arc_st :=
  MkArc (<[i := Dropping]> (handles s)) (strong_count s)
    (if need_dealloc frame && bool_decide (strong_count s = 1%nat)
     then S (deallocs s) else deallocs s).

(** The drop of the [Arc] field that follows. *)
Definition drop_arc (i : nat) (s : arc_st) : arc_st :=
  MkArc (<[i := Dropped]> (handles s)) (strong_count s - 1) (deallocs s).

Definition frame_clone (s : arc_st) : arc_st :=
  MkArc (handles s ++ [Live]) (S (strong_count s)) (deallocs s).

Inductive arc_step (frame : VmFrame) : arc_st -> arc_st -> Prop :=
  | step_clone i s : handles s !! i = Some Live -> arc_step frame s (frame_clone s)
  | step_body i s : handles s !! i = Some Live -> arc_step frame s (drop_body frame i s)
  | step_arc i s : handles s !! i = Some Dropping -> arc_step frame s (drop_arc i s).

(** A frame just allocated has one handle. *)
Definition arc_init : arc_st := MkArc [Live] 1 0.
