(* ===== verification/FrameFacts.v ===== *)
(** Lemmas on byte memory, frame vectors, zero-filled allocation and the handle
    count of a frame, and the theorems on [Frame.v]. *)

From S2P Require Import Prelude Frame.

(** * Byte memory *)

Lemma byte_at_insert p b mem a :
  byte_at (<[p := b]> mem) a = if decide (a = p) then b else byte_at mem a.
Proof.
  unfold byte_at. case_decide as Ha; [subst; by rewrite lookup_insert_eq|].
  by rewrite lookup_insert_ne.
Qed.

Lemma byte_at_store bs p mem a :
  byte_at (mem_store p bs mem) a =
  if decide (p <= a < p + Z.of_nat (length bs)) then bs !!! Z.to_nat (a - p) else byte_at mem a.
Proof.
  revert p. induction bs as [|b bs IH]; intros p; simpl.
  - rewrite decide_False by lia. done.
  - rewrite byte_at_insert, IH. repeat case_decide; try lia; try done.
    + subst. by rewrite Z.sub_diag.
    + replace (Z.to_nat (a - p)) with (S (Z.to_nat (a - (p + 1)))) by lia. done.
Qed.

Lemma length_mem_bytes mem p n : 0 <= n -> length (mem_bytes mem p n) = Z.to_nat n.
Proof. intros. unfold mem_bytes. by rewrite length_fmap, length_seqZ. Qed.

Lemma mem_bytes_lookup mem p n (i : nat) :
  Z.of_nat i < n -> mem_bytes mem p n !! i = Some (byte_at mem (p + Z.of_nat i)).
Proof.
  intros Hi. unfold mem_bytes. rewrite list_lookup_fmap, lookup_seqZ_lt by lia. done.
Qed.

Lemma byte_at_copy src dst n mem a :
  0 <= n ->
  byte_at (mem_copy src dst n mem) a =
  if decide (dst <= a < dst + n) then byte_at mem (src + (a - dst)) else byte_at mem a.
Proof.
  intros Hn. unfold mem_copy. rewrite byte_at_store, length_mem_bytes, Z2Nat.id by done.
  case_decide; [|done]. apply list_lookup_total_correct.
  rewrite mem_bytes_lookup by lia. f_equal. f_equal. lia.
Qed.

Lemma mem_bytes_ext mem mem' p p' n :
  (forall k, 0 <= k < n -> byte_at mem (p + k) = byte_at mem' (p' + k)) ->
  mem_bytes mem p n = mem_bytes mem' p' n.
Proof.
  intros Heq. destruct (decide (0 <= n)) as [Hn|Hn].
  - apply list_eq. intros i. destruct (decide (Z.of_nat i < n)).
    + rewrite !mem_bytes_lookup by done. f_equal. apply Heq. lia.
    + rewrite !lookup_ge_None_2; [done|rewrite length_mem_bytes; lia..].
  - unfold mem_bytes. rewrite !seqZ_nil by lia. done.
Qed.

(** * The bytes of a frame vector *)

(** A frame number whose direct-mapped address is representable. *)
Definition frame_ok (f : VmFrame) : Prop := 0 <= frame_index f < 127 * 2 ^ 28.

(** The address of a frame's first byte. *)
Definition frame_ptr (f : VmFrame) : Z := frame_index f * PAGE_SIZE + PHYS_MEM_BASE_VADDR.

Lemma as_ptr_ok E f : frame_ok f -> (as_ptr f : outcome E Z) = Ok (frame_ptr f).
Proof.
  intros [H0 H1]. unfold start_paddr, frame_ptr, PAGE_SIZE.
  rewrite umul_ok by (unfold usize_max; lia). simpl.
  by rewrite uadd_ok by (unfold usize_max; lia).
Qed.

(** [sep p n frames]: the [n] bytes from [p] lie in no frame of the list. *)
Definition sep (p n : Z) (frames : list VmFrame) : Prop :=
  forall f a, f ∈ frames -> p <= a < p + n -> ~ (frame_ptr f <= a < frame_ptr f + PAGE_SIZE).

Definition frames_ok (frames : list VmFrame) : Prop :=
  Forall frame_ok frames /\ NoDup (frame_index <$> frames).

(** The address of byte [o] of a frame vector. *)
Definition vec_addr (frames : list VmFrame) (o : Z) : Z :=
  frame_ptr (frames !!! Z.to_nat (o / PAGE_SIZE)) + o mod PAGE_SIZE.

Lemma vec_addr_head f frames o : 0 <= o < PAGE_SIZE -> vec_addr (f :: frames) o = frame_ptr f + o.
Proof. intros. unfold vec_addr. by rewrite Z.div_small, Z.mod_small. Qed.

Lemma vec_addr_tail f frames o :
  PAGE_SIZE <= o -> vec_addr (f :: frames) o = vec_addr frames (o - PAGE_SIZE).
Proof.
  intros Ho. unfold vec_addr, PAGE_SIZE in *.
  assert (Hd : o / 4096 = (o - 4096) / 4096 + 1)
    by (rewrite <- Z.div_add by lia; f_equal; lia).
  assert (0 <= (o - 4096) / 4096) by (apply Z.div_pos; lia).
  rewrite Hd, Z2Nat.inj_add, Nat.add_comm by lia. simpl. f_equal.
  rewrite <- (Z.mod_add (o - 4096) 1) by lia. f_equal. lia.
Qed.

Lemma vec_addr_in frames o :
  0 <= o < PAGE_SIZE * Z.of_nat (length frames) ->
  exists f, f ∈ frames /\ frame_ptr f <= vec_addr frames o < frame_ptr f + PAGE_SIZE.
Proof.
  intros Ho. unfold PAGE_SIZE in *.
  assert (Hlt : (Z.to_nat (o / 4096) < length frames)%nat).
  { assert (o / 4096 < Z.of_nat (length frames)) by (apply Z.div_lt_upper_bound; lia).
    assert (0 <= o / 4096) by (apply Z.div_pos; lia). lia. }
  exists (frames !!! Z.to_nat (o / 4096)). split.
  - apply list_elem_of_lookup_2 with (Z.to_nat (o / 4096)). by apply list_lookup_lookup_total_lt.
  - unfold vec_addr, PAGE_SIZE. pose proof (Z.mod_pos_bound o 4096 ltac:(lia)). lia.
Qed.

(** Distinct frames share no byte. *)
Lemma frame_disjoint f g a :
  frame_ptr f <= a < frame_ptr f + PAGE_SIZE -> frame_ptr g <= a < frame_ptr g + PAGE_SIZE ->
  frame_index f = frame_index g.
Proof. unfold frame_ptr, PAGE_SIZE. lia. Qed.

Lemma vec_addr_not_head f frames o :
  frames_ok (f :: frames) -> 0 <= o < PAGE_SIZE * Z.of_nat (length frames) ->
  ~ (frame_ptr f <= vec_addr frames o < frame_ptr f + PAGE_SIZE).
Proof.
  intros [_ Hnd] Ho Hin. destruct (vec_addr_in frames o Ho) as (g & Hg & Hin').
  pose proof (frame_disjoint _ _ _ Hin Hin') as Heq.
  apply NoDup_cons in Hnd as [Hnot _]. apply Hnot. rewrite Heq. by apply list_elem_of_fmap_2.
Qed.

Lemma frames_ok_tail f frames : frames_ok (f :: frames) -> frame_ok f /\ frames_ok frames.
Proof.
  intros [Hall Hnd]. apply Forall_cons in Hall as [Hf Hall].
  apply NoDup_cons in Hnd as [_ Hnd]. done.
Qed.

(** * The I/O loops *)

(** One turn of the write loop on a frame with [avail] bytes after [start]. *)
Lemma fv_write_turn f frames start c e mem :
  frame_ok f -> 0 <= start < PAGE_SIZE -> c <= e ->
  fv_write_loop (f :: frames) start (MkVmReader c e) mem =
  if decide (c = e) then (Ok tt, mem)
  else let n := Z.min (PAGE_SIZE - start) (e - c) in
       fv_write_loop frames 0 (MkVmReader (c + n) e)
         (mem_copy c (frame_ptr f + start) n mem).
Proof.
  intros Hf Hs Hce. cbn [fv_write_loop].
  unfold frame_writer, sbind, slift, run_transfer. rewrite as_ptr_ok by done.
  cbn [obind]. unfold writer_skip, avail, writer_from_raw_parts_mut. cbn [wr_end wr_cursor].
  rewrite (proj2 (Z.leb_le _ _)) by lia. cbn [oassert obind].
  unfold vm_write, avail, remain. cbn [wr_end wr_cursor rd_end rd_cursor].
  replace (frame_ptr f + PAGE_SIZE - (frame_ptr f + start)) with (PAGE_SIZE - start) by lia.
  case_decide; [subst; rewrite Z.sub_diag, Z.min_r by lia; done|].
  destruct (Z.eqb_spec (Z.min (PAGE_SIZE - start) (e - c)) 0) as [|Hn]; [lia|]. cbn.
  by rewrite (proj2 (Z.eqb_neq _ _) Hn).
Qed.

Lemma fv_read_turn f frames start c e mem :
  frame_ok f -> 0 <= start < PAGE_SIZE -> c <= e ->
  fv_read_loop (f :: frames) start (MkVmWriter c e) mem =
  if decide (c = e) then (Ok tt, mem)
  else let n := Z.min (PAGE_SIZE - start) (e - c) in
       fv_read_loop frames 0 (MkVmWriter (c + n) e)
         (mem_copy (frame_ptr f + start) c n mem).
Proof.
  intros Hf Hs Hce. cbn [fv_read_loop].
  unfold frame_reader, sbind, slift, run_transfer. rewrite as_ptr_ok by done.
  cbn [obind]. unfold reader_skip, remain, reader_from_raw_parts. cbn [rd_end rd_cursor].
  rewrite (proj2 (Z.leb_le _ _)) by lia. cbn [oassert obind].
  unfold vm_read, avail, remain. cbn [wr_end wr_cursor rd_end rd_cursor].
  replace (frame_ptr f + PAGE_SIZE - (frame_ptr f + start)) with (PAGE_SIZE - start) by lia.
  case_decide; [subst; rewrite Z.sub_diag, Z.min_r by lia; done|].
  destruct (Z.eqb_spec (Z.min (PAGE_SIZE - start) (e - c)) 0) as [|Hn]; [lia|]. cbn.
  by rewrite (proj2 (Z.eqb_neq _ _) Hn).
Qed.

(** What a completed write leaves in memory: the [n] bytes from [c] at the
    vector's bytes from [start], and nothing else changed. *)
Definition written (frames : list VmFrame) (start c n : Z) (mem mem' : memory) : Prop :=
  (forall k, 0 <= k < n -> byte_at mem' (vec_addr frames (start + k)) = byte_at mem (c + k)) /\
  (forall a, (forall k, 0 <= k < n -> a <> vec_addr frames (start + k)) ->
     byte_at mem' a = byte_at mem a).

(** What a completed read leaves in memory. *)
Definition fetched (frames : list VmFrame) (start c n : Z) (mem mem' : memory) : Prop :=
  (forall k, 0 <= k < n -> byte_at mem' (c + k) = byte_at mem (vec_addr frames (start + k))) /\
  (forall a, ~ (c <= a < c + n) -> byte_at mem' a = byte_at mem a).

(** A copy into the first frame followed by a write to the others. *)
Lemma written_cons f frames start c n mem mem' :
  frames_ok (f :: frames) -> 0 <= start < PAGE_SIZE -> 0 < n ->
  start + n <= PAGE_SIZE * Z.of_nat (length (f :: frames)) -> sep c n (f :: frames) ->
  let m := Z.min (PAGE_SIZE - start) n in
  written frames 0 (c + m) (n - m) (mem_copy c (frame_ptr f + start) m mem) mem' ->
  written (f :: frames) start c n mem mem'.
Proof.
  intros Hok Hs Hn Hlen Hsep m [Hin Hout]. cbn [length] in Hlen.
  assert (Htail : forall k, 0 <= k < n - m ->
    ~ (frame_ptr f <= vec_addr frames (0 + k) < frame_ptr f + PAGE_SIZE)).
  { intros k Hk. apply vec_addr_not_head; [done|]. unfold PAGE_SIZE in *. lia. }
  assert (Haddr : forall k, m <= k < n -> vec_addr (f :: frames) (start + k) = vec_addr frames (0 + (k - m))).
  { intros k Hk. rewrite vec_addr_tail by lia. f_equal. lia. }
  assert (Hhead : forall k, 0 <= k < m -> vec_addr (f :: frames) (start + k) = frame_ptr f + start + k).
  { intros k Hk. rewrite vec_addr_head by lia. lia. }
  split.
  - intros k Hk. destruct (decide (k < m)).
    + rewrite Hhead by lia. rewrite Hout.
      * rewrite byte_at_copy, decide_True by lia. f_equal. lia.
      * intros j Hj Heq. apply (Htail j Hj). lia.
    + rewrite Haddr, Hin by lia. rewrite byte_at_copy by lia.
      rewrite decide_False; [f_equal; lia|].
      pose proof (Hsep f (c + k) ltac:(left) ltac:(lia)). lia.
  - intros a Ha. rewrite Hout.
    + rewrite byte_at_copy by lia. rewrite decide_False; [done|]. intros Hr.
      apply (Ha (a - (frame_ptr f + start)) ltac:(lia)). rewrite Hhead by lia. lia.
    + intros k Hk. rewrite <- (Z.add_simpl_r k m), <- Haddr by lia. apply Ha. lia.
Qed.

Lemma sep_sub p n p' n' f frames :
  p <= p' -> p' + n' <= p + n -> sep p n (f :: frames) -> sep p' n' frames.
Proof. intros Hp Hn Hsep g a Hg Ha. apply Hsep; [by right|lia]. Qed.

Lemma fv_write_loop_ok frames start c e mem :
  frames_ok frames -> 0 <= start < PAGE_SIZE -> c <= e ->
  start + (e - c) <= PAGE_SIZE * Z.of_nat (length frames) \/ c = e ->
  sep c (e - c) frames ->
  exists mem', fv_write_loop frames start (MkVmReader c e) mem = (Ok tt, mem') /\
    written frames start c (e - c) mem mem'.
Proof.
  revert start c mem. induction frames as [|f frames IH]; intros start c mem Hok Hs Hce Hlen Hsep.
  { exists mem. cbn in *. split; [done|]. split; [lia|done]. }
  destruct (frames_ok_tail _ _ Hok) as [Hf Hok'].
  rewrite fv_write_turn by done. case_decide as Heq.
  { exists mem. split; [done|]. split; [lia|done]. }
  cbn zeta. set (m := Z.min (PAGE_SIZE - start) (e - c)) in *.
  destruct (IH 0 (c + m) (mem_copy c (frame_ptr f + start) m mem)) as (mem' & Hrun & Hw).
  - done.
  - unfold PAGE_SIZE. lia.
  - lia.
  - cbn [length] in Hlen. lia.
  - apply (sep_sub c (e - c) _ _ f); [lia..|done].
  - exists mem'. split; [done|]. apply written_cons; [done|done|lia| |done|].
    + destruct Hlen; [done|lia].
    + fold m. by replace (e - c - m) with (e - (c + m)) by lia.
Qed.

Lemma fetched_cons f frames start c n mem mem' :
  0 <= start < PAGE_SIZE -> 0 < n ->
  start + n <= PAGE_SIZE * Z.of_nat (length (f :: frames)) -> sep c n (f :: frames) ->
  let m := Z.min (PAGE_SIZE - start) n in
  fetched frames 0 (c + m) (n - m) (mem_copy (frame_ptr f + start) c m mem) mem' ->
  fetched (f :: frames) start c n mem mem'.
Proof.
  intros Hs Hn Hlen Hsep m [Hin Hout]. cbn [length] in Hlen. split.
  - intros k Hk. destruct (decide (k < m)).
    + rewrite Hout, byte_at_copy, decide_True, vec_addr_head by lia. f_equal. lia.
    + replace (c + k) with (c + m + (k - m)) by lia.
      rewrite Hin, vec_addr_tail by lia.
      replace (start + k - PAGE_SIZE) with (0 + (k - m)) by lia.
      rewrite byte_at_copy by lia. rewrite decide_False; [done|]. intros Hr.
      destruct (vec_addr_in frames (0 + (k - m)) ltac:(lia)) as (g & Hg & Hgr).
      eapply (Hsep g _ ltac:(by right)); [|exact Hgr]. lia.
  - intros a Ha. rewrite Hout, byte_at_copy, decide_False by lia. done.
Qed.

Lemma fv_read_loop_ok frames start c e mem :
  frames_ok frames -> 0 <= start < PAGE_SIZE -> c <= e ->
  start + (e - c) <= PAGE_SIZE * Z.of_nat (length frames) \/ c = e ->
  sep c (e - c) frames ->
  exists mem', fv_read_loop frames start (MkVmWriter c e) mem = (Ok tt, mem') /\
    fetched frames start c (e - c) mem mem'.
Proof.
  revert start c mem. induction frames as [|f frames IH]; intros start c mem Hok Hs Hce Hlen Hsep.
  { exists mem. cbn in *. split; [done|]. split; [lia|done]. }
  destruct (frames_ok_tail _ _ Hok) as [Hf Hok'].
  rewrite fv_read_turn by done. case_decide as Heq.
  { exists mem. split; [done|]. split; [lia|done]. }
  cbn zeta. set (m := Z.min (PAGE_SIZE - start) (e - c)) in *.
  destruct (IH 0 (c + m) (mem_copy (frame_ptr f + start) c m mem)) as (mem' & Hrun & Hw).
  - done.
  - unfold PAGE_SIZE. lia.
  - lia.
  - cbn [length] in Hlen. lia.
  - apply (sep_sub c (e - c) _ _ f); [lia..|done].
  - exists mem'. split; [done|]. apply fetched_cons; [done|lia| |done|].
    + destruct Hlen; [done|lia].
    + fold m. by replace (e - c - m) with (e - (c + m)) by lia.
Qed.

(** * Reading and writing a vector at an offset *)

Lemma vec_addr_drop frames offset k :
  0 <= offset -> 0 <= k ->
  vec_addr (drop (Z.to_nat (offset / PAGE_SIZE)) frames) (offset mod PAGE_SIZE + k) =
  vec_addr frames (offset + k).
Proof.
  intros Ho Hk. unfold vec_addr, PAGE_SIZE.
  pose proof (Z.mod_pos_bound offset 4096 ltac:(lia)).
  assert (0 <= offset / 4096) by (apply Z.div_pos; lia).
  assert (Hsplit : offset + k = (offset mod 4096 + k) + offset / 4096 * 4096)
    by (rewrite (Z.div_mod offset 4096) at 1; lia).
  rewrite Hsplit, Z.div_add, Z.mod_add by lia.
  assert (0 <= (offset mod 4096 + k) / 4096) by (apply Z.div_pos; lia).
  rewrite (Z.add_comm _ (offset / 4096)), Z2Nat.inj_add by lia.
  by rewrite lookup_total_drop.
Qed.

Lemma frames_ok_drop n frames : frames_ok frames -> frames_ok (drop n frames).
Proof.
  intros [Hall Hnd]. split; [by apply Forall_drop|].
  rewrite fmap_drop. apply (NoDup_app (take n (frame_index <$> frames))).
  by rewrite take_drop.
Qed.

Lemma sep_drop p n i frames : sep p n frames -> sep p n (drop i frames).
Proof.
  intros Hsep f a Hf. apply Hsep. rewrite <- (take_drop i frames). apply elem_of_app. by right.
Qed.

(** The frames after the first [offset / PAGE_SIZE] hold the access. *)
Lemma drop_fits (frames : list VmFrame) offset n :
  0 <= offset -> 0 <= n -> n + offset <= PAGE_SIZE * Z.of_nat (length frames) ->
  offset mod PAGE_SIZE + n <=
    PAGE_SIZE * Z.of_nat (length (drop (Z.to_nat (offset / PAGE_SIZE)) frames)).
Proof.
  intros Ho Hn Hfit. rewrite length_drop. unfold PAGE_SIZE in *.
  assert (0 <= offset / 4096) by (apply Z.div_pos; lia).
  pose proof (Z.div_mod offset 4096 ltac:(lia)).
  pose proof (Z.mod_pos_bound offset 4096 ltac:(lia)). lia.
Qed.

Section VecIo.
Variables (frames : list VmFrame) (offset : Z) (buf : slice).
Hypothesis Hok : frames_ok frames.
Hypothesis Ho : 0 <= offset.
Hypothesis Hbuf : 0 <= sl_len buf.
Hypothesis Hsize : PAGE_SIZE * Z.of_nat (length frames) <= usize_max.

Lemma vec_io_guard E (k : stM memory Error unit) mem :
  sl_len buf + offset <= usize_max ->
  (let! total := slift (uadd (sl_len buf) offset) in
   let! nbytes := slift (fv_nbytes frames) in
   if nbytes <? total then serr E else k) mem =
  if decide (sl_len buf + offset <= PAGE_SIZE * Z.of_nat (length frames))
  then k mem else (Err E, mem).
Proof.
  intros Hmax. unfold sbind, slift, fv_nbytes.
  rewrite uadd_ok, umul_ok by lia. rewrite (Z.mul_comm _ PAGE_SIZE).
  case_decide; [rewrite (proj2 (Z.ltb_ge _ _)) by lia; done|].
  by rewrite (proj2 (Z.ltb_lt _ _)) by lia.
Qed.

Hypothesis Hfit : sl_len buf + offset <= PAGE_SIZE * Z.of_nat (length frames).
Hypothesis Hsep : sep (sl_ptr buf) (sl_len buf) frames.

Let mod_ok : 0 <= offset mod PAGE_SIZE < PAGE_SIZE.
Proof. apply Z.mod_pos_bound. done. Qed.

Lemma fv_write_bytes_ok mem :
  exists mem', fv_write_bytes frames offset buf mem = (Ok tt, mem') /\
    written frames offset (sl_ptr buf) (sl_len buf) mem mem'.
Proof.
  unfold fv_write_bytes. rewrite vec_io_guard, decide_True by lia.
  pose proof (drop_fits frames offset (sl_len buf) Ho Hbuf Hfit) as Hdf.
  destruct (fv_write_loop_ok (drop (Z.to_nat (offset / PAGE_SIZE)) frames)
    (offset mod PAGE_SIZE) (sl_ptr buf) (sl_ptr buf + sl_len buf) mem)
    as (mem' & Hrun & Hin & Hout);
    rewrite ?Z.add_simpl_l in *; [by apply frames_ok_drop|done|lia|by left|by apply sep_drop|].
  exists mem'. split; [done|]. split.
  - intros k Hk. rewrite <- vec_addr_drop by lia. by apply Hin.
  - intros a Ha. apply Hout. intros k Hk. rewrite vec_addr_drop by lia. by apply Ha.
Qed.

Lemma fv_read_bytes_ok mem :
  exists mem', fv_read_bytes frames offset buf mem = (Ok tt, mem') /\
    fetched frames offset (sl_ptr buf) (sl_len buf) mem mem'.
Proof.
  unfold fv_read_bytes. rewrite vec_io_guard, decide_True by lia.
  pose proof (drop_fits frames offset (sl_len buf) Ho Hbuf Hfit) as Hdf.
  destruct (fv_read_loop_ok (drop (Z.to_nat (offset / PAGE_SIZE)) frames)
    (offset mod PAGE_SIZE) (sl_ptr buf) (sl_ptr buf + sl_len buf) mem)
    as (mem' & Hrun & Hin & Hout);
    rewrite ?Z.add_simpl_l in *; [by apply frames_ok_drop|done|lia|by left|by apply sep_drop|].
  exists mem'. split; [done|]. split; [|done].
  intros k Hk. rewrite <- vec_addr_drop by lia. by apply Hin.
Qed.

End VecIo.

(** C29: writing a buffer to a frame vector and reading it back from the same
    offset gives the same bytes, whatever page boundaries the access crosses;
    bytes of memory outside the written part of the vector and the destination
    buffer keep their value.  An access past the end of the vector is refused
    with [InvalidArgs] and changes nothing. *)
Theorem frame_vec_roundtrip (frames : list VmFrame) (offset : Z) (src dst : slice) (mem : memory) :
  frames_ok frames -> PAGE_SIZE * Z.of_nat (length frames) <= usize_max ->
  0 <= offset -> 0 <= sl_len src -> sl_len dst = sl_len src ->
  sl_len src + offset <= usize_max ->
  sep (sl_ptr src) (sl_len src) frames -> sep (sl_ptr dst) (sl_len dst) frames ->
  (PAGE_SIZE * Z.of_nat (length frames) < sl_len src + offset /\
   fv_write_bytes frames offset src mem = (Err InvalidArgs, mem) /\
   fv_read_bytes frames offset dst mem = (Err InvalidArgs, mem)) \/
  exists mem1 mem2,
    fv_write_bytes frames offset src mem = (Ok tt, mem1) /\
    fv_read_bytes frames offset dst mem1 = (Ok tt, mem2) /\
    slice_bytes mem2 dst = slice_bytes mem src /\
    forall a, (forall k, 0 <= k < sl_len src -> a <> vec_addr frames (offset + k)) ->
      ~ (sl_ptr dst <= a < sl_ptr dst + sl_len dst) -> byte_at mem2 a = byte_at mem a.
Proof.
  intros Hok Hsize Ho Hlen Heq Hmax Hs Hd.
  destruct (decide (sl_len src + offset <= PAGE_SIZE * Z.of_nat (length frames))) as [Hfit|Hno].
  - right. destruct (fv_write_bytes_ok frames offset src Hok Ho Hlen Hsize Hfit Hs mem)
      as (mem1 & Hw & Hin1 & Hout1).
    destruct (fv_read_bytes_ok frames offset dst Hok Ho ltac:(lia) Hsize ltac:(lia) Hd mem1)
      as (mem2 & Hr & Hin2 & Hout2).
    exists mem1, mem2. split_and!; [done|done| |].
    + unfold slice_bytes. rewrite Heq. apply mem_bytes_ext. intros k Hk.
      rewrite Hin2 by lia. by apply Hin1.
    + intros a Ha Ha'. rewrite Hout2 by done. by apply Hout1.
  - left. split; [lia|]. unfold fv_write_bytes, fv_read_bytes.
    rewrite !vec_io_guard, !decide_False by lia. done.
Qed.

Lemma frame_vec_roundtrip_witness :
  exists mem1 mem2,
    fv_write_bytes [5; 3] 4094 (Slice 0 4) (mem_store 0 [11; 22; 33; 44] ∅) = (Ok tt, mem1) /\
    fv_read_bytes [5; 3] 4094 (Slice 100 4) mem1 = (Ok tt, mem2) /\
    slice_bytes mem2 (Slice 100 4) = [11; 22; 33; 44].
Proof.
  assert (Hok : frames_ok [5; 3]).
  { split; [repeat constructor; vm_compute; done|]. apply (bool_decide_unpack _). vm_compute. done. }
  assert (Hsep : forall p, 0 <= p <= 100 -> sep p 4 [5; 3]).
  { intros p Hp f a Hf Ha. apply elem_of_cons in Hf as [->|Hf%list_elem_of_singleton]; subst;
      unfold frame_ptr, frame_index, NEED_DEALLOC, PAGE_SIZE; simpl Z.ldiff; lia. }
  destruct (frame_vec_roundtrip [5; 3] 4094 (Slice 0 4) (Slice 100 4)
    (mem_store 0 [11; 22; 33; 44] ∅) Hok ltac:(done) ltac:(done) ltac:(done) eq_refl
    ltac:(done) (Hsep 0 ltac:(lia)) (Hsep 100 ltac:(lia)))
    as [[Hlt _]|(mem1 & mem2 & Hw & Hr & Hb & _)]; [done|].
  exists mem1, mem2. split_and!; [exact Hw|exact Hr|]. rewrite Hb. vm_compute. reflexivity.
Defined.

(** * Zero-filled allocation *)

Lemma fill_loop_zero fuel w value mem :
  value <> [] -> Forall (fun b => b = 0) value -> (Z.to_nat (avail w) <= fuel)%nat -> 0 <= avail w ->
  exists mem', fill_loop fuel w value mem = (MkVmWriter (wr_end w) (wr_end w), mem') /\
    forall a, byte_at mem' a =
      if decide (wr_cursor w <= a < wr_end w) then 0 else byte_at mem a.
Proof.
  intros Hne Hz. revert w mem. induction fuel as [|fuel IH]; intros [c e] mem Hfuel Hav;
    unfold avail in *; cbn [wr_cursor wr_end] in *; cbn [fill_loop].
  - assert (c = e) as -> by lia. exists mem. split; [done|]. intros a. by rewrite decide_False by lia.
  - unfold avail. cbn [wr_cursor wr_end]. destruct (Z.ltb_spec 0 (e - c)).
    + set (n := Z.min (e - c) (Z.of_nat (length value))).
      assert (0 < Z.of_nat (length value)) by (destruct value; simpl; [done|lia]).
      destruct (IH (MkVmWriter (c + n) e) (mem_store c (take (Z.to_nat n) value) mem))
        as (mem' & -> & Hb); cbn [wr_cursor wr_end] in *; [lia..|].
      exists mem'. split; [done|]. intros a. rewrite Hb, byte_at_store, length_take.
      repeat case_decide; try lia; try done.
      apply (Forall_lookup_total_1 (fun b => b = 0)); [by apply Forall_take|].
      rewrite length_take. lia.
    + assert (c = e) as -> by lia. exists mem. split; [done|].
      intros a. by rewrite decide_False by lia.
Qed.

Lemma frame_index_lor i : 0 <= i < 2 ^ 63 -> frame_index (Z.lor i NEED_DEALLOC) = i.
Proof.
  intros [H0 H1]. unfold frame_index, NEED_DEALLOC. apply Z.bits_inj'. intros n Hn.
  rewrite Z.ldiff_spec, Z.lor_spec, Z.shiftl_1_l, Z.pow2_bits_eqb by lia.
  destruct (Z.eqb_spec 63 n) as [<-|]; [|by rewrite orb_false_r, andb_true_r].
  rewrite andb_false_r. symmetry. destruct (decide (i = 0)) as [->|]; [apply Z.bits_0|].
  apply Z.bits_above_log2; [done|]. apply Z.log2_lt_pow2; lia.
Qed.

Lemma need_dealloc_lor i : need_dealloc (Z.lor i NEED_DEALLOC) = true.
Proof.
  rewrite Z.land_lor_distr_l, Z.land_diag.
  destruct (Z.eqb_spec (Z.lor (Z.land i NEED_DEALLOC) NEED_DEALLOC) 0) as [H|]; [|done].
  apply Z.lor_eq_0_iff in H as [_ H]. done.
Qed.

Lemma zero_fill_ok {FA} f mem (fa : FA) :
  frame_ok f ->
  exists mem', zero_fill (frame_writer f) (mem, fa) = (Ok tt, (mem', fa)) /\
    forall a, byte_at mem' a =
      if decide (frame_ptr f <= a < frame_ptr f + PAGE_SIZE) then 0 else byte_at mem a.
Proof.
  intros Hf. unfold zero_fill, on_mem, frame_writer. rewrite as_ptr_ok by done.
  cbn [obind]. unfold sbind, slift, fill, writer_from_raw_parts_mut.
  assert (Hav : avail (MkVmWriter (frame_ptr f) (frame_ptr f + PAGE_SIZE)) = PAGE_SIZE)
    by (unfold avail; simpl; lia).
  rewrite Hav. destruct (fill_loop_zero (Z.to_nat PAGE_SIZE)
    (MkVmWriter (frame_ptr f) (frame_ptr f + PAGE_SIZE)) [0; 0; 0; 0] mem)
    as (mem' & Hrun & Hb); [done|by repeat constructor|by rewrite Hav|by rewrite Hav|].
  exists mem'. split; [|exact Hb]. cbn [fst snd].
  change (negb _ && _ && _) with true. cbn [fst snd]. by rewrite Hrun.
Qed.

Lemma fa_single_ok {FA} (fa_alloc : Z -> FA -> option Z * FA) opts mem fa :
  (forall idx, (fa_alloc 1 fa).1 = Some idx -> 0 <= idx < 127 * 2 ^ 28) ->
  fa_single fa_alloc (ao_flags opts) (mem, fa) =
  (Ok ((fun idx => Z.lor idx NEED_DEALLOC) <$> (fa_alloc 1 fa).1), (mem, (fa_alloc 1 fa).2)).
Proof.
  intros Hidx. unfold fa_single, fa_call, sbind. cbn [fst snd].
  destruct (fa_alloc 1 fa) as [[idx|] fa'] eqn:Hfa; [|done]. cbn [fst snd] in *.
  specialize (Hidx idx eq_refl). unfold slift, frame_new, PAGE_SIZE.
  rewrite umul_ok by (unfold usize_max; lia). rewrite Z.mod_mul, Z.div_mul by lia. cbn.
  f_equal. f_equal. f_equal. f_equal. unfold ao_flags. by destruct (ao_need_dealloc opts).
Qed.

(** A frame from [VmAllocOptions::alloc_single] is the frame the allocator
    handed out; unless [uninit] is set its whole page reads as zero, and no
    byte outside the page changes.  The frame is marked for deallocation whatever
    the [need_dealloc] option says.  An exhausted allocator gives [NoMemory] and
    a request that is not for one frame [InvalidArgs]. *)
Lemma alloc_single_zeroed (FA : Type) (fa_alloc : Z -> FA -> option Z * FA)
    (opts : VmAllocOptions) (mem : memory) (fa : FA) :
  (forall idx, (fa_alloc 1 fa).1 = Some idx -> 0 <= idx < 127 * 2 ^ 28) ->
  if negb (ao_nframes opts =? 1) then
    ao_alloc_single fa_alloc opts (mem, fa) = (Err InvalidArgs, (mem, fa))
  else
    match fa_alloc 1 fa with
    | (None, fa') => ao_alloc_single fa_alloc opts (mem, fa) = (Err NoMemory, (mem, fa'))
    | (Some idx, fa') =>
        exists f mem', ao_alloc_single fa_alloc opts (mem, fa) = (Ok f, (mem', fa')) /\
          frame_index f = idx /\ need_dealloc f = true /\
          forall a, byte_at mem' a =
            if decide (frame_ptr f <= a < frame_ptr f + PAGE_SIZE /\ ao_uninit opts = false)
            then 0 else byte_at mem a
    end.
Proof.
  intros Hidx. unfold ao_alloc_single. destruct (negb (ao_nframes opts =? 1)); [done|].
  pose proof (fa_single_ok fa_alloc opts mem fa Hidx) as Hsingle. unfold sbind, sret.
  destruct (fa_alloc 1 fa) as [[idx|] fa'] eqn:Hfa; rewrite Hsingle; [|reflexivity].
  specialize (Hidx idx eq_refl). set (f := Z.lor idx NEED_DEALLOC).
  assert (Hi : frame_index f = idx) by (apply frame_index_lor; lia).
  cbn [fst snd fmap option_fmap option_map ok_or]. unfold sret. fold f.
  destruct (ao_uninit opts).
  - exists f, mem. split_and!; [done|done|apply need_dealloc_lor|].
    intros a. rewrite decide_False by naive_solver. done.
  - destruct (zero_fill_ok f mem fa') as (mem' & -> & Hb); [unfold frame_ok; lia|].
    exists f, mem'. split_and!; [done|done|apply need_dealloc_lor|]. intros a. rewrite Hb.
    apply decide_ext. naive_solver.
Qed.

(** * Dropping handles *)

(** How many handles are in a given phase. *)
Definition phase (h : handle) (l : list handle) : nat := length (filter (fun x => x = h) l).

Lemma phase_insert h l i x y :
  l !! i = Some x ->
  (phase h (<[i := y]> l) + (if decide (x = h) then 1 else 0) =
   phase h l + (if decide (y = h) then 1 else 0))%nat.
Proof.
  intros Hi. pose proof (lookup_lt_Some _ _ _ Hi) as Hlt.
  assert (phase h l = phase h (take i l ++ x :: drop (S i) l)) as ->
    by (by rewrite take_drop_middle).
  rewrite (insert_take_drop l i y Hlt). unfold phase. rewrite !filter_app, !filter_cons, !length_app.
  repeat case_decide; simpl; lia.
Qed.

Lemma phase_app h l x :
  phase h (l ++ [x]) = (phase h l + (if decide (x = h) then 1 else 0))%nat.
Proof.
  unfold phase. rewrite filter_app, length_app, filter_cons. by case_decide.
Qed.

Lemma phase_pos h l i : l !! i = Some h -> (1 <= phase h l)%nat.
Proof.
  intros Hi%list_elem_of_lookup_2. unfold phase.
  destruct (filter (fun x => x = h) l) eqn:Hf; [|simpl; lia].
  assert (h ∈ filter (fun x => x = h) l) as Hin by by apply list_elem_of_filter.
  rewrite Hf in Hin. by apply elem_of_nil in Hin.
Qed.

Definition arc_inv (s : arc_st) : Prop :=
  strong_count s = (phase Live (handles s) + phase Dropping (handles s))%nat /\
  (deallocs s = 0%nat \/
   deallocs s = 1%nat /\ phase Live (handles s) = 0%nat /\ (phase Dropping (handles s) <= 1)%nat).

Lemma arc_step_inv frame s s' : arc_step frame s s' -> arc_inv s -> arc_inv s'.
Proof.
  intros Hstep [Hc Hd]. destruct Hstep as [i s Hi|i s Hi|i s Hi]; unfold arc_inv; simpl;
    pose proof (phase_pos _ _ _ Hi).
  - rewrite !phase_app. simpl. lia.
  - pose proof (phase_insert Live _ _ _ Dropping Hi) as HL.
    pose proof (phase_insert Dropping _ _ _ Dropping Hi) as HD. simpl in HL, HD.
    case_bool_decide; destruct (need_dealloc frame); simpl; lia.
  - pose proof (phase_insert Live _ _ _ Dropped Hi) as HL.
    pose proof (phase_insert Dropping _ _ _ Dropped Hi) as HD. simpl in HL, HD. lia.
Qed.

Lemma arc_reach_inv frame s : rtc (arc_step frame) arc_init s -> arc_inv s.
Proof.
  intros Hr. apply (rtc_invariant _ _ _ _ (arc_step_inv frame) Hr). split; [done|by left].
Qed.

(** C30: under every interleaving of clones and drops of the handles of a frame,
    the frame is given back to the allocator at most once, and never while a
    handle is still in use. *)
Theorem frame_drop_safe (frame : VmFrame) (s : arc_st) :
  rtc (arc_step frame) arc_init s ->
  (deallocs s <= 1)%nat /\ (deallocs s = 1%nat -> Live ∉ handles s).
Proof.
  intros [_ Hd]%arc_reach_inv. split; [lia|]. intros H1 Hin.
  apply list_elem_of_lookup in Hin as [i Hi]. apply phase_pos in Hi. lia.
Qed.

Lemma frame_drop_safe_witness :
  let s := drop_body NEED_DEALLOC 0 arc_init in
  (deallocs s <= 1)%nat /\ (deallocs s = 1%nat -> Live ∉ handles s).
Proof.
  apply (frame_drop_safe NEED_DEALLOC). apply rtc_once. by constructor.
Defined.

(** Handles cloned and dropped one whole drop at a time. *)
Inductive seq_step (frame : VmFrame) : arc_st -> arc_st -> Prop :=
  | seq_clone i s : handles s !! i = Some Live -> seq_step frame s (frame_clone s)
  | seq_drop i s : handles s !! i = Some Live ->
      seq_step frame s (drop_arc i (drop_body frame i s)).

Definition seq_inv (s : arc_st) : Prop :=
  strong_count s = phase Live (handles s) /\ phase Dropping (handles s) = 0%nat /\
  deallocs s = if decide (phase Live (handles s) = 0%nat) then 1%nat else 0%nat.

Lemma seq_step_inv frame s s' :
  need_dealloc frame = true -> seq_step frame s s' -> seq_inv s -> seq_inv s'.
Proof.
  intros Hn Hstep (Hc & Hd & He). destruct Hstep as [i s Hi|i s Hi]; unfold seq_inv; simpl;
    pose proof (phase_pos _ _ _ Hi).
  - rewrite !phase_app. simpl. rewrite decide_False in He by lia.
    split_and!; [lia|lia|]. by rewrite decide_False by lia.
  - rewrite list_insert_insert_eq, Hn.
    pose proof (phase_insert Live _ _ _ Dropped Hi) as HL.
    pose proof (phase_insert Dropping _ _ _ Dropped Hi) as HD. simpl in HL, HD.
    rewrite decide_False in He by lia. split_and!; [lia|lia|].
    case_bool_decide; case_decide; simpl; lia.
Qed.

(** When the handles of a frame are dropped one after the other, the frame
    goes back to the allocator exactly when the last one is dropped; but two
    concurrent drops can both read a count of two, and then the frame is never
    given back although no handle is left. *)
Lemma frame_drop_leak (frame : VmFrame) :
  need_dealloc frame = true ->
  (forall s, rtc (seq_step frame) arc_init s ->
     deallocs s = if decide (Live ∈ handles s) then 0%nat else 1%nat) /\
  (exists s, rtc (arc_step frame) arc_init s /\
     Forall (fun h => h = Dropped) (handles s) /\ strong_count s = 0%nat /\ deallocs s = 0%nat).
Proof.
  intros Hn. split.
  - intros s Hr. assert (seq_inv s) as (_ & _ & ->).
    { apply (rtc_invariant _ _ _ _ (fun a b => seq_step_inv frame a b Hn) Hr). done. }
    destruct (decide (Live ∈ handles s)) as [Hin|Hin].
    + apply list_elem_of_lookup in Hin as [i Hi]. apply phase_pos in Hi.
      by rewrite decide_False by lia.
    + rewrite decide_True; [done|]. unfold phase. rewrite filter_none; [done|].
      intros x Hx ->. done.
  - exists (drop_arc 1 (drop_arc 0 (drop_body frame 1 (drop_body frame 0 (frame_clone arc_init))))).
    split_and!; [|by simpl; repeat constructor|done|by simpl; rewrite !andb_false_r].
    eapply rtc_l; [by apply (step_clone _ 0)|]. eapply rtc_l; [by apply (step_body _ 0)|].
    eapply rtc_l; [by apply (step_body _ 1)|]. eapply rtc_l; [by apply (step_arc _ 0)|].
    apply rtc_once. by apply (step_arc _ 1).
Qed.

