(* ===== verification/MemorySet.v ===== *)
(** The memory set of an address space -- its map areas and its page table --
    and the [VmSpace] operations on it
    (framework/aster-frame/src/vm/memory_set.rs and space.rs).  The page table
    is any implementation of the interface of [PtInterface.v]. *)

From S2P Require Import Prelude BTree Frame PageTable PageTableFacts PtInterface.

(** [VmPerm] (space.rs): a set of bits. *)
Module VmPerm.
Notation R := 1%Z (only parsing).
Notation W := 2%Z (only parsing).
Notation X := 4%Z (only parsing).
Notation U := 8%Z (only parsing).
Notation RW := (Z.lor R W) (only parsing).
Definition empty : Z := 0.
Definition contains (self other : Z) : bool := Z.land self other =? other.
(** [self - other], [self | other] *)
Definition difference (self other : Z) : Z := Z.ldiff self other.
Definition union (self other : Z) : Z := Z.lor self other.

End VmPerm.

(** [impl From<VmPerm> for PageTableFlags] *)
Definition flags_of_perm (vm_perm : Z) : Z :=
  let fl := Z.lor PageTableFlags.PRESENT PageTableFlags.USER in
  let fl := if VmPerm.contains vm_perm VmPerm.W
            then Z.lor fl PageTableFlags.WRITABLE else fl in
  if negb (VmPerm.contains vm_perm VmPerm.X)
  then Z.lor fl PageTableFlags.NO_EXECUTE else fl.

Notation PHYS_OFFSET := 0xFFFF800000000000%Z (only parsing).

Record MapArea : Type := MkMapArea {
  area_flags : Z;
  start_va : Z;
  area_size : Z;
  mapper : list (Z * VmFrame);
}.

Definition set_mapper (m : list (Z * VmFrame)) (a : MapArea) : MapArea :=
  MkMapArea (area_flags a) (start_va a) (area_size a) m.

(** [MapArea::map_with_physical_address]: the frame's address and the area. *)
Definition map_with_physical_address (va : Z) (pa : VmFrame) (self : MapArea)
    : outcome Error (Z * MapArea) :=
  let? _ := oassert (is_page_aligned va) in
  match bt_get va (mapper self) with
  | Some _ => Panic
  | None =>
      let? p := start_paddr pa in
      Ok (p, set_mapper (bt_insert va pa (mapper self)) self)
  end.


(** The loop of [MapArea::new]. *)
Fixpoint map_frames (current_va : Z) (frames : list VmFrame) (map_area : MapArea)
    : outcome Error MapArea :=
  match frames with
  | [] => Ok map_area
  | vm_frame :: frames' =>
      let? p := map_with_physical_address current_va vm_frame map_area in
      let? next := uadd current_va PAGE_SIZE in
      map_frames next frames' p.2
  end.

(** [MapArea::new] *)
Definition map_area_new (start_va size flags : Z) (physical_frames : VmFrameVec)
    : outcome Error MapArea :=
  let? _ := oassert (is_page_aligned start_va && is_page_aligned size &&
                     (fv_len physical_frames =? size / PAGE_SIZE)) in
  map_frames start_va physical_frames (MkMapArea flags start_va size []).

(** The loops of [MapArea::write_data] and [MapArea::read_data]. *)
Fixpoint write_data_loop (m : list (Z * VmFrame)) (current_start_address : Z)
    (buf_reader : VmReader) : stM memory Error unit :=
  match m with
  | [] => sret tt
  | (va, pa) :: m' =>
      if va <=? current_start_address then
        let! va_end := slift (uadd va PAGE_SIZE) in
        if current_start_address <? va_end then
          let! w := slift (frame_writer pa) in
          let! w := slift (writer_skip w (current_start_address - va)) in
          let! t := run_transfer (vm_write w buf_reader) in
          if negb (has_remain (tr_reader t)) then sret tt
          else write_data_loop m' va_end (tr_reader t)
        else write_data_loop m' current_start_address buf_reader
      else write_data_loop m' current_start_address buf_reader
  end.

Definition write_data (self : MapArea) (addr : Z) (data : slice) : stM memory Error unit :=
  write_data_loop (mapper self) addr (reader_of_slice data).

Fixpoint read_data_loop (m : list (Z * VmFrame)) (start : Z) (buf_writer : VmWriter)
    : stM memory Error unit :=
  match m with
  | [] => sret tt
  | (va, pa) :: m' =>
      if va <=? start then
        let! va_end := slift (uadd va PAGE_SIZE) in
        if start <? va_end then
          let! r := slift (frame_reader pa) in
          let! r := slift (reader_skip r (start - va)) in
          let! t := run_transfer (vm_read r buf_writer) in
          if negb (has_avail (tr_writer t)) then sret tt
          else read_data_loop m' va_end (tr_writer t)
        else read_data_loop m' start buf_writer
      else read_data_loop m' start buf_writer
  end.

Definition read_data (self : MapArea) (addr : Z) (data : slice) : stM memory Error unit :=
  read_data_loop (mapper self) addr (writer_of_slice data).

Section MemorySet.
Context {PT : Type} {ops : PtOps PT}.

Record MemorySet : Type := MkMemorySet {
  pt : PT;
  areas : list (Z * MapArea);
}.

Definition set_pt (p : PT) (ms : MemorySet) : MemorySet := MkMemorySet p (areas ms).
Definition set_areas (l : list (Z * MapArea)) (ms : MemorySet) : MemorySet :=
  MkMemorySet (pt ms) l.

(** [pt.op(..).unwrap()] *)
Definition pt_unwrap {A} (m : stM PT PageTableError A) : stM MemorySet Error A := fun ms =>
  match m (pt ms) with
  | (Ok a, p) => (Ok a, set_pt p ms)
  | (_, p) => (Panic, set_pt p ms)
  end.

(** [MemorySet::map] *)
Definition ms_map (area : MapArea) : stM MemorySet Error unit := fun ms =>
  if 0 <? area_size area then
    match bt_get (start_va area) (areas ms) with
    | Some _ => (Panic, ms)
    | None =>
        (let! _ := sput (set_areas (bt_insert (start_va area) area (areas ms)) ms) in
         sfor (mapper area) (fun p =>
           let! pa := slift (start_paddr p.2) in
           let! _ := slift (oassert (pa <? PHYS_OFFSET)) in
           pt_unwrap (op_map p.1 pa (area_flags area)))) ms
    end
  else (Ok tt, ms).

Notation ms_is_mapped vaddr ms := (op_is_mapped (pt ms) vaddr) (only parsing).
Notation ms_flags vaddr ms := (op_flags (pt ms) vaddr) (only parsing).

(** [for (va, _) in area.mapper.iter() { self.pt.unmap( *va).unwrap() }] *)
Definition unmap_area (area : MapArea) : stM MemorySet Error unit :=
  sfor (mapper area) (fun p => pt_unwrap (op_unmap p.1)).

(** [MemorySet::unmap] *)
Definition ms_unmap (va : Z) : stM MemorySet Error unit := fun ms =>
  match bt_get va (areas ms) with
  | Some area =>
      (let! _ := sput (set_areas (bt_remove va (areas ms)) ms) in unmap_area area) ms
  | None => (Err PageFault, ms)
  end.

(** [MemorySet::clear] *)
Definition ms_clear : stM MemorySet Error unit := fun ms =>
  (let! _ := sfor (bt_values (areas ms)) unmap_area in
   let! ms' := sget in
   sput (set_areas [] ms')) ms.

(** [MemorySet::protect] *)
Definition ms_protect (addr flags : Z) : stM MemorySet Error unit := fun ms =>
  let ms' := match bt_get addr (areas ms) with
             | Some a => set_areas (bt_insert addr (MkMapArea flags (start_va a) (area_size a) (mapper a)) (areas ms)) ms
             | None => ms
             end in
  (let! _ := pt_unwrap (op_protect addr flags) in sret tt) ms'.

(** [MemorySet::new]; the argument is the page table it builds, a fresh one
    holding the kernel's root entries. *)
Definition ms_new (page_table : PT) : MemorySet := MkMemorySet page_table [].

(** [impl Clone for MemorySet], into the memory set that [new] returns. *)
Definition ms_clone (page_table : PT) (ms : MemorySet) : outcome Error unit * MemorySet :=
  sfor (bt_values (areas ms)) ms_map (ms_new page_table).

(** The loops of [write_bytes] and [read_bytes]; the variables [start_write]
    and [start_read] are never set, so their branches are never taken. *)
Fixpoint write_bytes_loop (l : list (Z * MapArea)) (current_addr remain offset : Z)
    (data : slice) : stM memory Error unit :=
  match l with
  | [] => serr PageFault
  | (va, area) :: l' =>
      let! area_end := slift (if va <=? current_addr then uadd (area_size area) va else Ok va) in
      if (va <=? current_addr) && (current_addr <? area_end) then
        if negb (PageTableFlags.contains (area_flags area) PageTableFlags.WRITABLE)
        then serr PageFault
        else
          let write_len := Z.min remain (area_end - current_addr) in
          let! part := slift (subslice data offset (offset + write_len)) in
          let! _ := write_data area current_addr part in
          let remain := remain - write_len in
          if remain =? 0 then sret tt
          else write_bytes_loop l' area_end remain (offset + write_len) data
      else write_bytes_loop l' current_addr remain offset data
  end.

(** [MemorySet::write_bytes] *)
Definition ms_write_bytes (ms : MemorySet) (addr : Z) (data : slice) : stM memory Error unit :=
  write_bytes_loop (areas ms) addr (sl_len data) 0 data.

Fixpoint read_bytes_loop (l : list (Z * MapArea)) (current_addr remain offset : Z)
    (data : slice) : stM memory Error unit :=
  match l with
  | [] => serr PageFault
  | (va, area) :: l' =>
      let! area_end := slift (if va <=? current_addr then uadd (area_size area) va else Ok va) in
      if (va <=? current_addr) && (current_addr <? area_end) then
        let read_len := Z.min remain (area_end - current_addr) in
        let! part := slift (subslice data offset (offset + read_len)) in
        let! _ := read_data area current_addr part in
        let remain := remain - read_len in
        if remain =? 0 then sret tt
        else read_bytes_loop l' area_end remain (offset + read_len) data
      else read_bytes_loop l' current_addr remain offset data
  end.

(** [MemorySet::read_bytes] *)
Definition ms_read_bytes (ms : MemorySet) (addr : Z) (data : slice) : stM memory Error unit :=
  read_bytes_loop (areas ms) addr (sl_len data) 0 data.

(** * [VmSpace] (space.rs) *)

Record VmMapOptions : Type := MkVmMapOptions {
  mo_addr : option Z;
  mo_align : Z;
  mo_perm : Z;
  mo_can_overwrite : bool;
}.

(** [VmMapOptions::new] and its setters *)
Definition mo_new : VmMapOptions := MkVmMapOptions None PAGE_SIZE VmPerm.empty false.
Definition mo_set_perm (perm : Z) (self : VmMapOptions) : VmMapOptions :=
  MkVmMapOptions (mo_addr self) (mo_align self) perm (mo_can_overwrite self).
Definition mo_set_addr (addr : option Z) (self : VmMapOptions) : VmMapOptions :=
  match addr with
  | None => self
  | Some a => MkVmMapOptions (Some a) (mo_align self) (mo_perm self) (mo_can_overwrite self)
  end.

(** The loop of [VmSpace::unmap]. *)
Fixpoint unmap_pages (num_pages : nat) (start_va : Z) : stM MemorySet Error unit :=
  match num_pages with
  | O => sret tt
  | S n =>
      let! _ := ms_unmap start_va in
      let! next := slift (uadd start_va PAGE_SIZE) in
      unmap_pages n next
  end.

(** [VmSpace::unmap] *)
Definition vs_unmap (r : range) : stM MemorySet Error unit :=
  let! _ := slift (oassert (is_page_aligned (r_start r) && is_page_aligned (r_end r))) in
  let! len := slift (usub (r_end r) (r_start r)) in
  let num_pages := len / PAGE_SIZE in
  match checked_add (r_start r) (PAGE_SIZE * num_pages) with
  | None => serr Overflow
  | Some _ => unmap_pages (Z.to_nat num_pages) (r_start r)
  end.

(** The loop of [VmSpace::map]. *)
Fixpoint map_each (base_addr idx flags : Z) (frames : VmFrameVec) : stM MemorySet Error unit :=
  match frames with
  | [] => sret tt
  | frame :: frames' =>
      let! off := slift (umul idx PAGE_SIZE) in
      let! addr := slift (uadd base_addr off) in
      let! area := slift (map_area_new addr PAGE_SIZE flags (from_one_frame frame)) in
      let! _ := ms_map area in
      map_each base_addr (idx + 1) flags frames'
  end.

(** [let _ = result]: an error is dropped, a panic is not. *)
Definition ignore_err {A} (m : stM MemorySet Error A) : stM MemorySet Error unit := fun ms =>
  match m ms with
  | (Panic, ms') => (Panic, ms')
  | (_, ms') => (Ok tt, ms')
  end.

(** [VmSpace::map] *)
Definition vs_map (frames : VmFrameVec) (options : VmMapOptions) : stM MemorySet Error Z :=
  let flags := flags_of_perm (mo_perm options) in
  match mo_addr options with
  | None => serr InvalidArgs
  | Some base_addr =>
      let! _ :=
        (if mo_can_overwrite options then
           let! size := slift (fv_nbytes frames) in
           let! end_addr := slift (uadd base_addr size) in
           ignore_err (vs_unmap (Range base_addr end_addr))
         else sret tt) in
      let! size := slift (umul (fv_len frames) PAGE_SIZE) in
      match checked_add base_addr size with
      | None => serr Overflow
      | Some _ =>
          let! _ := map_each base_addr 0 flags frames in
          sret base_addr
      end
  end.

(** [VmSpace::clear], apart from the TLB flush; [VmSpace::deep_copy]. *)
Definition vs_clear : stM MemorySet Error unit := ms_clear.
Definition vs_deep_copy (page_table : PT) (ms : MemorySet) : outcome Error unit * MemorySet :=
  ms_clone page_table ms.

Definition vs_is_mapped (vaddr : Z) (ms : MemorySet) : bool := ms_is_mapped vaddr ms.

Definition vs_is_writable (vaddr : Z) (ms : MemorySet) : bool :=
  match ms_flags vaddr ms with
  | Some fl => PageTableFlags.contains fl PageTableFlags.WRITABLE
  | None => false
  end.

Definition vs_is_executable (vaddr : Z) (ms : MemorySet) : bool :=
  match ms_flags vaddr ms with
  | Some fl => negb (PageTableFlags.contains fl PageTableFlags.NO_EXECUTE)
  | None => false
  end.

(** [VmSpace::protect] *)
Definition vs_protect (r : range) (perm : Z) : stM MemorySet Error unit :=
  let! _ := slift (oassert (r_start r mod PAGE_SIZE =? 0)) in
  let! _ := slift (oassert (r_end r mod PAGE_SIZE =? 0)) in
  let flags := flags_of_perm perm in
  sfor (zrange (r_start r / PAGE_SIZE) (r_end r / PAGE_SIZE))
    (fun page_idx => ms_protect (page_idx * PAGE_SIZE) flags).

End MemorySet.
Arguments MemorySet : clear implicits.
