(* ===== verification/MemorySetFacts.v ===== *)
(** The map areas of a memory set agree with its page table, and what the
    [VmSpace] operations do, for every page table that keeps the promises of
    [PtInterface.v]. *)

From S2P Require Import Prelude BTree Frame FrameFacts PageTable PageTableFacts PtInterface MemorySet.

(** * Flags *)

Lemma flags_of_perm_valid perm : valid_flags (flags_of_perm perm).
Proof.
  unfold flags_of_perm.
  destruct (VmPerm.contains perm VmPerm.W), (VmPerm.contains perm VmPerm.X); split; done.
Qed.

Lemma flags_of_perm_writable perm :
  PageTableFlags.contains (flags_of_perm perm) PageTableFlags.WRITABLE =
  VmPerm.contains perm VmPerm.W.
Proof.
  unfold flags_of_perm.
  by destruct (VmPerm.contains perm VmPerm.W), (VmPerm.contains perm VmPerm.X).
Qed.

Lemma flags_of_perm_executable perm :
  negb (PageTableFlags.contains (flags_of_perm perm) PageTableFlags.NO_EXECUTE) =
  VmPerm.contains perm VmPerm.X.
Proof.
  unfold flags_of_perm.
  by destruct (VmPerm.contains perm VmPerm.W), (VmPerm.contains perm VmPerm.X).
Qed.

(** * Areas of one page *)

(** A frame that may be mapped: not frame 0, and below the direct mapping's end. *)
Definition mappable (f : VmFrame) : Prop := 0 < frame_index f < 127 * 2 ^ 28.

Definition frame_pa (f : VmFrame) : Z := frame_index f * PAGE_SIZE.

(** The area of the page at [va]. *)
Definition page_area (va : Z) (f : VmFrame) (fl : Z) : MapArea :=
  MkMapArea fl va PAGE_SIZE [(va, f)].

Definition user_page_va (va : Z) : Prop := user_va va /\ va mod PAGE_SIZE = 0.

Lemma mappable_ok f : mappable f -> frame_ok f.
Proof. unfold mappable, frame_ok. lia. Qed.

Lemma mappable_paddr E f :
  mappable f -> @start_paddr E f = Ok (frame_pa f) /\ valid_frame (frame_pa f) /\
    (frame_pa f <? PHYS_OFFSET) = true.
Proof.
  intros [H0 H1]. unfold start_paddr, frame_pa, valid_frame, PAGE_SIZE.
  rewrite umul_ok by (unfold usize_max; lia). split_and!; [done|lia|lia|by apply Z.mod_mul|].
  apply Z.ltb_lt. lia.
Qed.

Lemma is_page_aligned_spec p : is_page_aligned p = true <-> p mod PAGE_SIZE = 0.
Proof.
  unfold PAGE_SIZE. change (4096 - 1) with (Z.ones 12).
  rewrite Z.land_ones by lia. apply Z.eqb_eq.
Qed.

Lemma map_area_new_page va fl f :
  user_page_va va -> mappable f ->
  map_area_new va PAGE_SIZE fl (from_one_frame f) = Ok (page_area va f fl).
Proof.
  intros [[H0 H1] Hal] Hf. destruct (mappable_paddr Error f Hf) as [Hpa _].
  unfold map_area_new. rewrite (proj2 (is_page_aligned_spec va) Hal). cbn.
  unfold map_with_physical_address. rewrite (proj2 (is_page_aligned_spec va) Hal). cbn.
  rewrite Hpa. cbn. rewrite uadd_ok; [done|]. unfold PAGE_SIZE, usize_max. lia.
Qed.

Section Facts.
Context {PT : Type} {ops : PtOps PT} {ok : PT -> Prop}
  {view : PT -> Z -> option (Z * Z)} {room : PT -> nat}.
Context {laws : PtLaws ops ok view room}.
Implicit Types (ms : MemorySet PT).

(** What the areas say of the page at [va]. *)
Definition entries (l : list (Z * MapArea)) (va : Z) : option (VmFrame * Z) :=
  match bt_get va l with
  | Some a => match mapper a with (_, f) :: _ => Some (f, area_flags a) | [] => None end
  | None => None
  end.

Definition entry ms (va : Z) : option (VmFrame * Z) := entries (areas ms) va.

Definition area_ok (k : Z) (a : MapArea) : Prop :=
  exists f fl, a = page_area k f fl /\ user_page_va k /\ mappable f /\ valid_flags fl.

Definition pt_entry (e : VmFrame * Z) : Z * Z := (frame_pa e.1, e.2).

(** The invariant: every area is one user page, and the page table maps exactly
    the pages of the areas, to their frames and with their flags. *)
Record ms_ok ms : Prop := {
  ms_pt : ok (pt ms);
  ms_sorted : bt_sorted (areas ms);
  ms_areas : forall k a, (k, a) ∈ areas ms -> area_ok k a;
  ms_agree : forall n, user_page n ->
    view (pt ms) n = pt_entry <$> entry ms (n * PAGE_SIZE);
}.

Lemma entry_some ms va f fl :
  ms_ok ms -> entry ms va = Some (f, fl) ->
  bt_get va (areas ms) = Some (page_area va f fl) /\ user_page_va va /\ mappable f /\ valid_flags fl.
Proof.
  intros Hok. unfold entry, entries. destruct (bt_get va (areas ms)) as [a|] eqn:Ha; [|done].
  destruct (ms_areas _ Hok va a (bt_get_elem _ _ _ Ha)) as (f' & fl' & -> & Hva & Hf & Hfl).
  simpl. intros [= <- <-]. done.
Qed.

Lemma entry_none ms va : ms_ok ms -> entry ms va = None -> bt_get va (areas ms) = None.
Proof.
  intros Hok. unfold entry, entries. destruct (bt_get va (areas ms)) as [a|] eqn:Ha; [|done].
  destruct (ms_areas _ Hok va a (bt_get_elem _ _ _ Ha)) as (f' & fl' & -> & _). done.
Qed.

Lemma page_vpn va : va mod PAGE_SIZE = 0 -> vpn va * PAGE_SIZE = va.
Proof.
  intros Hal. unfold vpn, PAGE_SIZE in *. pose proof (Z.div_mod va 4096 ltac:(lia)). lia.
Qed.

Lemma agree_page ms va :
  ms_ok ms -> user_page_va va ->
  view (pt ms) (vpn va) = pt_entry <$> entry ms va.
Proof.
  intros Hok [Hva Hal]. rewrite (ms_agree _ Hok _ (vpn_user _ Hva)). by rewrite page_vpn.
Qed.

Lemma vpn_inj n va : va mod PAGE_SIZE = 0 -> n = vpn va <-> n * PAGE_SIZE = va.
Proof.
  intros Hal. rewrite <- (page_vpn va Hal) at 2. unfold PAGE_SIZE. lia.
Qed.

(** ** One page at a time *)

(** An update of the page [va] made both in the page table and in the areas. *)
Lemma agree_update ms ms' va e :
  ms_ok ms -> va mod PAGE_SIZE = 0 ->
  (forall n, user_page n ->
     view (pt ms') n = if decide (n = vpn va) then pt_entry <$> e else view (pt ms) n) ->
  (forall k, entry ms' k = if decide (k = va) then e else entry ms k) ->
  forall n, user_page n -> view (pt ms') n = pt_entry <$> entry ms' (n * PAGE_SIZE).
Proof.
  intros Hok Hal Hv Hent n Hn. rewrite Hv, Hent by done.
  pose proof (vpn_inj n va Hal). destruct (decide (n = vpn va)), (decide (n * PAGE_SIZE = va));
    [done|tauto|tauto|]. by apply (ms_agree _ Hok).
Qed.

Lemma insert_area_ok ms va a k a' :
  ms_ok ms -> area_ok va a -> (k, a') ∈ bt_insert va a (areas ms) -> area_ok k a'.
Proof.
  intros Hok Ha Hin. apply bt_elem_insert in Hin as [[= -> ->]|[Hin _]];
    [done|by apply (ms_areas _ Hok)|apply (ms_sorted _ Hok)].
Qed.

(** The entries after the area of [va] is replaced. *)
Lemma entry_insert ms p va f fl k :
  ms_ok ms ->
  entry (MkMemorySet p (bt_insert va (page_area va f fl) (areas ms))) k =
  if decide (k = va) then Some (f, fl) else entry ms k.
Proof.
  intros Hok. unfold entry, entries. cbn. rewrite bt_get_insert by apply (ms_sorted _ Hok).
  zbool; case_decide; done || lia.
Qed.

Lemma entry_remove ms p va k :
  entry (MkMemorySet p (bt_remove va (areas ms))) k = if decide (k = va) then None else entry ms k.
Proof.
  unfold entry, entries. cbn. rewrite bt_get_remove. zbool; case_decide; done || lia.
Qed.

Lemma ms_map_page ms va f fl :
  ms_ok ms -> user_page_va va -> mappable f -> valid_flags fl -> (3 <= room (pt ms))%nat ->
  entry ms va = None ->
  exists ms', ms_map (page_area va f fl) ms = (Ok tt, ms') /\ ms_ok ms' /\
    (room (pt ms) <= room (pt ms') + 3)%nat /\
    forall k, entry ms' k = if decide (k = va) then Some (f, fl) else entry ms k.
Proof.
  intros Hok Hva Hf Hfl Hroom He. pose proof (entry_none _ _ Hok He) as Hget.
  destruct (mappable_paddr Error f Hf) as (Hpa & Hvf & Hlt).
  destruct (law_map (pt ms) va (frame_pa f) fl (ms_pt _ Hok) (proj1 Hva) Hvf Hfl Hroom)
    as (r & p' & Hmap & Hok' & Hroom' & Hv).
  rewrite (agree_page _ _ Hok Hva), He in Hv. cbn in Hv. destruct Hv as [-> Hv].
  pose proof (entry_insert ms p' va f fl) as Hent.
  exists (MkMemorySet p' (bt_insert va (page_area va f fl) (areas ms))).
  split_and!; [|constructor|done|by intros; apply Hent].
  - unfold ms_map. cbn. rewrite Hget. unfold sbind, sput, slift. cbn. rewrite Hpa, Hlt. cbn.
    unfold pt_unwrap. cbn. by rewrite Hmap.
  - done.
  - by apply bt_insert_sorted, (ms_sorted _ Hok).
  - intros k a. apply insert_area_ok; [done|by exists f, fl].
  - eapply (agree_update ms _ va (Some (f, fl))); [done|apply Hva|exact Hv|by intros; apply Hent].
Qed.

Lemma ms_unmap_page ms va :
  ms_ok ms ->
  match entry ms va with
  | None => ms_unmap va ms = (Err PageFault, ms)
  | Some _ => exists ms', ms_unmap va ms = (Ok tt, ms') /\ ms_ok ms' /\
      room (pt ms') = room (pt ms) /\
      forall k, entry ms' k = if decide (k = va) then None else entry ms k
  end.
Proof.
  intros Hok. destruct (entry ms va) as [[f fl]|] eqn:He.
  - destruct (entry_some _ _ _ _ Hok He) as (Hget & Hva & Hf & Hfl).
    pose proof (law_unmap (pt ms) va (ms_pt _ Hok) (proj1 Hva)) as Hun.
    rewrite (agree_page _ _ Hok Hva), He in Hun. destruct Hun as (p' & Hrun & Hok' & Hroom & Hv).
    exists (MkMemorySet p' (bt_remove va (areas ms))).
    split_and!; [|constructor|done|intros; apply entry_remove].
    + unfold ms_unmap. rewrite Hget. unfold sbind, sput, unmap_area. cbn.
      unfold sbind, pt_unwrap. cbn. by rewrite Hrun.
    + done.
    + by apply bt_remove_sorted, (ms_sorted _ Hok).
    + intros k a [Hin _]%bt_elem_remove. by apply (ms_areas _ Hok).
    + eapply (agree_update ms _ va None); [done|apply Hva|exact Hv|intros; apply entry_remove].
  - unfold ms_unmap. by rewrite (entry_none _ _ Hok He).
Qed.

Lemma ms_protect_page ms va fl :
  ms_ok ms -> user_page_va va -> valid_flags fl ->
  match entry ms va with
  | None => exists ms', ms_protect va fl ms = (Panic, ms')
  | Some (f, _) => exists ms', ms_protect va fl ms = (Ok tt, ms') /\ ms_ok ms' /\
      room (pt ms') = room (pt ms) /\
      forall k, entry ms' k = if decide (k = va) then Some (f, fl) else entry ms k
  end.
Proof.
  intros Hok Hva Hfl. pose proof (law_protect (pt ms) va fl (ms_pt _ Hok) (proj1 Hva) Hfl) as Hpr.
  rewrite (agree_page _ _ Hok Hva) in Hpr. destruct (entry ms va) as [[f old]|] eqn:He.
  - destruct (entry_some _ _ _ _ Hok He) as (Hget & _ & Hf & _).
    destruct Hpr as (p' & Hrun & Hok' & Hroom & Hv).
    exists (MkMemorySet p' (bt_insert va (page_area va f fl) (areas ms))).
    split_and!; [|constructor|done|by intros; apply entry_insert].
    + unfold ms_protect. rewrite Hget. unfold sbind, pt_unwrap. cbn. by rewrite Hrun.
    + done.
    + by apply bt_insert_sorted, (ms_sorted _ Hok).
    + intros k a. apply insert_area_ok; [done|by exists f, fl].
    + eapply (agree_update ms _ va (Some (f, fl)));
        [done|apply Hva|exact Hv|by intros; apply entry_insert].
  - unfold ms_protect. rewrite (entry_none _ _ Hok He). unfold sbind, pt_unwrap.
    rewrite Hpr. by eexists.
Qed.
(** ** Ranges of pages *)

(** Only page addresses have an entry. *)
Lemma entry_aligned ms va : ms_ok ms -> va mod PAGE_SIZE <> 0 -> entry ms va = None.
Proof.
  intros Hok Hal. destruct (entry ms va) as [[f fl]|] eqn:He; [|done].
  destruct (entry_some _ _ _ _ Hok He) as (_ & [_ Ha] & _). done.
Qed.

Lemma page_next va : va mod PAGE_SIZE = 0 -> (va + PAGE_SIZE) mod PAGE_SIZE = 0.
Proof. intros H. unfold PAGE_SIZE in *. rewrite <- (Z.mul_1_l 4096) at 1. by rewrite Z.mod_add. Qed.

(** A page address at or after [va] and before the next page is [va]. *)
Lemma page_unique va k :
  va mod PAGE_SIZE = 0 -> k mod PAGE_SIZE = 0 -> va <= k < va + PAGE_SIZE -> k = va.
Proof.
  unfold PAGE_SIZE. intros Hv Hk Hr.
  pose proof (Z.div_mod va 4096 ltac:(lia)). pose proof (Z.div_mod k 4096 ltac:(lia)). lia.
Qed.

(** Entries updated at the page [va] and then at the [n] pages after it. *)
Lemma entries_cons (e0 e1 e2 : Z -> option (VmFrame * Z)) v va n k :
  va mod PAGE_SIZE = 0 -> 0 <= n -> (k mod PAGE_SIZE <> 0 -> e0 k = None) ->
  (forall k, e1 k = if decide (k = va) then None else e0 k) ->
  e2 k = (if decide (va + PAGE_SIZE <= k < va + PAGE_SIZE + n * PAGE_SIZE) then v else e1 k) ->
  v = None ->
  e2 k = (if decide (va <= k < va + (n + 1) * PAGE_SIZE) then v else e0 k).
Proof.
  intros Hal Hn Hun H1 -> ->. rewrite H1.
  destruct (decide (k mod PAGE_SIZE = 0)) as [Hk|Hk].
  - pose proof (page_unique va k Hal Hk). unfold PAGE_SIZE in *. repeat case_decide; done || lia.
  - rewrite Hun by done. repeat case_decide; done.
Qed.

(** [unmap_pages] takes the entries away up to the first gap. *)
Lemma unmap_pages_spec n start ms :
  ms_ok ms -> start mod PAGE_SIZE = 0 -> start + Z.of_nat n * PAGE_SIZE <= usize_max ->
  exists (j : nat) ms', (j <= n)%nat /\
    unmap_pages n start ms = (if decide (j = n) then Ok tt else Err PageFault, ms') /\
    (forall i, 0 <= i < Z.of_nat j -> is_Some (entry ms (start + i * PAGE_SIZE))) /\
    ((j < n)%nat -> entry ms (start + Z.of_nat j * PAGE_SIZE) = None) /\
    ms_ok ms' /\ room (pt ms') = room (pt ms) /\
    forall k, entry ms' k =
      if decide (start <= k < start + Z.of_nat j * PAGE_SIZE) then None else entry ms k.
Proof.
  revert start ms. induction n as [|n IH]; intros start ms Hok Hal Hmax.
  { exists 0%nat, ms. split_and!; [lia|done|lia|lia|done|done|].
    intros k. by rewrite decide_False by lia. }
  cbn [unmap_pages]. unfold sbind at 1. pose proof (ms_unmap_page ms start Hok) as Hun.
  destruct (entry ms start) as [e|] eqn:He.
  - destruct Hun as (ms1 & -> & Hok1 & Hroom1 & Hent1).
    unfold sbind, slift. rewrite uadd_ok by (unfold PAGE_SIZE in *; lia).
    destruct (IH (start + PAGE_SIZE) ms1) as (j & ms' & Hj & Hrun & Hmapped & Hgap & Hok' & Hroom & Hent);
      [done|by apply page_next|unfold PAGE_SIZE in *; lia|].
    assert (Hshift : forall i, start + PAGE_SIZE + i * PAGE_SIZE = start + (i + 1) * PAGE_SIZE) by (intros; lia).
    exists (S j), ms'. rewrite Hrun. split_and!; [lia| | | |done|congruence|].
    + repeat case_decide; done || lia.
    + intros i Hi. destruct (decide (i = 0)) as [->|].
      { rewrite Z.mul_0_l, Z.add_0_r, He. by eexists. }
      specialize (Hmapped (i - 1) ltac:(lia)). rewrite Hshift, Hent1, Z.sub_add in Hmapped.
      rewrite decide_False in Hmapped; [done|]. unfold PAGE_SIZE. lia.
    + intros Hjn. specialize (Hgap ltac:(lia)). rewrite Hshift, Hent1 in Hgap.
      rewrite decide_False in Hgap by (unfold PAGE_SIZE; lia).
      by rewrite Nat2Z.inj_succ, <- Z.add_1_r.
    + intros k. rewrite Nat2Z.inj_succ, <- Z.add_1_r.
      apply (entries_cons (entry ms) (entry ms1)); [done|lia|by apply entry_aligned|done|apply Hent|done].
  - rewrite Hun. exists 0%nat, ms. split_and!; [lia|done|lia| |done|done|].
    + intros _. by rewrite Z.mul_0_l, Z.add_0_r.
    + intros k. by rewrite decide_False by lia.
Qed.
(** The frame that [frames], laid out from page [start], puts at address [k]. *)
Definition laid_out (start : Z) (frames : list VmFrame) (k : Z) : option VmFrame :=
  if decide (start <= k /\ (k - start) mod PAGE_SIZE = 0)
  then frames !! Z.to_nat ((k - start) / PAGE_SIZE) else None.

Lemma laid_out_cons start f frames k :
  laid_out start (f :: frames) k =
  if decide (k = start) then Some f else laid_out (start + PAGE_SIZE) frames k.
Proof.
  unfold laid_out. case_decide as H1; case_decide as H2; subst.
  - by rewrite Z.sub_diag.
  - destruct H1 as [Hle Hm]. unfold PAGE_SIZE in *. pose proof (Z.div_mod (k - start) 4096 ltac:(lia)).
    rewrite decide_True.
    + replace (k - (start + 4096)) with (k - start + (-1) * 4096) by lia.
      rewrite Z.div_add by lia. replace (Z.to_nat ((k - start) / 4096))
        with (S (Z.to_nat ((k - start) / 4096 + -1))) by lia. done.
    + split; [lia|]. replace (k - (start + 4096)) with (k - start + (-1) * 4096) by lia.
      by rewrite Z.mod_add.
  - exfalso. apply H1. rewrite Z.sub_diag. split; [lia|done].
  - rewrite decide_False; [done|]. intros [Hle Hm]. apply H1. unfold PAGE_SIZE in *.
    split; [lia|]. replace (k - start) with (k - (start + 4096) + 1 * 4096) by lia.
    by rewrite Z.mod_add.
Qed.

Lemma laid_out_before start frames k : k < start -> laid_out start frames k = None.
Proof. intros. unfold laid_out. by rewrite decide_False by lia. Qed.

(** One turn of [map_each] at the page [base + idx * PAGE_SIZE]. *)
Lemma map_each_turn base idx fl f frames ms :
  0 <= base -> 0 <= idx -> user_page_va (base + idx * PAGE_SIZE) -> mappable f ->
  map_each base idx fl (f :: frames) ms =
  (let! _ := ms_map (page_area (base + idx * PAGE_SIZE) f fl) in
   map_each base (idx + 1) fl frames) ms.
Proof.
  intros Hb Hi Hva Hf. cbn [map_each]. unfold sbind at 1 2 3, slift.
  destruct Hva as [[H0 H1] Hal] eqn:E. clear E.
  rewrite umul_ok by (unfold usize_max, PAGE_SIZE in *; lia).
  rewrite uadd_ok by (unfold usize_max, PAGE_SIZE in *; lia).
  by rewrite map_area_new_page.
Qed.

(** The pages that [frames] would occupy from [start] are user pages. *)
Definition fits (start : Z) (frames : list VmFrame) : Prop :=
  start mod PAGE_SIZE = 0 /\ 0 <= start /\ start + fv_len frames * PAGE_SIZE <= 2 ^ 47.

Lemma fits_cons start f frames :
  fits start (f :: frames) -> user_page_va start /\ fits (start + PAGE_SIZE) frames.
Proof.
  unfold fits. cbn [length]. intros (Hal & H0 & H1). split.
  - split; [|done]. unfold user_va, PAGE_SIZE in *. lia.
  - split; [by apply page_next|]. unfold PAGE_SIZE in *. lia.
Qed.

Lemma map_each_spec frames base idx fl ms :
  ms_ok ms -> 0 <= base -> 0 <= idx -> fits (base + idx * PAGE_SIZE) frames ->
  Forall mappable frames -> valid_flags fl -> (3 * length frames <= room (pt ms))%nat ->
  (forall k, is_Some (laid_out (base + idx * PAGE_SIZE) frames k) -> entry ms k = None) ->
  exists ms', map_each base idx fl frames ms = (Ok tt, ms') /\ ms_ok ms' /\
    (room (pt ms) <= room (pt ms') + 3 * length frames)%nat /\
    forall k, entry ms' k =
      match laid_out (base + idx * PAGE_SIZE) frames k with
      | Some f => Some (f, fl)
      | None => entry ms k
      end.
Proof.
  revert idx ms. induction frames as [|f frames IH]; intros idx ms Hok Hb Hi Hfit Hall Hfl Hroom Hfree.
  { exists ms. split_and!; [done|done|lia|]. intros k. unfold laid_out. by case_decide. }
  apply Forall_cons in Hall as [Hf Hall]. destruct (fits_cons _ _ _ Hfit) as [Hva Hfit'].
  rewrite map_each_turn by done. cbn [length] in Hroom.
  assert (He : entry ms (base + idx * PAGE_SIZE) = None).
  { apply Hfree. rewrite laid_out_cons, decide_True by done. by eexists. }
  destruct (ms_map_page ms (base + idx * PAGE_SIZE) f fl) as (ms1 & Hrun & Hok1 & Hroom1 & Hent1);
    [done..|lia|done|].
  unfold sbind. rewrite Hrun.
  assert (Hnext : base + (idx + 1) * PAGE_SIZE = base + idx * PAGE_SIZE + PAGE_SIZE) by lia.
  destruct (IH (idx + 1) ms1) as (ms' & Hrun' & Hok' & Hroom' & Hent');
    rewrite ?Hnext; [done|done|lia|done|done|done|lia| |].
  { intros k Hk. rewrite Hent1. case_decide as Hkeq.
    - subst. rewrite laid_out_before in Hk by (unfold PAGE_SIZE; lia). by destruct Hk.
    - apply Hfree. by rewrite laid_out_cons, decide_False. }
  exists ms'. split_and!; [done|done|cbn [length]; lia|]. intros k.
  rewrite Hent', Hnext, Hent1, laid_out_cons. case_decide; [|done].
  subst. by rewrite laid_out_before by (unfold PAGE_SIZE; lia).
Qed.
(** A page that already has an area makes the mapping panic. *)
Lemma map_each_occupied frames base idx fl ms k :
  ms_ok ms -> 0 <= base -> 0 <= idx -> fits (base + idx * PAGE_SIZE) frames ->
  Forall mappable frames -> valid_flags fl -> (3 * length frames <= room (pt ms))%nat ->
  is_Some (laid_out (base + idx * PAGE_SIZE) frames k) -> is_Some (entry ms k) ->
  exists ms', map_each base idx fl frames ms = (Panic, ms').
Proof.
  revert idx ms. induction frames as [|f frames IH]; intros idx ms Hok Hb Hi Hfit Hall Hfl Hroom Hk Hocc.
  { unfold laid_out in Hk. case_decide; by destruct Hk. }
  apply Forall_cons in Hall as [Hf Hall]. destruct (fits_cons _ _ _ Hfit) as [Hva Hfit'].
  rewrite map_each_turn by done. cbn [length] in Hroom. unfold sbind.
  destruct (entry ms (base + idx * PAGE_SIZE)) as [[f0 fl0]|] eqn:He.
  { destruct (entry_some _ _ _ _ Hok He) as (Hget & _).
    exists ms. unfold ms_map. cbn. by rewrite Hget. }
  destruct (ms_map_page ms (base + idx * PAGE_SIZE) f fl) as (ms1 & Hrun & Hok1 & Hroom1 & Hent1);
    [done..|lia|done|].
  rewrite Hrun. rewrite laid_out_cons in Hk. case_decide as Hkeq.
  { subst. rewrite He in Hocc. by destruct Hocc. }
  apply IH; [done|done|lia| |done|done|lia| |].
  - by replace (base + (idx + 1) * PAGE_SIZE) with (base + idx * PAGE_SIZE + PAGE_SIZE) by lia.
  - by replace (base + (idx + 1) * PAGE_SIZE) with (base + idx * PAGE_SIZE + PAGE_SIZE) by lia.
  - by rewrite Hent1, decide_False.
Qed.

(** ** Protection *)

Lemma protect_pages_spec n a fl ms :
  ms_ok ms -> valid_flags fl -> 0 <= a -> (a + Z.of_nat n) * PAGE_SIZE <= 2 ^ 47 ->
  (forall i, a <= i < a + Z.of_nat n -> is_Some (entry ms (i * PAGE_SIZE))) ->
  exists ms', sfor (zrange a (a + Z.of_nat n)) (fun i => ms_protect (i * PAGE_SIZE) fl) ms = (Ok tt, ms') /\
    ms_ok ms' /\ room (pt ms') = room (pt ms) /\
    forall k, entry ms' k =
      if decide (a * PAGE_SIZE <= k < (a + Z.of_nat n) * PAGE_SIZE)
      then (fun e => (e.1, fl)) <$> entry ms k else entry ms k.
Proof.
  revert a ms. induction n as [|n IH]; intros a ms Hok Hfl Ha Hmax Hall.
  { exists ms. rewrite zrange_nil by lia. split_and!; [done|done|done|].
    intros k. by rewrite decide_False by lia. }
  rewrite zrange_cons by lia. cbn [sfor]. unfold sbind.
  assert (Hva : user_page_va (a * PAGE_SIZE)).
  { split; [unfold user_va, PAGE_SIZE in *; lia|by apply Z.mod_mul]. }
  pose proof (ms_protect_page ms (a * PAGE_SIZE) fl Hok Hva Hfl) as Hpr.
  destruct (Hall a ltac:(lia)) as [[f old] He]. rewrite He in Hpr.
  destruct Hpr as (ms1 & -> & Hok1 & Hroom1 & Hent1).
  replace (a + Z.of_nat (S n)) with (a + 1 + Z.of_nat n) by lia.
  destruct (IH (a + 1) ms1) as (ms' & -> & Hok' & Hroom & Hent); [done|done|lia|lia| |].
  { intros i Hi. rewrite Hent1. case_decide; [by eexists|]. apply Hall. lia. }
  exists ms'. split_and!; [done|done|congruence|]. intros k. rewrite Hent, !Hent1.
  destruct (decide (k = a * PAGE_SIZE)) as [->|Hne].
  { rewrite decide_False, decide_True by (unfold PAGE_SIZE; lia). by rewrite He. }
  destruct (decide (k mod PAGE_SIZE = 0)) as [Hk|Hk].
  - pose proof (page_unique (a * PAGE_SIZE) k (proj2 Hva) Hk). unfold PAGE_SIZE in *.
    repeat case_decide; done || lia.
  - rewrite (entry_aligned ms k Hok Hk). by repeat case_decide.
Qed.

(** The first page without an entry makes [protect] panic. *)
Lemma protect_pages_gap n a fl ms i :
  ms_ok ms -> valid_flags fl -> 0 <= a -> (a + Z.of_nat n) * PAGE_SIZE <= 2 ^ 47 ->
  a <= i < a + Z.of_nat n -> entry ms (i * PAGE_SIZE) = None ->
  exists ms', sfor (zrange a (a + Z.of_nat n)) (fun i => ms_protect (i * PAGE_SIZE) fl) ms = (Panic, ms').
Proof.
  revert a ms. induction n as [|n IH]; intros a ms Hok Hfl Ha Hmax Hi He; [lia|].
  rewrite zrange_cons by lia. cbn [sfor]. unfold sbind.
  assert (Hva : user_page_va (a * PAGE_SIZE)).
  { split; [unfold user_va, PAGE_SIZE in *; lia|by apply Z.mod_mul]. }
  pose proof (ms_protect_page ms (a * PAGE_SIZE) fl Hok Hva Hfl) as Hpr.
  destruct (entry ms (a * PAGE_SIZE)) as [[f old]|] eqn:Hea.
  - destruct Hpr as (ms1 & -> & Hok1 & Hroom1 & Hent1).
    assert (i <> a) by (intros ->; congruence).
    replace (a + Z.of_nat (S n)) with (a + 1 + Z.of_nat n) by lia.
    apply IH; [done|done|lia|lia|lia|].
    rewrite Hent1, decide_False by (unfold PAGE_SIZE; lia). done.
  - destruct Hpr as (ms' & ->). by exists ms'.
Qed.

(** ** Queries *)

Definition page_of (va : Z) : Z := vpn va * PAGE_SIZE.

Lemma queries_spec ms va :
  ms_ok ms -> user_va va ->
  vs_is_mapped va ms = bool_decide (is_Some (entry ms (page_of va))) /\
  vs_is_writable va ms =
    match entry ms (page_of va) with
    | Some (_, fl) => PageTableFlags.contains fl PageTableFlags.WRITABLE | None => false end.
Proof.
  intros Hok Hva. pose proof (ms_agree _ Hok _ (vpn_user _ Hva)) as Hag. fold (page_of va) in Hag.
  pose proof (law_flags (pt ms) va (ms_pt _ Hok) Hva) as Hfl. split.
  - unfold vs_is_mapped. rewrite (law_is_mapped _ _ (ms_pt _ Hok) Hva), Hag.
    apply bool_decide_ext. by rewrite fmap_is_Some.
  - unfold vs_is_writable. rewrite Hag in Hfl.
    destruct (entry ms (page_of va)) as [[f fl]|]; cbn in Hfl; [by rewrite Hfl|].
    by destruct Hfl as [-> | ->].
Qed.
(** ** Copying and clearing *)

Lemma bt_sorted_head_get {V} (p : Z * V) l k :
  bt_sorted (p :: l) -> bt_get k l <> None -> k <> p.1.
Proof.
  intros Hs Hk ->. destruct (bt_get p.1 l) as [v|] eqn:Hg; [|done].
  apply bt_get_elem in Hg. apply bt_sorted_cons in Hs as [Hall _].
  rewrite Forall_forall in Hall. specialize (Hall _ Hg). unfold key_lt in Hall. simpl in Hall. lia.
Qed.

Lemma entries_cons_inv va f fl l :
  bt_sorted ((va, page_area va f fl) :: l) ->
  entries ((va, page_area va f fl) :: l) va = Some (f, fl) /\
  (forall k, k <> va -> entries ((va, page_area va f fl) :: l) k = entries l k) /\
  (forall k, is_Some (entries l k) -> k <> va).
Proof.
  intros Hs. split_and!.
  - unfold entries; simpl; by rewrite Z.eqb_refl.
  - intros k Hk. unfold entries; simpl; by rewrite (proj2 (Z.eqb_neq _ _) Hk).
  - intros k Hk. apply (bt_sorted_head_get _ _ _ Hs). unfold entries in Hk.
    destruct (bt_get k l); [done|by destruct Hk].
Qed.

Lemma map_areas_spec l ms :
  ms_ok ms -> bt_sorted l -> (forall k a, (k, a) ∈ l -> area_ok k a) ->
  (3 * length l <= room (pt ms))%nat ->
  (forall k, is_Some (entries l k) -> entry ms k = None) ->
  exists ms', sfor (bt_values l) ms_map ms = (Ok tt, ms') /\ ms_ok ms' /\
    forall k, entry ms' k = match entries l k with Some e => Some e | None => entry ms k end.
Proof.
  revert ms. induction l as [|[va a] l IH]; intros ms Hok Hs Hall Hroom Hfree.
  { by exists ms. }
  destruct (Hall va a ltac:(left)) as (f & fl & -> & Hva & Hf & Hfl). cbn [length] in Hroom.
  destruct (entries_cons_inv va f fl l Hs) as (Hhead & Htail & Hlne).
  destruct (ms_map_page ms va f fl) as (ms1 & Hrun & Hok1 & Hroom1 & Hent1);
    [done..|lia|apply Hfree; rewrite Hhead; by eexists|].
  destruct (IH ms1) as (ms' & Hrun' & Hok' & Hent');
    [done|apply (proj1 (bt_sorted_cons _ _) Hs)|by intros; apply Hall; right|lia| |].
  { intros k Hk. rewrite Hent1, decide_False by by apply Hlne.
    apply Hfree. by rewrite Htail by by apply Hlne. }
  exists ms'. split_and!; [|done|].
  - change (bt_values ((va, page_area va f fl) :: l)) with (page_area va f fl :: bt_values l).
    cbn [sfor]. unfold sbind. by rewrite Hrun.
  - intros k. rewrite Hent', Hent1. destruct (decide (k = va)) as [->|Hne].
    + rewrite Hhead. destruct (entries l va) eqn:Hl; [|done].
      exfalso. apply (Hlne va); [by rewrite Hl|done].
    + by rewrite Htail.
Qed.

(** [unmap_area] touches the page table only. *)
Lemma unmap_areas_spec l ms :
  ok (pt ms) -> bt_sorted l -> (forall k a, (k, a) ∈ l -> area_ok k a) ->
  (forall k, is_Some (entries l k) -> is_Some (view (pt ms) (vpn k))) ->
  exists p', sfor (bt_values l) unmap_area ms = (Ok tt, set_pt p' ms) /\ ok p' /\
    forall n, user_page n ->
      view p' n = match entries l (n * PAGE_SIZE) with Some _ => None | None => view (pt ms) n end.
Proof.
  revert ms. induction l as [|[va a] l IH]; intros ms Hok Hs Hall Hin.
  { exists (pt ms). by destruct ms. }
  destruct (Hall va a ltac:(left)) as (f & fl & -> & Hva & Hf & Hfl).
  destruct (entries_cons_inv va f fl l Hs) as (Hhead & Htail & Hlne).
  pose proof (law_unmap (pt ms) va Hok (proj1 Hva)) as Hun.
  destruct (Hin va ltac:(by rewrite Hhead; eexists)) as [e He]. rewrite He in Hun.
  destruct Hun as (p1 & Hrun & Hok1 & _ & Hv1).
  destruct (IH (set_pt p1 ms)) as (p' & Hrun' & Hok' & Hv');
    [done|apply (proj1 (bt_sorted_cons _ _) Hs)|by intros; apply Hall; right| |].
  { intros k Hk. cbn. destruct (entries l k) as [e'|] eqn:Hek; [|by destruct Hk].
    assert (Hkne : k <> va) by by apply Hlne; rewrite Hek.
    assert (Hku : user_page_va k).
    { unfold entries in Hek. destruct (bt_get k l) as [a|] eqn:Hg; [|done].
      destruct (Hall k a ltac:(right; by apply bt_get_elem)) as (? & ? & _ & ? & _). done. }
    rewrite Hv1 by apply vpn_user, Hku. rewrite decide_False.
    - apply Hin. by rewrite Htail, Hek by done.
    - intros Heq. apply Hkne. rewrite <- (page_vpn k (proj2 Hku)), Heq. by apply page_vpn, Hva. }
  exists p'. split_and!; [|done|].
  - change (bt_values ((va, page_area va f fl) :: l)) with (page_area va f fl :: bt_values l).
    cbn [sfor]. unfold sbind at 1, unmap_area at 1. cbn. unfold sbind, pt_unwrap. by rewrite Hrun.
  - intros n Hn. rewrite Hv' by done. cbn. rewrite Hv1 by done.
    pose proof (vpn_inj n va (proj2 Hva)) as Hinj.
    destruct (decide (n * PAGE_SIZE = va)) as [Heq|Hne].
    + rewrite Heq, Hhead, decide_True by tauto. by case_match.
    + rewrite Htail, decide_False by tauto. done.
Qed.
(** ** Reading and writing user memory *)

Lemma write_data_page va f fl cur part mem :
  user_page_va va -> mappable f -> va <= cur < va + PAGE_SIZE ->
  0 <= sl_len part <= va + PAGE_SIZE - cur ->
  write_data (page_area va f fl) cur part mem =
  (Ok tt, mem_copy (sl_ptr part) (frame_ptr f + (cur - va)) (sl_len part) mem).
Proof.
  intros [[H0 H1] Hal] Hf Hcur Hlen. unfold write_data. cbn [page_area mapper write_data_loop].
  rewrite (proj2 (Z.leb_le _ _)) by lia. unfold sbind, slift, run_transfer.
  rewrite uadd_ok by (unfold PAGE_SIZE, usize_max in *; lia).
  rewrite (proj2 (Z.ltb_lt _ _)) by lia. unfold frame_writer.
  rewrite as_ptr_ok by by apply mappable_ok. cbn [obind].
  unfold writer_skip, avail, writer_from_raw_parts_mut. cbn [wr_end wr_cursor].
  rewrite (proj2 (Z.leb_le _ _)) by lia. cbn [oassert obind].
  unfold vm_write, avail, remain, reader_of_slice, reader_from_raw_parts.
  cbn [wr_end wr_cursor rd_end rd_cursor].
  rewrite Z.add_simpl_l, Z.min_r by lia.
  destruct (Z.eqb_spec (sl_len part) 0) as [->|Hne]; cbn [tr_reader tr_mem].
  - by case_match.
  - unfold remain. cbn [rd_end rd_cursor]. by rewrite Z.sub_diag.
Qed.

Lemma read_data_page va f fl cur part mem :
  user_page_va va -> mappable f -> va <= cur < va + PAGE_SIZE ->
  0 <= sl_len part <= va + PAGE_SIZE - cur ->
  read_data (page_area va f fl) cur part mem =
  (Ok tt, mem_copy (frame_ptr f + (cur - va)) (sl_ptr part) (sl_len part) mem).
Proof.
  intros [[H0 H1] Hal] Hf Hcur Hlen. unfold read_data. cbn [page_area mapper read_data_loop].
  rewrite (proj2 (Z.leb_le _ _)) by lia. unfold sbind, slift, run_transfer.
  rewrite uadd_ok by (unfold PAGE_SIZE, usize_max in *; lia).
  rewrite (proj2 (Z.ltb_lt _ _)) by lia. unfold frame_reader.
  rewrite as_ptr_ok by by apply mappable_ok. cbn [obind].
  unfold reader_skip, remain, reader_from_raw_parts. cbn [rd_end rd_cursor].
  rewrite (proj2 (Z.leb_le _ _)) by lia. cbn [oassert obind].
  unfold vm_read, avail, remain, writer_of_slice, writer_from_raw_parts_mut.
  cbn [wr_end wr_cursor rd_end rd_cursor].
  rewrite Z.add_simpl_l, Z.min_r by lia.
  destruct (Z.eqb_spec (sl_len part) 0) as [->|Hne]; cbn [tr_writer tr_mem].
  - by case_match.
  - unfold avail. cbn [wr_end wr_cursor]. by rewrite Z.sub_diag.
Qed.

(** The pages from [p] are backed by [frames], with flags that satisfy [Q]. *)
Definition backed (Q : Z -> bool) (l : list (Z * MapArea)) (p : Z) (frames : list VmFrame) : Prop :=
  forall (i : nat) f, frames !! i = Some f ->
    exists fl, entries l (p + Z.of_nat i * PAGE_SIZE) = Some (f, fl) /\ Q fl = true.

Lemma backed_skip Q va f0 fl0 l p frames :
  bt_sorted ((va, page_area va f0 fl0) :: l) -> va < p ->
  backed Q ((va, page_area va f0 fl0) :: l) p frames -> backed Q l p frames.
Proof.
  intros Hs Hlt Hb i f Hi. destruct (Hb i f Hi) as (fl & He & HQ).
  destruct (entries_cons_inv _ _ _ _ Hs) as (_ & Htail & _).
  rewrite Htail in He by (unfold PAGE_SIZE; lia). by exists fl.
Qed.

Lemma backed_tail Q va f0 fl0 l f frames :
  bt_sorted ((va, page_area va f0 fl0) :: l) ->
  backed Q ((va, page_area va f0 fl0) :: l) va (f :: frames) ->
  f0 = f /\ Q fl0 = true /\ backed Q l (va + PAGE_SIZE) frames.
Proof.
  intros Hs Hb. destruct (entries_cons_inv _ _ _ _ Hs) as (Hhead & Htail & _).
  destruct (Hb 0%nat f eq_refl) as (fl & He & HQ).
  rewrite Z.mul_0_l, Z.add_0_r, Hhead in He. injection He as -> ->. split_and!; [done|done|].
  intros i g Hi. destruct (Hb (S i) g Hi) as (fl' & He' & HQ').
  rewrite Htail in He' by (unfold PAGE_SIZE; lia). exists fl'.
  split; [|done]. rewrite <- He'. f_equal. lia.
Qed.

(** The head of the areas lies at or before the first backed page. *)
Lemma backed_head Q va a l p f frames :
  bt_sorted ((va, a) :: l) -> backed Q ((va, a) :: l) p (f :: frames) -> va <= p.
Proof.
  intros Hs Hb. destruct (Hb 0%nat f eq_refl) as (fl & He & _).
  rewrite Z.mul_0_l, Z.add_0_r in He. unfold entries in He. simpl in He.
  destruct (Z.eqb_spec p va); [lia|].
  destruct (bt_get p l) as [a'|] eqn:Hg; [|done]. apply bt_get_elem in Hg.
  apply bt_sorted_cons in Hs as [Hall _]. rewrite Forall_forall in Hall.
  specialize (Hall _ Hg). unfold key_lt in Hall. simpl in Hall. lia.
Qed.
Definition writable_flags (fl : Z) : bool := PageTableFlags.contains fl PageTableFlags.WRITABLE.

Lemma fv_write_loop_done frames c mem :
  Forall frame_ok frames -> fv_write_loop frames 0 (MkVmReader c c) mem = (Ok tt, mem).
Proof.
  intros Hall. destruct frames as [|f frames]; [done|]. apply Forall_cons in Hall as [Hf _].
  rewrite fv_write_turn by (done || unfold PAGE_SIZE; lia). by rewrite decide_True.
Qed.

Lemma fv_read_loop_done frames c mem :
  Forall frame_ok frames -> fv_read_loop frames 0 (MkVmWriter c c) mem = (Ok tt, mem).
Proof.
  intros Hall. destruct frames as [|f frames]; [done|]. apply Forall_cons in Hall as [Hf _].
  rewrite fv_read_turn by (done || unfold PAGE_SIZE; lia). by rewrite decide_True.
Qed.

(** Writing to backed user pages is writing to the vector of their frames. *)
Lemma write_bytes_vec l frames p cur remain offset data mem :
  bt_sorted l -> (forall k a, (k, a) ∈ l -> area_ok k a) -> Forall frame_ok frames ->
  p mod PAGE_SIZE = 0 -> p <= cur < p + PAGE_SIZE -> 0 < remain -> 0 <= offset ->
  offset + remain = sl_len data -> cur - p + remain <= PAGE_SIZE * Z.of_nat (length frames) ->
  backed writable_flags l p frames ->
  write_bytes_loop l cur remain offset data mem =
  fv_write_loop frames (cur - p)
    (MkVmReader (sl_ptr data + offset) (sl_ptr data + offset + remain)) mem.
Proof.
  revert frames p cur remain offset mem. induction l as [|[va a] l IH];
    intros frames p cur remain offset mem Hs Hall Hfs Hal Hcur Hrem Hoff Hlen Hfit Hb;
    (destruct frames as [|f frames]; [cbn [length] in Hfit; unfold PAGE_SIZE in *; lia|]).
  { destruct (Hb 0%nat f eq_refl) as (fl & He & _). done. }
  destruct (Hall va a ltac:(left)) as (f0 & fl0 & -> & Hva & Hf0 & Hfl0).
  pose proof (backed_head _ _ _ _ _ _ _ Hs Hb) as Hle. pose proof Hva as [[Hv0 Hv1] Hval].
  assert (Hs' : bt_sorted l) by apply (proj1 (bt_sorted_cons _ _) Hs).
  assert (Hall' : forall k a, (k, a) ∈ l -> area_ok k a) by (intros; apply Hall; by right).
  cbn [write_bytes_loop]. unfold sbind at 1, slift at 1. rewrite (proj2 (Z.leb_le va cur)) by lia.
  cbn [area_size page_area]. rewrite uadd_ok by (unfold PAGE_SIZE, usize_max in *; lia).
  destruct (decide (va = p)) as [->|Hne].
  - destruct (backed_tail _ _ _ _ _ _ _ Hs Hb) as (-> & HQ & Hb').
    rewrite (proj2 (Z.ltb_lt cur _)) by lia. cbn [andb].
    change (PageTableFlags.contains _ _) with (writable_flags fl0). rewrite HQ. cbn [negb].
    rewrite fv_write_turn by (lia || by apply mappable_ok). rewrite decide_False by lia.
    replace (PAGE_SIZE + p - cur) with (PAGE_SIZE - (cur - p)) by lia.
    replace (sl_ptr data + offset + remain - (sl_ptr data + offset)) with remain by lia.
    rewrite (Z.min_comm remain). cbn zeta. set (n := Z.min (PAGE_SIZE - (cur - p)) remain).
    unfold sbind, slift, subslice. rewrite !(proj2 (Z.leb_le _ _)) by lia. cbn [andb oassert obind].
    replace (offset + n - offset) with n by lia.
    rewrite write_data_page by (done || cbn; lia). cbn [sl_ptr sl_len].
    apply Forall_cons in Hfs as [_ Hfs]. destruct (Z.eqb_spec (remain - n) 0) as [Hz|Hz].
    + replace (sl_ptr data + offset + n) with (sl_ptr data + offset + remain) by lia.
      by rewrite fv_write_loop_done.
    + cbn [length] in Hfit. rewrite (IH frames (p + PAGE_SIZE)); try done; try lia.
      * replace (PAGE_SIZE + p - (p + PAGE_SIZE)) with 0 by lia. f_equal. f_equal; lia.
      * by apply page_next.
  - assert (va + PAGE_SIZE <= p).
    { unfold PAGE_SIZE in *. pose proof (Z.div_mod va 4096 ltac:(lia)).
      pose proof (Z.div_mod p 4096 ltac:(lia)). lia. }
    rewrite (proj2 (Z.ltb_ge cur _)) by lia. cbn [andb].
    apply IH; try done. apply (backed_skip _ va f0 fl0); [done|lia|done].
Qed.

Lemma read_bytes_vec l frames p cur remain offset data mem :
  bt_sorted l -> (forall k a, (k, a) ∈ l -> area_ok k a) -> Forall frame_ok frames ->
  p mod PAGE_SIZE = 0 -> p <= cur < p + PAGE_SIZE -> 0 < remain -> 0 <= offset ->
  offset + remain = sl_len data -> cur - p + remain <= PAGE_SIZE * Z.of_nat (length frames) ->
  backed (fun _ => true) l p frames ->
  read_bytes_loop l cur remain offset data mem =
  fv_read_loop frames (cur - p)
    (MkVmWriter (sl_ptr data + offset) (sl_ptr data + offset + remain)) mem.
Proof.
  revert frames p cur remain offset mem. induction l as [|[va a] l IH];
    intros frames p cur remain offset mem Hs Hall Hfs Hal Hcur Hrem Hoff Hlen Hfit Hb;
    (destruct frames as [|f frames]; [cbn [length] in Hfit; unfold PAGE_SIZE in *; lia|]).
  { destruct (Hb 0%nat f eq_refl) as (fl & He & _). done. }
  destruct (Hall va a ltac:(left)) as (f0 & fl0 & -> & Hva & Hf0 & Hfl0).
  pose proof (backed_head _ _ _ _ _ _ _ Hs Hb) as Hle. pose proof Hva as [[Hv0 Hv1] Hval].
  assert (Hs' : bt_sorted l) by apply (proj1 (bt_sorted_cons _ _) Hs).
  assert (Hall' : forall k a, (k, a) ∈ l -> area_ok k a) by (intros; apply Hall; by right).
  cbn [read_bytes_loop]. unfold sbind at 1, slift at 1. rewrite (proj2 (Z.leb_le va cur)) by lia.
  cbn [area_size page_area]. rewrite uadd_ok by (unfold PAGE_SIZE, usize_max in *; lia).
  destruct (decide (va = p)) as [->|Hne].
  - destruct (backed_tail _ _ _ _ _ _ _ Hs Hb) as (-> & _ & Hb').
    rewrite (proj2 (Z.ltb_lt cur _)) by lia. cbn [andb].
    rewrite fv_read_turn by (lia || by apply mappable_ok). rewrite decide_False by lia.
    replace (PAGE_SIZE + p - cur) with (PAGE_SIZE - (cur - p)) by lia.
    replace (sl_ptr data + offset + remain - (sl_ptr data + offset)) with remain by lia.
    rewrite (Z.min_comm remain). cbn zeta. set (n := Z.min (PAGE_SIZE - (cur - p)) remain).
    unfold sbind, slift, subslice. rewrite !(proj2 (Z.leb_le _ _)) by lia. cbn [andb oassert obind].
    replace (offset + n - offset) with n by lia.
    rewrite read_data_page by (done || cbn; lia). cbn [sl_ptr sl_len].
    apply Forall_cons in Hfs as [_ Hfs]. destruct (Z.eqb_spec (remain - n) 0) as [Hz|Hz].
    + replace (sl_ptr data + offset + n) with (sl_ptr data + offset + remain) by lia.
      by rewrite fv_read_loop_done.
    + cbn [length] in Hfit. rewrite (IH frames (p + PAGE_SIZE)); try done; try lia.
      * replace (PAGE_SIZE + p - (p + PAGE_SIZE)) with 0 by lia. f_equal. f_equal; lia.
      * by apply page_next.
  - assert (va + PAGE_SIZE <= p).
    { unfold PAGE_SIZE in *. pose proof (Z.div_mod va 4096 ltac:(lia)).
      pose proof (Z.div_mod p 4096 ltac:(lia)). lia. }
    rewrite (proj2 (Z.ltb_ge cur _)) by lia. cbn [andb].
    apply IH; try done. apply (backed_skip _ va f0 fl0); [done|lia|done].
Qed.
(** Some page of the access has no area, or one whose flags fail [Q]. *)
Definition faulty (Q : Z -> bool) (l : list (Z * MapArea)) (cur remain : Z) : Prop :=
  exists q, q mod PAGE_SIZE = 0 /\ q < cur + remain /\ cur < q + PAGE_SIZE /\
    forall f fl, entries l q = Some (f, fl) -> Q fl = false.

Lemma faulty_skip Q va f fl l cur remain :
  bt_sorted ((va, page_area va f fl) :: l) ->
  faulty Q ((va, page_area va f fl) :: l) cur remain -> faulty Q l cur remain.
Proof.
  intros Hs (q & Hal & Hlt & Hgt & Hbad). destruct (entries_cons_inv _ _ _ _ Hs) as (_ & Htail & Hne).
  exists q. split_and!; [done..|]. intros f' fl' He. apply (Hbad f'). rewrite Htail; [done|].
  apply Hne. by rewrite He.
Qed.

(** Past the first page of the access, when that page is fine. *)
Lemma faulty_next Q va f fl l cur remain n :
  bt_sorted ((va, page_area va f fl) :: l) -> va mod PAGE_SIZE = 0 ->
  va <= cur < va + PAGE_SIZE -> Q fl = true -> n = Z.min remain (PAGE_SIZE + va - cur) ->
  faulty Q ((va, page_area va f fl) :: l) cur remain ->
  remain - n <> 0 /\ faulty Q l (PAGE_SIZE + va) (remain - n).
Proof.
  intros Hs Hal Hcur HQ -> Hf. pose proof Hf as (q & Hqal & Hlt & Hgt & Hbad).
  destruct (entries_cons_inv _ _ _ _ Hs) as (Hhead & Htail & Hne).
  assert (q <> va) by (intros ->; specialize (Hbad _ _ Hhead); congruence).
  assert (va + PAGE_SIZE <= q).
  { pose proof (page_unique va q Hal Hqal). pose proof (page_unique q va Hqal Hal).
    unfold PAGE_SIZE in *. lia. }
  split; [lia|]. exists q. split_and!; [done|lia|lia|].
  intros f' fl' He. apply (Hbad f'). by rewrite Htail.
Qed.

Lemma write_bytes_fault l cur remain offset data mem :
  bt_sorted l -> (forall k a, (k, a) ∈ l -> area_ok k a) ->
  0 <= cur -> 0 < remain -> 0 <= offset -> offset + remain = sl_len data ->
  faulty writable_flags l cur remain ->
  exists mem', write_bytes_loop l cur remain offset data mem = (Err PageFault, mem').
Proof.
  revert cur remain offset mem. induction l as [|[va a] l IH];
    intros cur remain offset mem Hs Hall Hc Hrem Hoff Hlen Hf; [by eexists|].
  destruct (Hall va a ltac:(left)) as (f0 & fl0 & -> & Hva & Hf0 & Hfl0).
  pose proof Hva as [[Hv0 Hv1] Hval].
  assert (Hs' : bt_sorted l) by apply (proj1 (bt_sorted_cons _ _) Hs).
  assert (Hall' : forall k a, (k, a) ∈ l -> area_ok k a) by (intros; apply Hall; by right).
  pose proof (faulty_skip _ _ _ _ _ _ _ Hs Hf) as Hskip.
  cbn [write_bytes_loop]. unfold sbind at 1, slift at 1. cbn [area_size page_area].
  destruct (Z.leb_spec va cur) as [Hle|Hgt]; [|by apply IH].
  rewrite uadd_ok by (unfold PAGE_SIZE, usize_max in *; lia).
  destruct (Z.ltb_spec cur (PAGE_SIZE + va)) as [Hlt|Hge]; cbn [andb]; [|by apply IH].
  change (PageTableFlags.contains _ _) with (writable_flags fl0).
  destruct (writable_flags fl0) eqn:HQ; cbn [negb]; [|by eexists].
  set (n := Z.min remain (PAGE_SIZE + va - cur)).
  destruct (faulty_next _ va f0 fl0 l cur remain n Hs Hval ltac:(lia) HQ eq_refl Hf) as [Hne Hnext].
  unfold sbind, slift, subslice. rewrite !(proj2 (Z.leb_le _ _)) by lia. cbn [andb oassert obind].
  rewrite write_data_page by (done || cbn; lia). rewrite (proj2 (Z.eqb_neq _ _) Hne).
  apply IH; done || lia.
Qed.

Lemma read_bytes_fault l cur remain offset data mem :
  bt_sorted l -> (forall k a, (k, a) ∈ l -> area_ok k a) ->
  0 <= cur -> 0 < remain -> 0 <= offset -> offset + remain = sl_len data ->
  faulty (fun _ => true) l cur remain ->
  exists mem', read_bytes_loop l cur remain offset data mem = (Err PageFault, mem').
Proof.
  revert cur remain offset mem. induction l as [|[va a] l IH];
    intros cur remain offset mem Hs Hall Hc Hrem Hoff Hlen Hf; [by eexists|].
  destruct (Hall va a ltac:(left)) as (f0 & fl0 & -> & Hva & Hf0 & Hfl0).
  pose proof Hva as [[Hv0 Hv1] Hval].
  assert (Hs' : bt_sorted l) by apply (proj1 (bt_sorted_cons _ _) Hs).
  assert (Hall' : forall k a, (k, a) ∈ l -> area_ok k a) by (intros; apply Hall; by right).
  pose proof (faulty_skip _ _ _ _ _ _ _ Hs Hf) as Hskip.
  cbn [read_bytes_loop]. unfold sbind at 1, slift at 1. cbn [area_size page_area].
  destruct (Z.leb_spec va cur) as [Hle|Hgt]; [|by apply IH].
  rewrite uadd_ok by (unfold PAGE_SIZE, usize_max in *; lia).
  destruct (Z.ltb_spec cur (PAGE_SIZE + va)) as [Hlt|Hge]; cbn [andb]; [|by apply IH].
  set (n := Z.min remain (PAGE_SIZE + va - cur)).
  destruct (faulty_next _ va f0 fl0 l cur remain n Hs Hval ltac:(lia) eq_refl eq_refl Hf) as [Hne Hnext].
  unfold sbind, slift, subslice. rewrite !(proj2 (Z.leb_le _ _)) by lia. cbn [andb oassert obind].
  rewrite read_data_page by (done || cbn; lia). rewrite (proj2 (Z.eqb_neq _ _) Hne).
  apply IH; done || lia.
Qed.
End Facts.
