(* ===== verification/VmSpace.v ===== *)
(** The contract of [VmSpace] (framework/aster-frame/src/vm/space.rs) for every
    page table that keeps the promises of [PtInterface.v]. *)

From S2P Require Import Prelude BTree Frame FrameFacts PageTable PageTableFacts PtInterface MemorySet MemorySetFacts.

Section Contract.
Context {PT : Type} {ops : PtOps PT} {ok : PT -> Prop}
  {view : PT -> Z -> option (Z * Z)} {room : PT -> nat}.
Context {laws : PtLaws ops ok view room}.
Implicit Types (ms : MemorySet PT).
Notation ms_ok := (ms_ok (ok := ok) (view := view)).

Lemma aligned_div a : a mod PAGE_SIZE = 0 -> a = a / PAGE_SIZE * PAGE_SIZE.
Proof. intros H. unfold PAGE_SIZE in *. pose proof (Z.div_mod a 4096 ltac:(lia)). lia. Qed.

Lemma unmap_range_spec ms s (n : nat) :
  ms_ok ms -> s mod PAGE_SIZE = 0 -> 0 <= s -> s + Z.of_nat n * PAGE_SIZE <= usize_max ->
  vs_unmap (Range s (s + Z.of_nat n * PAGE_SIZE)) ms = unmap_pages n s ms.
Proof.
  intros Hok Hal Hs Hmax. unfold vs_unmap, sbind, slift. cbn [r_start r_end].
  rewrite (proj2 (is_page_aligned_spec s) Hal).
  rewrite (proj2 (is_page_aligned_spec (s + Z.of_nat n * PAGE_SIZE)))
    by (unfold PAGE_SIZE in *; by rewrite Z.mod_add).
  cbn [andb oassert]. rewrite usub_ok by (unfold PAGE_SIZE; lia).
  replace (s + Z.of_nat n * PAGE_SIZE - s) with (Z.of_nat n * PAGE_SIZE) by lia.
  rewrite Z.div_mul by done. unfold checked_add.
  rewrite (proj2 (Z.leb_le _ _)) by (unfold PAGE_SIZE in *; lia). by rewrite Nat2Z.id.
Qed.

Lemma laid_out_some start frames k :
  is_Some (laid_out start frames k) <->
  exists i : nat, (i < length frames)%nat /\ k = start + Z.of_nat i * PAGE_SIZE.
Proof.
  unfold laid_out. split.
  - case_decide as Hd; [|by intros []]. intros Hl. apply lookup_lt_is_Some in Hl.
    exists (Z.to_nat ((k - start) / PAGE_SIZE)). split; [done|].
    pose proof (aligned_div _ (proj2 Hd)).
    rewrite Z2Nat.id by (apply Z.div_pos; [lia|done]). lia.
  - intros (i & Hi & ->). rewrite decide_True.
    + rewrite Z.add_simpl_l, Z.div_mul, Nat2Z.id by done. by apply lookup_lt_is_Some.
    + unfold PAGE_SIZE. rewrite Z.add_simpl_l, Z.mod_mul by lia. split; [lia|done].
Qed.

(** No mapped page of the [n] pages from [start] follows an unmapped one. *)
Definition gap_free ms (start : Z) (n : nat) : Prop :=
  forall i k : nat, (i < k < n)%nat ->
    entry ms (start + Z.of_nat i * PAGE_SIZE) = None ->
    entry ms (start + Z.of_nat k * PAGE_SIZE) = None.

(** What [map] needs of the pages it is to map. *)
Definition clear_for (can_overwrite : bool) ms (start : Z) (n : nat) : Prop :=
  if can_overwrite then gap_free ms start n
  else forall i : nat, (i < n)%nat -> entry ms (start + Z.of_nat i * PAGE_SIZE) = None.

Lemma occupied_or_free ms base frames :
  (exists k, is_Some (laid_out base frames k) /\ is_Some (entry ms k)) \/
  (forall k, is_Some (laid_out base frames k) -> entry ms k = None).
Proof.
  destruct (decide (Exists (fun i => is_Some (entry ms (base + Z.of_nat i * PAGE_SIZE)))
    (seq 0 (length frames)))) as [(i & Hi & Hs)%Exists_exists|Hno].
  - left. exists (base + Z.of_nat i * PAGE_SIZE). split; [|done]. apply laid_out_some.
    apply elem_of_seq in Hi. exists i. split; [lia|done].
  - right. intros k (i & Hi & ->)%laid_out_some.
    destruct (entry ms (base + Z.of_nat i * PAGE_SIZE)) eqn:He; [|done].
    exfalso. apply Hno, Exists_exists. exists i. split; [apply elem_of_seq; lia|by rewrite He].
Qed.

(** The memory set [map] works on after the optional unmap. *)
Lemma map_prepare ms base (frames : VmFrameVec) (can_overwrite : bool) :
  ms_ok ms -> fits base frames ->
  exists ms1,
    (if can_overwrite then
       let! size := slift (fv_nbytes frames) in
       let! end_addr := slift (uadd base size) in
       ignore_err (vs_unmap (Range base end_addr))
     else sret tt) ms = (Ok tt, ms1) /\
    ms_ok ms1 /\ room (pt ms1) = room (pt ms) /\
    (forall k, entry ms1 k = entry ms k \/
       (entry ms1 k = None /\ is_Some (laid_out base frames k))) /\
    (clear_for can_overwrite ms base (length frames) <->
     forall k, is_Some (laid_out base frames k) -> entry ms1 k = None).
Proof.
  intros Hok (Hal & H0 & H1). destruct can_overwrite; cbn [clear_for].
  - unfold sbind, slift, fv_nbytes. unfold PAGE_SIZE in *.
    rewrite umul_ok by (unfold usize_max; lia). rewrite uadd_ok by (unfold usize_max; lia).
    unfold ignore_err. fold PAGE_SIZE in *. rewrite unmap_range_spec by (done || unfold usize_max, PAGE_SIZE in *; lia).
    destruct (unmap_pages_spec (length frames) base ms Hok Hal) as
      (j & ms1 & Hj & Hrun & Hbefore & Hgap & Hok1 & Hroom & Hent);
      [unfold usize_max, PAGE_SIZE in *; lia|].
    exists ms1. rewrite Hrun. split_and!; [by case_decide|done|done| |].
    + intros k. rewrite Hent.
      destruct (decide (base <= k < base + Z.of_nat j * PAGE_SIZE)) as [Hd|Hd]; [|by left].
      destruct (decide (k mod PAGE_SIZE = 0)) as [Hk|Hk]; [|left; by rewrite (entry_aligned ms k Hok Hk)].
      right. split; [done|]. apply laid_out_some. exists (Z.to_nat ((k - base) / PAGE_SIZE)).
      unfold PAGE_SIZE in *. pose proof (Z.div_mod base 4096 ltac:(lia)).
      pose proof (Z.div_mod k 4096 ltac:(lia)). pose proof (Z.div_mod (k - base) 4096 ltac:(lia)).
      pose proof (Z.mod_pos_bound (k - base) 4096 ltac:(lia)). lia.
    + split.
      * intros Hgf k (i & Hi & ->)%laid_out_some. rewrite Hent.
        destruct (decide (base <= _ < base + Z.of_nat j * PAGE_SIZE)) as [Hd|Hd]; [done|].
        assert ((j <= i)%nat) by (unfold PAGE_SIZE in *; lia).
        destruct (decide (i = j)) as [->|]; [by apply Hgap|].
        apply (Hgf j i); [lia|]. apply Hgap. lia.
      * intros Hall i k Hik Hi. assert (Hji : (j <= i)%nat).
        { destruct (decide (j <= i)%nat); [done|]. destruct (Hbefore (Z.of_nat i) ltac:(lia)) as [e He].
          congruence. }
        assert (Hl : is_Some (laid_out base frames (base + Z.of_nat k * PAGE_SIZE)))
          by (apply laid_out_some; exists k; split; [lia|done]).
        specialize (Hall _ Hl). rewrite Hent, decide_False in Hall; [done|].
        unfold PAGE_SIZE. lia.
  - exists ms. split_and!; [done|done|done|by left|]. split.
    + intros Hcl k (i & Hi & ->)%laid_out_some. by apply Hcl.
    + intros Hcl i Hi. apply Hcl, laid_out_some. by exists i.
Qed.

Lemma vs_map_run ms ms1 base (frames : VmFrameVec) options :
  fits base frames -> mo_addr options = Some base ->
  (if mo_can_overwrite options then
     let! size := slift (fv_nbytes frames) in
     let! end_addr := slift (uadd base size) in
     ignore_err (vs_unmap (Range base end_addr))
   else sret tt) ms = (Ok tt, ms1) ->
  vs_map frames options ms =
  (let! _ := map_each base 0 (flags_of_perm (mo_perm options)) frames in sret base) ms1.
Proof.
  intros (Hal & H0 & H1) Haddr Hprep. unfold vs_map. rewrite Haddr.
  unfold sbind at 1. rewrite Hprep. unfold sbind at 1, slift.
  unfold PAGE_SIZE in H1. rewrite umul_ok by (unfold PAGE_SIZE, usize_max; lia).
  unfold checked_add.
  by rewrite (proj2 (Z.leb_le _ _)) by (unfold PAGE_SIZE, usize_max; lia).
Qed.

Lemma vs_map_clear ms (frames : VmFrameVec) options base :
  ms_ok ms -> Forall mappable frames -> (3 * length frames <= room (pt ms))%nat ->
  mo_addr options = Some base -> fits base frames ->
  clear_for (mo_can_overwrite options) ms base (length frames) ->
  exists ms', vs_map frames options ms = (Ok base, ms') /\ ms_ok ms' /\
    forall k, entry ms' k =
      match laid_out base frames k with
      | Some f => Some (f, flags_of_perm (mo_perm options))
      | None => entry ms k
      end.
Proof.
  intros Hok Hall Hroom Haddr Hfit Hcl. pose proof Hfit as (Hal & H0 & H1).
  destruct (map_prepare ms base frames (mo_can_overwrite options) Hok Hfit)
    as (ms1 & Hprep & Hok1 & Hroom1 & Hkeep & Hclear).
  assert (Hbase : base + 0 * PAGE_SIZE = base) by lia.
  rewrite (vs_map_run ms ms1 base frames options Hfit Haddr Hprep). unfold sbind.
  destruct (map_each_spec frames base 0 (flags_of_perm (mo_perm options)) ms1)
    as (ms' & -> & Hok' & _ & Hent'); rewrite ?Hbase in *;
    [done|done|lia|done|done|apply flags_of_perm_valid|by rewrite Hroom1|by apply Hclear|].
  exists ms'. split_and!; [done|done|]. intros k. rewrite Hent'.
  destruct (laid_out base frames k) eqn:Hl; [done|].
  destruct (Hkeep k) as [Hk|[_ Hk]]; [done|]. rewrite Hl in Hk. by destruct Hk.
Qed.

Lemma vs_map_occupied ms (frames : VmFrameVec) options base :
  ms_ok ms -> Forall mappable frames -> (3 * length frames <= room (pt ms))%nat ->
  mo_addr options = Some base -> fits base frames ->
  ~ clear_for (mo_can_overwrite options) ms base (length frames) ->
  exists ms', vs_map frames options ms = (Panic, ms').
Proof.
  intros Hok Hall Hroom Haddr Hfit Hncl. pose proof Hfit as (Hal & H0 & H1).
  destruct (map_prepare ms base frames (mo_can_overwrite options) Hok Hfit)
    as (ms1 & Hprep & Hok1 & Hroom1 & Hkeep & Hclear).
  assert (Hbase : base + 0 * PAGE_SIZE = base) by lia.
  rewrite (vs_map_run ms ms1 base frames options Hfit Haddr Hprep). unfold sbind.
  destruct (occupied_or_free ms1 base frames) as [(k & Hk & Hocc)|Hfree]; [|naive_solver].
  destruct (map_each_occupied frames base 0 (flags_of_perm (mo_perm options)) ms1 k)
    as (ms' & ->); rewrite ?Hbase in *;
    [done|done|lia|done|done|apply flags_of_perm_valid|by rewrite Hroom1|done|done|by exists ms'].
Qed.

(** C31: [VmSpace::map] at a page-aligned user range maps every frame to its page
    with the flags of the permission and returns the base address, leaving the
    other pages alone, when the range is clear; otherwise it panics.  A range is
    clear when none of its pages is mapped or, with [can_overwrite], when no
    mapped page follows an unmapped one: the [unmap] that makes room stops at
    the first gap, so overwriting a range with a hole in it panics.  Without an
    address the result is [InvalidArgs]. *)
Theorem vmspace_map_spec ms (frames : VmFrameVec) (options : VmMapOptions) :
  ms_ok ms -> Forall mappable frames -> (3 * length frames <= room (pt ms))%nat ->
  match mo_addr options with
  | None => vs_map frames options ms = (Err InvalidArgs, ms)
  | Some base =>
      fits base frames ->
      (clear_for (mo_can_overwrite options) ms base (length frames) ->
       exists ms', vs_map frames options ms = (Ok base, ms') /\ ms_ok ms' /\
         forall k, entry ms' k =
           match laid_out base frames k with
           | Some f => Some (f, flags_of_perm (mo_perm options))
           | None => entry ms k
           end) /\
      (~ clear_for (mo_can_overwrite options) ms base (length frames) ->
       exists ms', vs_map frames options ms = (Panic, ms'))
  end.
Proof.
  intros Hok Hall Hroom. destruct (mo_addr options) as [base|] eqn:Haddr;
    [|unfold vs_map; by rewrite Haddr].
  intros Hfit. split; [by apply vs_map_clear|by apply vs_map_occupied].
Qed.

(** C36: [VmSpace::unmap] of a page-aligned user range unmaps its pages in order
    up to the first one that is not mapped.  If there is none it succeeds and
    the whole range is unmapped; otherwise it returns [PageFault] and the pages
    from the gap on keep their mappings.  Pages outside the range are untouched
    and the invariant is preserved. *)
Theorem vmspace_unmap_spec ms (s : Z) (n : nat) :
  ms_ok ms -> s mod PAGE_SIZE = 0 -> 0 <= s -> s + Z.of_nat n * PAGE_SIZE <= 2 ^ 47 ->
  exists (j : nat) ms', (j <= n)%nat /\
    vs_unmap (Range s (s + Z.of_nat n * PAGE_SIZE)) ms =
      (if decide (j = n) then Ok tt else Err PageFault, ms') /\
    (forall i, 0 <= i < Z.of_nat j -> is_Some (entry ms (s + i * PAGE_SIZE))) /\
    ((j < n)%nat -> entry ms (s + Z.of_nat j * PAGE_SIZE) = None) /\
    ms_ok ms' /\
    forall k, entry ms' k =
      if decide (s <= k < s + Z.of_nat j * PAGE_SIZE) then None else entry ms k.
Proof.
  intros Hok Hal Hs Hmax.
  assert (Hu : s + Z.of_nat n * PAGE_SIZE <= usize_max) by (unfold usize_max; lia).
  rewrite unmap_range_spec by done.
  destruct (unmap_pages_spec n s ms Hok Hal Hu) as (j & ms' & ? & ? & ? & ? & ? & ? & ?).
  by exists j, ms'.
Qed.

(** C37: [VmSpace::protect] of a page-aligned user range whose pages are all
    mapped changes the flags of exactly those pages to the ones of the
    permission and no frame, keeps the invariant, and [is_writable] on any
    address of the range then answers whether the permission has [W], while
    [is_mapped] is unchanged everywhere; a range with an unmapped page makes it
    panic. *)
Theorem vmspace_protect_spec ms (a : Z) (n : nat) (perm : Z) :
  ms_ok ms -> 0 <= a -> (a + Z.of_nat n) * PAGE_SIZE <= 2 ^ 47 ->
  let r := Range (a * PAGE_SIZE) ((a + Z.of_nat n) * PAGE_SIZE) in
  ((forall i, a <= i < a + Z.of_nat n -> is_Some (entry ms (i * PAGE_SIZE))) ->
   exists ms', vs_protect r perm ms = (Ok tt, ms') /\ ms_ok ms' /\
     (forall k, entry ms' k =
        if decide (in_range k r) then (fun e => (e.1, flags_of_perm perm)) <$> entry ms k else entry ms k) /\
     (forall va, user_va va -> vs_is_mapped va ms' = vs_is_mapped va ms) /\
     (forall va, user_va va -> vs_is_writable va ms' =
        if decide (in_range va r) then VmPerm.contains perm VmPerm.W
        else vs_is_writable va ms)) /\
  ((exists i, a <= i < a + Z.of_nat n /\ entry ms (i * PAGE_SIZE) = None) ->
   exists ms', vs_protect r perm ms = (Panic, ms')).
Proof.
  intros Hok Ha Hmax r. pose proof (flags_of_perm_valid perm) as Hfl.
  assert (Heq : vs_protect r perm ms =
    sfor (zrange a (a + Z.of_nat n)) (fun i => ms_protect (i * PAGE_SIZE) (flags_of_perm perm)) ms).
  { unfold vs_protect, r, sbind, slift. cbn [r_start r_end]. unfold PAGE_SIZE.
    by rewrite !Z.mod_mul, !Z.div_mul by lia. }
  rewrite Heq. split.
  - intros Hall. destruct (protect_pages_spec n a (flags_of_perm perm) ms)
      as (ms' & -> & Hok' & _ & Hent); [done..|].
    exists ms'. split_and!; [done|done|done| |]; intros va Hva;
      destruct (queries_spec ms va Hok Hva) as [Hm Hw];
      destruct (queries_spec ms' va Hok' Hva) as [Hm' Hw'].
    + rewrite Hm, Hm', Hent. apply bool_decide_ext. case_decide; [|done]. by rewrite fmap_is_Some.
    + rewrite Hw, Hw', Hent.
      assert (Hpage : a * PAGE_SIZE <= page_of va < (a + Z.of_nat n) * PAGE_SIZE <-> in_range va r).
      { unfold page_of, vpn, in_range, r, PAGE_SIZE. cbn [r_start r_end].
        pose proof (Z.div_mod va 4096 ltac:(lia)). pose proof (Z.mod_pos_bound va 4096 ltac:(lia)). lia. }
      destruct (decide (in_range va r)) as [Hin|Hin]; [rewrite decide_True by tauto|by rewrite decide_False by tauto].
      destruct (Hall (vpn va)) as [[f old] He]; [apply Hpage in Hin; unfold page_of, PAGE_SIZE in Hin; lia|].
      fold (page_of va) in He. rewrite He. cbn. apply flags_of_perm_writable.
  - intros (i & Hi & He). by apply (protect_pages_gap n a _ ms i).
Qed.

Lemma ms_new_ok p :
  ok p -> (forall n, user_page n -> view p n = None) ->
  ms_ok (ms_new p) /\ forall k, entry (ms_new p) k = None.
Proof.
  intros Hok Hv. split; [|done]. constructor; [done|constructor|by intros k a ?%elem_of_nil|].
  intros n Hn. by rewrite Hv.
Qed.

(** C38: [VmSpace::deep_copy] into a fresh page table gives an address space
    with the same frame and flags at every page, and [clear] leaves one with no
    page mapped; both keep the areas and the page table in agreement. *)
Theorem vmspace_copy_clear ms (fresh : PT) :
  ms_ok ms -> ok fresh -> (forall n, user_page n -> view fresh n = None) ->
  (3 * length (areas ms) <= room fresh)%nat ->
  (exists ms', vs_deep_copy fresh ms = (Ok tt, ms') /\ ms_ok ms' /\
     forall k, entry ms' k = entry ms k) /\
  (exists ms', vs_clear ms = (Ok tt, ms') /\ ms_ok ms' /\
     (forall k, entry ms' k = None) /\ forall va, user_va va -> vs_is_mapped va ms' = false).
Proof.
  intros Hok Hfresh Hv Hroom. destruct (ms_new_ok fresh Hfresh Hv) as [Hnew Hnone]. split.
  - destruct (map_areas_spec (areas ms) (ms_new fresh) Hnew (ms_sorted _ Hok) (ms_areas _ Hok) Hroom)
      as (ms' & Hrun & Hok' & Hent); [done|].
    exists ms'. split_and!; [done|done|]. intros k. rewrite Hent. fold (entry ms k).
    by destruct (entry ms k).
  - destruct (unmap_areas_spec (areas ms) ms (ms_pt _ Hok) (ms_sorted _ Hok) (ms_areas _ Hok))
      as (p' & Hrun & Hok' & Hv').
    { intros k [[f fl] He]. fold (entry ms k) in He.
      destruct (entry_some _ _ _ _ Hok He) as (_ & Hk & _).
      by rewrite (agree_page _ _ Hok Hk), He. }
    destruct (ms_new_ok p' Hok') as [Hok1 Hnone1].
    { intros n Hn. rewrite Hv' by done. rewrite (ms_agree _ Hok n Hn).
      change (entry ms (n * PAGE_SIZE)) with (entries (areas ms) (n * PAGE_SIZE)).
      by destruct (entries (areas ms) (n * PAGE_SIZE)). }
    exists (ms_new p'). split_and!; [|done|done|].
    + unfold vs_clear, ms_clear, sbind, sget, sput. by rewrite Hrun.
    + intros va Hva. destruct (queries_spec _ _ Hok1 Hva) as [-> _]. by rewrite Hnone1.
Qed.

(** C32: what is written through a [VmSpace] to writable user pages backed by
    distinct frames is read back from the same address, whatever page
    boundaries the access crosses.  A write that touches a page that is not
    mapped or is mapped without write permission, and a read that touches a
    page that is not mapped, returns [PageFault]. *)
Theorem vmspace_io_roundtrip ms (frames : list VmFrame) (addr : Z) (src dst : slice) (mem : memory) :
  ms_ok ms -> 0 <= addr -> 0 < sl_len src -> sl_len dst = sl_len src ->
  (backed writable_flags (areas ms) (page_of addr) frames -> NoDup (frame_index <$> frames) ->
   addr - page_of addr + sl_len src <= PAGE_SIZE * Z.of_nat (length frames) ->
   sep (sl_ptr src) (sl_len src) frames -> sep (sl_ptr dst) (sl_len dst) frames ->
   exists mem1 mem2,
     ms_write_bytes ms addr src mem = (Ok tt, mem1) /\
     ms_read_bytes ms addr dst mem1 = (Ok tt, mem2) /\
     slice_bytes mem2 dst = slice_bytes mem src) /\
  (faulty writable_flags (areas ms) addr (sl_len src) ->
   exists mem', ms_write_bytes ms addr src mem = (Err PageFault, mem')) /\
  (faulty (fun _ => true) (areas ms) addr (sl_len dst) ->
   exists mem', ms_read_bytes ms addr dst mem = (Err PageFault, mem')).
Proof.
  intros Hok Haddr Hlen Heq. split_and!.
  - intros Hb Hnd Hfit Hs Hd.
    assert (Hpage : page_of addr <= addr < page_of addr + PAGE_SIZE).
    { unfold page_of, vpn, PAGE_SIZE. pose proof (Z.div_mod addr 4096 ltac:(lia)).
      pose proof (Z.mod_pos_bound addr 4096 ltac:(lia)). lia. }
    assert (Hal : page_of addr mod PAGE_SIZE = 0) by by apply Z.mod_mul.
    assert (Hfs : Forall frame_ok frames).
    { apply Forall_lookup. intros i f Hi. destruct (Hb i f Hi) as (fl & He & _).
      apply mappable_ok. by destruct (entry_some ms _ f fl Hok He) as (_ & _ & Hf & _). }
    assert (Hrb : backed (fun _ => true) (areas ms) (page_of addr) frames)
      by (intros i f Hi; destruct (Hb i f Hi) as (fl & He & _); by exists fl).
    destruct (fv_write_loop_ok frames (addr - page_of addr) (sl_ptr src) (sl_ptr src + sl_len src) mem)
      as (mem1 & Hw & Hin1 & _); rewrite ?Z.add_simpl_l in *; [done|lia|lia|by left|done|].
    destruct (fv_read_loop_ok frames (addr - page_of addr) (sl_ptr dst) (sl_ptr dst + sl_len dst) mem1)
      as (mem2 & Hr & Hin2 & _); rewrite ?Z.add_simpl_l in *; [done|lia|lia|left; lia|done|].
    exists mem1, mem2. split_and!.
    + unfold ms_write_bytes. rewrite (write_bytes_vec _ frames (page_of addr));
        try done; try lia; [|apply (ms_sorted _ Hok)|apply (ms_areas _ Hok)]. by rewrite Z.add_0_r.
    + unfold ms_read_bytes. rewrite (read_bytes_vec _ frames (page_of addr));
        try done; try lia; [|apply (ms_sorted _ Hok)|apply (ms_areas _ Hok)]. by rewrite Z.add_0_r.
    + unfold slice_bytes. rewrite Heq. apply mem_bytes_ext. intros k Hk.
      rewrite Hin2 by lia. apply Hin1. lia.
  - intros Hf. apply write_bytes_fault; [apply (ms_sorted _ Hok)|apply (ms_areas _ Hok)|lia..|done].
  - intros Hf. apply read_bytes_fault; [apply (ms_sorted _ Hok)|apply (ms_areas _ Hok)|lia..|done].
Qed.
End Contract.

(** * Instances: an address space on the radix page table *)

(** Frames for the tables, and a page table on them. *)
Definition demo_frames : list Z := (fun i => i * 4096) <$> seqZ 2 12.

Definition demo_pt : PageTable :=
  match pt_new 4 ∅ (4096 :: demo_frames) with Ok s => s | _ => MkPageTable 0 [] 0 ∅ [] end.

Lemma demo_pt_ok :
  radix_ok demo_pt /\ radix_room demo_pt = 12%nat /\
  forall n, user_page n -> radix_view demo_pt n = None.
Proof.
  destruct (pt_new_ok ∅ 4096 demo_frames) as (s & Hs & Hok & Hroom & Hv).
  - apply (bool_decide_unpack _). vm_compute. exact I.
  - apply Forall_forall. repeat constructor; vm_compute; done.
  - unfold demo_pt. rewrite Hs. done.
Qed.

Definition demo_ms : MemorySet PageTable := ms_new demo_pt.

Lemma demo_ms_ok : ms_ok (ok := radix_ok) (view := radix_view) demo_ms.
Proof. destruct demo_pt_ok as (Hok & _ & Hv). by apply ms_new_ok. Qed.

(** Two pages at 0x5000, mapped read-write. *)
Definition demo_options : VmMapOptions := mo_set_addr (Some 0x5000) (mo_set_perm VmPerm.RW mo_new).

Definition demo_mapped : MemorySet PageTable := (vs_map [100; 101] demo_options demo_ms).2.

Lemma vmspace_map_spec_witness :
  exists ms', vs_map [100; 101] demo_options demo_ms = (Ok 0x5000, ms') /\
    entry ms' 0x6000 = Some (101, 9223372036854775815).
Proof.
  destruct (vmspace_map_spec (laws := radix_laws) demo_ms [100; 101] demo_options) as [Hmap _].
  - apply demo_ms_ok.
  - repeat constructor; vm_compute; done.
  - change (pt demo_ms) with demo_pt. rewrite (proj1 (proj2 demo_pt_ok)). simpl. lia.
  - split; [done|]. split; [lia|vm_compute; done].
  - destruct Hmap as (ms' & Hrun & _ & Hent); [intros i _; done|].
    exists ms'. split; [exact Hrun|]. by rewrite Hent.
Defined.

Lemma demo_mapped_ok : ms_ok (ok := radix_ok) (view := radix_view) demo_mapped.
Proof.
  destruct (vs_map_clear (laws := radix_laws) demo_ms [100; 101] demo_options 0x5000)
    as (ms' & Hrun & Hok & _).
  - apply demo_ms_ok.
  - repeat constructor; vm_compute; done.
  - change (pt demo_ms) with demo_pt. rewrite (proj1 (proj2 demo_pt_ok)). simpl. lia.
  - done.
  - split; [done|]. split; [lia|vm_compute; done].
  - intros i _; done.
  - unfold demo_mapped. by rewrite Hrun.
Qed.

Lemma vmspace_unmap_spec_witness :
  exists (j : nat) ms', (j <= 4)%nat /\
    vs_unmap (Range 0x5000 0x9000) demo_mapped =
      (if decide (j = 4%nat) then Ok tt else Err PageFault, ms') /\
    ((j < 4)%nat -> entry demo_mapped (0x5000 + Z.of_nat j * PAGE_SIZE) = None).
Proof.
  destruct (vmspace_unmap_spec (laws := radix_laws) demo_mapped 0x5000 4 demo_mapped_ok
    ltac:(done) ltac:(lia) ltac:(vm_compute; done))
    as (j & ms' & Hj & Hrun & _ & Hgap & _).
  exists j, ms'. split_and!; [exact Hj|exact Hrun|exact Hgap].
Defined.

Lemma vmspace_protect_spec_witness :
  exists ms', vs_protect (Range 0x5000 0x6000) VmPerm.R demo_mapped = (Ok tt, ms') /\
    vs_is_writable 0x5008 ms' = false /\ vs_is_writable 0x6008 ms' = vs_is_writable 0x6008 demo_mapped.
Proof.
  destruct (vmspace_protect_spec (laws := radix_laws) demo_mapped 5 1 VmPerm.R demo_mapped_ok
    ltac:(lia) ltac:(vm_compute; done)) as [Hp _].
  destruct Hp as (ms' & Hrun & _ & _ & _ & Hw).
  - intros i Hi. assert (i = 5) as -> by lia. vm_compute. by eexists.
  - exists ms'. split; [exact Hrun|]. split; rewrite Hw by (split; vm_compute; done); reflexivity.
Defined.

Lemma vmspace_copy_clear_witness :
  (exists ms', vs_deep_copy demo_pt demo_mapped = (Ok tt, ms') /\ entry ms' 0x6000 = Some (101, 9223372036854775815)) /\
  exists ms', vs_clear demo_mapped = (Ok tt, ms') /\ vs_is_mapped 0x6000 ms' = false.
Proof.
  destruct demo_pt_ok as (Hok & Hroom & Hv).
  destruct (vmspace_copy_clear (laws := radix_laws) demo_mapped demo_pt demo_mapped_ok Hok Hv) as [Hcopy Hclear].
  - rewrite Hroom. vm_compute. lia.
  - destruct Hcopy as (ms1 & Hrun1 & _ & Hent), Hclear as (ms2 & Hrun2 & _ & _ & Hm). split.
    + exists ms1. split; [exact Hrun1|]. rewrite Hent. vm_compute. reflexivity.
    + exists ms2. split; [exact Hrun2|]. apply Hm. split; vm_compute; done.
Defined.

Lemma vmspace_io_roundtrip_witness :
  exists mem1 mem2,
    ms_write_bytes demo_mapped 0x5ffe (Slice 0 4) (mem_store 0 [7; 8; 9; 10] ∅) = (Ok tt, mem1) /\
    ms_read_bytes demo_mapped 0x5ffe (Slice 64 4) mem1 = (Ok tt, mem2) /\
    slice_bytes mem2 (Slice 64 4) = [7; 8; 9; 10].
Proof.
  destruct (vmspace_io_roundtrip demo_mapped [100; 101] 0x5ffe (Slice 0 4)
    (Slice 64 4) (mem_store 0 [7; 8; 9; 10] ∅) demo_mapped_ok ltac:(lia) ltac:(done) eq_refl)
    as [Hio _].
  assert (Hsep : forall p, 0 <= p <= 100 -> sep p 4 [100; 101]).
  { intros p Hp f a Hf Ha. apply elem_of_cons in Hf as [->|Hf%list_elem_of_singleton]; subst;
      unfold frame_ptr, frame_index, NEED_DEALLOC, PAGE_SIZE; simpl Z.ldiff; lia. }
  destruct Hio as (mem1 & mem2 & Hw & Hr & Hb).
  - intros [|[|i]] f Hf; [injection Hf as <-|injection Hf as <-|done];
      eexists; split; vm_compute; reflexivity.
  - apply (bool_decide_unpack _). vm_compute. exact I.
  - vm_compute. done.
  - apply (Hsep 0). lia.
  - apply (Hsep 64). lia.
  - exists mem1, mem2. split_and!; [exact Hw|exact Hr|]. rewrite Hb. vm_compute. reflexivity.
Defined.

(** [is_executable] answers [true] for a page that is not mapped, once the
    last-level table of the page exists: here for a page mapped without execute
    permission and then unmapped. *)
Lemma is_executable_unmapped :
  let mapped := vs_map [100; 101] demo_options demo_ms in
  let unmapped := vs_unmap (Range 0x5000 0x7000) mapped.2 in
  mapped.1 = Ok 0x5000 /\ vs_is_mapped 0x5000 mapped.2 = true /\
  vs_is_executable 0x5000 mapped.2 = false /\
  unmapped.1 = Ok tt /\ vs_is_mapped 0x5000 unmapped.2 = false /\
  vs_is_executable 0x5000 unmapped.2 = true.
Proof. split_and!; vm_compute; reflexivity. Qed.
