(* ===== verification/Perms.v ===== *)
(** Error numbers, access rights and memory permissions
    (kernel/aster-nix/src/error.rs, kernel/libs/aster-rights/src/lib.rs and
    kernel/aster-nix/src/vm/perms.rs), and the rights of VMO and VMAR
    capabilities. *)

From S2P Require Import Prelude Frame MemorySet.

(** * Error numbers (error.rs); the message of an [Error] is left out. *)

Inductive Errno : Type :=
  | EPERM | ENOENT | ESRCH | EINTR | EIO | ENXIO | E2BIG | ENOEXEC | EBADF | ECHILD | EAGAIN
  | ENOMEM | EACCES | EFAULT | ENOTBLK | EBUSY | EEXIST | EXDEV | ENODEV | ENOTDIR | EISDIR
  | EINVAL | ENFILE | EMFILE | ENOTTY | ETXTBSY | EFBIG | ENOSPC | ESPIPE | EROFS | EMLINK
  | EPIPE | EDOM | ERANGE | EDEADLK | ENAMETOOLONG | ENOLCK | ENOSYS | ENOTEMPTY | ELOOP
  | ENOMSG | EIDRM | ECHRNG | EL2NSYNC | EL3HLT | EL3RST | ELNRNG | EUNATCH | ENOCSI | EL2HLT
  | EBADE | EBADR | EXFULL | ENOANO | EBADRQC | EBADSLT | EBFONT | ENOSTR | ENODATA | ETIME
  | ENOSR | ENONET | ENOPKG | EREMOTE | ENOLINK | EADV | ESRMNT | ECOMM | EPROTO | EMULTIHOP
  | EDOTDOT | EBADMSG | EOVERFLOW | ENOTUNIQ | EBADFD | EREMCHG | ELIBACC | ELIBBAD | ELIBSCN
  | ELIBMAX | ELIBEXEC | EILSEQ | ERESTART | ESTRPIPE | EUSERS | ENOTSOCK | EDESTADDRREQ
  | EMSGSIZE | EPROTOTYPE | ENOPROTOOPT | EPROTONOSUPPORT | ESOCKTNOSUPPORT | EOPNOTSUPP
  | EPFNOSUPPORT | EAFNOSUPPORT | EADDRINUSE | EADDRNOTAVAIL | ENETDOWN | ENETUNREACH
  | ENETRESET | ECONNABORTED | ECONNRESET | ENOBUFS | EISCONN | ENOTCONN | ESHUTDOWN
  | ETOOMANYREFS | ETIMEDOUT | ECONNREFUSED | EHOSTDOWN | EHOSTUNREACH | EALREADY | EINPROGRESS
  | ESTALE | EUCLEAN | ENOTNAM | ENAVAIL | EISNAM | EREMOTEIO | EDQUOT | ENOMEDIUM
  | EMEDIUMTYPE | ECANCELED | ENOKEY | EKEYEXPIRED | EKEYREVOKED | EKEYREJECTED | EOWNERDEAD
  | ENOTRECOVERABLE | ERFKILL | EHWPOISON.

#[export] Instance Errno_eq_dec : EqDecision Errno.
Proof. solve_decision. Defined.


(** [impl From<aster_frame::Error> for Error] *)
Definition errno_of_frame (e : Error) : Errno :=
  match e with
  | AccessDenied => EFAULT
  | NoMemory => ENOMEM
  | InvalidArgs => EINVAL
  | IoError => EIO
  | NotEnoughResources => EBUSY
  | PageFault => EFAULT
  | Overflow => EOVERFLOW
  end.

(** [impl From<Error> for aster_frame::Error] *)
Definition frame_of_errno (e : Errno) : Error :=
  match e with
  | EACCES => AccessDenied
  | EIO => IoError
  | ENOMEM => NoMemory
  | EFAULT => PageFault
  | EINVAL => InvalidArgs
  | EBUSY => NotEnoughResources
  | _ => InvalidArgs
  end.

(** * Flag sets as words *)

Definition has (self other : Z) : bool := Z.land self other =? other.

(** [aster_rights::Rights] *)
Module Rights.
Notation DUP := 1%Z (only parsing).
Notation READ := 2%Z (only parsing).
Notation WRITE := 4%Z (only parsing).
Notation EXEC := 8%Z (only parsing).
Notation SIGNAL := 128%Z (only parsing).
Definition all : Z := Z.lor (Z.lor (Z.lor (Z.lor DUP READ) WRITE) EXEC) SIGNAL.
End Rights.

(** [VmPerms] (vm/perms.rs) *)
Module VmPerms.
Notation READ := 1%Z (only parsing).
Notation WRITE := 2%Z (only parsing).
Notation EXEC := 4%Z (only parsing).
End VmPerms.

Definition add_if (b : bool) (bit acc : Z) : Z := if b then Z.lor acc bit else acc.

(** The four conversions of perms.rs. *)
Definition perms_of_rights (rights : Z) : Z :=
  add_if (has rights Rights.EXEC) VmPerms.EXEC
    (add_if (has rights Rights.WRITE) VmPerms.WRITE
       (add_if (has rights Rights.READ) VmPerms.READ 0)).

Definition rights_of_perms (perms : Z) : Z :=
  add_if (has perms VmPerms.EXEC) Rights.EXEC
    (add_if (has perms VmPerms.WRITE) Rights.WRITE
       (add_if (has perms VmPerms.READ) Rights.READ 0)).

Definition perms_of_vmperm (perm : Z) : Z :=
  add_if (VmPerm.contains perm VmPerm.X) VmPerms.EXEC
    (add_if (VmPerm.contains perm VmPerm.W) VmPerms.WRITE
       (add_if (VmPerm.contains perm VmPerm.R) VmPerms.READ 0)).

Definition vmperm_of_perms (perms : Z) : Z :=
  add_if (has perms VmPerms.EXEC) VmPerm.X
    (add_if (has perms VmPerms.WRITE) VmPerm.W
       (add_if (has perms VmPerms.READ) VmPerm.R 0)).

(** * Capabilities: an object and the rights of the handle *)

Record cap (A : Type) : Type := Cap { cap_obj : A; cap_rights : Z }.
Arguments Cap {A} _ _.
Arguments cap_obj {A} _.
Arguments cap_rights {A} _.

(** [VmoRightsOp::check_rights] and [VmarRightsOp::check_rights] *)
Definition vmo_check_rights {A} (self : cap A) (rights : Z) : outcome Errno unit :=
  if has (cap_rights self) rights then Ok tt else Err EINVAL.
Definition vmar_check_rights {A} (self : cap A) (rights : Z) : outcome Errno unit :=
  if has (cap_rights self) rights then Ok tt else Err EACCES.

(** [Vmo<Rights>::dup], [restrict] and [to_dyn] (vmo/dyn_cap.rs) *)
Notation vmo_dup self := (let? _ := vmo_check_rights self Rights.DUP in
  Ok (Cap (cap_obj self) (cap_rights self))) (only parsing).
Notation vmo_restrict self mask := (Cap (cap_obj self) (Z.lor (cap_rights self) mask)) (only parsing).
Notation vmo_to_dyn self := (Cap (cap_obj self) (cap_rights self)) (only parsing).


(** * Facts *)

Lemma perms_cases (P : Z -> Prop) :
  P 0 -> P 1 -> P 2 -> P 3 -> P 4 -> P 5 -> P 6 -> P 7 -> forall perms, 0 <= perms < 8 -> P perms.
Proof.
  intros H0 H1 H2 H3 H4 H5 H6 H7 perms Hp.
  assert (perms = 0 \/ perms = 1 \/ perms = 2 \/ perms = 3 \/ perms = 4 \/ perms = 5 \/
          perms = 6 \/ perms = 7) by lia. naive_solver.
Qed.

Lemma has_bit rights (b : nat) : has rights (2 ^ Z.of_nat b) = Z.testbit rights (Z.of_nat b).
Proof.
  unfold has. destruct (Z.testbit rights (Z.of_nat b)) eqn:Hb.
  - apply Z.eqb_eq, Z.bits_inj'. intros n Hn. rewrite Z.land_spec, Z.pow2_bits_eqb by lia.
    destruct (Z.eqb_spec (Z.of_nat b) n); [subst; by rewrite Hb|by rewrite andb_false_r].
  - apply Z.eqb_neq. intros Heq. apply (f_equal (fun z => Z.testbit z (Z.of_nat b))) in Heq.
    rewrite Z.land_spec, Hb, Z.pow2_bits_true in Heq by lia. done.
Qed.

Lemma has_lor rights a b : has rights (Z.lor a b) = has rights a && has rights b.
Proof.
  unfold has. rewrite Z.land_lor_distr_r.
  destruct (Z.eqb_spec (Z.land rights a) a) as [Ha|Ha], (Z.eqb_spec (Z.land rights b) b) as [Hb|Hb];
    simpl; [by rewrite Ha, Hb; apply Z.eqb_refl|..]; apply Z.eqb_neq; intros Heq;
    [apply Hb|apply Ha|apply Ha]; apply Z.bits_inj'; intros n Hn;
    apply (f_equal (fun z => Z.testbit z n)) in Heq;
    rewrite !Z.lor_spec, !Z.land_spec in Heq; rewrite Z.land_spec;
    destruct (Z.testbit rights n), (Z.testbit a n), (Z.testbit b n); done.
Qed.

(** Permissions survive the conversions to rights and to page permissions
    and back, and a permission set is allowed by a set of rights exactly when
    each of its bits is. *)
Lemma perms_roundtrip (perms rights : Z) :
  0 <= perms < 8 ->
  perms_of_rights (rights_of_perms perms) = perms /\
  perms_of_vmperm (vmperm_of_perms perms) = perms /\
  has rights (rights_of_perms perms) =
    (implb (has perms VmPerms.READ) (has rights Rights.READ) &&
     implb (has perms VmPerms.WRITE) (has rights Rights.WRITE) &&
     implb (has perms VmPerms.EXEC) (has rights Rights.EXEC)).
Proof.
  intros Hp. split_and!; [by revert perms Hp; apply perms_cases..|].
  change Rights.READ with (2 ^ Z.of_nat 1). change Rights.WRITE with (2 ^ Z.of_nat 2).
  change Rights.EXEC with (2 ^ Z.of_nat 3). rewrite !has_bit.
  revert perms Hp. apply perms_cases; unfold rights_of_perms, add_if; simpl has;
    change Rights.READ with (2 ^ Z.of_nat 1); change Rights.WRITE with (2 ^ Z.of_nat 2);
    change Rights.EXEC with (2 ^ Z.of_nat 3); cbn -[has Z.pow Z.of_nat];
    rewrite ?has_lor, ?has_bit; unfold has; rewrite ?Z.land_0_r; cbn -[Z.of_nat];
    rewrite ?andb_true_r; done.
Qed.

(** [Vmo::restrict] keeps every right of the handle and adds those of the
    mask: after "restricting" to a mask, a check for the mask's rights succeeds
    whatever the handle allowed before. *)
Lemma vmo_restrict_escalates (A : Type) (self : cap A) (mask : Z) :
  vmo_check_rights (vmo_restrict self mask) mask = Ok tt /\
  forall r, vmo_check_rights self r = Ok tt -> vmo_check_rights (vmo_restrict self mask) r = Ok tt.
Proof.
  assert (Habs : forall r m, has (Z.lor r m) m = true).
  { intros r m. unfold has. apply Z.eqb_eq, Z.bits_inj'. intros n Hn.
    rewrite Z.land_spec, Z.lor_spec. by destruct (Z.testbit r n), (Z.testbit m n). }
  unfold vmo_check_rights. cbn [cap_rights]. split; [by rewrite Habs|].
  intros r. destruct (has (cap_rights self) r) eqn:Hr; [intros _|done].
  assert (has (Z.lor (cap_rights self) mask) r = true) as ->; [|done].
  unfold has in *. apply Z.eqb_eq in Hr. apply Z.eqb_eq, Z.bits_inj'. intros n Hn.
  apply (f_equal (fun z => Z.testbit z n)) in Hr. rewrite Z.land_spec in *. rewrite Z.lor_spec.
  by destruct (Z.testbit (cap_rights self) n), (Z.testbit mask n), (Z.testbit r n).
Qed.
