(* ===== verification/VmMapping.v ===== *)
(** The mapping of a VMO into a VMAR
    (kernel/aster-nix/src/vm/vmar/vm_mapping.rs).  The VMO behind a mapping is
    any implementation of [VmoOps]; the page table of the address space any
    implementation of [PtOps]. *)

From S2P Require Import Prelude BTree AlignExt Interval Frame PageTable PtInterface MemorySet Perms.

(** * What a mapping asks of its VMO *)

(** [VS] is the state all VMOs live in, [V] the type of VMO objects
    ([Arc<Vmo_>]). *)
Class VmoOps (VS V : Type) : Type := {
  vmo_size : VS -> V -> Z;
  vmo_is_cow : VS -> V -> bool;
  vmo_get_committed_frame : V -> Z -> bool -> stM VS Errno VmFrame;
  (* [VmoChildOptions::new_cow(vmo, range).alloc()] *)
  vmo_new_cow_child : cap V -> range -> stM VS Errno (cap V);
  vmo_read_bytes : cap V -> Z -> slice -> stM VS Error unit;
  vmo_write_bytes : cap V -> Z -> slice -> stM VS Error unit;
}.

(** [get_page_idx_range] (vmo/mod.rs) *)
Definition get_page_idx_range {E} (r : range) : outcome E range :=
  let? s := align_down 64 (r_start r) PAGE_SIZE in
  let? e := align_up 64 (r_end r) PAGE_SIZE in
  Ok (Range (s / PAGE_SIZE) (e / PAGE_SIZE)).

Section Mapping.
Context {PT : Type} {ops : PtOps PT} {VS V : Type} {vops : VmoOps VS V}.

(** The address space and the VMOs a mapping works on. *)
Record world : Type := MkWorld { w_space : MemorySet PT; w_vmos : VS }.

(** [VmMapping] and its [VmMappingInner]; [mapped_pages] is a [BTreeSet]. *)
Record VmMapping : Type := MkVmMapping {
  vmo_offset : Z;
  map_size : Z;
  map_to_addr : Z;
  is_destroyed : bool;
  mapped_pages : list (Z * unit);
  perm : Z;
  vmo : cap V;
}.

Definition set_is_destroyed (b : bool) (m : VmMapping) : VmMapping :=
  MkVmMapping (vmo_offset m) (map_size m) (map_to_addr m) b (mapped_pages m) (perm m) (vmo m).
Definition set_mapped_pages (l : list (Z * unit)) (m : VmMapping) : VmMapping :=
  MkVmMapping (vmo_offset m) (map_size m) (map_to_addr m) (is_destroyed m) l (perm m) (vmo m).
Definition set_perm (p : Z) (m : VmMapping) : VmMapping :=
  MkVmMapping (vmo_offset m) (map_size m) (map_to_addr m) (is_destroyed m) (mapped_pages m) p (vmo m).
Definition set_extent (off size addr : Z) (m : VmMapping) : VmMapping :=
  MkVmMapping off size addr (is_destroyed m) (mapped_pages m) (perm m) (vmo m).

(** A mapping operation: the mapping is changed in place. *)
Definition mapM (A : Type) : Type := stM (VmMapping * world) Errno A.

Definition self_ : mapM VmMapping := fun s => (Ok s.1, s).
Definition modify (f : VmMapping -> VmMapping) : mapM unit := fun s => (Ok tt, (f s.1, s.2)).
Definition pure_ {A} (o : outcome Errno A) : mapM A := slift o.

(** A [VmSpace] operation; its error is converted by [?]. *)
Definition map_err {A} (o : outcome Error A) : outcome Errno A :=
  match o with
  | Ok a => Ok a
  | Err e => Err (errno_of_frame e)
  | Panic => Panic
  end.
Definition on_space {A} (m : stM (MemorySet PT) Error A) : mapM A := fun s =>
  let r := m (w_space s.2) in (map_err r.1, (s.1, MkWorld r.2 (w_vmos s.2))).
Definition ask_space {A} (f : MemorySet PT -> A) : mapM A := fun s => (Ok (f (w_space s.2)), s).

(** A VMO operation. *)
Definition on_vmos {A} (m : stM VS Errno A) : mapM A := fun s =>
  let r := m (w_vmos s.2) in (r.1, (s.1, MkWorld (w_space s.2) r.2)).
Definition on_vmos_frame {A} (m : stM VS Error A) : mapM A := fun s =>
  let r := m (w_vmos s.2) in (map_err r.1, (s.1, MkWorld (w_space s.2) r.2)).
Definition ask_vmos {A} (f : VS -> A) : mapM A := fun s => (Ok (f (w_vmos s.2)), s).

(** [.unwrap()] and [let _ =] on a call. *)
Definition unwrap {A} (m : mapM A) : mapM A := fun s =>
  match m s with (Err _, s') => (Panic, s') | r => r end.
Definition ignore {A} (m : mapM A) : mapM unit := fun s =>
  match m s with (Panic, s') => (Panic, s') | (_, s') => (Ok tt, s') end.

(** * [impl VmMappingInner] *)

Definition mapping_range (self : VmMapping) : outcome Errno range :=
  let? e := uadd (map_to_addr self) (map_size self) in Ok (Range (map_to_addr self) e).

(** [page_idx * PAGE_SIZE + self.map_to_addr - self.vmo_offset] *)
Definition page_map_addr (self : VmMapping) (page_idx : Z) : outcome Errno Z :=
  let? a := umul page_idx PAGE_SIZE in
  let? b := uadd a (map_to_addr self) in
  usub b (vmo_offset self).

(** [map_addr..map_addr + PAGE_SIZE] *)
Definition page_range (map_addr : Z) : outcome Errno range :=
  let? e := uadd map_addr PAGE_SIZE in Ok (Range map_addr e).

Definition map_one_page (page_idx : Z) (frame : VmFrame) (is_readonly : bool) : mapM unit :=
  let! self := self_ in
  let! map_addr := pure_ (page_map_addr self page_idx) in
  let! is_cow := ask_vmos (fun vs => vmo_is_cow vs (cap_obj (vmo self))) in
  let! _ := pure_ (oassert (implb is_readonly is_cow)) in
  let vm_perm := if is_readonly then VmPerm.difference (perm self) VmPerm.W else perm self in
  let vm_map_options := mo_set_perm vm_perm (mo_set_addr (Some map_addr) mo_new) in
  let! mapped := ask_space (vs_is_mapped map_addr) in
  let! _ :=
    (if is_cow && mapped then
       let! r := pure_ (page_range map_addr) in
       unwrap (on_space (vs_unmap r))
     else sret tt) in
  let! _ := on_space (vs_map (from_one_frame frame) vm_map_options) in
  modify (fun m => set_mapped_pages (bt_insert page_idx tt (mapped_pages m)) m).

Definition unmap_one_page (page_idx : Z) : mapM unit :=
  let! self := self_ in
  let! map_addr := pure_ (page_map_addr self page_idx) in
  let! r := pure_ (page_range map_addr) in
  let! mapped := ask_space (vs_is_mapped map_addr) in
  let! _ := (if mapped : bool then on_space (vs_unmap r) else sret tt) in
  modify (fun m => set_mapped_pages (bt_remove page_idx (mapped_pages m)) m).

(** [VmMappingInner::unmap] *)
Definition mapping_unmap (r : range) (may_destroy : bool) : mapM unit :=
  let! self := self_ in
  let! s := pure_ (usub (r_start r) (map_to_addr self)) in
  let! s := pure_ (uadd s (vmo_offset self)) in
  let! e := pure_ (usub (r_end r) (map_to_addr self)) in
  let! e := pure_ (uadd e (vmo_offset self)) in
  let! page_idx_range := pure_ (get_page_idx_range (Range s e)) in
  let! _ := sfor (zrange (r_start page_idx_range) (r_end page_idx_range)) unmap_one_page in
  let! self := self_ in
  let! full := (if may_destroy then pure_ (mapping_range self) else sret (Range 0 0)) in
  if may_destroy && bool_decide (r = full) then modify (set_is_destroyed false) else sret tt.

(** [VmMappingInner::protect] *)
Definition mapping_protect_pages (perms : Z) (r : range) : mapM unit :=
  let! _ := pure_ (oassert (r_start r mod PAGE_SIZE =? 0)) in
  let! _ := pure_ (oassert (r_end r mod PAGE_SIZE =? 0)) in
  let! self := self_ in
  let! s := pure_ (usub (r_start r) (map_to_addr self)) in
  let! s := pure_ (uadd s (vmo_offset self)) in
  let! e := pure_ (usub (r_end r) (map_to_addr self)) in
  let! e := pure_ (uadd e (vmo_offset self)) in
  sfor (zrange (s / PAGE_SIZE) (e / PAGE_SIZE)) (fun page_idx =>
    let! page_addr := pure_ (page_map_addr self page_idx) in
    let! mapped := ask_space (vs_is_mapped page_addr) in
    if mapped : bool then
      let! pr := pure_ (page_range page_addr) in
      on_space (vs_protect pr (vmperm_of_perms perms))
    else sret tt).

(** [vaddr >= self.map_to_addr && vaddr <= self.map_to_addr + self.map_size] *)
Definition trim_guard (self : VmMapping) (vaddr : Z) : outcome Errno unit :=
  let? e := uadd (map_to_addr self) (map_size self) in
  let? _ := oassert ((map_to_addr self <=? vaddr) && (vaddr <=? e)) in
  oassert (vaddr mod PAGE_SIZE =? 0).

(** [VmMappingInner::trim_left] *)
Definition trim_left (vaddr : Z) : mapM Z :=
  let! self := self_ in
  let! _ := pure_ (trim_guard self vaddr) in
  let trim_size := vaddr - map_to_addr self in
  let old_vmo_offset := vmo_offset self in
  let! new_vmo_offset := pure_ (uadd old_vmo_offset trim_size) in
  let! new_size := pure_ (usub (map_size self) trim_size) in
  let! _ := modify (set_extent new_vmo_offset new_size vaddr) in
  let! _ := sfor (zrange (old_vmo_offset / PAGE_SIZE) (new_vmo_offset / PAGE_SIZE))
    (fun page_idx =>
       let! m := self_ in
       let! _ := modify (fun m => set_mapped_pages (bt_remove page_idx (mapped_pages m)) m) in
       match bt_get page_idx (mapped_pages m) with
       | Some _ => ignore (unmap_one_page page_idx)
       | None => sret tt
       end) in
  sret vaddr.

(** [VmMappingInner::trim_right] *)
Definition trim_right (vaddr : Z) : mapM Z :=
  let! self := self_ in
  let! _ := pure_ (trim_guard self vaddr) in
  let! s := pure_ (uadd (vaddr - map_to_addr self) (vmo_offset self)) in
  let! e := pure_ (uadd (map_size self) (vmo_offset self)) in
  let! _ := sfor (zrange (s / PAGE_SIZE) (e / PAGE_SIZE))
              (fun page_idx => ignore (unmap_one_page page_idx)) in
  let! _ := modify (fun m => set_extent (vmo_offset m) (vaddr - map_to_addr m) (map_to_addr m) m) in
  sret (map_to_addr self).

(** [VmMappingInner::shrink_to] *)
Definition shrink_to (new_range : range) (self : VmMapping) : outcome Errno VmMapping :=
  let? _ := oassert (map_to_addr self <=? r_start new_range) in
  let? e := uadd (map_to_addr self) (map_size self) in
  let? _ := oassert (r_end new_range <=? e) in
  let? off := uadd (vmo_offset self) (r_start new_range - map_to_addr self) in
  let? size := usub (r_end new_range) (r_start new_range) in
  Ok (set_extent off size (r_start new_range) self).

(** [VmMappingInner::check_perm] *)
Definition check_perm (self : VmMapping) (page_idx p : Z) : outcome Errno unit :=
  let? a := umul page_idx PAGE_SIZE in
  let? outside :=
    (if a <? vmo_offset self then Ok true
     else
       let? n := uadd page_idx 1 in
       let? b := umul n PAGE_SIZE in
       let? e := uadd (vmo_offset self) (map_size self) in
       Ok (e <? b)) in
  if outside : bool then Err EINVAL
  else if VmPerm.contains (perm self) p then Ok tt else Err EACCES.

(** * [impl VmMapping] *)

(** [VmMapping::try_clone]: a copy with its own [inner]. *)
Definition try_clone (self : VmMapping) : outcome Errno VmMapping :=
  let? vmo' := vmo_dup (vmo self) in
  Ok (MkVmMapping (vmo_offset self) (map_size self) (map_to_addr self) (is_destroyed self)
        (mapped_pages self) (perm self) vmo').

(** [VmMapping::clone_partial] *)
Definition clone_partial (self : VmMapping) (r : range) (new_perm : option Z)
    : outcome Errno VmMapping :=
  let? partial_mapping := try_clone self in
  let? partial_mapping := shrink_to r partial_mapping in
  Ok (match new_perm with Some p => set_perm p partial_mapping | None => partial_mapping end).

(** [VmMapping::set_pt_read_only] *)
Definition mapping_set_pt_read_only : mapM unit :=
  let! self := self_ in
  if negb (VmPerm.contains (perm self) VmPerm.W) then sret tt
  else sfor (bt_keys (mapped_pages self)) (fun page_idx =>
    let! map_addr := pure_ (page_map_addr self page_idx) in
    let! r := pure_ (page_range map_addr) in
    on_space (vs_protect r (VmPerm.difference (perm self) VmPerm.W))).

(** [VmMapping::handle_page_fault] *)
Definition mapping_handle_page_fault (page_fault_addr : Z) (not_present write : bool) : mapM unit :=
  let! self := self_ in
  let! a := pure_ (uadd (vmo_offset self) page_fault_addr) in
  let! off := pure_ (usub a (map_to_addr self)) in
  let! size := ask_vmos (fun vs => vmo_size vs (cap_obj (vmo self))) in
  if size <=? off then serr EACCES
  else
    let page_idx := off / PAGE_SIZE in
    let! _ := pure_ (vmo_check_rights (vmo self) (if write then Rights.WRITE else Rights.READ)) in
    let! _ := pure_ (check_perm self page_idx (if write then VmPerm.W else VmPerm.R)) in
    let! frame := on_vmos (vmo_get_committed_frame (cap_obj (vmo self)) page_idx write) in
    let! is_cow := ask_vmos (fun vs => vmo_is_cow vs (cap_obj (vmo self))) in
    map_one_page page_idx frame (is_cow && negb write).

(** [VmMapping::read_bytes] *)
Definition mapping_read_bytes (offset : Z) (buf : slice) : mapM unit :=
  let! self := self_ in
  let! vmo_read_offset := pure_ (uadd (vmo_offset self) offset) in
  let! e := pure_ (uadd vmo_read_offset (sl_len buf)) in
  let! page_idx_range := pure_ (get_page_idx_range (Range vmo_read_offset e)) in
  let! _ := sfor (zrange (r_start page_idx_range) (r_end page_idx_range))
              (fun page_idx => pure_ (check_perm self page_idx VmPerm.R)) in
  on_vmos_frame (vmo_read_bytes (vmo self) vmo_read_offset buf).

(** The page loop of [VmMapping::write_bytes]. *)
Fixpoint write_fault_pages (pages : list Z) (page_addr : Z) : mapM unit :=
  match pages with
  | [] => sret tt
  | page_idx :: pages' =>
      let! self := self_ in
      let! _ := pure_ (check_perm self page_idx VmPerm.W) in
      let! need_page_fault :=
        ask_space (fun sp => vs_is_mapped page_addr sp && negb (vs_is_writable page_addr sp)) in
      let! _ := (if need_page_fault : bool
                 then mapping_handle_page_fault page_addr false true else sret tt) in
      let! next := pure_ (uadd page_addr PAGE_SIZE) in
      write_fault_pages pages' next
  end.

(** [VmMapping::write_bytes] *)
Definition mapping_write_bytes (offset : Z) (buf : slice) : mapM unit :=
  let! self := self_ in
  let! vmo_write_offset := pure_ (uadd (vmo_offset self) offset) in
  let! e := pure_ (uadd vmo_write_offset (sl_len buf)) in
  let! page_idx_range := pure_ (get_page_idx_range (Range vmo_write_offset e)) in
  let! a := pure_ (usub (map_to_addr self) (vmo_offset self)) in
  let! b := pure_ (umul (r_start page_idx_range) PAGE_SIZE) in
  let! page_addr := pure_ (uadd a b) in
  let! _ := write_fault_pages (zrange (r_start page_idx_range) (r_end page_idx_range)) page_addr in
  on_vmos_frame (vmo_write_bytes (vmo self) vmo_write_offset buf).

(** [VmMapping::new_cow]: the mapping of the child address space. *)
Definition mapping_new_cow (self : VmMapping) : mapM VmMapping :=
  let! parent_vmo := unwrap (pure_ (vmo_dup (vmo self))) in
  let! size := ask_vmos (fun vs => vmo_size vs (cap_obj parent_vmo)) in
  let! child_vmo := on_vmos (vmo_new_cow_child parent_vmo (Range 0 size)) in
  sret (MkVmMapping (vmo_offset self) (map_size self) (map_to_addr self) (is_destroyed self)
          [] (perm self) child_vmo).

End Mapping.
Arguments world : clear implicits.
Arguments VmMapping : clear implicits.
