(* ===== verification/VmMappingFacts.v ===== *)
(** What the operations of a [VmMapping] do to the address space and to the
    mapping's record of its pages. *)

From S2P Require Import Prelude BTree AlignExt Interval Frame FrameFacts PageTable PageTableFacts PtInterface MemorySet MemorySetFacts VmSpace Perms VmMapping.

Section MappingFacts.
Context {PT : Type} {ops : PtOps PT} {ok : PT -> Prop}
  {view : PT -> Z -> option (Z * Z)} {room : PT -> nat}.
Context {laws : PtLaws ops ok view room}.
Context {VS V : Type} {vops : VmoOps VS V}.
Notation ms_ok := (ms_ok (ok := ok) (view := view)).
Notation VmMapping := (VmMapping V).
Notation world := (world PT VS).
Notation mapM := (mapM (PT := PT) (VS := VS) (V := V)).
Implicit Types (m : VmMapping) (w : world).

(** ** Running a mapping operation *)

Lemma self_bind {B} (k : VmMapping -> mapM B) (s : VmMapping * world) : sbind self_ k s = k s.1 s.
Proof. done. Qed.
Lemma modify_bind {B} f (k : unit -> mapM B) (s : VmMapping * world) :
  sbind (modify f) k s = k tt (f s.1, s.2).
Proof. done. Qed.
Lemma ask_space_bind {A B} (f : MemorySet PT -> A) (k : A -> mapM B) (s : VmMapping * world) :
  sbind (ask_space f) k s = k (f (w_space s.2)) s.
Proof. done. Qed.
Lemma ask_vmos_bind {A B} (f : VS -> A) (k : A -> mapM B) (s : VmMapping * world) :
  sbind (ask_vmos f) k s = k (f (w_vmos s.2)) s.
Proof. done. Qed.
Lemma pure_bind {A B} (o : outcome Errno A) (k : A -> mapM B) s a :
  o = Ok a -> sbind (pure_ o) k s = k a s.
Proof. by intros ->. Qed.

(** ** Unmapping *)

(** From [w] to [w'] the addresses of [must] lose their page, those of [may]
    may lose it, and nothing else changes. *)
Record unmaps (must may : Z -> Prop) w w' : Prop := {
  um_ok : ms_ok (w_space w');
  um_vmos : w_vmos w' = w_vmos w;
  um_room : room (pt (w_space w')) = room (pt (w_space w));
  um_must : forall x, must x -> entry (w_space w') x = None;
  um_may : forall x, entry (w_space w') x = entry (w_space w) x \/
                     may x /\ entry (w_space w') x = None;
}.

Lemma unmaps_refl w (must may : Z -> Prop) :
  ms_ok (w_space w) -> (forall x, must x -> entry (w_space w) x = None) -> unmaps must may w w.
Proof. intros Hok Hm. constructor; auto. Qed.

Lemma unmaps_trans (must1 may1 must2 may2 : Z -> Prop) w1 w2 w3 :
  unmaps must1 may1 w1 w2 -> unmaps must2 may2 w2 w3 ->
  unmaps (fun x => must1 x \/ must2 x) (fun x => may1 x \/ may2 x) w1 w3.
Proof.
  intros [Hok1 Hv1 Hr1 Hmu1 Hma1] [Hok2 Hv2 Hr2 Hmu2 Hma2]. constructor; [done|congruence|congruence|..].
  - intros x [Hx|Hx]; [|by apply Hmu2]. destruct (Hma2 x) as [->|[_ ?]]; [by apply Hmu1|done].
  - intros x. destruct (Hma2 x) as [->|[? ->]]; [|by auto].
    destruct (Hma1 x) as [->|[? ->]]; auto.
Qed.

Lemma unmaps_weaken (must may must' may' : Z -> Prop) w w' :
  unmaps must may w w' -> (forall x, must' x -> must x \/ entry (w_space w) x = None) ->
  (forall x, may x -> may' x) -> unmaps must' may' w w'.
Proof.
  intros [Hok Hv Hr Hmu Hma] Hmust Hmay. constructor; [done|done|done|..].
  - intros x Hx. destruct (Hmust x Hx) as [?|He]; [by apply Hmu|].
    destruct (Hma x) as [->|[_ ?]]; done.
  - intros x. destruct (Hma x) as [?|[? ?]]; auto.
Qed.

Lemma unmaps_none must may w w' x :
  unmaps must may w w' -> entry (w_space w) x = None -> entry (w_space w') x = None.
Proof. intros [_ _ _ _ Hma] He. destruct (Hma x) as [->|[_ ?]]; done. Qed.

(** ** Pages of a mapping *)

(** The address of page [i] of the VMO. *)
Definition pg m (i : Z) : Z := i * PAGE_SIZE + map_to_addr m - vmo_offset m.

(** A page that lies in the user address space. *)
Definition pg_ok m (i : Z) : Prop :=
  0 <= vmo_offset m /\ i * PAGE_SIZE + map_to_addr m <= usize_max /\ i * PAGE_SIZE <= usize_max /\
  pg m i mod PAGE_SIZE = 0 /\ 0 <= pg m i /\ pg m i + PAGE_SIZE <= 2 ^ 47.

Definition mend m : Z := map_to_addr m + map_size m.

(** A mapping as the VMAR creates and keeps it. *)
Record mapping_ok m : Prop := {
  mo_addr_al : map_to_addr m mod PAGE_SIZE = 0;
  mo_size_al : map_size m mod PAGE_SIZE = 0;
  mo_off_al : vmo_offset m mod PAGE_SIZE = 0;
  mo_addr_pos : 0 <= map_to_addr m;
  mo_size_pos : 0 < map_size m;
  mo_end : mend m <= 2 ^ 47;
  mo_off_pos : 0 <= vmo_offset m;
  mo_off_max : vmo_offset m + map_size m <= 2 ^ 62;
  mo_alive : is_destroyed m = false;
  mo_dup : has (cap_rights (vmo m)) Rights.DUP = true;
}.

(** The pages present in the address space are recorded in [mapped_pages]. *)
Definition tracked m w : Prop :=
  forall i, map_to_addr m <= pg m i < mend m -> entry (w_space w) (pg m i) <> None ->
    is_Some (bt_get i (mapped_pages m)).

Lemma pg_set_pages m l i : pg (set_mapped_pages l m) i = pg m i.
Proof. done. Qed.

Lemma mod0 a : a mod PAGE_SIZE = 0 <-> exists q, a = q * PAGE_SIZE.
Proof.
  split; [intros H; exists (a / PAGE_SIZE); by apply aligned_div|intros [q ->]; by apply Z.mod_mul].
Qed.

Lemma pg_in_ok m i :
  mapping_ok m -> map_to_addr m <= pg m i < mend m -> pg_ok m i.
Proof.
  intros [Ha Hs Ho Hp Hsp He Hop Hom _ _] Hi. unfold pg_ok, pg, mend in *.
  apply mod0 in Ha as [qa Ha]. apply mod0 in Hs as [qs Hs]. apply mod0 in Ho as [qo Ho].
  rewrite Ha, Hs, Ho in *. unfold usize_max, PAGE_SIZE in *. split_and!; try lia.
  replace (i * 4096 + qa * 4096 - qo * 4096) with ((i + qa - qo) * 4096) by lia. by apply Z.mod_mul.
Qed.

(** Every present page of the mapping is page [i] for some [i]. *)
Lemma pg_of m w x :
  map_to_addr m mod PAGE_SIZE = 0 -> vmo_offset m mod PAGE_SIZE = 0 ->
  ms_ok (w_space w) -> entry (w_space w) x <> None ->
  exists i, x = pg m i.
Proof.
  intros Ha Ho Hok He. destruct (decide (x mod PAGE_SIZE = 0)) as [Hx|Hx];
    [|by rewrite (entry_aligned _ _ Hok Hx) in He].
  apply mod0 in Hx as [qx ->].
  apply mod0 in Ha as [qa Ha]. apply mod0 in Ho as [qo Ho].
  exists (qx - qa + qo). unfold pg. rewrite Ha, Ho. lia.
Qed.

(** ** One page *)

Lemma unmap_page w a :
  ms_ok (w_space w) -> a mod PAGE_SIZE = 0 -> 0 <= a -> a + PAGE_SIZE <= 2 ^ 47 ->
  is_Some (entry (w_space w) a) ->
  exists ms', vs_unmap (Range a (a + PAGE_SIZE)) (w_space w) = (Ok tt, ms') /\
    unmaps (fun x => x = a) (fun x => x = a) w (MkWorld ms' (w_vmos w)).
Proof.
  intros Hok Hal Ha Hmax [e He].
  replace (a + PAGE_SIZE) with (a + Z.of_nat 1 * PAGE_SIZE) by (unfold PAGE_SIZE; lia).
  rewrite unmap_range_spec by (try done; unfold usize_max, PAGE_SIZE in *; lia).
  cbn [unmap_pages]. unfold sbind. pose proof (ms_unmap_page (w_space w) a Hok) as Hun. rewrite He in Hun.
  destruct Hun as (ms' & -> & Hok' & Hroom & Hent). unfold slift.
  rewrite uadd_ok by (unfold usize_max; lia). exists ms'. split; [done|].
  constructor; [done|done|done|..]; cbn [w_space].
  - intros x ->. by rewrite Hent, decide_True.
  - intros x. rewrite Hent. destruct (decide (x = a)); auto.
Qed.

Lemma page_map_addr_ok m i : pg_ok m i -> page_map_addr m i = Ok (pg m i).
Proof.
  intros (H0 & H1 & H2 & H3 & H4 & H5). unfold page_map_addr, pg in *.
  rewrite umul_ok by done. cbn [obind]. rewrite uadd_ok by done. cbn [obind]. by rewrite usub_ok by lia.
Qed.

Lemma page_range_ok a : a + PAGE_SIZE <= 2 ^ 47 -> page_range a = Ok (Range a (a + PAGE_SIZE)).
Proof. intros. unfold page_range. by rewrite uadd_ok by (unfold usize_max; lia). Qed.

Lemma page_of_aligned a : a mod PAGE_SIZE = 0 -> page_of a = a.
Proof. apply page_vpn. Qed.

Lemma is_mapped_page w a :
  ms_ok (w_space w) -> a mod PAGE_SIZE = 0 -> 0 <= a -> a + PAGE_SIZE <= 2 ^ 47 ->
  vs_is_mapped a (w_space w) = bool_decide (is_Some (entry (w_space w) a)).
Proof.
  intros Hok Hal Ha Hmax. destruct (queries_spec (w_space w) a Hok) as [-> _].
  - unfold user_va, PAGE_SIZE in *. lia.
  - by rewrite page_of_aligned.
Qed.

Definition at_page (p x : Z) : Prop := x = p.

Lemma unmap_one_page_ok m l i w :
  pg_ok m i -> ms_ok (w_space w) ->
  exists w', unmap_one_page i (set_mapped_pages l m, w) =
      (Ok tt, (set_mapped_pages (bt_remove i l) m, w')) /\
    unmaps (at_page (pg m i)) (at_page (pg m i)) w w'.
Proof.
  intros Hp Hok. pose proof Hp as (H0 & H1 & H2 & H3 & H4 & H5).
  unfold unmap_one_page. rewrite self_bind. cbn [fst].
  rewrite (pure_bind _ _ _ _ (page_map_addr_ok (set_mapped_pages l m) i Hp)), pg_set_pages.
  rewrite (pure_bind _ _ _ _ (page_range_ok _ H5)), ask_space_bind. cbn [snd].
  rewrite is_mapped_page by done. case_bool_decide as He.
  - destruct (unmap_page w (pg m i) Hok H3 H4 H5 He) as (ms' & Hrun & Hum).
    exists (MkWorld ms' (w_vmos w)). unfold sbind, on_space. cbn [snd]. rewrite Hrun. done.
  - exists w. unfold sbind, sret, modify. cbn. split; [done|].
    apply unmaps_refl; [done|]. intros x ->. by apply eq_None_not_Some.
Qed.

(** ** Loops over pages *)

(** An iteration that unmaps page [i] and forgets it; if [rec], provided a
    present page is recorded. *)
Definition unmap_step m (rec : bool) (body : Z -> mapM unit) : Prop :=
  forall l i w, pg_ok m i -> ms_ok (w_space w) ->
    (rec = true -> entry (w_space w) (pg m i) <> None -> is_Some (bt_get i l)) ->
    exists w', body i (set_mapped_pages l m, w) =
        (Ok tt, (set_mapped_pages (bt_remove i l) m, w')) /\
      unmaps (at_page (pg m i)) (at_page (pg m i)) w w'.

Lemma unmap_one_page_step m : unmap_step m false unmap_one_page.
Proof. intros l i w Hp Hok _. by apply unmap_one_page_ok. Qed.

Lemma ignore_ok (op : mapM unit) (s s' : VmMapping * world) :
  op s = (Ok tt, s') -> ignore op s = (Ok tt, s').
Proof. unfold ignore. by intros ->. Qed.

Lemma ignore_step m : unmap_step m false (fun i => ignore (unmap_one_page i)).
Proof.
  intros l i w Hp Hok _. destruct (unmap_one_page_ok m l i w Hp Hok) as (w' & Hrun & Hum).
  exists w'. by rewrite (ignore_ok _ _ _ Hrun).
Qed.

(** The body of the loop of [trim_left]. *)
Lemma trim_left_step m :
  unmap_step m true (fun page_idx =>
    let! m := self_ in
    let! _ := modify (fun m => set_mapped_pages (bt_remove page_idx (mapped_pages m)) m) in
    match bt_get page_idx (mapped_pages m) with
    | Some _ => ignore (unmap_one_page page_idx)
    | None => sret tt
    end).
Proof.
  intros l i w Hp Hok Htr. rewrite self_bind, modify_bind.
  cbn [fst snd]. change (mapped_pages (set_mapped_pages l m)) with l.
  change (set_mapped_pages (bt_remove i l) (set_mapped_pages l m)) with (set_mapped_pages (bt_remove i l) m).
  destruct (bt_get i l) as [[]|] eqn:Hg.
  - destruct (unmap_one_page_ok m (bt_remove i l) i w Hp Hok) as (w' & Hrun & Hum).
    exists w'. split; [|done]. rewrite (ignore_ok _ _ _ Hrun).
    do 3 f_equal. unfold bt_remove. rewrite list_filter_filter. apply list_filter_iff. naive_solver.
  - exists w. split; [done|]. apply unmaps_refl; [done|]. intros x ->.
    destruct (entry (w_space w) (pg m i)); [|done]. destruct Htr as [? ?]; [done|done|congruence].
Qed.

Lemma unmap_loop m rec body a b l w :
  unmap_step m rec body -> a <= b -> (forall i, a <= i < b -> pg_ok m i) -> ms_ok (w_space w) ->
  map_to_addr m mod PAGE_SIZE = 0 -> vmo_offset m mod PAGE_SIZE = 0 ->
  (rec = true -> forall i, a <= i < b -> entry (w_space w) (pg m i) <> None -> is_Some (bt_get i l)) ->
  exists l' w', sfor (zrange a b) body (set_mapped_pages l m, w) =
      (Ok tt, (set_mapped_pages l' m, w')) /\
    (forall i, bt_get i l' = if decide (a <= i < b) then None else bt_get i l) /\
    unmaps (fun x => pg m a <= x < pg m b) (fun x => pg m a <= x < pg m b) w w'.
Proof.
  intros Hbody Hab Hpg Hok Haddr Hoff Htr.
  destruct (sfor_zrange body (fun i s => exists l' w', s = (set_mapped_pages l' m, w') /\
      (forall j, bt_get j l' = if decide (a <= j < i) then None else bt_get j l) /\
      unmaps (fun x => exists j, a <= j < i /\ x = pg m j)
             (fun x => exists j, a <= j < i /\ x = pg m j) w w') a b (set_mapped_pages l m, w))
    as (s' & Hrun & l' & w' & -> & Hl' & Hum); [done| | |].
  - exists l, w. split_and!; [done|intros; by rewrite decide_False by lia|].
    apply unmaps_refl; [done|]. intros x (j & ? & _). lia.
  - intros i s Hi (l1 & w1 & -> & Hl1 & Hum1).
    destruct (Hbody l1 i w1) as (w2 & Hrun & Hum2); [by apply Hpg|apply Hum1| |].
    + intros Hrec He. rewrite Hl1, decide_False by lia. apply Htr; [done|done|].
      intros He0. apply He. by apply (unmaps_none _ _ _ _ _ Hum1).
    + eexists. split; [exact Hrun|]. exists (bt_remove i l1), w2. split_and!; [done| |].
      * intros j. rewrite bt_get_remove, Hl1. zbool; repeat case_decide; subst; done || lia.
      * eapply unmaps_weaken; [exact (unmaps_trans _ _ _ _ _ _ _ Hum1 Hum2)|..];
          unfold at_page; cbn; intros x.
        -- intros (j & Hj & ->). left. destruct (decide (j = i)) as [->|]; [by right|].
           left. exists j. split; [lia|done].
        -- intros [(j & Hj & ->)| ->]; eexists; (split; [|done]); lia.
  - exists l', w'. split_and!; [done|done|]. eapply unmaps_weaken; [exact Hum|..]; intros x.
    + intros Hx. destruct (entry (w_space w) x) eqn:He; [left|by right].
      destruct (pg_of m w x) as [i ->]; [done..|by rewrite He|]. exists i. split; [|done].
      unfold pg, PAGE_SIZE in Hx. lia.
    + intros (j & Hj & ->). unfold pg, PAGE_SIZE. lia.
Qed.

(** ** Trimming *)

(** [m1] is the part of [m] on the addresses from [a] to [b], with what [m]
    recorded about its pages. *)
Definition piece m (a b : Z) (m1 : VmMapping) : Prop :=
  exists l, m1 = set_mapped_pages l (set_extent (vmo_offset m + (a - map_to_addr m)) (b - a) a m) /\
    forall i, a <= pg m i < b -> bt_get i l = bt_get i (mapped_pages m).

Lemma piece_ok m a b m1 :
  mapping_ok m -> piece m a b m1 -> a mod PAGE_SIZE = 0 -> b mod PAGE_SIZE = 0 ->
  map_to_addr m <= a -> a < b -> b <= mend m -> mapping_ok m1.
Proof.
  intros [Ha Hs Ho Hp Hsp He Hop Hom Hal Hdup] (l & -> & _) Haa Hba H1 H2 H3.
  unfold mend in *. constructor; cbn; unfold mend; cbn; try lia; try done; apply mod0.
  - apply mod0 in Haa as [qa ->], Hba as [qb ->]. exists (qb - qa). lia.
  - apply mod0 in Haa as [qa ->], Ho as [qo ->], Ha as [q ->]. exists (qo + (qa - q)). lia.
Qed.

Lemma piece_refl m : piece m (map_to_addr m) (mend m) m.
Proof.
  exists (mapped_pages m). split; [|done]. destruct m. unfold set_mapped_pages, set_extent, mend. cbn.
  f_equal; lia.
Qed.

Lemma mend_aligned m : mapping_ok m -> mend m mod PAGE_SIZE = 0.
Proof.
  intros [Ha Hs _ _ _ _ _ _ _ _]. unfold mend. apply mod0 in Ha as [qa ->], Hs as [qs ->].
  apply mod0. exists (qa + qs). lia.
Qed.

Lemma piece_pg m a b m1 i : piece m a b m1 -> pg m1 i = pg m i.
Proof. intros (l & -> & _). unfold pg. cbn. lia. Qed.

Lemma piece_tracked m a b m1 w w' :
  tracked m w -> piece m a b m1 -> map_to_addr m <= a -> b <= mend m ->
  (forall x, entry (w_space w) x = None -> entry (w_space w') x = None) -> tracked m1 w'.
Proof.
  intros Htr Hpc Ha Hb Hsub i Hi He. pose proof (piece_pg _ _ _ _ i Hpc) as Hpg. rewrite Hpg in *.
  destruct Hpc as (l & -> & Hl). unfold mend in Hi. cbn in Hi |- *.
  rewrite Hl by lia. apply Htr; [lia|]. intros He0. by apply He, Hsub.
Qed.

Lemma trim_guard_ok m v :
  mapping_ok m -> v mod PAGE_SIZE = 0 -> map_to_addr m <= v <= mend m -> trim_guard m v = Ok tt.
Proof.
  intros Hm Hv Hr. unfold trim_guard. fold (mend m). pose proof (mo_end _ Hm).
  rewrite uadd_ok by (unfold usize_max; unfold mend in *; lia). cbn [obind].
  unfold mend in *. rewrite !(proj2 (Z.leb_le _ _)) by lia. cbn. by rewrite Hv.
Qed.

Lemma div_page q : q * PAGE_SIZE / PAGE_SIZE = q.
Proof. by apply Z.div_mul. Qed.

(** The page index of an aligned offset into the mapping. *)
Lemma pg_div m v :
  mapping_ok m -> v mod PAGE_SIZE = 0 ->
  pg m ((vmo_offset m + (v - map_to_addr m)) / PAGE_SIZE) = v.
Proof.
  intros [Ha _ Ho _ _ _ _ _ _ _] Hv. unfold pg.
  apply mod0 in Ha as [qa ->], Ho as [qo ->], Hv as [q ->].
  replace (qo * PAGE_SIZE + (q * PAGE_SIZE - qa * PAGE_SIZE)) with ((qo + (q - qa)) * PAGE_SIZE) by lia.
  rewrite div_page. lia.
Qed.

Lemma pg_le m i j : pg m i <= pg m j <-> i <= j.
Proof. unfold pg, PAGE_SIZE. lia. Qed.

Lemma pg_ok_at m i :
  mapping_ok m -> map_to_addr m <= pg m i -> pg m i + PAGE_SIZE <= 2 ^ 47 -> i * PAGE_SIZE <= 2 ^ 62 ->
  pg_ok m i.
Proof.
  intros [Ha Hs Ho Hp Hsp He Hop Hom _ _] Hi Hmax Hidx. unfold pg_ok, pg in *.
  apply mod0 in Ha as [qa Ha], Ho as [qo Ho]. rewrite Ha, Ho in *.
  unfold usize_max, PAGE_SIZE in *. split_and!; try lia.
  replace (i * 4096 + qa * 4096 - qo * 4096) with ((i + qa - qo) * 4096) by lia. by apply Z.mod_mul.
Qed.

Lemma get_page_idx_range_ok {E} a b :
  a mod PAGE_SIZE = 0 -> b mod PAGE_SIZE = 0 -> 0 <= a <= 2 ^ 63 -> 0 <= b <= 2 ^ 63 ->
  @get_page_idx_range E (Range a b) = Ok (Range (a / PAGE_SIZE) (b / PAGE_SIZE)).
Proof.
  intros Ha Hb Ha0 Hb0. unfold get_page_idx_range. cbn [r_start r_end].
  rewrite align_down_page, align_up_page by (unfold usize_max; lia). cbn [obind].
  apply mod0 in Ha as [qa ->], Hb as [qb ->]. unfold page_down, page_up, PAGE_SIZE.
  replace ((qb * 4096 + 4095) / 4096) with qb; [by rewrite !Z.div_mul by lia|].
  symmetry. rewrite Z.add_comm, Z.div_add by lia. done.
Qed.

Lemma set_pages_same m : set_mapped_pages (mapped_pages m) m = m.
Proof. by destruct m. Qed.

Lemma trim_left_ok m w v :
  mapping_ok m -> ms_ok (w_space w) -> tracked m w ->
  v mod PAGE_SIZE = 0 -> map_to_addr m <= v <= mend m ->
  exists m1 w', trim_left v (m, w) = (Ok v, (m1, w')) /\ piece m v (mend m) m1 /\
    unmaps (fun x => map_to_addr m <= x < v) (fun x => map_to_addr m <= x < v) w w'.
Proof.
  intros Hm Hok Htr Hv Hr. pose proof Hm as [Ha Hs Ho Hp Hsp He Hop Hom _ _].
  unfold trim_left. rewrite self_bind. cbn [fst].
  rewrite (pure_bind _ _ _ _ (trim_guard_ok m v Hm Hv Hr)).
  rewrite (pure_bind _ _ _ _ (uadd_ok (vmo_offset m) (v - map_to_addr m) ltac:(unfold usize_max, mend in *; lia))).
  rewrite (pure_bind _ _ _ _ (usub_ok (map_size m) (v - map_to_addr m) ltac:(unfold mend in *; lia))), modify_bind.
  cbn [fst snd].
  set (off := vmo_offset m + (v - map_to_addr m)).
  set (m0 := set_extent off (map_size m - (v - map_to_addr m)) v m).
  assert (Hpg : forall i, pg m0 i = pg m i) by (intros; unfold pg, m0, off; cbn; lia).
  pose proof (pg_div m v Hm Hv) as Hhi. fold off in Hhi.
  pose proof (pg_div m (map_to_addr m) Hm Ha) as Hlo. rewrite Z.sub_diag, Z.add_0_r in Hlo.
  assert (Hoff : off mod PAGE_SIZE = 0).
  { unfold off. apply mod0. apply mod0 in Ha as [qa ->], Ho as [qo ->], Hv as [q ->].
    exists (qo + (q - qa)). lia. }
  set (a := vmo_offset m / PAGE_SIZE) in *. set (b := off / PAGE_SIZE) in *.
  assert (Hab : forall i, a <= i < b <-> map_to_addr m <= pg m i < v).
  { intros i. pose proof (pg_le m a i). pose proof (pg_le m b i). lia. }
  destruct (unmap_loop m0 _ _ a b (mapped_pages m) w (trim_left_step m0))
    as (l' & w' & Hrun & Hl' & Hum); [apply (pg_le m); lia| |done..| |].
  - intros i Hi%Hab. destruct (pg_in_ok m i Hm) as (_ & ? & ? & ? & ? & ?); [lia|].
    unfold pg_ok. rewrite Hpg. cbn [m0 set_extent map_to_addr vmo_offset].
    unfold pg, off, usize_max, mend, PAGE_SIZE in *. split_and!; try done; lia.
  - intros _ i Hi%Hab. rewrite Hpg. apply Htr. lia.
  - change (set_mapped_pages (mapped_pages m) m0) with m0 in Hrun. rewrite (sbind_ok _ _ _ _ _ Hrun).
    exists (set_mapped_pages l' m0), w'. split_and!; [done| |].
    + exists l'. split; [|intros i Hi; rewrite Hl', decide_False by (rewrite Hab; lia); done].
      unfold m0, off, mend. do 2 f_equal. lia.
    + rewrite !Hpg, Hlo, Hhi in Hum. done.
Qed.

Lemma trim_right_ok m w v :
  mapping_ok m -> ms_ok (w_space w) ->
  v mod PAGE_SIZE = 0 -> map_to_addr m <= v <= mend m ->
  exists m1 w', trim_right v (m, w) = (Ok (map_to_addr m), (m1, w')) /\
    piece m (map_to_addr m) v m1 /\
    unmaps (fun x => v <= x < mend m) (fun x => v <= x < mend m) w w'.
Proof.
  intros Hm Hok Hv Hr. pose proof Hm as [Ha Hs Ho Hp Hsp He Hop Hom _ _].
  pose proof (mend_aligned m Hm) as Hend.
  unfold trim_right. rewrite self_bind. cbn [fst].
  rewrite (pure_bind _ _ _ _ (trim_guard_ok m v Hm Hv Hr)).
  rewrite (pure_bind _ _ _ _ (uadd_ok (v - map_to_addr m) (vmo_offset m) ltac:(unfold usize_max, mend in *; lia))).
  rewrite (pure_bind _ _ _ _ (uadd_ok (map_size m) (vmo_offset m) ltac:(unfold usize_max; lia))).
  pose proof (pg_div m v Hm Hv) as Hlo. pose proof (pg_div m (mend m) Hm Hend) as Hhi.
  replace (v - map_to_addr m + vmo_offset m) with (vmo_offset m + (v - map_to_addr m)) by lia.
  replace (map_size m + vmo_offset m) with (vmo_offset m + (mend m - map_to_addr m)) by (unfold mend; lia).
  set (a := (vmo_offset m + (v - map_to_addr m)) / PAGE_SIZE) in *.
  set (b := (vmo_offset m + (mend m - map_to_addr m)) / PAGE_SIZE) in *.
  assert (Hab : forall i, a <= i < b <-> v <= pg m i < mend m).
  { intros i. pose proof (pg_le m a i). pose proof (pg_le m b i). lia. }
  destruct (unmap_loop m _ _ a b (mapped_pages m) w (ignore_step m)) as (l' & w' & Hrun & Hl' & Hum);
    [|intros i Hi%Hab; apply pg_in_ok; [done|lia]|done..|].
  - apply (pg_le m). lia.
  - rewrite (set_pages_same m) in Hrun. rewrite (sbind_ok _ _ _ _ _ Hrun), modify_bind.
    eexists _, w'. split_and!; [done| |].
    + exists l'. split; [by rewrite Z.sub_diag, Z.add_0_r|].
      intros i Hi. rewrite Hl', decide_False by (rewrite Hab; lia). done.
    + rewrite Hlo, Hhi in Hum. done.
Qed.

Lemma mapping_range_ok m : mapping_ok m -> mapping_range m = Ok (Range (map_to_addr m) (mend m)).
Proof.
  intros Hm. unfold mapping_range. pose proof (mo_end _ Hm). unfold mend in *.
  by rewrite uadd_ok by (unfold usize_max; lia).
Qed.

(** [unmap] on a range that starts inside the mapping. *)
Lemma mapping_unmap_ok m w r :
  mapping_ok m -> ms_ok (w_space w) ->
  r_start r mod PAGE_SIZE = 0 -> r_end r mod PAGE_SIZE = 0 ->
  map_to_addr m <= r_start r <= r_end r -> r_end r <= 2 ^ 47 ->
  vmo_offset m + (r_end r - map_to_addr m) <= 2 ^ 62 ->
  exists l w', mapping_unmap r true (m, w) = (Ok tt, (set_mapped_pages l m, w')) /\
    (forall i, r_end r <= pg m i -> bt_get i l = bt_get i (mapped_pages m)) /\
    unmaps (fun x => in_range x r) (fun x => in_range x r) w w'.
Proof.
  destruct r as [s e]. cbn [r_start r_end]. intros Hm Hok Hs He Hr Hmax Hoff.
  pose proof Hm as [Ha _ Ho Hp _ _ Hop _ Hal _].
  pose proof (pg_div m s Hm Hs) as Hlo. pose proof (pg_div m e Hm He) as Hhi.
  assert (Hmod : forall v, v mod PAGE_SIZE = 0 -> (vmo_offset m + (v - map_to_addr m)) mod PAGE_SIZE = 0).
  { intros v Hv. apply mod0. apply mod0 in Ha as [qa ->], Ho as [qo ->], Hv as [q ->].
    exists (qo + (q - qa)). lia. }
  unfold mapping_unmap. rewrite self_bind. cbn [fst r_start r_end].
  rewrite (pure_bind _ _ _ _ (usub_ok s (map_to_addr m) ltac:(lia))).
  rewrite (pure_bind _ _ _ _ (uadd_ok (s - map_to_addr m) (vmo_offset m) ltac:(unfold usize_max; lia))).
  rewrite (pure_bind _ _ _ _ (usub_ok e (map_to_addr m) ltac:(lia))).
  rewrite (pure_bind _ _ _ _ (uadd_ok (e - map_to_addr m) (vmo_offset m) ltac:(unfold usize_max; lia))).
  replace (s - map_to_addr m + vmo_offset m) with (vmo_offset m + (s - map_to_addr m)) by lia.
  replace (e - map_to_addr m + vmo_offset m) with (vmo_offset m + (e - map_to_addr m)) by lia.
  rewrite (pure_bind _ _ _ _ (get_page_idx_range_ok _ _ (Hmod s Hs) (Hmod e He) ltac:(lia) ltac:(lia))).
  cbn [r_start r_end].
  set (a := (vmo_offset m + (s - map_to_addr m)) / PAGE_SIZE) in *.
  set (b := (vmo_offset m + (e - map_to_addr m)) / PAGE_SIZE) in *.
  assert (Hab : forall i, a <= i < b -> s <= pg m i /\ pg m i + PAGE_SIZE <= e).
  { intros i Hi. rewrite <- Hlo, <- Hhi. unfold pg, PAGE_SIZE. lia. }
  destruct (unmap_loop m _ _ a b (mapped_pages m) w (unmap_one_page_step m)) as (l' & w' & Hrun & Hl' & Hum);
    [|intros i Hi%Hab; apply pg_ok_at; [done|lia|lia|unfold pg, PAGE_SIZE in *; lia]|done..|].
  - apply (pg_le m). lia.
  - rewrite (set_pages_same m) in Hrun. rewrite (sbind_ok _ _ _ _ _ Hrun), self_bind. cbn [fst].
    assert (Hm' : mapping_ok (set_mapped_pages l' m)) by (by destruct Hm).
    rewrite (pure_bind _ _ _ _ (mapping_range_ok _ Hm')). exists l', w'. split_and!.
    + assert (Heq : set_is_destroyed false (set_mapped_pages l' m) = set_mapped_pages l' m)
        by (unfold set_is_destroyed, set_mapped_pages; cbn; by rewrite Hal).
      cbn [andb]. case_bool_decide; [|done]. unfold modify. cbn [fst snd]. by rewrite Heq.
    + intros i Hi. rewrite Hl', decide_False; [done|]. intros Hab'%Hab. unfold PAGE_SIZE in *. lia.
    + rewrite Hlo, Hhi in Hum. done.
Qed.
End MappingFacts.
