(* ===== verification/Vmar.v ===== *)
(** Virtual memory address regions
    (kernel/aster-nix/src/vm/vmar/mod.rs, vm_mapping.rs, options.rs and
    dyn_cap.rs).

    A VMAR tree is a value; an operation on a child is run in place.  The
    recursive operations take the depth of the tree as fuel.  Interval ends
    ([base + size], [map_to_addr + map_size]) are below [2^64]. *)

From S2P Require Import Prelude BTree AlignExt Interval FreeRegion Frame PageTable PtInterface MemorySet Perms VmMapping.

Section Vmar.
Context {PT : Type} {ops : PtOps PT} {VS V : Type} {vops : VmoOps VS V}.
Notation VmMapping := (VmMapping V).
Notation world := (world PT VS).

#[export] Instance mapping_interval : Interval VmMapping :=
  fun m => Range (map_to_addr m) (map_to_addr m + map_size m).

(** [Vmar_] with its [VmarInner]; the attached [VmSpace] is part of [world]. *)
Inductive Vmar_ : Type := MkVmar {
  vmar_destroyed : bool;
  child_vmar_s : list (Z * Vmar_);
  vm_mappings : list (Z * VmMapping);
  free_regions : list (Z * FreeRegion);
  base : Z;
  size : Z;
  is_root : bool;
}.

#[export] Instance vmar_interval : Interval Vmar_ :=
  fun v => Range (base v) (base v + size v).

Definition set_destroyed (b : bool) (v : Vmar_) : Vmar_ :=
  MkVmar b (child_vmar_s v) (vm_mappings v) (free_regions v) (base v) (size v) (is_root v).
Definition set_children (l : list (Z * Vmar_)) (v : Vmar_) : Vmar_ :=
  MkVmar (vmar_destroyed v) l (vm_mappings v) (free_regions v) (base v) (size v) (is_root v).
Definition set_mappings (l : list (Z * VmMapping)) (v : Vmar_) : Vmar_ :=
  MkVmar (vmar_destroyed v) (child_vmar_s v) l (free_regions v) (base v) (size v) (is_root v).
Definition set_free (l : list (Z * FreeRegion)) (v : Vmar_) : Vmar_ :=
  MkVmar (vmar_destroyed v) (child_vmar_s v) (vm_mappings v) l (base v) (size v) (is_root v).

Notation ROOT_VMAR_LOWEST_ADDR := 0x10000%Z (only parsing).
Notation ROOT_VMAR_CAP_ADDR := MAX_USERSPACE_VADDR (only parsing).

Definition root_region : FreeRegion :=
  MkFreeRegion (Range ROOT_VMAR_LOWEST_ADDR ROOT_VMAR_CAP_ADDR).

(** [Vmar_::new_root] *)
Definition new_root : Vmar_ :=
  MkVmar false [] [] (insert_region [] root_region) 0 ROOT_VMAR_CAP_ADDR true.

(** ** Operations *)

Definition vmarM (A : Type) : Type := stM (Vmar_ * world) Errno A.

Definition vself : vmarM Vmar_ := fun s => (Ok s.1, s).
Definition vmodify (f : Vmar_ -> Vmar_) : vmarM unit := fun s => (Ok tt, (f s.1, s.2)).
Definition vpure {A} (o : outcome Errno A) : vmarM A := slift o.

(** An operation on a mapping that is not (or no longer) in the VMAR. *)
Definition detached {A} (m : VmMapping) (op : mapM A) : vmarM (A * VmMapping) := fun s =>
  match op (m, s.2) with
  | (Ok a, (m', w')) => (Ok (a, m'), (s.1, w'))
  | (Err e, (_, w')) => (Err e, (s.1, w'))
  | (Panic, (_, w')) => (Panic, (s.1, w'))
  end.

(** An operation on the mapping of the VMAR with key [k], in place. *)
Definition at_mapping {A} (k : Z) (op : mapM A) : vmarM A := fun s =>
  match bt_get k (vm_mappings s.1) with
  | None => (Panic, s)
  | Some m =>
      let r := op (m, s.2) in
      (r.1, (set_mappings (bt_insert k r.2.1 (vm_mappings s.1)) s.1, r.2.2))
  end.

(** An operation on the child with key [k], in place. *)
Definition at_child {A} (k : Z) (op : vmarM A) : vmarM A := fun s =>
  match bt_get k (child_vmar_s s.1) with
  | None => (Panic, s)
  | Some c =>
      let r := op (c, s.2) in
      (r.1, (set_children (bt_insert k r.2.1 (child_vmar_s s.1)) s.1, r.2.2))
  end.

(** [vm_space.clear()] *)
Definition space_clear : vmarM unit := fun s =>
  let r := vs_clear (w_space s.2) in
  (map_err r.1, (s.1, MkWorld r.2 (w_vmos s.2))).

(** A loop that threads an accumulator. *)
Fixpoint vfold {A B} (l : list A) (acc : B) (body : A -> B -> vmarM B) : vmarM B :=
  match l with
  | [] => sret acc
  | x :: l' => let! acc' := body x acc in vfold l' acc' body
  end.

(** [VmMapping::trim_mapping] on the mapping with key [k].  The accumulator is
    [mappings_to_remove] and [mappings_to_append]. *)
Definition trim_acc : Type := list (Z * unit) * list (Z * VmMapping).

Definition trim_mapping (k : Z) (trim_range : range) (acc : trim_acc) : vmarM trim_acc :=
  let! self := at_mapping k self_ in
  let! r := vpure (mapping_range self) in
  let addr := map_to_addr self in
  if negb (is_intersected r trim_range) then sret acc
  else if (r_start trim_range <=? addr) && (r_end r <=? r_end trim_range) then
    let! _ := at_mapping k (mapping_unmap trim_range true) in
    sret (bt_insert addr tt acc.1, acc.2)
  else if r_start trim_range <=? r_start r then
    let rem := bt_insert addr tt acc.1 in
    if r_end trim_range <=? r_end r then
      let! new_map_addr := at_mapping k (trim_left (r_end trim_range)) in
      let! self' := at_mapping k self_ in
      sret (rem, bt_insert new_map_addr self' acc.2)
    else sret (rem, acc.2)
  else
    let! acc' :=
      (if r_end trim_range <=? r_end r then
         let! another := vpure (try_clone self) in
         let! p := detached another (trim_left (r_end trim_range)) in
         sret (acc.1, bt_insert p.1 p.2 acc.2)
       else sret acc) in
    let! _ := at_mapping k (trim_right (r_start trim_range)) in
    sret acc'.

(** Removing and appending what the trims collected. *)
Definition apply_trims (acc : trim_acc) (l : list (Z * VmMapping)) : list (Z * VmMapping) :=
  foldl (fun l p => bt_insert p.1 p.2 l) (foldl (fun l k => bt_remove k l) l (bt_keys acc.1)) acc.2.

(** [Vmar_::trim_existing_mappings] *)
Definition trim_existing_mappings (trim_range : range) : vmarM unit :=
  let! v := vself in
  let! acc := vfold (bt_keys (vm_mappings v)) ([], [])
                (fun k acc => trim_mapping k trim_range acc) in
  vmodify (fun v => set_mappings (apply_trims acc (vm_mappings v)) v).

(** [Vmar_::check_destroy_range] *)
Definition check_destroy_range (r : range) : vmarM unit :=
  let! _ := vpure (oassert (r_start r mod PAGE_SIZE =? 0)) in
  let! _ := vpure (oassert (r_end r mod PAGE_SIZE =? 0)) in
  let! v := vself in
  if vmar_destroyed v then sret tt
  else sfor (find (child_vmar_s v) r) (fun child =>
    let! _ := vpure (oassert (is_intersected (irange child) r)) in
    if (r_start r <=? istart child) && (iend child <=? r_end r) then sret tt
    else serr EACCES).

(** [self.merge_continuous_regions(&mut inner)] *)
Definition merge_free : vmarM unit :=
  let! v := vself in
  let! l := vpure (merge_continuous_regions (free_regions v)) in
  vmodify (set_free l).

(** [Vmar_::destroy_all] *)
Fixpoint destroy_all (fuel : nat) : vmarM unit :=
  match fuel with
  | O => spanic
  | S fuel' =>
      let! v := vself in
      if vmar_destroyed v then sret tt
      else
        let! _ := vmodify (set_destroyed true) in
        let! freed := vfold (child_vmar_s v) [] (fun p freed =>
          let! _ := at_child p.1 (destroy_all fuel') in
          sret (insert_region freed (MkFreeRegion (irange p.2)))) in
        let! _ := vmodify (fun v => set_free (bt_append (free_regions v) freed) (set_children [] v)) in
        let! freed := vfold (vm_mappings v) [] (fun p freed =>
          let! r := vpure (mapping_range p.2) in
          let! _ := at_mapping p.1 (mapping_unmap r true) in
          sret (insert_region freed (MkFreeRegion r))) in
        let! _ := vmodify (fun v => set_free (bt_append (free_regions v) freed) (set_mappings [] v)) in
        let! _ := merge_free in
        space_clear
  end.

(** [Vmar_::destroy] *)
Definition destroy (fuel : nat) (r : range) : vmarM unit :=
  let! _ := check_destroy_range r in
  let! v := vself in
  if vmar_destroyed v then sret tt
  else
    let! freed := vfold (find (child_vmar_s v) r) [] (fun child freed =>
      let! _ := vpure (oassert (is_intersected (irange child) r)) in
      let! _ := at_child (istart child) (destroy_all fuel) in
      sret (insert_region freed (MkFreeRegion (irange child)))) in
    let! _ := vmodify (fun v =>
      set_children (bt_retain (fun c => negb (vmar_destroyed c)) (child_vmar_s v)) v) in
    let! p := vfold (find (vm_mappings v) r) (([], []), freed) (fun m acc =>
      let! mr := vpure (mapping_range m) in
      let! _ := vpure (oassert (is_intersected mr r)) in
      let! ir := vpure (get_intersected_range mr r) in
      let! trims := trim_mapping (map_to_addr m) ir acc.1 in
      sret (trims, insert_region acc.2 (MkFreeRegion ir))) in
    let! _ := vmodify (fun v =>
      set_mappings (bt_retain (fun m => negb (is_destroyed m)) (apply_trims p.1 (vm_mappings v))) v) in
    let! _ := vmodify (fun v => set_free (bt_append (free_regions v) p.2) v) in
    merge_free.

(** [VmMapping::protect_with_subdivision] *)
Definition protect_with_subdivision (self : VmMapping) (intersect_range : range) (p : Z)
    : vmarM unit :=
  let! r := vpure (mapping_range self) in
  if (r_start r =? r_start intersect_range) && (r_end r =? r_end intersect_range)
  then at_mapping (map_to_addr self) (modify (set_perm p))
  else
    let! lefts :=
      (if r_start r <? r_start intersect_range then
         let! m := vpure (clone_partial self (Range (r_start r) (r_start intersect_range)) None) in
         sret [m]
       else sret []) in
    let! rights :=
      (if r_end intersect_range <? r_end r then
         let! m := vpure (clone_partial self (Range (r_end intersect_range) (r_end r)) None) in
         sret [m]
       else sret []) in
    let! protected := vpure (clone_partial self intersect_range (Some p)) in
    vmodify (fun v => set_mappings
      (foldl (fun l m => bt_insert (map_to_addr m) m l)
         (bt_remove (map_to_addr self) (vm_mappings v)) (protected :: lefts ++ rights)) v).

(** [VmMapping::protect] *)
Definition mapping_protect (self : VmMapping) (new_perms : Z) (r : range) : vmarM unit :=
  if perms_of_vmperm (perm self) =? new_perms then sret tt
  else
    let! _ := vpure (vmo_check_rights (vmo self) (rights_of_perms new_perms)) in
    let! _ := protect_with_subdivision self r (vmperm_of_perms new_perms) in
    let! _ := detached self (mapping_protect_pages new_perms r) in
    sret tt.

(** [Vmar_::do_protect_inner] *)
Fixpoint do_protect_inner (fuel : nat) (perms : Z) (r : range) : vmarM unit :=
  match fuel with
  | O => spanic
  | S fuel' =>
      let! v := vself in
      let! _ := vpure (oassert (base v <=? r_start r)) in
      let! _ := vpure (oassert (r_end r <=? base v + size v)) in
      if vmar_destroyed v then serr ENOSYS
      else if negb (bool_decide (find (free_regions v) r = [])) then serr EACCES
      else
        let! _ := sfor (find (vm_mappings v) r) (fun m =>
          let! mr := vpure (mapping_range m) in
          let! ir := vpure (get_intersected_range r mr) in
          mapping_protect m perms ir) in
        let! v := vself in
        sfor (find (child_vmar_s v) r) (fun child =>
          let! _ := vpure (oassert (is_intersected (irange child) r)) in
          let! ir := vpure (get_intersected_range r (irange child)) in
          at_child (istart child) (do_protect_inner fuel' perms ir))
  end.

(** [Vmar_::protect] *)
Definition vmar_protect (fuel : nat) (perms : Z) (r : range) : vmarM unit :=
  let! _ := vpure (oassert (r_start r mod PAGE_SIZE =? 0)) in
  let! _ := vpure (oassert (r_end r mod PAGE_SIZE =? 0)) in
  do_protect_inner fuel perms r.

(** [Vmar_::handle_page_fault] *)
Fixpoint vmar_handle_page_fault (fuel : nat) (page_fault_addr : Z) (not_present write : bool)
    : vmarM unit :=
  match fuel with
  | O => spanic
  | S fuel' =>
      let! v := vself in
      if (page_fault_addr <? base v) || (base v + size v <=? page_fault_addr) then serr EACCES
      else if vmar_destroyed v then serr ENOSYS
      else
        match find_one (child_vmar_s v) page_fault_addr with
        | Some child =>
            let! _ := vpure (oassert (is_intersected (irange child)
                                        (Range page_fault_addr (page_fault_addr + 1)))) in
            at_child (istart child) (vmar_handle_page_fault fuel' page_fault_addr not_present write)
        | None =>
            match find_one (vm_mappings v) page_fault_addr with
            | Some m =>
                let! _ := vpure (oassert (is_intersected (irange m)
                                            (Range page_fault_addr (page_fault_addr + 1)))) in
                at_mapping (istart m) (mapping_handle_page_fault page_fault_addr not_present write)
            | None => serr EACCES
            end
        end
  end.

(** [Vmar_::clear_root_vmar] *)
Definition clear_root_vmar : vmarM unit :=
  let! v := vself in
  let! _ := vpure (oassert (is_root v)) in
  let! _ := space_clear in
  if vmar_destroyed v then sret tt
  else vmodify (fun v =>
    set_free (insert_region [] root_region) (set_mappings [] (set_children [] v))).

(** ** Reading and writing through the VMAR *)

Definition holds (r : range) (s e : Z) : bool := (r_start r <=? s) && (e <=? r_end r).

(** [Vmar_::read] *)
Fixpoint vmar_read (fuel : nat) (offset : Z) (buf : slice) : vmarM unit :=
  match fuel with
  | O => spanic
  | S fuel' =>
      let! v := vself in
      let! read_start := vpure (uadd (base v) offset) in
      let! read_end := vpure (uadd (sl_len buf) read_start) in
      let r := Range read_start read_end in
      if vmar_destroyed v then serr ENOSYS
      else
        match list_find (fun c => holds (irange c) read_start read_end = true) (find (child_vmar_s v) r) with
        | Some (_, child) =>
            at_child (istart child) (vmar_read fuel' (read_start - istart child) buf)
        | None =>
            match list_find (fun m => holds (irange m) read_start read_end = true) (find (vm_mappings v) r) with
            | Some (_, m) => at_mapping (istart m) (mapping_read_bytes (read_start - istart m) buf)
            | None => serr EACCES
            end
        end
  end.

(** [Vmar_::write] *)
Fixpoint vmar_write (fuel : nat) (offset : Z) (buf : slice) : vmarM unit :=
  match fuel with
  | O => spanic
  | S fuel' =>
      let! v := vself in
      match checked_add (base v) offset with
      | None => serr EFAULT
      | Some write_start =>
          match checked_add (sl_len buf) write_start with
          | None => serr EFAULT
          | Some write_end =>
              let r := Range write_start write_end in
              if vmar_destroyed v then serr ENOSYS
              else
                match list_find (fun c => holds (irange c) write_start write_end = true) (find (child_vmar_s v) r) with
                | Some (_, child) =>
                    at_child (istart child) (vmar_write fuel' (write_start - istart child) buf)
                | None =>
                    match list_find (fun m => holds (irange m) write_start write_end = true) (find (vm_mappings v) r) with
                    | Some (_, m) =>
                        at_mapping (istart m) (mapping_write_bytes (write_start - istart m) buf)
                    | None => serr EACCES
                    end
                end
          end
      end
  end.

(** ** Finding room *)

(** The search without an offset: the first region that is large enough. *)
Fixpoint first_fit (l : list (Z * FreeRegion)) (child_size align : Z) : outcome Errno (Z * Z) :=
  match l with
  | [] => Err EACCES
  | (region_base, free_region) :: l' =>
      let region_start := fr_start free_region in
      let? real_start := align_up 64 region_start align in
      let? real_end := uadd real_start child_size in
      if (region_start <=? real_start) && (real_end <=? fr_end free_region)
      then Ok (region_base, real_start)
      else first_fit l' child_size align
  end.

(** [Vmar_::find_free_region_for_child] *)
Definition find_free_region_for_child (v : Vmar_) (child_offset : option Z)
    (child_size align : Z) : outcome Errno (Z * Z) :=
  match child_offset with
  | Some off =>
      let? e := uadd off child_size in
      match list_find (fun r => holds (irange r) off e = true) (find (free_regions v) (Range off e)) with
      | Some (_, r) => Ok (fr_start r, off)
      | None => Err EACCES
      end
  | None => first_fit (free_regions v) child_size align
  end.

(** [free_regions.remove(&base).unwrap()] and the pieces put back. *)
Definition take_from_region (region_base : Z) (f : FreeRegion -> outcome Errno range) : vmarM unit :=
  let! v := vself in
  let! free_region := vpure (ounwrap (bt_get region_base (free_regions v))) in
  let! a := vpure (f free_region) in
  vmodify (fun v => set_free
    (foldl insert_region (bt_remove region_base (free_regions v)) (allocate_range free_region a)) v).

(** [Vmar_::alloc_child_vmar]: the key of the new child. *)
Definition alloc_child_vmar (child_offset : option Z) (child_size align : Z) : vmarM Z :=
  let! v := vself in
  if vmar_destroyed v then serr ENOSYS
  else
    let! p := vpure (find_free_region_for_child v child_offset child_size align) in
    let! e := vpure (uadd p.2 child_size) in
    let child_range := Range p.2 e in
    let! _ := take_from_region p.1 (fun _ => Ok child_range) in
    let child := MkVmar false [] [] (insert_region [] (MkFreeRegion child_range))
                   p.2 child_size false in
    let! _ := vmodify (fun v => set_children (bt_insert (base child) child (child_vmar_s v)) v) in
    sret (base child).

(** [Vmar_::check_vmo_overwrite] *)
Definition check_vmo_overwrite (v : Vmar_) (vmo_range : range) (can_overwrite : bool)
    : outcome Errno unit :=
  if vmar_destroyed v then Err ENOSYS
  else if negb (bool_decide (find (child_vmar_s v) vmo_range = [])) then Err EACCES
  else if negb can_overwrite && negb (bool_decide (find (vm_mappings v) vmo_range = []))
  then Err EACCES
  else Ok tt.

(** [Vmar_::allocate_free_region_for_vmo] *)
Definition allocate_free_region_for_vmo (vmo_sz sz : Z) (offset : option Z) (align : Z)
    (can_overwrite : bool) : vmarM Z :=
  let msize := Z.max sz vmo_sz in
  let! v := vself in
  if vmar_destroyed v then serr ENOSYS
  else if can_overwrite then
    match offset with
    | None => serr EINVAL
    | Some off =>
        let! e := vpure (uadd off msize) in
        let map_range := Range off e in
        let split_regions :=
          fr_start <$> filter (fun r => is_intersected (irange r) map_range = true)
                         (find (free_regions v) map_range) in
        let! _ := sfor split_regions (fun region_base =>
          take_from_region region_base (fun r => get_intersected_range (irange r) map_range)) in
        let! _ := trim_existing_mappings map_range in
        sret off
    end
  else
    let! p := vpure (find_free_region_for_child v offset msize align) in
    let! e := vpure (uadd p.2 msize) in
    let! _ := take_from_region p.1 (fun r => get_intersected_range (irange r) (Range p.2 e)) in
    sret p.2.

(** ** Mapping a VMO ([VmarMapOptions]) *)

Record VmarMapOptions : Type := MkVmarMapOptions {
  o_vmo : cap V;
  o_perms : Z;
  o_vmo_offset : Z;
  o_size : Z;
  o_offset : option Z;
  o_align : Z;
  o_can_overwrite : bool;
}.

(** [VmarMapOptions::new] *)
Definition map_options_new (vs : VS) (vmo : cap V) (perms : Z) : VmarMapOptions :=
  MkVmarMapOptions vmo perms 0 (vmo_size vs (cap_obj vmo)) None PAGE_SIZE false.

(** [VmarMapOptions::check_overwrite] *)
Definition check_overwrite (o : VmarMapOptions) : vmarM unit := fun s =>
  (let! _ := vpure (oassert (implb (o_can_overwrite o) (bool_decide (is_Some (o_offset o))))) in
   match o_offset o with
   | None => sret tt
   | Some off =>
       let sz := Z.max (o_size o) (vmo_size (w_vmos s.2) (cap_obj (o_vmo o))) in
       let! e := vpure (uadd off sz) in
       vpure (check_vmo_overwrite s.1 (Range off e) (o_can_overwrite o))
   end) s.

(** [VmarMapOptions::check_options] and [check_perms]: the [debug_assert!]s make
    the errors that follow them unreachable. *)
Definition check_options (o : VmarMapOptions) : vmarM unit :=
  let! _ := vpure (oassert (o_align o mod PAGE_SIZE =? 0)) in
  let! _ := vpure (oassert (is_power_of_two (o_align o))) in
  let! _ := vpure (oassert (o_vmo_offset o mod o_align o =? 0)) in
  let! _ := vpure (match o_offset o with
                   | Some off => oassert (off mod o_align o =? 0)
                   | None => Ok tt
                   end) in
  let! _ := vpure (vmo_check_rights (o_vmo o) (rights_of_perms (o_perms o))) in
  check_overwrite o.

(** [VmMapping::build_mapping] *)
Definition build_mapping (o : VmarMapOptions) : vmarM VmMapping := fun s =>
  (let! addr := allocate_free_region_for_vmo (vmo_size (w_vmos s.2) (cap_obj (o_vmo o)))
                  (o_size o) (o_offset o) (o_align o) (o_can_overwrite o) in
   sret (MkVmMapping (o_vmo_offset o) (o_size o) addr false [] (vmperm_of_perms (o_perms o))
           (vmo_to_dyn (o_vmo o)))) s.

(** [Vmar_::add_mapping] *)
Definition add_mapping (m : VmMapping) : vmarM unit :=
  vmodify (fun v => set_mappings (bt_insert (map_to_addr m) m (vm_mappings v)) v).

(** [VmarMapOptions::build] *)
Definition map_build (o : VmarMapOptions) : vmarM Z :=
  let! _ := check_options o in
  let! m := build_mapping o in
  let! _ := add_mapping m in
  sret (map_to_addr m).

(** ** Child VMARs ([VmarChildOptions], options.rs) *)

(** [?] in a function that returns the framework's [Error]. *)
Definition to_frame {A} (m : vmarM A) : stM (Vmar_ * world) Error A := fun s =>
  let r := m s in
  (match r.1 with Ok a => Ok a | Err e => Err (frame_of_errno e) | Panic => Panic end, r.2).

(** The rights are those of the parent handle. *)
Record VmarChildOptions : Type := MkVmarChildOptions {
  co_rights : Z;
  co_size : Z;
  co_offset : option Z;
  co_align : option Z;
}.


(** [VmarChildOptions::alloc]: a handle on the new child, named by its key. *)
Definition child_options_alloc (o : VmarChildOptions) : stM (Vmar_ * world) Error (cap Z) :=
  let! align :=
    match co_align o with
    | Some align =>
        let! _ := slift (oassert (align mod PAGE_SIZE =? 0)) in
        let! _ := slift (oassert (is_power_of_two align)) in
        sret align
    | None => sret PAGE_SIZE
    end in
  if negb (co_size o mod align =? 0) then serr InvalidArgs
  else
    let! v := to_frame vself in
    let! root_vmar_offset :=
      match co_offset o with
      | Some offset =>
          if negb (offset mod PAGE_SIZE =? 0) then serr InvalidArgs
          else
            let! off := slift (uadd offset (base v)) in
            if negb (off mod align =? 0) then serr InvalidArgs else sret (Some off)
      | None => sret None
      end in
    let! child := to_frame (alloc_child_vmar root_vmar_offset (co_size o) align) in
    sret (Cap child (co_rights o)).

(** ** Forking *)

(** [Vmar_::set_pt_read_only] *)
Definition vmar_set_pt_read_only : vmarM unit :=
  let! v := vself in
  if vmar_destroyed v then serr ENOSYS
  else sfor (vm_mappings v) (fun p =>
    let! _ := detached p.2 mapping_set_pt_read_only in sret tt).

(** The part of [Vmar_::new_cow] after the choice of the [VmSpace]: clone the
    free regions, the children and the mappings of [v]. *)
Fixpoint cow_clone (fuel : nat) (root : bool) (v : Vmar_) : vmarM Vmar_ :=
  match fuel with
  | O => spanic
  | S fuel' =>
      if vmar_destroyed v then serr ENOSYS
      else
        let! children := vfold (child_vmar_s v) [] (fun p acc =>
          let! c := cow_clone fuel' false p.2 in sret (bt_insert p.1 c acc)) in
        let! mappings := vfold (vm_mappings v) [] (fun p acc =>
          let! q := detached p.2 (mapping_new_cow p.2) in sret (bt_insert p.1 q.1 acc)) in
        sret (MkVmar false children mappings (bt_append [] (free_regions v)) (base v) (size v) root)
  end.

(** [Vmar_::new_cow_root]: the new VMAR and its [VmSpace]; [fresh] is the page
    table that [MemorySet::new] builds. *)
Definition new_cow_root (fuel : nat) (fresh : PT) : vmarM (Vmar_ * MemorySet PT) :=
  let! v := vself in
  if negb (is_root v) then serr EINVAL
  else
    let! _ := vmar_set_pt_read_only in
    let! space := (fun s => match vs_deep_copy fresh (w_space s.2) with
                            | (Ok _, ms') => (Ok ms', s)
                            | _ => (Panic, s)
                            end) in
    let! v' := cow_clone fuel true v in
    sret (v', space).


(** ** The capability [Vmar<Rights>] (dyn_cap.rs)

    [rights] are those of the handle the method is called on. *)

Definition require_right (rights need : Z) : vmarM unit :=
  vpure (vmar_check_rights (Cap tt rights) need).

(** [Vmar<Rights>::new_map(..).build()] with the options set by [setup]. *)
Definition dyn_map (rights : Z) (vmo : cap V) (perms : Z)
    (setup : VmarMapOptions -> VmarMapOptions) : vmarM Z := fun s =>
  (let! _ := require_right rights Rights.DUP in
   map_build (setup (map_options_new (w_vmos s.2) vmo perms))) s.

Definition dyn_protect (fuel : nat) (rights perms : Z) (r : range) : vmarM unit :=
  let! _ := require_right rights (rights_of_perms perms) in
  vmar_protect fuel perms r.

Definition dyn_fork_from (fuel : nat) (fresh : PT) (rights : Z)
    : vmarM (cap Vmar_ * MemorySet PT) :=
  let! _ := require_right rights Rights.READ in
  let! p := new_cow_root fuel fresh in
  sret (Cap p.1 Rights.all, p.2).

Definition dyn_handle_page_fault (fuel : nat) (rights page_fault_addr : Z)
    (not_present write : bool) : vmarM unit :=
  let! _ := require_right rights (if write then Rights.WRITE else Rights.READ) in
  vmar_handle_page_fault fuel page_fault_addr not_present write.


End Vmar.
Arguments Vmar_ : clear implicits.
Arguments VmarMapOptions : clear implicits.
