(* ===== verification/VmarFacts.v ===== *)
(** The operations of a VMAR against an abstract view of its mappings: which
    VMO, at which offset and with which permissions, backs an address. *)

From S2P Require Import Prelude BTree AlignExt Interval FreeRegion Frame FrameFacts PageTable PageTableFacts PtInterface MemorySet MemorySetFacts VmSpace Perms VmMapping VmMappingFacts Vmar.

Section VmarFacts.
Context {PT : Type} {ops : PtOps PT} {ok : PT -> Prop}
  {view : PT -> Z -> option (Z * Z)} {room : PT -> nat}.
Context {laws : PtLaws ops ok view room}.
Context {VS V : Type} {vops : VmoOps VS V}.
Notation ms_ok := (ms_ok (ok := ok) (view := view)).
Notation VmMapping := (VmMapping V).
Notation world := (world PT VS).
Notation Vmar_ := (Vmar_ V).
Notation vmarM := (vmarM (PT := PT) (VS := VS) (V := V)).
Notation mapM := (mapM (PT := PT) (VS := VS) (V := V)).
Notation unmaps := (unmaps (ok := ok) (view := view) (room := room)).
Implicit Types (m : VmMapping) (w : world) (v : Vmar_).

(** ** The abstract view *)

(** What backs address [a]: the VMO, the offset into it, the permissions. *)
Fixpoint backing (l : list (Z * VmMapping)) (a : Z) : option (cap V * Z * Z) :=
  match l with
  | [] => None
  | (_, m) :: l' =>
      if decide (in_range a (irange m))
      then Some (vmo m, vmo_offset m + (a - map_to_addr m), perm m)
      else backing l' a
  end.

Definition backed_by m (a : Z) : cap V * Z * Z :=
  (vmo m, vmo_offset m + (a - map_to_addr m), perm m).

Lemma backing_elem l a x :
  backing l a = Some x -> exists k m, (k, m) ∈ l /\ in_range a (irange m) /\ x = backed_by m a.
Proof.
  induction l as [|[k m] l IH]; [done|]. simpl. destruct (decide _) as [Ha|Ha].
  - intros [= <-]. exists k, m. split_and!; [set_solver|done|done].
  - intros (k' & m' & ? & ? & ?)%IH. exists k', m'. split_and!; [set_solver|done|done].
Qed.

Lemma backing_none l a : backing l a = None <-> ~ covered l a.
Proof.
  induction l as [|[k m] l IH]; [split; [intros _; apply covered_nil|done]|].
  rewrite covered_cons. simpl. destruct (decide _); naive_solver.
Qed.

Lemma covered_backing l a : covered l a <-> is_Some (backing l a).
Proof.
  pose proof (backing_none l a) as Hn. destruct (backing l a) as [x|] eqn:Hb.
  - split; [by eexists|intros _]. destruct (backing_elem _ _ _ Hb) as (k & m & ? & ? & _). by exists k, m.
  - split; [intros Hc; by destruct (proj1 Hn eq_refl)|by intros []].
Qed.

Lemma backing_some l k m a :
  iv_ok l -> (k, m) ∈ l -> in_range a (irange m) -> backing l a = Some (backed_by m a).
Proof.
  intros Hok Hin Ha. destruct (backing l a) as [x|] eqn:Hb.
  - destruct (backing_elem _ _ _ Hb) as (k' & m' & Hin' & Ha' & ->).
    by destruct (covered_unique _ _ _ _ _ _ Hok Hin Hin' Ha Ha') as [_ ->].
  - apply backing_none in Hb. exfalso. apply Hb. by exists k, m.
Qed.

(** ** Invariant *)

Definition free_ok (r : FreeRegion) : Prop :=
  fr_start r mod PAGE_SIZE = 0 /\ fr_end r mod PAGE_SIZE = 0 /\ 0 <= fr_start r /\ fr_end r <= 2 ^ 47.

(** A live VMAR: its free regions, mappings and children are disjoint interval
    maps, page-aligned and in user space, no page is mapped at a free address,
    and its mappings record their pages. *)
Record vmar_ok v w : Prop := {
  vo_alive : vmar_destroyed v = false;
  vo_free : iv_ok (free_regions v);
  vo_maps : iv_ok (vm_mappings v);
  vo_children : iv_ok (child_vmar_s v);
  vo_free_maps : forall a, covered (free_regions v) a -> ~ covered (vm_mappings v) a;
  vo_free_children : forall a, covered (free_regions v) a -> ~ covered (child_vmar_s v) a;
  vo_maps_children : forall a, covered (vm_mappings v) a -> ~ covered (child_vmar_s v) a;
  vo_free_al : forall k r, (k, r) ∈ free_regions v -> free_ok r;
  vo_maps_ok : forall k m, (k, m) ∈ vm_mappings v -> mapping_ok m;
  vo_space : ms_ok (w_space w);
  vo_unmapped : forall a, covered (free_regions v) a -> entry (w_space w) a = None;
  vo_tracked : forall k m, (k, m) ∈ vm_mappings v -> tracked m w;
}.

(** ** Running VMAR operations *)

Lemma vself_bind {B} (k : Vmar_ -> vmarM B) (s : Vmar_ * world) : sbind vself k s = k s.1 s.
Proof. done. Qed.
Lemma vmodify_bind {B} f (k : unit -> vmarM B) (s : Vmar_ * world) :
  sbind (vmodify f) k s = k tt (f s.1, s.2).
Proof. done. Qed.
Lemma vpure_bind {A B} (o : outcome Errno A) (k : A -> vmarM B) s a :
  o = Ok a -> sbind (vpure o) k s = k a s.
Proof. by intros ->. Qed.

Lemma vassert_bind {B} (b : bool) (k : unit -> vmarM B) s :
  b = true -> sbind (vpure (oassert b)) k s = k tt s.
Proof. by intros ->. Qed.

Lemma at_mapping_ok {A} k (op : mapM A) v w m a m' w' :
  bt_get k (vm_mappings v) = Some m -> op (m, w) = (Ok a, (m', w')) ->
  at_mapping k op (v, w) = (Ok a, (set_mappings (bt_insert k m' (vm_mappings v)) v, w')).
Proof. intros Hg Hop. unfold at_mapping. cbn [fst snd]. rewrite Hg, Hop. done. Qed.

Lemma detached_ok {A} m (op : mapM A) v w a m' w' :
  op (m, w) = (Ok a, (m', w')) -> detached m op (v, w) = (Ok (a, m'), (v, w')).
Proof. intros Hop. unfold detached. cbn [fst snd]. by rewrite Hop. Qed.

Lemma set_mappings_same v : set_mappings (vm_mappings v) v = v.
Proof. by destruct v. Qed.

Lemma at_mapping_self v w k m :
  bt_sorted (vm_mappings v) -> bt_get k (vm_mappings v) = Some m ->
  at_mapping k self_ (v, w) = (Ok m, (v, w)).
Proof.
  intros Hs Hg. rewrite (at_mapping_ok k self_ v w m m m w Hg eq_refl).
  by rewrite bt_insert_same, set_mappings_same.
Qed.

Lemma try_clone_ok m : mapping_ok m -> try_clone m = Ok m.
Proof.
  intros Hm. unfold try_clone, vmo_check_rights. rewrite (mo_dup _ Hm). cbn [obind].
  by destruct m as [? ? ? ? ? ? []].
Qed.

(** ** Trimming one mapping *)

(** What [trim_mapping] leaves: the mapping in place, the part after the
    trimmed range, and the accumulators. *)
Record trimmed (t : range) m (acc acc' : trim_acc) (m1 : VmMapping) (o : option VmMapping) : Prop := {
  tr_rem : acc'.1 = if r_start t <=? map_to_addr m then bt_insert (map_to_addr m) tt acc.1 else acc.1;
  tr_left : map_to_addr m < r_start t -> piece m (map_to_addr m) (r_start t) m1;
  tr_app : acc'.2 = match o with Some m2 => bt_insert (r_end t) m2 acc.2 | None => acc.2 end;
  tr_right : match o with
             | Some m2 => r_end t < mend m /\ piece m (r_end t) (mend m) m2
             | None => r_end t = mend m
             end;
}.

Definition inside (t : range) m : Prop :=
  r_start t mod PAGE_SIZE = 0 /\ r_end t mod PAGE_SIZE = 0 /\
  map_to_addr m <= r_start t < r_end t /\ r_end t <= mend m.

Lemma trim_mapping_ok v w m t acc :
  bt_sorted (vm_mappings v) -> bt_get (map_to_addr m) (vm_mappings v) = Some m ->
  mapping_ok m -> ms_ok (w_space w) -> tracked m w -> inside t m ->
  (map_to_addr m < r_start t -> r_end t < mend m) ->
  exists acc' m1 o w',
    trim_mapping (map_to_addr m) t acc (v, w) =
      (Ok acc', (set_mappings (bt_insert (map_to_addr m) m1 (vm_mappings v)) v, w')) /\
    trimmed t m acc acc' m1 o /\
    unmaps (fun x => in_range x t) (fun x => in_range x (irange m)) w w'.
Proof.
  intros Hs Hg Hm Hok Htr (Hts & Hte & Hle & Hend) Htail. pose proof (mo_end _ Hm) as Hmax.
  pose proof (mo_off_max _ Hm). unfold trim_mapping.
  rewrite (sbind_ok _ _ _ _ _ (at_mapping_self v w _ m Hs Hg)).
  rewrite (vpure_bind _ _ _ _ (mapping_range_ok m Hm)).
  assert (is_intersected (Range (map_to_addr m) (mend m)) t = true) as ->
    by (apply Z.ltb_lt; cbn; lia).
  cbn [negb r_start r_end]. destruct (Z.leb_spec (r_start t) (map_to_addr m)) as [Hfl|Hin].
  - assert (Heq : r_start t = map_to_addr m) by lia.
    destruct (Z.leb_spec (mend m) (r_end t)) as [Hall|Hpart]; cbn [andb].
    + destruct (mapping_unmap_ok m w t Hm Hok) as (l & w' & Hrun & _ & Hum);
        [done|done|lia|unfold mend in *; lia|unfold mend in *; lia|].
      rewrite (sbind_ok _ _ _ _ _ (at_mapping_ok _ _ _ _ _ _ _ _ Hg Hrun)).
      eexists _, _, None, w'. split_and!; [done| |].
      * constructor; [by rewrite (proj2 (Z.leb_le _ _))|lia|done|lia].
      * eapply unmaps_weaken; [exact Hum|by left|]. unfold in_range, irange, mapping_interval, mend in *.
        cbn. lia.
    + rewrite (proj2 (Z.leb_le (r_end t) (mend m))) by lia.
      destruct (trim_left_ok m w (r_end t) Hm Hok Htr Hte ltac:(lia)) as (m1 & w' & Hrun & Hpc & Hum).
      rewrite (sbind_ok _ _ _ _ _ (at_mapping_ok _ _ _ _ _ _ _ _ Hg Hrun)).
      erewrite sbind_ok; [|apply at_mapping_self; cbn; [by apply bt_insert_sorted|
        rewrite bt_get_insert by done; by rewrite Z.eqb_refl]].
      eexists _, m1, (Some m1), w'. split_and!; [done| |].
      * constructor; [by rewrite (proj2 (Z.leb_le _ _))|lia|done|done].
      * eapply unmaps_weaken; [exact Hum|..]; intros x; unfold in_range, irange, mapping_interval, mend in *;
          cbn; [left; lia|lia].
  - cbn [andb]. specialize (Htail Hin). rewrite (proj2 (Z.leb_le (r_end t) (mend m))) by lia.
    destruct (trim_left_ok m w (r_end t) Hm Hok Htr Hte ltac:(lia)) as (m2 & w1 & Hrun1 & Hpc2 & Hum1).
    destruct (trim_right_ok m w1 (r_start t) Hm (um_ok _ _ _ _ Hum1) Hts ltac:(lia))
      as (m1 & w' & Hrun2 & Hpc1 & Hum2).
    erewrite sbind_ok; cycle 1.
    { rewrite (vpure_bind _ _ _ _ (try_clone_ok m Hm)).
      rewrite (sbind_ok _ _ _ _ _ (detached_ok _ _ _ _ _ _ _ Hrun1)). reflexivity. }
    rewrite (sbind_ok _ _ _ _ _ (at_mapping_ok _ _ _ _ _ _ _ _ Hg Hrun2)).
    eexists _, m1, (Some m2), w'. split_and!; [done| |].
    + constructor; [by rewrite (proj2 (Z.leb_gt _ _))|done|done|done].
    + eapply unmaps_weaken; [exact (unmaps_trans _ _ _ _ _ _ _ Hum1 Hum2)|..]; intros x;
        unfold in_range, irange, mapping_interval, mend in *; cbn; [left; lia|lia].
Qed.

(** ** Trimming the mappings of a range ([destroy]) *)

(** One trimmed mapping: the mapping, what is left in place, what follows the
    range. *)
Notation out := (VmMapping * VmMapping * option VmMapping)%type.
Implicit Types (outs : list out).

Definition meet (r : range) m : range :=
  Range (Z.max (map_to_addr m) (r_start r)) (Z.min (mend m) (r_end r)).

Definition out_cur outs : list (Z * VmMapping) := (fun o => (map_to_addr o.1.1, o.1.2)) <$> outs.
Definition out_rem (r : range) outs : list (Z * unit) :=
  (fun o => (map_to_addr o.1.1, tt)) <$> filter (fun o => r_start r <= map_to_addr o.1.1) outs.
Definition out_app (r : range) outs : list (Z * VmMapping) :=
  omap (fun o => (fun m2 => (r_end r, m2)) <$> o.2) outs.
Definition out_free (r : range) (l : list VmMapping) : list (Z * FreeRegion) :=
  (fun m => (r_start (meet r m), MkFreeRegion (meet r m))) <$> l.

(** The parts of [m] outside [r] are kept, the rest is gone. *)
Definition out_ok (r : range) (o : out) : Prop :=
  let m := o.1.1 in
  (map_to_addr m < r_start r -> piece m (map_to_addr m) (r_start r) o.1.2) /\
  match o.2 with
  | Some m2 => r_end r < mend m /\ piece m (r_end r) (mend m) m2
  | None => mend m <= r_end r
  end.

(** The loop of [destroy] over the mappings that meet [r]. *)
Definition destroy_body (r : range) m (acc : trim_acc * list (Z * FreeRegion))
    : vmarM (trim_acc * list (Z * FreeRegion)) :=
  let! mr := vpure (mapping_range m) in
  let! _ := vpure (oassert (is_intersected mr r)) in
  let! ir := vpure (get_intersected_range mr r) in
  let! trims := trim_mapping (map_to_addr m) ir acc.1 in
  sret (trims, insert_region acc.2 (MkFreeRegion ir)).

(** No mapping is cut off at its end only. *)
Definition no_tail_cut (r : range) m : Prop :=
  map_to_addr m < r_start r < mend m -> r_end r < mend m.

Definition aligned (r : range) : Prop := r_start r mod PAGE_SIZE = 0 /\ r_end r mod PAGE_SIZE = 0.

(** A mapping the loop can handle. *)
Record ready (r : range) w m : Prop := {
  rd_ok : mapping_ok m;
  rd_tracked : tracked m w;
  rd_overlap : map_to_addr m < r_end r /\ r_start r < mend m;
  rd_tail : no_tail_cut r m;
}.

Lemma meet_inside r m :
  mapping_ok m -> aligned r -> map_to_addr m < r_end r -> r_start r < mend m -> r_start r < r_end r ->
  inside (meet r m) m.
Proof.
  intros [Ha Hs _ _ Hsp _ _ _ _ _] [Hrs Hre] H1 H2 H3. unfold inside, meet, mend in *. cbn [r_start r_end].
  split_and!; try lia.
  - destruct (Z.max_spec (map_to_addr m) (r_start r)) as [[_ ->]|[_ ->]]; done.
  - destruct (Z.min_spec (map_to_addr m + map_size m) (r_end r)) as [[_ ->]|[_ ->]]; [|done].
    apply mod0 in Ha as [qa ->], Hs as [qs ->]. apply mod0. exists (qa + qs). lia.
Qed.

Lemma tracked_unmaps must may w w' m : unmaps must may w w' -> tracked m w -> tracked m w'.
Proof.
  intros Hum Htr i Hi He. apply Htr; [done|]. intros He0. apply He.
  by apply (unmaps_none _ _ _ _ _ Hum).
Qed.

Lemma destroy_body_ok r v w m acc freed :
  bt_sorted (vm_mappings v) -> bt_get (map_to_addr m) (vm_mappings v) = Some m ->
  ms_ok (w_space w) -> aligned r -> r_start r < r_end r -> ready r w m ->
  exists m1 o w',
    destroy_body r m (acc, freed) (v, w) =
      (Ok ((bt_append acc.1 (out_rem r [(m, m1, o)]), bt_append acc.2 (out_app r [(m, m1, o)])),
           bt_append freed (out_free r [m])),
       (set_mappings (bt_insert (map_to_addr m) m1 (vm_mappings v)) v, w')) /\
    out_ok r (m, m1, o) /\
    unmaps (fun x => in_range x (irange m) /\ in_range x r) (fun x => in_range x (irange m)) w w'.
Proof.
  intros Hs Hg Hok Hal Hne [Hm Htr [Ho1 Ho2] Htail]. unfold no_tail_cut in Htail.
  assert (Hint : is_intersected (Range (map_to_addr m) (mend m)) r = true).
  { pose proof (mo_size_pos _ Hm). apply Z.ltb_lt. unfold mend in *. cbn. lia. }
  unfold destroy_body. rewrite (vpure_bind _ _ _ _ (mapping_range_ok m Hm)).
  rewrite Hint, vassert_bind by done.
  erewrite vpure_bind by (unfold get_intersected_range; rewrite Hint; reflexivity).
  cbn [r_start r_end fst snd]. fold (meet r m).
  destruct (trim_mapping_ok v w m (meet r m) acc Hs Hg Hm Hok Htr) as (acc' & m1 & o & w' & Hrun & Ht & Hum).
  { by apply meet_inside. }
  { unfold meet. cbn. lia. }
  rewrite (sbind_ok _ _ _ _ _ Hrun). exists m1, o, w'. destruct acc' as [rem' app'].
  destruct Ht as [Hrem Hl Happ Hr]. cbn [fst snd] in *. subst rem' app'. split_and!.
  - unfold sret, bt_append, out_rem, out_app, out_free, meet, insert_region, fr_start.
    rewrite filter_cons, filter_nil. cbn [fst snd r_start r_end].
    destruct (decide (r_start r <= map_to_addr m)) as [Hd|Hd];
      destruct (Z.leb_spec (Z.max (map_to_addr m) (r_start r)) (map_to_addr m)); try lia;
      (destruct o as [m2|]; [|done]); cbn in Hr |- *; rewrite Z.min_r in Hr |- * by lia; done.
  - unfold meet in Hl, Hr. cbn [r_start r_end] in Hl, Hr. split; cbn [fst snd].
    + intros Hlt. rewrite Z.max_r in Hl by lia. by apply Hl.
    + destruct o as [m2|]; [|lia]. rewrite Z.min_r in Hr by lia. done.
  - eapply unmaps_weaken; [exact Hum| |done]. intros x [Hx1 Hx2]. left.
    unfold in_range, meet, irange, mapping_interval, mend in *. cbn in *. lia.
Qed.

Lemma out_rem_cons r o outs : out_rem r (o :: outs) = out_rem r [o] ++ out_rem r outs.
Proof. unfold out_rem. rewrite !filter_cons, filter_nil. by destruct (decide _). Qed.
Lemma out_app_cons r o outs : out_app r (o :: outs) = out_app r [o] ++ out_app r outs.
Proof. unfold out_app. simpl. by destruct (o.2). Qed.
Lemma bt_append_app {A} (l l1 l2 : list (Z * A)) : bt_append l (l1 ++ l2) = bt_append (bt_append l l1) l2.
Proof. apply foldl_app. Qed.

(** Mappings in address order. *)
Definition in_order (l : list VmMapping) : Prop :=
  StronglySorted (fun m1 m2 => mend m1 <= map_to_addr m2) l.

Lemma destroy_loop r l v w acc freed :
  bt_sorted (vm_mappings v) -> in_order l ->
  (forall m, m ∈ l -> bt_get (map_to_addr m) (vm_mappings v) = Some m) ->
  ms_ok (w_space w) -> aligned r -> r_start r < r_end r -> Forall (ready r w) l ->
  exists outs w',
    vfold l (acc, freed) (destroy_body r) (v, w) =
      (Ok ((bt_append acc.1 (out_rem r outs), bt_append acc.2 (out_app r outs)),
           bt_append freed (out_free r l)),
       (set_mappings (bt_append (vm_mappings v) (out_cur outs)) v, w')) /\
    outs.*1.*1 = l /\ Forall (out_ok r) outs /\
    unmaps (fun x => exists m, m ∈ l /\ in_range x (irange m) /\ in_range x r)
           (fun x => exists m, m ∈ l /\ in_range x (irange m)) w w'.
Proof.
  intros Hs Hord Hget Hok Hal Hne Hready. revert v w acc freed Hs Hget Hok Hready.
  induction l as [|m l IH]; intros v w acc freed Hs Hget Hok Hready.
  { exists [], w. split_and!; [|done|done|].
    - cbn. rewrite set_mappings_same. by destruct acc.
    - apply unmaps_refl; [done|]. intros x (m & []%elem_of_nil & _). }
  apply Forall_cons in Hready as [Hr1 Hready]. apply StronglySorted_inv in Hord as [Hord Hlt].
  destruct (destroy_body_ok r v w m acc freed Hs) as (m1 & o & w1 & Hrun & Hout & Hum); try done.
  { apply Hget. set_solver. }
  cbn [vfold]. rewrite (sbind_ok _ _ _ _ _ Hrun). cbv beta.
  set (v1 := set_mappings (bt_insert (map_to_addr m) m1 (vm_mappings v)) v).
  rewrite Forall_forall in Hlt. pose proof (mo_size_pos _ (rd_ok _ _ _ Hr1)) as Hpos.
  destruct (IH Hord v1 w1 (bt_append acc.1 (out_rem r [(m, m1, o)]), bt_append acc.2 (out_app r [(m, m1, o)]))
    (bt_append freed (out_free r [m]))) as (outs & w' & Hrun' & Hfst & Houts & Hum').
  - by apply bt_insert_sorted.
  - intros m' Hin. cbn. rewrite bt_get_insert by done. specialize (Hlt m' Hin). unfold mend in Hlt.
    destruct (Z.eqb_spec (map_to_addr m') (map_to_addr m)); [lia|]. apply Hget. set_solver.
  - apply Hum.
  - eapply Forall_impl; [exact Hready|]. intros m' []. constructor; [done| |done|done].
    by eapply tracked_unmaps.
  - exists ((m, m1, o) :: outs), w'. split_and!; [|by rewrite <- Hfst|by constructor|].
    + etrans; [exact Hrun'|]. rewrite (out_rem_cons r (m, m1, o) outs), (out_app_cons r (m, m1, o) outs), !bt_append_app. reflexivity.
    + eapply unmaps_weaken; [exact (unmaps_trans _ _ _ _ _ _ _ Hum Hum')|..]; cbn; intros x.
      * intros (m' & [->|Hin]%elem_of_cons & Hx1 & Hx2); left; [by left|right; eauto].
      * intros [Hx|(m' & Hin & Hx)]; eexists; (split; [|done]); set_solver.
Qed.

(** *** The mappings after the loop *)

(** Merging keeps the regions page-aligned: an end of a merged region is an end
    of one of the regions. *)
Lemma merged_al (l l' : list (Z * FreeRegion)) :
  iv_ok l -> iv_ok l' -> no_adjacent l' -> (forall a, covered l' a <-> covered l a) ->
  (forall k f, (k, f) ∈ l -> free_ok f) -> forall k f, (k, f) ∈ l' -> free_ok f.
Proof.
  intros Hok Hok' Hadj Hcov Hal k f Hin. destruct (iv_key _ Hok' _ _ Hin) as [-> Hlt].
  assert (Hpt : forall x, covered l x -> exists k1 f1, (k1, f1) ∈ l /\ fr_start f1 <= x < fr_end f1) by done.
  assert (Hout : forall x, (x = fr_start f - 1 \/ x = fr_end f) -> ~ covered l x).
  { intros x Hx Hc. apply Hcov in Hc as (k2 & f2 & Hin2 & H2).
    destruct (iv_key _ Hok' _ _ Hin2) as [-> Hlt2]. unfold in_range in H2. fold (istart f2) (iend f2) in H2.
    change (istart f) with (fr_start f) in *. change (iend f) with (fr_end f) in *.
    change (istart f2) with (fr_start f2) in *. change (iend f2) with (fr_end f2) in *.
    destruct (decide (fr_start f = fr_start f2)) as [Heq|Hneq].
    { rewrite Heq in Hin. rewrite (bt_sorted_unique _ _ _ _ (iv_sorted _ Hok') Hin Hin2) in *. lia. }
    pose proof (Hadj _ _ _ _ Hin Hin2). pose proof (Hadj _ _ _ _ Hin2 Hin).
    destruct (iv_ok_sep _ _ _ _ _ Hok' Hin Hin2 Hneq) as [Hs|Hs];
      change (iend f <= istart f2) with (fr_end f <= fr_start f2) in Hs ||
      change (iend f2 <= istart f) with (fr_end f2 <= fr_start f) in Hs; lia. }
  change (istart f < iend f) with (fr_start f < fr_end f) in Hlt.
  assert (Hself : forall x, fr_start f <= x < fr_end f -> covered l x).
  { intros x Hx. apply Hcov. exists (istart f), f. done. }
  destruct (Hpt (fr_start f)) as (k1 & f1 & Hin1 & H1); [apply Hself; lia|].
  destruct (Hpt (fr_end f - 1)) as (k2 & f2 & Hin2 & H2); [apply Hself; lia|].
  destruct (Hal _ _ Hin1) as (? & ? & ? & ?), (Hal _ _ Hin2) as (? & ? & ? & ?).
  assert (fr_start f = fr_start f1).
  { destruct (decide (fr_start f1 < fr_start f)); [exfalso|lia]. apply (Hout (fr_start f - 1)); [by left|].
    exists k1, f1. split; [done|]. apply fr_in_range. lia. }
  assert (fr_end f = fr_end f2).
  { destruct (decide (fr_end f < fr_end f2)); [exfalso|lia]. apply (Hout (fr_end f)); [by right|].
    exists k2, f2. split; [done|]. apply fr_in_range. lia. }
  unfold free_ok. replace (fr_start f) with (fr_start f1) by lia. replace (fr_end f) with (fr_end f2) by lia. done.
Qed.

Section Final.
Context (l0 : list (Z * VmMapping)) (r : range) (outs : list out).
Context (Hl0 : iv_ok l0) (Hm0 : forall k m, (k, m) ∈ l0 -> mapping_ok m).
Context (Hal : aligned r) (Hne : r_start r < r_end r).
Context (Hfst : outs.*1.*1 = find l0 r) (Houts : Forall (out_ok r) outs).

Definition final : list (Z * VmMapping) :=
  bt_retain (fun m => negb (is_destroyed m))
    (apply_trims (bt_append [] (out_rem r outs), bt_append [] (out_app r outs))
       (bt_append l0 (out_cur outs))).

(** A part [a..b] of [m] that [r] leaves. *)
Definition left_by m (a b : Z) : Prop :=
  map_to_addr m <= a < b /\ b <= mend m /\ (b <= r_start r \/ r_end r <= a) /\
  (a = map_to_addr m \/ a = r_end r) /\ (b = mend m \/ b = r_start r).

Lemma member m : m ∈ find l0 r <-> exists o, o ∈ outs /\ o.1.1 = m.
Proof.
  rewrite <- Hfst, list_elem_of_fmap. setoid_rewrite list_elem_of_fmap. split.
  - intros ([m' m1] & -> & o & -> & Ho). by exists o.
  - intros (o & Ho & <-). exists o.1. split; [done|]. by exists o.
Qed.

Lemma member_overlaps o :
  o ∈ outs -> (map_to_addr o.1.1, o.1.1) ∈ l0 /\
    map_to_addr o.1.1 < r_end r /\ r_start r < mend o.1.1.
Proof.
  intros Ho. assert (Hf : o.1.1 ∈ find l0 r) by (apply member; eauto).
  by apply (elem_of_find _ _ _ Hl0) in Hf.
Qed.

Lemma find_in_order : in_order (find l0 r).
Proof.
  rewrite find_filter by done. clear - Hl0. unfold in_order, bt_values.
  induction l0 as [|[k m] l IH]; [constructor|]. cbn [fmap list_fmap snd].
  destruct (iv_ok_head _ _ _ Hl0) as (_ & _ & Hrest).
  specialize (IH (iv_ok_tail _ _ Hl0)). rewrite filter_cons. destruct (decide _); [|done].
  constructor; [done|]. apply Forall_forall. intros m' [_ Hin]%list_elem_of_filter.
  apply list_elem_of_fmap in Hin as ([k' m''] & -> & Hin). by destruct (Hrest _ _ Hin).
Qed.

Lemma cur_nodup : NoDup (bt_keys (out_cur outs)).
Proof.
  assert (bt_keys (out_cur outs) = map_to_addr <$> find l0 r) as ->.
  { rewrite <- Hfst. unfold bt_keys, out_cur. by rewrite <- !list_fmap_compose. }
  assert (Hpos : forall m, m ∈ find l0 r -> 0 < map_size m).
  { intros m [Hin _]%(elem_of_find _ _ _ Hl0). by apply mo_size_pos, (Hm0 _ _ Hin). }
  pose proof find_in_order as Hord. revert Hord Hpos. generalize (find l0 r) as l. clear.
  induction 1 as [|m l Hord IH Hlt]; intros Hpos; cbn; constructor.
  - intros (m' & Heq & Hin)%list_elem_of_fmap. rewrite Forall_forall in Hlt.
    specialize (Hlt m' Hin). specialize (Hpos m ltac:(set_solver)). unfold mend in Hlt. lia.
  - apply IH. intros m' ?. apply Hpos. set_solver.
Qed.

Lemma rem_nodup : NoDup (bt_keys (out_rem r outs)).
Proof.
  assert (Hsub : sublist (bt_keys (out_rem r outs)) (bt_keys (out_cur outs))).
  { unfold bt_keys, out_rem, out_cur. rewrite <- !list_fmap_compose.
    apply fmap_sublist, sublist_filter. }
  exact (sublist_NoDup _ _ cur_nodup Hsub).
Qed.

Lemma app_nodup : NoDup (bt_keys (out_app r outs)).
Proof.
  pose proof find_in_order as Hord. rewrite <- Hfst in Hord. pose proof member_overlaps as Hov.
  revert Hord Hov Houts. clear. induction outs as [|o l IH]; intros Hord Hov Hok; [constructor|].
  apply Forall_cons in Hok as [[_ Hr] Hok]. cbn in Hord. apply StronglySorted_inv in Hord as [Hord Hlt].
  unfold out_app. cbn [omap list_omap]. fold (out_app r l).
  destruct o as [[m m1] [m2|]]; cbn in *; [|apply IH; [done|intros; apply Hov; set_solver|done]].
  assert (l = []) as ->; [|constructor; [set_solver|constructor]].
  destruct l as [|o' l]; [done|exfalso]. rewrite Forall_forall in Hlt.
  specialize (Hlt o'.1.1). destruct (Hov o') as (_ & ? & _); [set_solver|].
  destruct Hr. assert (mend m <= map_to_addr o'.1.1) by (apply Hlt; set_solver). lia.
Qed.

Lemma elem_of_rem k :
  k ∈ bt_keys (bt_append [] (out_rem r outs)) <->
  exists o, o ∈ outs /\ k = map_to_addr o.1.1 /\ r_start r <= map_to_addr o.1.1.
Proof.
  rewrite bt_keys_elem. setoid_rewrite (bt_append_nil_elem _ _ rem_nodup). unfold out_rem. split.
  - intros ([] & Hin). apply list_elem_of_fmap in Hin as (o & [= ->] & [Hs Ho]%list_elem_of_filter). eauto.
  - intros (o & Ho & -> & Hs). exists tt. apply list_elem_of_fmap. exists o.
    split; [done|]. by apply list_elem_of_filter.
Qed.

Lemma elem_of_app_out k m2 :
  (k, m2) ∈ bt_append [] (out_app r outs) <->
  exists o, o ∈ outs /\ k = r_end r /\ o.2 = Some m2.
Proof.
  rewrite (bt_append_nil_elem _ _ app_nodup). unfold out_app. rewrite list_elem_of_omap. split.
  - intros (o & Ho & Heq). destruct (o.2) as [m|] eqn:E; [|done]. cbn in Heq. injection Heq as <- <-. eauto.
  - intros (o & Ho & -> & E). exists o. by rewrite E.
Qed.

Lemma elem_of_cur k m' :
  (k, m') ∈ bt_append l0 (out_cur outs) <->
  (exists o, o ∈ outs /\ k = map_to_addr o.1.1 /\ m' = o.1.2) \/
  ((k, m') ∈ l0 /\ ~ overlaps r m').
Proof.
  rewrite (bt_elem_append _ _ _ (iv_sorted _ Hl0) cur_nodup). cbn [fst].
  assert (Hcur : (k, m') ∈ out_cur outs <-> exists o, o ∈ outs /\ k = map_to_addr o.1.1 /\ m' = o.1.2).
  { unfold out_cur. rewrite list_elem_of_fmap. naive_solver. }
  rewrite Hcur. split; (intros [?|[Hin Hk]]; [by left|right; split; [done|]]).
  - intros Hov. apply Hk, bt_keys_elem. destruct (iv_key _ Hl0 _ _ Hin) as [-> _].
    assert (Hf : m' ∈ find l0 r) by (by apply (elem_of_find _ _ _ Hl0)).
    apply member in Hf as (o & Ho & <-). exists o.1.2. unfold out_cur. apply list_elem_of_fmap. eauto.
  - intros (m1 & Hin1)%bt_keys_elem. unfold out_cur in Hin1.
    apply list_elem_of_fmap in Hin1 as (o & [= -> ->] & Ho).
    destruct (member_overlaps o Ho) as (Hin' & Hov).
    rewrite (bt_sorted_unique _ _ _ _ (iv_sorted _ Hl0) Hin Hin') in Hk. by apply Hk.
Qed.

Lemma elem_of_trimmed k m' :
  (k, m') ∈ apply_trims (bt_append [] (out_rem r outs), bt_append [] (out_app r outs))
              (bt_append l0 (out_cur outs)) <->
  (exists o, o ∈ outs /\ k = r_end r /\ o.2 = Some m') \/
  (exists o, o ∈ outs /\ k = map_to_addr o.1.1 /\ m' = o.1.2 /\ map_to_addr o.1.1 < r_start r) \/
  ((k, m') ∈ l0 /\ ~ overlaps r m').
Proof.
  unfold apply_trims. cbn [fst snd].
  match goal with |- context [foldl _ ?a (bt_append [] (out_app r outs))] =>
    change (foldl _ a (bt_append [] (out_app r outs))) with (bt_append a (bt_append [] (out_app r outs))) end.
  rewrite bt_elem_append; cycle 1.
  { apply bt_removes_sorted, bt_append_sorted, (iv_sorted _ Hl0). }
  { apply bt_sorted_NoDup_keys, bt_append_sorted. constructor. }
  rewrite bt_removes_elem, elem_of_app_out, elem_of_cur, elem_of_rem, bt_keys_elem. cbn [fst].
  setoid_rewrite elem_of_app_out.
  assert (Hend : forall o m2, o ∈ outs -> o.2 = Some m2 ->
    forall m, (r_end r, m) ∈ l0 -> False).
  { intros o m2 Ho E m Hin. destruct (member_overlaps o Ho) as (Hin' & H1 & H2).
    rewrite Forall_forall in Houts. destruct (Houts o Ho) as [_ Hr]. rewrite E in Hr.
    destruct (iv_ok_sep _ _ _ _ _ Hl0 Hin Hin' ltac:(lia)) as [Hsep|Hsep];
      destruct (iv_key _ Hl0 _ _ Hin); unfold iend, istart, irange, mapping_interval, mend in *; cbn in *; lia. }
  split.
  - intros [?|[[[(o & Ho & -> & ->)|[Hin Hno]] Hrem] Happ]]; [by left|right; left|by right; right].
    exists o. split_and!; [done..|]. apply Z.nle_gt. intros Hle. apply Hrem. eauto.
  - intros [?|[(o & Ho & -> & -> & Hlt)|[Hin Hno]]]; [by left|right|right].
    + destruct (member_overlaps o Ho) as (Hin & Hov). split; [split; [left; eauto|]|].
      * intros (o' & Ho' & Heq & Hle). lia.
      * intros (m2 & o' & Ho' & Heq & E). rewrite Heq in Hin. by eapply Hend.
    + destruct (iv_key _ Hl0 _ _ Hin) as [-> _]. split; [split; [by right|]|].
      * intros (o & Ho & Heq & _). destruct (member_overlaps o Ho) as (Hin' & Hov).
        rewrite Heq in Hin. by rewrite (bt_sorted_unique _ _ _ _ (iv_sorted _ Hl0) Hin Hin') in Hno.
      * intros (m2 & o & Ho & Heq & E). rewrite Heq in Hin. by eapply Hend.
Qed.

Lemma piece_range m a b m1 : piece m a b m1 -> irange m1 = Range a b.
Proof. intros (l & -> & _). unfold irange, mapping_interval. cbn. f_equal. lia. Qed.

Lemma left_by_ok m a b m1 :
  mapping_ok m -> left_by m a b -> piece m a b m1 -> mapping_ok m1.
Proof.
  intros Hm (H1 & H2 & _ & Ha & Hb) Hpc. pose proof (mend_aligned m Hm). destruct Hal.
  eapply piece_ok; [exact Hm|exact Hpc|..]; try lia.
  - destruct Ha as [-> | ->]; [apply Hm|done].
  - destruct Hb as [-> | ->]; done.
Qed.

Lemma final_sound k m' :
  (k, m') ∈ final -> exists m b, (map_to_addr m, m) ∈ l0 /\ left_by m k b /\ piece m k b m'.
Proof.
  unfold final. intros [Hin _]%bt_elem_retain. pose proof (proj1 (Forall_forall _ _) Houts) as Hall.
  apply elem_of_trimmed in Hin as [(o & Ho & -> & E)|[(o & Ho & -> & -> & Hlt)|[Hin Hno]]].
  - destruct (member_overlaps o Ho) as (Hin & H1 & H2). destruct (Hall o Ho) as [_ Hr].
    rewrite E in Hr. exists o.1.1, (mend o.1.1). unfold left_by. split_and!; try tauto; lia.
  - destruct (member_overlaps o Ho) as (Hin & H1 & H2). destruct (Hall o Ho) as [Hl _].
    exists o.1.1, (r_start r). unfold left_by. split_and!; try tauto; try lia.
  - destruct (iv_key _ Hl0 _ _ Hin) as [-> Hpos]. exists m', (mend m').
    change (istart m') with (map_to_addr m') in *. change (iend m') with (mend m') in *.
    split_and!; [done| |apply piece_refl].
    unfold overlaps in Hno. change (istart m') with (map_to_addr m') in Hno.
    change (iend m') with (mend m') in Hno. unfold left_by. split_and!; lia.
Qed.

Lemma final_complete k m x :
  (k, m) ∈ l0 -> in_range x (irange m) -> ~ in_range x r ->
  exists a b m', (a, m') ∈ final /\ piece m a b m' /\ a <= x < b.
Proof.
  intros Hin Hx Hr. destruct (iv_key _ Hl0 _ _ Hin) as [-> _].
  pose proof (Hm0 _ _ Hin) as Hm. change (istart m) with (map_to_addr m) in *.
  change (map_to_addr m <= x < mend m) in Hx. unfold in_range in Hr.
  assert (Hfin : forall a b m', left_by m a b -> piece m a b m' ->
    (a, m') ∈ apply_trims (bt_append [] (out_rem r outs), bt_append [] (out_app r outs))
              (bt_append l0 (out_cur outs)) -> (a, m') ∈ final).
  { intros a b m' Hlb Hpc Hin'. apply bt_elem_retain. split; [done|]. cbn [snd].
    by rewrite (mo_alive _ (left_by_ok _ _ _ _ Hm Hlb Hpc)). }
  destruct (decide (overlaps r m)) as [Hov|Hno].
  - assert (Hf : m ∈ find l0 r) by (by apply (elem_of_find _ _ _ Hl0)).
    apply member in Hf as (o & Ho & Heq). pose proof (proj1 (Forall_forall _ _) Houts) as Hall.
    destruct (Hall o Ho) as [Hl Hright]. rewrite Heq in *.
    unfold overlaps in Hov. change (istart m) with (map_to_addr m) in Hov. change (iend m) with (mend m) in Hov.
    destruct (Z.lt_ge_cases x (r_start r)).
    + exists (map_to_addr m), (r_start r), o.1.2. split_and!; [|apply Hl; lia|lia..].
      eapply Hfin; [|apply Hl; lia|]; [unfold left_by; split_and!; lia|].
      apply elem_of_trimmed. right; left. exists o. rewrite Heq. split_and!; [done..|lia].
    + destruct (o.2) as [m2|] eqn:E; [|lia]. destruct Hright as [H2 Hpc].
      exists (r_end r), (mend m), m2. split_and!; [|done|lia..].
      eapply Hfin; [|exact Hpc|]; [unfold left_by; split_and!; lia|].
      apply elem_of_trimmed. left. eauto.
  - exists (map_to_addr m), (mend m), m. split_and!; [|apply piece_refl|lia..].
    eapply Hfin; [|apply piece_refl|apply elem_of_trimmed; by right; right].
    unfold overlaps in Hno. change (istart m) with (map_to_addr m) in Hno. change (iend m) with (mend m) in Hno.
    unfold left_by. split_and!; lia.
Qed.

Lemma final_iv_ok : iv_ok final.
Proof.
  constructor.
  - unfold final, apply_trims. apply bt_retain_sorted, bt_append_sorted, bt_removes_sorted, bt_append_sorted.
    apply (iv_sorted _ Hl0).
  - intros k m' (m & b & Hin & Hlb & Hpc)%final_sound. unfold istart, iend.
    rewrite (piece_range _ _ _ _ Hpc). cbn. unfold left_by in Hlb. split; [done|lia].
  - intros k1 m1 k2 m2 (n1 & b1 & Hin1 & Hlb1 & Hpc1)%final_sound (n2 & b2 & Hin2 & Hlb2 & Hpc2)%final_sound Hlt.
    unfold istart, iend. rewrite (piece_range _ _ _ _ Hpc1), (piece_range _ _ _ _ Hpc2). cbn.
    unfold left_by in *. destruct (decide (map_to_addr n1 = map_to_addr n2)) as [Heq|Hneq].
    + rewrite Heq in Hin1. pose proof (bt_sorted_unique _ _ _ _ (iv_sorted _ Hl0) Hin1 Hin2). subst n2. lia.
    + destruct (iv_ok_sep _ _ _ _ _ Hl0 Hin1 Hin2 Hneq) as [Hsep|Hsep]; unfold iend, istart in Hsep;
        cbn in Hsep; fold (mend n1) (mend n2) in Hsep; lia.
Qed.

Lemma final_mapping_ok k m' : (k, m') ∈ final -> mapping_ok m'.
Proof. intros (m & b & Hin & Hlb & Hpc)%final_sound. eapply left_by_ok; [by eapply Hm0|done|done]. Qed.

Lemma final_tracked w w' k m' :
  (forall k m, (k, m) ∈ l0 -> tracked m w) ->
  (forall x, entry (w_space w) x = None -> entry (w_space w') x = None) ->
  (k, m') ∈ final -> tracked m' w'.
Proof.
  intros Htr Hsub (m & b & Hin & Hlb & Hpc)%final_sound. unfold left_by in Hlb.
  eapply piece_tracked; [by eapply Htr|exact Hpc|lia|lia|done].
Qed.

Lemma final_backing x : backing final x = if decide (in_range x r) then None else backing l0 x.
Proof.
  destruct (decide (in_range x r)) as [Hr|Hr].
  - apply backing_none. intros (k & m' & (m & b & Hin & Hlb & Hpc)%final_sound & Hx).
    rewrite (piece_range _ _ _ _ Hpc) in Hx. unfold in_range in *. cbn in Hx. unfold left_by in Hlb. lia.
  - destruct (backing l0 x) as [y|] eqn:Hb.
    + destruct (backing_elem _ _ _ Hb) as (k & m & Hin & Hx & ->).
      destruct (final_complete k m x Hin Hx Hr) as (a & b & m' & Hin' & Hpc & Hx').
      rewrite (backing_some _ a m' x final_iv_ok Hin') by (by rewrite (piece_range _ _ _ _ Hpc)).
      destruct Hpc as (l & -> & _). unfold backed_by. cbn. do 3 f_equal. lia.
    + apply backing_none. apply backing_none in Hb. intros (k & m' & (m & b & Hin & Hlb & Hpc)%final_sound & Hx).
      apply Hb. exists (map_to_addr m), m. split; [done|]. rewrite (piece_range _ _ _ _ Hpc) in Hx.
      unfold in_range in *. cbn in *. fold (mend m). unfold left_by in Hlb. lia.
Qed.

(** *** The free regions after the loop *)

Context (fr : list (Z * FreeRegion)) (Hfr : iv_ok fr) (Hfral : forall k f, (k, f) ∈ fr -> free_ok f).
Context (Hfrm : forall x, covered fr x -> ~ covered l0 x).

Definition final_free : list (Z * FreeRegion) := bt_append fr (bt_append [] (out_free r (find l0 r))).

Lemma meet_in m x :
  (map_to_addr m, m) ∈ l0 -> in_range x (meet r m) <-> in_range x (irange m) /\ in_range x r.
Proof. intros _. unfold in_range, meet, irange, mapping_interval, mend. cbn. lia. Qed.

Lemma free_nodup : NoDup (bt_keys (out_free r (find l0 r))).
Proof.
  assert (bt_keys (out_free r (find l0 r)) = (fun m => r_start (meet r m)) <$> find l0 r) as ->.
  { unfold bt_keys, out_free. by rewrite <- list_fmap_compose. }
  assert (Hpos : forall m, m ∈ find l0 r -> r_start r < mend m /\ map_to_addr m < mend m).
  { intros m [Hin [_ ?]]%(elem_of_find _ _ _ Hl0). pose proof (mo_size_pos _ (Hm0 _ _ Hin)).
    unfold mend. split; [done|lia]. }
  pose proof find_in_order as Hord. revert Hord Hpos. generalize (find l0 r) as l. clear.
  induction 1 as [|m l Hord IH Hlt]; intros Hpos; cbn; constructor.
  - intros (m' & Heq & Hin)%list_elem_of_fmap. rewrite Forall_forall in Hlt.
    specialize (Hlt m' Hin). destruct (Hpos m ltac:(set_solver)). cbn in Heq. lia.
  - apply IH. intros m' ?. apply Hpos. set_solver.
Qed.

Lemma elem_of_final_free k f :
  (k, f) ∈ final_free ->
  (k, f) ∈ fr \/ exists m, (map_to_addr m, m) ∈ l0 /\ overlaps r m /\ k = r_start (meet r m) /\ f = MkFreeRegion (meet r m).
Proof.
  unfold final_free. rewrite (bt_elem_append _ _ _ (iv_sorted _ Hfr)); cycle 1.
  { apply bt_sorted_NoDup_keys, bt_append_sorted. constructor. }
  rewrite (bt_append_nil_elem _ _ free_nodup). intros [Hin|[Hin _]]; [right|by left].
  apply list_elem_of_fmap in Hin as (m & [= -> ->] & [Hin Hov]%(elem_of_find _ _ _ Hl0)). by exists m.
Qed.

Lemma final_free_covered x : covered final_free x <-> covered fr x \/ (in_range x r /\ covered l0 x).
Proof.
  split.
  - intros (k & f & [Hin|(m & Hin & _ & -> & ->)]%elem_of_final_free & Hx); [left; by exists k, f|right].
    apply (meet_in m x Hin) in Hx as [Hx1 Hx2]. split; [done|]. by exists (map_to_addr m), m.
  - unfold covered, final_free. setoid_rewrite (bt_elem_append _ _ _ (iv_sorted _ Hfr)); cycle 1.
    { apply bt_sorted_NoDup_keys, bt_append_sorted. constructor. }
    setoid_rewrite bt_keys_elem. setoid_rewrite (bt_append_nil_elem _ _ free_nodup).
    assert (Hof : forall k f, (k, f) ∈ out_free r (find l0 r) -> covered l0 k).
    { intros k f (m & [= -> ->] & [Hin [? ?]]%(elem_of_find _ _ _ Hl0))%list_elem_of_fmap.
      exists (map_to_addr m), m. split; [done|]. pose proof (mo_size_pos _ (Hm0 _ _ Hin)).
      unfold in_range, meet, irange, mapping_interval, istart, iend, mend in *. cbn in *. lia. }
    intros [(k & f & Hin & Hx)|[Hr (k & m & Hin & Hx)]].
    + exists k, f. split; [right; split; [done|]|done]. cbn. intros (f' & Hc%Hof).
      apply (Hfrm k); [|done]. exists k, f. split; [done|]. destruct (iv_key _ Hfr _ _ Hin) as [-> ?].
      unfold in_range. fold (istart f) (iend f). lia.
    + destruct (iv_key _ Hl0 _ _ Hin) as [-> _]. exists (r_start (meet r m)), (MkFreeRegion (meet r m)).
      split; [left|by apply meet_in]. apply list_elem_of_fmap. exists m. split; [done|].
      apply (elem_of_find _ _ _ Hl0). split; [done|]. unfold overlaps, in_range, istart, iend in *. lia.
Qed.

Lemma final_free_iv_ok : iv_ok final_free.
Proof.
  apply iv_ok_points.
  - unfold final_free. apply bt_append_sorted, (iv_sorted _ Hfr).
  - intros k f [Hin|(m & Hin & [H1 H2] & -> & ->)]%elem_of_final_free; [by apply (iv_key _ Hfr)|].
    split; [done|]. pose proof (mo_size_pos _ (Hm0 _ _ Hin)).
    unfold istart, iend, irange, free_region_interval, mapping_interval, meet, mend in *. cbn in *. lia.
  - intros k1 f1 k2 f2 x [H1|(m1 & H1 & _ & -> & ->)]%elem_of_final_free
      [H2|(m2 & H2 & _ & -> & ->)]%elem_of_final_free Hneq Hx1 Hx2.
    + destruct (covered_unique _ _ _ _ _ _ Hfr H1 H2 Hx1 Hx2). done.
    + apply (meet_in m2 x H2) in Hx2 as [Hx2 _]. apply (Hfrm x); [by exists k1, f1|by exists (map_to_addr m2), m2].
    + apply (meet_in m1 x H1) in Hx1 as [Hx1 _]. apply (Hfrm x); [by exists k2, f2|by exists (map_to_addr m1), m1].
    + apply (meet_in m1 x H1) in Hx1 as [Hx1 _]. apply (meet_in m2 x H2) in Hx2 as [Hx2 _].
      destruct (covered_unique _ _ _ _ _ _ Hl0 H1 H2 Hx1 Hx2). by subst.
Qed.

Lemma final_free_al k f : (k, f) ∈ final_free -> free_ok f.
Proof.
  intros [Hin|(m & Hin & [H1 H2] & -> & ->)]%elem_of_final_free; [by eapply Hfral|].
  pose proof (Hm0 _ _ Hin) as Hm. destruct (meet_inside r m Hm Hal H1 H2 Hne) as (? & ? & ? & ?).
  pose proof (mo_addr_pos _ Hm). pose proof (mo_end _ Hm).
  unfold free_ok, fr_start, fr_end. cbn [fr_range]. split_and!; [done|done|lia|lia].
Qed.
End Final.
End VmarFacts.
