(* ===== verification/VmarSpec.v ===== *)
(** What a VMAR promises: [munmap], [mmap], [mprotect] and page faults against
    the abstract view of [VmarFacts.v]. *)

From S2P Require Import Prelude BTree AlignExt Interval FreeRegion Frame FrameFacts PageTable PageTableFacts PtInterface MemorySet MemorySetFacts VmSpace Perms VmMapping VmMappingFacts Vmar VmarFacts.

Section Spec.
Context {PT : Type} {ops : PtOps PT} {ok : PT -> Prop}
  {view : PT -> Z -> option (Z * Z)} {room : PT -> nat}.
Context {laws : PtLaws ops ok view room}.
Context {VS V : Type} {vops : VmoOps VS V}.
Notation ms_ok := (ms_ok (ok := ok) (view := view)).
Notation VmMapping := (VmMapping V).
Notation world := (world PT VS).
Notation Vmar_ := (Vmar_ V).
Notation vmar_ok := (vmar_ok (ok := ok) (view := view)).
Implicit Types (m : VmMapping) (w : world) (v : Vmar_).

(** ** Unmapping a range *)

(** The range meets no child VMAR. *)
Definition no_child v (r : range) : Prop := forall a, covered (child_vmar_s v) a -> ~ in_range a r.

Lemma no_child_find v r :
  iv_ok (child_vmar_s v) -> r_start r < r_end r -> no_child v r -> find (child_vmar_s v) r = [].
Proof. intros Hok Hne Hno. apply find_avoid; [done|done|]. intros x Hx Hc. by apply (Hno x). Qed.

Lemma check_destroy_ok v w r :
  vmar_destroyed v = false -> aligned r -> find (child_vmar_s v) r = [] ->
  check_destroy_range r (v, w) = (Ok tt, (v, w)).
Proof.
  intros Hal [Hs He] Hf. unfold check_destroy_range. rewrite Hs, He.
  rewrite !vassert_bind by done. rewrite vself_bind. cbn [fst]. by rewrite Hal, Hf.
Qed.

Lemma destroy_run v w r fuel :
  vmar_ok v w -> aligned r -> r_start r < r_end r -> no_child v r ->
  (forall k m, (k, m) ∈ vm_mappings v -> no_tail_cut r m) ->
  exists outs fr' w',
    destroy fuel r (v, w) =
      (Ok tt, (set_free fr' (set_mappings (final (vm_mappings v) r outs)
                 (set_children (bt_retain (fun c => negb (vmar_destroyed c)) (child_vmar_s v)) v)), w')) /\
    outs.*1.*1 = find (vm_mappings v) r /\ Forall (out_ok r) outs /\
    iv_ok fr' /\ (forall a, covered fr' a <-> covered (final_free (vm_mappings v) r (free_regions v)) a) /\
    (forall k f, (k, f) ∈ fr' -> free_ok f) /\
    unmaps (ok := ok) (view := view) (room := room)
      (fun x => in_range x r /\ covered (vm_mappings v) x)
      (fun x => exists k m, (k, m) ∈ vm_mappings v /\ overlaps r m /\ in_range x (irange m)) w w'.
Proof.
  intros [Halive Hfr Hmaps Hch Hfm _ _ Hfal Hmo Hsp _ Htr] Hal Hne Hno Htail.
  pose proof (no_child_find v r Hch Hne Hno) as Hnf.
  unfold destroy. rewrite (sbind_ok _ _ _ _ _ (check_destroy_ok v w r Halive Hal Hnf)), vself_bind.
  cbn [fst]. rewrite Halive, Hnf. cbn [vfold].
  rewrite (sbind_ok (sret []) _ _ [] _ eq_refl), vmodify_bind. cbn [fst snd].
  set (v1 := set_children _ v).
  destruct (destroy_loop (ok := ok) (view := view) (room := room) r (find (vm_mappings v) r) v1 w ([], []) [])
    as (outs & w' & Hrun & Hfst & Houts & Hum); try done.
  - apply (iv_sorted _ Hmaps).
  - by apply find_in_order.
  - intros m [Hin _]%(elem_of_find _ _ _ Hmaps). by apply bt_elem_get; [apply (iv_sorted _ Hmaps)|].
  - apply Forall_forall. intros m [Hin Hov]%(elem_of_find _ _ _ Hmaps).
    constructor; [by eapply Hmo|by eapply Htr|exact Hov|by eapply Htail].
  - pose proof (final_free_iv_ok (vm_mappings v) r Hmaps Hmo Hne (free_regions v) Hfr Hfm) as Hfok.
    destruct (merge_spec (E := Errno) _ Hfok) as (fr' & Hmerge & Hok' & Hadj & Hcov).
    exists outs, fr', w'. split_and!; try done.
    + rewrite (sbind_ok _ _ _ _ _ Hrun), !vmodify_bind. unfold merge_free. rewrite vself_bind. cbn [fst snd].
      change (free_regions (set_free _ _)) with (final_free (vm_mappings v) r (free_regions v)).
      rewrite (vpure_bind _ _ _ _ Hmerge). done.
    + eapply merged_al; [exact Hfok|done..|]. by apply final_free_al.
    + eapply unmaps_weaken; [exact Hum|..]; intros x.
      * intros [Hr (k & m & Hin & Hx)]. left. destruct (iv_key _ Hmaps _ _ Hin) as [-> _].
        exists m. split_and!; [|done|done]. apply (elem_of_find _ _ _ Hmaps). split; [done|].
        unfold overlaps, in_range, istart, iend in *. lia.
      * intros (m & [Hin Hov]%(elem_of_find _ _ _ Hmaps) & Hx). by exists (istart m), m.
Qed.

(** C9: [Vmar::destroy] (munmap) of a page-aligned range that meets no child
    and does not cut off just the end of a mapping: it succeeds, no address of
    the range is backed any more, every other address is backed as before, the
    freed addresses become free, the pages of the range are gone from the
    address space and no page outside the mappings that meet the range is
    touched; the invariant is kept. *)
Theorem munmap_spec v w r fuel :
  vmar_ok v w -> aligned r -> r_start r < r_end r -> no_child v r ->
  (forall k m, (k, m) ∈ vm_mappings v -> no_tail_cut r m) ->
  exists v' w', destroy fuel r (v, w) = (Ok tt, (v', w')) /\ vmar_ok v' w' /\
    (forall a, backing (vm_mappings v') a =
       if decide (in_range a r) then None else backing (vm_mappings v) a) /\
    (forall a, covered (free_regions v') a <->
       covered (free_regions v) a \/ in_range a r /\ covered (vm_mappings v) a) /\
    (forall a, in_range a r -> covered (vm_mappings v) a -> entry (w_space w') a = None) /\
    (forall a, (forall k m, (k, m) ∈ vm_mappings v -> overlaps r m -> ~ in_range a (irange m)) ->
       entry (w_space w') a = entry (w_space w) a).
Proof.
  intros Hok Hal Hne Hno Htail.
  destruct (destroy_run v w r fuel Hok Hal Hne Hno Htail)
    as (outs & fr' & w' & Hrun & Hfst & Houts & Hfr' & Hcov & Hfal' & Hum).
  destruct Hok as [Halive Hfr Hmaps Hch Hfm Hfc Hmc Hfal Hmo Hsp Hun Htr].
  assert (Hcov' : forall a, covered fr' a <-> covered (free_regions v) a \/ in_range a r /\ covered (vm_mappings v) a).
  { intros a. rewrite Hcov. by apply final_free_covered. }
  assert (Hbk : forall a, backing (final (vm_mappings v) r outs) a =
    if decide (in_range a r) then None else backing (vm_mappings v) a) by (intros; by apply final_backing).
  assert (Hmc' : forall a, covered (final (vm_mappings v) r outs) a <->
    ~ in_range a r /\ covered (vm_mappings v) a).
  { intros a. rewrite !covered_backing, Hbk. destruct (decide _); [|tauto]. split; [by intros []|tauto]. }
  eexists _, w'. split; [exact Hrun|]. split_and!; [|done|done| |].
  - constructor; cbn; try done.
    + by apply final_iv_ok.
    + eapply iv_ok_sub; [exact Hch|by apply bt_retain_sorted, (iv_sorted _ Hch)|].
      intros p. rewrite bt_elem_retain. tauto.
    + intros a. rewrite Hcov', Hmc'. naive_solver.
    + intros a Hf (k & c & [Hin _]%bt_elem_retain & Hx). assert (Hc : covered (child_vmar_s v) a) by (by exists k, c).
      apply Hcov' in Hf as [Hf|[Hr _]]; [by apply (Hfc a)|by apply (Hno a)].
    + intros a [_ Hm]%Hmc' (k & c & [Hin _]%bt_elem_retain & Hx). apply (Hmc a Hm). by exists k, c.
    + by apply final_mapping_ok.
    + apply Hum.
    + intros a [Hf|[Hr Hm]]%Hcov'; [by apply (unmaps_none _ _ _ _ _ Hum), Hun|].
      by apply (um_must _ _ _ _ Hum).
    + intros k m. apply (final_tracked (vm_mappings v) r outs) with w; try done.
      intros x. apply (unmaps_none _ _ _ _ _ Hum).
  - intros a Hr Hc. by apply (um_must _ _ _ _ Hum).
  - intros a Ha. destruct (um_may _ _ _ _ Hum a) as [?|[(k & m & Hin & Hov & Hx) _]]; [done|].
    exfalso. by eapply Ha.
Qed.

(** ** Finding room *)

(** [a] is a place for [n] bytes in [l] with the given alignment. *)
Definition place (l : list (Z * FreeRegion)) (align n a : Z) (r : FreeRegion) : Prop :=
  (fr_start r, r) ∈ l /\ a mod align = 0 /\ fr_start r <= a /\ a + n <= fr_end r.

Lemma align_up_least_multiple k x a :
  0 <= k -> x <= a -> a mod 2 ^ k = 0 -> (x + (2 ^ k - 1)) / 2 ^ k * 2 ^ k <= a.
Proof.
  intros Hk Hx Ha. assert (Hp : 0 < 2 ^ k) by (apply Z.pow_pos_nonneg; lia).
  pose proof (Z.div_mod a (2 ^ k) ltac:(lia)). apply Z.le_trans with (a / 2 ^ k * 2 ^ k); [|lia].
  apply Z.mul_le_mono_nonneg_r; [lia|].
  apply Z.lt_succ_r, Z.div_lt_upper_bound; [lia|]. rewrite <- Z.add_1_r. lia.
Qed.

Lemma align_up_ge k x :
  0 <= k -> x <= (x + (2 ^ k - 1)) / 2 ^ k * 2 ^ k <= x + (2 ^ k - 1).
Proof.
  intros Hk. assert (Hp : 0 < 2 ^ k) by (apply Z.pow_pos_nonneg; lia).
  pose proof (Z.div_mod (x + (2 ^ k - 1)) (2 ^ k) ltac:(lia)).
  pose proof (Z.mod_pos_bound (x + (2 ^ k - 1)) (2 ^ k) Hp). lia.
Qed.

Lemma first_fit_spec l k n :
  iv_ok l -> (forall key r, (key, r) ∈ l -> free_ok r) -> 1 <= k <= 46 -> 0 <= n <= 2 ^ 62 ->
  (exists a r, first_fit l n (2 ^ k) = Ok (fr_start r, a) /\ place l (2 ^ k) n a r /\ forall a' r', place l (2 ^ k) n a' r' -> a <= a') \/
  (first_fit l n (2 ^ k) = Err EACCES /\ forall a r, ~ place l (2 ^ k) n a r).
Proof.
  intros Hok Hal Hk Hn. assert (Hpow : 0 < 2 ^ k <= 2 ^ 46).
  { split; [apply Z.pow_pos_nonneg; lia|apply Z.pow_le_mono_r; lia]. }
  induction l as [|[key r] l IH].
  { right. split; [done|]. intros a r (Hin%elem_of_nil & _). done. }
  destruct (iv_key _ Hok key r) as [Hkey Hlt]; [set_solver|].
  destruct (Hal key r) as (_ & _ & H0 & Hmax); [set_solver|].
  change (istart r) with (fr_start r) in *. change (iend r) with (fr_end r) in *.
  cbn [first_fit]. rewrite align_up_eq by (change (2 ^ 64) with 18446744073709551616; lia). cbn [obind].
  pose proof (align_up_ge k (fr_start r) ltac:(lia)) as Hge.
  set (real := (fr_start r + (2 ^ k - 1)) / 2 ^ k * 2 ^ k) in *.
  rewrite uadd_ok by (unfold usize_max; lia). cbn [obind].
  rewrite (proj2 (Z.leb_le (fr_start r) real)) by lia. cbn [andb].
  destruct (Z.leb_spec (real + n) (fr_end r)) as [Hfit|Hno].
  - left. exists real, r. rewrite Hkey. split; [done|]. split; [split_and!; [set_solver|by apply Z.mod_mul; lia|lia|lia]|].
    intros a' r' ([Heq|Hin]%elem_of_cons & Ha & H1 & _).
    + injection Heq as _ ->. by apply align_up_least_multiple; [lia|..].
    + destruct (iv_ok_head _ _ _ Hok) as (_ & _ & Hnext). destruct (Hnext _ _ Hin) as [_ Hsep].
      change (istart r') with (fr_start r') in *. change (iend r) with (fr_end r) in *. lia.
  - destruct IH as [(a & r' & Hrun & [Hin Hpl] & Hleast)|[Hrun Hnone]];
      [by eapply iv_ok_tail|intros key' r' Hin'; apply (Hal key' r'); by apply list_elem_of_further| |].
    + left. exists a, r'. split; [done|]. split; [split; [set_solver|done]|]. intros a2 r2 ([Heq|Hin2]%elem_of_cons & Ha & H1 & H2).
      * injection Heq as _ ->. pose proof (align_up_least_multiple k (fr_start r) a2 ltac:(lia) H1 Ha). lia.
      * by apply (Hleast a2 r2).
    + right. split; [done|]. intros a r' (Hin & Ha & H1 & H2). apply elem_of_cons in Hin as [Heq|Hin].
      * injection Heq as _ ->. pose proof (align_up_least_multiple k (fr_start r) a ltac:(lia) H1 Ha). lia.
      * apply (Hnone a r'). done.
Qed.

Lemma list_find_some_elem {A} (P : A -> Prop) `{!forall x, Decision (P x)} (l : list A) x :
  x ∈ l -> P x -> exists i y, list_find P l = Some (i, y) /\ y ∈ l /\ P y.
Proof.
  intros Hin HP. destruct (list_find_elem_of P l x Hin HP) as [[i y] Hf]. exists i, y.
  split; [done|]. apply list_find_Some in Hf as (Hl & HPy & _). split; [by eapply list_elem_of_lookup_2|done].
Qed.

(** [find_free_region_for_child], with and without an offset. *)
Lemma find_free_region_spec v (offset : option Z) k n :
  iv_ok (free_regions v) -> (forall key r, (key, r) ∈ free_regions v -> free_ok r) ->
  1 <= k <= 46 -> 0 < n <= 2 ^ 62 ->
  (forall off, offset = Some off -> off mod 2 ^ k = 0 /\ 0 <= off <= 2 ^ 62) ->
  let good a r := place (free_regions v) (2 ^ k) n a r /\ (forall off, offset = Some off -> a = off) in
  (exists a r, find_free_region_for_child v offset n (2 ^ k) = Ok (fr_start r, a) /\ good a r /\ forall a' r', good a' r' -> a <= a') \/
  (find_free_region_for_child v offset n (2 ^ k) = Err EACCES /\ forall a r, ~ good a r).
Proof.
  intros Hok Hal Hk Hn Hoff good. unfold find_free_region_for_child. destruct offset as [off|].
  - destruct (Hoff off eq_refl) as [Hmod Hrange]. rewrite uadd_ok by (unfold usize_max; lia). cbn [obind].
    assert (Hholds : forall r, holds (irange r) off (off + n) = true <-> fr_start r <= off /\ off + n <= fr_end r)
      by (intros r; unfold holds; by rewrite andb_true_iff, !Z.leb_le).
    destruct (list_find _ _) as [[i r]|] eqn:Hf.
    + left. apply list_find_Some in Hf as (Hl & Hr%Hholds & _). apply list_elem_of_lookup_2 in Hl.
      apply (elem_of_find _ _ _ Hok) in Hl as [Hin _].
      exists off, r. split; [done|]. split; [split; [|by intros ? [= <-]]; split_and!; [done..|lia|lia]|].
      intros a' r' [_ Heq]. by rewrite (Heq off eq_refl).
    + right. split; [done|]. intros a r [(Hin & Ha & H1 & H2) Heq]. rewrite (Heq off eq_refl) in *.
      destruct (list_find_some_elem (fun r => holds (irange r) off (off + n) = true)
        (find (free_regions v) (Range off (off + n))) r) as (i & y & Hy & _); [|by apply Hholds|congruence].
      apply (elem_of_find _ _ _ Hok). split; [done|]. split; cbn; change (istart r) with (fr_start r);
        change (iend r) with (fr_end r); lia.
  - destruct (first_fit_spec (free_regions v) k n Hok Hal Hk) as [(a & r & Hrun & Hpl & Hleast)|[Hrun Hno]]; [lia| |].
    + left. exists a, r. split; [done|]. split; [done|]. intros a' r' [Hpl' _]. by eapply Hleast.
    + right. split; [done|]. intros a r [Hpl _]. by eapply Hno.
Qed.

(** ** Mapping a VMO *)

(** The bytes a mapping reserves. *)
Definition reserved (o : VmarMapOptions V) w : Z :=
  Z.max (o_size o) (vmo_size (w_vmos w) (cap_obj (o_vmo o))).

(** Options that pass the assertions of [check_options]. *)
Record opts_ok w (o : VmarMapOptions V) : Prop := {
  op_align : exists k, 12 <= k <= 46 /\ o_align o = 2 ^ k;
  op_vmo_offset : o_vmo_offset o mod o_align o = 0 /\ 0 <= o_vmo_offset o;
  op_size : o_size o mod PAGE_SIZE = 0 /\ 0 < o_size o /\ o_vmo_offset o + o_size o <= 2 ^ 62;
  op_offset : forall off, o_offset o = Some off -> off mod o_align o = 0 /\ 0 <= off <= 2 ^ 62;
  op_vmo_size : vmo_size (w_vmos w) (cap_obj (o_vmo o)) mod PAGE_SIZE = 0 /\ reserved o w <= 2 ^ 62;
  op_dup : has (cap_rights (o_vmo o)) Rights.DUP = true;
}.

(** Where the mapping may go. *)
Definition has_room v w (o : VmarMapOptions V) (a : Z) (r : FreeRegion) : Prop :=
  place (free_regions v) (o_align o) (reserved o w) a r /\ forall off, o_offset o = Some off -> a = off.

Definition new_mapping (o : VmarMapOptions V) (a : Z) : VmMapping :=
  MkVmMapping (o_vmo_offset o) (o_size o) a false [] (vmperm_of_perms (o_perms o)) (vmo_to_dyn (o_vmo o)).

Definition mapped (o : VmarMapOptions V) w (a : Z) (r : FreeRegion) v : Vmar_ :=
  set_mappings (bt_insert a (new_mapping o a) (vm_mappings v))
    (set_free (carve (free_regions v) r (Range a (a + reserved o w))) v).

Lemma multiple_of_page k a : 12 <= k -> a mod 2 ^ k = 0 -> a mod PAGE_SIZE = 0.
Proof.
  intros Hk Ha. apply Z.mod_divide in Ha; [|apply Z.pow_nonzero; lia]. apply Z.mod_divide; [done|].
  etrans; [|exact Ha]. exists (2 ^ (k - 12)). change PAGE_SIZE with (2 ^ 12). rewrite <- Z.pow_add_r by lia.
  f_equal. lia.
Qed.

Lemma place_free v align n a r x :
  place (free_regions v) align n a r -> a <= x < a + n -> covered (free_regions v) x.
Proof. intros (Hin & _ & H1 & H2) Hx. exists (fr_start r), r. split; [done|]. apply fr_in_range. lia. Qed.

Lemma check_options_run v w o :
  vmar_destroyed v = false -> opts_ok w o -> o_can_overwrite o = false ->
  vmo_check_rights (o_vmo o) (rights_of_perms (o_perms o)) = Ok tt ->
  check_options o (v, w) =
    (match o_offset o with
     | Some off => check_vmo_overwrite v (Range off (off + reserved o w)) false
     | None => Ok tt
     end, (v, w)).
Proof.
  intros Halive [(k & Hk & Hal) [Hvo _] _ Hoff [_ Hres] _] Hov Hr.
  assert (Hpow : is_power_of_two (2 ^ k) = true).
  { apply is_power_of_two_spec; [apply Z.pow_nonneg; lia|]. exists k. lia. }
  assert (Hpg : 2 ^ k mod PAGE_SIZE = 0) by (apply (multiple_of_page k); [lia|]; apply Z.mod_same, Z.pow_nonzero; lia).
  unfold check_options. rewrite Hal in *. rewrite Hpow, Hpg, Hvo, Hr.
  rewrite !vassert_bind by done.
  rewrite (vpure_bind _ _ _ tt); [|destruct (o_offset o) as [off|]; [|done]; by destruct (Hoff off eq_refl) as [-> _]].
  rewrite (vpure_bind (Ok tt) _ _ tt eq_refl). unfold check_overwrite. rewrite Hov. cbn [implb].
  rewrite vassert_bind by done. destruct (o_offset o) as [off|]; [|done].
  cbn [fst snd]. fold (reserved o w). destruct (Hoff off eq_refl) as [_ Hoff'].
  rewrite (vpure_bind _ _ _ (off + reserved o w)); [done|]. apply uadd_ok. unfold usize_max. lia.
Qed.

Lemma map_build_rights v w o :
  opts_ok w o -> has (cap_rights (o_vmo o)) (rights_of_perms (o_perms o)) = false ->
  map_build o (v, w) = (Err EINVAL, (v, w)).
Proof.
  intros [(k & Hk & Hal) [Hvo _] _ Hoff _ _] Hr.
  assert (Hpow : is_power_of_two (2 ^ k) = true).
  { apply is_power_of_two_spec; [apply Z.pow_nonneg; lia|]. exists k. lia. }
  assert (Hpg : 2 ^ k mod PAGE_SIZE = 0) by (apply (multiple_of_page k); [lia|]; apply Z.mod_same, Z.pow_nonzero; lia).
  unfold map_build, check_options. rewrite Hal in *. rewrite Hpow, Hpg, Hvo. unfold sbind at 1.
  rewrite !vassert_bind by done.
  rewrite (vpure_bind _ _ _ tt); [|destruct (o_offset o) as [off|]; [|done]; by destruct (Hoff off eq_refl) as [-> _]].
  unfold vmo_check_rights. by rewrite Hr.
Qed.

Lemma allocate_run v w o :
  vmar_destroyed v = false -> opts_ok w o -> o_can_overwrite o = false ->
  bt_sorted (free_regions v) -> (forall k r, (k, r) ∈ free_regions v -> free_ok r) ->
  (forall a r, find_free_region_for_child v (o_offset o) (reserved o w) (o_align o) = Ok (fr_start r, a) ->
     has_room v w o a r ->
     build_mapping o (v, w) = (Ok (new_mapping o a),
       (set_free (carve (free_regions v) r (Range a (a + reserved o w))) v, w))) /\
  (find_free_region_for_child v (o_offset o) (reserved o w) (o_align o) = Err EACCES ->
   build_mapping o (v, w) = (Err EACCES, (v, w))).
Proof.
  intros Halive [_ _ [_ [Hpos _]] _ [_ Hres] _] Hov Hs Hfal. unfold build_mapping. cbn [snd].
  unfold allocate_free_region_for_vmo. fold (reserved o w). split.
  - intros a r Hfind [(Hin & _ & H1 & H2) _]. rewrite Hov.
    assert (Hn : 0 < reserved o w) by (unfold reserved; lia).
    destruct (Hfal _ _ Hin) as (_ & _ & _ & Hmax).
    erewrite sbind_ok; [reflexivity|]. rewrite vself_bind. cbn [fst]. rewrite Halive.
    rewrite (vpure_bind _ _ _ _ Hfind). cbn [fst snd].
    rewrite (vpure_bind _ _ _ (a + reserved o w)) by (apply uadd_ok; unfold usize_max; lia).
    erewrite sbind_ok; [reflexivity|]. unfold take_from_region. rewrite vself_bind. cbn [fst].
    rewrite (vpure_bind _ _ _ r) by (by rewrite (bt_elem_get _ _ _ Hs Hin)).
    rewrite (vpure_bind _ _ _ (Range a (a + reserved o w))); [done|]. unfold get_intersected_range.
    replace (irange r) with (Range (fr_start r) (fr_end r)) by (by destruct r as [[]]). cbn [r_start r_end].
    rewrite (proj2 (Z.ltb_lt _ _)) by lia. cbn [oassert obind]. do 2 f_equal; lia.
  - intros Hfind. unfold sbind at 1. rewrite vself_bind. cbn [fst]. rewrite Halive, Hov.
    unfold vpure, slift, sbind. by rewrite Hfind.
Qed.

Lemma mapped_ok v w o a r :
  vmar_ok v w -> opts_ok w o -> has_room v w o a r -> vmar_ok (mapped o w a r v) w.
Proof.
  intros [Halive Hfr Hmaps Hch Hfm Hfc Hmc Hfal Hmo Hsp Hun Htr] Ho [Hpl _].
  pose proof Ho as [(k & Hk & Hal) [Hvo Hvo0] [Hsz [Hpos Hvmax]] _ [Hvs Hres] Hdup].
  pose proof (fun x => place_free v _ _ a r x Hpl) as Hfree.
  destruct Hpl as (Hin & Ha & H1 & H2). destruct (Hfal _ _ Hin) as (Hrs & Hre & Hr0 & Hrm).
  assert (Hn : o_size o <= reserved o w) by (unfold reserved; lia).
  rewrite Hal in *. assert (Hap : a mod PAGE_SIZE = 0) by (apply (multiple_of_page k); [lia|done]).
  assert (Hrp : (a + reserved o w) mod PAGE_SIZE = 0).
  { unfold reserved. apply mod0 in Hap as [qa ->], Hsz as [qs ->], Hvs as [qv ->].
    apply mod0. exists (qa + Z.max qs qv). unfold PAGE_SIZE. lia. }
  assert (Hcv : forall x, covered (carve (free_regions v) r (Range a (a + reserved o w))) x <->
    covered (free_regions v) x /\ ~ in_range x (Range a (a + reserved o w)))
    by (intros x; apply covered_carve; [done|done|cbn; lia]).
  assert (Hfresh : forall k' m, (k', m) ∈ vm_mappings v -> mend m <= a \/ a + o_size o <= map_to_addr m).
  { intros k' m Hm. pose proof (mo_size_pos _ (Hmo _ _ Hm)).
    destruct (decide (mend m <= a \/ a + o_size o <= map_to_addr m)) as [|Hn']; [done|exfalso].
    apply (Hfm (Z.max a (map_to_addr m))); [apply Hfree; lia|]. exists k', m. split; [done|].
    unfold in_range. cbn. fold (mend m). unfold mend in *. lia. }
  assert (Hcm : forall x, covered (bt_insert a (new_mapping o a) (vm_mappings v)) x <->
    a <= x < a + o_size o \/ covered (vm_mappings v) x).
  { intros x. change a with (istart (new_mapping o a)) at 1. rewrite covered_insert; [done|apply (iv_sorted _ Hmaps)|].
    intros m Hm. pose proof (mo_size_pos _ (Hmo _ _ Hm)). destruct (iv_key _ Hmaps _ _ Hm) as [Heq _].
    destruct (Hfresh _ _ Hm); unfold istart, mend in *; cbn in *; lia. }
  constructor; cbn; try done.
  - apply carve_ok; [done|done|cbn; lia].
  - change a with (istart (new_mapping o a)) at 1. apply iv_ok_insert; [done|unfold istart, iend; cbn; lia|].
    intros k' m Hm _. destruct (Hfresh _ _ Hm); unfold istart, iend, mend in *; cbn in *; lia.
  - intros x [Hf Hx]%Hcv [Hx'|Hm]%Hcm; [unfold in_range in Hx; cbn in Hx; lia|by apply (Hfm x)].
  - intros x [Hf _]%Hcv. by apply Hfc.
  - intros x [Hx|Hm]%Hcm; [apply Hfc, Hfree; lia|by apply Hmc].
  - intros k' f Hc. apply elem_of_carve in Hc as [[Hc _]|[Hc _]]; [by eapply Hfal| |done|done|cbn; lia].
    apply elem_of_allocate_range in Hc as [[-> ?]|[-> ?]]; unfold free_ok, fr_start, fr_end in *; cbn in *;
      split_and!; done || lia.
  - intros k' m [[= -> ->]|[Hm _]]%bt_elem_insert; [|by eapply Hmo|apply (iv_sorted _ Hmaps)].
    constructor; cbn; unfold mend; cbn; try done; try lia. apply (multiple_of_page k); [lia|done].
  - intros x [Hf _]%Hcv. by apply Hun.
  - intros k' m [[= -> ->]|[Hm _]]%bt_elem_insert; [|by eapply Htr|apply (iv_sorted _ Hmaps)].
    intros i Hi He. exfalso. apply He, Hun, Hfree. unfold mend in Hi. cbn in Hi. lia.
Qed.

Lemma mapped_backing v w o a r x :
  vmar_ok v w -> opts_ok w o -> has_room v w o a r ->
  backing (vm_mappings (mapped o w a r v)) x =
    if decide (a <= x < a + o_size o)
    then Some (o_vmo o, o_vmo_offset o + (x - a), vmperm_of_perms (o_perms o))
    else backing (vm_mappings v) x.
Proof.
  intros Hok Ho Hf. pose proof (vo_maps _ _ (mapped_ok _ _ _ _ _ Hok Ho Hf)) as Hiv. cbn in *.
  pose proof (vo_maps _ _ Hok) as Hmaps. pose proof (iv_sorted _ Hmaps) as Hs.
  assert (Hn : o_size o <= reserved o w) by (unfold reserved; lia).
  destruct (decide (a <= x < a + o_size o)) as [Hx|Hx].
  - rewrite (backing_some _ a (new_mapping o a) x Hiv); [|by apply bt_elem_insert; [|left]|done].
    unfold backed_by. cbn. by destruct (o_vmo o).
  - destruct (backing (vm_mappings v) x) as [y|] eqn:Hb.
    + destruct (backing_elem _ _ _ Hb) as (k & m & Hin & Hxm & ->). apply (backing_some _ k m x Hiv); [|done].
      apply bt_elem_insert; [done|]. right. split; [done|]. cbn. intros ->.
      destruct (iv_key _ Hmaps _ _ Hin) as [Heq _]. pose proof (op_size _ _ Ho).
      apply (vo_free_maps _ _ Hok a); [eapply place_free; [apply Hf|lia]|].
      exists a, m. split; [done|]. unfold in_range in *. cbn in *. unfold istart in Heq. cbn in Heq. lia.
    + apply backing_none. apply backing_none in Hb. intros (k & m & Hin & Hxm).
      apply bt_elem_insert in Hin as [[= -> ->]|[Hin _]]; [by apply Hx| |done]. apply Hb. by exists k, m.
Qed.

(** C8: mapping a VMO into a VMAR without overwriting: the VMO's rights must
    cover the permissions; then, if some free region has room at a suitably
    aligned address (at the requested address, when there is one), the mapping
    is made at the lowest such address, its addresses are backed by the VMO from the
    given offset on, every other address is backed as before and exactly the
    reserved range stops being free; if there is no room it fails with [EACCES]
    and changes nothing.  The invariant is kept. *)
Theorem mmap_spec v w (o : VmarMapOptions V) :
  vmar_ok v w -> opts_ok w o -> o_can_overwrite o = false ->
  if has (cap_rights (o_vmo o)) (rights_of_perms (o_perms o)) then
    (exists a r v', map_build o (v, w) = (Ok a, (v', w)) /\ has_room v w o a r /\ (forall a' r', has_room v w o a' r' -> a <= a') /\ vmar_ok v' w /\
       (forall x, backing (vm_mappings v') x =
          if decide (a <= x < a + o_size o)
          then Some (o_vmo o, o_vmo_offset o + (x - a), vmperm_of_perms (o_perms o))
          else backing (vm_mappings v) x) /\
       (forall x, covered (free_regions v') x <->
          covered (free_regions v) x /\ ~ in_range x (Range a (a + reserved o w)))) \/
    (map_build o (v, w) = (Err EACCES, (v, w)) /\ forall a r, ~ has_room v w o a r)
  else map_build o (v, w) = (Err EINVAL, (v, w)).
Proof.
  intros Hok Ho Hov. pose proof Hok as [Halive Hfr Hmaps Hch Hfm Hfc _ Hfal _ _ _ _].
  pose proof Ho as [(k & Hk & Hal) _ [_ [Hpos _]] Hoff [_ Hres] _].
  assert (Hn : o_size o <= reserved o w) by (unfold reserved; lia).
  destruct (has _ _) eqn:Hr; cycle 1.
  { apply map_build_rights; done. }
  pose proof (check_options_run v w o Halive Ho Hov) as Hchk. unfold vmo_check_rights in Hchk.
  rewrite Hr in Hchk. specialize (Hchk eq_refl). unfold map_build.
  destruct (allocate_run v w o Halive Ho Hov (iv_sorted _ Hfr) Hfal) as [Hgood Hbad].
  destruct (find_free_region_spec v (o_offset o) k (reserved o w) Hfr Hfal)
    as [(a & r & Hfind & Hfit & Hleast)|[Hfind Hno]]; [lia|lia|by rewrite <- Hal| |].
  - rewrite <- Hal in Hfind, Hfit, Hleast. left. exists a, r, (mapped o w a r v).
    assert (Hchk' : check_options o (v, w) = (Ok tt, (v, w))).
    { rewrite Hchk. destruct Hfit as [Hpl Hat]. destruct (o_offset o) as [off|]; [|done]. rewrite (Hat off eq_refl) in *.
      unfold check_vmo_overwrite. rewrite Halive, !find_avoid; try done; cbn; try lia; intros x Hx;
        [apply Hfm|apply Hfc]; (eapply place_free; [exact Hpl|done]). }
    rewrite (sbind_ok _ _ _ _ _ Hchk'), (sbind_ok _ _ _ _ _ (Hgood a r Hfind Hfit)).
    split_and!; [done|done|done|by apply mapped_ok|intros; by apply mapped_backing|].
    intros x. cbn. apply covered_carve; [done|apply Hfit|]. destruct Hfit as [(_ & _ & H1 & H2) _]. cbn. lia.
  - rewrite <- Hal in Hfind, Hno. right. split; [|done]. specialize (Hbad Hfind).
    assert (Hcases : check_options o (v, w) = (Ok tt, (v, w)) \/ check_options o (v, w) = (Err EACCES, (v, w))).
    { rewrite Hchk. destruct (o_offset o); [|by left]. unfold check_vmo_overwrite. rewrite Halive.
      destruct (negb _); [by right|]. destruct (negb false && _); [by right|by left]. }
    destruct Hcases as [Hc|Hc]; [rewrite (sbind_ok _ _ _ _ _ Hc)|]; unfold sbind; [by rewrite Hbad|by rewrite Hc].
Qed.
End Spec.
