(* ===== verification/VmarFault.v ===== *)
(** Page faults in a VMAR: what becomes mapped, and which faults are refused. *)

From S2P Require Import Prelude BTree AlignExt Interval FreeRegion Frame FrameFacts PageTable PageTableFacts PtInterface MemorySet MemorySetFacts VmSpace Perms VmMapping VmMappingFacts Vmar VmarFacts.

Section Fault.
Context {PT : Type} {ops : PtOps PT} {ok : PT -> Prop}
  {view : PT -> Z -> option (Z * Z)} {room : PT -> nat}.
Context {laws : PtLaws ops ok view room}.
Context {VS V : Type} {vops : VmoOps VS V}.
Notation ms_ok := (ms_ok (ok := ok) (view := view)).
Notation VmMapping := (VmMapping V).
Notation world := (world PT VS).
Notation Vmar_ := (Vmar_ V).
Notation vmar_ok := (vmar_ok (ok := ok) (view := view)).
Implicit Types (m : VmMapping) (w : world) (v : Vmar_).

(** The permissions a fault installs. *)
Definition fault_perm m (readonly : bool) : Z :=
  if readonly then VmPerm.difference (perm m) VmPerm.W else perm m.

Definition cow m (vs : VS) : bool := vmo_is_cow vs (cap_obj (vmo m)).

(** Mapping one frame at a free page. *)
Lemma vs_map_page ms a f p :
  ms_ok ms -> mappable f -> (3 <= room (pt ms))%nat -> a mod PAGE_SIZE = 0 -> 0 <= a ->
  a + PAGE_SIZE <= 2 ^ 47 -> entry ms a = None ->
  exists ms', vs_map (from_one_frame f) (mo_set_perm p (mo_set_addr (Some a) mo_new)) ms = (Ok a, ms') /\
    ms_ok ms' /\ forall x, entry ms' x = if decide (x = a) then Some (f, flags_of_perm p) else entry ms x.
Proof.
  intros Hok Hf Hroom Hal Ha Hmax He.
  destruct (vs_map_clear ms (from_one_frame f) (mo_set_perm p (mo_set_addr (Some a) mo_new)) a)
    as (ms' & Hrun & Hok' & Hent); try done.
  - by apply Forall_singleton.
  - intros [|i] Hi; [|cbn in Hi; lia]. by rewrite Z.add_0_r.
  - exists ms'. split_and!; [done|done|]. intros x. rewrite Hent.
    rewrite laid_out_cons by done. destruct (decide (x = a)); [done|].
    unfold laid_out. rewrite lookup_nil. by destruct (decide _).
Qed.

Lemma map_one_page_ok m w i f (readonly : bool) :
  mapping_ok m -> ms_ok (w_space w) -> map_to_addr m <= pg m i < mend m -> mappable f ->
  (3 <= room (pt (w_space w)))%nat -> implb readonly (cow m (w_vmos w)) = true ->
  (cow m (w_vmos w) = true \/ entry (w_space w) (pg m i) = None) ->
  exists ms', map_one_page i f readonly (m, w) =
      (Ok tt, (set_mapped_pages (bt_insert i tt (mapped_pages m)) m, MkWorld ms' (w_vmos w))) /\
    ms_ok ms' /\
    forall x, entry ms' x = if decide (x = pg m i) then Some (f, flags_of_perm (fault_perm m readonly))
                            else entry (w_space w) x.
Proof.
  intros Hm Hok Hi Hf Hroom Hro Hcow. pose proof (pg_in_ok m i Hm Hi) as Hp.
  pose proof Hp as (_ & _ & _ & Hal & H0 & Hmax).
  unfold map_one_page. rewrite self_bind. cbn [fst].
  rewrite (pure_bind _ _ _ _ (page_map_addr_ok m i Hp)), ask_vmos_bind. cbn [snd]. fold (cow m (w_vmos w)).
  rewrite Hro, (pure_bind (oassert true) _ _ tt eq_refl), ask_space_bind. cbn [snd].
  rewrite is_mapped_page by done. fold (fault_perm m readonly).
  assert (Hclear : exists ms1, (if cow m (w_vmos w) && bool_decide (is_Some (entry (w_space w) (pg m i))) then
      let! r := pure_ (page_range (pg m i)) in unwrap (on_space (vs_unmap r)) else sret tt) (m, w)
      = (Ok tt, (m, MkWorld ms1 (w_vmos w))) /\ ms_ok ms1 /\ room (pt ms1) = room (pt (w_space w)) /\
      entry ms1 (pg m i) = None /\ forall x, x <> pg m i -> entry ms1 x = entry (w_space w) x).
  { destruct (cow m (w_vmos w) && _) eqn:Hb.
    - apply andb_true_iff in Hb as [_ Hsome%bool_decide_eq_true].
      destruct (unmap_page (room := room) w (pg m i) Hok Hal H0 Hmax Hsome) as (ms1 & Hrun & [Hok1 _ Hr1 Hmu Hma]).
      exists ms1. rewrite (pure_bind _ _ _ _ (page_range_ok _ Hmax)). unfold unwrap, on_space. cbn [snd].
      rewrite Hrun. cbn [map_err fst snd w_space] in *. split_and!; [done|done|done|by apply Hmu|].
      intros x Hx. destruct (Hma x) as [?|[? _]]; done.
    - exists (w_space w). destruct w. split_and!; [done..| |done]. cbn in *.
      destruct Hcow as [Hc|?]; [|done]. rewrite Hc in Hb. cbn in Hb. by apply bool_decide_eq_false, eq_None_not_Some in Hb. }
  destruct Hclear as (ms1 & Hrun1 & Hok1 & Hroom1 & Hnone & Hsame).
  rewrite (sbind_ok _ _ _ _ _ Hrun1).
  destruct (vs_map_page ms1 (pg m i) f (fault_perm m readonly)) as (ms' & Hmap & Hok' & Hent);
    [done|done|by rewrite Hroom1|done..|].
  exists ms'. split_and!; [|done|].
  - unfold sbind, on_space. cbn [fst snd w_space]. rewrite Hmap. done.
  - intros x. rewrite Hent. destruct (decide (x = pg m i)); [done|by apply Hsame].
Qed.

(** A page of a VMO that is not copy-on-write is not mapped twice: [MemorySet::map] panics. *)
Lemma map_one_page_present m w i f :
  mapping_ok m -> ms_ok (w_space w) -> map_to_addr m <= pg m i < mend m -> mappable f -> (3 <= room (pt (w_space w)))%nat ->
  cow m (w_vmos w) = false -> is_Some (entry (w_space w) (pg m i)) -> (map_one_page i f false (m, w)).1 = Panic.
Proof.
  intros Hm Hok Hi Hf Hroom Hcow Hsome. pose proof (pg_in_ok m i Hm Hi) as Hp. pose proof Hp as (_ & _ & _ & Hal & H0 & Hmax).
  unfold map_one_page. rewrite self_bind. cbn [fst].
  rewrite (pure_bind _ _ _ _ (page_map_addr_ok m i Hp)), ask_vmos_bind. cbn [snd]. fold (cow m (w_vmos w)).
  rewrite Hcow, (pure_bind (oassert true) _ _ tt eq_refl), ask_space_bind. cbn [andb].
  destruct (vs_map_occupied (w_space w) (from_one_frame f) (mo_set_perm (perm m) (mo_set_addr (Some (pg m i)) mo_new)) (pg m i)) as (ms' & Hrun); try done.
  - by apply Forall_singleton.
  - intros Hclear. destruct Hsome as [e He]. specialize (Hclear 0%nat ltac:(cbn; lia)). rewrite Z.add_0_r in Hclear. congruence.
  - unfold sbind, sret, on_space. cbn [fst snd]. by rewrite Hrun.
Qed.

(** ** Updating the page record of a mapping *)

Lemma update_elem l k m ps p :
  iv_ok l -> (k, m) ∈ l ->
  p ∈ bt_insert k (set_mapped_pages ps m) l <-> p = (k, set_mapped_pages ps m) \/ (p ∈ l /\ p.1 <> k).
Proof. intros Hok _. apply bt_elem_insert, (iv_sorted _ Hok). Qed.

Lemma update_iv_ok l k m ps :
  iv_ok l -> (k, m) ∈ l -> iv_ok (bt_insert k (set_mapped_pages ps m) l).
Proof.
  intros Hok Hin. destruct (iv_key _ Hok _ _ Hin) as [-> Hlt].
  change (istart m) with (istart (set_mapped_pages ps m)). apply iv_ok_insert; [done|done|].
  intros k' m' Hin' Hne. destruct (iv_ok_sep _ _ _ _ _ Hok Hin' Hin Hne); [by right|by left].
Qed.

Lemma update_backing l k m ps x :
  iv_ok l -> (k, m) ∈ l -> backing (bt_insert k (set_mapped_pages ps m) l) x = backing l x.
Proof.
  intros Hok Hin. pose proof (update_iv_ok l k m ps Hok Hin) as Hok'.
  destruct (backing l x) as [y|] eqn:Hb.
  - destruct (backing_elem _ _ _ Hb) as (k' & m' & Hin' & Hx & ->).
    destruct (decide (k' = k)) as [->|Hne].
    + rewrite (bt_sorted_unique _ _ _ _ (iv_sorted _ Hok) Hin' Hin) in *.
      rewrite (backing_some _ k (set_mapped_pages ps m) x Hok'); [done| |done]. by apply update_elem; [..|left].
    + rewrite (backing_some _ k' m' x Hok'); [done| |done]. by apply update_elem; [..|right].
  - apply backing_none. apply backing_none in Hb. intros (k' & m' & [[= -> ->]|[Hin' _]]%update_elem & Hx); try done.
    + apply Hb. by exists k, m.
    + apply Hb. by exists k', m'.
Qed.

Lemma update_covered l k m ps x :
  iv_ok l -> (k, m) ∈ l -> covered (bt_insert k (set_mapped_pages ps m) l) x <-> covered l x.
Proof. intros Hok Hin. by rewrite !covered_backing, update_backing. Qed.

(** Page [i] of mapping [m] gets a frame and is recorded. *)
Lemma fault_ok v w k m i e ms' (vs' : VS) :
  vmar_ok v w -> (k, m) ∈ vm_mappings v -> map_to_addr m <= pg m i < mend m -> ms_ok ms' ->
  (forall x, entry ms' x = if decide (x = pg m i) then Some e else entry (w_space w) x) ->
  vmar_ok (set_mappings (bt_insert k (set_mapped_pages (bt_insert i tt (mapped_pages m)) m) (vm_mappings v)) v)
    (MkWorld ms' vs').
Proof.
  intros [Halive Hfr Hmaps Hch Hfm Hfc Hmc Hfal Hmo Hsp Hun Htr] Hin Hi Hok' Hent.
  pose proof (fun x => update_covered _ _ _ (bt_insert i tt (mapped_pages m)) x Hmaps Hin) as Hcov.
  assert (Hpi : covered (vm_mappings v) (pg m i)) by (by exists k, m).
  constructor; cbn; try done.
  - by apply update_iv_ok.
  - intros x Hf. rewrite Hcov. by apply Hfm.
  - intros x. rewrite Hcov. by apply Hmc.
  - intros k' m' [[= -> ->]|[Hin' _]]%update_elem; [|by eapply Hmo|done|done]. by destruct (Hmo _ _ Hin).
  - intros x Hf. rewrite Hent. destruct (decide (x = pg m i)) as [->|]; [by apply Hfm in Hf|by apply Hun].
  - intros k' m' [[= -> ->]|[Hin' Hne]]%update_elem j Hj He; [| |done|done].
    + cbn. change (pg (set_mapped_pages _ m) j) with (pg m j) in *.
      change (mend (set_mapped_pages _ m)) with (mend m) in *. cbn in Hj.
      rewrite bt_lookup_insert. destruct (Z.eqb_spec j i) as [->|Hji]; [by eexists|].
      apply (Htr _ _ Hin); [done|]. cbn in He. rewrite Hent, decide_False in He; [done|].
      unfold pg, PAGE_SIZE. lia.
    + cbn in He. rewrite Hent, decide_False in He; [by apply (Htr _ _ Hin')|].
      intros Heq. destruct (covered_unique _ (pg m i) _ _ _ _ Hmaps Hin Hin') as [-> _]; [done| |done].
      rewrite <- Heq. done.
Qed.

(** ** The fault handler *)

Definition fault_offset m (a : Z) : Z := vmo_offset m + (a - map_to_addr m).

Lemma pg_fault m a :
  mapping_ok m -> map_to_addr m <= a < mend m ->
  pg m (fault_offset m a / PAGE_SIZE) = page_of a /\ map_to_addr m <= page_of a < mend m.
Proof.
  intros [Ha Hs Ho _ _ _ _ _ _ _] Hr. unfold fault_offset, pg, page_of, vpn, mend in *.
  apply mod0 in Ha as [qa Ha], Hs as [qs Hs], Ho as [qo Ho]. rewrite Ha, Hs, Ho in *.
  replace (qo * PAGE_SIZE + (a - qa * PAGE_SIZE)) with (a + (qo - qa) * PAGE_SIZE) by lia.
  rewrite Z.div_add by done. pose proof (Z.div_mod a PAGE_SIZE ltac:(done)).
  pose proof (Z.mod_pos_bound a PAGE_SIZE ltac:(done)). unfold PAGE_SIZE in *. lia.
Qed.

Lemma check_perm_run m a p :
  mapping_ok m -> map_to_addr m <= a < mend m ->
  check_perm m (fault_offset m a / PAGE_SIZE) p =
    if VmPerm.contains (perm m) p then Ok tt else Err EACCES.
Proof.
  intros Hm Hr. destruct (pg_fault m a Hm Hr) as [Hpg Hin]. rewrite <- Hpg in Hin.
  pose proof Hm as [Ha Hs Ho H0 Hsp He Hop Hom _ _]. unfold pg, mend in *.
  set (i := fault_offset m a / PAGE_SIZE) in *. unfold check_perm.
  apply mod0 in Ha as [qa Ha], Hs as [qs Hs], Ho as [qo Ho]. rewrite Ha, Hs, Ho in *.
  unfold PAGE_SIZE in *. rewrite umul_ok by (unfold usize_max; lia). cbn [obind].
  rewrite (proj2 (Z.ltb_ge _ _)) by lia. rewrite uadd_ok by (unfold usize_max; lia). cbn [obind].
  rewrite umul_ok by (unfold usize_max; lia). cbn [obind]. rewrite uadd_ok by (unfold usize_max; lia). cbn [obind].
  by rewrite (proj2 (Z.ltb_ge _ _)) by lia.
Qed.

Lemma mapping_fault_run m w a (np wr : bool) :
  mapping_ok m -> map_to_addr m <= a < mend m ->
  mapping_handle_page_fault a np wr (m, w) =
    (if vmo_size (w_vmos w) (cap_obj (vmo m)) <=? fault_offset m a then (Err EACCES, (m, w))
     else if negb (has (cap_rights (vmo m)) (if wr then Rights.WRITE else Rights.READ)) then (Err EINVAL, (m, w))
     else if negb (VmPerm.contains (perm m) (if wr then VmPerm.W else VmPerm.R)) then (Err EACCES, (m, w))
     else (let! frame := on_vmos (vmo_get_committed_frame (cap_obj (vmo m)) (fault_offset m a / PAGE_SIZE) wr) in
           let! is_cow := ask_vmos (fun vs => vmo_is_cow vs (cap_obj (vmo m))) in
           map_one_page (fault_offset m a / PAGE_SIZE) frame (is_cow && negb wr)) (m, w)).
Proof.
  intros Hm Hr. pose proof Hm as [Ha Hs Ho H0 Hsp He Hop Hom _ _]. unfold mapping_handle_page_fault.
  rewrite self_bind. cbn [fst]. unfold mend in *.
  rewrite (pure_bind _ _ _ (vmo_offset m + a)) by (apply uadd_ok; unfold usize_max; lia).
  rewrite (pure_bind _ _ _ (fault_offset m a)); cycle 1.
  { rewrite usub_ok by lia. unfold fault_offset. f_equal. lia. }
  rewrite ask_vmos_bind. cbn [snd]. destruct (_ <=? _); [done|].
  unfold vmo_check_rights. destruct (has _ _); [|done]. rewrite (pure_bind (Ok tt) _ _ tt eq_refl).
  rewrite check_perm_run by done. by destruct (VmPerm.contains _ _).
Qed.

Lemma vmar_fault_run v w a (np wr : bool) fuel k m :
  vmar_ok v w -> base v <= a < base v + size v -> ~ covered (child_vmar_s v) a ->
  (k, m) ∈ vm_mappings v -> in_range a (irange m) ->
  vmar_handle_page_fault (S fuel) a np wr (v, w) = at_mapping k (mapping_handle_page_fault a np wr) (v, w).
Proof.
  intros [Halive _ Hmaps Hch _ _ _ _ _ _ _ _] Hb Hc Hin Ha. cbn [vmar_handle_page_fault].
  rewrite vself_bind. cbn [fst]. rewrite (proj2 (Z.ltb_ge _ _)), (proj2 (Z.leb_gt _ _)) by lia.
  cbn [orb]. rewrite Halive, (find_one_none _ _ Hch Hc). destruct (iv_key _ Hmaps _ _ Hin) as [-> _].
  rewrite (proj2 (find_one_spec _ _ m Hmaps) (conj Hin Ha)).
  rewrite vassert_bind; [done|]. unfold in_range in *. apply Z.ltb_lt. cbn in *. lia.
Qed.

Lemma at_mapping_kept {A} k (op : VmMapping * world -> outcome Errno A * (VmMapping * world)) v w m e w' :
  bt_sorted (vm_mappings v) -> bt_get k (vm_mappings v) = Some m -> op (m, w) = (Err e, (m, w')) ->
  at_mapping k op (v, w) = (Err e, (v, w')).
Proof.
  intros Hs Hg Hop. unfold at_mapping. cbn [fst snd]. rewrite Hg, Hop. cbn [fst snd].
  by rewrite bt_insert_same, set_mappings_same.
Qed.

Lemma at_mapping_panic {A} k (op : VmMapping * world -> outcome Errno A * (VmMapping * world)) v w m :
  bt_get k (vm_mappings v) = Some m -> (op (m, w)).1 = Panic -> (at_mapping k op (v, w)).1 = Panic.
Proof.
  intros Hg Hop. unfold at_mapping. cbn [fst snd]. rewrite Hg. destruct (op (m, w)) as [r [m' w']]. cbn in Hop. by subst r.
Qed.

(** C10: a page fault at an address of the VMAR outside its children.  It is
    refused with [EACCES] when nothing backs the address, when the VMO is too
    small or when the permissions do not allow the access, and with [EINVAL]
    when the VMO's rights do not; nothing changes.  If the VMO cannot commit the
    page, its error is returned.  Otherwise, with a frame that can be mapped and
    three free frames for tables: if the page is not mapped yet or the VMO is
    copy-on-write, the frame that the VMO commits is mapped at the page of the
    address with the mapping's permissions (without write for a read of a
    copy-on-write VMO), no other page and no backing changes, and the invariant
    is kept; if the page is mapped and the VMO is not copy-on-write, the handler
    panics. *)
Theorem page_fault_spec v w a (np wr : bool) fuel :
  vmar_ok v w -> base v <= a < base v + size v -> ~ covered (child_vmar_s v) a ->
  let run := vmar_handle_page_fault (S fuel) a np wr (v, w) in
  match backing (vm_mappings v) a with
  | None => run = (Err EACCES, (v, w))
  | Some (o, off, p) =>
      if vmo_size (w_vmos w) (cap_obj o) <=? off then run = (Err EACCES, (v, w))
      else if negb (has (cap_rights o) (if wr then Rights.WRITE else Rights.READ)) then run = (Err EINVAL, (v, w))
      else if negb (VmPerm.contains p (if wr then VmPerm.W else VmPerm.R)) then run = (Err EACCES, (v, w))
      else
        match vmo_get_committed_frame (cap_obj o) (off / PAGE_SIZE) wr (w_vmos w) with
        | (Panic, _) => run.1 = Panic
        | (Err e, vs') => run = (Err e, (v, MkWorld (w_space w) vs'))
        | (Ok f, vs') =>
            let c := vmo_is_cow vs' (cap_obj o) in
            mappable f -> (3 <= room (pt (w_space w)))%nat ->
            if c || bool_decide (entry (w_space w) (page_of a) = None) then
              exists v' w', run = (Ok tt, (v', w')) /\ vmar_ok v' w' /\ w_vmos w' = vs' /\
                free_regions v' = free_regions v /\
                (forall x, backing (vm_mappings v') x = backing (vm_mappings v) x) /\
                forall x, entry (w_space w') x =
                  if decide (x = page_of a)
                  then Some (f, flags_of_perm (if c && negb wr then VmPerm.difference p VmPerm.W else p))
                  else entry (w_space w) x
            else run.1 = Panic
        end
  end.
Proof.
  intros Hok Hb Hc run. pose proof (vo_maps _ _ Hok) as Hmaps. pose proof (iv_sorted _ Hmaps) as Hs.
  destruct (backing (vm_mappings v) a) as [[[o off] p]|] eqn:Hbk; cycle 1.
  { apply backing_none in Hbk. unfold run. cbn [vmar_handle_page_fault]. rewrite vself_bind. cbn [fst].
    rewrite (proj2 (Z.ltb_ge _ _)), (proj2 (Z.leb_gt _ _)) by lia. cbn [orb].
    rewrite (vo_alive _ _ Hok), (find_one_none _ _ (vo_children _ _ Hok) Hc), (find_one_none _ _ Hmaps Hbk). done. }
  destruct (backing_elem _ _ _ Hbk) as (k & m & Hin & Ha & [= -> -> ->]). fold (fault_offset m a).
  assert (Hg : bt_get k (vm_mappings v) = Some m) by (by apply bt_elem_get).
  pose proof (vo_maps_ok _ _ Hok _ _ Hin) as Hm. destruct (pg_fault m a Hm Ha) as [Hpg Hin'].
  pose proof (mapping_fault_run m w a np wr Hm Ha) as Hrun.
  unfold run. rewrite (vmar_fault_run v w a np wr fuel k m Hok Hb Hc Hin Ha).
  revert Hrun. destruct (_ <=? _); [intros; by apply at_mapping_kept with m|].
  destruct (negb (has _ _)); [intros; by apply at_mapping_kept with m|].
  destruct (negb (VmPerm.contains _ _)); [intros; by apply at_mapping_kept with m|].
  destruct (vmo_get_committed_frame _ _ _ _) as [[f|e|] vs'] eqn:Hf; intros Hrun.
  2,3: unfold sbind at 1, on_vmos in Hrun; cbn [fst snd] in Hrun; rewrite Hf in Hrun.
  2:{ exact (at_mapping_kept _ _ _ _ _ _ _ Hs Hg Hrun). }
  2:{ exact (at_mapping_panic _ _ _ _ _ Hg (f_equal fst Hrun)). }
  intros Hmp Hroom. set (c := vmo_is_cow vs' (cap_obj (vmo m))) in *. erewrite sbind_ok in Hrun by (unfold on_vmos; cbn [fst snd]; rewrite Hf; reflexivity). rewrite ask_vmos_bind in Hrun. cbn [snd w_vmos] in Hrun. fold c in Hrun. rewrite <- Hpg in Hin' |- *.
  destruct (c || _) eqn:Hcond.
  - destruct (map_one_page_ok m (MkWorld (w_space w) vs') (fault_offset m a / PAGE_SIZE) f (c && negb wr))
      as (ms' & Hmap & Hok' & Hent); try done; [apply Hok|by unfold cow; cbn; fold c; destruct c, wr| |].
    { apply orb_true_iff in Hcond as [?|?%bool_decide_eq_true]; [by left|by right]. }
    rewrite Hmap in Hrun. eexists _, _. split; [exact (at_mapping_ok _ _ _ _ _ _ _ _ Hg Hrun)|].
    split_and!; [by eapply fault_ok|done|done|intros x; by apply update_backing|done].
  - apply orb_false_iff in Hcond as [Hcow Hsome%bool_decide_eq_false]. rewrite Hcow in Hrun. cbn [andb] in Hrun.
    apply (at_mapping_panic _ _ _ _ m Hg). rewrite Hrun.
    apply map_one_page_present; try done; [apply Hok|]. cbn [w_space]. by destruct (entry _ _); [eexists|].
Qed.
End Fault.
