(* ===== verification/Vmo.v ===== *)
(** Virtual memory objects (kernel/aster-nix/src/vm/vmo/mod.rs, options.rs,
    pager.rs and dyn_cap.rs): lazily committed pages, pagers, slices and
    copy-on-write children.

    The [XArray] of the xarray crate, the frame allocator and the pagers are
    parameters.  Arrays and sizes live in a store, so that the handles of one
    [Arc] share them.  Frames that are dropped are not given back to the
    allocator here; [Frame.v] has the drop protocol. *)

From S2P Require Import Prelude BTree AlignExt Interval Frame Perms VmMapping.

(** * Interfaces *)

Inductive VmoMark : Type := CowVmo | ExclusivePage.

#[export] Instance VmoMark_eq_dec : EqDecision VmoMark.
Proof. solve_decision. Defined.

(** [XArray<VmFrame, VmoMark>] with the cursor operations as functions of the
    index the cursor is at; marks belong to items or to the whole array. *)
Class XArrayOps (X : Type) : Type := {
  xa_new : X;
  xa_load : X -> Z -> option VmFrame;
  xa_store : X -> Z -> VmFrame -> X;
  xa_remove : X -> Z -> X;
  xa_item_marked : X -> Z -> VmoMark -> bool;
  xa_set_item_mark : X -> Z -> VmoMark -> option X;
  xa_marked : X -> VmoMark -> bool;
  xa_set_mark : X -> VmoMark -> X;
  xa_unset_mark_all : X -> VmoMark -> X;
}.

(** What the code relies on: an array is a map from indices to items; storing or
    removing an item leaves the others and the array's marks alone; an item
    mark can be set where there is an item; a clone is a value of its own.
    The mark of a slot is gone once the slot is stored to or removed. *)
Class XArrayLaws {X : Type} (ops : XArrayOps X) : Prop := {
  law_new_load : forall i, xa_load xa_new i = None;
  law_new_marked : forall k, xa_marked xa_new k = false;
  law_load_store : forall x i f j,
    xa_load (xa_store x i f) j = if j =? i then Some f else xa_load x j;
  law_load_remove : forall x i j,
    xa_load (xa_remove x i) j = if j =? i then None else xa_load x j;
  law_item_store : forall x i f j k,
    xa_item_marked (xa_store x i f) j k = if j =? i then false else xa_item_marked x j k;
  law_item_remove : forall x i j k,
    xa_item_marked (xa_remove x i) j k = if j =? i then false else xa_item_marked x j k;
  law_marked_store : forall x i f k, xa_marked (xa_store x i f) k = xa_marked x k;
  law_marked_remove : forall x i k, xa_marked (xa_remove x i) k = xa_marked x k;
  law_set_item_mark : forall x i k, is_Some (xa_load x i) ->
    exists x', xa_set_item_mark x i k = Some x' /\
      (forall j, xa_load x' j = xa_load x j) /\
      (forall j k', xa_item_marked x' j k' =
         if (j =? i) && bool_decide (k' = k) then true else xa_item_marked x j k') /\
      (forall k', xa_marked x' k' = xa_marked x k');
  law_set_mark_load : forall x k j, xa_load (xa_set_mark x k) j = xa_load x j;
  law_set_mark_item : forall x k j k', xa_item_marked (xa_set_mark x k) j k' = xa_item_marked x j k';
  law_set_mark : forall x k k', xa_marked (xa_set_mark x k) k' = bool_decide (k' = k) || xa_marked x k';
  law_unset_load : forall x k j, xa_load (xa_unset_mark_all x k) j = xa_load x j;
  law_unset_item : forall x k j k', xa_item_marked (xa_unset_mark_all x k) j k' =
    negb (bool_decide (k' = k)) && xa_item_marked x j k';
  law_unset_marked : forall x k k', k' <> k -> xa_marked (xa_unset_mark_all x k) k' = xa_marked x k';
}.

(** The trait [Pager]; a pager is named by a number, and a call may use the
    memory and the frame allocator. *)
Class PagerOps (P FA : Type) : Type := {
  pager_commit_page : Z -> Z -> stM (P * alloc_st (FA := FA)) Errno VmFrame;
  pager_update_page : Z -> Z -> stM (P * alloc_st (FA := FA)) Errno unit;
  pager_decommit_page : Z -> Z -> stM (P * alloc_st (FA := FA)) Errno unit;
}.

(** [VmoFlags] *)
Module VmoFlags.
Notation RESIZABLE := 1%Z (only parsing).
Notation CONTIGUOUS := 2%Z (only parsing).
Notation DMA := 4%Z (only parsing).
End VmoFlags.

Section Vmo.
Context {X P FA : Type} {xops : XArrayOps X} {pops : PagerOps P FA}.
Context (fa_alloc : Z -> FA -> option Z * FA) (fa_dealloc : Z -> Z -> FA -> FA).

(** [Pages]: the array is in the store; so is the size of resizable pages. *)
Inductive Pages : Type :=
  | Nonresizable (pages : nat) (size : Z)
  | Resizable (pages size : nat).

Record Vmo_ : Type := MkVmo {
  vm_pager : option Z;
  vm_flags : Z;
  vm_page_idx_offset : Z;
  vm_pages : Pages;
}.

(** Everything VMOs live in. *)
Record vstore : Type := MkVstore {
  st_alloc : alloc_st (FA := FA);
  st_pager : P;
  st_arrays : list X;
  st_sizes : list Z;
}.

Definition vmoM (A : Type) : Type := stM vstore Errno A.

(** Allocating and copying frames; the error is converted by [?]. *)
Definition v_alloc {A} (m : stM (alloc_st (FA := FA)) Error A) : vmoM A := fun s =>
  let r := m (st_alloc s) in
  (map_err r.1, MkVstore r.2 (st_pager s) (st_arrays s) (st_sizes s)).
Definition v_pager {A} (m : stM (P * alloc_st (FA := FA)) Errno A) : vmoM A := fun s =>
  let r := m (st_pager s, st_alloc s) in
  (r.1, MkVstore r.2.2 r.2.1 (st_arrays s) (st_sizes s)).

(** The array with number [p], locked. *)
Definition get_array (p : nat) : vmoM X := fun s =>
  match st_arrays s !! p with Some x => (Ok x, s) | None => (Panic, s) end.
Definition put_array (p : nat) (x : X) : vmoM unit := fun s =>
  (Ok tt, MkVstore (st_alloc s) (st_pager s) (<[p := x]> (st_arrays s)) (st_sizes s)).
Definition get_size (p : nat) : vmoM Z := fun s =>
  match st_sizes s !! p with Some z => (Ok z, s) | None => (Panic, s) end.
Definition put_size (p : nat) (z : Z) : vmoM unit := fun s =>
  (Ok tt, MkVstore (st_alloc s) (st_pager s) (st_arrays s) (<[p := z]> (st_sizes s))).
Definition new_array (x : X) : vmoM nat := fun s =>
  (Ok (length (st_arrays s)),
   MkVstore (st_alloc s) (st_pager s) (st_arrays s ++ [x]) (st_sizes s)).
Definition new_size (z : Z) : vmoM nat := fun s =>
  (Ok (length (st_sizes s)),
   MkVstore (st_alloc s) (st_pager s) (st_arrays s) (st_sizes s ++ [z])).

(** [Pages::with]: the number of the array and the size. *)
Definition pages_array (self : Pages) : nat :=
  match self with Nonresizable p _ => p | Resizable p _ => p end.
Definition pages_size (self : Pages) : vmoM Z :=
  match self with Nonresizable _ sz => sret sz | Resizable _ sz => get_size sz end.

(** * [impl Vmo_] *)

Definition clone_page (page : VmFrame) : vmoM VmFrame :=
  let! new_page := v_alloc (ao_alloc_single fa_alloc (ao_new 1)) in
  let! _ := v_alloc (on_mem (copy_from_frame new_page page)) in
  sret new_page.

Definition prepare_page (self : Vmo_) (page_idx : Z) (is_cow_vmo will_write : bool)
    : vmoM (VmFrame * bool) :=
  match vm_pager self with
  | None => let! page := v_alloc (ao_alloc_single fa_alloc (ao_new 1)) in sret (page, is_cow_vmo)
  | Some pager =>
      let! page := v_pager (pager_commit_page pager page_idx) in
      if is_cow_vmo && will_write then let! new := clone_page page in sret (new, true)
      else sret (page, false)
  end.

(** [commit_with_cursor], the cursor being at [idx] of array [p]. *)
Definition commit_with_cursor (self : Vmo_) (p : nat) (idx : Z) (is_cow_vmo will_write : bool)
    : vmoM VmFrame :=
  let! x := get_array p in
  let is_exclusive := xa_item_marked x idx ExclusivePage in
  let commit (np : VmFrame * bool) : vmoM VmFrame :=
    let! x := get_array p in
    let x := xa_store x idx np.1 in
    let! x := (if np.2 then slift (ounwrap (xa_set_item_mark x idx ExclusivePage)) else sret x) in
    let! _ := put_array p x in
    sret np.1 in
  match xa_load x idx with
  | Some committed_page =>
      if negb (is_cow_vmo && will_write && negb is_exclusive) then sret committed_page
      else let! new := clone_page committed_page in commit (new, true)
  | None =>
      let! np := prepare_page self idx is_cow_vmo will_write in commit np
  end.

(** [Vmo_::commit_page] *)
Definition commit_page (self : Vmo_) (offset : Z) (will_write : bool) : vmoM VmFrame :=
  let! page_idx := slift (uadd (offset / PAGE_SIZE) (vm_page_idx_offset self)) in
  let p := pages_array (vm_pages self) in
  let! x := get_array p in
  commit_with_cursor self p page_idx (xa_marked x CowVmo) will_write.

(** One iteration of the removing loops. *)
Definition remove_page (self : Vmo_) (p : nat) (is_cow_vmo : bool) (page_idx : Z) : vmoM unit :=
  let! x := get_array p in
  let! _ := put_array p (xa_remove x page_idx) in
  match xa_load x page_idx, vm_pager self with
  | Some _, Some pager =>
      if negb is_cow_vmo then v_pager (pager_decommit_page pager page_idx) else sret tt
  | _, _ => sret tt
  end.


(** The page indices of a byte range, in the array. *)
Definition array_idx_range (self : Vmo_) (r : range) : outcome Errno range :=
  let? raw := get_page_idx_range r in
  let? s := uadd (r_start raw) (vm_page_idx_offset self) in
  let? e := uadd (r_end raw) (vm_page_idx_offset self) in
  Ok (Range s e).

(** The loop of [commit]. *)
Fixpoint commit_each (self : Vmo_) (p : nat) (is_cow_vmo will_write : bool) (idxs : list Z)
    (frames : VmFrameVec) : vmoM VmFrameVec :=
  match idxs with
  | [] => sret frames
  | idx :: idxs' =>
      let! f := commit_with_cursor self p idx is_cow_vmo will_write in
      commit_each self p is_cow_vmo will_write idxs' (fv_push frames f)
  end.

(** [Vmo_::commit] *)
Definition commit (self : Vmo_) (r : range) (will_write : bool) : vmoM VmFrameVec :=
  let p := pages_array (vm_pages self) in
  let! sz := pages_size (vm_pages self) in
  if sz <? r_end r then serr EINVAL
  else
    let! ir := slift (array_idx_range self r) in
    let! x := get_array p in
    commit_each self p (xa_marked x CowVmo) will_write (zrange (r_start ir) (r_end ir)) [].

(** [Vmo_::decommit_pages] *)
Definition decommit_pages (self : Vmo_) (p : nat) (r : range) : vmoM unit :=
  let! ir := slift (array_idx_range self r) in
  let! x := get_array p in
  sfor (zrange (r_start ir) (r_end ir)) (remove_page self p (xa_marked x CowVmo)).


(** [Vmo_::is_cow_vmo] *)
Definition is_cow_vmo (self : Vmo_) : vmoM bool :=
  let! x := get_array (pages_array (vm_pages self)) in
  sret (xa_marked x CowVmo).

(** [Vmo_::read_bytes] *)
Definition read_bytes (self : Vmo_) (offset : Z) (buf : slice) : vmoM unit :=
  let! e := slift (uadd offset (sl_len buf)) in
  let! frames := commit self (Range offset e) false in
  v_alloc (on_mem (fv_read_bytes frames (offset mod PAGE_SIZE) buf)).

(** [Vmo_::write_bytes] *)
Definition write_bytes (self : Vmo_) (offset : Z) (buf : slice) : vmoM unit :=
  let! e := slift (uadd offset (sl_len buf)) in
  let write_range := Range offset e in
  let! frames := commit self write_range true in
  let! _ := v_alloc (on_mem (fv_write_bytes frames (offset mod PAGE_SIZE) buf)) in
  let! cow := is_cow_vmo self in
  match vm_pager self with
  | Some pager =>
      if negb cow then
        let! ir := slift (array_idx_range self write_range) in
        sfor (zrange (r_start ir) (r_end ir)) (fun i => v_pager (pager_update_page pager i))
      else sret tt
  | None => sret tt
  end.

(** [Vmo_::clear]; [buffer] is where [vec![0u8; len]] puts the zeros. *)
Definition clear (self : Vmo_) (buffer : Z) (r : range) : vmoM unit :=
  let! len := slift (usub (r_end r) (r_start r)) in
  let! _ := v_alloc (on_mem (fun mem =>
    (Ok tt, mem_store buffer (replicate (Z.to_nat len) 0) mem))) in
  write_bytes self (r_start r) (Slice buffer len).

(** [Vmo_::size] *)
Definition size (self : Vmo_) : vmoM Z := pages_size (vm_pages self).

Inductive ChildType : Type := Cow | SliceChild.

(** [range.len()] *)
Definition range_len (r : range) : Z := Z.max 0 (r_end r - r_start r).

(** [Vmo_::clone_pages_for_child] *)
Definition clone_pages_for_child (self : Vmo_) (child_type : ChildType) (child_flags : Z)
    (r : range) : vmoM Pages :=
  let! _ := slift (oassert (r_start r mod PAGE_SIZE =? 0)) in
  let! _ := slift (oassert (r_end r mod PAGE_SIZE =? 0)) in
  match child_type with
  | SliceChild =>
      if has child_flags VmoFlags.RESIZABLE then serr EINVAL
      else
        match vm_pages self with
        | Resizable _ _ => serr EINVAL
        | Nonresizable pages sz =>
            let! _ := slift (oassert (r_end r <=? sz)) in
            sret (Nonresizable pages (range_len r))
        end
  | Cow =>
      let p := pages_array (vm_pages self) in
      let! sz := pages_size (vm_pages self) in
      let! x := get_array p in
      let! _ := slift (oassert (r_start r <=? sz)) in
      let! new_pages :=
        (if xa_marked x CowVmo then
           let x := xa_unset_mark_all x ExclusivePage in
           let! _ := put_array p x in sret x
         else
           match vm_pager self with
           | Some _ => sret (xa_set_mark x CowVmo)
           | None =>
               let x := xa_set_mark x CowVmo in
               let! _ := put_array p x in sret x
           end) in
      let! q := new_array new_pages in
      if has child_flags VmoFlags.RESIZABLE then
        let! z := new_size (range_len r) in sret (Resizable q z)
      else sret (Nonresizable q (range_len r))
  end.

(** [Vmo_::resize] *)
Definition resize (self : Vmo_) (new_size : Z) : vmoM unit :=
  let! _ := slift (oassert (has (vm_flags self) VmoFlags.RESIZABLE)) in
  let! new_size := slift (align_up 64 new_size PAGE_SIZE) in
  match vm_pages self with
  | Nonresizable _ _ => serr EINVAL
  | Resizable p z =>
      let! old_size := get_size z in
      if new_size =? old_size then sret tt
      else
        let! _ := (if new_size <? old_size
                   then decommit_pages self p (Range new_size old_size) else sret tt) in
        put_size z new_size
  end.


(** [Vmo::get_committed_frame] *)
Definition get_committed_frame (self : Vmo_) (page_idx : Z) (write_page : bool) : vmoM VmFrame :=
  let! offset := slift (umul page_idx PAGE_SIZE) in
  commit_page self offset write_page.

(** * Creating VMOs (options.rs) *)

Fixpoint store_from (i : Z) (frames : VmFrameVec) (x : X) : X :=
  match frames with
  | [] => x
  | f :: frames' => store_from (i + 1) frames' (xa_store x i f)
  end.

Definition committed_pages_if_continuous (flags sz : Z) : vmoM X :=
  if has flags VmoFlags.CONTIGUOUS then
    let! frames := v_alloc (ao_alloc fa_alloc fa_dealloc
      (MkVmAllocOptions (sz / PAGE_SIZE) true false true)) in
    sret (store_from 0 frames xa_new)
  else sret xa_new.

Definition alloc_vmo_ (sz flags : Z) (pager : option Z) : vmoM Vmo_ :=
  let! sz := slift (align_up 64 sz PAGE_SIZE) in
  let! x := committed_pages_if_continuous flags sz in
  let! p := new_array x in
  let! pages :=
    (if has flags VmoFlags.RESIZABLE then let! z := new_size sz in sret (Resizable p z)
     else sret (Nonresizable p sz)) in
  sret (MkVmo pager flags 0 pages).

(** [VmoOptions<Rights>::alloc] *)
Definition vmo_alloc (sz flags : Z) (pager : option Z) : vmoM (cap Vmo_) :=
  let! v := alloc_vmo_ sz flags pager in sret (Cap v Rights.all).

Definition alloc_child_vmo_ (parent : Vmo_) (r : range) (child_flags : Z) (child_type : ChildType)
    : vmoM Vmo_ :=
  let! child_pages := clone_pages_for_child parent child_type child_flags r in
  let! off := slift (uadd (r_start r / PAGE_SIZE) (vm_page_idx_offset parent)) in
  sret (MkVmo (vm_pager parent) child_flags off child_pages).

(** [VmoChildOptions<Rights, _>]: the flags of the options, and [alloc]. *)
Record VmoChildOptions : Type := MkVmoChildOptions {
  ch_parent : cap Vmo_;
  ch_range : range;
  ch_flags : Z;
}.

(** [new_cow] *)
Definition new_cow (parent : cap Vmo_) (r : range) : VmoChildOptions :=
  MkVmoChildOptions parent r (vm_flags (cap_obj parent)).


(** [VmoChildOptions<Rights, _>::alloc] *)
Definition child_alloc (t : ChildType) (o : VmoChildOptions) : vmoM (cap Vmo_) :=
  let! v := alloc_child_vmo_ (cap_obj (ch_parent o)) (ch_range o) (ch_flags o) t in
  sret (Cap v (cap_rights (ch_parent o))).

(** * [impl Vmo<Rights>] (dyn_cap.rs) *)

Definition cap_check (self : cap Vmo_) (right : Z) : vmoM unit := slift (vmo_check_rights self right).

(** [impl VmIo for Vmo<Rights>]: errors become the framework's. *)
Definition vio {A} (m : vmoM A) : stM vstore Error A := fun s =>
  let r := m s in
  (match r.1 with Ok a => Ok a | Err e => Err (frame_of_errno e) | Panic => Panic end, r.2).
Definition cap_read_bytes (self : cap Vmo_) (offset : Z) (buf : slice) : stM vstore Error unit :=
  let! _ := vio (cap_check self Rights.READ) in vio (read_bytes (cap_obj self) offset buf).
Definition cap_write_bytes (self : cap Vmo_) (offset : Z) (buf : slice) : stM vstore Error unit :=
  let! _ := vio (cap_check self Rights.WRITE) in vio (write_bytes (cap_obj self) offset buf).

(** * What mappings use *)

(** The value of a query that leaves the state alone. *)
Definition ask {A} (dflt : A) (m : vmoM A) (s : vstore) : A :=
  match (m s).1 with Ok a => a | _ => dflt end.

#[export] Instance vmo_ops : VmoOps vstore Vmo_ := {
  vmo_size := fun s v => ask 0 (size v) s;
  vmo_is_cow := fun s v => ask false (is_cow_vmo v) s;
  vmo_get_committed_frame := get_committed_frame;
  vmo_new_cow_child := fun parent r => child_alloc Cow (new_cow parent r);
  vmo_read_bytes := cap_read_bytes;
  vmo_write_bytes := cap_write_bytes;
}.

End Vmo.
Arguments vstore : clear implicits.

(** * An array as a finite map *)

(** The arrays of the examples: items with their mark, and the array's mark. *)
Record marray : Type := MkMarray { ma_items : gmap Z (VmFrame * list VmoMark); ma_marks : list VmoMark }.

#[export] Instance marray_ops : XArrayOps marray := {
  xa_new := MkMarray ∅ [];
  xa_load := fun x i => fst <$> ma_items x !! i;
  xa_store := fun x i f => MkMarray (<[i := (f, [])]> (ma_items x)) (ma_marks x);
  xa_remove := fun x i => MkMarray (delete i (ma_items x)) (ma_marks x);
  xa_item_marked := fun x i k =>
    match ma_items x !! i with Some e => bool_decide (k ∈ e.2) | None => false end;
  xa_set_item_mark := fun x i k =>
    match ma_items x !! i with
    | Some e => Some (MkMarray (<[i := (e.1, k :: e.2)]> (ma_items x)) (ma_marks x))
    | None => None
    end;
  xa_marked := fun x k => bool_decide (k ∈ ma_marks x);
  xa_set_mark := fun x k => MkMarray (ma_items x) (k :: ma_marks x);
  xa_unset_mark_all := fun x k =>
    MkMarray ((fun e => (e.1, filter (fun k' => k' <> k) e.2)) <$> ma_items x)
             (filter (fun k' => k' <> k) (ma_marks x));
}.

#[export] Instance marray_laws : XArrayLaws marray_ops.
Proof.
  split; cbn; try done.
  - intros x i f j. destruct (Z.eqb_spec j i) as [->|]; [by rewrite lookup_insert_eq|by rewrite lookup_insert_ne].
  - intros x i j. destruct (Z.eqb_spec j i) as [->|]; [by rewrite lookup_delete_eq|by rewrite lookup_delete_ne].
  - intros x i f j k. destruct (Z.eqb_spec j i) as [->|]; [by rewrite lookup_insert_eq|by rewrite lookup_insert_ne].
  - intros x i j k. destruct (Z.eqb_spec j i) as [->|]; [by rewrite lookup_delete_eq|by rewrite lookup_delete_ne].
  - intros x i k [f Hf]. destruct (ma_items x !! i) as [[f' ks]|] eqn:Hi; [|done].
    eexists. split; [done|]. cbn. split_and!; [| |done].
    + intros j. destruct (decide (j = i)) as [->|]; [by rewrite lookup_insert_eq, Hi|by rewrite lookup_insert_ne].
    + intros j k'. destruct (Z.eqb_spec j i) as [->|]; [|by rewrite lookup_insert_ne].
      rewrite lookup_insert_eq, Hi. cbn. repeat case_bool_decide; set_solver.
  - intros x k k'. repeat case_bool_decide; set_solver.
  - intros x k j. rewrite lookup_fmap. by destruct (ma_items x !! j).
  - intros x k j k'. rewrite lookup_fmap. destruct (ma_items x !! j) as [[f ks]|]; cbn; [|by rewrite andb_false_r].
    repeat case_bool_decide; rewrite ?list_elem_of_filter in *; naive_solver.
  - intros x k k' Hne. repeat case_bool_decide; rewrite ?list_elem_of_filter in *; naive_solver.
Qed.
