(* ===== verification/VmoFacts.v ===== *)
(** Copy-on-write: pages that a VMO may write in place are shared with no other
    VMO, committing a page never changes what any VMO contains, and writes
    reach only the VMO they are made through. *)

From S2P Require Import Prelude BTree AlignExt Interval Frame FrameFacts MemorySetFacts Perms VmMapping VmMappingFacts Vmo.

(** What the VMOs rely on of the frame allocator: [fa_free] are the frames it
    has to give, [fa_room] how many single frames it can still give. *)
Class FaLaws {FA : Type} (fa_alloc : Z -> FA -> option Z * FA)
    (fa_free : FA -> Z -> Prop) (fa_room : FA -> nat) : Prop := {
  law_fa_alloc : forall fa, (0 < fa_room fa)%nat ->
    exists i fa', fa_alloc 1 fa = (Some i, fa') /\ fa_free fa i /\ 0 <= i < 127 * 2 ^ 28 /\
      (fa_room fa <= S (fa_room fa'))%nat /\ forall j, fa_free fa' j -> fa_free fa j /\ j <> i;
}.

Section VmoFacts.
Context {X P FA : Type} {xops : XArrayOps X} {xlaws : XArrayLaws xops} {pops : PagerOps P FA}.
Context (fa_alloc : Z -> FA -> option Z * FA).
Context (fa_free : FA -> Z -> Prop) (fa_room : FA -> nat) {flaws : FaLaws fa_alloc fa_free fa_room}.
Notation vstore := (vstore X P FA).
Implicit Types (st : vstore) (x : X) (self : Vmo_).

Definition arr st (p : nat) : option X := st_arrays st !! p.
Definition mem_of st : memory := (st_alloc st).1.
Definition fa_of st : FA := (st_alloc st).2.

(** Byte [o] of page [i] of array [p]; a page that is not committed is zero. *)
Definition content st (p : nat) (i o : Z) : Z :=
  match arr st p with
  | Some x => match xa_load x i with Some f => byte_at (mem_of st) (frame_ptr f + o) | None => 0 end
  | None => 0
  end.

(** Page [i] may be written in place. *)
Definition owned x (i : Z) : Prop :=
  xa_item_marked x i ExclusivePage = true \/ xa_marked x CowVmo = false.

Definition in_frame (i a : Z) : Prop :=
  i * PAGE_SIZE + PHYS_MEM_BASE_VADDR <= a < i * PAGE_SIZE + PHYS_MEM_BASE_VADDR + PAGE_SIZE.

Definition held st (i : Z) : Prop :=
  exists p x j f, arr st p = Some x /\ xa_load x j = Some f /\ frame_index f = i.

(** The store: committed frames are valid and not free, a page that may be
    written in place is in one place only, an array has no frame twice, and
    only copy-on-write arrays have exclusive pages. *)
Record vinv st : Prop := {
  vi_frames : forall p x i f, arr st p = Some x -> xa_load x i = Some f ->
    frame_ok f /\ ~ fa_free (fa_of st) (frame_index f);
  vi_owned : forall p x i f q y j g,
    arr st p = Some x -> xa_load x i = Some f -> owned x i ->
    arr st q = Some y -> xa_load y j = Some g -> frame_index g = frame_index f -> q = p /\ j = i;
  vi_inj : forall p x i j f g, arr st p = Some x -> xa_load x i = Some f -> xa_load x j = Some g ->
    frame_index f = frame_index g -> i = j;
  vi_marks : forall p x i, arr st p = Some x -> xa_marked x CowVmo = false ->
    xa_item_marked x i ExclusivePage = false;
}.

Lemma in_frame_eq f a : frame_ptr f <= a < frame_ptr f + PAGE_SIZE <-> in_frame (frame_index f) a.
Proof. done. Qed.

(** ** Allocating *)

Lemma alloc_page st :
  (0 < fa_room (fa_of st))%nat ->
  exists f mem' fa', v_alloc (ao_alloc_single fa_alloc (ao_new 1)) st =
      (Ok f, MkVstore (mem', fa') (st_pager st) (st_arrays st) (st_sizes st)) /\
    frame_ok f /\ fa_free (fa_of st) (frame_index f) /\ (fa_room (fa_of st) <= S (fa_room fa'))%nat /\
    (forall j, fa_free fa' j -> fa_free (fa_of st) j /\ j <> frame_index f) /\
    forall a, byte_at mem' a = if decide (in_frame (frame_index f) a) then 0 else byte_at (mem_of st) a.
Proof.
  intros Hroom. destruct (law_fa_alloc (fa_of st) Hroom) as (i & fa' & Halloc & Hfree & Hi & Hr & Hj).
  pose proof (fa_single_ok fa_alloc (ao_new 1) (mem_of st) (fa_of st)) as Hs. rewrite Halloc in Hs.
  specialize (Hs ltac:(by intros ? [= <-])). cbn [fst snd fmap option_fmap option_map] in Hs.
  assert (Hidx : frame_index (Z.lor i NEED_DEALLOC) = i) by (apply frame_index_lor; lia).
  assert (Hf : frame_ok (Z.lor i NEED_DEALLOC)) by (unfold frame_ok; by rewrite Hidx).
  destruct (zero_fill_ok (Z.lor i NEED_DEALLOC) (mem_of st) fa' Hf) as (mem' & Hz & Hb).
  exists (Z.lor i NEED_DEALLOC), mem', fa'. rewrite Hidx. split_and!; try done.
  - unfold v_alloc, ao_alloc_single. cbn [ao_new ao_nframes Z.eqb Pos.eqb negb ao_uninit].
    assert (Heq : st_alloc st = (mem_of st, fa_of st)) by apply surjective_pairing. rewrite Heq.
    rewrite (sbind_ok _ _ _ _ _ Hs). cbn [ok_or]. rewrite (sbind_ok (sret _) _ _ _ _ eq_refl).
    rewrite (sbind_ok _ _ _ _ _ Hz). done.
  - intros a. rewrite Hb. apply decide_ext. rewrite in_frame_eq. by rewrite Hidx.
Qed.

Lemma copy_page (f g : VmFrame) st :
  frame_ok f -> frame_ok g -> frame_index f <> frame_index g ->
  exists mem', v_alloc (on_mem (copy_from_frame f g)) st =
      (Ok tt, MkVstore (mem', fa_of st) (st_pager st) (st_arrays st) (st_sizes st)) /\
    forall a, byte_at mem' a =
      if decide (in_frame (frame_index f) a) then byte_at (mem_of st) (frame_ptr g + (a - frame_ptr f))
      else byte_at (mem_of st) a.
Proof.
  intros Hf Hg Hne. unfold v_alloc, on_mem, copy_from_frame.
  destruct (Z.eqb_spec f g) as [->|_]; [done|]. rewrite as_ptr_ok by done. rewrite as_ptr_ok by done.
  eexists. split; [done|]. intros a. cbn. rewrite byte_at_copy by done. by apply decide_ext.
Qed.

(** ** Installing a fresh page *)

Definition after st (mem : memory) (fa : FA) (p : nat) x : vstore :=
  MkVstore (mem, fa) (st_pager st) (<[p := x]> (st_arrays st)) (st_sizes st).

(** [x2] is [x] with frame [f] at [idx], marked exclusive if [x] is
    copy-on-write. *)
Record installs x (idx : Z) (f : VmFrame) x2 : Prop := {
  in_load : forall j, xa_load x2 j = if j =? idx then Some f else xa_load x j;
  in_mark : xa_marked x2 CowVmo = xa_marked x CowVmo;
  in_item : forall j, xa_item_marked x2 j ExclusivePage =
    if j =? idx then xa_marked x CowVmo else xa_item_marked x j ExclusivePage;
}.

Lemma install_run x idx f :
  exists x2, installs x idx f x2 /\
    (if xa_marked x CowVmo then xa_set_item_mark (xa_store x idx f) idx ExclusivePage
     else Some (xa_store x idx f)) = Some x2.
Proof.
  destruct (xa_marked x CowVmo) eqn:Hc.
  - destruct (law_set_item_mark (xa_store x idx f) idx ExclusivePage) as (x2 & Hx2 & Hl & Hi & Hm).
    { rewrite law_load_store, Z.eqb_refl. by eexists. }
    exists x2. split; [|done]. constructor.
    + intros j. by rewrite Hl, law_load_store.
    + rewrite Hm, law_marked_store. done.
    + intros j. rewrite Hi, law_item_store. rewrite bool_decide_true by done. rewrite andb_true_r, Hc.
      by destruct (j =? idx).
  - exists (xa_store x idx f). split; [|done]. constructor.
    + intros j. apply law_load_store.
    + apply law_marked_store.
    + intros j. rewrite law_item_store, Hc. done.
Qed.

Lemma arr_after st mem fa p x x2 q :
  arr st p = Some x -> arr (after st mem fa p x2) q = if decide (q = p) then Some x2 else arr st q.
Proof.
  intros Hp. unfold arr, after in *. cbn. destruct (decide (q = p)) as [->|].
  - apply list_lookup_insert_eq. by eapply lookup_lt_Some.
  - by apply list_lookup_insert_ne.
Qed.

(** Frame [f] is at page [i] of array [p], which owns it or not. *)
Definition at_ st (p : nat) (i : Z) (f : VmFrame) : Prop :=
  exists x, arr st p = Some x /\ xa_load x i = Some f.
Definition owns st (p : nat) (i : Z) : Prop := exists x, arr st p = Some x /\ owned x i.

Lemma at_after st mem fa p x x2 idx f q j g :
  arr st p = Some x -> installs x idx f x2 -> at_ (after st mem fa p x2) q j g ->
  (q = p /\ j = idx /\ g = f) \/ ((q <> p \/ j <> idx) /\ at_ st q j g).
Proof.
  intros Hp [Hl _ _] (y & Hy & Hg). rewrite (arr_after _ _ _ _ _ _ _ Hp) in Hy.
  destruct (decide (q = p)) as [->|Hq].
  - injection Hy as <-. rewrite Hl in Hg. destruct (Z.eqb_spec j idx) as [->|Hj].
    + left. by injection Hg as <-.
    + right. split; [by right|]. by exists x.
  - right. split; [by left|]. by exists y.
Qed.

Lemma owns_after st mem fa p x x2 idx f q j :
  arr st p = Some x -> installs x idx f x2 -> owns (after st mem fa p x2) q j ->
  (q <> p \/ j <> idx) -> owns st q j.
Proof.
  intros Hp [_ Hm Hi] (y & Hy & Ho) Hne. rewrite (arr_after _ _ _ _ _ _ _ Hp) in Hy.
  destruct (decide (q = p)) as [->|Hq]; [|by exists y].
  injection Hy as <-. exists x. split; [done|]. unfold owned in *. rewrite Hm, Hi in Ho.
  destruct (Z.eqb_spec j idx); [|done]. destruct Hne; done.
Qed.

Lemma vinv_owns st p i f q j g :
  vinv st -> owns st p i -> at_ st p i f -> at_ st q j g -> frame_index g = frame_index f -> q = p /\ j = i.
Proof.
  intros Hv (x & Hx & Ho) (x' & Hx' & Hf) (y & Hy & Hg) Heq. rewrite Hx in Hx'. injection Hx' as <-.
  by eapply (vi_owned _ Hv p x i f q y j g).
Qed.

Lemma vinv_at st p i f : vinv st -> at_ st p i f -> frame_ok f /\ ~ fa_free (fa_of st) (frame_index f).
Proof. intros Hv (x & Hx & Hf). by apply (vi_frames _ Hv p x i). Qed.

Lemma install_ok st p x idx f x2 mem2 fa2 :
  vinv st -> arr st p = Some x -> frame_ok f -> fa_free (fa_of st) (frame_index f) ->
  (forall j, fa_free fa2 j -> fa_free (fa_of st) j /\ j <> frame_index f) ->
  (forall a, ~ in_frame (frame_index f) a -> byte_at mem2 a = byte_at (mem_of st) a) ->
  (forall o, 0 <= o < PAGE_SIZE -> byte_at mem2 (frame_ptr f + o) = content st p idx o) ->
  installs x idx f x2 ->
  vinv (after st mem2 fa2 p x2) /\ owned x2 idx /\
  forall q i o, 0 <= o < PAGE_SIZE -> content (after st mem2 fa2 p x2) q i o = content st q i o.
Proof.
  intros Hv Hp Hf Hfree Hfa Hmem Hcp Hin.
  assert (Hnew : forall q j g, at_ st q j g -> frame_index g <> frame_index f).
  { intros q j g Hg Heq. apply (vinv_at _ _ _ _ Hv) in Hg as [_ Hn]. by rewrite Heq in Hn. }
  split_and!; [constructor| |].
  - intros q y j g Hy Hg. assert (Hat : at_ (after st mem2 fa2 p x2) q j g) by (by exists y).
    destruct (at_after _ _ _ _ _ _ _ _ _ _ _ Hp Hin Hat) as [(-> & -> & ->)|[_ Hat']].
    + split; [done|]. intros Hc. by apply Hfa in Hc as [_ Hc].
    + destruct (vinv_at _ _ _ _ Hv Hat') as [Hg' Hn]. split; [done|]. intros Hc. by apply Hfa in Hc as [Hc _].
  - intros q y j g q' y' j' g' Hy Hg Ho Hy' Hg' Heq.
    assert (Hat : at_ (after st mem2 fa2 p x2) q j g) by (by exists y).
    assert (Hat' : at_ (after st mem2 fa2 p x2) q' j' g') by (by exists y').
    assert (Hown : owns (after st mem2 fa2 p x2) q j) by (by exists y).
    destruct (at_after _ _ _ _ _ _ _ _ _ _ _ Hp Hin Hat) as [(-> & -> & ->)|[Hne Hat1]];
      destruct (at_after _ _ _ _ _ _ _ _ _ _ _ Hp Hin Hat') as [(-> & -> & ->)|[Hne' Hat1']];
      [done|by apply Hnew in Hat1'|by apply Hnew in Hat1|].
    eapply vinv_owns; [exact Hv| |exact Hat1|exact Hat1'|done]. by eapply owns_after.
  - intros q y i j g h Hy Hg Hh Heq. rewrite (arr_after _ _ _ _ _ _ _ Hp) in Hy.
    destruct (decide (q = p)) as [->|Hq]; [|by apply (vi_inj _ Hv q y i j g h)].
    injection Hy as <-. rewrite (in_load _ _ _ _ Hin) in Hg, Hh.
    destruct (Z.eqb_spec i idx) as [->|], (Z.eqb_spec j idx) as [->|]; simplify_eq; [done| | |].
    + exfalso. apply (Hnew p j h); [by exists x|done].
    + exfalso. apply (Hnew p i g); [by exists x|done].
    + by apply (vi_inj _ Hv p x i j g h).
  - intros q y j Hy Hm. rewrite (arr_after _ _ _ _ _ _ _ Hp) in Hy. destruct (decide (q = p)) as [->|Hq].
    + injection Hy as <-. rewrite (in_mark _ _ _ _ Hin) in Hm. rewrite (in_item _ _ _ _ Hin), Hm.
      destruct (j =? idx); [done|]. by apply (vi_marks _ Hv p x).
    + by apply (vi_marks _ Hv q y).
  - unfold owned. rewrite (in_item _ _ _ _ Hin), (in_mark _ _ _ _ Hin), Z.eqb_refl.
    destruct (xa_marked x CowVmo); auto.
  - intros q i o Ho. unfold content at 1. rewrite (arr_after _ _ _ _ _ _ _ Hp).
    destruct (decide (q = p)) as [->|Hq].
    + rewrite (in_load _ _ _ _ Hin). destruct (Z.eqb_spec i idx) as [->|Hi]; [by apply Hcp|].
      unfold content. rewrite Hp. destruct (xa_load x i) as [g|] eqn:Hg; [|done]. cbn. apply Hmem.
      intros Hc. apply (Hnew p i g); [by exists x|].
      apply (frame_disjoint g f (frame_ptr g + o)); [lia|by apply in_frame_eq].
    + unfold content. destruct (arr st q) as [y|] eqn:Hy; [|done].
      destruct (xa_load y i) as [g|] eqn:Hg; [|done]. cbn. apply Hmem. intros Hc.
      apply (Hnew q i g); [by exists y|]. apply (frame_disjoint g f (frame_ptr g + o)); [lia|by apply in_frame_eq].
Qed.

(** ** Committing a page *)

(** What committing page [idx] of array [p] does to the store. *)
Record committed st (p : nat) x (idx : Z) (wr : bool) (f : VmFrame) st' x' : Prop := {
  cm_inv : vinv st';
  cm_arr : arr st' p = Some x';
  cm_load : xa_load x' idx = Some f;
  cm_owned : wr = true -> owned x' idx;
  cm_keep : forall j, j <> idx -> xa_load x' j = xa_load x j /\ (owned x' j <-> owned x j);
  cm_mark : xa_marked x' CowVmo = xa_marked x CowVmo;
  cm_other : forall q, q <> p -> arr st' q = arr st q;
  cm_content : forall q i o, 0 <= o < PAGE_SIZE -> content st' q i o = content st q i o;
  cm_room : (fa_room (fa_of st) <= S (fa_room (fa_of st')))%nat;
  cm_sizes : st_sizes st' = st_sizes st;
  cm_free : forall i, fa_free (fa_of st') i -> fa_free (fa_of st) i;
  cm_held : forall i, held st' i -> held st i \/ fa_free (fa_of st) i;
  cm_bytes : forall a, (forall i, fa_free (fa_of st) i -> ~ in_frame i a) ->
    byte_at (mem_of st') a = byte_at (mem_of st) a;
}.

Lemma installed_committed st p x idx wr f x2 mem2 fa2 :
  vinv st -> arr st p = Some x -> frame_ok f -> fa_free (fa_of st) (frame_index f) ->
  (forall j, fa_free fa2 j -> fa_free (fa_of st) j /\ j <> frame_index f) ->
  (fa_room (fa_of st) <= S (fa_room fa2))%nat ->
  (forall a, ~ in_frame (frame_index f) a -> byte_at mem2 a = byte_at (mem_of st) a) ->
  (forall o, 0 <= o < PAGE_SIZE -> byte_at mem2 (frame_ptr f + o) = content st p idx o) ->
  installs x idx f x2 -> committed st p x idx wr f (after st mem2 fa2 p x2) x2.
Proof.
  intros Hv Hp Hf Hfree Hfa Hroom Hmem Hcp Hin.
  destruct (install_ok st p x idx f x2 mem2 fa2) as (Hv' & Ho & Hc); try done.
  constructor; try done.
  - by rewrite (arr_after _ _ _ _ _ _ _ Hp), decide_True.
  - by rewrite (in_load _ _ _ _ Hin), Z.eqb_refl.
  - intros j Hne. rewrite (in_load _ _ _ _ Hin). unfold owned in *. rewrite (in_item _ _ _ _ Hin), (in_mark _ _ _ _ Hin).
    by rewrite (proj2 (Z.eqb_neq _ _) Hne).
  - apply Hin.
  - intros q Hq. by rewrite (arr_after _ _ _ _ _ _ _ Hp), decide_False.
  - intros i Hi. by apply Hfa.
  - intros i (q & y & j & g & Hy & Hg & <-). assert (Hat : at_ (after st mem2 fa2 p x2) q j g) by (by exists y).
    destruct (at_after _ _ _ _ _ _ _ _ _ _ _ Hp Hin Hat) as [(-> & -> & ->)|[_ (y' & Hy' & Hg')]]; [by right|left].
    by exists q, y', j, g.
  - intros a Ha. apply Hmem. by apply Ha.
Qed.

Lemma get_array_bind {B} p (k : X -> vmoM B) st x :
  arr st p = Some x -> sbind (get_array p) k st = k x st.
Proof. unfold arr, sbind, get_array. by intros ->. Qed.

(** Storing the page that was prepared, with its mark. *)
Lemma store_page_run st p x idx f x2 :
  arr st p = Some x ->
  (if xa_marked x CowVmo then xa_set_item_mark (xa_store x idx f) idx ExclusivePage
   else Some (xa_store x idx f)) = Some x2 ->
  (let! x := get_array p in
   let x := xa_store x idx f in
   let! x := (if xa_marked x CowVmo then slift (ounwrap (xa_set_item_mark x idx ExclusivePage)) else sret x) in
   let! _ := put_array p x in
   sret f) st = (Ok f, after st (mem_of st) (fa_of st) p x2).
Proof.
  intros Hp Hx2. rewrite (get_array_bind _ _ _ _ Hp). cbv zeta. rewrite law_marked_store.
  destruct (xa_marked x CowVmo); [|injection Hx2 as <-];
    [rewrite (slift_ok _ _ _ x2) by (by rewrite Hx2)|rewrite (sbind_ok (sret _) _ _ _ _ eq_refl)];
    unfold sbind, put_array, sret, after, mem_of, fa_of; by rewrite <- surjective_pairing.
Qed.

Lemma committed_here st p x idx f wr :
  vinv st -> arr st p = Some x -> xa_load x idx = Some f -> (wr = true -> owned x idx) ->
  committed st p x idx wr f st x.
Proof. intros Hv Hp Hf Ho. constructor; try done; try lia. by left. Qed.

Lemma commit_with_cursor_ok self st p x idx (wr : bool) :
  vm_pager self = None -> vinv st -> arr st p = Some x -> (0 < fa_room (fa_of st))%nat ->
  exists f st' x', commit_with_cursor fa_alloc self p idx (xa_marked x CowVmo) wr st = (Ok f, st') /\
    committed st p x idx wr f st' x'.
Proof.
  intros Hpager Hv Hp Hroom. unfold commit_with_cursor. rewrite (get_array_bind _ _ _ _ Hp).
  destruct (alloc_page st Hroom) as (f & mem' & fa' & Halloc & Hf & Hfree & Hr & Hfa & Hz).
  destruct (install_run x idx f) as (x2 & Hin & Hx2).
  set (st1 := MkVstore (mem', fa') (st_pager st) (st_arrays st) (st_sizes st)) in *.
  assert (Hp1 : arr st1 p = Some x) by done.
  destruct (xa_load x idx) as [page|] eqn:Hload.
  - destruct (negb _) eqn:Htrig.
    { exists page, st, x. split; [done|]. apply committed_here; [done..|]. intros ->. unfold owned.
      by destruct (xa_marked x CowVmo), (xa_item_marked x idx ExclusivePage); auto. }
    apply negb_false_iff, andb_true_iff in Htrig as [[Hcow ->]%andb_true_iff Hex%negb_true_iff].
    destruct (vi_frames _ Hv _ _ _ _ Hp Hload) as [Hpage Hnf].
    assert (Hne : frame_index f <> frame_index page) by (intros Heq; by rewrite Heq in Hfree).
    destruct (copy_page f page st1 Hf Hpage Hne) as (mem2 & Hcopy & Hb).
    set (st2 := MkVstore (mem2, fa_of st1) (st_pager st1) (st_arrays st1) (st_sizes st1)) in *.
    pose proof (store_page_run st2 p x idx f x2 Hp1 Hx2) as Hst.
    exists f, (after st mem2 fa' p x2), x2. split.
    + unfold clone_page. erewrite sbind_ok; cycle 1.
      { rewrite (sbind_ok _ _ _ _ _ Halloc), (sbind_ok _ _ _ _ _ Hcopy). reflexivity. }
      cbn [fst snd]. rewrite (get_array_bind _ _ st2 x Hp1) in Hst. rewrite (get_array_bind _ _ st2 x Hp1). cbv zeta in Hst |- *.
      rewrite law_marked_store, Hcow in Hst. exact Hst.
    + apply installed_committed; try done.
      * intros a Ha. rewrite Hb, decide_False by done. cbn. by rewrite Hz, decide_False.
      * intros o Ho. rewrite Hb, decide_True by (unfold in_frame, frame_ptr; lia).
        replace (frame_ptr page + (frame_ptr f + o - frame_ptr f)) with (frame_ptr page + o) by lia.
        cbn. rewrite Hz, decide_False; [unfold content; by rewrite Hp, Hload|].
        intros Hc. apply Hne. symmetry. apply (frame_disjoint page f (frame_ptr page + o)); [lia|done].
  - unfold prepare_page. rewrite Hpager. exists f, (after st mem' fa' p x2), x2. split.
    + erewrite sbind_ok; cycle 1. { rewrite (sbind_ok _ _ _ _ _ Halloc). reflexivity. }
      cbn [fst snd]. pose proof (store_page_run st1 p x idx f x2 Hp1 Hx2) as Hst.
      rewrite (get_array_bind _ _ st1 x Hp1) in Hst. rewrite (get_array_bind _ _ st1 x Hp1). cbv zeta in Hst |- *. rewrite law_marked_store in Hst. exact Hst.
    + apply installed_committed; try done.
      * intros a Ha. by rewrite Hz, decide_False.
      * intros o Ho. rewrite Hz, decide_True by (unfold in_frame, frame_ptr; lia). unfold content. by rewrite Hp, Hload.
Qed.

(** ** Committing a range *)

(** What committing the pages [idxs] of array [p] does to the store. *)
Record commits st (p : nat) x (idxs : list Z) (wr : bool) (fs : list VmFrame) st' x' : Prop := {
  cs_inv : vinv st';
  cs_arr : arr st' p = Some x';
  cs_frames : Forall2 (fun i f => xa_load x' i = Some f /\ (wr = true -> owned x' i)) idxs fs;
  cs_keep : forall j, j ∉ idxs -> xa_load x' j = xa_load x j /\ (owned x' j <-> owned x j);
  cs_mark : xa_marked x' CowVmo = xa_marked x CowVmo;
  cs_other : forall q, q <> p -> arr st' q = arr st q;
  cs_content : forall q i o, 0 <= o < PAGE_SIZE -> content st' q i o = content st q i o;
  cs_room : (fa_room (fa_of st) <= length idxs + fa_room (fa_of st'))%nat;
  cs_sizes : st_sizes st' = st_sizes st;
  cs_free : forall i, fa_free (fa_of st') i -> fa_free (fa_of st) i;
  cs_held : forall i, held st' i -> held st i \/ fa_free (fa_of st) i;
  cs_bytes : forall a, (forall i, fa_free (fa_of st) i -> ~ in_frame i a) ->
    byte_at (mem_of st') a = byte_at (mem_of st) a;
}.

Lemma commits_cons st p x idx idxs wr f fs st1 x1 st' x' :
  idx ∉ idxs -> committed st p x idx wr f st1 x1 -> commits st1 p x1 idxs wr fs st' x' ->
  commits st p x (idx :: idxs) wr (f :: fs) st' x'.
Proof.
  intros Hni [] []. constructor; try done.
  - constructor; [|done]. destruct (cs_keep0 idx Hni) as [-> ->]. done.
  - intros j Hj. destruct (cs_keep0 j) as [-> ->]; [set_solver|]. apply cm_keep0. set_solver.
  - congruence.
  - intros q Hq. rewrite cs_other0 by done. by apply cm_other0.
  - intros q i o Ho. rewrite cs_content0 by done. by apply cm_content0.
  - cbn. lia.
  - congruence.
  - auto.
  - intros i [Hi|Hi]%cs_held0; auto.
  - intros a Ha. rewrite cs_bytes0; auto.
Qed.

Lemma commit_each_ok self p (wr : bool) idxs st x frames :
  vm_pager self = None -> NoDup idxs -> vinv st -> arr st p = Some x ->
  (length idxs <= fa_room (fa_of st))%nat ->
  exists fs st' x', commit_each fa_alloc self p (xa_marked x CowVmo) wr idxs frames st = (Ok (frames ++ fs), st') /\
    commits st p x idxs wr fs st' x'.
Proof.
  intros Hpager Hnd. revert st x frames. induction Hnd as [|idx idxs Hni Hnd IH]; intros st x frames Hv Hp Hroom.
  { exists [], st, x. rewrite app_nil_r. split; [done|]. constructor; try done; by left. }
  destruct (commit_with_cursor_ok self st p x idx wr Hpager Hv Hp) as (f & st1 & x1 & Hrun & Hcm).
  { cbn in Hroom. lia. }
  destruct (IH st1 x1 (fv_push frames f) (cm_inv _ _ _ _ _ _ _ _ Hcm) (cm_arr _ _ _ _ _ _ _ _ Hcm))
    as (fs & st' & x' & Hrun' & Hcs).
  { pose proof (cm_room _ _ _ _ _ _ _ _ Hcm). cbn in Hroom. lia. }
  exists (f :: fs), st', x'. split; [|by eapply commits_cons].
  cbn [commit_each]. rewrite (sbind_ok _ _ _ _ _ Hrun). rewrite (cm_mark _ _ _ _ _ _ _ _ Hcm) in Hrun'.
  rewrite Hrun'. by rewrite <- app_assoc.
Qed.

(** ** Reading and writing *)

(** The first page of a byte range, and the one after the last, in the VMO. *)
Definition first_page (offset : Z) : Z := offset / PAGE_SIZE.
Definition end_page (offset len : Z) : Z := (offset + len + 4095) / PAGE_SIZE.

(** Byte [b] of a VMO. *)
Definition vbyte st self (b : Z) : Z :=
  content st (pages_array (vm_pages self)) (b / PAGE_SIZE + vm_page_idx_offset self) (b mod PAGE_SIZE).

Lemma vec_addr_lookup fs (n : nat) f o :
  fs !! n = Some f -> 0 <= o < PAGE_SIZE -> vec_addr fs (Z.of_nat n * PAGE_SIZE + o) = frame_ptr f + o.
Proof.
  intros Hf Ho. unfold vec_addr, PAGE_SIZE in *.
  replace (Z.of_nat n * 4096 + o) with (o + Z.of_nat n * 4096) by lia.
  rewrite Z.div_add, Z.mod_add, Z.div_small, Z.mod_small by lia. rewrite Z.add_0_l, Nat2Z.id. by rewrite (list_lookup_total_correct _ _ _ Hf).
Qed.

Lemma vec_addr_inj fs a b :
  frames_ok fs -> 0 <= a < PAGE_SIZE * Z.of_nat (length fs) -> 0 <= b < PAGE_SIZE * Z.of_nat (length fs) ->
  vec_addr fs a = vec_addr fs b -> a = b.
Proof.
  intros [_ Hnd] Ha Hb Heq.
  assert (Hlk : forall c, 0 <= c < PAGE_SIZE * Z.of_nat (length fs) ->
    exists n f, fs !! n = Some f /\ c = Z.of_nat n * PAGE_SIZE + c mod PAGE_SIZE /\ vec_addr fs c = frame_ptr f + c mod PAGE_SIZE).
  { intros c Hc. pose proof (Z.div_mod c PAGE_SIZE ltac:(done)). pose proof (Z.mod_pos_bound c PAGE_SIZE ltac:(done)).
    assert (0 <= c / PAGE_SIZE < Z.of_nat (length fs)) by (split; [apply Z.div_pos; [lia|done]|apply Z.div_lt_upper_bound; lia]).
    destruct (lookup_lt_is_Some_2 fs (Z.to_nat (c / PAGE_SIZE))) as [f Hf]; [lia|].
    assert (Hn : Z.of_nat (Z.to_nat (c / PAGE_SIZE)) * PAGE_SIZE + c mod PAGE_SIZE = c)
      by (rewrite Z2Nat.id by lia; lia).
    exists (Z.to_nat (c / PAGE_SIZE)), f. split_and!; [done..|].
    rewrite <- (vec_addr_lookup fs _ f _ Hf) by lia. by rewrite Hn. }
  destruct (Hlk a Ha) as (n & f & Hf & Ha' & Hva), (Hlk b Hb) as (k & g & Hg & Hb' & Hvb).
  pose proof (Z.mod_pos_bound a PAGE_SIZE ltac:(done)). pose proof (Z.mod_pos_bound b PAGE_SIZE ltac:(done)).
  assert (Hidx : frame_index f = frame_index g) by (apply (frame_disjoint f g (vec_addr fs a)); lia).
  assert (n = k) as ->.
  { apply (NoDup_lookup _ n k (frame_index f) Hnd); rewrite list_lookup_fmap, ?Hf, ?Hg; cbn; [done|by f_equal]. }
  rewrite Hf in Hg. injection Hg as <-. lia.
Qed.

Lemma commits_frames_ok st p x idxs wr fs st' x' :
  NoDup idxs -> commits st p x idxs wr fs st' x' -> frames_ok fs.
Proof.
  intros Hnd Hcs. pose proof (cs_frames _ _ _ _ _ _ _ _ Hcs) as Hfs. pose proof (cs_inv _ _ _ _ _ _ _ _ Hcs) as Hv.
  pose proof (cs_arr _ _ _ _ _ _ _ _ Hcs) as Hp. split.
  - apply Forall_lookup. intros n f Hf. destruct (Forall2_lookup_r _ _ _ _ _ Hfs Hf) as (i & _ & Hl & _).
    by apply (vi_frames _ Hv p x' i).
  - apply NoDup_alt. intros n k i Hn Hk. rewrite list_lookup_fmap in Hn, Hk.
    destruct (fs !! n) as [f|] eqn:Hf; [|done]. destruct (fs !! k) as [g|] eqn:Hg; [|done]. cbn in Hn, Hk.
    destruct (Forall2_lookup_r _ _ _ _ _ Hfs Hf) as (a & Ha & Hla & _).
    destruct (Forall2_lookup_r _ _ _ _ _ Hfs Hg) as (b & Hb & Hlb & _).
    apply (NoDup_lookup _ _ _ _ Hnd Ha). rewrite Hb. f_equal. symmetry.
    apply (vi_inj _ Hv p x' a b f g Hp Hla Hlb). congruence.
Qed.

(** An access within the VMO. *)
Record access self st (x : X) (offset len : Z) : Prop := {
  ac_anon : vm_pager self = None;
  ac_inv : vinv st;
  ac_arr : arr st (pages_array (vm_pages self)) = Some x;
  ac_size : exists sz, pages_size (vm_pages self) st = (Ok sz, st) /\ offset + len <= sz <= 2 ^ 62;
  ac_offset : 0 <= offset /\ 0 <= len /\ 0 <= vm_page_idx_offset self <= 2 ^ 50;
  ac_room : end_page offset len - first_page offset <= Z.of_nat (fa_room (fa_of st));
}.

Definition page_idxs self (offset len : Z) : list Z :=
  zrange (first_page offset + vm_page_idx_offset self) (end_page offset len + vm_page_idx_offset self).

Lemma page_idxs_length self offset len :
  Z.of_nat (length (page_idxs self offset len)) = Z.max 0 (end_page offset len - first_page offset).
Proof. unfold page_idxs, zrange. rewrite length_seqZ. lia. Qed.

Lemma array_idx_range_ok self offset len :
  0 <= offset -> 0 <= len -> offset + len <= 2 ^ 62 -> 0 <= vm_page_idx_offset self <= 2 ^ 50 ->
  array_idx_range self (Range offset (offset + len)) =
    Ok (Range (first_page offset + vm_page_idx_offset self) (end_page offset len + vm_page_idx_offset self)).
Proof.
  intros Ho Hl Hmax Hoff. unfold array_idx_range, get_page_idx_range. cbn [r_start r_end].
  rewrite align_down_page, align_up_page by (unfold usize_max; lia). cbn [obind r_start r_end].
  unfold page_down, page_up, first_page, end_page. rewrite !Z.div_mul by done. unfold PAGE_SIZE.
  pose proof (Z.div_mod offset 4096 ltac:(lia)). pose proof (Z.mod_pos_bound offset 4096 ltac:(lia)).
  pose proof (Z.div_mod (offset + len + 4095) 4096 ltac:(lia)).
  pose proof (Z.mod_pos_bound (offset + len + 4095) 4096 ltac:(lia)).
  rewrite !uadd_ok by (unfold usize_max; lia). done.
Qed.

Lemma commit_ok self st x offset len (wr : bool) :
  access self st x offset len ->
  exists fs st' x', commit fa_alloc self (Range offset (offset + len)) wr st = (Ok fs, st') /\
    commits st (pages_array (vm_pages self)) x (page_idxs self offset len) wr fs st' x'.
Proof.
  intros [Hanon Hv Hp (sz & Hsz & Hmax) (H0 & H1 & H2) Hroom]. unfold commit.
  rewrite (sbind_ok _ _ _ _ _ Hsz). cbn [r_end]. rewrite (proj2 (Z.ltb_ge _ _)) by lia.
  rewrite (slift_ok _ _ _ _ (array_idx_range_ok self offset len H0 H1 ltac:(lia) H2)).
  rewrite (get_array_bind _ _ _ _ Hp). cbn [r_start r_end]. fold (page_idxs self offset len).
  apply (commit_each_ok self _ wr (page_idxs self offset len) st x []); [done|apply NoDup_seqZ|done|done|].
  pose proof (page_idxs_length self offset len). lia.
Qed.

(** The bytes of the range are those of the frame vector. *)
Lemma commits_vec self st x offset len wr fs st' x' b :
  commits st (pages_array (vm_pages self)) x (page_idxs self offset len) wr fs st' x' ->
  first_page offset <= b / PAGE_SIZE < end_page offset len ->
  exists f, fs !! Z.to_nat (b / PAGE_SIZE - first_page offset) = Some f /\
    xa_load x' (b / PAGE_SIZE + vm_page_idx_offset self) = Some f /\
    (wr = true -> owned x' (b / PAGE_SIZE + vm_page_idx_offset self)) /\
    vec_addr fs (b - first_page offset * PAGE_SIZE) = frame_ptr f + b mod PAGE_SIZE.
Proof.
  intros Hcs Hb. pose proof (cs_frames _ _ _ _ _ _ _ _ Hcs) as Hfs.
  assert (Hi : page_idxs self offset len !! Z.to_nat (b / PAGE_SIZE - first_page offset) =
    Some (b / PAGE_SIZE + vm_page_idx_offset self)).
  { unfold page_idxs, zrange. apply lookup_seqZ. rewrite Z2Nat.id by lia. lia. }
  destruct (Forall2_lookup_l _ _ _ _ _ Hfs Hi) as (f & Hf & Hl & Ho). exists f. split_and!; [done..|].
  rewrite <- (vec_addr_lookup fs _ f _ Hf) by (by apply Z.mod_pos_bound). f_equal.
  rewrite Z2Nat.id by lia. pose proof (Z.div_mod b PAGE_SIZE ltac:(done)). lia.
Qed.

(** The buffer is not in a frame that is free or held by a VMO. *)
Definition away st (buf : slice) : Prop :=
  forall a i, sl_ptr buf <= a < sl_ptr buf + sl_len buf -> held st i \/ fa_free (fa_of st) i -> ~ in_frame i a.

Lemma commits_sep st p x idxs wr fs st' x' buf :
  away st buf -> commits st p x idxs wr fs st' x' -> sep (sl_ptr buf) (sl_len buf) fs.
Proof.
  intros Haw Hcs f a Hf Ha Hin. apply list_elem_of_lookup in Hf as [n Hn].
  destruct (Forall2_lookup_r _ _ _ _ _ (cs_frames _ _ _ _ _ _ _ _ Hcs) Hn) as (i & _ & Hl & _).
  apply (Haw a (frame_index f) Ha); [|by apply in_frame_eq]. apply (cs_held _ _ _ _ _ _ _ _ Hcs).
  exists p, x', i, f. split_and!; [apply Hcs|done..].
Qed.

Definition with_mem st (mem : memory) : vstore :=
  MkVstore (mem, fa_of st) (st_pager st) (st_arrays st) (st_sizes st).

Lemma vinv_with_mem st mem : vinv st -> vinv (with_mem st mem).
Proof. by intros []. Qed.

Lemma pages_fit offset len :
  0 <= offset -> 0 <= len ->
  len + offset mod PAGE_SIZE <= PAGE_SIZE * Z.max 0 (end_page offset len - first_page offset) /\
  first_page offset * PAGE_SIZE + offset mod PAGE_SIZE = offset /\
  forall b, offset <= b < offset + len -> first_page offset <= b / PAGE_SIZE < end_page offset len.
Proof.
  intros Ho Hl. unfold end_page, first_page, PAGE_SIZE.
  pose proof (Z.div_mod offset 4096 ltac:(lia)). pose proof (Z.mod_pos_bound offset 4096 ltac:(lia)).
  pose proof (Z.div_mod (offset + len + 4095) 4096 ltac:(lia)).
  pose proof (Z.mod_pos_bound (offset + len + 4095) 4096 ltac:(lia)). split_and!; [lia|lia|].
  intros b Hb. pose proof (Z.div_mod b 4096 ltac:(lia)). pose proof (Z.mod_pos_bound b 4096 ltac:(lia)). lia.
Qed.

Lemma fs_length self st x offset len wr fs st' x' :
  commits st (pages_array (vm_pages self)) x (page_idxs self offset len) wr fs st' x' ->
  Z.of_nat (length fs) = Z.max 0 (end_page offset len - first_page offset).
Proof.
  intros Hcs. rewrite <- (page_idxs_length self). f_equal. symmetry.
  exact (Forall2_length _ _ _ (cs_frames _ _ _ _ _ _ _ _ Hcs)).
Qed.

Lemma io_size self st x offset len wr fs st' x' :
  access self st x offset len ->
  commits st (pages_array (vm_pages self)) x (page_idxs self offset len) wr fs st' x' ->
  PAGE_SIZE * Z.of_nat (length fs) <= usize_max /\
  len + offset mod PAGE_SIZE <= PAGE_SIZE * Z.of_nat (length fs).
Proof.
  intros [_ _ _ (sz & _ & Hmax) (H0 & H1 & _) _] Hcs. rewrite (fs_length _ _ _ _ _ _ _ _ _ Hcs).
  destruct (pages_fit offset len H0 H1) as [Hfit _]. split; [|done].
  unfold end_page, first_page, usize_max, PAGE_SIZE in *.
  pose proof (Z.div_mod offset 4096 ltac:(lia)). pose proof (Z.mod_pos_bound offset 4096 ltac:(lia)).
  pose proof (Z.div_mod (offset + len + 4095) 4096 ltac:(lia)).
  pose proof (Z.mod_pos_bound (offset + len + 4095) 4096 ltac:(lia)). lia.
Qed.

(** A written address is the byte of the VMO it was meant for, and nowhere else. *)
Lemma written_only self st x offset len fs st' x' k q i o g :
  access self st x offset len ->
  commits st (pages_array (vm_pages self)) x (page_idxs self offset len) true fs st' x' ->
  0 <= k < len -> 0 <= o < PAGE_SIZE -> at_ st' q i g ->
  frame_ptr g + o = vec_addr fs (offset mod PAGE_SIZE + k) ->
  q = pages_array (vm_pages self) /\ i = (offset + k) / PAGE_SIZE + vm_page_idx_offset self /\
  o = (offset + k) mod PAGE_SIZE.
Proof.
  intros [_ _ _ _ (H0 & H1 & _) _] Hcs Hk Ho Hg Heq. destruct (pages_fit offset len H0 H1) as (_ & Hst & Hin).
  destruct (commits_vec self st x offset len true fs st' x' (offset + k) Hcs) as (f & Hf & Hl & Hown & Hva).
  { apply Hin. lia. }
  replace (offset + k - first_page offset * PAGE_SIZE) with (offset mod PAGE_SIZE + k) in Hva by lia.
  rewrite Hva in Heq. pose proof (Z.mod_pos_bound (offset + k) PAGE_SIZE ltac:(done)) as Hm.
  assert (Hidx : frame_index g = frame_index f) by (apply (frame_disjoint g f (frame_ptr g + o)); lia).
  destruct (vinv_owns st' (pages_array (vm_pages self)) ((offset + k) / PAGE_SIZE + vm_page_idx_offset self) f q i g)
    as [-> ->]; try done; [apply Hcs|exists x'; split; [apply Hcs|by apply Hown]|exists x'; split; [apply Hcs|done]|].
  split_and!; [done..|]. unfold frame_ptr in Heq. rewrite Hidx in Heq. lia.
Qed.

Lemma write_content self st x offset buf fs st' x' mem2 q i o :
  access self st x offset (sl_len buf) ->
  commits st (pages_array (vm_pages self)) x (page_idxs self offset (sl_len buf)) true fs st' x' ->
  written fs (offset mod PAGE_SIZE) (sl_ptr buf) (sl_len buf) (mem_of st') mem2 ->
  0 <= o < PAGE_SIZE ->
  (q <> pages_array (vm_pages self) \/
   ~ (offset <= (i - vm_page_idx_offset self) * PAGE_SIZE + o < offset + sl_len buf)) ->
  content (with_mem st' mem2) q i o = content st q i o.
Proof.
  intros Hac Hcs [_ Hout] Ho Hne. rewrite <- (cs_content _ _ _ _ _ _ _ _ Hcs) by done.
  unfold content. change (arr (with_mem st' mem2) q) with (arr st' q).
  destruct (arr st' q) as [y|] eqn:Hy; [|done]. destruct (xa_load y i) as [g|] eqn:Hg; [|done].
  cbn. apply Hout. intros k Hk Heq.
  destruct (written_only self st x offset (sl_len buf) fs st' x' k q i o g Hac Hcs Hk Ho) as (-> & -> & ->);
    [by exists y|done|]. destruct Hne as [?|Hne]; [done|]. apply Hne.
  pose proof (Z.div_mod (offset + k) PAGE_SIZE ltac:(done)). lia.
Qed.

(** C11: writing to a VMO without a pager, at an offset and length within its
    size: it succeeds, the bytes of the range are those of the buffer, every
    other byte of the VMO is as before, and no byte of any VMO on other pages
    changes, in particular of a copy-on-write parent or child.  A range that
    exceeds the size is refused with [EINVAL] and changes nothing. *)
Theorem vmo_write_isolated self st x offset (buf : slice) :
  access self st x offset (sl_len buf) -> away st buf ->
  (exists st', write_bytes fa_alloc self offset buf st = (Ok tt, st') /\ vinv st' /\
     (forall b, 0 <= b -> vbyte st' self b =
        if decide (offset <= b < offset + sl_len buf)
        then byte_at (mem_of st) (sl_ptr buf + (b - offset)) else vbyte st self b) /\
     forall q i o, q <> pages_array (vm_pages self) -> 0 <= o < PAGE_SIZE ->
       content st' q i o = content st q i o) /\
  forall sz off', pages_size (vm_pages self) st = (Ok sz, st) -> sz < off' + sl_len buf <= usize_max ->
    write_bytes fa_alloc self off' buf st = (Err EINVAL, st).
Proof.
  intros Hac Haw. split; cycle 1.
  { intros sz off' Hsz Hlt. unfold write_bytes. rewrite (slift_ok _ _ _ (off' + sl_len buf)) by (apply uadd_ok; lia).
    unfold sbind at 1, commit. rewrite (sbind_ok _ _ _ _ _ Hsz). cbn [r_end]. by rewrite (proj2 (Z.ltb_lt _ _)) by lia. }
  destruct (commit_ok self st x offset (sl_len buf) true Hac) as (fs & st1 & x1 & Hrun & Hcs).
  destruct (io_size _ _ _ _ _ _ _ _ _ Hac Hcs) as [Hsize Hfit].
  pose proof (commits_frames_ok _ _ _ _ _ _ _ _ (NoDup_seqZ _ _) Hcs) as Hfs.
  pose proof Hac as [Hanon Hv Hp (sz & Hsz & Hmax) (H0 & H1 & H2) _].
  destruct (fv_write_bytes_ok fs (offset mod PAGE_SIZE) buf Hfs) with (mem := mem_of st1) as (mem2 & Hw & Hwr);
    [by apply Z.mod_pos_bound|done|done|done|by eapply commits_sep|].
  exists (with_mem st1 mem2). split_and!.
  - unfold write_bytes. rewrite (slift_ok _ _ _ (offset + sl_len buf)) by (apply uadd_ok; unfold usize_max; lia).
    rewrite (sbind_ok _ _ _ _ _ Hrun).
    erewrite sbind_ok by (unfold v_alloc, on_mem; fold (mem_of st1); rewrite Hw; reflexivity).
    unfold is_cow_vmo. erewrite sbind_ok; [|exact (get_array_bind _ _ (with_mem st1 mem2) x1 (cs_arr _ _ _ _ _ _ _ _ Hcs))].
    by rewrite Hanon.
  - apply vinv_with_mem, Hcs.
  - intros b Hb. pose proof (Z.mod_pos_bound b PAGE_SIZE ltac:(done)) as Hmb.
    pose proof (Z.div_mod b PAGE_SIZE ltac:(done)) as Hdb. destruct (decide _) as [Hin|Hin]; cycle 1.
    { apply (write_content self st x offset buf fs st1 x1 mem2); [done..|]. right. intros Hc. apply Hin. lia. }
    destruct (pages_fit offset (sl_len buf) H0 H1) as (_ & Hst & Hpg).
    destruct (commits_vec self st x offset (sl_len buf) true fs st1 x1 b Hcs (Hpg b Hin)) as (f & _ & Hl & _ & Hva).
    unfold vbyte, content. change (arr (with_mem st1 mem2) ?p) with (arr st1 p).
    rewrite (cs_arr _ _ _ _ _ _ _ _ Hcs), Hl. cbn [with_mem mem_of st_alloc fst]. rewrite <- Hva.
    destruct Hwr as [Hwr _]. replace (b - first_page offset * PAGE_SIZE) with (offset mod PAGE_SIZE + (b - offset)) by lia.
    rewrite Hwr by lia. apply (cs_bytes _ _ _ _ _ _ _ _ Hcs). intros i Hi. apply Haw; [lia|by right].
  - intros q i o Hq Ho. apply (write_content self st x offset buf fs st1 x1 mem2); [done..|by left].
Qed.

(** A buffer that is away from the frames may change. *)
Lemma fetch_content st p x idxs wr fs st' x' buf mem2 q i o :
  away st buf -> commits st p x idxs wr fs st' x' ->
  (forall a, ~ (sl_ptr buf <= a < sl_ptr buf + sl_len buf) -> byte_at mem2 a = byte_at (mem_of st') a) ->
  0 <= o < PAGE_SIZE -> content (with_mem st' mem2) q i o = content st q i o.
Proof.
  intros Haw Hcs Hout Ho. rewrite <- (cs_content _ _ _ _ _ _ _ _ Hcs) by done.
  unfold content. change (arr (with_mem st' mem2) q) with (arr st' q).
  destruct (arr st' q) as [y|] eqn:Hy; [|done]. destruct (xa_load y i) as [g|] eqn:Hg; [|done].
  cbn. apply Hout. intros Hc. apply (Haw _ (frame_index g) Hc); [|unfold in_frame, frame_ptr; lia].
  apply (cs_held _ _ _ _ _ _ _ _ Hcs). by exists q, y, i, g.
Qed.

(** C23: reading a VMO without a pager, at an offset and length within its
    size: it succeeds, the buffer gets the bytes of the range (zero where
    no page was committed), and no byte of any VMO changes although missing
    pages are committed on the way. *)
Theorem vmo_read_returns_content self st x offset (buf : slice) :
  access self st x offset (sl_len buf) -> away st buf ->
  exists st', read_bytes fa_alloc self offset buf st = (Ok tt, st') /\ vinv st' /\
    (forall k, 0 <= k < sl_len buf -> byte_at (mem_of st') (sl_ptr buf + k) = vbyte st self (offset + k)) /\
    forall q i o, 0 <= o < PAGE_SIZE -> content st' q i o = content st q i o.
Proof.
  intros Hac Haw.
  destruct (commit_ok self st x offset (sl_len buf) false Hac) as (fs & st1 & x1 & Hrun & Hcs).
  destruct (io_size _ _ _ _ _ _ _ _ _ Hac Hcs) as [Hsize Hfit].
  pose proof (commits_frames_ok _ _ _ _ _ _ _ _ (NoDup_seqZ _ _) Hcs) as Hfs.
  pose proof Hac as [Hanon Hv Hp (sz & Hsz & Hmax) (H0 & H1 & H2) _].
  destruct (fv_read_bytes_ok fs (offset mod PAGE_SIZE) buf Hfs) with (mem := mem_of st1) as (mem2 & Hr & Hin & Hout);
    [by apply Z.mod_pos_bound|done|done|done|by eapply commits_sep|].
  exists (with_mem st1 mem2). split_and!.
  - unfold read_bytes. rewrite (slift_ok _ _ _ (offset + sl_len buf)) by (apply uadd_ok; unfold usize_max; lia).
    rewrite (sbind_ok _ _ _ _ _ Hrun). unfold v_alloc, on_mem. fold (mem_of st1). by rewrite Hr.
  - apply vinv_with_mem, Hcs.
  - intros k Hk. cbn. rewrite Hin by done.
    destruct (pages_fit offset (sl_len buf) H0 H1) as (_ & Hst & Hpg).
    destruct (commits_vec self st x offset (sl_len buf) false fs st1 x1 (offset + k) Hcs) as (f & _ & Hl & _ & Hva).
    { apply Hpg. lia. }
    unfold vbyte. rewrite <- (cs_content _ _ _ _ _ _ _ _ Hcs) by (by apply Z.mod_pos_bound).
    unfold content. rewrite (cs_arr _ _ _ _ _ _ _ _ Hcs), Hl, <- Hva. f_equal. f_equal. lia.
  - intros q i o Ho. by apply (fetch_content st (pages_array (vm_pages self)) x (page_idxs self offset (sl_len buf)) false fs st1 x1 buf mem2).
Qed.

(** ** Copy-on-write children *)

(** [x2] holds the frames of [x], is copy-on-write and owns no page. *)
Definition shares x x2 : Prop :=
  (forall j, xa_load x2 j = xa_load x j) /\ xa_marked x2 CowVmo = true /\
  forall j, xa_item_marked x2 j ExclusivePage = false.

Definition forked st (p : nat) x2 sizes : vstore :=
  MkVstore (st_alloc st) (st_pager st) (<[p := x2]> (st_arrays st) ++ [x2]) sizes.

Lemma arr_forked st p x x2 sizes q y :
  arr st p = Some x -> arr (forked st p x2 sizes) q = Some y ->
  (y = x2 /\ (q = p \/ q = length (st_arrays st))) \/ (q <> p /\ arr st q = Some y).
Proof.
  intros Hp Hq. unfold arr, forked in *. cbn in Hq. apply lookup_app_Some in Hq as [Hq|[Hge Hq]].
  - destruct (decide (q = p)) as [->|Hne].
    + rewrite list_lookup_insert_eq in Hq by (by eapply lookup_lt_Some). left. split; [congruence|by left].
    + rewrite list_lookup_insert_ne in Hq by done. by right.
  - left. rewrite length_insert in Hge, Hq. apply list_lookup_singleton_Some in Hq as [Hq ->].
    split; [done|right; lia].
Qed.

Lemma forked_old st p x x2 sizes q y :
  arr st p = Some x -> shares x x2 -> arr (forked st p x2 sizes) q = Some y ->
  exists q' z, arr st q' = Some z /\ (forall j, xa_load y j = xa_load z j) /\
    forall j, owned y j -> q' = q /\ y = z.
Proof.
  intros Hp (Hl & Hm & Hi) Hq. destruct (arr_forked _ _ _ _ _ _ _ Hp Hq) as [[-> _]|[_ Hy]].
  - exists p, x. split_and!; [done..|]. intros j [Ho|Ho]; [by rewrite Hi in Ho|congruence].
  - by exists q, y.
Qed.

Lemma vinv_forked st p x x2 sizes :
  vinv st -> arr st p = Some x -> shares x x2 -> vinv (forked st p x2 sizes).
Proof.
  intros Hv Hp Hsh. constructor.
  - intros q y i f Hy Hf. destruct (forked_old _ _ _ _ _ _ _ Hp Hsh Hy) as (q' & z & Hz & Hl & _).
    rewrite Hl in Hf. by apply (vi_frames _ Hv q' z i).
  - intros q y i f q1 y1 j g Hy Hf Ho Hy1 Hg Heq.
    destruct (forked_old _ _ _ _ _ _ _ Hp Hsh Hy) as (q' & z & Hz & Hl & Hown).
    destruct (Hown i Ho) as [-> <-]. clear Hown Hl.
    destruct (arr_forked _ _ _ _ _ _ _ Hp Hy1) as [[-> _]|[_ Hy1']].
    + destruct Hsh as (Hl & Hm & Hi). rewrite Hl in Hg.
      destruct (vi_owned _ Hv q y i f p x j g Hz Hf Ho Hp Hg Heq) as [<- <-].
      destruct (arr_forked _ _ _ _ _ _ _ Hp Hy) as [[-> _]|[? _]]; [|done].
      destruct Ho as [Ho|Ho]; [by rewrite Hi in Ho|congruence].
    + by apply (vi_owned _ Hv q y i f q1 y1 j g).
  - intros q y i j f g Hy Hf Hg Heq. destruct (forked_old _ _ _ _ _ _ _ Hp Hsh Hy) as (q' & z & Hz & Hl & _).
    rewrite Hl in Hf, Hg. by apply (vi_inj _ Hv q' z i j f g).
  - intros q y j Hy Hm. destruct (arr_forked _ _ _ _ _ _ _ Hp Hy) as [[-> _]|[_ Hy']].
    + destruct Hsh as (_ & Hc & _). congruence.
    + by apply (vi_marks _ Hv q y).
Qed.

Lemma content_forked st p x x2 sizes q i o :
  arr st p = Some x -> shares x x2 -> (q < length (st_arrays st))%nat ->
  content (forked st p x2 sizes) q i o = content st q i o /\
  content (forked st p x2 sizes) (length (st_arrays st)) i o = content st p i o.
Proof.
  intros Hp (Hl & _) Hq. assert (Hpl : (p < length (st_arrays st))%nat) by (by eapply lookup_lt_Some).
  unfold content at 1 3. unfold arr, forked. cbn. split.
  - rewrite lookup_app_l by (by rewrite length_insert). unfold content, arr.
    destruct (decide (q = p)) as [->|]; [|by rewrite list_lookup_insert_ne].
    rewrite list_lookup_insert_eq by done. unfold arr in Hp. by rewrite Hl, Hp.
  - rewrite lookup_app_r, length_insert, Nat.sub_diag by (by rewrite length_insert). cbn.
    unfold content. by rewrite Hl, Hp.
Qed.

(** The pages of parent and child after the clone. *)
Definition cow_pages x : X :=
  if xa_marked x CowVmo then xa_unset_mark_all x ExclusivePage else xa_set_mark x CowVmo.

Lemma cow_shares st p x : vinv st -> arr st p = Some x -> shares x (cow_pages x).
Proof.
  intros Hv Hp. unfold cow_pages.
  destruct (xa_marked x CowVmo) eqn:Hc; (split_and!; [intros j|..|intros j]).
  - apply law_unset_load.
  - by rewrite law_unset_marked.
  - by rewrite law_unset_item, bool_decide_true.
  - apply law_set_mark_load.
  - by rewrite law_set_mark, bool_decide_true.
  - rewrite law_set_mark_item. by apply (vi_marks _ Hv p x).
Qed.

Lemma clone_cow_run self st x sz r flags :
  vm_pager self = None -> arr st (pages_array (vm_pages self)) = Some x ->
  pages_size (vm_pages self) st = (Ok sz, st) ->
  r_start r mod PAGE_SIZE = 0 -> r_end r mod PAGE_SIZE = 0 -> r_start r <= sz ->
  exists pages sizes, let st' := forked st (pages_array (vm_pages self)) (cow_pages x) sizes in
    pages_array pages = length (st_arrays st) /\ pages_size pages st' = (Ok (range_len r), st') /\
    clone_pages_for_child self Cow flags r st = (Ok pages, st').
Proof.
  intros Hanon Hp Hsz Hrs Hre Hle. set (p := pages_array (vm_pages self)) in *. set (n := length (st_arrays st)).
  unfold clone_pages_for_child. rewrite Hrs, Hre, Hanon. fold p.
  rewrite !(slift_ok _ _ _ tt) by done. rewrite (sbind_ok _ _ _ _ _ Hsz), (get_array_bind _ _ _ _ Hp).
  rewrite (slift_ok _ _ _ tt) by (unfold oassert; by rewrite (proj2 (Z.leb_le _ _)) by lia).
  unfold cow_pages. destruct (xa_marked x CowVmo); cbv zeta; (destruct (has flags VmoFlags.RESIZABLE);
    [exists (Resizable n (length (st_sizes st))), (st_sizes st ++ [range_len r])|
     exists (Nonresizable n (range_len r)), (st_sizes st)]); (split; [done|split]).
  all: try (by unfold sbind, put_array, new_array, new_size, sret; cbn; rewrite length_insert).
  all: cbn; unfold get_size, sret; cbn; rewrite ?lookup_app_r, ?Nat.sub_diag by done; done.
Qed.

End VmoFacts.
