(* ===== verification/VmarExamples.v ===== *)
(** Concrete address spaces on the radix page table of [PageTable.v] and the
    VMOs of [Vmo.v]: runs of the VMAR operations that the contract excludes. *)

From S2P Require Import Prelude BTree AlignExt Interval FreeRegion Frame FrameFacts PageTable PageTableFacts PtInterface MemorySet MemorySetFacts VmSpace Perms VmMapping VmMappingFacts Vmar VmarFacts VmarSpec VmarFault Vmo.

(** ** Parameters for the examples *)

(** An allocator that hands out frames from a list, one at a time. *)
Definition list_alloc (n : Z) (fa : list Z) : option Z * list Z :=
  match fa with f :: fa' => if n =? 1 then (Some f, fa') else (None, fa) | [] => (None, fa) end.
Definition list_dealloc (i n : Z) (fa : list Z) : list Z := i :: fa.

(** No pager is attached. *)
#[export] Instance no_pager : PagerOps unit (list Z) := {
  pager_commit_page := fun _ _ => serr EIO;
  pager_update_page := fun _ _ => serr EIO;
  pager_decommit_page := fun _ _ => serr EIO;
}.

Notation store := (vstore marray unit (list Z)).
Notation vworld := (world PageTable store).

#[export] Instance demo_vmos : VmoOps store Vmo_ := vmo_ops list_alloc.

Definition store0 : store := MkVstore (∅, seqZ 100 20) tt [] [].

(** A VMO of [n] pages, and the store with it. *)
Definition with_vmo (n : Z) (s : store) : cap Vmo_ * store :=
  match vmo_alloc list_alloc list_dealloc (n * 4096) 0 None s with
  | (Ok v, s') => (v, s')
  | (_, s') => (Cap (MkVmo None 0 0 (Nonresizable 0 0)) 0, s')
  end.

Definition RW : Z := Z.lor VmPerms.READ VmPerms.WRITE.

Definition at_addr (a sz : Z) (fixed : bool) (o : VmarMapOptions Vmo_) : VmarMapOptions Vmo_ :=
  MkVmarMapOptions (o_vmo o) (o_perms o) (o_vmo_offset o) sz (Some a) (o_align o) fixed.

Definition vstate : Type := Vmar_ Vmo_ * vworld.

(** Map a fresh VMO of [n] pages read-write at [a]. *)
Definition map_pages (a n : Z) (s : vstate) : outcome Errno Z * vstate :=
  let (v, st) := with_vmo n (w_vmos s.2) in
  dyn_map Rights.all v RW (at_addr a (n * 4096) false) (s.1, MkWorld (w_space s.2) st).

Definition write_fault (a : Z) (s : vstate) : outcome Errno unit * vstate :=
  dyn_handle_page_fault 2 Rights.all a true true s.

Definition s0 : vstate := (new_root, MkWorld demo_ms store0).

(** Two adjacent mappings, of two pages and of one. *)
Definition s_two : vstate := (map_pages 0x12000 1 (map_pages 0x10000 2 s0).2).2.

(** One mapping of three pages, all present. *)
Definition s_three : vstate :=
  (write_fault 0x12000 (write_fault 0x11000 (write_fault 0x10000 (map_pages 0x10000 3 s0).2).2).2).2.

Definition mapped_at (a : Z) (s : vstate) : bool := vs_is_mapped a (w_space s.2).
Definition backed_at (a : Z) (s : vstate) : bool := bool_decide (is_Some (backing (vm_mappings s.1) a)).

(** ** An address space within the contract *)

Notation vmar_ok := (vmar_ok (ok := radix_ok) (view := radix_view) (V := Vmo_) (VS := store)).

Definition vmo1 : cap Vmo_ := (with_vmo 3 store0).1.
Definition w1 : vworld := MkWorld demo_ms (with_vmo 3 store0).2.
Definition o1 : VmarMapOptions Vmo_ := at_addr 0x10000 0x3000 false (map_options_new (w_vmos w1) vmo1 RW).

Lemma root_ok (w : vworld) :
  ms_ok (ok := radix_ok) (view := radix_view) (w_space w) -> (forall a, entry (w_space w) a = None) ->
  vmar_ok new_root w.
Proof.
  intros Hok He. constructor; cbn; try done; try apply iv_ok_nil.
  - by apply iv_okb_ok.
  - intros a _. apply covered_nil.
  - intros a _. apply covered_nil.
  - intros a Hc. by apply covered_nil in Hc.
  - intros k r [= -> ->]%list_elem_of_singleton. unfold free_ok. cbn. split_and!; done.
  - intros k m []%elem_of_nil.
  - intros k m []%elem_of_nil.
Qed.

Lemma root1_ok : vmar_ok new_root w1.
Proof. apply root_ok; [apply demo_ms_ok|done]. Qed.

Lemma o1_ok : opts_ok w1 o1.
Proof.
  constructor; cbn; try done.
  - exists 12. split; [lia|done].
  - intros off [= <-]. done.
Qed.

Lemma o1_room : has_room new_root w1 o1 0x10000 root_region.
Proof.
  split; [|by intros off [= <-]]. split_and!; [|done|done|done].
  cbn. by apply list_elem_of_singleton.
Qed.

Definition v1 : Vmar_ Vmo_ := mapped o1 w1 0x10000 root_region new_root.

Lemma v1_ok : vmar_ok v1 w1.
Proof. apply mapped_ok; [apply root1_ok|apply o1_ok|apply o1_room]. Qed.

Lemma mmap_spec_witness :
  exists a r v', map_build o1 (new_root, w1) = (Ok a, (v', w1)) /\ has_room new_root w1 o1 a r /\ vmar_ok v' w1.
Proof.
  destruct (mmap_spec new_root w1 o1 root1_ok o1_ok eq_refl)
    as [(a & r & v' & Hrun & Hroom & _ & Hok & _)|[_ Hno]].
  - exists a, r, v'. split_and!; [exact Hrun|exact Hroom|exact Hok].
  - exfalso. exact (Hno _ _ o1_room).
Defined.

Lemma munmap_spec_witness :
  exists v' w', destroy 1 (Range 0x11000 0x12000) (v1, w1) = (Ok tt, (v', w')) /\ vmar_ok v' w' /\
    backing (vm_mappings v') 0x11000 = None /\
    backing (vm_mappings v') 0x12000 = Some (vmo1, 0x2000, vmperm_of_perms RW).
Proof.
  destruct (munmap_spec (laws := radix_laws) v1 w1 (Range 0x11000 0x12000) 1 v1_ok)
    as (v' & w' & Hrun & Hok & Hbk & _).
  - split; reflexivity.
  - reflexivity.
  - intros a Hc. by apply covered_nil in Hc.
  - intros k m [= -> ->]%list_elem_of_singleton _. reflexivity.
  - exists v', w'. split_and!; [exact Hrun|exact Hok|rewrite Hbk; reflexivity|rewrite Hbk; reflexivity].
Defined.

(** Page 1 of the VMO, committed. *)
Definition commit1 : outcome Errno VmFrame * store :=
  vmo_get_committed_frame (cap_obj vmo1) 1 true (w_vmos w1).

Lemma commit1_ok : commit1 = (Ok (Z.lor 100 NEED_DEALLOC), commit1.2).
Proof.
  assert (Hf : commit1.1 = Ok (Z.lor 100 NEED_DEALLOC)) by (vm_compute; reflexivity).
  by rewrite <- Hf, <- surjective_pairing.
Qed.

Lemma page_fault_spec_witness :
  exists v' w', vmar_handle_page_fault 1 0x11234 true true (v1, w1) = (Ok tt, (v', w')) /\ vmar_ok v' w' /\
    is_Some (entry (w_space w') 0x11000).
Proof.
  pose proof (page_fault_spec (laws := radix_laws) v1 w1 0x11234 true true 0 v1_ok) as Hpf.
  specialize (Hpf ltac:(split; vm_compute; done) ltac:(intros Hc; by apply covered_nil in Hc)).
  assert (Hbk : backing (vm_mappings v1) 0x11234 = Some (vmo1, 0x1234, vmperm_of_perms RW)) by reflexivity.
  rewrite Hbk in Hpf. cbv zeta in Hpf.
  change (vmo_size (w_vmos w1) (cap_obj vmo1) <=? 0x1234) with false in Hpf.
  change (vmo_get_committed_frame (cap_obj vmo1) (0x1234 / PAGE_SIZE) true (w_vmos w1)) with commit1 in Hpf.
  rewrite commit1_ok in Hpf.
  destruct Hpf as (v' & w' & Hrun & Hok & _ & _ & _ & Hent).
  - vm_compute. done.
  - change (pt (w_space w1)) with demo_pt. rewrite (proj1 (proj2 demo_pt_ok)). lia.
  - exists v', w'. split_and!; [exact Hrun|exact Hok|]. rewrite Hent. rewrite decide_True by done. by eexists.
Defined.

(** ** Runs outside the contract *)

Definition fork (s : vstate) : outcome Errno vstate * vstate :=
  match dyn_fork_from 2 demo_pt Rights.all s with
  | (Ok (v, sp), s') => (Ok (cap_obj v, MkWorld sp (w_vmos s'.2)), s')
  | (Err e, s') => (Err e, s')
  | (Panic, s') => (Panic, s')
  end.

(** The child of a fork; [s] itself if the fork fails. *)
Definition child_of (s : vstate) : vstate := match (fork s).1 with Ok c => c | _ => s end.
Definition forked (s : vstate) : bool := match (fork s).1 with Ok _ => true | _ => false end.

(** Two ways in which unmapping part of a VMAR loses pages it should keep.
    Unmapping the last page of a mapping makes an adjacent mapping disappear:
    it is in place before, the unmapping of the page before it succeeds, and
    afterwards its address is neither backed nor free and a fault on it is
    refused.  Unmapping a page in the middle of a mapping whose pages are
    present takes the page before the hole out of the address space as well,
    although it stays mapped, and the next fork panics. *)
Lemma munmap_loses_pages :
  let r := destroy 1 (Range 0x11000 0x12000) s_two in
  let h := destroy 1 (Range 0x11000 0x12000) s_three in
  (backed_at 0x12000 s_two = true /\ r.1 = Ok tt /\ backed_at 0x12000 r.2 = false /\
   find_one (free_regions r.2.1) 0x12000 = None /\ (write_fault 0x12000 r.2).1 = Err EACCES) /\
  (mapped_at 0x10000 s_three = true /\ forked s_three = true /\ h.1 = Ok tt /\
   backed_at 0x10000 h.2 = true /\ mapped_at 0x10000 h.2 = false /\ (fork h.2).1 = Panic).
Proof. split; split_and!; vm_compute; reflexivity. Qed.

(** The frame of a page and whether it may be written. *)
Definition page_entry (a : Z) (s : vstate) : option (VmFrame * bool) :=
  (fun e => (e.1, PageTableFlags.contains e.2 PageTableFlags.WRITABLE)) <$> entry (w_space s.2) a.

(** The parent of a fork after making the first page read-only and writable
    again. *)
Definition reprotected (s : vstate) : vstate :=
  (dyn_protect 1 Rights.all RW (Range 0x10000 0x11000)
     (dyn_protect 1 Rights.all VmPerms.READ (Range 0x10000 0x11000) (fork s).2).2).2.

(** A fork loses track of pages.  In the child, unmapping the first page
    of a mapping succeeds but leaves the page in the child's address space.  In
    the parent, two [mprotect] calls undo copy-on-write: after the fork parent
    and child share the frame of a page, read-only; once the parent has made
    the page read-only and writable again, it maps the shared frame writable. *)
Lemma fork_loses_pages :
  let c := child_of s_three in
  let r := destroy 1 (Range 0x10000 0x11000) c in
  (forked s_three = true /\ r.1 = Ok tt /\ backed_at 0x10000 r.2 = false /\ mapped_at 0x10000 r.2 = true) /\
  (page_entry 0x10000 (fork s_three).2 = page_entry 0x10000 c /\
   (snd <$> page_entry 0x10000 (fork s_three).2) = Some false /\
   (fst <$> page_entry 0x10000 (reprotected s_three)) = (fst <$> page_entry 0x10000 c) /\
   (snd <$> page_entry 0x10000 (reprotected s_three)) = Some true).
Proof. split; split_and!; vm_compute; reflexivity. Qed.

(** Destroying a range that holds a child VMAR takes every page out of the
    address space, also those of mappings outside the range. *)
Lemma destroy_child_clears_space :
  let c := child_options_alloc (MkVmarChildOptions Rights.all 0x1000 (Some 0x20000) None) s_three in
  let r := destroy 2 (Range 0x20000 0x21000) c.2 in
  c.1 = Ok (Cap 0x20000 Rights.all) /\ mapped_at 0x10000 c.2 = true /\
  r.1 = Ok tt /\ backed_at 0x10000 r.2 = true /\ mapped_at 0x10000 r.2 = false.
Proof. split_and!; vm_compute; reflexivity. Qed.

(** A fixed mapping over one that starts later panics. *)
Lemma map_fixed_panics :
  let (v, st) := with_vmo 3 (w_vmos s_two.2) in
  (dyn_map Rights.all v RW (at_addr 0x11000 0x3000 true)
     (s_two.1, MkWorld (w_space s_two.2) st)).1 = Panic.
Proof. vm_compute. reflexivity. Qed.
