(* ===== verification/VmoExamples.v ===== *)
(** The list allocator meets the contract VMOs rely on, and the theorems on
    VMOs hold of a concrete VMO of three pages. *)

From S2P Require Import Prelude BTree AlignExt Interval Frame FrameFacts Perms VmMapping Vmo VmoFacts VmarExamples.

(** The list allocator meets its contract. *)
Definition list_ok (fa : list Z) : Prop := NoDup fa /\ Forall (fun i => 0 <= i < 127 * 2 ^ 28) fa.
#[export] Instance list_ok_dec fa : Decision (list_ok fa) := _.
Definition list_free (fa : list Z) (i : Z) : Prop := i ∈ fa.
Definition list_room (fa : list Z) : nat := if decide (list_ok fa) then length fa else 0%nat.

#[export] Instance list_laws : FaLaws list_alloc list_free list_room.
Proof.
  constructor. intros fa Hr. unfold list_room in *. destruct (decide (list_ok fa)) as [[Hnd Hb]|]; [|lia].
  destruct fa as [|i fa]; [cbn in Hr; lia|]. apply NoDup_cons in Hnd as [Hi Hnd]. apply Forall_cons in Hb as [Hb Hbs].
  exists i, fa. unfold list_free. rewrite decide_True by done. split_and!; try done.
  - left.
  - apply Hb.
  - apply Hb.
  - intros j Hj. split; [by apply list_elem_of_further|]. by intros ->.
Qed.

(** A VMO of three pages, none committed. *)
Definition vmo3 : Vmo_ := cap_obj (with_vmo 3 store0).1.
Definition store3 : store := (with_vmo 3 store0).2.

Lemma store3_ok : vinv list_free store3.
Proof.
  assert (Harr : forall p x, arr store3 p = Some x -> x = MkMarray ∅ []).
  { intros [|[|p]] x; vm_compute; congruence. }
  constructor; intros * Hx; apply Harr in Hx as ->; done.
Qed.

Definition buf4 : slice := Slice 0 4.
Definition bytes4 : memory := mem_store 0 [11; 22; 33; 44] ∅.
Definition store3b : store := with_mem store3 bytes4.

Lemma store3b_away : away list_free store3b buf4.
Proof.
  intros a i Ha [(p & x & j & f & Hx & Hf & _)|Hi] Hin.
  - by destruct p as [|[|]]; vm_compute in Hx; simplify_eq.
  - unfold list_free in Hi. apply elem_of_seqZ in Hi. unfold in_frame, PAGE_SIZE in Hin.
    cbn in Ha. lia.
Qed.

(** Four bytes across a page boundary. *)
Lemma store3b_access : access list_free list_room vmo3 store3b (MkMarray ∅ []) 4094 4.
Proof.
  constructor; try done.
  - apply vinv_with_mem, store3_ok.
  - exists 12288. done.
Qed.

Lemma vmo_write_isolated_witness :
  (exists st', write_bytes list_alloc vmo3 4094 buf4 store3b = (Ok tt, st') /\
     vbyte st' vmo3 4096 = 33 /\ vbyte st' vmo3 4100 = vbyte store3b vmo3 4100) /\
  write_bytes list_alloc vmo3 12285 buf4 store3b = (Err EINVAL, store3b).
Proof.
  destruct (vmo_write_isolated list_alloc list_free list_room vmo3 store3b (MkMarray ∅ []) 4094 buf4
    store3b_access store3b_away) as [(st' & Hw & _ & Hb & _) Herr]. split.
  - exists st'. split; [done|]. rewrite !Hb by lia. split; reflexivity.
  - apply (Herr 12288); [reflexivity|]. cbn. unfold usize_max. lia.
Defined.

Lemma vmo_read_returns_content_witness :
  exists st', read_bytes list_alloc vmo3 4094 buf4 store3b = (Ok tt, st') /\
    byte_at (mem_of st') 3 = 0.
Proof.
  destruct (vmo_read_returns_content list_alloc list_free list_room vmo3 store3b (MkMarray ∅ []) 4094 buf4
    store3b_access store3b_away) as (st' & Hr & _ & Hk & _).
  exists st'. split; [done|]. apply (Hk 3). cbn. lia.
Defined.

