(* ===== verification/RwLock.v ===== *)
(** The reader-writer locks of the framework, [RwLock]
    (aster-frame/src/sync/rwlock.rs) and [RwMutex]
    (aster-frame/src/sync/rwmutex.rs): the lock word at the level of its
    atomic accesses, any number of calls interleaved, and the value the lock
    protects. *)

From S2P Require Import Prelude.

(** * Atomic accesses of a word; an access returns the old value *)

Definition wrap (z : Z) : Z := z mod 2 ^ 64.
Definition fetch_add (v x : Z) : Z * Z := (v, wrap (v + x)).
Definition fetch_sub (v x : Z) : Z * Z := (v, wrap (v - x)).
Definition fetch_or (v x : Z) : Z * Z := (v, Z.lor v x).
Definition fetch_and (v x : Z) : Z * Z := (v, Z.land v x).
Definition compare_exchange (v cur new : Z) : bool * Z := if v =? cur then (true, new) else (false, v).

(** [!x] on [usize] *)
Definition not_usize (x : Z) : Z := wrap (Z.lnot x).

Notation READER := 1%Z (only parsing).
Notation WRITER := (Z.shiftl 1 (usize_bits - 1) : Z) (only parsing).
Notation UPGRADEABLE_READER := (Z.shiftl 1 (usize_bits - 2) : Z) (only parsing).
Notation BEING_UPGRADED := (Z.shiftl 1 (usize_bits - 3) : Z) (only parsing).
Notation MAX_READER := (Z.shiftl 1 (usize_bits - 4) : Z) (only parsing).

(** * Calls and guards

    The state of one call on the lock, or of the guard it returned.  In
    [ReadBackout] and [UpreadBackout] a failed attempt has yet to undo its
    access; in [Upgrading] the loop of [upgrade] runs; in [Upgraded] the
    exchange of [try_upgrade] succeeded and the upgradeable guard is being
    dropped. *)
Inductive call : Type :=
  | Idle
  | ReadBackout
  | Reading
  | Writing
  | UpreadBackout
  | Upreading
  | Upgrading
  | Upgraded.

#[export] Instance call_eq_dec : EqDecision call.
Proof. solve_decision. Defined.

(** One access of a call to the lock word, and what the call becomes. *)
Definition attempt : Type := Z -> call * Z.

(** [try_read]: the first access, and the one that undoes it *)
Definition try_read : attempt := fun v =>
  let '(lock, v) := fetch_add v READER in
  if Z.land lock (Z.lor (Z.lor WRITER MAX_READER) BEING_UPGRADED) =? 0 then (Reading, v)
  else (ReadBackout, v).
Definition try_read_undo : attempt := fun v => (Idle, (fetch_sub v READER).2).

(** [try_write] *)
Definition try_write : attempt := fun v =>
  let '(is_ok, v) := compare_exchange v 0 WRITER in
  (if is_ok then Writing else Idle, v).

(** [try_upread]: the first access, and the one that undoes it *)
Definition try_upread : attempt := fun v =>
  let '(old, v) := fetch_or v UPGRADEABLE_READER in
  let lock := Z.land old (Z.lor WRITER UPGRADEABLE_READER) in
  if lock =? 0 then (Upreading, v)
  else if lock =? WRITER then (UpreadBackout, v)
  else (Idle, v).
Definition try_upread_undo : attempt := fun v => (Idle, (fetch_sub v UPGRADEABLE_READER).2).

(** [RwLockUpgradeableGuard::upgrade] starts, and its attempts *)
Definition upgrade_begin : attempt := fun v => (Upgrading, (fetch_or v BEING_UPGRADED).2).
Definition try_upgrade (self : call) : attempt := fun v =>
  let '(is_ok, v) :=
    compare_exchange v (Z.lor UPGRADEABLE_READER BEING_UPGRADED) (Z.lor WRITER UPGRADEABLE_READER) in
  (if is_ok then Upgraded else self, v).

(** The [drop]s of the guards; [try_upgrade] drops the upgradeable guard. *)
Definition drop_read : attempt := fun v => (Idle, (fetch_sub v READER).2).
Definition drop_write : attempt := fun v => (Idle, (fetch_and v (not_usize WRITER)).2).
Definition drop_upread : attempt := fun v => (Idle, (fetch_sub v UPGRADEABLE_READER).2).
Definition try_upgrade_drop : attempt := fun v => (Writing, (drop_upread v).2).

(** The accesses a call may make next. *)
Definition next_access (c : call) : list attempt :=
  match c with
  | Idle => [try_read; try_write; try_upread]
  | ReadBackout => [try_read_undo]
  | Reading => [drop_read]
  | Writing => [drop_write]
  | UpreadBackout => [try_upread_undo]
  | Upreading => [drop_upread; upgrade_begin; try_upgrade Upreading]
  | Upgrading => [try_upgrade Upgrading]
  | Upgraded => [try_upgrade_drop]
  end.

(** * The lock: its word, its value, and the calls under way *)

Record RwLock (T : Type) : Type := MkRwLock { val : T; lock : Z; calls : list call }.
Arguments MkRwLock {T} val lock calls.
Arguments val {T} r.
Arguments lock {T} r.
Arguments calls {T} r.

Section RwLock.
Context {T : Type}.
Implicit Types (s : RwLock T).

(** [RwLock::new], with [n] places for calls *)
Definition rw_new (v : T) (n : nat) : RwLock T := MkRwLock v 0 (replicate n Idle).

(** A call accesses the word, or a writer stores to the value. *)
Inductive rw_step : RwLock T -> RwLock T -> Prop :=
  | rw_access s i c a : calls s !! i = Some c -> a ∈ next_access c ->
      rw_step s (MkRwLock (val s) (a (lock s)).2 (<[i := (a (lock s)).1]> (calls s)))
  | rw_store s i v : calls s !! i = Some Writing ->
      rw_step s (MkRwLock v (lock s) (calls s)).

End RwLock.

(** * [RwMutex]

    The same accesses; the guards' [drop]s also wake the threads that sleep on
    the wait queue. *)

Inductive wake : Type := NoWake | WakeOne | WakeAll.

Module RwMutex.
Definition attempt : Type := Z -> (call * Z) * wake.

(** [try_read], [try_write] and [try_upread] wake nobody. *)
Definition try_read : attempt := fun v =>
  let '(lock, v) := fetch_add v READER in
  if Z.land lock (Z.lor (Z.lor WRITER BEING_UPGRADED) MAX_READER) =? 0 then ((Reading, v), NoWake)
  else ((ReadBackout, v), NoWake).
Definition try_read_undo : attempt := fun v => ((Idle, (fetch_sub v READER).2), NoWake).
Definition try_write : attempt := fun v =>
  let '(is_ok, v) := compare_exchange v 0 WRITER in
  ((if is_ok then Writing else Idle, v), NoWake).
Definition try_upread : attempt := fun v =>
  let '(old, v) := fetch_or v UPGRADEABLE_READER in
  let lock := Z.land old (Z.lor WRITER UPGRADEABLE_READER) in
  if lock =? 0 then ((Upreading, v), NoWake)
  else if lock =? WRITER then ((UpreadBackout, v), NoWake)
  else ((Idle, v), NoWake).
Definition try_upread_undo : attempt := fun v => ((Idle, (fetch_sub v UPGRADEABLE_READER).2), NoWake).

(** [RwMutexReadGuard::drop] *)
Definition drop_read : attempt := fun v =>
  let '(old, v) := fetch_sub v READER in
  ((Idle, v), if old =? READER then WakeOne else NoWake).

(** [RwMutexWriteGuard::drop] *)
Definition drop_write : attempt := fun v => ((Idle, (fetch_and v (not_usize WRITER)).2), WakeAll).

(** [RwMutexUpgradeableGuard::drop] *)
Definition drop_upread : attempt := fun v =>
  let '(res, v) := fetch_sub v UPGRADEABLE_READER in
  ((Idle, v), if res =? 0 then WakeAll else NoWake).

(** [upgrade] and [try_upgrade] *)
Definition upgrade_begin : attempt := fun v => ((Upgrading, (fetch_or v BEING_UPGRADED).2), NoWake).
Definition try_upgrade (self : call) : attempt := fun v =>
  let '(is_ok, v) :=
    compare_exchange v (Z.lor UPGRADEABLE_READER BEING_UPGRADED) (Z.lor WRITER UPGRADEABLE_READER) in
  ((if is_ok then Upgraded else self, v), NoWake).
Definition try_upgrade_drop : attempt := fun v =>
  let r := drop_upread v in ((Writing, r.1.2), r.2).

Definition next_access (c : call) : list attempt :=
  match c with
  | Idle => [try_read; try_write; try_upread]
  | ReadBackout => [try_read_undo]
  | Reading => [drop_read]
  | Writing => [drop_write]
  | UpreadBackout => [try_upread_undo]
  | Upreading => [drop_upread; upgrade_begin; try_upgrade Upreading]
  | Upgrading => [try_upgrade Upgrading]
  | Upgraded => [try_upgrade_drop]
  end.

(** A step of the mutex, with the wake-up it sends. *)
Inductive step {T : Type} : RwLock T -> RwLock T * wake -> Prop :=
  | access s i c a : calls s !! i = Some c -> a ∈ next_access c ->
      step s (MkRwLock (val s) (a (lock s)).1.2 (<[i := (a (lock s)).1.1]> (calls s)), (a (lock s)).2)
  | store s i v : calls s !! i = Some Writing ->
      step s (MkRwLock v (lock s) (calls s), NoWake).

Definition steps {T : Type} : RwLock T -> RwLock T -> Prop := rtc (fun s s' => exists w, step s (s', w)).
End RwMutex.
