(* ===== verification/RwLockFacts.v ===== *)
(** The reader-writer locks are safe under every interleaving: the lock word
    encodes the guards and pending attempts, a writer excludes every other
    guard, and the value does not change under a reader. *)

From S2P Require Import Prelude RwLock.

(** * The fields of the lock word *)

Definition HI : Z := 2 ^ 60.

Lemma hi_testbit k r i : 0 <= r < HI -> 0 <= i ->
  Z.testbit (k * HI + r) i = if decide (i < 60) then Z.testbit r i else Z.testbit k (i - 60).
Proof.
  unfold HI. intros Hr Hi. case_decide.
  - rewrite <- (Z.mod_pow2_bits_low _ 60) by done. rewrite Z.add_comm, Z.mod_add by done. by rewrite Z.mod_small.
  - replace i with (i - 60 + 60) at 1 by lia. rewrite <- Z.div_pow2_bits by lia.
    rewrite Z.add_comm, Z.div_add by done. by rewrite Z.div_small.
Qed.

Lemma hi_testbit0 k i : 0 <= i -> Z.testbit (k * HI) i = if decide (i < 60) then false else Z.testbit k (i - 60).
Proof. intros Hi. rewrite <- (Z.add_0_r (k * HI)), hi_testbit by done. by rewrite Z.testbit_0_l. Qed.

Lemma land_hi k m r : 0 <= r < HI -> Z.land (k * HI + r) (m * HI) = Z.land k m * HI.
Proof.
  intros Hr. apply Z.bits_inj'. intros i Hi. rewrite Z.land_spec, hi_testbit, !hi_testbit0 by done.
  case_decide; [by rewrite andb_false_r|by rewrite Z.land_spec].
Qed.

Lemma lor_hi k m r : 0 <= r < HI -> Z.lor (k * HI + r) (m * HI) = Z.lor k m * HI + r.
Proof.
  intros Hr. apply Z.bits_inj'. intros i Hi. rewrite Z.lor_spec, !hi_testbit, hi_testbit0 by done.
  case_decide; [by rewrite orb_false_r|by rewrite Z.lor_spec].
Qed.

Lemma land_lo k m r : 0 <= r < HI -> Z.land (k * HI + r) (m * HI + (HI - 1)) = Z.land k m * HI + r.
Proof.
  intros Hr. apply Z.bits_inj'. intros i Hi. rewrite Z.land_spec, !hi_testbit by (try unfold HI in *; lia).
  case_decide as Hd; [|by rewrite Z.land_spec].
  change (HI - 1) with (Z.ones 60). rewrite Z.ones_spec_low by lia. by rewrite andb_true_r.
Qed.

(** The word with [w] writers, [u] upgradeable readers, [b] of them upgrading,
    and [r] readers. *)
Definition enc (w u b r : Z) : Z := (8 * w + 4 * u + 2 * b) * HI + r.

Definition bit (z : Z) : Prop := z = 0 \/ z = 1.

Section Enc.
Context (w u b r : Z).
Hypotheses (Hw : bit w) (Hu : bit u) (Hb : bit b) (Hr : 0 <= r) (Hr' : r + 1 < HI).

Ltac fields := destruct Hw as [-> | ->], Hu as [-> | ->], Hb as [-> | ->].

Lemma enc_try_read :
  try_read (enc w u b r) = (if decide (w = 0 /\ b = 0) then Reading else ReadBackout, enc w u b (r + 1)).
Proof.
  unfold try_read, fetch_add. replace (Z.lor _ BEING_UPGRADED) with (11 * HI) by done.
  unfold enc. rewrite land_hi by lia.
  replace (wrap _) with ((8 * w + 4 * u + 2 * b) * HI + (r + 1)); [by fields|].
  unfold wrap. rewrite Z.mod_small; [lia|]. unfold HI in *. fields; lia.
Qed.

Lemma enc_drop_read : 0 < r -> (fetch_sub (enc w u b r) READER).2 = enc w u b (r - 1).
Proof.
  intros Hpos. unfold fetch_sub, enc, wrap. cbn [snd]. rewrite Z.mod_small; [lia|].
  unfold HI in *. fields; lia.
Qed.

Lemma enc_try_write :
  try_write (enc w u b r) =
  if decide (w = 0 /\ u = 0 /\ b = 0 /\ r = 0) then (Writing, enc 1 0 0 0) else (Idle, enc w u b r).
Proof.
  unfold try_write, compare_exchange. case_decide as Hd.
  - destruct Hd as (-> & -> & -> & ->). done.
  - rewrite (proj2 (Z.eqb_neq _ _)); [done|]. unfold enc, HI in *. fields; lia.
Qed.

Lemma enc_try_upread :
  try_upread (enc w u b r) =
  (if decide (w = 0 /\ u = 0) then Upreading else if decide (w = 1 /\ u = 0) then UpreadBackout else Idle,
   enc w 1 b r).
Proof.
  unfold try_upread, fetch_or. replace (Z.lor WRITER _) with (12 * HI) by done.
  change UPGRADEABLE_READER with (4 * HI). change WRITER with (8 * HI).
  unfold enc. rewrite land_hi, lor_hi by lia. by fields.
Qed.

Lemma enc_drop_upread : u = 1 -> (fetch_sub (enc w u b r) UPGRADEABLE_READER).2 = enc w 0 b r.
Proof.
  intros Hu1. unfold fetch_sub, wrap. cbn [snd]. change UPGRADEABLE_READER with (4 * HI).
  unfold enc. rewrite Z.mod_small; unfold HI in *; fields; lia.
Qed.

Lemma enc_upgrade_begin : (fetch_or (enc w u b r) BEING_UPGRADED).2 = enc w u 1 r.
Proof.
  unfold fetch_or. cbn [snd]. change BEING_UPGRADED with (2 * HI). unfold enc.
  rewrite lor_hi by lia. by fields.
Qed.

Lemma enc_try_upgrade c :
  try_upgrade c (enc w u b r) =
  if decide (w = 0 /\ u = 1 /\ b = 1 /\ r = 0) then (Upgraded, enc 1 1 0 0) else (c, enc w u b r).
Proof.
  unfold try_upgrade, compare_exchange. replace (Z.lor _ BEING_UPGRADED) with (6 * HI) by done.
  case_decide as Hd.
  - destruct Hd as (-> & -> & -> & ->). done.
  - rewrite (proj2 (Z.eqb_neq _ _)); [done|]. unfold enc, HI in *. fields; lia.
Qed.

Lemma enc_drop_write : (fetch_and (enc w u b r) (not_usize WRITER)).2 = enc 0 u b r.
Proof.
  unfold fetch_and. cbn [snd]. replace (not_usize WRITER) with (7 * HI + (HI - 1)) by done.
  unfold enc. rewrite land_lo by lia. by fields.
Qed.
End Enc.

(** * The invariant *)

Definition is_call (c x : call) : bool :=
  match c, x with
  | Idle, Idle | ReadBackout, ReadBackout | Reading, Reading | Writing, Writing
  | UpreadBackout, UpreadBackout | Upreading, Upreading | Upgrading, Upgrading | Upgraded, Upgraded => true
  | _, _ => false
  end.
Definition num (c : call) (l : list call) : Z := count (is_call c) l.

Lemma num_insert d l i x y :
  l !! i = Some x -> num d (<[i := y]> l) = num d l - Z.b2z (is_call d x) + Z.b2z (is_call d y).
Proof. apply count_insert. Qed.

Lemma num_pos c l i : l !! i = Some c -> 1 <= num c l.
Proof. intros Hi. apply (count_pos _ _ i c Hi). by destruct c. Qed.

Lemma num_nonneg c l : 0 <= num c l.
Proof. apply count_range. Qed.

Lemma num_readers l : num Reading l + num ReadBackout l <= Z.of_nat (length l).
Proof.
  induction l as [|c l IH]; [done|]. unfold num in *. rewrite !count_cons. cbn [length].
  destruct c; cbn [is_call Z.b2z]; lia.
Qed.

Definition writers l : Z := num Writing l + num Upgraded l.
Definition upreaders l : Z := num UpreadBackout l + num Upreading l + num Upgrading l + num Upgraded l.
Definition readers l : Z := num Reading l + num ReadBackout l.

(** The word encodes the calls; at most one of them has set each flag, and a
    writer excludes the guards. *)
Record calls_ok (v : Z) (l : list call) : Prop := {
  co_word : v = enc (writers l) (upreaders l) (num Upgrading l) (readers l);
  co_writer : writers l <= 1;
  co_upreader : upreaders l <= 1;
  co_excl : writers l = 1 -> num Reading l = 0 /\ num Upreading l = 0 /\ num Upgrading l = 0;
}.

Lemma calls_ok_new n : calls_ok 0 (replicate n Idle).
Proof.
  assert (H0 : forall c, c <> Idle -> num c (replicate n Idle) = 0).
  { intros c Hc. apply count_none. intros x [-> _]%elem_of_replicate. by destruct c. }
  constructor; unfold writers, upreaders, readers; rewrite ?H0 by done; try done.
Qed.

(** What the counts say about the call at [i]. *)
Lemma calls_ok_fields v l i c :
  calls_ok v l -> l !! i = Some c ->
  bit (writers l) /\ bit (upreaders l) /\ bit (num Upgrading l) /\ 0 <= readers l <= Z.of_nat (length l).
Proof.
  intros [_ Hw Hu _] _. unfold bit, writers, upreaders, readers in *.
  pose proof (num_readers l).
  pose proof (num_nonneg Writing l). pose proof (num_nonneg Upgraded l). pose proof (num_nonneg UpreadBackout l).
  pose proof (num_nonneg Upreading l). pose proof (num_nonneg Upgrading l). pose proof (num_nonneg Reading l).
  pose proof (num_nonneg ReadBackout l). lia.
Qed.

(** Rewrite the counts after the call at [i] became [y]. *)
Ltac nums Hi :=
  pose proof (num_pos _ _ _ Hi);
  rewrite !(fun d y => num_insert d _ _ _ y Hi); cbn [is_call Z.b2z].

Ltac num_facts l :=
  pose proof (num_nonneg Writing l); pose proof (num_nonneg Upgraded l); pose proof (num_nonneg UpreadBackout l);
  pose proof (num_nonneg Upreading l); pose proof (num_nonneg Upgrading l); pose proof (num_nonneg Reading l);
  pose proof (num_nonneg ReadBackout l).

(** The counts of the new state, and the goal by arithmetic. *)
Ltac recount Hi :=
  constructor; cbn [fst snd]; unfold writers, upreaders, readers, bit in *; nums Hi;
  first [lia | f_equal; lia].

Lemma calls_ok_step v l i c a :
  calls_ok v l -> Z.of_nat (length l) + 1 < HI -> l !! i = Some c -> a ∈ next_access c ->
  calls_ok (a v).2 (<[i := (a v).1]> l).
Proof.
  intros Hok Hlen Hi Ha. destruct (calls_ok_fields _ _ _ _ Hok Hi) as (Hw & Hu & Hb & Hr).
  pose proof Hok as [-> Hw1 Hu1 Hex]. pose proof (num_pos _ _ _ Hi) as Hpos. num_facts l.
  assert (Hlt : readers l + 1 < HI) by lia. pose proof (proj1 Hr) as Hr0.
  destruct c; cbn [next_access] in Ha;
    repeat (apply elem_of_cons in Ha as [->|Ha]); try (by apply elem_of_nil in Ha).
  - rewrite enc_try_read by done. case_decide; recount Hi.
  - rewrite enc_try_write by done. case_decide; [|destruct Hok]; recount Hi.
  - rewrite enc_try_upread by done. repeat case_decide; recount Hi.
  - unfold try_read_undo. rewrite enc_drop_read by (done || unfold readers; lia). recount Hi.
  - unfold drop_read. rewrite enc_drop_read by (done || unfold readers; lia). recount Hi.
  - unfold drop_write. rewrite enc_drop_write by done. recount Hi.
  - unfold try_upread_undo. rewrite enc_drop_upread by (done || unfold upreaders in *; lia). recount Hi.
  - unfold drop_upread. rewrite enc_drop_upread by (done || unfold upreaders in *; lia). recount Hi.
  - unfold upgrade_begin. rewrite enc_upgrade_begin by done. recount Hi.
  - rewrite enc_try_upgrade by done. case_decide; recount Hi.
  - rewrite enc_try_upgrade by done. case_decide; recount Hi.
  - unfold try_upgrade_drop, drop_upread. cbn [snd].
    rewrite enc_drop_upread by (done || unfold upreaders in *; lia). recount Hi.
Qed.

(** * Safety *)

(** A call that holds a guard: one that allows reading, one that allows
    writing, and one made by [upread]. *)
Definition shared (c : call) : bool := match c with Reading | Upreading | Upgrading => true | _ => false end.
Definition exclusive (c : call) : bool := match c with Writing | Upgraded => true | _ => false end.
Definition upgradeable (c : call) : bool := match c with Upreading | Upgrading | Upgraded => true | _ => false end.

Lemma calls_ok_two v l i j c d :
  calls_ok v l -> i <> j -> l !! i = Some c -> l !! j = Some d ->
  (exclusive c = true -> shared d = false /\ exclusive d = false) /\
  (upgradeable c = true -> upgradeable d = false).
Proof.
  intros [_ Hw Hu Hex] Hne Hi Hj. unfold writers, upreaders in *.
  pose proof (num_pos _ _ _ Hi). pose proof (num_pos _ _ _ Hj). num_facts l.
  assert (Hsame : c = d -> 2 <= num c l).
  { intros <-. apply (count_two _ _ i j c c Hne Hi Hj); by destruct c. }
  destruct c, d; cbn; (split; [intros ?; split|intros ?]); try done; exfalso;
    try specialize (Hsame eq_refl); lia.
Qed.

Section Safe.
Context {T : Type}.
Implicit Types (s : RwLock T).

Lemma rw_step_ok s s' :
  rw_step s s' -> calls_ok (lock s) (calls s) /\ Z.of_nat (length (calls s)) + 1 < HI ->
  calls_ok (lock s') (calls s') /\ Z.of_nat (length (calls s')) + 1 < HI.
Proof.
  intros Hstep [Hok Hlen]. destruct Hstep as [s i c a Hi Ha|s i v Hi]; [|done]. cbn.
  rewrite length_insert. split; [by eapply calls_ok_step|done].
Qed.

(** All that the encoding gives. *)
Lemma calls_ok_safe s :
  calls_ok (lock s) (calls s) -> Z.of_nat (length (calls s)) + 1 < HI ->
  (forall i j c d, i <> j -> calls s !! i = Some c -> calls s !! j = Some d ->
     (exclusive c = true -> shared d = false /\ exclusive d = false) /\
     (upgradeable c = true -> upgradeable d = false)) /\
  (Forall (fun c => c = Idle) (calls s) -> lock s = 0) /\
  (forall i, calls s !! i = Some Upreading -> (try_upgrade Upreading (lock s)).1 = Upreading).
Proof.
  intros Hok Hlen. split_and!.
  - intros i j c d. by apply (calls_ok_two (lock s)).
  - intros Hall. destruct Hok as [-> _ _ _]. unfold writers, upreaders, readers.
    assert (H0 : forall c, c <> Idle -> num c (calls s) = 0).
    { intros c Hc. apply count_none. intros x Hx. rewrite Forall_forall in Hall. rewrite (Hall x Hx). by destruct c. }
    by rewrite !H0.
  - intros i Hi. destruct (calls_ok_fields _ _ _ _ Hok Hi) as (Hw & Hu & Hb & Hr).
    destruct Hok as [-> _ Hu1 _]. rewrite enc_try_upgrade by (done || lia). case_decide as Hd; [|done].
    unfold upreaders in *. num_facts (calls s). pose proof (num_pos _ _ _ Hi). lia.
Qed.

(** A store needs a write guard, which no reader leaves room for. *)
Lemma val_stable s s' i c :
  calls_ok (lock s) (calls s) -> rw_step s s' -> calls s !! i = Some c -> shared c = true -> val s' = val s.
Proof.
  intros Hok Hstep Hi Hc. destruct Hstep as [s j d a Hj Ha|s j v Hj]; [done|]. exfalso.
  destruct (decide (j = i)) as [->|Hne]; [rewrite Hi in Hj; by injection Hj as ->|].
  destruct (calls_ok_two _ _ _ _ _ _ Hok Hne Hj Hi) as [[Hs _] _]; [done|congruence].
Qed.

(** C13: the reader-writer lock under every interleaving of fewer than [2^60]
    calls: a write guard excludes every other guard; at most one upgradeable
    guard exists; the value does not change while a read or upgradeable
    guard is held; once no call is under way the lock word is zero, so nothing
    is leaked; and [try_upgrade], called without [upgrade], never succeeds. *)
Theorem rwlock_exclusion (v : T) (n : nat) s :
  Z.of_nat n + 1 < 2 ^ 60 -> rtc rw_step (rw_new v n) s ->
  (forall i j c d, i <> j -> calls s !! i = Some c -> calls s !! j = Some d ->
     (exclusive c = true -> shared d = false /\ exclusive d = false) /\
     (upgradeable c = true -> upgradeable d = false)) /\
  (forall i c s', calls s !! i = Some c -> shared c = true -> rw_step s s' -> val s' = val s) /\
  (Forall (fun c => c = Idle) (calls s) -> lock s = 0) /\
  (forall i, calls s !! i = Some Upreading -> (try_upgrade Upreading (lock s)).1 = Upreading).
Proof.
  intros Hn Hr.
  destruct (rtc_invariant _ _ _ _ rw_step_ok Hr) as [Hok Hlen].
  { cbn. rewrite length_replicate. split; [apply calls_ok_new|done]. }
  destruct (calls_ok_safe s Hok Hlen) as (H1 & H2 & H3). split_and!; [done| |done|done].
  intros i c s' Hi Hc Hstep. by apply (val_stable s s' i c).
Qed.

(** ** The mutex *)

Lemma mutex_access c a : a ∈ RwMutex.next_access c -> exists a', a' ∈ next_access c /\ forall v, (a v).1 = a' v.
Proof.
  intros Ha. destruct c; cbn [RwMutex.next_access] in Ha;
    repeat (apply elem_of_cons in Ha as [->|Ha]); try (by apply elem_of_nil in Ha).
  - exists try_read. split; [left|]. intros v. unfold try_read, RwMutex.try_read, fetch_add.
    replace (Z.lor (Z.lor WRITER BEING_UPGRADED) MAX_READER) with (Z.lor (Z.lor WRITER MAX_READER) BEING_UPGRADED) by done.
    by case_match.
  - exists try_write. split; [set_solver|]. intros v. unfold try_write, RwMutex.try_write. by case_match.
  - exists try_upread. split; [set_solver|]. intros v. unfold try_upread, RwMutex.try_upread, fetch_or.
    repeat case_match; done.
  - exists try_read_undo. split; [left|done].
  - exists drop_read. split; [left|done].
  - exists drop_write. split; [left|done].
  - exists try_upread_undo. split; [left|done].
  - exists drop_upread. split; [left|done].
  - exists upgrade_begin. split; [set_solver|done].
  - exists (try_upgrade Upreading). split; [set_solver|]. intros v. unfold try_upgrade, RwMutex.try_upgrade. by case_match.
  - exists (try_upgrade Upgrading). split; [left|]. intros v. unfold try_upgrade, RwMutex.try_upgrade. by case_match.
  - exists try_upgrade_drop. split; [left|done].
Qed.

Lemma mutex_step s s' w : RwMutex.step s (s', w) -> rw_step s s'.
Proof.
  inversion 1 as [s0 i c a Hi Ha Heq1 Heq2|s0 i v Hi]; subst; [|by eapply rw_store].
  destruct (mutex_access c a Ha) as (a' & Ha' & Heq). rewrite !Heq. by eapply rw_access.
Qed.

Lemma mutex_steps s s' : RwMutex.steps s s' -> rtc rw_step s s'.
Proof. unfold RwMutex.steps. induction 1 as [|s s1 s' [w Hw] _ IH]; [done|]. eapply rtc_l; [by eapply mutex_step|done]. Qed.

(** C24: the sleeping reader-writer mutex has the steps of the spinning
    reader-writer lock, so the same exclusion, in every reachable state.  Its
    wake-ups: the drop of a read guard wakes one sleeper exactly when it
    leaves the lock free; the drop of an upgradeable guard never wakes
    anyone, also when it leaves the lock free, because it compares the value
    before the subtraction with zero. *)
Theorem rwmutex_wakeups (v : T) (n : nat) s :
  Z.of_nat n + 1 < 2 ^ 60 -> RwMutex.steps (rw_new v n) s ->
  rtc rw_step (rw_new v n) s /\
  (forall i, calls s !! i = Some Reading ->
     (RwMutex.drop_read (lock s)).2 = if decide ((RwMutex.drop_read (lock s)).1.2 = 0) then WakeOne else NoWake) /\
  (forall i, calls s !! i = Some Upreading -> (RwMutex.drop_upread (lock s)).2 = NoWake).
Proof.
  intros Hn Hr%mutex_steps. split; [done|].
  destruct (rtc_invariant _ _ _ _ rw_step_ok Hr) as [Hok Hlen].
  { cbn. rewrite length_replicate. split; [apply calls_ok_new|done]. }
  split; intros i Hi; destruct (calls_ok_fields _ _ _ _ Hok Hi) as (Hw & Hu & Hb & Hrd);
    destruct Hok as [-> Hw1 Hu1 _]; num_facts (calls s); pose proof (num_pos _ _ _ Hi);
    set (w := writers (calls s)) in *; set (u := upreaders (calls s)) in *.
  - assert (0 < readers (calls s)) by (unfold readers; lia).
    pose proof (enc_drop_read w u (num Upgrading (calls s)) (readers (calls s)) Hw Hu Hb ltac:(lia) ltac:(lia) ltac:(lia)) as Hd.
    unfold RwMutex.drop_read. unfold fetch_sub in *. cbn [fst snd] in *. rewrite Hd.
    unfold enc, HI, bit in *. case_decide; zbool; done || lia.
  - assert (1 <= u) by (subst u; unfold upreaders; lia).
    unfold RwMutex.drop_upread, fetch_sub. cbn [snd]. rewrite (proj2 (Z.eqb_neq _ _)); [done|].
    unfold enc, HI, bit in *. lia.
Qed.
End Safe.

(** ** A run: a reader comes and goes under an upgradeable reader, which then
    upgrades and writes. *)

Ltac rw_run i att := eapply rtc_l; [eapply (rw_access _ i) with (a := att); [reflexivity|set_solver]|]; cbn [fst snd].

Lemma rwlock_exclusion_witness :
  exists s : RwLock Z, rtc rw_step (rw_new 5 2) s /\ val s = 6 /\ lock s = WRITER /\
    forall d, calls s !! 0%nat = Some d -> shared d = false /\ exclusive d = false.
Proof.
  set (s := MkRwLock 6 WRITER [Idle; Writing]).
  assert (Hr : rtc rw_step (rw_new 5 2) s).
  { apply (rtc_r _ (MkRwLock 5 WRITER [Idle; Writing])); [|by apply (rw_store (MkRwLock 5 WRITER [Idle; Writing]) 1 6)].
    rw_run 1%nat try_upread. rw_run 0%nat try_read. rw_run 1%nat upgrade_begin. rw_run 0%nat drop_read.
    rw_run 1%nat (try_upgrade Upgrading). rw_run 1%nat try_upgrade_drop.
    exact (rtc_refl _ (MkRwLock 5 WRITER [Idle; Writing])). }
  exists s. split_and!; [done|done|done|]. intros d Hd.
  destruct (rwlock_exclusion 5 2 s ltac:(lia) Hr) as [Hex _].
  destruct (Hex 1%nat 0%nat Writing d) as [Hx _]; [done|done|done|]. by apply Hx.
Defined.

(** A writer that sleeps until the upgradeable guard goes is not woken. *)
Lemma rwmutex_wakeups_witness :
  exists s : RwLock Z, RwMutex.steps (rw_new 5 2) s /\ calls s = [Upreading; Idle] /\
    (RwMutex.try_write (lock s)).1.1 = Idle /\
    (RwMutex.drop_upread (lock s)).1.2 = 0 /\ (RwMutex.drop_upread (lock s)).2 = NoWake.
Proof.
  set (s := MkRwLock 5 UPGRADEABLE_READER [Upreading; Idle]).
  assert (Hr : RwMutex.steps (rw_new 5 2) s).
  { apply rtc_once. eexists. apply (RwMutex.access (rw_new 5 2) 0 Idle RwMutex.try_upread); [done|set_solver]. }
  exists s. split_and!; [done|done|done|done|].
  destruct (rwmutex_wakeups 5 2 s ltac:(lia) Hr) as (_ & _ & Hup). by apply (Hup 0%nat).
Defined.
