(* ===== verification/WaitQueue.v ===== *)
(** Wait queues, the sleeping mutex and the switching of tasks
    (aster-frame/src/sync/wait.rs, sync/mutex/wq_mutex.rs, task/task.rs and
    task/processor.rs): any number of tasks on any number of processors lock
    and unlock one mutex, interleaved at their accesses to shared state. *)

From S2P Require Import Prelude.

(** * Task status (task.rs) *)

Inductive TaskStatus : Type :=
  | Runnable
  | Ready (cpu : nat)
  | Running (cpu : nat)
  | Sleeping
  | ReadyToSleep (cpu : nat)
  | Exited.

#[export] Instance TaskStatus_eq_dec : EqDecision TaskStatus.
Proof. solve_decision. Defined.

(** [WakeUp::sleep] for [Task] *)
Definition sleep (task_status : TaskStatus) : outcome unit TaskStatus :=
  match task_status with
  | Running cpu => Ok (ReadyToSleep cpu)
  | _ => Panic
  end.

(** [WakeUp::wakeup] for [Task]: whether the task has to be enqueued, and its
    status; the time stamp is left out. *)
Definition wakeup (task_status : TaskStatus) : bool * TaskStatus :=
  match task_status with
  | Sleeping => (true, Runnable)
  | ReadyToSleep cpu => (false, Running cpu)
  | s => (false, s)
  end.

(** The transitions of [switch_to], for the next and for the current task;
    the current one is enqueued again or not. *)
Definition switch_in (cpu : nat) (status : TaskStatus) : outcome unit TaskStatus :=
  let? _ := oassert (bool_decide (status = Runnable)) in Ok (Running cpu).
Definition switch_out (this_cpu : nat) (status : TaskStatus) : outcome unit (TaskStatus * bool) :=
  match status with
  | Running cpu => if (cpu =? this_cpu)%nat then Ok (Runnable, true) else Panic
  | ReadyToSleep cpu => if (cpu =? this_cpu)%nat then Ok (Sleeping, false) else Panic
  | Exited => Ok (Exited, false)
  | _ => Panic
  end.

(** * The mutex word (wq_mutex.rs) *)

(** [acquire_lock]: whether it succeeded, and the new value *)
Definition acquire_lock (lock : bool) : bool * bool := if lock then (false, true) else (true, true).

(** * The queue (wait.rs); a waiter is named by its task *)

(** [enqueue]: the waiters of [wait_until] are never exclusive. *)
Definition enqueue (waiter : nat) (waiters : list nat) : list nat := waiter :: waiters.
Definition dequeue (waiter : nat) (waiters : list nat) : list nat := filter (fun w => w <> waiter) waiters.

(** * Tasks that lock and unlock the mutex

    Where a task is in [Mutex::lock], that is [WaitQueue::do_wait] with
    [try_lock] as the condition and no timeout, and in [Mutex::unlock]. *)
Inductive pc : Type :=
  | Outside                  (* no call under way *)
  | LockFirst                (* [cond()] before a waiter is made *)
  | LockEnqueue              (* [Waiter::new], [enqueue] *)
  | LockCond                 (* [cond()] in the loop *)
  | LockSleep                (* [Waiter::wait]: [self.task.sleep()] *)
  | LockCheck                (* [while !self.is_woken_up.load()] *)
  | LockYield                (* [yield_now()] *)
  | LockClear                (* [self.is_woken_up.store(false)] *)
  | LockDequeue              (* [self.dequeue(&waiter)] *)
  | Holding                  (* the guard is held *)
  | UnlockWake               (* [wake_one]: the front waiter, and its flag *)
  | UnlockWakeup (w : nat).  (* [wake_up]: the task of the waiter *)

#[export] Instance pc_eq_dec : EqDecision pc.
Proof. solve_decision. Defined.

Record task : Type := MkTask { status : TaskStatus; is_woken_up : bool; at_ : pc }.

(** The queue's spin lock is held by a task that is waking a waiter up. *)
Record sys : Type := MkSys {
  mutex : bool;
  waiters : list nat;
  waiters_lock : option nat;
  tasks : list task;
  ready : list nat;
  current : list (option nat);
}.

Definition set_task (t : nat) (f : task -> task) (s : sys) : sys :=
  MkSys (mutex s) (waiters s) (waiters_lock s) (alter f t (tasks s)) (ready s) (current s).
Definition set_mutex (b : bool) (s : sys) : sys :=
  MkSys b (waiters s) (waiters_lock s) (tasks s) (ready s) (current s).
Definition set_waiters (l : list nat) (s : sys) : sys :=
  MkSys (mutex s) l (waiters_lock s) (tasks s) (ready s) (current s).
Definition set_waiters_lock (o : option nat) (s : sys) : sys :=
  MkSys (mutex s) (waiters s) o (tasks s) (ready s) (current s).
Definition set_ready (l : list nat) (s : sys) : sys :=
  MkSys (mutex s) (waiters s) (waiters_lock s) (tasks s) l (current s).
Definition set_current (l : list (option nat)) (s : sys) : sys :=
  MkSys (mutex s) (waiters s) (waiters_lock s) (tasks s) (ready s) l.

Definition goto (p : pc) (k : task) : task := MkTask (status k) (is_woken_up k) p.
Definition set_status (st : TaskStatus) (k : task) : task := MkTask st (is_woken_up k) (at_ k).
Definition set_woken (b : bool) (k : task) : task := MkTask (status k) b (at_ k).

(** [wake_one] up to the exchange of the waiter's flag. *)
Definition wake_one (t : nat) (s : sys) : outcome unit sys :=
  match waiters s with
  | [] => Ok (set_task t (goto Outside) s)
  | w :: _ =>
      match tasks s !! w with
      | Some k =>
          if is_woken_up k then Ok (set_task t (goto Outside) s)
          else Ok (set_task t (goto (UnlockWakeup w)) (set_task w (set_woken true) (set_waiters_lock (Some t) s)))
      | None => Panic
      end
  end.

(** The rest of [Waiter::wake_up]; [add_task] asserts that the task is runnable. *)
Definition wake_up_task (t w : nat) (s : sys) : outcome unit sys :=
  match tasks s !! w with
  | Some k =>
      let '(enq, st) := wakeup (status k) in
      let s := set_task w (set_status st) s in
      let s := if enq then set_ready (ready s ++ [w]) s else s in
      Ok (set_task t (goto Outside) (set_waiters_lock None s))
  | None => Panic
  end.

(** A task that needs the queue's spin lock waits while it is taken. *)
Definition with_waiters {A} (s : sys) (m : outcome unit A) : outcome unit A :=
  match waiters_lock s with None => m | Some _ => Err tt end.

(** The next access of task [t]; [Err] if it cannot go on yet. *)
Definition step_task (t : nat) (s : sys) : outcome unit sys :=
  match tasks s !! t with
  | None => Err tt
  | Some k =>
      match at_ k with
      | Outside => Ok (set_task t (goto LockFirst) s)
      | LockFirst =>
          let '(ok, m) := acquire_lock (mutex s) in
          Ok (set_task t (goto (if ok then Holding else LockEnqueue)) (set_mutex m s))
      | LockEnqueue =>
          with_waiters s
            (Ok (set_task t (goto LockCond) (set_task t (set_woken false) (set_waiters (enqueue t (waiters s)) s))))
      | LockCond =>
          let '(ok, m) := acquire_lock (mutex s) in
          Ok (set_task t (goto (if ok then LockDequeue else LockSleep)) (set_mutex m s))
      | LockSleep =>
          let? st := sleep (status k) in
          Ok (set_task t (goto LockCheck) (set_task t (set_status st) s))
      | LockCheck => Ok (set_task t (goto (if is_woken_up k then LockClear else LockYield)) s)
      | LockYield => Ok (set_task t (goto LockCheck) s)
      | LockClear => Ok (set_task t (goto LockCond) (set_task t (set_woken false) s))
      | LockDequeue => with_waiters s (Ok (set_task t (goto Holding) (set_waiters (dequeue t (waiters s)) s)))
      | Holding => Ok (set_task t (goto UnlockWake) (set_mutex false s))
      | UnlockWake => with_waiters s (wake_one t s)
      | UnlockWakeup w => wake_up_task t w s
      end
  end.

(** [switch_to] on processor [c], to a task the scheduler picked. *)
Definition switch_to (c next : nat) (s : sys) : outcome unit sys :=
  match current s !! c, tasks s !! next with
  | Some cur, Some k =>
      let? _ := oassert (negb (bool_decide (cur = Some next))) in
      let? st := switch_in c (status k) in
      let s1 := set_current (<[c := Some next]> (current s))
                  (set_ready (filter (fun t => t <> next) (ready s)) (set_task next (set_status st) s)) in
      match cur with
      | None => Ok s1
      | Some t =>
          match tasks s1 !! t with
          | Some k' =>
              let? o := switch_out c (status k') in
              let s2 := set_task t (set_status o.1) s1 in
              Ok (if o.2 then set_ready (ready s2 ++ [t]) s2 else s2)
          | None => Panic
          end
      end
  | _, _ => Panic
  end.

(** The kernel switches tasks on an idle processor, when a call yields, and
    where a task leaves for user space. *)
Definition sched_point (c : nat) (s : sys) : bool :=
  match current s !! c with
  | Some None => true
  | Some (Some t) =>
      match tasks s !! t with
      | Some k => match at_ k with Outside | LockYield => true | _ => false end
      | None => false
      end
  | None => false
  end.

Inductive sys_step : sys -> sys -> Prop :=
  | by_task c t s s' : current s !! c = Some (Some t) -> step_task t s = Ok s' -> sys_step s s'
  | by_switch c n s s' : sched_point c s = true -> n ∈ ready s -> switch_to c n s = Ok s' -> sys_step s s'.

(** [n] tasks that are ready to run, on [m] idle processors. *)
Definition sys_init (n m : nat) : sys :=
  MkSys false [] None (replicate n (MkTask Runnable false Outside)) (seq 0 n) (replicate m None).

(** * Runs as lists of moves *)

Inductive move : Type := Run (c : nat) | Switch (c next : nat).

Definition exec_move (m : move) (s : sys) : option sys :=
  match m with
  | Run c =>
      match current s !! c with
      | Some (Some t) => match step_task t s with Ok s' => Some s' | _ => None end
      | _ => None
      end
  | Switch c n =>
      if sched_point c s && bool_decide (n ∈ ready s)
      then match switch_to c n s with Ok s' => Some s' | _ => None end
      else None
  end.

Fixpoint exec (ms : list move) (s : sys) : option sys :=
  match ms with
  | [] => Some s
  | m :: ms => match exec_move m s with Some s' => exec ms s' | None => None end
  end.
