(* ===== verification/WaitQueueFacts.v ===== *)
(** The sleeping mutex: exclusion and wake-ups under every interleaving, and
    the task that is switched out for good after a wake-up that came before
    it slept. *)

From S2P Require Import Prelude WaitQueue.

Lemma exec_move_step m s s' : exec_move m s = Some s' -> sys_step s s'.
Proof.
  destruct m as [c|c n]; cbn.
  - destruct (current s !! c) as [[t|]|] eqn:Hc; [|done|done].
    destruct (step_task t s) eqn:Ht; [|done|done]. intros [= ->]. by eapply by_task.
  - destruct (sched_point c s) eqn:Hp; [|done]. case_bool_decide; [|done]. cbn.
    destruct (switch_to c n s) eqn:Ht; [|done|done]. intros [= ->]. by eapply by_switch.
Qed.

Lemma exec_steps ms s s' : exec ms s = Some s' -> rtc sys_step s s'.
Proof.
  revert s. induction ms as [|m ms IH]; intros s; cbn; [by intros [= ->]|].
  destruct (exec_move m s) eqn:Hm; [|done]. intros H. eapply rtc_l; [by eapply exec_move_step|by apply IH].
Qed.

(** * The updates of a task *)

Lemma set_task_lookup t f s u :
  tasks (set_task t f s) !! u = if decide (u = t) then f <$> tasks s !! u else tasks s !! u.
Proof.
  cbn. case_decide; subst; [apply list_lookup_alter_eq|by apply list_lookup_alter_ne].
Qed.

(** * A task nobody will wake *)

(** Task [t] sleeps outside any call, waits on no queue, is not ready and not
    about to be woken. *)
Record lost (t : nat) (s : sys) : Prop := {
  lo_task : exists b, tasks s !! t = Some (MkTask Sleeping b Outside);
  lo_waiters : t ∉ waiters s;
  lo_ready : t ∉ ready s;
  lo_current : forall c, current s !! c <> Some (Some t);
  lo_waking : forall u k, tasks s !! u = Some k -> at_ k <> UnlockWakeup t;
}.

Section Lost.
Context (t : nat).

Lemma lost_set_task u f s :
  lost t s -> u <> t -> (forall k, tasks s !! u = Some k -> at_ (f k) <> UnlockWakeup t) -> lost t (set_task u f s).
Proof.
  intros [[b Hb] Hw Hr Hc Hk] Hne Hf. constructor; [exists b|done..|].
  - by rewrite set_task_lookup, decide_False.
  - intros v k. rewrite set_task_lookup. case_decide; subst; [|by apply Hk].
    destruct (tasks s !! u) as [k0|] eqn:Hu; [|done]. intros [= <-]. by apply Hf.
Qed.

Lemma lost_goto u p s : lost t s -> u <> t -> p <> UnlockWakeup t -> lost t (set_task u (goto p) s).
Proof. intros Hl Hne Hp. by apply lost_set_task. Qed.

Lemma lost_status u st s : lost t s -> u <> t -> lost t (set_task u (set_status st) s).
Proof. intros Hl Hne. apply lost_set_task; [done..|]. intros k Hk. cbn. by apply (lo_waking _ _ Hl u). Qed.

Lemma lost_woken u b s : lost t s -> u <> t -> lost t (set_task u (set_woken b) s).
Proof. intros Hl Hne. apply lost_set_task; [done..|]. intros k Hk. cbn. by apply (lo_waking _ _ Hl u). Qed.

Lemma lost_mutex b s : lost t s -> lost t (set_mutex b s).
Proof. by intros []. Qed.

Lemma lost_waiters_lock o s : lost t s -> lost t (set_waiters_lock o s).
Proof. by intros []. Qed.

Lemma lost_waiters l s : lost t s -> t ∉ l -> lost t (set_waiters l s).
Proof. intros []. by constructor. Qed.

Lemma lost_ready l s : lost t s -> t ∉ l -> lost t (set_ready l s).
Proof. intros []. by constructor. Qed.

Create HintDb lost.
#[local] Hint Resolve lost_goto lost_status lost_woken lost_mutex lost_waiters_lock lost_waiters lost_ready : lost.

Lemma lost_wake_one u s s' : lost t s -> u <> t -> wake_one u s = Ok s' -> lost t s'.
Proof.
  intros Hl Hu. unfold wake_one. pose proof (lo_waiters _ _ Hl) as Hw. destruct (waiters s) as [|w ws]; intros H.
  - injection H as <-. by auto with lost.
  - destruct (tasks s !! w) as [k|]; [|done]. apply not_elem_of_cons in Hw as [Hw _].
    destruct (is_woken_up k); injection H as <-; [by auto with lost|].
    apply lost_goto; [|done|congruence]. by auto with lost.
Qed.

Lemma lost_wake_up_task u w s s' :
  lost t s -> u <> t -> w <> t -> wake_up_task u w s = Ok s' -> lost t s'.
Proof.
  intros Hl Hu Hw. unfold wake_up_task. destruct (tasks s !! w) as [k|]; [|done].
  destruct (wakeup (status k)) as [enq st]. intros [= <-].
  assert (H1 : lost t (set_task w (set_status st) s)) by auto with lost.
  apply lost_goto; [|done|done]. apply lost_waiters_lock. destruct enq; [|done].
  apply lost_ready; [done|]. apply not_elem_of_app. split; [apply Hl|by apply not_elem_of_cons; split; [congruence|apply not_elem_of_nil]].
Qed.

Lemma lost_step_task u s s' : lost t s -> u <> t -> step_task u s = Ok s' -> lost t s'.
Proof.
  intros Hl Hu. unfold step_task. destruct (tasks s !! u) as [k|] eqn:Hk; [|done].
  destruct (at_ k) eqn:Hat; unfold with_waiters; try (destruct (waiters_lock s); [done|]).
  1, 6, 7, 8, 10: intros [= <-]; try (destruct (is_woken_up k)); by auto with lost.
  - destruct (mutex s); intros [= <-]; by auto with lost.
  - intros [= <-]. apply lost_goto; [|done|done]. apply lost_woken; [|done]. apply lost_waiters; [done|].
    apply not_elem_of_cons. split; [congruence|apply Hl].
  - destruct (mutex s); intros [= <-]; by auto with lost.
  - destruct (sleep (status k)); [|done|done]. intros [= <-]. by auto with lost.
  - intros [= <-]. apply lost_goto; [|done|done]. apply lost_waiters; [done|].
    intros [_ Hin]%list_elem_of_filter. by apply Hl in Hin.
  - by apply lost_wake_one.
  - apply lost_wake_up_task; [done|done|]. intros ->. by apply (lo_waking _ _ Hl u k).
Qed.

Lemma lost_switch c n s s' : lost t s -> n ∈ ready s -> switch_to c n s = Ok s' -> lost t s'.
Proof.
  intros Hl Hn. assert (Hne : n <> t) by (intros ->; by apply Hl in Hn). unfold switch_to.
  destruct (current s !! c) as [cur|] eqn:Hc; [|done]. destruct (tasks s !! n) as [k|]; [|done].
  unfold oassert. case_bool_decide; [done|]. cbn. unfold switch_in, oassert. case_bool_decide; [|done]. cbn.
  set (s1 := set_current _ _).
  assert (H1 : lost t s1).
  { assert (H2 : lost t (set_ready (filter (fun t => t <> n) (ready s)) (set_task n (set_status (Running c)) s))).
    { apply lost_ready; [by auto with lost|]. intros [_ Hin]%list_elem_of_filter. by apply Hl in Hin. }
    destruct H2 as [Ht Hw Hr Hcur Hk]. constructor; [done..| |done]. intros d. cbn.
    destruct (decide (d = c)) as [->|Hd]; [|rewrite list_lookup_insert_ne by done; apply Hl].
    rewrite list_lookup_insert_eq by (by eapply lookup_lt_Some). congruence. }
  destruct cur as [u|]; [|by intros [= <-]].
  assert (Hu : u <> t) by (intros ->; by apply (lo_current _ _ Hl c)).
  destruct (alter _ n (tasks s) !! u) as [k'|]; [|done].
  destruct (switch_out c (status k')) as [[st b]| |]; [|done|done]. cbn. intros [= <-].
  destruct b; [|by auto with lost]. apply lost_ready; [by auto with lost|].
  apply not_elem_of_app. split; [exact (lo_ready _ _ H1)|]. apply not_elem_of_cons. split; [congruence|apply not_elem_of_nil].
Qed.

Lemma lost_step s s' : sys_step s s' -> lost t s -> lost t s'.
Proof.
  intros [c u s0 s1 Hc Hs|c n s0 s1 Hp Hn Hs] Hl.
  - apply (lost_step_task u s0); [done| |done]. intros ->. by apply (lo_current _ _ Hl c).
  - by apply (lost_switch c n s0).
Qed.
End Lost.

(** C33: a task can be lost.  A waiter that is woken between its last failed
    attempt to lock and [Waiter::wait] goes on with the status [ReadyToSleep]:
    it takes the mutex, releases it and leaves, and is put to sleep at the next
    switch, waiting on no queue; whatever happens then, it never runs again.
    Three tasks on two processors reach such a state. *)
Theorem wait_loses_task :
  exists s t, rtc sys_step (sys_init 3 2) s /\ mutex s = false /\ lost t s /\
    forall s', rtc sys_step s s' -> lost t s'.
Proof.
  pose (ms := [Switch 0 0; Switch 1 1; Run 0; Run 0; Run 1; Run 1; Run 1; Run 1; Run 0; Run 0; Run 0;
    Run 1; Run 1; Run 1; Run 1; Run 1; Run 1; Run 1; Switch 1 2]).
  destruct (exec ms (sys_init 3 2)) as [s|] eqn:Hrun; [|done]. exists s, 1%nat.
  assert (Hl : lost 1 s).
  { vm_compute in Hrun. injection Hrun as <-. constructor.
    - by exists false.
    - apply not_elem_of_nil.
    - apply not_elem_of_nil.
    - by intros [|[|c]].
    - intros [|[|[|u]]] k Hk; cbn in Hk; by simplify_eq. }
  split_and!; [by eapply exec_steps|by vm_compute in Hrun; injection Hrun as <-|done|].
  intros s' Hr. by apply (rtc_invariant _ _ _ _ (lost_step 1) Hr).
Qed.
