(* ===== verification/WaitQueueInv.v ===== *)
(** The sleeping mutex wakes its waiters: while the mutex is free and tasks wait
    for it, some task is about to wake one of them or to try again. *)

From S2P Require Import Prelude WaitQueue WaitQueueFacts.

(** * The steps, with the tasks they change written out *)

Definition put (t : nat) (k : task) (s : sys) : sys :=
  MkSys (mutex s) (waiters s) (waiters_lock s) (<[t := k]> (tasks s)) (ready s) (current s).

Lemma set_task_put t f k s : tasks s !! t = Some k -> set_task t f s = put t (f k) s.
Proof.
  intros Hk. unfold set_task, put. f_equal. apply list_eq. intros i.
  destruct (decide (i = t)) as [->|Hne].
  - by rewrite list_lookup_alter_eq, Hk, list_lookup_insert_eq by (by eapply lookup_lt_Some).
  - by rewrite list_lookup_alter_ne, list_lookup_insert_ne by done.
Qed.

Lemma put_lookup t k k' s u :
  tasks s !! t = Some k -> tasks (put t k' s) !! u = if decide (u = t) then Some k' else tasks s !! u.
Proof.
  intros Hk. cbn. case_decide; subst; [apply list_lookup_insert_eq; by eapply lookup_lt_Some|by apply list_lookup_insert_ne].
Qed.

Lemma put_put t k1 k2 s : put t k2 (put t k1 s) = put t k2 s.
Proof. unfold put. cbn. by rewrite list_insert_insert_eq. Qed.

Lemma set_task_twice t f g k s :
  tasks s !! t = Some k -> set_task t g (set_task t f s) = put t (g (f k)) s.
Proof.
  intros Hk. rewrite (set_task_put t f k) by done.
  rewrite (set_task_put t g (f k)) by (by rewrite (put_lookup _ k), decide_True). apply put_put.
Qed.

(** What one access of task [t], in state [k], does. *)
Inductive acts (t : nat) (k : task) (s : sys) : sys -> Prop :=
  | a_call : at_ k = Outside -> acts t k s (put t (goto LockFirst k) s)
  | a_first_ok : at_ k = LockFirst -> mutex s = false -> acts t k s (put t (goto Holding k) (set_mutex true s))
  | a_first_fail : at_ k = LockFirst -> mutex s = true -> acts t k s (put t (goto LockEnqueue k) s)
  | a_enqueue : at_ k = LockEnqueue -> waiters_lock s = None ->
      acts t k s (put t (MkTask (status k) false LockCond) (set_waiters (t :: waiters s) s))
  | a_cond_ok : at_ k = LockCond -> mutex s = false -> acts t k s (put t (goto LockDequeue k) (set_mutex true s))
  | a_cond_fail : at_ k = LockCond -> mutex s = true -> acts t k s (put t (goto LockSleep k) s)
  | a_sleep c : at_ k = LockSleep -> status k = Running c ->
      acts t k s (put t (MkTask (ReadyToSleep c) (is_woken_up k) LockCheck) s)
  | a_check_woken : at_ k = LockCheck -> is_woken_up k = true -> acts t k s (put t (goto LockClear k) s)
  | a_check : at_ k = LockCheck -> is_woken_up k = false -> acts t k s (put t (goto LockYield k) s)
  | a_yield : at_ k = LockYield -> acts t k s (put t (goto LockCheck k) s)
  | a_clear : at_ k = LockClear -> acts t k s (put t (MkTask (status k) false LockCond) s)
  | a_dequeue : at_ k = LockDequeue -> waiters_lock s = None ->
      acts t k s (put t (goto Holding k) (set_waiters (dequeue t (waiters s)) s))
  | a_unlock : at_ k = Holding -> acts t k s (put t (goto UnlockWake k) (set_mutex false s))
  | a_wake_none : at_ k = UnlockWake -> waiters s = [] -> waiters_lock s = None -> acts t k s (put t (goto Outside k) s)
  | a_wake_again w ws kw : at_ k = UnlockWake -> waiters s = w :: ws -> waiters_lock s = None ->
      tasks s !! w = Some kw -> is_woken_up kw = true -> acts t k s (put t (goto Outside k) s)
  | a_wake w ws kw : at_ k = UnlockWake -> waiters s = w :: ws -> waiters_lock s = None ->
      tasks s !! w = Some kw -> is_woken_up kw = false -> w <> t ->
      acts t k s (put t (goto (UnlockWakeup w) k) (put w (set_woken true kw) (set_waiters_lock (Some t) s)))
  | a_wakeup w kw : at_ k = UnlockWakeup w -> tasks s !! w = Some kw -> w <> t ->
      acts t k s (put t (goto Outside k) (put w (set_status (wakeup (status kw)).2 kw) (set_waiters_lock None
        (if (wakeup (status kw)).1 then set_ready (ready s ++ [w]) s else s)))).

(** A task is in the queue from [LockEnqueue] to [LockDequeue]. *)
Definition queued (p : pc) : bool :=
  match p with LockCond | LockSleep | LockCheck | LockYield | LockClear | LockDequeue => true | _ => false end.

Definition queue_ok (s : sys) : Prop :=
  NoDup (waiters s) /\ (forall t, t ∈ waiters s <-> exists k, tasks s !! t = Some k /\ queued (at_ k) = true) /\
  forall t k w, tasks s !! t = Some k -> at_ k = UnlockWakeup w -> w ∈ waiters s.

Lemma step_task_acts t k s s' :
  queue_ok s -> tasks s !! t = Some k -> step_task t s = Ok s' -> acts t k s s'.
Proof.
  intros (_ & Hq & Hw) Hk. unfold step_task. rewrite Hk. destruct (at_ k) eqn:Hat; unfold with_waiters.
  - rewrite (set_task_put _ _ k) by done. intros [= <-]. by apply a_call.
  - unfold acquire_lock. destruct (mutex s) eqn:Hm; rewrite (set_task_put _ _ k) by done; intros [= <-].
    + replace (set_mutex true s) with s by (by rewrite <- Hm; destruct s). by apply a_first_fail.
    + by apply a_first_ok.
  - destruct (waiters_lock s) eqn:Hl; [done|]. rewrite (set_task_twice _ _ _ k) by done. intros [= <-]. by apply a_enqueue.
  - unfold acquire_lock. destruct (mutex s) eqn:Hm; rewrite (set_task_put _ _ k) by done; intros [= <-].
    + replace (set_mutex true s) with s by (by rewrite <- Hm; destruct s). by apply a_cond_fail.
    + by apply a_cond_ok.
  - destruct (status k) eqn:Hst; cbn [sleep obind]; try done. rewrite (set_task_twice _ _ _ k) by done. intros [= <-]. by apply (a_sleep t k s cpu).
  - destruct (is_woken_up k) eqn:Hwk; rewrite (set_task_put _ _ k) by done; intros [= <-]; by constructor.
  - rewrite (set_task_put _ _ k) by done. intros [= <-]. by apply a_yield.
  - rewrite (set_task_twice _ _ _ k) by done. intros [= <-]. by apply a_clear.
  - destruct (waiters_lock s) eqn:Hl; [done|]. rewrite (set_task_put _ _ k) by done. intros [= <-]. by apply a_dequeue.
  - rewrite (set_task_put _ _ k) by done. intros [= <-]. by apply a_unlock.
  - destruct (waiters_lock s) eqn:Hl; [done|]. unfold wake_one. destruct (waiters s) as [|w ws] eqn:Hws.
    { rewrite (set_task_put _ _ k) by done. intros [= <-]. by apply a_wake_none. }
    destruct (proj1 (Hq w)) as (kw & Hkw & Hqw); [left|]. rewrite Hkw.
    destruct (is_woken_up kw) eqn:Hwk.
    { rewrite (set_task_put _ _ k) by done. intros [= <-]. by eapply a_wake_again. }
    assert (w <> t) by (intros ->; rewrite Hk in Hkw; injection Hkw as <-; by rewrite Hat in Hqw).
    rewrite (set_task_put w _ kw) by done. erewrite (set_task_put t _ k);
      [|rewrite (put_lookup _ kw) by done; by rewrite decide_False].
    intros [= <-]. by eapply a_wake.
  - unfold wake_up_task. destruct (proj1 (Hq w) (Hw t k w Hk Hat)) as (kw & Hkw & Hqw). rewrite Hkw.
    assert (w <> t) by (intros ->; rewrite Hk in Hkw; injection Hkw as <-; by rewrite Hat in Hqw).
    pose proof (a_wakeup t k s w kw Hat Hkw) as Ha. destruct (wakeup (status kw)) as [enq st].
    rewrite (set_task_put w _ kw) by done. intros [= <-].
    erewrite (set_task_put t _ k); [by destruct enq; apply Ha|].
    destruct enq; cbn; by rewrite list_lookup_insert_ne.
Qed.

(** What a switch on processor [c] does. *)
Definition switched (c n : nat) (k : task) (rdy : list nat) (s : sys) : sys :=
  MkSys (mutex s) (waiters s) (waiters_lock s) (<[n := set_status (Running c) k]> (tasks s)) rdy
    (<[c := Some n]> (current s)).
Definition others (n : nat) (s : sys) : list nat := filter (fun t => t <> n) (ready s).

Inductive switches (c n : nat) (k : task) (s : sys) : sys -> Prop :=
  | sw_idle : current s !! c = Some None -> switches c n k s (switched c n k (others n s) s)
  | sw_run u ku : current s !! c = Some (Some u) -> u <> n -> tasks s !! u = Some ku ->
      at_ ku = Outside \/ at_ ku = LockYield -> status ku = Running c ->
      switches c n k s (put u (set_status Runnable ku) (switched c n k (others n s ++ [u]) s))
  | sw_sleep u ku : current s !! c = Some (Some u) -> u <> n -> tasks s !! u = Some ku ->
      at_ ku = Outside \/ at_ ku = LockYield -> status ku = ReadyToSleep c ->
      switches c n k s (put u (set_status Sleeping ku) (switched c n k (others n s) s))
  | sw_exit u ku : current s !! c = Some (Some u) -> u <> n -> tasks s !! u = Some ku -> status ku = Exited ->
      switches c n k s (put u (set_status Exited ku) (switched c n k (others n s) s)).

Lemma switch_to_switches c n s s' :
  sched_point c s = true -> switch_to c n s = Ok s' ->
  exists k, tasks s !! n = Some k /\ status k = Runnable /\ switches c n k s s'.
Proof.
  unfold sched_point, switch_to. intros Hp. destruct (current s !! c) as [cur|] eqn:Hc; [|done].
  destruct (tasks s !! n) as [k|] eqn:Hk; [|done]. unfold oassert, switch_in.
  case_bool_decide as Hne; [done|]. cbn [negb obind]. unfold oassert. case_bool_decide as Hst; [|done]. cbn [obind].
  rewrite (set_task_put n _ k) by done.
  change (set_current _ _) with (switched c n k (others n s) s). intros H. exists k. split_and!; [done..|].
  destruct cur as [u|]; [|injection H as <-; by apply sw_idle].
  assert (Hun : u <> n) by congruence. replace (tasks (switched _ _ _ _ _) !! u) with (tasks s !! u) in H
    by (symmetry; by apply list_lookup_insert_ne).
  destruct (tasks s !! u) as [ku|] eqn:Hu; [|done].
  assert (Hpt : at_ ku = Outside \/ at_ ku = LockYield) by (destruct (at_ ku); naive_solver).
  assert (Hput : forall st rdy, set_task u (set_status st) (switched c n k rdy s) =
    put u (set_status st ku) (switched c n k rdy s)).
  { intros st rdy. apply set_task_put. cbn. by rewrite list_lookup_insert_ne. }
  destruct (status ku) eqn:Hs; cbn [switch_out] in H; try done;
    try (destruct (Nat.eqb_spec cpu c) as [->|]; [|done]); cbn [obind fst snd] in H; injection H as <-.
  - change (set_ready _ _) with (set_task u (set_status Runnable) (switched c n k (others n s ++ [u]) s)).
    rewrite Hput. by apply sw_run.
  - rewrite Hput. by apply sw_sleep.
  - rewrite Hput. by apply sw_exit.
Qed.

(** * The invariant *)

(** A task that holds the mutex. *)
Definition owner (k : task) : bool := match at_ k with LockDequeue | Holding => true | _ => false end.

Definition on_cpu (st : TaskStatus) : Prop := exists c, st = Running c \/ st = ReadyToSleep c.

(** Where the status says the task is. *)
Definition placed (s : sys) (t : nat) (st : TaskStatus) : Prop :=
  match st with
  | Running c | ReadyToSleep c => current s !! c = Some (Some t)
  | Runnable => t ∈ ready s
  | Sleeping => True
  | _ => False
  end.

Definition waking (s : sys) (w : nat) : Prop := exists u k, tasks s !! u = Some k /\ at_ k = UnlockWakeup w.

(** A waiter that will try to lock again. *)
Definition will_retry (k : task) : Prop :=
  match at_ k with
  | LockCond | LockClear => True
  | LockSleep | LockCheck | LockYield => is_woken_up k = true
  | _ => False
  end.

(** Some task is about to wake a waiter, or is a waiter about to retry. *)
Definition evidence (s : sys) : Prop :=
  (exists u k, tasks s !! u = Some k /\ at_ k = UnlockWake) \/
  (exists w k, w ∈ waiters s /\ tasks s !! w = Some k /\ will_retry k).

Record inv (s : sys) : Prop := {
  v_mutex : count owner (tasks s) = Z.b2z (mutex s);
  v_queue : queue_ok s;
  v_lock : forall t k w, tasks s !! t = Some k -> at_ k = UnlockWakeup w -> waiters_lock s = Some t;
  v_current : forall c t, current s !! c = Some (Some t) ->
    exists k, tasks s !! t = Some k /\ (status k = Running c \/ status k = ReadyToSleep c);
  v_ready : forall t, t ∈ ready s -> exists k, tasks s !! t = Some k /\ status k = Runnable;
  v_placed : forall t k, tasks s !! t = Some k -> placed s t (status k);
  v_cpu : forall t k, tasks s !! t = Some k -> at_ k <> Outside -> at_ k <> LockYield -> on_cpu (status k);
  v_yield : forall t k, tasks s !! t = Some k -> at_ k = LockYield -> is_woken_up k = true ->
    status k = Sleeping \/ (exists c, status k = ReadyToSleep c) -> waking s t;
  v_main : mutex s = false -> waiters s <> [] -> evidence s;
}.

Lemma inv_init n m : inv (sys_init n m).
Proof.
  assert (Hl : forall t k, tasks (sys_init n m) !! t = Some k -> k = MkTask Runnable false Outside /\ (t < n)%nat).
  { intros t k [-> Hlt]%lookup_replicate. done. }
  constructor.
  - cbn. apply count_none. intros k [-> _]%elem_of_replicate. done.
  - split_and!; [constructor| |].
    + intros t. split; [by intros ?%elem_of_nil|]. by intros (k & [-> _]%Hl & ?).
    + by intros t k w [-> _]%Hl.
  - by intros t k w [-> _]%Hl.
  - intros c t [? _]%lookup_replicate. done.
  - intros t Ht. cbn in Ht. apply elem_of_seq in Ht. exists (MkTask Runnable false Outside). split; [apply lookup_replicate_2; lia|done].
  - intros t k [-> Hlt]%Hl. cbn. apply elem_of_seq. lia.
  - by intros t k [-> _]%Hl.
  - by intros t k [-> _]%Hl.
  - done.
Qed.

(** * A task's access preserves it *)

Section Acts.
Context (t : nat) (k : task) (s s' : sys) (c : nat).
Hypotheses (Hk : tasks s !! t = Some k) (Hc : current s !! c = Some (Some t)) (Hv : inv s) (Ha : acts t k s s').

Lemma acts_mutex : count owner (tasks s') = Z.b2z (mutex s').
Proof.
  pose proof (v_mutex s Hv) as Hm. destruct Ha; cbn [put tasks mutex set_mutex set_waiters set_waiters_lock];
    try (rewrite (count_insert _ _ _ k) by done; unfold owner in *; cbn [goto at_];
         rewrite ?H; try rewrite H0 in Hm; try rewrite H0; cbn in *; lia).
  - rewrite (count_insert _ _ _ k) by done. pose proof (count_pos owner _ _ _ Hk) as Hp.
    unfold owner in *. cbn. rewrite H in *. specialize (Hp eq_refl). destruct (mutex s); cbn in *; lia.
  - rewrite (count_insert _ _ _ k) by (rewrite list_lookup_insert_ne; done).
    rewrite (count_insert _ _ _ kw) by done. unfold owner in *. cbn. rewrite H. cbn. lia.
  - rewrite (count_insert _ _ _ k) by (rewrite list_lookup_insert_ne; [by destruct (wakeup (status kw)).1|done]).
    rewrite (count_insert _ _ _ kw) by (by destruct (wakeup (status kw)).1).
    unfold owner in *. cbn. rewrite H. destruct (wakeup (status kw)).1; cbn; lia.
Qed.

(** The tasks after the access. *)
Lemma acts_self : exists k', tasks s' !! t = Some k' /\
  (status k' = status k \/ exists d, at_ k = LockSleep /\ status k = Running d /\ status k' = ReadyToSleep d).
Proof.
  pose proof (lookup_lt_Some _ _ _ Hk) as Hlt.
  destruct Ha; try (destruct (wakeup (status kw)).1); cbn [put tasks];
    rewrite list_lookup_insert_eq by (cbn; rewrite ?length_insert; done);
    eexists; (split; [done|]); try (by left). right. by exists c0.
Qed.

Lemma acts_other v kv' :
  v <> t -> tasks s' !! v = Some kv' -> exists kv, tasks s !! v = Some kv /\ at_ kv' = at_ kv /\
    (kv' = kv \/ (kv' = set_woken true kv /\ waking s' v) \/
     (at_ k = UnlockWakeup v /\ kv' = set_status (wakeup (status kv)).2 kv)).
Proof.
  intros Hne. destruct Ha; cbn [put tasks]; rewrite list_lookup_insert_ne by done;
    try (intros Hkv; exists kv'; split_and!; [done|done|by left]).
  - cbn. destruct (decide (w = v)) as [->|]; [|rewrite list_lookup_insert_ne by done; intros Hkv; exists kv'; split_and!; [done|done|by left]].
    rewrite list_lookup_insert_eq by (by eapply lookup_lt_Some). intros [= <-]. exists kw. split_and!; [done|done|].
    right. left. split; [done|]. exists t, (goto (UnlockWakeup v) k). split; [|done].
    cbn. apply list_lookup_insert_eq. rewrite length_insert. by eapply lookup_lt_Some.
  - assert (Ht : tasks (set_waiters_lock None (if (wakeup (status kw)).1 then set_ready (ready s ++ [w]) s else s)) = tasks s)
      by (by destruct (wakeup (status kw)).1). rewrite Ht.
    destruct (decide (w = v)) as [->|]; [|rewrite list_lookup_insert_ne by done; intros Hkv; exists kv'; split_and!; [done|done|by left]].
    rewrite list_lookup_insert_eq by (by eapply lookup_lt_Some). intros [= <-]. exists kw. split_and!; [done|done|].
    right. right. done.
Qed.

Lemma acts_rev v kv : v <> t -> tasks s !! v = Some kv -> exists kv', tasks s' !! v = Some kv' /\ at_ kv' = at_ kv.
Proof.
  intros Hne Hkv. destruct (tasks s' !! v) as [kv'|] eqn:Hkv'.
  - destruct (acts_other v kv' Hne Hkv') as (kv0 & Hkv0 & Hat & _). exists kv'. split; [done|congruence].
  - exfalso. apply lookup_ge_None in Hkv'. apply lookup_lt_Some in Hkv.
    destruct Ha; try (destruct (wakeup (status kw)).1); cbn in Hkv'; rewrite ?length_insert in Hkv'; lia.
Qed.

(** Membership in the queue, given how [t] itself changed. *)
Lemma queue_ok_keep k' :
  tasks s' !! t = Some k' -> queued (at_ k') = queued (at_ k) -> waiters s' = waiters s ->
  (forall w, at_ k' = UnlockWakeup w -> w ∈ waiters s) -> queue_ok s'.
Proof.
  intros Hk' Hq Hw Hwk. destruct (v_queue s Hv) as (Hnd & Hin & Hup). unfold queue_ok. rewrite Hw. split_and!; [done| |].
  - intros v. rewrite Hin. destruct (decide (v = t)) as [->|Hne].
    + rewrite Hk, Hk'. split; intros (? & [= <-] & ?); eexists; (split; [done|]); congruence.
    + split; intros (kv & Hkv & Hqv).
      * destruct (acts_rev v kv Hne Hkv) as (kv' & Hkv' & Hat). exists kv'. split; [done|]. by rewrite Hat.
      * destruct (acts_other v kv Hne Hkv) as (kv0 & Hkv0 & Hat & _). exists kv0. split; [done|]. by rewrite <- Hat.
  - intros v kv w Hkv Hat. destruct (decide (v = t)) as [->|Hne].
    + rewrite Hk' in Hkv. injection Hkv as <-. by apply Hwk.
    + destruct (acts_other v kv Hne Hkv) as (kv0 & Hkv0 & Hat0 & _). apply (Hup v kv0); [done|congruence].
Qed.
End Acts.

(** The task's own entry after a [put]. *)
Lemma put_self t k k' s : tasks s !! t = Some k -> tasks (put t k' s) !! t = Some k'.
Proof. intros Hk. by rewrite (put_lookup _ k), decide_True. Qed.

Lemma put_under t k k1 w kw X s :
  tasks s !! t = Some k -> tasks X = tasks s -> tasks (put t k1 (put w kw X)) !! t = Some k1.
Proof. intros Hk HX. cbn. rewrite HX. apply list_lookup_insert_eq. rewrite length_insert. by eapply lookup_lt_Some. Qed.

Lemma acts_queue t k s s' : tasks s !! t = Some k -> inv s -> acts t k s s' -> queue_ok s'.
Proof.
  intros Hk Hv Ha. pose proof (queue_ok_keep t k s s' Hk Hv Ha) as Hkeep.
  pose proof (acts_rev t k s s' Hk Ha) as Hrev. pose proof (acts_other t k s s' Hk Ha) as Hoth.
  destruct (v_queue s Hv) as (Hnd & Hin & Hup). destruct Ha;
    try (eapply Hkeep; [by eapply put_self|cbn; by rewrite H|done|cbn; by intros ?]).
  - assert (Ht : t ∉ waiters s) by (intros (k0 & Hk0 & Hq)%Hin; rewrite Hk in Hk0; injection Hk0 as <-; by rewrite H in Hq).
    split_and!; cbn [put waiters set_waiters].
    + by apply NoDup_cons.
    + intros v. rewrite elem_of_cons. destruct (decide (v = t)) as [->|Hne].
      * split; [|by left]. intros _. eexists. split; [by eapply put_self|done].
      * rewrite (Hin v). split; [intros [?|(kv & Hkv & Hq)]; [done|]|intros (kv & Hkv & Hq); right].
        -- destruct (Hrev v kv Hne Hkv) as (kv' & ? & Hat). exists kv'. by rewrite Hat.
        -- destruct (Hoth v kv Hne Hkv) as (kv0 & ? & Hat & _). exists kv0. by rewrite <- Hat.
    + intros v kv w Hkv Hat. destruct (decide (v = t)) as [->|Hne].
      * erewrite put_self in Hkv by done. by injection Hkv as <-.
      * destruct (Hoth v kv Hne Hkv) as (kv0 & Hkv0 & Hat0 & _). right. apply (Hup v kv0); [done|congruence].
  - split_and!; cbn [put waiters set_waiters].
    + by apply NoDup_filter.
    + intros v. unfold dequeue. rewrite list_elem_of_filter. destruct (decide (v = t)) as [->|Hne].
      * split; [by intros [? _]|]. intros (kv & Hkv & Hq). erewrite put_self in Hkv by done. by injection Hkv as <-.
      * rewrite (Hin v). split; [intros (_ & kv & Hkv & Hq)|intros (kv & Hkv & Hq); split; [done|]].
        -- destruct (Hrev v kv Hne Hkv) as (kv' & ? & Hat). exists kv'. by rewrite Hat.
        -- destruct (Hoth v kv Hne Hkv) as (kv0 & ? & Hat & _). exists kv0. by rewrite <- Hat.
    + intros v kv w Hkv Hat. exfalso. destruct (decide (v = t)) as [->|Hne].
      * erewrite put_self in Hkv by done. by injection Hkv as <-.
      * destruct (Hoth v kv Hne Hkv) as (kv0 & Hkv0 & Hat0 & _).
        pose proof (v_lock s Hv v kv0 w Hkv0 ltac:(congruence)). congruence.
  - eapply Hkeep; [by apply (put_under t k _ w _ _ s)|by rewrite H|done|]. cbn. intros ? [= <-]. rewrite H0. left.
  - eapply Hkeep; [apply (put_under t k _ w _ _ s); [done|by destruct (wakeup (status kw)).1]|by rewrite H|
      by destruct (wakeup (status kw)).1|by intros ?].
Qed.

Lemma acts_lock t k s s' : tasks s !! t = Some k -> inv s -> acts t k s s' ->
  forall v kv w, tasks s' !! v = Some kv -> at_ kv = UnlockWakeup w -> waiters_lock s' = Some v.
Proof.
  intros Hk Hv Ha v kv w Hkv Hat. pose proof (acts_other t k s s' Hk Ha) as Hoth.
  destruct (decide (v = t)) as [->|Hne].
  - destruct Ha; try (erewrite put_self in Hkv by done; by injection Hkv as <-).
    + done.
    + rewrite (put_under t k _ w0 _ _ s) in Hkv; [by injection Hkv as <-|done|by destruct (wakeup (status kw)).1].
  - destruct (Hoth v kv Hne Hkv) as (kv0 & Hkv0 & Hat0 & _).
    pose proof (v_lock s Hv v kv0 w Hkv0 ltac:(congruence)) as Hl.
    destruct Ha; try done; try (cbn; congruence).
    pose proof (v_lock s Hv t k w0 Hk H). congruence.
Qed.

Lemma acts_current t k s s' : acts t k s s' -> current s' = current s.
Proof. intros []; try done. by destruct (wakeup (status kw)).1. Qed.

Lemma acts_ready t k s s' : acts t k s s' -> forall v,
  (v ∈ ready s -> v ∈ ready s') /\
  (v ∈ ready s' -> v ∈ ready s \/ at_ k = UnlockWakeup v /\ exists kv, tasks s !! v = Some kv /\ status kv = Sleeping) /\
  (forall kv, at_ k = UnlockWakeup v -> tasks s !! v = Some kv -> status kv = Sleeping -> v ∈ ready s').
Proof.
  intros Ha v. destruct Ha; try (split_and!; [done|by left|intros kv' Hat; congruence]).
  assert (Hone : forall kv', at_ k = UnlockWakeup v -> tasks s !! v = Some kv' -> kv' = kw /\ v = w)
    by (intros kv' Hat Hkv'; rewrite H in Hat; injection Hat as ->; by rewrite H0 in Hkv'; injection Hkv' as <-).
  destruct (decide (status kw = Sleeping)) as [Hs|Hs].
  - rewrite Hs. cbn. split_and!; [set_solver| |].
    + intros [?|Hin]%elem_of_app; [by left|right]. apply list_elem_of_singleton in Hin as ->. split; [done|]. by exists kw.
    + intros kv' Hat Hkv' _. destruct (Hone kv' Hat Hkv') as [_ ->]. set_solver.
  - destruct (wakeup (status kw)).1 eqn:Hw; [by destruct (status kw)|]. cbn. split_and!; [done|by left|].
    intros kv' Hat Hkv' Hs'. by destruct (Hone kv' Hat Hkv') as [-> _].
Qed.

Lemma wakeup_keep st : st <> Sleeping ->
  (wakeup st).2 = st \/ exists c, st = ReadyToSleep c /\ (wakeup st).2 = Running c.
Proof. destruct st; cbn; try (by left). intros _. right. by eexists. Qed.

Section Place.
Context (t : nat) (k : task) (s s' : sys).
Hypotheses (Hk : tasks s !! t = Some k) (Hv : inv s) (Ha : acts t k s s').

(** The woken task is not the waking one. *)
Lemma acts_wakes_other v : at_ k = UnlockWakeup v -> v <> t.
Proof.
  intros Hat ->. destruct (v_queue s Hv) as (_ & Hin & Hup).
  destruct (proj1 (Hin t) (Hup t k t Hk Hat)) as (k0 & Hk0 & Hq). rewrite Hk in Hk0. injection Hk0 as <-.
  by rewrite Hat in Hq.
Qed.

(** A status stays what it was, or moves between running and ready to sleep
    on the same processor, unless a sleeper becomes runnable. *)
Lemma acts_status v kv' : tasks s' !! v = Some kv' -> exists kv, tasks s !! v = Some kv /\
  ((status kv' = status kv /\ ~ (at_ k = UnlockWakeup v /\ status kv = Sleeping)) \/
   (exists c, (status kv = Running c \/ status kv = ReadyToSleep c) /\
      (status kv' = Running c \/ status kv' = ReadyToSleep c)) \/
   (at_ k = UnlockWakeup v /\ status kv = Sleeping /\ status kv' = Runnable)).
Proof.
  intros Hkv'. destruct (decide (v = t)) as [->|Hne].
  - destruct (acts_self t k s s' Hk Ha) as (k' & Hk' & Hst). rewrite Hkv' in Hk'. injection Hk' as <-.
    exists k. split; [done|]. destruct Hst as [?|(d & _ & Hr & Hrs)]; [left|right; left; exists d; auto].
    split; [done|]. intros [Hat _]. by apply (acts_wakes_other t).
  - destruct (acts_other t k s s' Hk Ha v kv' Hne Hkv') as (kv & Hkv & _ & Hc). exists kv. split; [done|].
    destruct (decide (at_ k = UnlockWakeup v /\ status kv = Sleeping)) as [[Hat Hs]|Hs].
    + right. right. split_and!; [done..|]. clear Hc. destruct Ha; try congruence. rewrite H in Hat. injection Hat as ->.
      cbn in Hkv'. rewrite list_lookup_insert_ne in Hkv' by done.
      rewrite list_lookup_insert_eq in Hkv' by (destruct (wakeup (status kw)).1; by eapply lookup_lt_Some).
      injection Hkv' as <-. cbn. rewrite H0 in Hkv. injection Hkv as <-. by rewrite Hs.
    + destruct Hc as [->|[[-> _]|[Hat ->]]]; [by left..|]. cbn.
      destruct (wakeup_keep (status kv)) as [?|(c & Hc & ->)]; [naive_solver|by left|]. right. left. exists c. auto.
Qed.

Lemma acts_exists v kv : tasks s !! v = Some kv -> exists kv', tasks s' !! v = Some kv'.
Proof.
  intros Hkv. destruct (decide (v = t)) as [->|Hne].
  - destruct (acts_self t k s s' Hk Ha) as (k' & Hk' & _). by exists k'.
  - destruct (acts_rev t k s s' Hk Ha v kv Hne Hkv) as (kv' & ? & _). by exists kv'.
Qed.

Lemma acts_v_current c v : current s' !! c = Some (Some v) ->
  exists kv, tasks s' !! v = Some kv /\ (status kv = Running c \/ status kv = ReadyToSleep c).
Proof.
  rewrite (acts_current t k s s' Ha). intros Hc. destruct (v_current s Hv c v Hc) as (kv & Hkv & Hst).
  destruct (acts_exists v kv Hkv) as (kv' & Hkv'). exists kv'. split; [done|].
  destruct (acts_status v kv' Hkv') as (kv0 & Hkv0 & Hcase). rewrite Hkv in Hkv0. injection Hkv0 as <-.
  destruct Hcase as [[Heq _]|[(d & Hd & Hd')|(_ & Hs & _)]]; [by rewrite Heq| |destruct Hst; congruence].
  assert (d = c) as -> by (destruct Hst, Hd; congruence). done.
Qed.

Lemma acts_v_ready v : v ∈ ready s' -> exists kv, tasks s' !! v = Some kv /\ status kv = Runnable.
Proof.
  intros Hr. destruct (acts_ready t k s s' Ha v) as (_ & Hr2 & _).
  assert (Hsrc : exists kv, tasks s !! v = Some kv /\
    (status kv = Runnable \/ at_ k = UnlockWakeup v /\ status kv = Sleeping)).
  { destruct (Hr2 Hr) as [Hr1|(Hat & kv & Hkv & Hs)]; [|exists kv; auto].
    destruct (v_ready s Hv v Hr1) as (kv & ? & ?). exists kv. auto. }
  destruct Hsrc as (kv & Hkv & Hst). destruct (acts_exists v kv Hkv) as (kv' & Hkv'). exists kv'. split; [done|].
  destruct (acts_status v kv' Hkv') as (kv0 & Hkv0 & Hcase). rewrite Hkv in Hkv0. injection Hkv0 as <-.
  destruct Hcase as [[Heq Hn]|[(d & Hd & _)|(_ & _ & ?)]]; [|destruct Hd, Hst as [|[]]; congruence|done].
  destruct Hst as [|Hst]; [congruence|done].
Qed.

Lemma acts_v_placed v kv' : tasks s' !! v = Some kv' -> placed s' v (status kv').
Proof.
  intros Hkv'. destruct (acts_status v kv' Hkv') as (kv & Hkv & Hcase). pose proof (v_placed s Hv v kv Hkv) as Hp.
  pose proof (acts_ready t k s s' Ha v) as (Hr & _ & Hr3). pose proof (acts_current t k s s' Ha) as Hc.
  destruct Hcase as [[-> _]|[(d & Hd & Hd')|(Hat & Hs & ->)]].
  - destruct (status kv); cbn in *; rewrite ?Hc; auto.
  - assert (current s !! d = Some (Some v)) by (destruct Hd as [Hd|Hd]; by rewrite Hd in Hp).
    destruct Hd' as [-> | ->]; cbn; by rewrite Hc.
  - by apply (Hr3 kv).
Qed.
End Place.

(** A status the task wakes is not one about to sleep. *)
Lemma acts_woken_status t k s s' v kv' :
  tasks s !! t = Some k -> acts t k s s' -> at_ k = UnlockWakeup v -> v <> t -> tasks s' !! v = Some kv' ->
  exists st, status kv' = (wakeup st).2.
Proof.
  intros Hk Ha Hat Hne Hkv'. destruct Ha; try congruence. rewrite H in Hat. injection Hat as ->.
  cbn in Hkv'. rewrite list_lookup_insert_ne in Hkv' by done.
  rewrite list_lookup_insert_eq in Hkv' by (destruct (wakeup (status kw)).1; by eapply lookup_lt_Some).
  injection Hkv' as <-. by eexists.
Qed.

Lemma acts_waking t k s s' v :
  tasks s !! t = Some k -> acts t k s s' -> at_ k <> UnlockWakeup v -> waking s v -> waking s' v.
Proof.
  intros Hk Ha Hat (u & ku & Hku & Hu). destruct (decide (u = t)) as [->|Hne]; [congruence|].
  destruct (acts_rev t k s s' Hk Ha u ku Hne Hku) as (ku' & Hku' & Heq). exists u, ku'. split; [done|congruence].
Qed.

Lemma acts_v_cpu t k s s' c v kv' :
  tasks s !! t = Some k -> current s !! c = Some (Some t) -> inv s -> acts t k s s' -> tasks s' !! v = Some kv' ->
  at_ kv' <> Outside -> at_ kv' <> LockYield -> on_cpu (status kv').
Proof.
  intros Hk Hc Hv Ha Hkv' Ho Hy. destruct (decide (v = t)) as [->|Hne].
  - destruct (acts_v_current t k s s' Hk Hv Ha c t) as (k' & Hk' & Hst); [by rewrite (acts_current t k s s')|].
    rewrite Hkv' in Hk'. injection Hk' as <-. by exists c.
  - destruct (acts_other t k s s' Hk Ha v kv' Hne Hkv') as (kv & Hkv & Hat & _).
    destruct (v_cpu s Hv v kv Hkv) as [d Hd]; [congruence..|].
    destruct (acts_status t k s s' Hk Hv Ha v kv' Hkv') as (kv0 & Hkv0 & Hcase). rewrite Hkv in Hkv0. injection Hkv0 as <-.
    destruct Hcase as [[-> _]|[(e & _ & He)|(_ & Hs & _)]]; [by exists d|by exists e|destruct Hd; congruence].
Qed.

Lemma acts_v_yield t k s s' v kv' :
  tasks s !! t = Some k -> inv s -> acts t k s s' -> tasks s' !! v = Some kv' -> at_ kv' = LockYield ->
  is_woken_up kv' = true -> status kv' = Sleeping \/ (exists c, status kv' = ReadyToSleep c) -> waking s' v.
Proof.
  intros Hk Hv Ha Hkv' Hat Hwk Hst. destruct (decide (v = t)) as [->|Hne].
  { exfalso. destruct Ha; try (erewrite put_self in Hkv' by done; injection Hkv' as <-; cbn in *; congruence).
    - rewrite (put_under t k _ w _ _ s) in Hkv' by done. by injection Hkv' as <-.
    - rewrite (put_under t k _ w _ _ s) in Hkv'; [by injection Hkv' as <-|done|by destruct (wakeup (status kw)).1]. }
  destruct (decide (at_ k = UnlockWakeup v)) as [Hw|Hw].
  { destruct (acts_woken_status t k s s' v kv' Hk Ha Hw Hne Hkv') as [st Heq]. rewrite Heq in Hst.
    destruct st, Hst as [?|[??]]; done. }
  destruct (acts_other t k s s' Hk Ha v kv' Hne Hkv') as (kv & Hkv & Hat' & Hc).
  destruct Hc as [->|[[_ ?]|[? _]]]; [|done|done].
  apply (acts_waking t k s s' v Hk Ha Hw). by apply (v_yield s Hv v kv).
Qed.

(** Evidence other than the task itself stays. *)
Lemma retry_other t k s s' w kw :
  tasks s !! t = Some k -> acts t k s s' -> w <> t -> w ∈ waiters s' -> tasks s !! w = Some kw -> will_retry kw ->
  exists w k, w ∈ waiters s' /\ tasks s' !! w = Some k /\ will_retry k.
Proof.
  intros Hk Ha Hne Hin Hkw Hr. destruct (acts_rev t k s s' Hk Ha w kw Hne Hkw) as (kw' & Hkw' & Hat).
  exists w, kw'. split_and!; [done..|].
  destruct (acts_other t k s s' Hk Ha w kw' Hne Hkw') as (kw0 & Hkw0 & _ & Hc). rewrite Hkw in Hkw0. injection Hkw0 as <-.
  unfold will_retry in *. rewrite Hat. destruct Hc as [->|[[-> _]|[_ ->]]]; [done| |done].
  by destruct (at_ kw).
Qed.

Lemma free_retry s w kw :
  inv s -> mutex s = false -> w ∈ waiters s -> tasks s !! w = Some kw -> is_woken_up kw = true -> will_retry kw.
Proof.
  intros Hv Hm Hin Hkw Hwk. destruct (v_queue s Hv) as (_ & Hq & _). destruct (proj1 (Hq w) Hin) as (k0 & Hk0 & Hqd).
  rewrite Hkw in Hk0. injection Hk0 as <-. unfold will_retry. destruct (at_ kw) eqn:Hat; try done.
  pose proof (count_pos owner _ _ _ Hkw) as Hp. unfold owner at 1 in Hp. rewrite Hat in Hp. specialize (Hp eq_refl).
  rewrite (v_mutex s Hv), Hm in Hp. cbn in Hp. lia.
Qed.

Lemma evidence_other t k s s' :
  tasks s !! t = Some k -> acts t k s s' -> waiters s' = waiters s -> at_ k <> UnlockWake -> ~ will_retry k ->
  evidence s -> evidence s'.
Proof.
  intros Hk Ha Hw Hat Hr [(u & ku & Hku & Hu)|(w & kw & Hin & Hkw & Hrw)].
  - left. destruct (acts_rev t k s s' Hk Ha u ku) as (ku' & ? & ?); [congruence|done|]. exists u, ku'. split; [done|congruence].
  - right. apply (retry_other t k s s' w kw); [done|done|congruence|by rewrite Hw|done|done].
Qed.

(** The task itself is the evidence. *)
Lemma evidence_self t k' s' : tasks s' !! t = Some k' -> t ∈ waiters s' -> will_retry k' -> evidence s'.
Proof. intros Hk' Hin Hr. right. by exists t, k'. Qed.

Lemma acts_v_main t k s s' :
  tasks s !! t = Some k -> inv s -> acts t k s s' -> mutex s' = false -> waiters s' <> [] -> evidence s'.
Proof.
  intros Hk Hv Ha Hm Hw. pose proof (evidence_other t k s s' Hk Ha) as Hoth. pose proof (v_main s Hv) as Hev.
  pose proof (retry_other t k s s') as Hro. destruct (v_queue s Hv) as (_ & Hq & _).
  assert (Hin : queued (at_ k) = true -> t ∈ waiters s) by (intros ?; apply Hq; by exists k).
  pose proof Ha as Ha0. destruct Ha; cbn in Hm, Hw; try congruence;
    try (apply Hoth; [done|congruence|intros Hwr; unfold will_retry in Hwr; by rewrite H in Hwr|by apply Hev]).
  - apply (evidence_self t (MkTask (status k) false LockCond)); [by eapply put_self|left|done].
  - (* sleep *)
    destruct (is_woken_up k) eqn:Hwk.
    + eapply (evidence_self t); [by eapply put_self|by apply Hin; rewrite H|done].
    + apply Hoth; [done|congruence|intros Hwr; unfold will_retry in Hwr; rewrite H in Hwr; congruence|by apply Hev].
  - eapply (evidence_self t); [by eapply put_self|by apply Hin; rewrite H|done].
  - apply Hoth; [done|congruence|intros Hwr; unfold will_retry in Hwr; rewrite H in Hwr; congruence|by apply Hev].
  - destruct (is_woken_up k) eqn:Hwk.
    + eapply (evidence_self t); [by eapply put_self|by apply Hin; rewrite H|done].
    + apply Hoth; [done|congruence|intros Hwr; unfold will_retry in Hwr; rewrite H in Hwr; congruence|by apply Hev].
  - eapply (evidence_self t); [by eapply put_self|by apply Hin; rewrite H|done].
  - exfalso. pose proof (count_pos owner _ _ _ Hk) as Hp. unfold owner at 1 in Hp. rewrite H in Hp.
    specialize (Hp eq_refl). rewrite (v_mutex s Hv), Hm in Hp. cbn in Hp. lia.
  - left. exists t, (goto UnlockWake k). split; [by eapply put_self|done].
  - right. apply (Hro w kw); [done|done| |cbn; rewrite H0; left|done|].
    + intros ->. rewrite Hk in H2. injection H2 as <-. destruct (proj1 (Hq t)) as (k0 & Hk0 & Hqd); [rewrite H0; left|].
      rewrite Hk in Hk0. injection Hk0 as <-. by rewrite H in Hqd.
    + apply (free_retry s w); [done|done|rewrite H0; left|done|done].
  - right. exists w, (set_woken true kw). split_and!; [cbn; rewrite H0; left| |].
    + cbn. rewrite list_lookup_insert_ne by done. apply list_lookup_insert_eq. by eapply lookup_lt_Some.
    + assert (Hqw : queued (at_ kw) = true).
      { destruct (proj1 (Hq w)) as (k0 & Hk0 & Hqd); [rewrite H0; left|]. rewrite H2 in Hk0. by injection Hk0 as <-. }
      unfold will_retry. cbn. destruct (at_ kw) eqn:Hat; try done.
      pose proof (count_pos owner _ _ _ H2) as Hp. unfold owner at 1 in Hp. rewrite Hat in Hp. specialize (Hp eq_refl).
      rewrite (v_mutex s Hv), Hm in Hp. cbn in Hp. lia.
  - apply Hoth; [by destruct (wakeup (status kw)).1|congruence|intros Hwr; unfold will_retry in Hwr; by rewrite H in Hwr|].
    apply Hev; [by destruct (wakeup (status kw)).1|by destruct (wakeup (status kw)).1].
Qed.

Lemma inv_acts t k s s' c :
  tasks s !! t = Some k -> current s !! c = Some (Some t) -> inv s -> acts t k s s' -> inv s'.
Proof.
  intros Hk Hc Hv Ha. constructor.
  - by apply (acts_mutex t k s).
  - by apply (acts_queue t k s).
  - by apply (acts_lock t k s).
  - by apply (acts_v_current t k s).
  - by apply (acts_v_ready t k s).
  - by apply (acts_v_placed t k s).
  - intros v kv. by apply (acts_v_cpu t k s s' c).
  - intros v kv. by apply (acts_v_yield t k s).
  - by apply (acts_v_main t k s).
Qed.

(** * A switch preserves it *)

Section Switch.
Context (c n : nat) (k : task) (s s' : sys).
Hypotheses (Hk : tasks s !! n = Some k) (Hst : status k = Runnable) (Hv : inv s) (Hs : switches c n k s s').

(** Only the status of the two tasks changes. *)
Lemma switch_same v : option_map (fun k => (at_ k, is_woken_up k)) (tasks s' !! v) =
  option_map (fun k => (at_ k, is_woken_up k)) (tasks s !! v).
Proof.
  assert (Hn : forall rdy, option_map (fun k => (at_ k, is_woken_up k)) (tasks (switched c n k rdy s) !! v) =
    option_map (fun k => (at_ k, is_woken_up k)) (tasks s !! v)).
  { intros rdy. cbn. destruct (decide (v = n)) as [->|]; [|by rewrite list_lookup_insert_ne].
    rewrite list_lookup_insert_eq by (by eapply lookup_lt_Some). by rewrite Hk. }
  destruct Hs as [?|u ku Hc Hne Hu _ _|u ku Hc Hne Hu _ _|u ku Hc Hne Hu _]; [apply Hn|..];
    (destruct (decide (v = u)) as [->|]; [|rewrite <- (Hn []); cbn; by rewrite list_lookup_insert_ne]);
    cbn; rewrite list_lookup_insert_eq by (rewrite length_insert; by eapply lookup_lt_Some); by rewrite Hu.
Qed.

Lemma switch_fwd v kv : tasks s !! v = Some kv ->
  exists kv', tasks s' !! v = Some kv' /\ at_ kv' = at_ kv /\ is_woken_up kv' = is_woken_up kv.
Proof.
  intros Hkv. pose proof (switch_same v) as He. rewrite Hkv in He. destruct (tasks s' !! v) as [kv'|]; [|done].
  exists kv'. by injection He.
Qed.

Lemma switch_bwd v kv' : tasks s' !! v = Some kv' ->
  exists kv, tasks s !! v = Some kv /\ at_ kv' = at_ kv /\ is_woken_up kv' = is_woken_up kv.
Proof.
  intros Hkv. pose proof (switch_same v) as He. rewrite Hkv in He. destruct (tasks s !! v) as [kv|]; [|done].
  exists kv. by injection He.
Qed.

(** Where every task is after the switch. *)
Lemma switch_status v kv' : tasks s' !! v = Some kv' ->
  (v = n /\ status kv' = Running c) \/
  (v <> n /\ current s !! c = Some (Some v) /\ exists kv, tasks s !! v = Some kv /\
     (at_ kv' = Outside \/ at_ kv' = LockYield) /\
     ((status kv' = Runnable /\ v ∈ ready s') \/ (status kv' = Sleeping /\ status kv = ReadyToSleep c))) \/
  (v <> n /\ current s !! c <> Some (Some v) /\ tasks s !! v = Some kv').
Proof.
  intros Hkv'. destruct Hs as [Hc|u ku Hc Hne Hu Hp Hr|u ku Hc Hne Hu Hp Hr|u ku Hc Hne Hu Hr].
  - cbn in Hkv'. destruct (decide (v = n)) as [->|].
    + rewrite list_lookup_insert_eq in Hkv' by (by eapply lookup_lt_Some). injection Hkv' as <-. by left.
    + rewrite list_lookup_insert_ne in Hkv' by done. right. right. split_and!; [done|congruence|done].
  - cbn in Hkv'. destruct (decide (v = u)) as [->|].
    { rewrite list_lookup_insert_eq in Hkv' by (rewrite length_insert; by eapply lookup_lt_Some). injection Hkv' as <-.
      right. left. split_and!; [done|done|]. exists ku. split_and!; [done|done|]. left. cbn. set_solver. }
    rewrite list_lookup_insert_ne in Hkv' by done. destruct (decide (v = n)) as [->|].
    + rewrite list_lookup_insert_eq in Hkv' by (by eapply lookup_lt_Some). injection Hkv' as <-. by left.
    + rewrite list_lookup_insert_ne in Hkv' by done. right. right. split_and!; [done|congruence|done].
  - cbn in Hkv'. destruct (decide (v = u)) as [->|].
    { rewrite list_lookup_insert_eq in Hkv' by (rewrite length_insert; by eapply lookup_lt_Some). injection Hkv' as <-.
      right. left. split_and!; [done|done|]. exists ku. split_and!; [done|done|]. by right. }
    rewrite list_lookup_insert_ne in Hkv' by done. destruct (decide (v = n)) as [->|].
    + rewrite list_lookup_insert_eq in Hkv' by (by eapply lookup_lt_Some). injection Hkv' as <-. by left.
    + rewrite list_lookup_insert_ne in Hkv' by done. right. right. split_and!; [done|congruence|done].
  - exfalso. pose proof (v_placed s Hv u ku Hu) as Hpl. by rewrite Hr in Hpl.
Qed.

Lemma switch_current d v : current s' !! d = Some (Some v) ->
  (d = c /\ v = n) \/ (d <> c /\ v <> n /\ current s !! d = Some (Some v)).
Proof.
  assert (Hcur : current s' = <[c := Some n]> (current s)) by (by destruct Hs). rewrite Hcur. intros Hd.
  destruct (decide (d = c)) as [->|Hne].
  - left. split; [done|]. assert (c < length (current s))%nat.
    { apply lookup_lt_Some in Hd. by rewrite length_insert in Hd. }
    rewrite list_lookup_insert_eq in Hd by done. congruence.
  - right. rewrite list_lookup_insert_ne in Hd by done. split_and!; [done| |done]. intros ->.
    destruct (v_current s Hv d n Hd) as (k0 & Hk0 & [Hr|Hr]); congruence.
Qed.

Lemma switch_current_fwd d v : current s !! d = Some (Some v) -> d <> c -> current s' !! d = Some (Some v).
Proof.
  intros Hd Hne. assert (Hcur : current s' = <[c := Some n]> (current s)) by (by destruct Hs).
  rewrite Hcur. by rewrite list_lookup_insert_ne.
Qed.

Lemma switch_ready v : v ∈ ready s' ->
  v <> n /\ (v ∈ ready s \/ exists kv, tasks s' !! v = Some kv /\ status kv = Runnable).
Proof.
  destruct Hs as [Hc|u ku Hc Hne Hu Hp Hr|u ku Hc Hne Hu Hp Hr|u ku Hc Hne Hu Hr]; cbn; unfold others.
  1, 3, 4: intros [? ?]%list_elem_of_filter; auto.
  intros [[? ?]%list_elem_of_filter|Hin]%elem_of_app; [auto|]. apply list_elem_of_singleton in Hin as ->.
  split; [done|]. right. eexists. split; [apply list_lookup_insert_eq; rewrite length_insert; by eapply lookup_lt_Some|done].
Qed.

Lemma switch_ready_fwd v : v ∈ ready s -> v <> n -> v ∈ ready s'.
Proof. intros Hin Hne. destruct Hs; cbn; unfold others; rewrite ?elem_of_app, list_elem_of_filter; auto. Qed.
End Switch.

Lemma switch_placed c n k s s' :
  tasks s !! n = Some k -> status k = Runnable -> inv s -> (c < length (current s))%nat -> switches c n k s s' ->
  (forall d v, current s' !! d = Some (Some v) ->
     exists kv, tasks s' !! v = Some kv /\ (status kv = Running d \/ status kv = ReadyToSleep d)) /\
  (forall v, v ∈ ready s' -> exists kv, tasks s' !! v = Some kv /\ status kv = Runnable) /\
  (forall v kv, tasks s' !! v = Some kv -> placed s' v (status kv)).
Proof.
  intros Hk Hst Hv Hlen Hs. pose proof (switch_status c n k s s' Hk Hst Hv Hs) as Hstat.
  pose proof (switch_fwd c n k s s' Hk Hs) as Hfwd. split_and!.
  - intros d v Hd. destruct (switch_current c n k s s' Hk Hst Hv Hs d v Hd) as [[-> ->]|(Hdc & Hvn & Hd0)].
    + destruct (Hfwd n k Hk) as (kn & Hkn & _). exists kn. split; [done|].
      destruct (Hstat n kn Hkn) as [[_ ?]|[[? _]|[? _]]]; [by left|done|done].
    + destruct (v_current s Hv d v Hd0) as (kv & Hkv & Hrun). destruct (Hfwd v kv Hkv) as (kv' & Hkv' & _).
      exists kv'. split; [done|]. destruct (Hstat v kv' Hkv') as [[? _]|[(_ & Hcv & _)|(_ & _ & Hsame)]]; [done| |].
      * destruct (v_current s Hv c v Hcv) as (k0 & Hk0 & Hr0). rewrite Hkv in Hk0. injection Hk0 as <-.
        destruct Hrun, Hr0; congruence.
      * rewrite Hkv in Hsame. by injection Hsame as <-.
  - intros v Hin. destruct (switch_ready c n k s s' Hs v Hin) as [Hvn [Hr|?]]; [|done].
    destruct (v_ready s Hv v Hr) as (kv & Hkv & Hrun). destruct (Hfwd v kv Hkv) as (kv' & Hkv' & _).
    exists kv'. split; [done|]. destruct (Hstat v kv' Hkv') as [[? _]|[(_ & Hcv & _)|(_ & _ & Hsame)]]; [done| |congruence].
    destruct (v_current s Hv c v Hcv) as (k0 & Hk0 & Hr0). rewrite Hkv in Hk0. injection Hk0 as <-. destruct Hr0; congruence.
  - intros v kv' Hkv'. destruct (Hstat v kv' Hkv') as [[-> ->]|[(_ & _ & kv & _ & _ & [[-> ?]|[-> _]])|(Hvn & Hcv & Hsame)]];
      [|done|done|].
    + cbn. assert (Hcur : current s' = <[c := Some n]> (current s)) by (by destruct Hs). rewrite Hcur. by apply list_lookup_insert_eq.
    + pose proof (v_placed s Hv v kv' Hsame) as Hp. destruct (status kv'); cbn in *; try done.
      * by apply (switch_ready_fwd c n k s s').
      * apply (switch_current_fwd c n k s s' Hs); [done|congruence].
      * apply (switch_current_fwd c n k s s' Hs); [done|congruence].
Qed.

Lemma inv_switch c n k s s' :
  tasks s !! n = Some k -> status k = Runnable -> inv s -> (c < length (current s))%nat -> switches c n k s s' -> inv s'.
Proof.
  intros Hk Hst Hv Hlen Hs. destruct (switch_placed c n k s s' Hk Hst Hv Hlen Hs) as (Hp1 & Hp2 & Hp3).
  pose proof (switch_status c n k s s' Hk Hst Hv Hs) as Hstat.
  pose proof (switch_fwd c n k s s' Hk Hs) as Hfwd. pose proof (switch_bwd c n k s s' Hk Hs) as Hbwd.
  assert (Hsame : mutex s' = mutex s /\ waiters s' = waiters s /\ waiters_lock s' = waiters_lock s) by (by destruct Hs).
  destruct Hsame as (Hm & Hw & Hl). destruct (v_queue s Hv) as (Hnd & Hin & Hup). constructor; try done.
  - rewrite Hm, <- (v_mutex s Hv), !(count_fmap owner). f_equal. apply list_eq. intros v. rewrite !list_lookup_fmap.
    pose proof (switch_same c n k s s' Hk Hs v) as He. destruct (tasks s' !! v), (tasks s !! v); try done.
    injection He as He _. cbn. unfold owner. by rewrite He.
  - unfold queue_ok. rewrite Hw. split_and!; [done| |].
    + intros v. rewrite Hin. split; intros (kv & Hkv & Hq).
      * destruct (Hfwd v kv Hkv) as (kv' & ? & Hat & _). exists kv'. by rewrite Hat.
      * destruct (Hbwd v kv Hkv) as (kv0 & ? & Hat & _). exists kv0. by rewrite <- Hat.
    + intros v kv w Hkv Hat. destruct (Hbwd v kv Hkv) as (kv0 & ? & Hat0 & _). apply (Hup v kv0); [done|congruence].
  - intros v kv w Hkv Hat. rewrite Hl. destruct (Hbwd v kv Hkv) as (kv0 & ? & Hat0 & _).
    apply (v_lock s Hv v kv0 w); [done|congruence].
  - intros v kv Hkv Ho Hy. destruct (Hstat v kv Hkv) as [[_ ->]|[(_ & _ & k0 & _ & Hpc & _)|(_ & _ & Hkv0)]].
    + exists c. by left.
    + by destruct Hpc.
    + by apply (v_cpu s Hv v kv).
  - intros v kv Hkv Hat Hwk Hslp.
    assert (Hwak : waking s v -> waking s' v).
    { intros (u & ku & Hku & Hu). destruct (Hfwd u ku Hku) as (ku' & ? & Hat' & _). exists u, ku'. split; [done|congruence]. }
    destruct (Hstat v kv Hkv) as [[_ Hr]|[(_ & _ & k0 & Hk0 & _ & [[Hr _]|[_ Hr]])|(_ & _ & Hkv0)]].
    + destruct Hslp as [|[??]]; congruence.
    + destruct Hslp as [|[??]]; congruence.
    + apply Hwak. destruct (Hbwd v kv Hkv) as (kv0 & Hkv0 & Hat0 & Hwk0). rewrite Hk0 in Hkv0. injection Hkv0 as <-.
      apply (v_yield s Hv v k0); [done|congruence|congruence|]. right. by exists c.
    + apply Hwak. by apply (v_yield s Hv v kv).
  - rewrite Hm, Hw. intros Hfree Hne. destruct (v_main s Hv Hfree Hne) as [(u & ku & Hku & Hu)|(w & kw & Hiw & Hkw & Hr)].
    + left. destruct (Hfwd u ku Hku) as (ku' & ? & Hat & _). exists u, ku'. split; [done|congruence].
    + right. destruct (Hfwd w kw Hkw) as (kw' & ? & Hat & Hwk). exists w, kw'. rewrite Hw. split_and!; [done..|].
      unfold will_retry in *. by rewrite Hat, Hwk.
Qed.

Lemma inv_step s s' : sys_step s s' -> inv s -> inv s'.
Proof.
  intros [c t s0 s1 Hc Hstep|c n s0 s1 Hp Hn Hstep] Hv.
  - destruct (v_current s0 Hv c t Hc) as (k & Hk & _).
    apply (inv_acts t k s0 s1 c Hk Hc Hv). by apply step_task_acts; [apply Hv|..].
  - destruct (switch_to_switches c n s0 s1 Hp Hstep) as (k & Hk & Hst & Hs).
    apply (inv_switch c n k s0 s1 Hk Hst Hv); [|done].
    unfold sched_point in Hp. destruct (current s0 !! c) eqn:Hc; [|done]. by eapply lookup_lt_Some.
Qed.

(** A task on a processor, or one the scheduler can pick. *)
Definition schedulable (s : sys) (t : nat) : Prop := (exists c, current s !! c = Some (Some t)) \/ t ∈ ready s.

Lemma on_cpu_schedulable s t k : inv s -> tasks s !! t = Some k -> on_cpu (status k) -> schedulable s t.
Proof.
  intros Hv Hk [c Hc]. left. exists c. pose proof (v_placed s Hv t k Hk) as Hp.
  destruct Hc as [Hc|Hc]; by rewrite Hc in Hp.
Qed.

(** C14: the sleeping mutex, under every interleaving of any number of tasks on
    any number of processors: at most one task holds it; and no wake-up is
    lost: while the mutex is free and tasks wait in its queue, there is a task
    on a processor that is about to wake the first of them, or a waiter that
    will try to lock again, which itself can run or is being woken by a task
    that can. *)
Theorem mutex_no_lost_wakeup n m s :
  rtc sys_step (sys_init n m) s ->
  (forall t u kt ku, tasks s !! t = Some kt -> tasks s !! u = Some ku -> owner kt = true -> owner ku = true -> t = u) /\
  (mutex s = false -> waiters s <> [] ->
     exists t k, tasks s !! t = Some k /\ (at_ k = UnlockWake \/ t ∈ waiters s /\ will_retry k) /\
       (schedulable s t \/ exists u ku, tasks s !! u = Some ku /\ at_ ku = UnlockWakeup t /\ schedulable s u)).
Proof.
  intros Hr. assert (Hv : inv s) by (apply (rtc_invariant _ _ _ _ inv_step Hr), inv_init). split.
  - intros t u kt ku Ht Hu Hot Hou. destruct (decide (t = u)) as [|Hne]; [done|exfalso].
    pose proof (count_two owner _ _ _ _ _ Hne Ht Hu Hot Hou) as H2. rewrite (v_mutex s Hv) in H2.
    destruct (mutex s); cbn in H2; lia.
  - intros Hm Hw. destruct (v_main s Hv Hm Hw) as [(u & k & Hk & Hat)|(w & k & Hin & Hk & Hrt)].
    + exists u, k. split_and!; [done|by left|left]. apply (on_cpu_schedulable s u k Hv Hk). apply (v_cpu s Hv u k Hk); congruence.
    + exists w, k. split_and!; [done|by right|]. destruct (decide (at_ k = LockYield)) as [Hy|Hy]; cycle 1.
      { left. apply (on_cpu_schedulable s w k Hv Hk), (v_cpu s Hv w k Hk); [|done]. intros Ho. unfold will_retry in Hrt. by rewrite Ho in Hrt. }
      unfold will_retry in Hrt. rewrite Hy in Hrt. pose proof (v_placed s Hv w k Hk) as Hp.
      destruct (status k) eqn:Hst; try done.
      * by left; right.
      * left. left. by exists cpu.
      * right. destruct (v_yield s Hv w k Hk Hy Hrt) as (u & ku & Hku & Hu); [by left|]. exists u, ku. split_and!; [done..|].
        apply (on_cpu_schedulable s u ku Hv Hku), (v_cpu s Hv u ku Hku); congruence.
      * left. left. by exists cpu.
Qed.

(** Task 0 has released the mutex that task 1 waits for. *)
Lemma mutex_no_lost_wakeup_witness :
  exists s, rtc sys_step (sys_init 3 2) s /\ mutex s = false /\ waiters s = [1%nat] /\
    exists t k, tasks s !! t = Some k /\ (at_ k = UnlockWake \/ t ∈ waiters s /\ will_retry k).
Proof.
  destruct (exec [Switch 0 0; Switch 1 1; Run 0; Run 0; Run 1; Run 1; Run 1; Run 1; Run 0] (sys_init 3 2))
    as [s|] eqn:Hrun; [|done].
  assert (Hr : rtc sys_step (sys_init 3 2) s) by (by eapply exec_steps).
  exists s. assert (Hs : mutex s = false /\ waiters s = [1%nat]) by (vm_compute in Hrun; by injection Hrun as <-).
  destruct Hs as [Hm Hw]. split_and!; [done..|].
  destruct (mutex_no_lost_wakeup 3 2 s Hr) as [_ H]. destruct (H Hm ltac:(by rewrite Hw)) as (t & k & Hk & Ht & _).
  by exists t, k.
Defined.
