(* ===== verification/Credentials.v ===== *)
(** Process credentials (kernel/aster-nix/src/process/credentials) and the
    system calls that change them (syscall/setuid.rs, setreuid.rs and their
    kin, and the set-user-id part of syscall/execve.rs). *)

From S2P Require Import Prelude BTree Perms.

(** * Credentials ([Credentials_]); a [Uid] and a [Gid] is a [u32] *)

Notation ROOT_UID := 0%Z (only parsing).
Notation uid_is_root uid := (uid =? ROOT_UID)%Z (only parsing).

Record Credentials : Type := MkCredentials {
  c_ruid : Z; c_euid : Z; c_suid : Z; c_fsuid : Z;
  c_rgid : Z; c_egid : Z; c_sgid : Z; c_fsgid : Z;
  c_groups : list (Z * unit);
}.

Definition credM (A : Type) : Type := stM Credentials Errno A.

Definition put_uids (r e s fs : Z) (c : Credentials) : Credentials :=
  MkCredentials r e s fs (c_rgid c) (c_egid c) (c_sgid c) (c_fsgid c) (c_groups c).
Definition put_gids (r e s fs : Z) (c : Credentials) : Credentials :=
  MkCredentials (c_ruid c) (c_euid c) (c_suid c) (c_fsuid c) r e s fs (c_groups c).
Definition put_groups (l : list (Z * unit)) (c : Credentials) : Credentials :=
  MkCredentials (c_ruid c) (c_euid c) (c_suid c) (c_fsuid c) (c_rgid c) (c_egid c) (c_sgid c) (c_fsgid c) l.

Definition modify_cred (f : Credentials -> Credentials) : credM unit := fun c => (Ok tt, f c).
Definition with_cred {A} (f : Credentials -> credM A) : credM A := fun c => f c c.

(** [Credentials_::new] *)
Definition credentials_new (uid gid : Z) : Credentials :=
  MkCredentials uid uid uid uid gid gid gid gid (bt_insert gid tt []).

Definition is_privileged (c : Credentials) : bool := uid_is_root (c_euid c).

(** ** User ids *)

Definition set_uid (uid : Z) : credM unit :=
  modify_cred (fun c =>
    if is_privileged c then put_uids uid uid uid (c_fsuid c) c
    else put_uids (c_ruid c) uid (c_suid c) (c_fsuid c) c).

(** [is_some_and(|x| x != v)] *)
Definition some_and_ne (o : option Z) (v : Z) : bool := match o with Some x => negb (x =? v) | None => false end.

(** One guard of [check_uid_perm] and [check_gid_perm]. *)
Definition not_one_of (o : option Z) (allowed : list Z) : bool :=
  match o with Some x => forallb (fun v => negb (x =? v)) allowed | None => false end.

Definition check_uid_perm (ruid euid suid : option Z) (ruid_may_be_old_suid : bool) : credM unit :=
  with_cred (fun c =>
    if is_privileged c then sret tt
    else if not_one_of ruid (c_ruid c :: c_euid c :: if ruid_may_be_old_suid then [c_suid c] else []) then serr EPERM
    else if not_one_of euid [c_ruid c; c_euid c; c_suid c] then serr EPERM
    else if not_one_of suid [c_ruid c; c_euid c; c_suid c] then serr EPERM
    else sret tt).

Definition set_resuid_unchecked (ruid euid suid : option Z) : credM unit :=
  modify_cred (fun c =>
    put_uids (default (c_ruid c) ruid) (default (c_euid c) euid) (default (c_suid c) suid) (c_fsuid c) c).

Definition set_reuid (ruid euid : option Z) : credM unit :=
  let! _ := check_uid_perm ruid euid None false in
  with_cred (fun c =>
    let should_set_suid := bool_decide (is_Some ruid) || some_and_ne euid (c_ruid c) in
    let! _ := set_resuid_unchecked ruid euid None in
    let! _ := (if should_set_suid
               then modify_cred (fun c => put_uids (c_ruid c) (c_euid c) (c_euid c) (c_fsuid c) c) else sret tt) in
    modify_cred (fun c => put_uids (c_ruid c) (c_euid c) (c_suid c) (c_euid c) c)).

Definition set_resuid (ruid euid suid : option Z) : credM unit :=
  let! _ := check_uid_perm ruid euid suid true in
  let! _ := set_resuid_unchecked ruid euid suid in
  modify_cred (fun c => put_uids (c_ruid c) (c_euid c) (c_suid c) (c_euid c) c).

Definition set_fsuid (fsuid : option Z) : credM Z :=
  with_cred (fun c =>
    let old_fsuid := c_fsuid c in
    match fsuid with
    | None => sret old_fsuid
    | Some fsuid =>
        let put := modify_cred (fun c => put_uids (c_ruid c) (c_euid c) (c_suid c) fsuid c) in
        if is_privileged c then let! _ := put in sret old_fsuid
        else if negb (fsuid =? c_ruid c) && negb (fsuid =? c_euid c) && negb (fsuid =? c_suid c) then serr EPERM
        else let! _ := put in sret old_fsuid
    end).


(** ** Group ids *)


Definition check_gid_perm (rgid egid sgid : option Z) (rgid_may_be_old_sgid : bool) : credM unit :=
  with_cred (fun c =>
    if is_privileged c then sret tt
    else if not_one_of rgid (c_rgid c :: c_egid c :: if rgid_may_be_old_sgid then [c_sgid c] else []) then serr EPERM
    else if not_one_of egid [c_rgid c; c_egid c; c_sgid c] then serr EPERM
    else if not_one_of sgid [c_rgid c; c_egid c; c_sgid c] then serr EPERM
    else sret tt).

Definition set_resgid_unchecked (rgid egid sgid : option Z) : credM unit :=
  modify_cred (fun c =>
    put_gids (default (c_rgid c) rgid) (default (c_egid c) egid) (default (c_sgid c) sgid) (c_fsgid c) c).

Definition set_regid (rgid egid : option Z) : credM unit :=
  let! _ := check_gid_perm rgid egid None false in
  with_cred (fun c =>
    let should_set_sgid := bool_decide (is_Some rgid) || some_and_ne egid (c_rgid c) in
    let! _ := set_resgid_unchecked rgid egid None in
    let! _ := (if should_set_sgid
               then modify_cred (fun c => put_gids (c_rgid c) (c_egid c) (c_egid c) (c_fsgid c) c) else sret tt) in
    modify_cred (fun c => put_gids (c_rgid c) (c_egid c) (c_sgid c) (c_egid c) c)).

Definition set_resgid (rgid egid sgid : option Z) : credM unit :=
  let! _ := check_gid_perm rgid egid sgid true in
  let! _ := set_resgid_unchecked rgid egid sgid in
  modify_cred (fun c => put_gids (c_rgid c) (c_egid c) (c_sgid c) (c_egid c) c).

Definition set_fsgid (fsgid : option Z) : credM Z :=
  with_cred (fun c =>
    let old_fsgid := c_fsgid c in
    match fsgid with
    | None => sret old_fsgid
    | Some fsgid =>
        let put := modify_cred (fun c => put_gids (c_rgid c) (c_egid c) (c_sgid c) fsgid c) in
        if is_privileged c then let! _ := put in sret old_fsgid
        else if negb (fsgid =? c_rgid c) && negb (fsgid =? c_egid c) && negb (fsgid =? c_sgid c) then serr EPERM
        else let! _ := put in sret old_fsgid
    end).


(** * System calls

    The arguments are [i32]; a value [as u32] is the value modulo [2^32]. *)

Definition as_u32 (z : Z) : Z := z mod 2 ^ 32.

(** [if id > 0 { Some(Uid::new(id as u32)) } else { None }] *)
Definition positive_id (id : Z) : option Z := if 0 <? id then Some (as_u32 id) else None.
Definition nonneg_id (id : Z) : option Z := if id <? 0 then None else Some (as_u32 id).

Definition sys_setuid (uid : Z) : credM Z :=
  if uid <? 0 then serr EINVAL else let! _ := set_uid (as_u32 uid) in sret 0.

Definition sys_setreuid (ruid euid : Z) : credM Z :=
  let! _ := set_reuid (positive_id ruid) (positive_id euid) in sret 0.
Definition sys_setregid (rgid egid : Z) : credM Z :=
  let! _ := set_regid (positive_id rgid) (positive_id egid) in sret 0.
Definition sys_setresuid (ruid euid suid : Z) : credM Z :=
  let! _ := set_resuid (positive_id ruid) (positive_id euid) (positive_id suid) in sret 0.
Definition sys_setresgid (rgid egid sgid : Z) : credM Z :=
  let! _ := set_resgid (positive_id rgid) (positive_id egid) (positive_id sgid) in sret 0.
Definition sys_setfsuid (uid : Z) : credM Z := set_fsuid (nonneg_id uid).
Definition sys_setfsgid (gid : Z) : credM Z := set_fsgid (nonneg_id gid).

Notation NGROUPS_MAX := 65536%Z (only parsing).

(** Reading a [Gid] of the caller's memory may fail. *)
Section Groups.
Context (read_user : Z -> outcome Errno Z).

Fixpoint read_groups (base idx : Z) (n : nat) (acc : list (Z * unit)) : outcome Errno (list (Z * unit)) :=
  match n with
  | O => Ok acc
  | S n =>
      let? addr := uadd base (idx * 4) in
      let? gid := read_user addr in
      read_groups base (idx + 1) n (bt_insert gid tt acc)
  end.

Definition sys_setgroups (size group_list_addr : Z) : credM Z :=
  if NGROUPS_MAX <? size then serr EINVAL
  else
    let! new_groups := slift (read_groups group_list_addr 0 (Z.to_nat size) []) in
    let! _ := modify_cred (put_groups new_groups) in
    sret 0.
End Groups.


(** * Privilege *)

(** The system calls that check what an unprivileged caller may set. *)
Inductive cred_call : Type :=
  | Setreuid (ruid euid : Z)
  | Setresuid (ruid euid suid : Z)
  | Setfsuid (uid : Z)
  | Setregid (rgid egid : Z)
  | Setresgid (rgid egid sgid : Z)
  | Setfsgid (gid : Z)
  | Setgroups (size addr : Z).

Definition cred_run (read_user : Z -> outcome Errno Z) (k : cred_call) : credM Z :=
  match k with
  | Setreuid r e => sys_setreuid r e
  | Setresuid r e s => sys_setresuid r e s
  | Setfsuid u => sys_setfsuid u
  | Setregid r e => sys_setregid r e
  | Setresgid r e s => sys_setresgid r e s
  | Setfsgid g => sys_setfsgid g
  | Setgroups n a => sys_setgroups read_user n a
  end.

(** The credentials after a sequence of calls, whatever each returned. *)
Definition cred_runs (read_user : Z -> outcome Errno Z) (ks : list cred_call) (c : Credentials) : Credentials :=
  foldl (fun c k => (cred_run read_user k c).2) c ks.

Definition uids (c : Credentials) : list Z := [c_ruid c; c_euid c; c_suid c].

Lemma not_one_of_false o l : not_one_of o l = false -> forall x, o = Some x -> x ∈ l.
Proof.
  intros Hn x Hx. rewrite Hx in Hn. cbn in Hn. induction l as [|v l IH]; [done|]. cbn in Hn.
  destruct (Z.eqb_spec x v) as [Heq|]; [rewrite Heq; left|right; by apply IH].
Qed.

Lemma default_in (o : option Z) d (l : list Z) : (forall x, o = Some x -> x ∈ l) -> d ∈ l -> default d o ∈ l.
Proof. destruct o; cbn; auto. Qed.

(** The checks leave the credentials alone; when they let an unprivileged
    caller pass, the ids are ones it has. *)
Lemma check_uid_perm_spec r e s b c :
  is_privileged c = false ->
  check_uid_perm r e s b c = (Err EPERM, c) \/
  (check_uid_perm r e s b c = (Ok tt, c) /\
   (forall x, r = Some x -> x ∈ uids c) /\ (forall x, e = Some x -> x ∈ uids c) /\ (forall x, s = Some x -> x ∈ uids c)).
Proof.
  intros Hp. unfold check_uid_perm, with_cred. rewrite Hp.
  destruct (not_one_of r _) eqn:Hr; [by left|]. destruct (not_one_of e _) eqn:He; [by left|].
  destruct (not_one_of s _) eqn:Hs; [by left|]. right. split; [done|]. split_and!; [|by apply not_one_of_false..].
  intros x Hx. pose proof (not_one_of_false _ _ Hr x Hx) as Hin. unfold uids. destruct b; set_solver.
Qed.

Definition uids_in (S : list Z) (c : Credentials) : Prop := c_ruid c ∈ S /\ c_euid c ∈ S /\ c_suid c ∈ S.

Lemma uids_sub S c x : uids_in S c -> x ∈ uids c -> x ∈ S.
Proof. intros (? & ? & ?). unfold uids. set_solver. Qed.

Lemma uids_kept S c c' : uids c' = uids c -> uids_in S c -> uids_in S c'.
Proof. unfold uids, uids_in. by intros [= -> -> ->]. Qed.

Lemma check_gid_perm_keep r e s b c : check_gid_perm r e s b c = (Err EPERM, c) \/ check_gid_perm r e s b c = (Ok tt, c).
Proof. unfold check_gid_perm, with_cred. repeat case_match; auto. Qed.

Section Unprivileged.
Context (S : list Z) (read_user : Z -> outcome Errno Z).
Hypothesis (Hroot : ROOT_UID ∉ S).

Lemma in_unprivileged c : uids_in S c -> is_privileged c = false.
Proof. intros (_ & He & _). unfold is_privileged. zbool; [congruence|done]. Qed.

Lemma resuid_in r e s b c :
  uids_in S c -> check_uid_perm r e s b c = (Ok tt, c) ->
  uids_in S (put_uids (default (c_ruid c) r) (default (c_euid c) e) (default (c_suid c) s) (c_fsuid c) c).
Proof.
  intros Hin Hc. destruct (check_uid_perm_spec r e s b c (in_unprivileged c Hin)) as [He|(_ & Hr & He & Hs)]; [congruence|].
  pose proof Hin as (H1 & H2 & H3). split_and!; cbn; (apply default_in; [|done]); intros x Hx; apply (uids_sub S c); auto.
Qed.

Lemma cred_run_in k c : uids_in S c -> uids_in S (cred_run read_user k c).2.
Proof.
  intros Hin. pose proof (in_unprivileged c Hin) as Hp. pose proof Hin as (H1 & H2 & H3). destruct k; cbn [cred_run].
  - unfold sys_setreuid, set_reuid, sbind at 1 2.
    destruct (check_uid_perm_spec (positive_id ruid) (positive_id euid) None false c Hp) as [He|(Hc & _)]; [by rewrite He|].
    rewrite Hc. pose proof (resuid_in _ _ _ _ c Hin Hc) as (G1 & G2 & G3). cbn. by destruct (_ || _).
  - unfold sys_setresuid, set_resuid, sbind at 1 2.
    destruct (check_uid_perm_spec (positive_id ruid) (positive_id euid) (positive_id suid) true c Hp) as [He|(Hc & _)];
      [by rewrite He|].
    rewrite Hc. by pose proof (resuid_in _ _ _ _ c Hin Hc) as (G1 & G2 & G3).
  - unfold sys_setfsuid, set_fsuid, with_cred. destruct (nonneg_id uid); [|done]. rewrite Hp. by destruct (_ && _).
  - apply (uids_kept S c); [|done]. unfold sys_setregid, set_regid, sbind at 1 2.
    destruct (check_gid_perm_keep (positive_id rgid) (positive_id egid) None false c) as [-> | ->]; [done|].
    cbn. by destruct (_ || _).
  - apply (uids_kept S c); [|done]. unfold sys_setresgid, set_resgid, sbind at 1 2.
    by destruct (check_gid_perm_keep (positive_id rgid) (positive_id egid) (positive_id sgid) true c) as [-> | ->].
  - unfold sys_setfsgid, set_fsgid, with_cred. destruct (nonneg_id gid); [|done]. rewrite Hp. by destruct (_ && _).
  - unfold sys_setgroups. destruct (_ <? _); [done|]. unfold sbind, slift. by destruct (read_groups _ _ _ _ _).
Qed.

Lemma cred_runs_in ks c : uids_in S c -> uids_in S (cred_runs read_user ks c).
Proof. revert c. induction ks as [|k ks IH]; intros c Hc; [done|]. cbn. by apply IH, cred_run_in. Qed.
End Unprivileged.

(** C21: privilege.  A caller none of whose real, effective and saved user ids
    is root stays unprivileged through every sequence of [setreuid],
    [setresuid], [setfsuid], their group counterparts and [setgroups], and its
    user ids stay among those it had.  But [setuid(0)] makes any caller
    privileged: an unprivileged [set_uid] stores any effective user id. *)
Theorem credentials_escalation (c : Credentials) :
  (ROOT_UID ∉ uids c -> forall read_user ks,
     is_privileged (cred_runs read_user ks c) = false /\
     forall x, x ∈ uids (cred_runs read_user ks c) -> x ∈ uids c) /\
  sys_setuid 0 c = (Ok 0, put_uids (if is_privileged c then 0 else c_ruid c) 0
                            (if is_privileged c then 0 else c_suid c) (c_fsuid c) c) /\
  is_privileged (sys_setuid 0 c).2 = true.
Proof.
  split.
  - intros Hroot read_user ks.
    assert (Hin : uids_in (uids c) (cred_runs read_user ks c)).
    { apply (cred_runs_in (uids c) read_user Hroot). unfold uids_in, uids. set_solver. }
    split; [by apply (in_unprivileged (uids c))|]. intros x. by apply uids_sub.
  - unfold sys_setuid, set_uid, modify_cred, sbind, sret. cbn. by destruct (is_privileged c).
Qed.

Lemma credentials_escalation_witness :
  is_privileged (cred_runs (fun _ => Err EFAULT) [Setresuid 1000 1001 1000; Setreuid 7 0] (credentials_new 1000 5)) = false /\
  is_privileged (sys_setuid 0 (credentials_new 1000 5)).2 = true.
Proof.
  destruct (credentials_escalation (credentials_new 1000 5)) as (Hno & _ & Hesc). split; [|done].
  apply Hno. vm_compute. set_solver.
Defined.
