(* ===== verification/Pod.v ===== *)
(** Plain-old-data values as bytes in little-endian order, and the user memory
    of a process as the kernel reads and writes it (kernel/aster-nix/src/util/
    mod.rs, whose functions call [read_bytes] and [write_bytes] of the root
    VMAR). *)

From S2P Require Import Prelude Perms.

(** * Little-endian words; a byte is a [Z] *)

Fixpoint le_bytes (n : nat) (z : Z) : list Z :=
  match n with
  | O => []
  | S n' => z mod 256 :: le_bytes n' (z / 256)
  end.

Fixpoint le_val (l : list Z) : Z :=
  match l with
  | [] => 0
  | b :: l' => b + 256 * le_val l'
  end.

Definition zeros (n : nat) : list Z := replicate n 0.

Lemma le_bytes_length n z : length (le_bytes n z) = n.
Proof. revert z. induction n as [|n IH]; intros z; simpl; [done|]. by rewrite IH. Qed.

Lemma le_val_bytes n z : 0 <= z < 256 ^ Z.of_nat n -> le_val (le_bytes n z) = z.
Proof.
  revert z. induction n as [|n IH]; intros z Hz; cbn [le_bytes le_val].
  - simpl in Hz. lia.
  - rewrite Nat2Z.inj_succ, Z.pow_succ_r in Hz by lia.
    rewrite IH; [pose proof (Z.div_mod z 256); lia|].
    split; [apply Z.div_pos; lia|]. apply Z.div_lt_upper_bound; lia.
Qed.

Lemma le8_roundtrip z : 0 <= z < 2 ^ 64 -> le_val (le_bytes 8 z) = z.
Proof. intros. by apply le_val_bytes. Qed.

(** The bytes [off .. off + len] of a value. *)
Definition field (off len : nat) (l : list Z) : list Z := take len (drop off l).

Lemma field_app off (pre mid post : list Z) (len : nat) :
  length pre = off -> length mid = len -> field off len (pre ++ mid ++ post) = mid.
Proof.
  intros <- <-. unfold field. rewrite drop_app_length. by rewrite take_app_length.
Qed.

(** * User memory

    A read may change the memory as well: it commits the pages it touches. *)

Class UserMem (M : Type) : Type := {
  read_user : Z -> nat -> stM M Errno (list Z);
  write_user : Z -> list Z -> stM M Errno unit;
}.

Definition disjoint_ranges (a : Z) (n : nat) (b : Z) (k : nat) : Prop :=
  a + Z.of_nat n <= b \/ b + Z.of_nat k <= a.

(** What the kernel relies on: a completed write is read back, and it leaves
    the other addresses as they are. *)
Class UserMemLaws (M : Type) `{UserMem M} : Prop := {
  user_write_read a bs m :
    (write_user a bs m).1 = Ok tt -> (read_user a (length bs) (write_user a bs m).2).1 = Ok bs;
  user_write_other a n b bs m x :
    (write_user b bs m).1 = Ok tt -> disjoint_ranges a n b (length bs) ->
    (read_user a n m).1 = Ok x -> (read_user a n (write_user b bs m).2).1 = Ok x;
}.

(** Memory backed everywhere between two addresses. *)
Record flat_mem : Type := FlatMem { fm_lo : Z; fm_hi : Z; fm_byte : Z -> Z }.

#[export] Instance flat_user_mem : UserMem flat_mem := {
  read_user a n m :=
    if (fm_lo m <=? a) && (a + Z.of_nat n <=? fm_hi m)
    then (Ok ((fun i => fm_byte m (a + Z.of_nat i)) <$> seq 0 n), m) else (Err EFAULT, m);
  write_user a bs m :=
    if (fm_lo m <=? a) && (a + Z.of_nat (length bs) <=? fm_hi m)
    then (Ok tt, FlatMem (fm_lo m) (fm_hi m)
                   (fun x => if decide (a <= x < a + Z.of_nat (length bs))
                             then default 0 (bs !! Z.to_nat (x - a)) else fm_byte m x))
    else (Err EFAULT, m);
}.

#[export] Instance flat_user_mem_laws : UserMemLaws flat_mem.
Proof.
  split.
  - intros a bs m Hw. cbn in *. destruct (_ && _) eqn:Hc; [|done]. cbn. rewrite Hc. cbn. f_equal.
    apply list_eq. intros i. rewrite list_lookup_fmap.
    destruct (decide (i < length bs)%nat) as [Hi|Hi].
    + rewrite lookup_seq_lt by done. cbn. rewrite decide_True by lia.
      replace (Z.to_nat (a + Z.of_nat i - a)) with i by lia.
      destruct (lookup_lt_is_Some_2 bs i Hi) as [b Hb]. by rewrite Hb.
    + rewrite lookup_seq_ge by lia. symmetry. apply lookup_ge_None. lia.
  - intros a n b bs m x Hw Hd Hr. cbn in *.
    destruct ((fm_lo m <=? b) && _) eqn:Hc; [|done]. cbn.
    destruct ((fm_lo m <=? a) && _) eqn:Hc2; [|done]. cbn in *. rewrite <- Hr. f_equal.
    apply list_fmap_ext. intros i k Hk. apply lookup_seq in Hk as [-> Hlt].
    unfold disjoint_ranges in Hd. rewrite decide_False by lia. done.
Qed.
