(* ===== verification/Signals.v ===== *)
(** Signals (kernel/aster-nix/src/process/signal, process/kill.rs, the signal
    state of process/posix_thread/mod.rs and the system calls on it): numbers,
    masks, pending queues, dispositions, permission to send, delivery to a
    user handler and return from it. *)

From S2P Require Import Prelude BTree AlignExt Perms Credentials Pod.

(** * Signal numbers (sig_num.rs, constants.rs): a [SigNum] is a [u8] from 1 to 64 *)

Notation MIN_STD_SIG_NUM := (1)%Z (only parsing).
Notation MAX_STD_SIG_NUM := (31)%Z (only parsing).
Notation MIN_RT_SIG_NUM := (32)%Z (only parsing).
Notation MAX_RT_SIG_NUM := (64)%Z (only parsing).
Notation COUNT_STD_SIGS := (31)%nat (only parsing).
Notation COUNT_RT_SIGS := (33)%nat (only parsing).
Notation COUNT_ALL_SIGS := (64)%nat (only parsing).

Notation SIGHUP := (1)%Z (only parsing).
Notation SIGINT := (2)%Z (only parsing).
Notation SIGQUIT := (3)%Z (only parsing).
Notation SIGILL := (4)%Z (only parsing).
Notation SIGTRAP := (5)%Z (only parsing).
Notation SIGABRT := (6)%Z (only parsing).
Notation SIGBUS := (7)%Z (only parsing).
Notation SIGFPE := (8)%Z (only parsing).
Notation SIGKILL := (9)%Z (only parsing).
Notation SIGUSR1 := (10)%Z (only parsing).
Notation SIGSEGV := (11)%Z (only parsing).
Notation SIGUSR2 := (12)%Z (only parsing).
Notation SIGPIPE := (13)%Z (only parsing).
Notation SIGALRM := (14)%Z (only parsing).
Notation SIGTERM := (15)%Z (only parsing).
Notation SIGSTKFLT := (16)%Z (only parsing).
Notation SIGCHLD := (17)%Z (only parsing).
Notation SIGCONT := (18)%Z (only parsing).
Notation SIGSTOP := (19)%Z (only parsing).
Notation SIGTSTP := (20)%Z (only parsing).
Notation SIGTTIN := (21)%Z (only parsing).
Notation SIGTTOU := (22)%Z (only parsing).
Notation SIGURG := (23)%Z (only parsing).
Notation SIGXCPU := (24)%Z (only parsing).
Notation SIGXFSZ := (25)%Z (only parsing).
Notation SIGVTALRM := (26)%Z (only parsing).
Notation SIGPROF := (27)%Z (only parsing).
Notation SIGWINCH := (28)%Z (only parsing).
Notation SIGIO := (29)%Z (only parsing).
Notation SIGPWR := (30)%Z (only parsing).
Notation SIGSYS := (31)%Z (only parsing).

(** [SigNum::try_from] *)
Definition signum_try_from (n : Z) : outcome Errno Z :=
  if (MIN_STD_SIG_NUM <=? n) && (n <=? MAX_RT_SIG_NUM) then Ok n else Err EINVAL.

Notation is_std n := (n <=? MAX_STD_SIG_NUM)%Z (only parsing).
Notation is_real_time n := (MIN_RT_SIG_NUM <=? n)%Z (only parsing).

(** * Signal masks (sig_mask.rs): the bits of a [u64] *)

Definition sig_bit (n : Z) : Z := Z.shiftl 1 (n - MIN_STD_SIG_NUM).
Notation mask_contains bits n := (negb (Z.land bits (sig_bit n) =? 0)) (only parsing).
Notation mask_block bits block_sets := (Z.lor bits block_sets) (only parsing).
Notation mask_unblock bits unblock_sets := (Z.land bits (unot 64 unblock_sets)) (only parsing).
Notation remove_signal bits n := (Z.land bits (unot 64 (sig_bit n))) (only parsing).

(** * Signals (signals/): the implementors of the trait [Signal] *)

Inductive UserSignalKind : Type := Kill | Tkill | Sigqueue.

Inductive Signal : Type :=
  | UserSignal (num : Z) (kind : UserSignalKind) (pid uid : Z)
  | KernelSignal (num : Z)
  | FaultSignal (num code : Z) (addr : option Z).

#[export] Instance UserSignalKind_eq_dec : EqDecision UserSignalKind.
Proof. solve_decision. Defined.
#[export] Instance Signal_eq_dec : EqDecision Signal.
Proof. solve_decision. Defined.

Definition s_num (s : Signal) : Z :=
  match s with UserSignal n _ _ _ => n | KernelSignal n => n | FaultSignal n _ _ => n end.

(** [to_info]: every implementor calls [siginfo_t::new(num, code)]. *)
Definition s_code (s : Signal) : Z :=
  match s with
  | UserSignal _ Kill _ _ => 0
  | UserSignal _ Tkill _ _ => -6
  | UserSignal _ Sigqueue _ _ => -1
  | KernelSignal _ => 128
  | FaultSignal _ code _ => code
  end.

(** The 128 bytes of [siginfo_t::new(num, code)]. *)
Definition siginfo_bytes (num code : Z) : list Z :=
  le_bytes 4 num ++ le_bytes 4 0 ++ le_bytes 4 (code mod 2 ^ 32) ++ le_bytes 4 0 ++ zeros 112.

(** * Subjects (events/subject.rs): observers by address, each with a filter *)

Record Subject (F : Type) : Type := MkSubject { observers : list (Z * F); num_observers : Z }.
Arguments MkSubject {F} _ _.
Arguments observers {F} _.
Arguments num_observers {F} _.



(** [notify_observers]: [alive o] says that the weak reference [o] upgrades;
    the result lists the observers whose [on_events] runs. *)
Definition notify_observers {F} (alive : Z -> bool) (passes : F -> bool) (s : Subject F)
    : list Z * Subject F :=
  if num_observers s =? 0 then ([], s)
  else
    let live := filter (fun p => alive p.1 = true) (observers s) in
    (fst <$> filter (fun p => passes p.2 = true) live,
     MkSubject live (num_observers s - (Z.of_nat (length (observers s)) - Z.of_nat (length live)))).

(** * Pending signals (sig_queues.rs); the filter of an observer is a mask *)

Record SigQueues : Type := MkSigQueues {
  q_count : Z;
  std_queues : list (option Signal);
  rt_queues : list (list Signal);
  q_subject : Subject Z;
}.

Definition sig_queues_new : SigQueues :=
  MkSigQueues 0 (replicate COUNT_STD_SIGS None) (replicate COUNT_RT_SIGS []) (MkSubject [] 0).

Definition put_std (idx : nat) (o : option Signal) (count : Z) (q : SigQueues) : SigQueues :=
  MkSigQueues count (<[idx := o]> (std_queues q)) (rt_queues q) (q_subject q).
Definition put_rt (idx : nat) (l : list Signal) (count : Z) (q : SigQueues) : SigQueues :=
  MkSigQueues count (std_queues q) (<[idx := l]> (rt_queues q)) (q_subject q).
Definition put_subject (s : Subject Z) (q : SigQueues) : SigQueues :=
  MkSigQueues (q_count q) (std_queues q) (rt_queues q) s.

(** [get_std_queue_mut] and [get_rt_queue_mut]: the index and the queue. *)
Definition get_std_queue (n : Z) (q : SigQueues) : outcome Errno (nat * option Signal) :=
  let? _ := oassert (is_std n) in
  let? i := usub n MIN_STD_SIG_NUM in
  let? s := ounwrap (std_queues q !! Z.to_nat i) in
  Ok (Z.to_nat i, s).
Definition get_rt_queue (n : Z) (q : SigQueues) : outcome Errno (nat * list Signal) :=
  let? _ := oassert (is_real_time n) in
  let? i := usub n MIN_RT_SIG_NUM in
  let? l := ounwrap (rt_queues q !! Z.to_nat i) in
  Ok (Z.to_nat i, l).

(** [enqueue]; the result lists the notified observers. *)
Definition enqueue (alive : Z -> bool) (signal : Signal) (q : SigQueues)
    : outcome Errno (list Z * SigQueues) :=
  let signum := s_num signal in
  let notify q' :=
    let? q' := q' in
    let '(os, sub) := notify_observers alive (fun mask => negb (mask_contains mask signum)) (q_subject q') in
    Ok (os, put_subject sub q') in
  if is_std signum then
    let? '(i, pending) := get_std_queue signum q in
    match pending with
    | Some _ => Ok ([], q)
    | None => notify (let? c := uadd (q_count q) 1 in Ok (put_std i (Some signal) c q))
    end
  else
    let? '(i, l) := get_rt_queue signum q in
    notify (let? c := uadd (q_count q) 1 in Ok (put_rt i (l ++ [signal]) c q)).

Definition ORDERED_STD_SIGS : list Z :=
  [SIGKILL; SIGTERM; SIGSTOP; SIGSEGV; SIGILL; SIGHUP; SIGCONT; SIGINT; SIGQUIT; SIGTRAP;
   SIGABRT; SIGBUS; SIGFPE; SIGUSR1; SIGUSR2; SIGPIPE; SIGALRM; SIGSTKFLT; SIGCHLD;
   SIGTSTP; SIGTTIN; SIGTTOU; SIGURG; SIGXCPU; SIGXFSZ; SIGVTALRM; SIGPROF; SIGWINCH;
   SIGIO; SIGPWR; SIGSYS].

(** The two loops of [dequeue]: [None] when they end without a signal. *)
Fixpoint dequeue_std (blocked : Z) (sigs : list Z) (q : SigQueues)
    : outcome Errno (option (Signal * SigQueues)) :=
  match sigs with
  | [] => Ok None
  | n :: sigs' =>
      if mask_contains blocked n then dequeue_std blocked sigs' q
      else
        let? '(i, pending) := get_std_queue n q in
        match pending with
        | Some s => let? c := usub (q_count q) 1 in Ok (Some (s, put_std i None c q))
        | None => dequeue_std blocked sigs' q
        end
  end.

Fixpoint dequeue_rt (blocked : Z) (sigs : list Z) (q : SigQueues)
    : outcome Errno (option (Signal * SigQueues)) :=
  match sigs with
  | [] => Ok None
  | n :: sigs' =>
      if mask_contains blocked n then dequeue_rt blocked sigs' q
      else
        let? '(i, l) := get_rt_queue n q in
        match l with
        | s :: l' => let? c := usub (q_count q) 1 in Ok (Some (s, put_rt i l' c q))
        | [] => dequeue_rt blocked sigs' q
        end
  end.

Definition dequeue (blocked : Z) (q : SigQueues) : outcome Errno (option Signal * SigQueues) :=
  if q_count q =? 0 then Ok (None, q)
  else
    let? r := dequeue_std blocked ORDERED_STD_SIGS q in
    match r with
    | Some (s, q') => Ok (Some s, q')
    | None =>
        let? r := dequeue_rt blocked (zrange MIN_RT_SIG_NUM (MAX_RT_SIG_NUM + 1)) q in
        match r with
        | Some (s, q') => Ok (Some s, q')
        | None => Ok (None, q)
        end
    end.

(** * Dispositions (sig_action.rs, sig_disposition.rs) *)

Inductive SigAction : Type :=
  | ActDfl
  | ActIgn
  | ActUser (handler_addr flags restorer_addr mask : Z).

Notation SA_NOCLDSTOP := 1%Z (only parsing).
Notation SA_NOCLDWAIT := 2%Z (only parsing).
Notation SA_SIGINFO := 4%Z (only parsing).
Notation SA_RESTORER := 0x04000000%Z (only parsing).
Notation SA_NODEFER := 0x40000000%Z (only parsing).
Notation SA_RESETHAND := 0x80000000%Z (only parsing).
(** The union of all flags, which [from_bits_truncate] keeps. *)
Notation SA_ALL := 0xdc000007%Z (only parsing).

Definition flags_contain (flags f : Z) : bool := Z.land flags f =? f.
Definition contains_unsupported_flag (flags : Z) : bool :=
  negb (Z.land flags (Z.lor (Z.lor SA_NOCLDSTOP SA_NOCLDWAIT) SA_RESETHAND) =? 0).

Record sigaction_t : Type := MkSigaction { sa_handler : Z; sa_flags : Z; sa_restorer : Z; sa_mask : Z }.

(** [SigAction::try_from(sigaction_t)]; [SIG_DFL] is 0 and [SIG_IGN] is 1. *)
Definition action_of_c (a : sigaction_t) : SigAction :=
  if sa_handler a =? 0 then ActDfl
  else if sa_handler a =? 1 then ActIgn
  else ActUser (sa_handler a) (Z.land (sa_flags a) SA_ALL) (sa_restorer a) (sa_mask a).

Definition as_c_type (a : SigAction) : sigaction_t :=
  match a with
  | ActDfl => MkSigaction 0 0 0 0
  | ActIgn => MkSigaction 1 0 0 0
  | ActUser h f r m => MkSigaction h f r m
  end.

Inductive SigDefaultAction : Type := DefTerm | DefIgn | DefCore | DefStop | DefCont.

(** [SigDefaultAction::from_signum] *)
Definition default_action (num : Z) : SigDefaultAction :=
  if bool_decide (num ∈ [SIGABRT; SIGBUS; SIGFPE; SIGILL; SIGQUIT; SIGSEGV; SIGSYS; SIGTRAP; SIGXCPU; SIGXFSZ])
  then DefCore
  else if bool_decide (num ∈ [SIGCHLD; SIGURG; SIGWINCH]) then DefIgn
  else if num =? SIGCONT then DefCont
  else if bool_decide (num ∈ [SIGSTOP; SIGTSTP; SIGTTIN; SIGTTOU]) then DefStop
  else DefTerm.

(** [SigDispositions]: the array of 64 actions, indexed by the number less one. *)
Notation dispositions_new := (replicate COUNT_ALL_SIGS ActDfl : list SigAction) (only parsing).
Notation disp_get d n := (ounwrap (d !! Z.to_nat (n - MIN_STD_SIG_NUM)) : outcome Errno SigAction) (only parsing).
Definition disp_set (d : list SigAction) (n : Z) (a : SigAction) : outcome Errno (list SigAction) :=
  let? _ := disp_get d n in Ok (<[Z.to_nat (n - MIN_STD_SIG_NUM) := a]> d).


(** * Alternate stacks (sig_stack.rs) *)

Record SigStack : Type := MkSigStack { ss_base : Z; ss_flags : Z; ss_size : Z; handler_counter : Z }.

Notation SS_AUTODISARM := 0x80000000%Z (only parsing).

Notation stack_is_active s := (negb (handler_counter s =? 0) && negb (flags_contain (ss_flags s) SS_AUTODISARM)) (only parsing).
Notation stack_is_disabled s := (negb (handler_counter s =? 0) && flags_contain (ss_flags s) SS_AUTODISARM) (only parsing).

Definition increase_handler_counter (s : SigStack) : outcome Errno SigStack :=
  let? c := uadd (handler_counter s) 1 in Ok (MkSigStack (ss_base s) (ss_flags s) (ss_size s) c).
Definition decrease_handler_counter (s : SigStack) : outcome Errno SigStack :=
  let? c := usub (handler_counter s) 1 in Ok (MkSigStack (ss_base s) (ss_flags s) (ss_size s) c).

(** [SigStack::status], as its [repr(u8)] discriminant. *)
Definition stack_status (s : SigStack) : Z :=
  if handler_counter s =? 0 then 0 else if flags_contain (ss_flags s) SS_AUTODISARM then 2 else 1.

(** * Threads (process/posix_thread/mod.rs): the signal state *)

Inductive ThreadStatus : Type := ThInit | ThRunning | ThExited | ThStopped.

Record PosixThread : Type := MkThread {
  t_pid : Z;                   (* [process().pid()] *)
  t_sid : option Z;            (* the session of the process *)
  t_status : ThreadStatus;
  t_cred : Credentials;
  t_mask : Z;
  t_queues : SigQueues;
  t_context : option Z;
  t_stack : option SigStack;
}.

Definition put_status (st : ThreadStatus) (t : PosixThread) : PosixThread :=
  MkThread (t_pid t) (t_sid t) st (t_cred t) (t_mask t) (t_queues t) (t_context t) (t_stack t).
Definition put_mask (m : Z) (t : PosixThread) : PosixThread :=
  MkThread (t_pid t) (t_sid t) (t_status t) (t_cred t) m (t_queues t) (t_context t) (t_stack t).
Definition put_queues (q : SigQueues) (t : PosixThread) : PosixThread :=
  MkThread (t_pid t) (t_sid t) (t_status t) (t_cred t) (t_mask t) q (t_context t) (t_stack t).
Definition put_context (c : option Z) (t : PosixThread) : PosixThread :=
  MkThread (t_pid t) (t_sid t) (t_status t) (t_cred t) (t_mask t) (t_queues t) c (t_stack t).
Definition put_stack (s : option SigStack) (t : PosixThread) : PosixThread :=
  MkThread (t_pid t) (t_sid t) (t_status t) (t_cred t) (t_mask t) (t_queues t) (t_context t) s.

Notation has_signal_blocked t s := (mask_contains (t_mask t) (s_num s)) (only parsing).

Definition thread_enqueue (alive : Z -> bool) (s : Signal) (t : PosixThread) : outcome Errno PosixThread :=
  let? '(_, q) := enqueue alive s (t_queues t) in Ok (put_queues q t).

(** * Sending (process/kill.rs) *)

Record SignalSenderIds : Type := MkSender { snd_ruid : Z; snd_euid : Z; snd_sid : Z }.

Definition check_signal_perm (t : PosixThread) (signum : option Z) (sender : SignalSenderIds)
    : outcome Errno unit :=
  if uid_is_root (snd_euid sender) then Ok tt
  else if bool_decide (signum = Some SIGCONT) then
    let? receiver_sid := ounwrap (t_sid t) in
    if receiver_sid =? snd_sid sender then Ok tt else Err EPERM
  else
    let ruid := c_ruid (t_cred t) in
    let suid := c_suid (t_cred t) in
    if (snd_ruid sender =? ruid) || (snd_ruid sender =? suid)
       || (snd_euid sender =? ruid) || (snd_euid sender =? suid)
    then Ok tt else Err EPERM.

(** [filter] on the permission check; a check that panics panics the caller. *)
Fixpoint permitted (ts : list PosixThread) (signum : option Z) (sender : SignalSenderIds) (i : nat)
    : outcome Errno (list nat) :=
  match ts with
  | [] => Ok []
  | t :: ts' =>
      match check_signal_perm t signum sender with
      | Panic => Panic
      | Ok _ => let? l := permitted ts' signum sender (S i) in Ok (i :: l)
      | Err _ => permitted ts' signum sender (S i)
      end
  end.

Definition enqueue_at (alive : Z -> bool) (s : Signal) (i : nat) (ts : list PosixThread)
    : outcome Errno (list PosixThread) :=
  let? t := ounwrap (ts !! i) in
  let? t' := thread_enqueue alive s t in
  Ok (<[i := t']> ts).

(** The first of the threads [idxs] that does not block the signal. *)
Definition first_unblocked (ts : list PosixThread) (idxs : list nat) (s : Signal) : option nat :=
  List.find (fun i => match ts !! i with Some t => negb (has_signal_blocked t s) | None => false end) idxs.

Definition kill_process (alive : Z -> bool) (sender : SignalSenderIds) (signal : option Signal)
    (ts : list PosixThread) : outcome Errno (list PosixThread) :=
  let? idxs := permitted ts (s_num <$> signal) sender 0 in
  match idxs with
  | [] => Err EPERM
  | first :: _ =>
      match signal with
      | None => Ok ts
      | Some s => enqueue_at alive s (default first (first_unblocked ts idxs s)) ts
      end
  end.

(** [Process::enqueue_signal] *)
Definition process_enqueue_signal (alive : Z -> bool) (is_zombie : bool) (s : Signal)
    (ts : list PosixThread) : outcome Errno (list PosixThread) :=
  if is_zombie then Ok ts
  else enqueue_at alive s (default 0%nat (first_unblocked ts (seq 0 (length ts)) s)) ts.

(** The process table: threads of each process by pid ([BTreeMap]). *)
Definition tableM (A : Type) : Type := stM (list (Z * list PosixThread)) Errno A.

Definition kill_pid (alive : Z -> bool) (sender : SignalSenderIds) (signal : option Signal) (pid : Z)
    : tableM unit :=
  fun tb =>
    match bt_get pid tb with
    | None => (Ok tt, tb)
    | Some ts =>
        match kill_process alive sender signal ts with
        | Ok ts' => (Ok tt, bt_insert pid ts' tb)
        | Err e => (Err e, tb)
        | Panic => (Panic, tb)
        end
    end.


(** [group] holds the pids of the group in order; [None] when it does not exist. *)
Definition kill_group (alive : Z -> bool) (sender : SignalSenderIds) (group : option (list Z))
    (signal : option Signal) : tableM unit :=
  match group with
  | None => serr ESRCH
  | Some pids => sfor pids (kill_pid alive sender signal)
  end.

Definition kill_all (alive : Z -> bool) (sender : SignalSenderIds) (current : Z) (is_init : Z -> bool)
    (signal : option Signal) : tableM unit :=
  fun tb => sfor (bt_keys tb)
              (fun pid => if (pid =? current) || is_init pid then sret tt
                          else kill_pid alive sender signal pid) tb.

(** [thread] is the thread of the table with the tid, if any. *)
Definition tgkill (alive : Z -> bool) (sender : SignalSenderIds) (thread : option PosixThread) (tgid : Z)
    (signal : option Signal) : outcome Errno (option PosixThread) :=
  match thread with
  | None => Err ESRCH
  | Some t =>
      match t_status t with
      | ThExited => Ok (Some t)
      | _ =>
          if negb (t_pid t =? tgid) then Err EINVAL
          else
            let? _ := check_signal_perm t (s_num <$> signal) sender in
            match signal with
            | None => Ok (Some t)
            | Some s => let? t' := thread_enqueue alive s t in Ok (Some t')
            end
      end
  end.

(** * Delivery and return (signal/mod.rs, syscall/rt_sigreturn.rs)

    [R] is [GeneralRegs], a plain-old-data structure of the trapframe crate
    that holds the general registers. *)

Class GeneralRegs (R : Type) : Type := {
  rsp : R -> Z;
  set_rip : Z -> R -> R;
  set_rsp : Z -> R -> R;
  set_rdi : Z -> R -> R;
  set_rsi : Z -> R -> R;
  set_rdx : Z -> R -> R;
  regs_size : nat;
  regs_bytes : R -> list Z;
  regs_of_bytes : list Z -> R;
}.

Class GeneralRegsLaws (R : Type) `{GeneralRegs R} : Prop := {
  regs_bytes_length r : length (regs_bytes r) = regs_size;
  regs_roundtrip r : regs_of_bytes (regs_bytes r) = r;
  rsp_set_rsp v r : rsp (set_rsp v r) = v;
  rsp_set_rdi v r : rsp (set_rdi v r) = rsp r;
  rsp_set_rsi v r : rsp (set_rsi v r) = rsp r;
  rsp_set_rdx v r : rsp (set_rdx v r) = rsp r;
}.

(** The code that a handler returns to: [mov eax, 15; syscall; nop] *)
Notation TRAMPOLINE := ([0xb8; 0x0f; 0; 0; 0; 0x0f; 0x05; 0x90] : list Z) (only parsing).

Section Delivery.
Context {R M : Type} `{GeneralRegs R} `{UserMem M}.

(** What a system call or the return to user mode works on: the current
    thread, the user registers and the user memory. *)
Record ustate : Type := MkU { u_th : PosixThread; u_regs : R; u_mem : M }.

Definition uM (A : Type) : Type := stM ustate Errno A.

Definition on_mem {A} (m : stM M Errno A) : uM A :=
  fun u => let '(r, mem) := m (u_mem u) in (r, MkU (u_th u) (u_regs u) mem).
Definition modify_th (f : PosixThread -> PosixThread) : uM unit :=
  fun u => (Ok tt, MkU (f (u_th u)) (u_regs u) (u_mem u)).
Definition modify_regs (f : R -> R) : uM unit :=
  fun u => (Ok tt, MkU (u_th u) (f (u_regs u)) (u_mem u)).
Definition get_th {A} (f : PosixThread -> A) : uM A := fun u => (Ok (f (u_th u)), u).

(** [ucontext_t]: the fields that delivery sets; the others are zero. *)
Record ucontext_t : Type := MkUcontext { uc_link : Z; uc_gp_regs : R; uc_sigmask : Z }.

Definition ucontext_size : nat := (40 + regs_size + 128 + 8 + 512)%nat.
Definition ucontext_bytes (uc : ucontext_t) : list Z :=
  zeros 8 ++ le_bytes 8 (uc_link uc) ++ zeros 24 ++ regs_bytes (uc_gp_regs uc) ++ zeros 128
  ++ le_bytes 8 (uc_sigmask uc) ++ zeros 512.
Definition ucontext_of_bytes (l : list Z) : ucontext_t :=
  MkUcontext (le_val (field 8 8 l)) (regs_of_bytes (field 40 regs_size l))
    (le_val (field (40 + regs_size + 128) 8 l)).

Definition use_alternate_signal_stack : uM (option Z) :=
  let! sig_stack := get_th t_stack in
  match sig_stack with
  | None => sret None
  | Some s =>
      if stack_is_disabled s then sret None
      else
        let! s' := slift (increase_handler_counter s) in
        modify_th (put_stack (Some s')) ;!
        if stack_is_active s then sret None
        else
          let! top := slift (let? t := uadd (ss_base s) (ss_size s) in @align_down 64 Errno t 16) in
          sret (Some top)
  end.

Definition write_u64_to_user_stack (sp value : Z) : uM Z :=
  let! sp := slift (usub sp 8) in
  on_mem (write_user sp (le_bytes 8 value)) ;!
  sret sp.

Definition alloc_aligned_in_user_stack (sp size align : Z) : uM Z :=
  if negb (is_power_of_two align) then serr EINVAL
  else slift (let? t := usub sp size in @align_down 64 Errno t align).


Definition handle_user_signal (sig_num handler_addr flags restorer_addr mask code : Z) : uM unit :=
  (if contains_unsupported_flag flags then spanic else sret tt) ;!
  let mask := if flags_contain flags SA_NODEFER then mask else mask_block mask (sig_bit sig_num) in
  modify_th (fun t => put_mask (mask_block (t_mask t) mask) t) ;!
  let! alt := use_alternate_signal_stack in
  let! sp := match alt with Some sp => sret sp | None => fun u => (Ok (rsp (u_regs u)), u) end in
  let! sp := slift (usub sp 128) in
  let! siginfo_addr := slift (usub sp 128) in
  on_mem (write_user siginfo_addr (siginfo_bytes sig_num code)) ;!
  let! ucontext_addr := alloc_aligned_in_user_stack siginfo_addr (Z.of_nat ucontext_size) 16 in
  let! context := get_th t_context in
  let! regs := (fun u => (Ok (u_regs u), u)) in
  on_mem (write_user ucontext_addr (ucontext_bytes (MkUcontext (default 0 context) regs mask))) ;!
  modify_th (put_context (Some ucontext_addr)) ;!
  let! sp :=
    if flags_contain flags SA_RESTORER then write_u64_to_user_stack ucontext_addr restorer_addr
    else
      let! trampoline_rip := slift (usub ucontext_addr 8) in
      on_mem (write_user trampoline_rip TRAMPOLINE) ;!
      write_u64_to_user_stack trampoline_rip trampoline_rip in
  modify_regs (fun r => set_rdi sig_num (set_rsp sp (set_rip handler_addr r))) ;!
  modify_regs (fun r => if flags_contain flags SA_SIGINFO then set_rdx ucontext_addr (set_rsi siginfo_addr r)
                        else set_rdx 0 (set_rsi 0 r)).

(** What [handle_pending_signal] did; [do_exit_group] does not return. *)
Inductive delivered : Type :=
  | NoSignal | Ignored | Handled | ExitGroup (signum : Z).

Definition handle_pending_signal (disp : list SigAction) : uM delivered :=
  let! r := (fun u => match dequeue (t_mask (u_th u)) (t_queues (u_th u)) with
                      | Ok (s, q) => (Ok s, MkU (put_queues q (u_th u)) (u_regs u) (u_mem u))
                      | Err e => (Err e, u)
                      | Panic => (Panic, u)
                      end) in
  match r with
  | None => sret NoSignal
  | Some s =>
      let! action := slift (disp_get disp (s_num s)) in
      match action with
      | ActIgn => sret Ignored
      | ActUser handler flags restorer mask =>
          handle_user_signal (s_num s) handler flags restorer mask (s_code s) ;! sret Handled
      | ActDfl =>
          match default_action (s_num s) with
          | DefCore | DefTerm => sret (ExitGroup (s_num s))
          | DefIgn => sret Ignored
          | DefStop =>
              modify_th (fun t => match t_status t with ThRunning => put_status ThStopped t | _ => t end) ;!
              sret Handled
          | DefCont =>
              modify_th (fun t => match t_status t with ThStopped => put_status ThRunning t | _ => t end) ;!
              sret Handled
          end
      end
  end.

Definition sys_rt_sigreturn : uM unit :=
  let! context := get_th t_context in
  match context with
  | None => serr EINVAL
  | Some addr =>
      let! sp := (fun u => (Ok (rsp (u_regs u)), u)) in
      slift (oassert (addr =? sp)) ;!
      let! bytes := on_mem (read_user addr ucontext_size) in
      let uc := ucontext_of_bytes bytes in
      let! stack := get_th t_stack in
      match stack with
      | None => sret tt
      | Some s =>
          let! top := slift (if ss_base s <=? sp then uadd (ss_base s) (ss_size s) else Ok 0) in
          if (ss_base s <=? sp) && (sp <=? top) then
            let! s' := slift (decrease_handler_counter s) in
            modify_th (put_stack (Some s'))
          else sret tt
      end ;!
      modify_th (put_context (if uc_link uc =? 0 then None else Some (uc_link uc))) ;!
      modify_regs (fun _ => uc_gp_regs uc) ;!
      modify_th (fun t => put_mask (mask_unblock (t_mask t) (uc_sigmask uc)) t)
  end.

(** * System calls on masks, dispositions and stacks *)

Inductive MaskOp : Type := Block | Unblock | SetMask.

(** [MaskOp::try_from(u32)] *)
Notation mask_op how := (if how =? 0 then Some Block else if how =? 1 then Some Unblock
  else if how =? 2 then Some SetMask else None) (only parsing).

Definition do_rt_sigprocmask (op : MaskOp) (set_ptr oldset_ptr : Z) : uM unit :=
  let! old := get_th t_mask in
  (if oldset_ptr =? 0 then sret tt else on_mem (write_user oldset_ptr (le_bytes 8 old))) ;!
  if set_ptr =? 0 then sret tt
  else
    let! bytes := on_mem (read_user set_ptr 8) in
    let new_set := le_val bytes in
    modify_th (fun t => put_mask
      match op with
      | Block => mask_block (t_mask t) (remove_signal (remove_signal new_set SIGKILL) SIGSTOP)
      | Unblock => mask_unblock (t_mask t) new_set
      | SetMask => new_set
      end t).

(** Both [unwrap]s of the system call panic. *)
Definition sys_rt_sigprocmask (how set_ptr oldset_ptr : Z) : uM Z :=
  let! op := slift (ounwrap (mask_op how)) in
  fun u => match do_rt_sigprocmask op set_ptr oldset_ptr u with
           | (Ok _, u') => (Ok 0, u')
           | (_, u') => (Panic, u')
           end.

Definition sigaction_bytes (a : sigaction_t) : list Z :=
  le_bytes 8 (sa_handler a) ++ le_bytes 4 (sa_flags a) ++ zeros 4 ++ le_bytes 8 (sa_restorer a)
  ++ le_bytes 8 (sa_mask a).
Definition sigaction_of_bytes (l : list Z) : sigaction_t :=
  MkSigaction (le_val (field 0 8 l)) (le_val (field 8 4 l)) (le_val (field 16 8 l)) (le_val (field 24 8 l)).

(** On the dispositions of the process and the user memory. *)
Definition sys_rt_sigaction (sig_num sig_action_addr old_sig_action_addr : Z)
    : stM (list SigAction * M) Errno Z :=
  let at_mem {A} (m : stM M Errno A) : stM (list SigAction * M) Errno A :=
    fun s => let '(r, mem) := m s.2 in (r, (s.1, mem)) in
  let! n := slift (signum_try_from sig_num) in
  let! old := (fun s => (disp_get s.1 n, s)) in
  (if old_sig_action_addr =? 0 then sret tt
   else at_mem (write_user old_sig_action_addr (sigaction_bytes (as_c_type old)))) ;!
  (if sig_action_addr =? 0 then sret tt
   else
     let! bytes := at_mem (read_user sig_action_addr 32) in
     fun s => match disp_set s.1 n (action_of_c (sigaction_of_bytes bytes)) with
              | Ok d => (Ok tt, (d, s.2))
              | Err e => (Err e, s)
              | Panic => (Panic, s)
              end) ;!
  sret 0.

(** [stack_t]; its [flags] is an [i32]. *)
Record stack_t : Type := MkStackT { st_sp : Z; st_flags : Z; st_size : Z }.

Definition stack_t_bytes (s : stack_t) : list Z :=
  le_bytes 8 (st_sp s) ++ le_bytes 4 (st_flags s mod 2 ^ 32) ++ zeros 4 ++ le_bytes 8 (st_size s).
Definition stack_t_of_bytes (l : list Z) : stack_t :=
  let f := le_val (field 8 4 l) in
  MkStackT (le_val (field 0 8 l)) (if f <? 2 ^ 31 then f else f - 2 ^ 32) (le_val (field 16 8 l)).

(** [SigStack::try_from(stack_t)]; [MINSTKSZ] is 2048. *)
Definition sig_stack_of (s : stack_t) : outcome Errno SigStack :=
  if st_flags s <? 0 then Err EINVAL
  else if negb (Z.land (st_flags s) (unot 32 SS_AUTODISARM) =? 0) then Err EINVAL
  else if st_size s <? 2048 then Err ENOMEM
  else Ok (MkSigStack (st_sp s) (st_flags s) (st_size s) 0).

(** [stack_t::from(SigStack)] *)
Definition stack_t_of (s : SigStack) : stack_t :=
  let bits := Z.lor (ss_flags s) (stack_status s) in
  MkStackT (ss_base s) (if bits <? 2 ^ 31 then bits else bits - 2 ^ 32) (ss_size s).

Definition sys_sigaltstack (sig_stack_addr old_sig_stack_addr : Z) : uM Z :=
  let! old := get_th t_stack in
  match old with
  | Some s => if old_sig_stack_addr =? 0 then sret tt
              else on_mem (write_user old_sig_stack_addr (stack_t_bytes (stack_t_of s)))
  | None => sret tt
  end ;!
  (if sig_stack_addr =? 0 then sret tt
   else if match old with Some s => stack_is_active s | None => false end then serr EPERM
   else
     let! bytes := on_mem (read_user sig_stack_addr 24) in
     let! s := slift (sig_stack_of (stack_t_of_bytes bytes)) in
     modify_th (put_stack (Some s))) ;!
  sret 0.

End Delivery.
Arguments ustate : clear implicits.
Arguments uM : clear implicits.
Arguments ucontext_t : clear implicits.
Arguments MkU {R M} _ _ _.
Arguments u_th {R M} _.
Arguments u_regs {R M} _.
Arguments u_mem {R M} _.
