(* ===== verification/SignalFacts.v ===== *)
(** Theorems about signals: the pending queues refine a list of signals in
    order of arrival, sending reaches exactly one permitted thread, and a
    user handler returns to the interrupted state. *)

From S2P Require Import Prelude BTree AlignExt Perms Credentials Pod Signals.

(** * The pending queues as one list in order of arrival *)

Definition valid_signum (n : Z) : Prop := 1 <= n <= 64.

Definition of_num (n : Z) (p : list Signal) : list Signal := filter (fun s => s_num s = n) p.

Fixpoint remove_num (n : Z) (p : list Signal) : list Signal :=
  match p with
  | [] => []
  | s :: p' => if decide (s_num s = n) then p' else s :: remove_num n p'
  end.

(** A standard signal that is already pending is dropped. *)
Definition spec_enqueue (p : list Signal) (s : Signal) : list Signal :=
  if is_std (s_num s) && negb (bool_decide (of_num (s_num s) p = [])) then p else p ++ [s].

(** The order in which numbers are served. *)
Definition delivery_order : list Z := ORDERED_STD_SIGS ++ zrange 32 65.

(** [n] is served no later than [m]. *)
Definition served_before (n m : Z) : Prop :=
  exists l1 l2, delivery_order = l1 ++ n :: l2 /\ m ∈ n :: l2.

(** [p'] is [p] without [s], the first unblocked signal to be served. *)
Definition spec_dequeue (blocked : Z) (p : list Signal) (s : Signal) (p' : list Signal) : Prop :=
  exists p1 p2, p = p1 ++ s :: p2 /\ p' = p1 ++ p2 /\
    mask_contains blocked (s_num s) = false /\
    (forall t, t ∈ p1 -> s_num t <> s_num s) /\
    (forall t, t ∈ p -> mask_contains blocked (s_num t) = false -> served_before (s_num s) (s_num t)).

Record sq_repr (q : SigQueues) (p : list Signal) : Prop := {
  sr_count : q_count q = Z.of_nat (length p);
  sr_valid : forall s, s ∈ p -> valid_signum (s_num s);
  sr_std : forall n, 1 <= n <= 31 -> std_queues q !! Z.to_nat (n - 1) = Some (head (of_num n p));
  sr_once : forall n, 1 <= n <= 31 -> (length (of_num n p) <= 1)%nat;
  sr_rt : forall n, 32 <= n <= 64 -> rt_queues q !! Z.to_nat (n - 32) = Some (of_num n p);
  sr_observers : num_observers (q_subject q) = Z.of_nat (length (observers (q_subject q)));
}.

(** ** Lists *)

Lemma of_num_app n p p' : of_num n (p ++ p') = of_num n p ++ of_num n p'.
Proof. apply filter_app. Qed.

Lemma of_num_one n s : of_num n [s] = if decide (s_num s = n) then [s] else [].
Proof. unfold of_num. rewrite filter_cons, filter_nil. done. Qed.

Lemma of_num_remove n m p : of_num m (remove_num n p) = if decide (m = n) then tail (of_num n p) else of_num m p.
Proof.
  induction p as [|s p IH]; simpl; [by destruct decide|].
  unfold of_num in *. rewrite !filter_cons. destruct (decide (s_num s = n)) as [Hn|Hn].
  - destruct (decide (m = n)) as [Hm|Hm]; [by rewrite Hm|]. by rewrite decide_False by congruence.
  - rewrite filter_cons, IH. destruct (decide (m = n)) as [Hm|Hm]; [|done].
    by rewrite decide_False by congruence.
Qed.

Lemma remove_num_split n p s l :
  of_num n p = s :: l ->
  s_num s = n /\
  exists p1 p2, p = p1 ++ s :: p2 /\ remove_num n p = p1 ++ p2 /\ forall t, t ∈ p1 -> s_num t <> n.
Proof.
  unfold of_num. induction p as [|t p IH]; simpl; [done|].
  rewrite filter_cons. destruct (decide (s_num t = n)) as [Ht|Ht].
  - intros [= -> _]. split; [done|]. exists [], p. split; [done|]. split; [done|]. set_solver.
  - intros Hp. destruct (IH Hp) as (Hs & p1 & p2 & -> & Hr & Hno). split; [done|].
    exists (t :: p1), p2. split; [done|]. split; [by rewrite Hr|].
    intros t'. rewrite elem_of_cons. intros [->|?]; [done|by apply Hno].
Qed.

Lemma of_num_nil n p t : of_num n p = [] -> t ∈ p -> s_num t <> n.
Proof.
  intros Hn Ht Hnum. assert (t ∈ of_num n p) as Hin by (apply list_elem_of_filter; done).
  rewrite Hn in Hin. set_solver.
Qed.

Lemma order_complete n : valid_signum n -> n ∈ delivery_order.
Proof.
  intros Hn. assert (Hall : Forall (fun m => m ∈ delivery_order) (zrange 1 65)).
  { apply (bool_decide_unpack _). by vm_compute. }
  rewrite Forall_forall in Hall. apply Hall. apply elem_of_zrange. unfold valid_signum in Hn. lia.
Qed.

(** ** Observers *)

Lemma notify_ok {F} alive (passes : F -> bool) (s : Subject F) :
  num_observers s = Z.of_nat (length (observers s)) ->
  exists s', notify_observers alive passes s =
      (fst <$> filter (fun p => alive p.1 = true /\ passes p.2 = true) (observers s), s') /\
    num_observers s' = Z.of_nat (length (observers s')).
Proof.
  intros Hn. unfold notify_observers. destruct (Z.eqb_spec (num_observers s) 0) as [H0|H0].
  - exists s. split; [|done]. destruct (observers s); [done|]. simpl in *. lia.
  - eexists. split.
    + f_equal. f_equal. rewrite list_filter_filter. apply list_filter_iff. intros x. tauto.
    + simpl. lia.
Qed.

(** ** Access to the queues *)

Lemma is_std_true n : is_std n = true <-> n <= 31.
Proof. apply Z.leb_le. Qed.

Lemma get_std_queue_ok q p n :
  sq_repr q p -> 1 <= n <= 31 -> get_std_queue n q = Ok (Z.to_nat (n - 1), head (of_num n p)).
Proof.
  intros Hr Hn. unfold get_std_queue. rewrite (proj2 (is_std_true n)) by lia. simpl.
  rewrite usub_ok by lia. simpl. by rewrite (sr_std _ _ Hr n Hn).
Qed.

Lemma get_rt_queue_ok q p n :
  sq_repr q p -> 32 <= n <= 64 -> get_rt_queue n q = Ok (Z.to_nat (n - 32), of_num n p).
Proof.
  intros Hr Hn. unfold get_rt_queue. rewrite (proj2 (Z.leb_le _ _)) by lia. simpl.
  rewrite usub_ok by lia. simpl. by rewrite (sr_rt _ _ Hr n Hn).
Qed.

(** Replacing the signals of one number by [p']. *)
Lemma put_std_repr q p p' n c :
  sq_repr q p -> 1 <= n <= 31 -> c = Z.of_nat (length p') ->
  (forall s, s ∈ p' -> valid_signum (s_num s)) ->
  (length (of_num n p') <= 1)%nat -> (forall m, m <> n -> of_num m p' = of_num m p) ->
  sq_repr (put_std (Z.to_nat (n - 1)) (head (of_num n p')) c q) p'.
Proof.
  intros Hr Hn Hc Hv Hone Hoth. split; [done|done| | | |apply (sr_observers _ _ Hr)].
  - intros m Hm. simpl. destruct (decide (m = n)) as [->|Hmn].
    + apply list_lookup_insert_eq. apply lookup_lt_is_Some. rewrite (sr_std _ _ Hr n Hn). eauto.
    + rewrite list_lookup_insert_ne by lia. rewrite (sr_std _ _ Hr m Hm). by rewrite Hoth.
  - intros m Hm. destruct (decide (m = n)) as [->|Hmn]; [done|].
    rewrite Hoth by done. by apply (sr_once _ _ Hr).
  - intros m Hm. simpl. rewrite (sr_rt _ _ Hr m Hm). rewrite Hoth by lia. done.
Qed.

Lemma put_rt_repr q p p' n c :
  sq_repr q p -> 32 <= n <= 64 -> c = Z.of_nat (length p') ->
  (forall s, s ∈ p' -> valid_signum (s_num s)) -> (forall m, m <> n -> of_num m p' = of_num m p) ->
  sq_repr (put_rt (Z.to_nat (n - 32)) (of_num n p') c q) p'.
Proof.
  intros Hr Hn Hc Hv Hoth. split; [done|done| | | |apply (sr_observers _ _ Hr)].
  - intros m Hm. simpl. rewrite (sr_std _ _ Hr m Hm). rewrite Hoth by lia. done.
  - intros m Hm. rewrite Hoth by lia. by apply (sr_once _ _ Hr).
  - intros m Hm. simpl. destruct (decide (m = n)) as [->|Hmn].
    + apply list_lookup_insert_eq. apply lookup_lt_is_Some. rewrite (sr_rt _ _ Hr n Hn). eauto.
    + rewrite list_lookup_insert_ne by lia. rewrite (sr_rt _ _ Hr m Hm). by rewrite Hoth.
Qed.

Lemma put_subject_repr q p s :
  sq_repr q p -> num_observers s = Z.of_nat (length (observers s)) -> sq_repr (put_subject s q) p.
Proof. intros [????? _] Hs. by split. Qed.

(** ** [enqueue] *)

(** The observers that hear of signal [n]. *)
Definition hearers (alive : Z -> bool) (n : Z) (q : SigQueues) : list Z :=
  fst <$> filter (fun p => alive p.1 = true /\ negb (mask_contains p.2 n) = true) (observers (q_subject q)).

Lemma enqueue_append_valid p s :
  (forall t, t ∈ p -> valid_signum (s_num t)) -> valid_signum (s_num s) ->
  forall t, t ∈ p ++ [s] -> valid_signum (s_num t).
Proof. intros Hp Hs t. rewrite elem_of_app, list_elem_of_singleton. intros [?| ->]; [by apply Hp|done]. Qed.

Lemma of_num_append n m p s :
  s_num s = n -> of_num m (p ++ [s]) = if decide (m = n) then of_num n p ++ [s] else of_num m p.
Proof.
  intros Hs. rewrite of_num_app, of_num_one. destruct (decide (m = n)) as [->|Hm].
  - by rewrite decide_True.
  - rewrite decide_False by congruence. apply app_nil_r.
Qed.

Lemma enqueue_refines q p alive s :
  sq_repr q p -> valid_signum (s_num s) -> Z.of_nat (length p) < usize_max ->
  exists q', enqueue alive s q =
      Ok (if decide (spec_enqueue p s = p) then [] else hearers alive (s_num s) q, q') /\
    sq_repr q' (spec_enqueue p s).
Proof.
  intros Hr Hv Hlen. unfold enqueue, spec_enqueue, valid_signum in *.
  assert (Hadd : uadd (q_count q) 1 = @Ok Errno Z (q_count q + 1)).
  { apply uadd_ok. rewrite (sr_count _ _ Hr). lia. }
  assert (Hnew : p ++ [s] <> p).
  { intros Heq. apply (f_equal length) in Heq. rewrite length_app in Heq. simpl in Heq. lia. }
  assert (Hc : q_count q + 1 = Z.of_nat (length (p ++ [s]))).
  { rewrite (sr_count _ _ Hr), length_app. simpl. lia. }
  pose proof (enqueue_append_valid p s (sr_valid _ _ Hr) Hv) as Hvs.
  destruct (notify_ok alive (fun mask => negb (mask_contains mask (s_num s))) _ (sr_observers _ _ Hr))
    as (sub & Hnot & Hsub).
  destruct (is_std (s_num s)) eqn:Hstd.
  - apply is_std_true in Hstd. rewrite (get_std_queue_ok q p) by (done || lia). cbn [obind].
    destruct (of_num (s_num s) p) as [|t l] eqn:Hp; cbn [head andb].
    + rewrite bool_decide_true by done. cbn [negb]. rewrite decide_False by done.
      rewrite Hadd. cbn [obind q_subject put_std]. rewrite Hnot. eexists. split; [done|].
      apply put_subject_repr; [|done]. pose proof (of_num_append (s_num s) (s_num s) p s eq_refl) as Hap.
      rewrite decide_True, Hp in Hap by done. replace (Some s) with (head (of_num (s_num s) (p ++ [s]))) by by rewrite Hap.
      eapply put_std_repr; eauto; [lia|by rewrite Hap|].
      intros m Hm. rewrite (of_num_append (s_num s)) by done. by rewrite decide_False.
    + rewrite bool_decide_false by done. cbn [negb]. rewrite decide_True by done. by exists q.
  - assert (~ s_num s <= 31) as Hrt by (rewrite <- is_std_true, Hstd; done).
    rewrite (get_rt_queue_ok q p) by (done || lia). cbn [obind andb]. rewrite decide_False by done.
    rewrite Hadd. cbn [obind q_subject put_rt]. rewrite Hnot. eexists. split; [done|].
    apply put_subject_repr; [|done]. pose proof (of_num_append (s_num s) (s_num s) p s eq_refl) as Hap.
    rewrite decide_True in Hap by done. rewrite <- Hap.
    eapply put_rt_repr; eauto; [lia|].
    intros m Hm. rewrite (of_num_append (s_num s)) by done. by rewrite decide_False.
Qed.

(** ** [dequeue] *)

(** No number of [l] has an unblocked pending signal. *)
Definition none_ready (blocked : Z) (p : list Signal) (l : list Z) : Prop :=
  forall n, n ∈ l -> mask_contains blocked n = true \/ of_num n p = [].

(** The first number of [sigs] with an unblocked pending signal is [n]. *)
Definition first_ready (blocked : Z) (p : list Signal) (sigs : list Z) (n : Z) (s : Signal) : Prop :=
  exists pre post l, sigs = pre ++ n :: post /\ none_ready blocked p pre /\
    mask_contains blocked n = false /\ of_num n p = s :: l.

Lemma none_ready_cons blocked p n l :
  mask_contains blocked n = true \/ of_num n p = [] -> none_ready blocked p l -> none_ready blocked p (n :: l).
Proof. intros Hn Hl m. rewrite elem_of_cons. intros [->|Hm]; [done|by apply Hl]. Qed.

Lemma first_ready_cons blocked p n l m s :
  mask_contains blocked n = true \/ of_num n p = [] -> first_ready blocked p l m s -> first_ready blocked p (n :: l) m s.
Proof.
  intros Hn (pre & post & rest & -> & Hpre & Hm & Hp). exists (n :: pre), post, rest.
  split; [done|]. split; [by apply none_ready_cons|done].
Qed.

Lemma remove_num_repr_facts p n s l :
  of_num n p = s :: l ->
  Z.of_nat (length p) - 1 = Z.of_nat (length (remove_num n p)) /\
  1 <= Z.of_nat (length p) /\
  (forall t, t ∈ remove_num n p -> t ∈ p) /\ of_num n (remove_num n p) = l /\
  (forall m, m <> n -> of_num m (remove_num n p) = of_num m p).
Proof.
  intros Hp. destruct (remove_num_split _ _ _ _ Hp) as (_ & p1 & p2 & Hsp & Hrm & _).
  split_and!.
  - rewrite Hrm, Hsp, !length_app. simpl. lia.
  - rewrite Hsp, length_app. simpl. lia.
  - rewrite Hrm, Hsp. set_solver.
  - rewrite of_num_remove, decide_True by done. by rewrite Hp.
  - intros m Hm. rewrite of_num_remove, decide_False by done. done.
Qed.

(** What a loop of [dequeue] over [sigs] returns. *)
Definition ready_result (blocked : Z) (p : list Signal) (sigs : list Z)
    (r : outcome Errno (option (Signal * SigQueues))) : Prop :=
  (r = Ok None /\ none_ready blocked p sigs) \/
  (exists n s q', r = Ok (Some (s, q')) /\ first_ready blocked p sigs n s /\ sq_repr q' (remove_num n p)).

Lemma ready_result_cons blocked p n sigs r :
  mask_contains blocked n = true \/ of_num n p = [] ->
  ready_result blocked p sigs r -> ready_result blocked p (n :: sigs) r.
Proof.
  intros Hno [[-> ?]|(m & s & q' & -> & ? & ?)]; [left; split; [done|by apply none_ready_cons]|].
  right. exists m, s, q'. split; [done|]. split; [by apply first_ready_cons|done].
Qed.

Lemma ready_result_found blocked p n sigs s l q' :
  mask_contains blocked n = false -> of_num n p = s :: l -> sq_repr q' (remove_num n p) ->
  ready_result blocked p (n :: sigs) (Ok (Some (s, q'))).
Proof.
  intros Hb Hp Hr. right. exists n, s, q'. split; [done|]. split; [|done].
  exists [], sigs, l. split; [done|]. split; [intros m Hm; set_solver|done].
Qed.

Lemma dequeue_std_refines q p blocked sigs :
  sq_repr q p -> (forall n, n ∈ sigs -> 1 <= n <= 31) ->
  ready_result blocked p sigs (dequeue_std blocked sigs q).
Proof.
  intros Hr. induction sigs as [|n sigs IH]; intros Hs; [left; split; [done|intros n Hn; set_solver]|].
  assert (Hn : 1 <= n <= 31) by (apply Hs; set_solver). specialize (IH ltac:(set_solver)).
  cbn [dequeue_std]. destruct (mask_contains blocked n) eqn:Hb; [apply ready_result_cons; auto|].
  rewrite (get_std_queue_ok q p) by done. cbn [obind].
  destruct (of_num n p) as [|s l] eqn:Hp; cbn [head]; [apply ready_result_cons; auto|].
  destruct (remove_num_repr_facts p n s l Hp) as (Hlen & Hpos & Hsub & Hl & Hoth).
  pose proof (sr_once _ _ Hr n Hn) as Hone. rewrite Hp in Hone. simpl in Hone.
  assert (l = []) as -> by (destruct l; [done|simpl in Hone; lia]).
  rewrite usub_ok by (rewrite (sr_count _ _ Hr); lia). cbn [obind].
  eapply ready_result_found; [done..|]. replace None with (head (of_num n (remove_num n p))) by by rewrite Hl.
  eapply put_std_repr; eauto; [rewrite (sr_count _ _ Hr); lia| |rewrite Hl; simpl; lia].
  intros t Ht. apply (sr_valid _ _ Hr). by apply Hsub.
Qed.

Lemma dequeue_rt_refines q p blocked sigs :
  sq_repr q p -> (forall n, n ∈ sigs -> 32 <= n <= 64) ->
  ready_result blocked p sigs (dequeue_rt blocked sigs q).
Proof.
  intros Hr. induction sigs as [|n sigs IH]; intros Hs; [left; split; [done|intros n Hn; set_solver]|].
  assert (Hn : 32 <= n <= 64) by (apply Hs; set_solver). specialize (IH ltac:(set_solver)).
  cbn [dequeue_rt]. destruct (mask_contains blocked n) eqn:Hb; [apply ready_result_cons; auto|].
  rewrite (get_rt_queue_ok q p) by done. cbn [obind].
  destruct (of_num n p) as [|s l] eqn:Hp; [apply ready_result_cons; auto|].
  destruct (remove_num_repr_facts p n s l Hp) as (Hlen & Hpos & Hsub & Hl & Hoth).
  rewrite usub_ok by (rewrite (sr_count _ _ Hr); lia). cbn [obind].
  eapply ready_result_found; [done..|]. rewrite <- Hl.
  eapply put_rt_repr; eauto; [rewrite (sr_count _ _ Hr); lia|].
  intros t Ht. apply (sr_valid _ _ Hr). by apply Hsub.
Qed.

Lemma first_ready_spec q p blocked sigs pre0 post0 n s :
  sq_repr q p -> delivery_order = pre0 ++ sigs ++ post0 -> none_ready blocked p pre0 ->
  first_ready blocked p sigs n s -> spec_dequeue blocked p s (remove_num n p).
Proof.
  intros Hr Hord Hpre0 (pre & post & l & -> & Hpre & Hb & Hp).
  destruct (remove_num_split _ _ _ _ Hp) as (Hs & p1 & p2 & Hsp & Hrm & Hno).
  exists p1, p2. split; [done|]. split; [done|]. rewrite Hs. split; [done|]. split; [done|].
  intros t Ht Hbt. exists (pre0 ++ pre), (post ++ post0). split.
  - rewrite Hord. by rewrite <- !(assoc_L (++)).
  - pose proof (order_complete _ (sr_valid _ _ Hr t Ht)) as Hin. rewrite Hord in Hin.
    rewrite !elem_of_app in Hin. rewrite elem_of_cons, elem_of_app.
    assert (Hnot : forall l', none_ready blocked p l' -> s_num t ∉ l').
    { intros l' Hl' Hm. destruct (Hl' _ Hm) as [Hm'|Hm']; [congruence|]. by apply (of_num_nil _ _ t Hm'). }
    pose proof (Hnot _ Hpre0). pose proof (Hnot _ Hpre). set_solver.
Qed.

Lemma std_sigs_range n : n ∈ ORDERED_STD_SIGS -> 1 <= n <= 31.
Proof.
  assert (Hall : Forall (fun n => 1 <= n <= 31) ORDERED_STD_SIGS) by (apply (bool_decide_unpack _); by vm_compute).
  rewrite Forall_forall in Hall. apply Hall.
Qed.

Lemma dequeue_refines q p blocked :
  sq_repr q p ->
  (dequeue blocked q = Ok (None, q) /\ forall s, s ∈ p -> mask_contains blocked (s_num s) = true) \/
  (exists s q' p', dequeue blocked q = Ok (Some s, q') /\ spec_dequeue blocked p s p' /\ sq_repr q' p').
Proof.
  intros Hr. unfold dequeue. destruct (Z.eqb_spec (q_count q) 0) as [H0|H0].
  { left. split; [done|]. rewrite (sr_count _ _ Hr) in H0. destruct p; [set_solver|simpl in H0; lia]. }
  destruct (dequeue_std_refines q p blocked ORDERED_STD_SIGS Hr std_sigs_range)
    as [[-> Hstd]|(n & s & q' & -> & Hf & Hr')]; cbn [obind].
  - change (64 + 1) with 65. destruct (dequeue_rt_refines q p blocked (zrange 32 65) Hr)
      as [[-> Hrt]|(n & s & q' & -> & Hf & Hr')]; [intros n; rewrite elem_of_zrange; lia|left|right]; cbn [obind].
    + split; [done|]. intros s Hs. pose proof (order_complete _ (sr_valid _ _ Hr s Hs)) as Hin.
      unfold delivery_order in Hin. apply elem_of_app in Hin.
      assert (mask_contains blocked (s_num s) = true \/ of_num (s_num s) p = []) as [|Hnil]
        by (destruct Hin; [by apply Hstd|by apply Hrt]); [done|]. by destruct (of_num_nil _ _ s Hnil Hs).
    + exists s, q', (remove_num n p). split; [done|]. split; [|done].
      eapply (first_ready_spec q p blocked (zrange 32 65) ORDERED_STD_SIGS []); eauto.
  - right. exists s, q', (remove_num n p). split; [done|]. split; [|done].
    eapply (first_ready_spec q p blocked ORDERED_STD_SIGS []); eauto. intros m Hm. set_solver.
Qed.

Lemma sig_queues_new_repr : sq_repr sig_queues_new [].
Proof.
  split; [done|set_solver| | | |done]; intros n Hn; [|simpl; lia|]; apply lookup_replicate; (split; [done|lia]).
Qed.

(** C18: the pending queues refine one list of signals in order of arrival.
    New queues hold none.  [enqueue] never panics, drops a standard signal
    whose number is already pending and otherwise appends, and then notifies
    exactly the live observers whose filter does not mask the number.
    [dequeue] returns no signal only if every pending one is blocked;
    otherwise it takes out an unblocked signal, the oldest of its number,
    whose number is served no later than that of any other unblocked pending
    signal. *)
Theorem sig_queues_refine :
  sq_repr sig_queues_new [] /\
  forall q p, sq_repr q p ->
    (forall alive s, valid_signum (s_num s) -> Z.of_nat (length p) < usize_max ->
       exists q', enqueue alive s q =
           Ok (if decide (spec_enqueue p s = p) then [] else hearers alive (s_num s) q, q') /\
         sq_repr q' (spec_enqueue p s)) /\
    (forall blocked,
       (dequeue blocked q = Ok (None, q) /\ forall s, s ∈ p -> mask_contains blocked (s_num s) = true) \/
       (exists s q' p', dequeue blocked q = Ok (Some s, q') /\ spec_dequeue blocked p s p' /\ sq_repr q' p')).
Proof.
  split; [apply sig_queues_new_repr|]. intros q p Hr. split; intros; [by apply enqueue_refines|by apply dequeue_refines].
Qed.

Lemma sig_queues_refine_witness :
  exists q, enqueue (fun _ => true) (KernelSignal 40) sig_queues_new = Ok ([], q) /\ sq_repr q [KernelSignal 40].
Proof.
  destruct sig_queues_refine as [Hnew Hops]. destruct (Hops _ _ Hnew) as [Henq _].
  destruct (Henq (fun _ => true) (KernelSignal 40)) as (q & Hq & Hr); [by vm_compute|by vm_compute|].
  exists q. split; [exact Hq|exact Hr].
Defined.

(** * Sending to a process *)

Section Kill.
Context (alive : Z -> bool) (sender : SignalSenderIds) (signum : option Z).

(** The sender may signal the thread. *)
Definition may_signal (t : PosixThread) : Prop := check_signal_perm t signum sender = Ok tt.

Definition no_panic (t : PosixThread) : Prop := check_signal_perm t signum sender <> Panic.

Lemma permitted_spec ts k :
  (forall t, t ∈ ts -> no_panic t) ->
  exists l, permitted ts signum sender k = Ok l /\ StronglySorted lt l /\
    forall i, i ∈ l <-> (k <= i)%nat /\ exists t, ts !! (i - k)%nat = Some t /\ may_signal t.
Proof.
  revert k. induction ts as [|t ts IH]; intros k Hp; simpl.
  - exists []. split; [done|]. split; [constructor|]. intros i. split; [set_solver|intros (_ & t & Ht & _); done].
  - destruct (IH (S k)) as (l & -> & Hs & Hl); [set_solver|]. clear IH.
    assert (Hsplit : forall i, ((k <= i)%nat /\ exists u, (t :: ts) !! (i - k)%nat = Some u /\ may_signal u) <->
       (i = k /\ may_signal t) \/ i ∈ l).
    { intros i. rewrite Hl. split.
      - intros [Hk (u & Hu & Hm)]. destruct (decide (i = k)) as [->|Hne].
        + left. rewrite Nat.sub_diag in Hu. simpl in Hu. by simplify_eq.
        + right. split; [lia|]. exists u. replace (i - k)%nat with (S (i - S k)) in Hu by lia. done.
      - intros [[-> Hm]|[Hk (u & Hu & Hm)]].
        + split; [lia|]. exists t. by rewrite Nat.sub_diag.
        + split; [lia|]. exists u. by replace (i - k)%nat with (S (i - S k)) by lia. }
    specialize (Hp t ltac:(set_solver)). unfold no_panic, may_signal in *.
    destruct (check_signal_perm t signum sender) as [[]|e|] eqn:Hc; [| |done].
    + exists (k :: l). split; [done|]. split.
      * constructor; [done|]. apply Forall_forall. intros i Hi. apply Hl in Hi as [? _]. lia.
      * intros i. rewrite Hsplit, elem_of_cons. intuition.
    + exists l. split; [done|]. split; [done|]. intros i. rewrite Hsplit. intuition. done.
Qed.

Lemma find_least (f : nat -> bool) l i :
  StronglySorted lt l -> List.find f l = Some i -> i ∈ l /\ f i = true /\ forall j, j ∈ l -> (j < i)%nat -> f j = false.
Proof.
  intros Hs. induction Hs as [|x l Hs IH Hx]; simpl; [done|]. destruct (f x) eqn:Hf.
  - intros [= <-]. split; [set_solver|]. split; [done|]. intros j. rewrite elem_of_cons. rewrite Forall_forall in Hx.
    intros [->|Hj]; [lia|]. pose proof (Hx j Hj). lia.
  - intros Hfi. destruct (IH Hfi) as (Hin & Hfi' & Hlt). split; [set_solver|]. split; [done|].
    intros j. rewrite elem_of_cons. intros [->|Hj] ?; [done|by apply Hlt].
Qed.

Lemma find_none_all {A} (f : A -> bool) l x : List.find f l = None -> x ∈ l -> f x = false.
Proof. intros Hn Hx. apply (List.find_none _ _ Hn). by apply list_elem_of_In. Qed.

End Kill.

(** [i] is the thread of [ts] that gets the signal: the first that may get it
    and does not block it, or the first that may get it when all block it. *)
Definition is_target (sender : SignalSenderIds) (s : Signal) (ts : list PosixThread) (i : nat) (t : PosixThread) : Prop :=
  ts !! i = Some t /\ may_signal sender (Some (s_num s)) t /\
  let earlier P := forall j u, (j < i)%nat -> ts !! j = Some u -> may_signal sender (Some (s_num s)) u -> P u in
  (has_signal_blocked t s = false /\ earlier (fun u => has_signal_blocked u s = true)) \/
  (earlier (fun _ => False) /\
   forall j u, ts !! j = Some u -> may_signal sender (Some (s_num s)) u -> has_signal_blocked u s = true).

Lemma target_found sender s ts l first rest :
  StronglySorted lt l ->
  (forall i, i ∈ l <-> exists t, ts !! i = Some t /\ may_signal sender (Some (s_num s)) t) ->
  l = first :: rest ->
  exists t, is_target sender s ts (default first (first_unblocked ts l s)) t.
Proof.
  intros Hs Hl ->. unfold first_unblocked.
  set (f := fun i => match ts !! i with Some t => negb (has_signal_blocked t s) | None => false end).
  destruct (List.find f (first :: rest)) as [i|] eqn:Hf; cbn [default].
  - destruct (find_least _ _ _ Hs Hf) as (Hi & Hfi & Hlt). apply Hl in Hi as (t & Ht & Hm).
    exists t. split; [done|]. split; [done|]. left. unfold f in Hfi. rewrite Ht in Hfi.
    split; [by apply negb_true_iff|]. intros j u Hj Hu Hmu.
    assert (f j = false) as Hfj by (apply Hlt; [apply Hl; eauto|done]). unfold f in Hfj. rewrite Hu in Hfj.
    by apply negb_false_iff.
  - destruct (proj1 (Hl first)) as (t & Ht & Hm); [set_solver|]. exists t. split; [done|]. split; [done|].
    right. split.
    + intros j u Hj Hu Hmu. assert (j ∈ first :: rest) as Hin by (apply Hl; eauto).
      apply elem_of_cons in Hin as [->|Hin]; [lia|]. inversion_clear Hs as [|? ? _ Hall].
      rewrite Forall_forall in Hall. pose proof (Hall j Hin). lia.
    + intros j u Hu Hmu. assert (f j = false) as Hfj by (apply (find_none_all _ _ _ Hf); apply Hl; eauto).
      unfold f in Hfj. rewrite Hu in Hfj. by apply negb_false_iff.
Qed.

(** The pending signals of a thread, with room for one more. *)
Definition pending_room (t : PosixThread) (p : list Signal) : Prop :=
  sq_repr (t_queues t) p /\ Z.of_nat (length p) < usize_max.

Lemma enqueue_at_ok alive s i ts t p :
  ts !! i = Some t -> pending_room t p -> valid_signum (s_num s) ->
  exists q, enqueue_at alive s i ts = Ok (<[i := put_queues q t]> ts) /\ sq_repr q (spec_enqueue p s).
Proof.
  intros Ht [Hr Hlen] Hv. destruct (enqueue_refines _ _ alive s Hr Hv Hlen) as (q & Hq & Hr').
  exists q. split; [|done]. unfold enqueue_at, thread_enqueue. rewrite Ht. cbn [ounwrap obind]. by rewrite Hq.
Qed.

Lemma kill_pid_err alive sender signal pid tb ts e :
  bt_get pid tb = Some ts -> kill_process alive sender signal ts = Err e ->
  kill_pid alive sender signal pid tb = (Err e, tb).
Proof. intros Hg Hk. unfold kill_pid. by rewrite Hg, Hk. Qed.

Lemma sfor_app_err {S E A} (l1 l2 : list A) x (body : A -> stM S E unit) s s1 e s2 :
  sfor l1 body s = (Ok tt, s1) -> body x s1 = (Err e, s2) ->
  sfor (l1 ++ x :: l2) body s = (Err e, s2).
Proof.
  revert s. induction l1 as [|y l1 IH]; intros s; simpl.
  - intros [= <-] Hb. unfold sbind. by rewrite Hb.
  - unfold sbind. destruct (body y s) as [[[]|e'|] s']; [apply IH|done|done].
Qed.

(** C34: [kill] of a process.  When no check panics, it is [EPERM] if the
    sender may signal no thread of the process; otherwise signal 0 changes
    nothing, and a signal becomes pending in exactly one thread: the first
    permitted one that does not block it, or the first permitted one if all
    block it.  A group is signalled process by process and the call stops at
    the first process that may not be signalled, so the later ones get
    nothing. *)
Theorem kill_process_spec alive sender ts :
  (forall sig, (forall t, t ∈ ts -> no_panic sender (s_num <$> sig) t) ->
     (forall t, t ∈ ts -> ~ may_signal sender (s_num <$> sig) t) ->
     kill_process alive sender sig ts = Err EPERM) /\
  (forall t, (forall t, t ∈ ts -> no_panic sender None t) -> t ∈ ts -> may_signal sender None t ->
     kill_process alive sender None ts = Ok ts) /\
  (forall s t, (forall t, t ∈ ts -> no_panic sender (Some (s_num s)) t) ->
     (forall t, t ∈ ts -> exists p, pending_room t p) -> valid_signum (s_num s) ->
     t ∈ ts -> may_signal sender (Some (s_num s)) t ->
     exists i u p q, is_target sender s ts i u /\ sq_repr (t_queues u) p /\ sq_repr q (spec_enqueue p s) /\
       kill_process alive sender (Some s) ts = Ok (<[i := put_queues q u]> ts)) /\
  (forall pids1 pid pids2 sig tb tb1, kill_group alive sender (Some pids1) sig tb = (Ok tt, tb1) ->
     bt_get pid tb1 = Some ts -> kill_process alive sender sig ts = Err EPERM ->
     kill_group alive sender (Some (pids1 ++ pid :: pids2)) sig tb = (Err EPERM, tb1)).
Proof.
  split_and!.
  - intros sig Hp Hno. destruct (permitted_spec sender (s_num <$> sig) ts 0 Hp) as (l & Hl & _ & Hin).
    unfold kill_process. rewrite Hl. cbn [obind]. destruct l as [|i l]; [done|].
    destruct (proj1 (Hin i)) as (_ & t & Ht & Hm); [set_solver|]. destruct (Hno t); [|done].
    by eapply list_elem_of_lookup_2.
  - intros t Hp Ht Hm. destruct (permitted_spec sender None ts 0 Hp) as (l & Hl & _ & Hin).
    unfold kill_process. cbn [fmap option_fmap option_map]. rewrite Hl. cbn [obind]. destruct l; [|done].
    apply list_elem_of_lookup in Ht as [i Hi]. assert (i ∈ []) as Hbad; [|set_solver].
    apply Hin. split; [lia|]. exists t. by rewrite Nat.sub_0_r.
  - intros s t Hp Hroom Hv Ht Hm. destruct (permitted_spec sender (Some (s_num s)) ts 0 Hp) as (l & Hl & Hs & Hin).
    assert (Hin' : forall i, i ∈ l <-> exists t, ts !! i = Some t /\ may_signal sender (Some (s_num s)) t).
    { intros i. rewrite Hin, Nat.sub_0_r. intuition lia. }
    apply list_elem_of_lookup in Ht as [j Hj]. destruct l as [|first rest] eqn:Hll.
    { assert (j ∈ []) as Hbad; [|set_solver]. apply Hin'. eauto. }
    destruct (target_found sender s ts (first :: rest) first rest Hs Hin' eq_refl) as [u Hu].
    pose proof Hu as (Hlu & _). destruct (Hroom u) as [p Hpu]; [by eapply list_elem_of_lookup_2|].
    destruct (enqueue_at_ok alive s _ ts u p Hlu Hpu Hv) as (q & Hq & Hr). destruct Hpu as [Hpu _].
    exists (default first (first_unblocked ts (first :: rest) s)), u, p, q. split; [done|]. split; [done|]. split; [done|].
    unfold kill_process. cbn [fmap option_fmap option_map]. rewrite Hl. cbn [obind]. exact Hq.
  - intros pids1 pid pids2 sig tb tb1 Hk Hg He. simpl in *. eapply sfor_app_err; [exact Hk|]. by eapply kill_pid_err.
Qed.

Lemma kill_process_spec_witness :
  let t := MkThread 7 (Some 1) ThRunning (credentials_new 1000 5) 0 sig_queues_new None None in
  let busy := put_mask (sig_bit 15) t in
  exists q, kill_process (fun _ => true) (MkSender 1000 1000 1) (Some (UserSignal 15 Kill 3 1000)) [busy; t]
      = Ok [busy; put_queues q t].
Proof.
  intros t busy.
  destruct (kill_process_spec (fun _ => true) (MkSender 1000 1000 1) [busy; t]) as (_ & _ & Hk & _).
  assert (Hroom : forall u, u ∈ [busy; t] -> exists p, pending_room u p).
  { intros u Hu. exists []. split; [|by vm_compute]. assert (t_queues u = sig_queues_new) as -> by set_solver.
    apply sig_queues_new_repr. }
  destruct (Hk (UserSignal 15 Kill 3 1000) t) as (i & u & p & q & (Hi & _ & Htgt) & _ & _ & Heq);
    [intros u Hu; unfold no_panic; set_solver|done|by vm_compute|set_solver|by vm_compute|].
  exists q. rewrite Heq. destruct i as [|[|i]]; [|by simpl in Hi; simplify_eq|done].
  exfalso. by simpl in Hi; simplify_eq.
Defined.
