(* ===== verification/SignalReturn.v ===== *)
(** A user handler for a signal and the return from it
    ([handle_user_signal] of process/signal/mod.rs and
    syscall/rt_sigreturn.rs). *)

From S2P Require Import Prelude BTree AlignExt Perms Credentials Pod Signals.

(** * Masks *)

Lemma mask_unblock_block old m :
  0 <= old < 2 ^ 64 -> 0 <= m < 2 ^ 64 -> mask_unblock (mask_block old m) m = Z.ldiff old m.
Proof.
  intros Ho Hm. unfold unot, uint_max. apply Z.bits_inj'. intros i Hi.
  change (2 ^ 64 - 1) with (Z.ones 64). rewrite Z.land_spec, Z.lor_spec, Z.ldiff_spec, Z.lxor_spec.
  destruct (decide (i < 64)) as [Hlt|Hge].
  - rewrite Z.ones_spec_low by lia. by destruct (Z.testbit old i), (Z.testbit m i).
  - assert (Hhigh : forall x, 0 <= x < 2 ^ 64 -> Z.testbit x i = false).
    { intros x Hx. destruct (decide (x = 0)) as [->|]; [apply Z.bits_0|].
      apply Z.bits_above_log2; [lia|]. assert (Z.log2 x < 64) by (apply Z.log2_lt_pow2; lia). lia. }
    by rewrite !Hhigh by done.
Qed.

Lemma lor_u64 a b : 0 <= a < 2 ^ 64 -> 0 <= b < 2 ^ 64 -> 0 <= mask_block a b < 2 ^ 64.
Proof.
  intros Ha Hb. assert (0 <= Z.lor a b) by (apply Z.lor_nonneg; lia). split; [done|].
  destruct (decide (Z.lor a b = 0)) as [->|Hne]; [lia|]. apply Z.log2_lt_pow2; [lia|]. rewrite Z.log2_lor by lia.
  assert (Hlog : forall x, 0 <= x < 2 ^ 64 -> Z.log2 x < 64).
  { intros x Hx. destruct (decide (x = 0)) as [->|]; [done|]. apply Z.log2_lt_pow2; lia. }
  pose proof (Hlog a Ha). pose proof (Hlog b Hb). lia.
Qed.

Lemma ldiff_id_iff a b : Z.ldiff a b = a <-> Z.land a b = 0.
Proof.
  split; intros Heq.
  - rewrite <- Heq. apply Z.bits_inj'. intros i Hi. rewrite Z.land_spec, Z.ldiff_spec, Z.bits_0.
    by destruct (Z.testbit a i), (Z.testbit b i).
  - apply Z.bits_inj'. intros i Hi. apply (f_equal (fun x => Z.testbit x i)) in Heq.
    rewrite Z.land_spec, Z.bits_0 in Heq. rewrite Z.ldiff_spec. by destruct (Z.testbit a i), (Z.testbit b i).
Qed.

Lemma align16_inv x y :
  0 <= x <= usize_max -> @align_down 64 Errno x 16 = Ok y -> x - 16 < y <= x /\ (16 | y) /\ 0 <= y.
Proof.
  intros Hx. change 16 with (2 ^ 4) at 1. rewrite align_down_eq by (unfold usize_max in *; lia).
  intros [= <-]. change (2 ^ 4) with 16. pose proof (Z.div_mod x 16). pose proof (Z.mod_pos_bound x 16).
  split; [lia|]. split; [by exists (x / 16)|]. pose proof (Z.div_pos x 16). lia.
Qed.

(** * Delivery *)

Section Return.
Context {R M : Type} `{GeneralRegsLaws R} `{UserMemLaws M}.

Implicit Types u : ustate R M.

Definition handler_mask (n flags mask : Z) : Z :=
  if flags_contain flags SA_NODEFER then mask else mask_block mask (sig_bit n).

Lemma ucontext_bytes_length (uc : ucontext_t R) : length (ucontext_bytes uc) = ucontext_size.
Proof.
  unfold ucontext_bytes, ucontext_size, zeros.
  rewrite !length_app, !length_replicate, !le_bytes_length, regs_bytes_length. lia.
Qed.

Lemma ucontext_roundtrip (uc : ucontext_t R) :
  0 <= uc_link uc < 2 ^ 64 -> 0 <= uc_sigmask uc < 2 ^ 64 -> ucontext_of_bytes (ucontext_bytes uc) = uc.
Proof.
  intros Hl Hs. destruct uc as [link regs mask]. unfold ucontext_of_bytes, ucontext_bytes. cbn [uc_link uc_gp_regs uc_sigmask] in *.
  f_equal.
  - rewrite field_app; [by apply le8_roundtrip|done|apply le_bytes_length].
  - rewrite (assoc_L (++) (zeros 8)), (assoc_L (++) (zeros 8 ++ _)).
    rewrite field_app; [apply regs_roundtrip| |apply regs_bytes_length].
    rewrite !length_app, le_bytes_length. done.
  - rewrite (assoc_L (++) (zeros 8)), (assoc_L (++) (zeros 8 ++ _)), (assoc_L (++) ((zeros 8 ++ _) ++ _)),
      (assoc_L (++) (((zeros 8 ++ _) ++ _) ++ _)).
    rewrite field_app; [by apply le8_roundtrip| |apply le_bytes_length].
    rewrite !length_app, le_bytes_length, regs_bytes_length. unfold zeros. rewrite !length_replicate. lia.
Qed.

Lemma on_mem_inv {A} (m : stM M Errno A) u a u' :
  on_mem m u = (Ok a, u') ->
  (m (u_mem u)).1 = Ok a /\ u' = MkU (u_th u) (u_regs u) (m (u_mem u)).2.
Proof. unfold on_mem. destruct (m (u_mem u)) as [r mem]. intros [= -> <-]. done. Qed.

Definition bump (s : SigStack) : SigStack := MkSigStack (ss_base s) (ss_flags s) (ss_size s) (handler_counter s + 1).

(** Bytes below the initial stack pointer that delivery uses. *)
Definition frame_bytes : Z := 128 + 128 + Z.of_nat (@ucontext_size R _) + 48.

(** The alternate stack is large enough: for a first handler from its top, for
    a nested one from the current stack pointer.  No stack that
    [sys_sigaltstack] accepts is [SS_AUTODISARM]. *)
Definition stack_fits u : Prop :=
  forall s, t_stack (u_th u) = Some s ->
    flags_contain (ss_flags s) SS_AUTODISARM = false /\ 0 <= handler_counter s /\
    0 <= ss_base s /\ ss_base s + ss_size s <= usize_max /\
    let sp := if handler_counter s =? 0 then ss_base s + ss_size s else rsp (u_regs u) in
    ss_base s + frame_bytes <= sp <= ss_base s + ss_size s.

Lemma use_alternate_inv u o u1 :
  is_usize (rsp (u_regs u)) -> stack_fits u -> use_alternate_signal_stack u = (Ok o, u1) ->
  let sp := default (rsp (u_regs u)) o in
  u1 = MkU (put_stack (bump <$> t_stack (u_th u)) (u_th u)) (u_regs u) (u_mem u) /\ is_usize sp /\
  forall s, t_stack (u_th u) = Some s -> ss_base s + frame_bytes - 16 <= sp <= ss_base s + ss_size s.
Proof.
  intros Hrsp Hfit. unfold use_alternate_signal_stack, get_th. cbn [sbind].
  destruct (t_stack (u_th u)) as [s|] eqn:Hs.
  2: { intros [= <- <-]. split; [|done]. destruct u as [[] ? ?]; simpl in *. by subst. }
  destruct (Hfit s Hs) as (Hflag & Hcnt & Hbase & _ & Hroom).
  rewrite Hflag, andb_false_r, andb_true_r. intros Hrun.
  apply sbind_inv in Hrun as (s' & u' & Hinc & Hrun). apply slift_inv in Hinc as [Hinc ->].
  unfold increase_handler_counter in Hinc. destruct (uadd (handler_counter s) 1) as [c| |] eqn:Hc; [|done|done].
  apply uadd_inv in Hc as [-> _]. injection Hinc as <-.
  apply sbind_inv in Hrun as ([] & u' & [= <-] & Hrun).
  destruct (Z.eqb_spec (handler_counter s) 0) as [Hz|Hz]; cbn [negb] in Hrun; cbn zeta in Hroom.
  - apply sbind_inv in Hrun as (top & u' & Htop & Hrun). apply slift_inv in Htop as [Htop ->].
    destruct (uadd (ss_base s) (ss_size s)) as [t| |] eqn:Ht; [|done|done]. apply uadd_inv in Ht as [-> Hmax].
    cbn [obind] in Htop. injection Hrun as <- <-. cbn [from_option id]. unfold frame_bytes in *.
    apply align16_inv in Htop; [|lia]. split; [done|]. unfold is_usize. split; [lia|].
    intros s' [= <-]. lia.
  - injection Hrun as <- <-. cbn [from_option id]. split; [done|]. split; [done|]. intros s' [= <-]. lia.
Qed.

Lemma write_u64_inv sp v u sp' u1 :
  write_u64_to_user_stack sp v u = (Ok sp', u1) ->
  sp' = sp - 8 /\ 8 <= sp /\ (write_user sp' (le_bytes 8 v) (u_mem u)).1 = Ok tt /\
  u1 = MkU (u_th u) (u_regs u) (write_user sp' (le_bytes 8 v) (u_mem u)).2.
Proof.
  unfold write_u64_to_user_stack. intros Hrun.
  apply sbind_inv in Hrun as (sp1 & u' & Hsp & Hrun). apply slift_inv in Hsp as [Hsp ->].
  apply usub_inv in Hsp as [-> Hle]. apply sbind_inv in Hrun as ([] & u' & Hw & Hrun).
  apply on_mem_inv in Hw as [Hw ->]. injection Hrun as <- <-. done.
Qed.

(** The return address goes below the saved context, which stays readable. *)
Lemma return_address_inv flags restorer addr x u sp u1 :
  (if flags_contain flags SA_RESTORER then write_u64_to_user_stack addr restorer
   else let! rip := slift (usub addr 8) in
        on_mem (write_user rip TRAMPOLINE) ;! write_u64_to_user_stack rip rip) u = (Ok sp, u1) ->
  (read_user addr (@ucontext_size R _) (u_mem u)).1 = Ok x ->
  sp = (if flags_contain flags SA_RESTORER then addr - 8 else addr - 16) /\
  u_th u1 = u_th u /\ u_regs u1 = u_regs u /\ (read_user addr (@ucontext_size R _) (u_mem u1)).1 = Ok x.
Proof.
  intros Hrun Hx. destruct (flags_contain flags SA_RESTORER).
  - apply write_u64_inv in Hrun as (-> & Hle & Hw & ->). split; [done|]. split; [done|]. split; [done|].
    apply user_write_other; [done| |done]. right. rewrite le_bytes_length. lia.
  - apply sbind_inv in Hrun as (rip & u' & Hrip & Hrun). apply slift_inv in Hrip as [Hrip ->].
    apply usub_inv in Hrip as [-> Hle]. apply sbind_inv in Hrun as ([] & u' & Hw & Hrun).
    apply on_mem_inv in Hw as [Hw ->]. apply write_u64_inv in Hrun as (-> & Hle2 & Hw2 & ->).
    split; [lia|]. split; [done|]. split; [done|].
    apply user_write_other; [done|right; rewrite le_bytes_length; lia|].
    apply user_write_other; [done|right; simpl; lia|done].
Qed.

Lemma deliver_inv n h flags restorer mask code u u1 :
  is_usize (rsp (u_regs u)) -> stack_fits u ->
  handle_user_signal n h flags restorer mask code u = (Ok tt, u1) ->
  let th := u_th u in
  let m := handler_mask n flags mask in
  exists addr,
    u_th u1 = put_context (Some addr) (put_stack (bump <$> t_stack th) (put_mask (mask_block (t_mask th) m) th)) /\
    rsp (u_regs u1) = (if flags_contain flags SA_RESTORER then addr - 8 else addr - 16) /\ (16 | addr) /\
    (forall s, t_stack th = Some s -> ss_base s <= addr <= ss_base s + ss_size s) /\
    (read_user addr (@ucontext_size R _) (u_mem u1)).1 =
      Ok (ucontext_bytes (MkUcontext (default 0 (t_context th)) (u_regs u) m)).
Proof.
  intros Hrsp Hfit. unfold handle_user_signal. fold (handler_mask n flags mask). set (m := handler_mask n flags mask).
  destruct (contains_unsupported_flag flags); [done|]. intros Hrun.
  apply sbind_inv in Hrun as ([] & u' & [= <-] & Hrun). apply sbind_inv in Hrun as ([] & u' & [= <-] & Hrun).
  apply sbind_inv in Hrun as (alt & u2 & Halt & Hrun).
  apply use_alternate_inv in Halt as (-> & Husz & Hstk); [|done|done]. cbn [u_th u_regs u_mem] in *.
  set (sp0 := default (rsp (u_regs u)) alt) in *.
  apply sbind_inv in Hrun as (sp & u' & Hsp & Hrun).
  assert (sp = sp0 /\ u' = MkU (put_stack (bump <$> t_stack (u_th u)) (put_mask (mask_block (t_mask (u_th u)) m) (u_th u)))
    (u_regs u) (u_mem u)) as [-> ->] by (unfold sp0; destruct alt; by injection Hsp). clear Hsp.
  apply sbind_inv in Hrun as (sp1 & u' & Hsp & Hrun). apply slift_inv in Hsp as [Hsp ->]. apply usub_inv in Hsp as [-> Hle1].
  apply sbind_inv in Hrun as (si & u' & Hsp & Hrun). apply slift_inv in Hsp as [Hsp ->]. apply usub_inv in Hsp as [-> Hle2].
  apply sbind_inv in Hrun as ([] & u' & Hw1 & Hrun). apply on_mem_inv in Hw1 as [Hw1 ->]. cbn [u_th u_regs u_mem] in *.
  apply sbind_inv in Hrun as (addr & u' & Haddr & Hrun). unfold alloc_aligned_in_user_stack in Haddr.
  cbn [is_power_of_two negb] in Haddr. apply slift_inv in Haddr as [Haddr ->].
  destruct (usub (sp0 - 128 - 128) (Z.of_nat ucontext_size)) as [t| |] eqn:Ht; [|done|done].
  apply usub_inv in Ht as [-> Hle3]. cbn [obind] in Haddr. unfold is_usize in Husz.
  apply align16_inv in Haddr as (Hlo & Hdiv & Hpos); [|lia].
  apply sbind_inv in Hrun as (ctx & u' & [= <- <-] & Hrun). apply sbind_inv in Hrun as (regs & u' & [= <- <-] & Hrun).
  apply sbind_inv in Hrun as ([] & u' & Hw2 & Hrun). apply on_mem_inv in Hw2 as [Hw2 ->]. cbn [u_th u_regs u_mem] in *.
  apply sbind_inv in Hrun as ([] & u' & [= <-] & Hrun). cbn [u_th u_regs u_mem] in *.
  apply sbind_inv in Hrun as (sp & u' & Hret & Hrun).
  eapply return_address_inv in Hret as (-> & Hth & Hregs & Hread).
  2: { cbn [u_mem]. pose proof (user_write_read _ _ _ Hw2) as Hrd. rewrite ucontext_bytes_length in Hrd. exact Hrd. }
  apply sbind_inv in Hrun as ([] & u3 & [= <-] & Hrun). injection Hrun as <-. cbn [u_th u_regs u_mem].
  exists addr. split; [by rewrite Hth|]. split; [|split; [done|split]].
  - destruct (flags_contain flags 4); by rewrite rsp_set_rdx, rsp_set_rsi, rsp_set_rdi, rsp_set_rsp.
  - intros s Hs. specialize (Hstk s Hs). unfold frame_bytes in Hstk. lia.
  - exact Hread.
Qed.

(** * Return *)

Definition unbump (s : SigStack) : SigStack := MkSigStack (ss_base s) (ss_flags s) (ss_size s) (handler_counter s - 1).

Lemma sigreturn_ok u addr (uc : ucontext_t R) :
  t_context (u_th u) = Some addr -> rsp (u_regs u) = addr ->
  (read_user addr (@ucontext_size R _) (u_mem u)).1 = Ok (ucontext_bytes uc) ->
  0 <= uc_link uc < 2 ^ 64 -> 0 <= uc_sigmask uc < 2 ^ 64 ->
  (forall s, t_stack (u_th u) = Some s ->
     ss_base s <= addr /\ addr <= ss_base s + ss_size s /\ ss_base s + ss_size s <= usize_max /\ 1 <= handler_counter s) ->
  exists u', sys_rt_sigreturn u = (Ok tt, u') /\ u_regs u' = uc_gp_regs uc /\
    u_th u' = put_mask (mask_unblock (t_mask (u_th u)) (uc_sigmask uc))
                (put_context (if uc_link uc =? 0 then None else Some (uc_link uc))
                  (put_stack (unbump <$> t_stack (u_th u)) (u_th u))).
Proof.
  intros Hctx Hsp Hread Hlink Hmask Hstk. destruct u as [th regs mem]. cbn [u_th u_regs u_mem] in *.
  unfold sys_rt_sigreturn. erewrite sbind_ok by reflexivity. cbn [u_th]. rewrite Hctx.
  erewrite sbind_ok by reflexivity. cbn [u_regs]. rewrite Hsp, Z.eqb_refl, slift_ok with (a := tt) by done.
  destruct (read_user addr ucontext_size mem) as [r mem'] eqn:Hr. simpl in Hread. subst r.
  erewrite sbind_ok; [|unfold on_mem; cbn [u_mem]; by rewrite Hr]. cbv zeta. rewrite ucontext_roundtrip by done.
  erewrite sbind_ok by reflexivity. cbn [u_th u_regs u_mem]. destruct (t_stack th) as [s|] eqn:Hs.
  - destruct (Hstk s eq_refl) as (Hlo & Hhi & Hmax & Hcnt).
    erewrite sbind_ok.
    2: { rewrite (proj2 (Z.leb_le _ _) Hlo), (slift_ok _ _ _ (ss_base s + ss_size s)) by by apply uadd_ok.
         rewrite (proj2 (Z.leb_le _ _) Hhi). cbn [andb].
         rewrite (slift_ok _ _ _ (unbump s)) by (unfold decrease_handler_counter; by rewrite usub_ok).
         reflexivity. }
    eexists. split; [reflexivity|]. done.
  - eexists. split; [reflexivity|]. split; [done|]. cbn [u_th]. destruct th; simpl in *. by subst.
Qed.

Lemma handler_mask_u64 n flags mask :
  1 <= n <= 64 -> 0 <= mask < 2 ^ 64 -> 0 <= handler_mask n flags mask < 2 ^ 64.
Proof.
  intros Hn Hm. unfold handler_mask. destruct (flags_contain flags _); [done|].
  apply lor_u64; [done|]. unfold sig_bit. rewrite Z.shiftl_1_l.
  split; [apply Z.pow_nonneg; lia|]. apply Z.pow_lt_mono_r; lia.
Qed.

Lemma restored_thread th addr m :
  0 <= t_mask th < 2 ^ 64 -> 0 <= m < 2 ^ 64 -> (forall c, t_context th = Some c -> 0 < c) ->
  let th2 := put_context (Some addr) (put_stack (bump <$> t_stack th) (put_mask (mask_block (t_mask th) m) th)) in
  let link := default 0 (t_context th) in
  put_mask (mask_unblock (t_mask th2) m)
    (put_context (if link =? 0 then None else Some link) (put_stack (unbump <$> t_stack th2) th2)) =
  put_mask (Z.ldiff (t_mask th) m) th.
Proof.
  intros Hold Hm Hctx. destruct th as [pid sid st cred mk q ctx stk]. unfold put_mask, put_context, put_stack in *. simpl in *.
  rewrite mask_unblock_block by done. f_equal.
  - destruct ctx as [c|]; simpl; [|done]. specialize (Hctx c eq_refl). destruct (Z.eqb_spec c 0); [lia|done].
  - destruct stk as [[b f sz k]|]; simpl; [|done]. unfold unbump, bump. simpl. do 2 f_equal. lia.
Qed.

(** C19: a signal handler returns to the interrupted state.  When delivery to
    a handler succeeds and the handler returns without touching the saved
    context, [rt_sigreturn] restores the user registers, the enclosing signal
    context and the use of the alternate stack.  The blocked mask loses every
    signal that the handler had blocked, so it is the old mask exactly when
    that shared no signal with the handler's mask.  Without [SA_RESTORER] the
    return panics: the kernel's own trampoline leaves the stack pointer eight
    bytes below the saved context. *)
Theorem handler_roundtrip n h flags restorer mask code u u1 u2 :
  is_usize (rsp (u_regs u)) -> stack_fits u -> 1 <= n <= 64 -> 0 <= mask < 2 ^ 64 ->
  0 <= t_mask (u_th u) < 2 ^ 64 -> (forall c, t_context (u_th u) = Some c -> 0 < c < 2 ^ 64) ->
  handle_user_signal n h flags restorer mask code u = (Ok tt, u1) ->
  u_th u2 = u_th u1 -> rsp (u_regs u2) = rsp (u_regs u1) + 8 ->
  (forall addr, t_context (u_th u1) = Some addr ->
     (read_user addr (@ucontext_size R _) (u_mem u2)).1 = (read_user addr (@ucontext_size R _) (u_mem u1)).1) ->
  let m := handler_mask n flags mask in
  if flags_contain flags SA_RESTORER then
    exists u3, sys_rt_sigreturn u2 = (Ok tt, u3) /\ u_regs u3 = u_regs u /\
      u_th u3 = put_mask (Z.ldiff (t_mask (u_th u)) m) (u_th u) /\
      (u_th u3 = u_th u <-> Z.land (t_mask (u_th u)) m = 0)
  else (sys_rt_sigreturn u2).1 = Panic.
Proof.
  intros Hrsp Hfit Hn Hmask Hold Hctx Hrun Hth Hsp Hmem m. pose proof (handler_mask_u64 n flags mask Hn Hmask) as Hm.
  destruct (deliver_inv _ _ _ _ _ _ _ _ Hrsp Hfit Hrun) as (addr & Hth1 & Hsp1 & _ & Hin & Hread).
  rewrite Hth1 in Hth, Hmem. rewrite <- (Hmem addr eq_refl) in Hread. clear Hmem.
  destruct (flags_contain flags 0x04000000) eqn:Hflag.
  - destruct (sigreturn_ok u2 addr (MkUcontext (default 0 (t_context (u_th u))) (u_regs u) m)) as (u3 & Hret & Hregs & Hth3).
    + by rewrite Hth.
    + lia.
    + exact Hread.
    + cbn [uc_link]. destruct (t_context (u_th u)) as [c|] eqn:Hc; simpl; [|lia]. destruct (Hctx c eq_refl). lia.
    + done.
    + rewrite Hth. simpl. intros s Hs. apply fmap_Some in Hs as (s0 & Hs0 & ->).
      destruct (Hin s0 Hs0). destruct (Hfit s0 Hs0) as (_ & Hcnt & _ & Hmax & _). simpl. lia.
    + exists u3. split; [done|]. split; [done|].
      assert (Hth3' : u_th u3 = put_mask (Z.ldiff (t_mask (u_th u)) m) (u_th u)); [|split; [done|]].
      { rewrite Hth3, Hth. apply (restored_thread (u_th u) addr m Hold Hm). intros c Hc. by destruct (Hctx c Hc). }
      rewrite Hth3', <- ldiff_id_iff. split.
      * intros Heq. by apply (f_equal t_mask) in Heq.
      * intros ->. by destruct (u_th u).
  - unfold sys_rt_sigreturn. erewrite sbind_ok by reflexivity. rewrite Hth. simpl.
    unfold sbind at 1. rewrite Hsp, Hsp1. replace (addr =? addr - 16 + 8) with false by (symmetry; apply Z.eqb_neq; lia). done.
Qed.

End Return.

(** * [SIGKILL] *)

Lemma mask_contains_testbit bits n : 1 <= n -> mask_contains bits n = Z.testbit bits (n - 1).
Proof.
  intros Hn. unfold sig_bit. rewrite Z.shiftl_1_l.
  destruct (Z.testbit bits (n - 1)) eqn:Hb.
  - apply negb_true_iff, Z.eqb_neq. intros Heq. apply (f_equal (fun x => Z.testbit x (n - 1))) in Heq.
    rewrite Z.land_spec, Hb, Z.pow2_bits_true, Z.bits_0 in Heq by lia. done.
  - apply negb_false_iff, Z.eqb_eq. apply Z.bits_inj'. intros i Hi. rewrite Z.land_spec, Z.pow2_bits_eqb, Z.bits_0 by lia.
    destruct (Z.eqb_spec (n - 1) i) as [<-|]; [by rewrite Hb|apply andb_false_r].
Qed.

Section SigKill.
Context {R M : Type} `{GeneralRegs R} `{UserMem M}.
Implicit Types u : ustate R M.

Lemma sigprocmask_keeps_kill op set_ptr old_ptr u u' :
  op <> SetMask -> mask_contains (t_mask (u_th u)) SIGKILL = false ->
  do_rt_sigprocmask op set_ptr old_ptr u = (Ok tt, u') -> mask_contains (t_mask (u_th u')) SIGKILL = false.
Proof.
  intros Hop Hno Hrun. unfold do_rt_sigprocmask in Hrun.
  apply sbind_inv in Hrun as (old & u0 & [= <- <-] & Hrun). apply sbind_inv in Hrun as ([] & u1 & Hw & Hrun).
  assert (Hth : u_th u1 = u_th u) by (destruct (old_ptr =? 0); [by injection Hw as <-|by apply on_mem_inv in Hw as [_ ->]]).
  destruct (set_ptr =? 0); [injection Hrun as <-; by rewrite Hth|].
  apply sbind_inv in Hrun as (bytes & u2 & Hrd & Hrun). apply on_mem_inv in Hrd as [_ ->]. injection Hrun as <-.
  cbn [u_th put_mask t_mask]. rewrite Hth. rewrite mask_contains_testbit in * by lia. destruct op; [| |done].
  - unfold unot, sig_bit. rewrite Z.lor_spec, Hno, !Z.land_spec, !Z.lxor_spec.
    change (Z.testbit (Z.shiftl 1 (9 - 1)) (9 - 1)) with true. change (Z.testbit (uint_max 64) (9 - 1)) with true.
    by rewrite andb_false_r.
  - by rewrite Z.land_spec, Hno.
Qed.

(** C35: [SIGKILL] is only partly protected.  A successful [rt_sigprocmask]
    with [SIG_BLOCK] or [SIG_UNBLOCK] never blocks it, but with [SIG_SETMASK]
    it can be blocked, and [rt_sigaction] accepts [SIG_IGN] for it, after which
    a pending [SIGKILL] is dropped.  An invalid [how] panics the kernel. *)
Theorem sigkill_unprotected u disp :
  (forall op set_ptr old_ptr u', op <> SetMask -> mask_contains (t_mask (u_th u)) SIGKILL = false ->
     do_rt_sigprocmask op set_ptr old_ptr u = (Ok tt, u') -> mask_contains (t_mask (u_th u')) SIGKILL = false) /\
  (forall set_ptr, set_ptr <> 0 -> (read_user set_ptr 8 (u_mem u)).1 = Ok (le_bytes 8 (sig_bit SIGKILL)) ->
     exists u', sys_rt_sigprocmask 2 set_ptr 0 u = (Ok 0, u') /\ mask_contains (t_mask (u_th u')) SIGKILL = true) /\
  (forall ptr, ptr <> 0 -> length disp = COUNT_ALL_SIGS ->
     (read_user ptr 32 (u_mem u)).1 = Ok (sigaction_bytes (as_c_type ActIgn)) ->
     exists mem, sys_rt_sigaction SIGKILL ptr 0 (disp, u_mem u) = (Ok 0, (<[8%nat := ActIgn]> disp, mem))) /\
  (forall q s, dequeue (t_mask (u_th u)) (t_queues (u_th u)) = Ok (Some s, q) -> s_num s = SIGKILL ->
     disp_get disp SIGKILL = Ok ActIgn ->
     handle_pending_signal disp u = (Ok Ignored, MkU (put_queues q (u_th u)) (u_regs u) (u_mem u))) /\
  (forall how set_ptr old_ptr, 2 < how -> sys_rt_sigprocmask how set_ptr old_ptr u = (Panic, u)).
Proof.
  split_and!.
  - intros op set_ptr old_ptr u'. apply sigprocmask_keeps_kill.
  - intros p Hp Hr. unfold sys_rt_sigprocmask, do_rt_sigprocmask. rewrite (proj2 (Z.eqb_neq _ _) Hp).
    unfold sbind, slift, get_th, on_mem, sret. cbn. destruct (read_user p 8 (u_mem u)) as [r mem]. simpl in Hr. subst r.
    eexists. split; [done|]. done.
  - intros p Hp Hlen Hr. unfold sys_rt_sigaction. rewrite (proj2 (Z.eqb_neq _ _) Hp).
    destruct (lookup_lt_is_Some_2 disp 8) as [a Ha]; [lia|].
    unfold sbind, slift, sret, disp_set. cbn. change (Z.to_nat (9 - 1)) with 8%nat. rewrite Ha. cbn.
    destruct (read_user p 32 (u_mem u)) as [r mem]. simpl in Hr. subst r. cbn. rewrite Ha. by eexists.
  - intros q s Hd Hs Hi. unfold handle_pending_signal, sbind. rewrite Hd. rewrite Hs. unfold slift. by rewrite Hi.
  - intros how p o Hh. unfold sys_rt_sigprocmask, sbind, slift.
    destruct (Z.eqb_spec how 0); [lia|]. destruct (Z.eqb_spec how 1); [lia|]. by destruct (Z.eqb_spec how 2); [lia|].
Qed.

End SigKill.

(** Five registers, each stored as one cell. *)
Record five_regs : Type := Five { f_rip : Z; f_rsp : Z; f_rdi : Z; f_rsi : Z; f_rdx : Z }.

#[local] Instance five_general_regs : GeneralRegs five_regs := {
  rsp := f_rsp;
  set_rip v r := Five v (f_rsp r) (f_rdi r) (f_rsi r) (f_rdx r);
  set_rsp v r := Five (f_rip r) v (f_rdi r) (f_rsi r) (f_rdx r);
  set_rdi v r := Five (f_rip r) (f_rsp r) v (f_rsi r) (f_rdx r);
  set_rsi v r := Five (f_rip r) (f_rsp r) (f_rdi r) v (f_rdx r);
  set_rdx v r := Five (f_rip r) (f_rsp r) (f_rdi r) (f_rsi r) v;
  regs_size := 5;
  regs_bytes r := [f_rip r; f_rsp r; f_rdi r; f_rsi r; f_rdx r];
  regs_of_bytes l := match l with [a; b; c; d; e] => Five a b c d e | _ => Five 0 0 0 0 0 end;
}.

#[local] Instance five_general_regs_laws : GeneralRegsLaws five_regs.
Proof. split; try done. by intros []. Qed.

Lemma handler_roundtrip_witness :
  let th := MkThread 7 (Some 1) ThRunning (credentials_new 1000 5) (sig_bit 2) sig_queues_new None None in
  let u := MkU th (Five 0x400 0x8000 1 2 3) (FlatMem 0 0x10000 (fun _ => 0)) in
  let u1 := (handle_user_signal 10 0x500 SA_RESTORER 0x600 (sig_bit 2) 0 u).2 in
  exists u3, sys_rt_sigreturn (MkU (u_th u1) (set_rsp (rsp (u_regs u1) + 8) (u_regs u1)) (u_mem u1)) = (Ok tt, u3) /\
    u_regs u3 = Five 0x400 0x8000 1 2 3 /\ u_th u3 = put_mask 0 th.
Proof.
  intros th u u1.
  destruct (handler_roundtrip 10 0x500 SA_RESTORER 0x600 (sig_bit 2) 0 u u1
    (MkU (u_th u1) (set_rsp (rsp (u_regs u1) + 8) (u_regs u1)) (u_mem u1))) as (u3 & Hret & Hregs & Hth & _).
  - by vm_compute.
  - intros s Hs. done.
  - lia.
  - by vm_compute.
  - by vm_compute.
  - done.
  - rewrite (surjective_pairing (handle_user_signal _ _ _ _ _ _ u)). by f_equal.
  - done.
  - done.
  - done.
  - exists u3. split; [exact Hret|]. split; [exact Hregs|]. rewrite Hth. by vm_compute.
Defined.

Lemma sigkill_unprotected_witness :
  let th := MkThread 7 (Some 1) ThRunning (credentials_new 1000 5) 0 sig_queues_new None None in
  let u := MkU th (Five 0 0 0 0 0) (FlatMem 0 0x1000 (fun a => if a =? 0x101 then 1 else 0)) in
  exists u', sys_rt_sigprocmask 2 0x100 0 u = (Ok 0, u') /\ mask_contains (t_mask (u_th u')) SIGKILL = true.
Proof.
  intros th u. destruct (sigkill_unprotected u dispositions_new) as (_ & Hset & _).
  apply Hset; [lia|by vm_compute].
Defined.
