(* ===== verification/ProcessTree.v ===== *)
(** Processes, process groups and sessions
    (kernel/aster-nix/src/process/process/mod.rs, process_group.rs,
    session.rs, process_table.rs, the tables part of process/clone.rs,
    exit.rs and wait.rs, and the system calls [setsid] and [setpgid]).

    A process object is named by its pid, which is never reused; group and
    session objects live in stores and are named by their index, since a
    session may keep a group object that the group table no longer has.  Calls
    are atomic: each holds the locks of the tables it changes. *)

From S2P Require Import Prelude BTree Perms.

(** * Objects *)

Inductive ProcessStatus : Type := Uninit | Runnable | Zombie (term_status : Z).

Record Process : Type := MkProcess {
  p_status : ProcessStatus;
  p_parent : option Z;
  p_children : list (Z * unit);
  p_group : option nat;       (* [Weak<ProcessGroup>] *)
}.

Record ProcessGroup : Type := MkGroup {
  g_pgid : Z;
  g_processes : list (Z * unit);
  g_leader : option Z;
  g_session : option nat;     (* [Weak<Session>] *)
}.

Record Session : Type := MkSession {
  s_sid : Z;
  s_groups : list (Z * nat);
  s_leader : option Z;
}.

Record ptable : Type := MkTable {
  processes : list (Z * Process);     (* [PROCESS_TABLE] *)
  group_table : list (Z * nat);       (* [PROCESS_GROUP_TABLE] *)
  session_table : list (Z * nat);     (* [SESSION_TABLE] *)
  groups : list ProcessGroup;
  sessions : list Session;
  next_tid : Z;                       (* [TID_ALLOCATOR] *)
}.

Definition treeM (A : Type) : Type := stM ptable Errno A.

Definition set_processes (x : list (Z * Process)) (t : ptable) : ptable :=
  MkTable x (group_table t) (session_table t) (groups t) (sessions t) (next_tid t).
Definition set_group_table (x : list (Z * nat)) (t : ptable) : ptable :=
  MkTable (processes t) x (session_table t) (groups t) (sessions t) (next_tid t).
Definition set_session_table (x : list (Z * nat)) (t : ptable) : ptable :=
  MkTable (processes t) (group_table t) x (groups t) (sessions t) (next_tid t).
Definition set_groups (x : list ProcessGroup) (t : ptable) : ptable :=
  MkTable (processes t) (group_table t) (session_table t) x (sessions t) (next_tid t).
Definition set_sessions (x : list Session) (t : ptable) : ptable :=
  MkTable (processes t) (group_table t) (session_table t) (groups t) x (next_tid t).
Definition set_next_tid (x : Z) (t : ptable) : ptable :=
  MkTable (processes t) (group_table t) (session_table t) (groups t) (sessions t) x.

Definition get {A} (f : ptable -> A) : treeM A := fun t => (Ok (f t), t).
Definition modify (f : ptable -> ptable) : treeM unit := fun t => (Ok tt, f t).

Definition get_process (pid : Z) : treeM Process := fun t => (ounwrap (bt_get pid (processes t)), t).
Definition get_group (g : nat) : treeM ProcessGroup := fun t => (ounwrap (groups t !! g), t).
Definition get_session (s : nat) : treeM Session := fun t => (ounwrap (sessions t !! s), t).

Definition upd_process (pid : Z) (f : Process -> Process) (t : ptable) : ptable :=
  match bt_get pid (processes t) with
  | Some p => set_processes (bt_insert pid (f p) (processes t)) t
  | None => t
  end.
Definition upd_group (g : nat) (f : ProcessGroup -> ProcessGroup) (t : ptable) : ptable :=
  set_groups (alter f g (groups t)) t.
Definition upd_session (s : nat) (f : Session -> Session) (t : ptable) : ptable :=
  set_sessions (alter f s (sessions t)) t.

Definition with_group (o : option nat) (p : Process) : Process :=
  MkProcess (p_status p) (p_parent p) (p_children p) o.
Definition with_parent (o : option Z) (p : Process) : Process :=
  MkProcess (p_status p) o (p_children p) (p_group p).
Definition with_children (l : list (Z * unit)) (p : Process) : Process :=
  MkProcess (p_status p) (p_parent p) l (p_group p).
Definition with_status (st : ProcessStatus) (p : Process) : Process :=
  MkProcess st (p_parent p) (p_children p) (p_group p).

(** [process_group::Inner::remove_process] *)
Definition group_remove_process (pid : Z) (g : ProcessGroup) : ProcessGroup :=
  match bt_get pid (g_processes g) with
  | None => g
  | Some _ =>
      MkGroup (g_pgid g) (bt_remove pid (g_processes g))
        (if bool_decide (g_leader g = Some pid) then None else g_leader g) (g_session g)
  end.
Definition group_insert_process (pid : Z) (g : ProcessGroup) : ProcessGroup :=
  MkGroup (g_pgid g) (bt_insert pid tt (g_processes g)) (g_leader g) (g_session g).
Definition group_set_session (s : option nat) (g : ProcessGroup) : ProcessGroup :=
  MkGroup (g_pgid g) (g_processes g) (g_leader g) s.
Notation group_is_empty g := (bool_decide (g_processes g = [])) (only parsing).

(** [session::Inner::remove_process] *)
Definition session_remove_process (pid : Z) (s : Session) : Session :=
  MkSession (s_sid s) (s_groups s) (if bool_decide (s_leader s = Some pid) then None else s_leader s).
Definition session_remove_group (pgid : Z) (s : Session) : Session :=
  MkSession (s_sid s) (bt_remove pgid (s_groups s)) (s_leader s).
Definition session_insert_group (pgid : Z) (g : nat) (s : Session) : Session :=
  MkSession (s_sid s) (bt_insert pgid g (s_groups s)) (s_leader s).
Notation session_is_empty s := (bool_decide (s_groups s = [])) (only parsing).

(** [ProcessGroup::new] and [Session::new]: the index of the new object. *)
Definition new_group (pid : Z) : treeM nat :=
  fun t => (Ok (length (groups t)), set_groups (groups t ++ [MkGroup pid [(pid, tt)] (Some pid) None]) t).
Definition new_session (pgid : Z) (g : nat) : treeM nat :=
  fun t => (Ok (length (sessions t)), set_sessions (sessions t ++ [MkSession pgid [(pgid, g)] None]) t).

(** * Weak references: an object is alive while a table holds it *)

Definition session_alive (t : ptable) (s : nat) : bool := bool_decide (s ∈ bt_values (session_table t)).
Definition group_alive (t : ptable) (g : nat) : bool :=
  bool_decide (g ∈ bt_values (group_table t)) ||
  existsb (fun s => match sessions t !! s with
                    | Some ss => bool_decide (g ∈ bt_values (s_groups ss))
                    | None => false
                    end) (bt_values (session_table t)).

Definition upgrade_group (o : option nat) (t : ptable) : option nat :=
  match o with Some g => if group_alive t g then Some g else None | None => None end.
Definition upgrade_session (o : option nat) (t : ptable) : option nat :=
  match o with Some s => if session_alive t s then Some s else None | None => None end.

(** [Process::process_group], [pgid], [session] and the leader tests. *)
Definition process_group (pid : Z) : treeM (option nat) :=
  let! p := get_process pid in get (upgrade_group (p_group p)).

Definition pgid_of (pid : Z) : treeM Z :=
  let! g := process_group pid in
  match g with Some g => let! G := get_group g in sret (g_pgid G) | None => sret 0 end.

Definition is_group_leader (pid : Z) : treeM bool :=
  let! g := process_group pid in
  match g with Some g => let! G := get_group g in sret (bool_decide (g_leader G = Some pid)) | None => sret false end.

Definition session (pid : Z) : treeM (option nat) :=
  let! g := process_group pid in
  match g with
  | None => sret None
  | Some g => let! G := get_group g in get (upgrade_session (g_session G))
  end.

Definition session_unwrap (pid : Z) : treeM nat :=
  let! s := session pid in slift (ounwrap s).

Definition is_session_leader (pid : Z) : treeM bool :=
  let! s := session_unwrap pid in
  let! ss := get_session s in
  sret (bool_decide (s_leader ss = Some pid)).

(** * Moving a process *)

(** [group_inner.remove_process] and [*self_group_mut = Weak::new()]; the group
    afterwards. *)
Definition remove_from_group (pid : Z) (g : nat) : treeM ProcessGroup :=
  modify (upd_group g (group_remove_process pid)) ;!
  modify (upd_process pid (with_group None)) ;!
  get_group g.

(** The removal from the old group in [to_new_session], [s] being the session
    of the process. *)
Definition leave_session (pid : Z) (s : nat) : treeM unit :=
  let! old := process_group pid in
  match old with
  | None => sret tt
  | Some g =>
      let! G := remove_from_group pid g in
      if group_is_empty G then
        modify (fun t => set_group_table (bt_remove (g_pgid G) (group_table t)) t) ;!
        let! ss := get_session s in
        slift (oassert (bool_decide (is_Some (bt_get (g_pgid G) (s_groups ss))))) ;!
        modify (upd_session s (session_remove_group (g_pgid G))) ;!
        let! ss := get_session s in
        if session_is_empty ss
        then modify (fun t => set_session_table (bt_remove (s_sid ss) (session_table t)) t)
        else sret tt
      else sret tt
  end.

(** [Process::to_new_session]: the session of the process afterwards. *)
Definition to_new_session (pid : Z) : treeM nat :=
  let! leader := is_session_leader pid in
  if leader then session_unwrap pid
  else
    let! group_leader := is_group_leader pid in
    if group_leader then serr EPERM
    else
      let! s := session_unwrap pid in
      let! st := get session_table in
      let! gt := get group_table in
      if bool_decide (is_Some (bt_get pid st)) then serr EPERM
      else if bool_decide (is_Some (bt_get pid gt)) then serr EPERM
      else
        leave_session pid s ;!
        let! ng := new_group pid in
        modify (upd_process pid (with_group (Some ng))) ;!
        modify (fun t => set_group_table (bt_insert pid ng (group_table t)) t) ;!
        let! ns := new_session pid ng in
        modify (upd_group ng (group_set_session (Some ns))) ;!
        modify (upd_session ns (fun ss => MkSession (s_sid ss) (s_groups ss) (Some pid))) ;!
        modify (fun t => set_session_table (bt_insert pid ns (session_table t)) t) ;!
        modify (upd_session s (session_remove_process pid)) ;!
        sret ns.

(** The removal from the old group in [to_new_group]. *)
Definition leave_group (pid : Z) (s : nat) : treeM unit :=
  let! old := process_group pid in
  match old with
  | None => sret tt
  | Some g =>
      let! G := remove_from_group pid g in
      if group_is_empty G then
        modify (fun t => set_group_table (bt_remove (g_pgid G) (group_table t)) t) ;!
        let! ss := get_session s in
        slift (oassert (bool_decide (is_Some (bt_get (g_pgid G) (s_groups ss))))) ;!
        modify (upd_session s (session_remove_group (g_pgid G)))
      else sret tt
  end.

(** [Process::to_new_group] *)
Definition to_new_group (pid : Z) : treeM unit :=
  let! s := session_unwrap pid in
  leave_group pid s ;!
  let! ng := new_group pid in
  modify (upd_process pid (with_group (Some ng))) ;!
  modify (fun t => set_group_table (bt_insert pid ng (group_table t)) t) ;!
  modify (upd_group ng (group_set_session (Some s))) ;!
  modify (upd_session s (session_insert_group pid ng)).

(** [Process::to_specified_group] *)
Definition to_specified_group (pid : Z) (g : nat) : treeM unit :=
  let! G := get_group g in
  let! old := process_group pid in
  let add := modify (upd_group g (group_insert_process pid)) ;!
             modify (upd_process pid (with_group (Some g))) in
  match old with
  | None => add
  | Some og =>
      let! OG := get_group og in
      if g_pgid OG =? g_pgid G then sret tt
      else
        let! OG := remove_from_group pid og in
        (if group_is_empty OG
         then modify (fun t => set_group_table (bt_remove (g_pgid OG) (group_table t)) t)
         else sret tt) ;!
        add
  end.

(** [Process::to_other_group] *)
Definition to_other_group (pid pgid : Z) : treeM unit :=
  let! cur := pgid_of pid in
  if cur =? pgid then sret tt
  else
    let! leader := is_session_leader pid in
    if leader then serr EPERM
    else
      let! gt := get group_table in
      match bt_get pgid gt with
      | Some g =>
          let! s := session_unwrap pid in
          let! G := get_group g in
          let! ss := get_session s in
          if bool_decide (is_Some (bt_get (g_pgid G) (s_groups ss))) then to_specified_group pid g
          else serr EPERM
      | None => if pgid =? pid then to_new_group pid else serr EPERM
      end.

(** * System calls on groups and sessions *)

Definition sys_setsid (current : Z) : treeM Z :=
  let! s := to_new_session current in
  let! ss := get_session s in
  sret (s_sid ss).

Definition sys_setpgid (current pid pgid : Z) : treeM Z :=
  let pid := if pid =? 0 then current else pid in
  let pgid := if pgid =? 0 then pid else pgid in
  let! p := get_process current in
  if negb (pid =? current) && negb (bool_decide (is_Some (bt_get pid (p_children p)))) then serr ESRCH
  else
    let! gt := get group_table in
    if negb (pgid =? pid) && negb (bool_decide (is_Some (bt_get pgid gt))) then serr EPERM
    else
      let! ps := get processes in
      match bt_get pid ps with
      | None => serr ESRCH
      | Some _ => to_other_group pid pgid ;! sret 0
      end.

(** * Birth and death *)

(** [allocate_tid]: [fetch_add] wraps. *)
Notation allocate_tid := ((fun t => (Ok (next_tid t), set_next_tid ((next_tid t + 1) mod 2 ^ 32) t)) : treeM Z) (only parsing).

(** [Process::create_user_process] once the process is built. *)
Definition create_user_process : treeM Z :=
  let! pid := allocate_tid in
  let! g := new_group pid in
  modify (fun t => set_group_table (bt_insert pid g (group_table t)) t) ;!
  let! s := new_session pid g in
  modify (upd_group g (group_set_session (Some s))) ;!
  modify (upd_session s (fun ss => MkSession (s_sid ss) (s_groups ss) (Some pid))) ;!
  modify (fun t => set_session_table (bt_insert pid s (session_table t)) t) ;!
  modify (fun t => set_processes (bt_insert pid (MkProcess Runnable None [] (Some g)) (processes t)) t) ;!
  sret pid.

(** [set_parent_and_group] on the child that [clone_child_process] built. *)
Definition set_parent_and_group (parent child : Z) : treeM unit :=
  let! g := process_group parent in
  let! g := slift (ounwrap g) in
  modify (upd_process parent (fun p => with_children (bt_insert child tt (p_children p)) p)) ;!
  modify (upd_group g (group_insert_process child)) ;!
  modify (fun t => set_processes (bt_insert child (MkProcess Runnable (Some parent) [] (Some g)) (processes t)) t).

Definition clone_child_process (current : Z) : treeM Z :=
  let! child := allocate_tid in
  set_parent_and_group current child ;!
  sret child.

Notation INIT_PROCESS_PID := 1%Z (only parsing).

Notation is_zombie p := (match p_status p with Zombie _ => true | _ => false end) (only parsing).

(** [do_exit_group]: its effect on the tables. *)
Definition do_exit_group (current term_status : Z) : treeM unit :=
  let! p := get_process current in
  if is_zombie p then sret tt
  else
    modify (upd_process current (with_status (Zombie term_status))) ;!
    let! ps := get processes in
    if (current =? INIT_PROCESS_PID) then sret tt
    else
      match bt_get INIT_PROCESS_PID ps with
      | None => sret tt
      | Some _ =>
          modify (upd_process current (with_children [])) ;!
          sfor (bt_keys (p_children p)) (fun child =>
            modify (upd_process INIT_PROCESS_PID (fun i => with_children (bt_insert child tt (p_children i)) i)) ;!
            modify (upd_process child (with_parent (Some INIT_PROCESS_PID))))
      end.

(** [reap_zombie_child]: its effect on the tables; the exit code. *)
Definition reap_zombie_child (current pid : Z) : treeM Z :=
  let! p := get_process current in
  slift (ounwrap (bt_get pid (p_children p))) ;!
  modify (upd_process current (fun p => with_children (bt_remove pid (p_children p)) p)) ;!
  let! child := get_process pid in
  slift (oassert (is_zombie child)) ;!
  let! g := process_group pid in
  let! g := slift (ounwrap g) in
  let! G := get_group g in
  let! s := (fun t => (ounwrap (upgrade_session (g_session G) t), t)) in
  modify (upd_group g (group_remove_process pid)) ;!
  modify (upd_session s (session_remove_process pid)) ;!
  modify (upd_process pid (with_group None)) ;!
  let! G := get_group g in
  (if group_is_empty G then
     modify (fun t => set_group_table (bt_remove (g_pgid G) (group_table t)) t) ;!
     modify (upd_session s (session_remove_group (g_pgid G))) ;!
     let! ss := get_session s in
     if session_is_empty ss
     then modify (fun t => set_session_table (bt_remove (s_sid ss) (session_table t)) t)
     else sret tt
   else sret tt) ;!
  modify (fun t => set_processes (bt_remove pid (processes t)) t) ;!
  match p_status child with Zombie code => sret code | _ => spanic end.

Inductive ProcessFilter : Type := AnyChild | WithPid (pid : Z) | WithPgid (pgid : Z).


(** The children that match the filter, in order of pid. *)
Fixpoint matching_children (f : ProcessFilter) (children : list Z) : treeM (list Z) :=
  match children with
  | [] => sret []
  | c :: cs =>
      let! pg := pgid_of c in
      let! l := matching_children f cs in
      sret (if match f with AnyChild => true | WithPid pid => c =? pid | WithPgid pgid => pg =? pgid end
            then c :: l else l)
  end.

(** One round of [wait_child_exit]: [None] when the caller has to wait. *)
Definition try_wait (current : Z) (f : ProcessFilter) (wnohang wnowait : bool) : treeM (option (Z * Z)) :=
  let! p := get_process current in
  let! l := matching_children f (bt_keys (p_children p)) in
  match l with
  | [] => serr ECHILD
  | _ =>
      let! ps := get processes in
      match List.find (fun c => match bt_get c ps with Some q => is_zombie q | None => false end) l with
      | Some z =>
          if wnowait then
            let! q := get_process z in
            match p_status q with Zombie code => sret (Some (z, code)) | _ => spanic end
          else let! code := reap_zombie_child current z in sret (Some (z, code))
      | None => if wnohang then sret (Some (0, 0)) else sret None
      end
  end.
