(* ===== verification/ProcessTreeFacts.v ===== *)
(** Processes, groups and sessions stay consistent under every sequence of
    forks, exits, waits and moves between groups and sessions. *)

From S2P Require Import Prelude BTree Perms ProcessTree.

(** * The invariant

    [x] is a process between groups, [e] a group that may be empty. *)

Record wf_gen (x : option Z) (e : option nat) (t : ptable) : Prop := {
  w_proc pid p : bt_get pid (processes t) = Some p -> x <> Some pid ->
    exists g G, p_group p = Some g /\ groups t !! g = Some G /\
      bt_get (g_pgid G) (group_table t) = Some g /\ bt_get pid (g_processes G) = Some tt;
  w_free pid p : x = Some pid -> bt_get pid (processes t) = Some p -> p_group p = None;
  w_group pgid g : bt_get pgid (group_table t) = Some g ->
    exists G s ss, groups t !! g = Some G /\ g_pgid G = pgid /\ (e <> Some g -> g_processes G <> []) /\
      g_session G = Some s /\ sessions t !! s = Some ss /\
      bt_get (s_sid ss) (session_table t) = Some s /\ bt_get pgid (s_groups ss) = Some g;
  w_member g G pid : groups t !! g = Some G -> is_Some (bt_get pid (g_processes G)) ->
    exists p, bt_get pid (processes t) = Some p /\ p_group p = Some g;
  w_session sid s : bt_get sid (session_table t) = Some s -> exists ss, sessions t !! s = Some ss /\ s_sid ss = sid;
  w_child pid p c : bt_get pid (processes t) = Some p -> is_Some (bt_get c (p_children p)) ->
    exists q, bt_get c (processes t) = Some q /\ p_parent q = Some pid;
  w_pids k : is_Some (bt_get k (processes t)) \/ is_Some (bt_get k (group_table t)) \/ is_Some (bt_get k (session_table t)) ->
    k < next_tid t;
}.

Definition wf (t : ptable) : Prop := wf_gen None None t.

(** ** Map facts *)

Lemma bt_get_value {V} k (v : V) m : bt_get k m = Some v -> v ∈ bt_values m.
Proof. intros Hg. apply bt_get_elem in Hg. apply list_elem_of_fmap. by exists (k, v). Qed.

Lemma bt_nil_get {V} (m : list (Z * V)) : m = [] <-> forall k, bt_get k m = None.
Proof.
  split; [by intros ->|]. destruct m as [|[k v] m]; [done|]. intros Hn. specialize (Hn k). simpl in Hn.
  by rewrite Z.eqb_refl in Hn.
Qed.

Lemma bt_key_get {V} k (m : list (Z * V)) : k ∈ bt_keys m -> is_Some (bt_get k m).
Proof.
  intros Hk. apply bt_keys_elem in Hk as [v Hv]. destruct (bt_get k m) eqn:Hg; [eauto|].
  rewrite bt_get_none in Hg. by destruct (Hg v).
Qed.

Lemma bt_insert_ne {V} k k' (v : V) m : k <> k' -> bt_get k (bt_insert k' v m) = bt_get k m.
Proof. intros Hne. rewrite bt_lookup_insert. by destruct (Z.eqb_spec k k'). Qed.
Lemma bt_insert_eq {V} k (v : V) m : bt_get k (bt_insert k v m) = Some v.
Proof. by rewrite bt_lookup_insert, Z.eqb_refl. Qed.
Lemma bt_remove_ne {V} k k' (m : list (Z * V)) : k <> k' -> bt_get k (bt_remove k' m) = bt_get k m.
Proof. intros Hne. rewrite bt_get_remove. by destruct (Z.eqb_spec k k'). Qed.
Lemma bt_remove_some {V} k k' (v : V) m :
  bt_get k (bt_remove k' m) = Some v <-> k <> k' /\ bt_get k m = Some v.
Proof. rewrite bt_get_remove. destruct (Z.eqb_spec k k'); naive_solver. Qed.
Lemma bt_insert_some {V} k k' (v v' : V) m :
  bt_get k (bt_insert k' v m) = Some v' <-> (k = k' /\ v' = v) \/ (k <> k' /\ bt_get k m = Some v').
Proof. rewrite bt_lookup_insert. destruct (Z.eqb_spec k k'); naive_solver. Qed.

Lemma list_alter_some {A} (f : A -> A) i j (l : list A) y :
  alter f i l !! j = Some y <-> exists x, l !! j = Some x /\ y = (if decide (i = j) then f x else x).
Proof.
  destruct (decide (i = j)) as [->|Hne].
  - rewrite list_lookup_alter_eq. destruct (l !! j) as [x|]; simpl; naive_solver.
  - rewrite list_lookup_alter_ne by done. naive_solver.
Qed.

(** ** Where a process is *)

Record located (t : ptable) (pid : Z) (p : Process) (g : nat) (G : ProcessGroup) (s : nat) (ss : Session) : Prop := {
  l_p : bt_get pid (processes t) = Some p;
  l_g : p_group p = Some g;
  l_G : groups t !! g = Some G;
  l_gt : bt_get (g_pgid G) (group_table t) = Some g;
  l_mem : bt_get pid (g_processes G) = Some tt;
  l_s : g_session G = Some s;
  l_ss : sessions t !! s = Some ss;
  l_st : bt_get (s_sid ss) (session_table t) = Some s;
  l_sg : bt_get (g_pgid G) (s_groups ss) = Some g;
}.

Lemma wf_located t pid p : wf t -> bt_get pid (processes t) = Some p -> exists g G s ss, located t pid p g G s ss.
Proof.
  intros Hw Hp. destruct (w_proc _ _ _ Hw pid p Hp) as (g & G & Hg & HG & Hgt & Hm); [done|].
  destruct (w_group _ _ _ Hw _ _ Hgt) as (G' & s & ss & HG' & _ & _ & Hs & Hss & Hst & Hsg).
  rewrite HG in HG'. injection HG' as <-. exists g, G, s, ss. by split.
Qed.

Section Located.
Context {t : ptable} {pid : Z} {p : Process} {g : nat} {G : ProcessGroup} {s : nat} {ss : Session}.
Hypothesis L : located t pid p g G s ss.

Lemma process_group_ok : process_group pid t = (Ok (Some g), t).
Proof using L.
  unfold process_group, sbind, get_process, get. rewrite (l_p _ _ _ _ _ _ _ L). cbn. rewrite (l_g _ _ _ _ _ _ _ L).
  unfold upgrade_group, group_alive. rewrite (bool_decide_true (g ∈ _)); [done|].
  eapply bt_get_value, (l_gt _ _ _ _ _ _ _ L).
Qed.

Lemma get_group_ok : get_group g t = (Ok G, t).
Proof using L. unfold get_group. by rewrite (l_G _ _ _ _ _ _ _ L). Qed.

Lemma get_session_ok : get_session s t = (Ok ss, t).
Proof using L. unfold get_session. by rewrite (l_ss _ _ _ _ _ _ _ L). Qed.

Lemma upgrade_session_ok : upgrade_session (g_session G) t = Some s.
Proof using L.
  rewrite (l_s _ _ _ _ _ _ _ L). unfold upgrade_session, session_alive. rewrite bool_decide_true; [done|].
  eapply bt_get_value, (l_st _ _ _ _ _ _ _ L).
Qed.

Lemma session_unwrap_ok : session_unwrap pid t = (Ok s, t).
Proof using L.
  unfold session_unwrap, session. unfold sbind at 1 2. rewrite process_group_ok. unfold sbind. rewrite get_group_ok.
  unfold get, slift. by rewrite upgrade_session_ok.
Qed.

Lemma pgid_of_ok : pgid_of pid t = (Ok (g_pgid G), t).
Proof using L. unfold pgid_of, sbind. by rewrite process_group_ok, get_group_ok. Qed.

Lemma is_group_leader_ok : is_group_leader pid t = (Ok (bool_decide (g_leader G = Some pid)), t).
Proof using L. unfold is_group_leader, sbind. by rewrite process_group_ok, get_group_ok. Qed.

Lemma is_session_leader_ok : is_session_leader pid t = (Ok (bool_decide (s_leader ss = Some pid)), t).
Proof using L. unfold is_session_leader, sbind. by rewrite session_unwrap_ok, get_session_ok. Qed.

End Located.

(** * Steps that preserve the invariant *)

Lemma upd_process_eq pid p f t :
  bt_get pid (processes t) = Some p -> upd_process pid f t = set_processes (bt_insert pid (f p) (processes t)) t.
Proof. intros Hp. unfold upd_process. by rewrite Hp. Qed.

Lemma group_remove_get pid k G : bt_get k (g_processes (group_remove_process pid G)) = if k =? pid then None else bt_get k (g_processes G).
Proof.
  unfold group_remove_process. destruct (bt_get pid (g_processes G)) eqn:Hp; simpl.
  - by rewrite bt_get_remove.
  - destruct (Z.eqb_spec k pid) as [->|]; done.
Qed.

Lemma group_remove_fields pid G :
  g_pgid (group_remove_process pid G) = g_pgid G /\ g_session (group_remove_process pid G) = g_session G.
Proof. unfold group_remove_process. by destruct (bt_get pid (g_processes G)). Qed.

(** The fields that a change of one process leaves alone. *)
Lemma detach_wf t pid p g G :
  wf t -> bt_get pid (processes t) = Some p -> p_group p = Some g -> groups t !! g = Some G ->
  wf_gen (Some pid) (Some g) (upd_process pid (with_group None) (upd_group g (group_remove_process pid) t)).
Proof.
  intros [Hp Hf Hg Hm Hs Hc Hk] Hpid Hpg HG.
  rewrite (upd_process_eq pid p) by done. split; simpl.
  - intros k q Hq Hne. rewrite bt_insert_ne in Hq by congruence.
    destruct (Hp k q Hq) as (g' & G' & Hg' & HG' & Hgt & Hmem); [done|].
    exists g', (if decide (g = g') then group_remove_process pid G' else G').
    destruct (group_remove_fields pid G') as [Hfp _]. split; [done|]. split; [apply list_alter_some; eauto|].
    destruct (decide (g = g')); [|done]. rewrite Hfp. split; [done|].
    rewrite group_remove_get. destruct (Z.eqb_spec k pid); [congruence|done].
  - intros k q [= <-] Hq. rewrite bt_insert_eq in Hq. by injection Hq as <-.
  - intros pgid g' Hgt. destruct (Hg pgid g' Hgt) as (G' & s & ss & HG' & Hpg' & Hne & Hs' & Hrest).
    exists (if decide (g = g') then group_remove_process pid G' else G'), s, ss.
    destruct (group_remove_fields pid G') as [Hfp Hfs]. split; [apply list_alter_some; eauto|].
    destruct (decide (g = g')) as [<-|Hgg]; [rewrite Hfp, Hfs|].
    + split; [done|]. split; [congruence|done].
    + split; [done|]. split; [intros _; by apply Hne|done].
  - intros g' G' k HG' Hk'. apply list_alter_some in HG' as (G0 & HG0 & ->).
    destruct (decide (g = g')) as [<-|Hgg].
    + rewrite group_remove_get in Hk'. destruct (Z.eqb_spec k pid); [by destruct Hk'|].
      rewrite bt_insert_ne by done. by apply (Hm g G0).
    + destruct (Hm g' G0 k HG0 Hk') as (q & Hq & Hqg). destruct (decide (k = pid)) as [->|]; [congruence|].
      rewrite bt_insert_ne by done. eauto.
  - done.
  - intros k q c Hq Hcc. apply bt_insert_some in Hq as [[-> ->]|[Hne Hq]]; simpl in *.
    + destruct (Hc pid p c Hpid Hcc) as (r & Hr & Hrp).
      destruct (decide (c = pid)) as [->|]; [|rewrite bt_insert_ne by done; eauto].
      rewrite bt_insert_eq. eexists. split; [done|]. simpl. congruence.
    + destruct (Hc k q c Hq Hcc) as (r & Hr & Hrp).
      destruct (decide (c = pid)) as [->|]; [|rewrite bt_insert_ne by done; eauto].
      rewrite bt_insert_eq. eexists. split; [done|]. simpl. congruence.
  - intros k. rewrite bt_lookup_insert. destruct (Z.eqb_spec k pid) as [->|]; [|apply Hk].
    intros _. apply Hk. left. eauto.
Qed.

Lemma nonempty_wf x g t G :
  wf_gen x (Some g) t -> groups t !! g = Some G -> g_processes G <> [] -> wf_gen x None t.
Proof.
  intros [Hp Hf Hg Hm Hs Hc Hk] HG Hne. split; [done|done| |done|done|done|done].
  intros pgid g' Hgt. destruct (Hg pgid g' Hgt) as (G' & s & ss & HG' & Hpg & Hne' & Hrest).
  exists G', s, ss. split; [done|]. split; [done|]. split; [|done]. intros _.
  destruct (decide (g = g')) as [->|Hd]; [congruence|]. apply Hne'. congruence.
Qed.

Lemma drop_group_wf x g t G :
  wf_gen x (Some g) t -> groups t !! g = Some G -> bt_get (g_pgid G) (group_table t) = Some g ->
  g_processes G = [] -> wf_gen x None (set_group_table (bt_remove (g_pgid G) (group_table t)) t).
Proof.
  intros [Hp Hf Hg Hm Hs Hc Hk] HG Hgt0 Hnil. split; simpl; [|done| |done|done|done|].
  - intros k q Hq Hx. destruct (Hp k q Hq Hx) as (g' & G' & Hg' & HG' & Hgt & Hmem).
    exists g', G'. split; [done|]. split; [done|]. split; [|done]. apply bt_remove_some. split; [|done].
    intros Heq. rewrite Heq in Hgt. assert (g' = g) as -> by congruence. assert (G' = G) as -> by congruence.
    by rewrite Hnil in Hmem.
  - intros pgid g' Hgt. apply bt_remove_some in Hgt as [Hne Hgt].
    destruct (Hg pgid g' Hgt) as (G' & s & ss & HG' & Hpg & Hne' & Hrest). exists G', s, ss.
    split; [done|]. split; [done|]. split; [|done]. intros _. apply Hne'. intros [= ->].
    assert (G' = G) as -> by congruence. congruence.
  - intros k Hor. apply Hk. rewrite bt_get_remove in Hor. destruct (k =? g_pgid G); [|done].
    destruct Hor as [|[[? Hbad]|]]; [by left|done|by do 2 right].
Qed.

Lemma session_upd_wf x e s f t :
  wf_gen x e t -> (forall ss, s_sid (f ss) = s_sid ss) ->
  (forall ss pgid g, sessions t !! s = Some ss -> bt_get pgid (group_table t) = Some g ->
     bt_get pgid (s_groups ss) = Some g -> bt_get pgid (s_groups (f ss)) = Some g) ->
  wf_gen x e (upd_session s f t).
Proof.
  intros [Hp Hf Hg Hm Hs Hc Hk] Hsid Hgrp. split; simpl; [done|done| |done| |done|done].
  - intros pgid g Hgt. destruct (Hg pgid g Hgt) as (G & s' & ss & HG & Hpg & Hne & Hs' & Hss & Hst & Hsg).
    exists G, s', (if decide (s = s') then f ss else ss). split; [done|]. split; [done|]. split; [done|]. split; [done|].
    split; [apply list_alter_some; eauto|]. destruct (decide (s = s')) as [<-|]; [|done].
    rewrite Hsid. split; [done|]. by eapply Hgrp.
  - intros sid s' Hst. destruct (Hs sid s' Hst) as (ss & Hss & Hid).
    exists (if decide (s = s') then f ss else ss). split; [apply list_alter_some; eauto|].
    destruct (decide (s = s')); [|done]. by rewrite Hsid.
Qed.

Lemma drop_session_wf x t s ss :
  wf_gen x None t -> sessions t !! s = Some ss -> bt_get (s_sid ss) (session_table t) = Some s -> s_groups ss = [] ->
  wf_gen x None (set_session_table (bt_remove (s_sid ss) (session_table t)) t).
Proof.
  intros [Hp Hf Hg Hm Hs Hc Hk] Hss Hst0 Hnil. split; simpl; [done|done| |done| |done|].
  - intros pgid g Hgt. destruct (Hg pgid g Hgt) as (G & s' & ss' & HG & Hpg & Hne & Hs' & Hss' & Hst & Hsg).
    exists G, s', ss'. do 5 (split; [done|]). split; [|done]. apply bt_remove_some. split; [|done].
    intros Heq. assert (s' = s) as -> by congruence. assert (ss' = ss) as -> by congruence. by rewrite Hnil in Hsg.
  - intros sid s' Hst. apply bt_remove_some in Hst as [_ Hst]. by apply Hs.
  - intros k Hor. apply Hk. rewrite bt_get_remove in Hor. destruct (k =? s_sid ss); [|done].
    destruct Hor as [|[|[? Hbad]]]; [by left|by right; left|done].
Qed.

(** A process between groups joins an existing group. *)
Lemma attach_wf t pid p g G :
  wf_gen (Some pid) None t -> bt_get pid (processes t) = Some p -> groups t !! g = Some G ->
  bt_get (g_pgid G) (group_table t) = Some g ->
  wf (upd_process pid (with_group (Some g)) (upd_group g (group_insert_process pid) t)).
Proof.
  intros [Hp Hf Hg Hm Hs Hc Hk] Hpid HG Hgt0. rewrite (upd_process_eq pid p) by done. split; simpl.
  - intros k q Hq _. apply bt_insert_some in Hq as [[-> ->]|[Hne Hq]].
    + exists g, (group_insert_process pid G). split; [done|]. split; [apply list_alter_some; exists G; by rewrite decide_True|].
      split; [done|]. simpl. apply bt_insert_eq.
    + destruct (Hp k q Hq) as (g' & G' & Hg' & HG' & Hgt & Hmem); [congruence|].
      exists g', (if decide (g = g') then group_insert_process pid G' else G').
      split; [done|]. split; [apply list_alter_some; eauto|]. destruct (decide (g = g')); [|done]. simpl. split; [done|].
      by rewrite bt_insert_ne.
  - done.
  - intros pgid g' Hgt. destruct (Hg pgid g' Hgt) as (G' & s & ss & HG' & Hpg & Hne & Hrest).
    exists (if decide (g = g') then group_insert_process pid G' else G'), s, ss.
    split; [apply list_alter_some; eauto|]. destruct (decide (g = g')) as [<-|]; [|done].
    split; [done|]. split; [|done]. intros _ Hnil. apply (proj1 (bt_nil_get _)) with (k := pid) in Hnil. simpl in Hnil.
    by rewrite bt_insert_eq in Hnil.
  - intros g' G' k HG' Hk'. apply list_alter_some in HG' as (G0 & HG0 & ->).
    assert (Hold : k <> pid -> is_Some (bt_get k (g_processes G0)) ->
      exists q, bt_get k (bt_insert pid (with_group (Some g) p) (processes t)) = Some q /\ p_group q = Some g').
    { intros Hne Hin. rewrite bt_insert_ne by done. by apply (Hm g' G0). }
    destruct (decide (k = pid)) as [->|Hne].
    + destruct (decide (g = g')) as [<-|Hgg]; [rewrite bt_insert_eq; eauto|].
      destruct (Hm g' G0 pid HG0 Hk') as (q & Hq & Hqg). rewrite (Hf pid q eq_refl Hq) in Hqg. done.
    + apply Hold; [done|]. destruct (decide (g = g')); [|done]. simpl in Hk'. by rewrite bt_insert_ne in Hk'.
  - done.
  - intros k q c Hq Hcc.
    assert (Hq' : exists q0, bt_get k (processes t) = Some q0 /\ p_children q0 = p_children q).
    { apply bt_insert_some in Hq as [[-> ->]|[Hne Hq]]; eauto. }
    destruct Hq' as (q0 & Hq0 & Hch). rewrite <- Hch in Hcc. destruct (Hc k q0 c Hq0 Hcc) as (r & Hr & Hrp).
    destruct (decide (c = pid)) as [->|]; [|rewrite bt_insert_ne by done; eauto].
    rewrite bt_insert_eq. eexists. split; [done|]. simpl. congruence.
  - intros k. rewrite bt_lookup_insert. destruct (Z.eqb_spec k pid) as [->|]; [|apply Hk]. intros _. apply Hk. left. eauto.
Qed.

(** A process between groups founds a group in the session [s], which lists it. *)
Lemma new_group_wf t pid p s ss :
  let ng := length (groups t) in
  wf_gen (Some pid) None t -> bt_get pid (processes t) = Some p -> bt_get pid (group_table t) = None ->
  sessions t !! s = Some ss -> bt_get (s_sid ss) (session_table t) = Some s -> bt_get pid (s_groups ss) = Some ng ->
  wf (MkTable (bt_insert pid (with_group (Some ng) p) (processes t)) (bt_insert pid ng (group_table t)) (session_table t)
        (groups t ++ [MkGroup pid [(pid, tt)] (Some pid) (Some s)]) (sessions t) (next_tid t)).
Proof.
  intros ng [Hp Hf Hg Hm Hs Hc Hk] Hpid Hgt0 Hss Hst Hsg.
  assert (Hnew : (groups t ++ [MkGroup pid [(pid, tt)] (Some pid) (Some s)]) !! ng = Some (MkGroup pid [(pid, tt)] (Some pid) (Some s)))
    by by apply list_lookup_middle.
  assert (Hold : forall g G, groups t !! g = Some G -> (groups t ++ [MkGroup pid [(pid, tt)] (Some pid) (Some s)]) !! g = Some G)
    by (intros g G HG; by apply lookup_app_l_Some).
  split; simpl.
  - intros k q Hq _. apply bt_insert_some in Hq as [[-> ->]|[Hne Hq]].
    + exists ng. eexists. split; [done|]. split; [exact Hnew|]. simpl. rewrite Z.eqb_refl. split; [apply bt_insert_eq|done].
    + destruct (Hp k q Hq) as (g & G & Hg' & HG & Hgt & Hmem); [congruence|]. exists g, G.
      split; [done|]. split; [by apply Hold|]. split; [|done]. rewrite bt_insert_ne; [done|]. congruence.
  - done.
  - intros pgid g Hgt. apply bt_insert_some in Hgt as [[-> ->]|[Hne Hgt]].
    + eexists _, s, ss. split; [exact Hnew|]. done.
    + destruct (Hg pgid g Hgt) as (G & s' & ss' & HG & Hrest). exists G, s', ss'. split; [by apply Hold|done].
  - intros g G k HG Hk'. apply lookup_app_Some in HG as [HG|[Hlen HG]].
    + destruct (Hm g G k HG Hk') as (q & Hq & Hqg). destruct (decide (k = pid)) as [->|]; [|rewrite bt_insert_ne by done; eauto].
      rewrite (Hf pid q eq_refl Hq) in Hqg. done.
    + destruct (g - length (groups t))%nat as [|i] eqn:Hi; [|by destruct i]. simpl in HG. injection HG as <-. simpl in Hk'.
      destruct (Z.eqb_spec k pid) as [->|]; [|by destruct Hk']. rewrite bt_insert_eq. eexists. split; [done|]. simpl. f_equal. unfold ng. lia.
  - done.
  - intros k q c Hq Hcc.
    assert (Hq' : exists q0, bt_get k (processes t) = Some q0 /\ p_children q0 = p_children q).
    { apply bt_insert_some in Hq as [[-> ->]|[Hne Hq]]; eauto. }
    destruct Hq' as (q0 & Hq0 & Hch). rewrite <- Hch in Hcc. destruct (Hc k q0 c Hq0 Hcc) as (r & Hr & Hrp).
    destruct (decide (c = pid)) as [->|]; [|rewrite bt_insert_ne by done; eauto].
    rewrite bt_insert_eq. eexists. split; [done|]. simpl. congruence.
  - intros k. rewrite !bt_lookup_insert. destruct (Z.eqb_spec k pid) as [->|]; [|apply Hk]. intros _. apply Hk. left. eauto.
Qed.

(** A new session for the process [pid], whose group is to be [g]. *)
Lemma new_session_wf x e t pid g leader :
  wf_gen x e t -> bt_get pid (session_table t) = None -> pid < next_tid t ->
  wf_gen x e (set_session_table (bt_insert pid (length (sessions t)) (session_table t))
                (set_sessions (sessions t ++ [MkSession pid [(pid, g)] leader]) t)).
Proof.
  intros [Hp Hf Hg Hm Hs Hc Hk] Hst0 Hlt. split; simpl; [done|done| |done| |done|].
  - intros pgid g' Hgt. destruct (Hg pgid g' Hgt) as (G & s & ss & HG & Hpg & Hne & Hs' & Hss & Hst & Hsg).
    exists G, s, ss. do 4 (split; [done|]). split; [by apply lookup_app_l_Some|]. split; [|done].
    rewrite bt_insert_ne; [done|]. congruence.
  - intros sid s Hst. apply bt_insert_some in Hst as [[-> ->]|[Hne Hst]].
    + eexists. split; [by apply list_lookup_middle|done].
    + destruct (Hs sid s Hst) as (ss & Hss & Hid). exists ss. split; [by apply lookup_app_l_Some|done].
  - intros k. rewrite bt_lookup_insert. destruct (Z.eqb_spec k pid) as [->|]; [done|apply Hk].
Qed.

(** * Leaving a group *)

(** The state after [remove_from_group]. *)
Definition detached (pid : Z) (g : nat) (t : ptable) : ptable :=
  upd_process pid (with_group None) (upd_group g (group_remove_process pid) t).

Lemma detached_fields pid g t :
  group_table (detached pid g t) = group_table t /\ session_table (detached pid g t) = session_table t /\
  sessions (detached pid g t) = sessions t /\ groups (detached pid g t) = alter (group_remove_process pid) g (groups t) /\
  next_tid (detached pid g t) = next_tid t.
Proof. unfold detached, upd_process. simpl. by destruct (bt_get pid (processes t)). Qed.

(** What is known of a process that left its group [g] of the session [s]. *)
Record left_group (t : ptable) (pid : Z) (p : Process) (t' : ptable) : Prop := {
  lg_wf : wf_gen (Some pid) None t';
  lg_p : bt_get pid (processes t') = Some (with_group None p);
  lg_gt k : bt_get k (group_table t) = None -> bt_get k (group_table t') = None;
  lg_st k : bt_get k (session_table t) = None -> bt_get k (session_table t') = None;
  lg_tid : next_tid t' = next_tid t;
  lg_groups : forall g G, groups t !! g = Some G -> bt_get pid (g_processes G) = None -> groups t' !! g = Some G;
  lg_kept : forall k g G, bt_get k (group_table t) = Some g -> groups t !! g = Some G ->
    bt_get pid (g_processes G) = None -> bt_get k (group_table t') = Some g;
  lg_children : forall k q, bt_get k (processes t') = Some q ->
    exists q0, bt_get k (processes t) = Some q0 /\ p_children q = p_children q0;
}.

Section Leave.
Context {t : ptable} {pid : Z} {p : Process} {g : nat} {G : ProcessGroup} {s : nat} {ss : Session}.
Hypothesis (Hwf : wf t) (L : located t pid p g G s ss).

Let G' := group_remove_process pid G.

Lemma detached_group : groups (detached pid g t) !! g = Some G'.
Proof using L.
  destruct (detached_fields pid g t) as (_ & _ & _ & -> & _). apply list_alter_some. exists G.
  rewrite decide_True by done. split; [apply (l_G _ _ _ _ _ _ _ L)|done].
Qed.

Lemma remove_from_group_ok : remove_from_group pid g t = (Ok G', detached pid g t).
Proof using L.
  unfold remove_from_group. unfold sbind, modify, get_group. fold (detached pid g t). by rewrite detached_group.
Qed.

Lemma detached_proc : bt_get pid (processes (detached pid g t)) = Some (with_group None p).
Proof using L. unfold detached. rewrite (upd_process_eq pid p) by apply (l_p _ _ _ _ _ _ _ L). simpl. apply bt_insert_eq. Qed.

Lemma detached_other g' H : groups t !! g' = Some H -> bt_get pid (g_processes H) = None ->
  groups (detached pid g t) !! g' = Some H.
Proof using L.
  intros HH Hno. destruct (detached_fields pid g t) as (_ & _ & _ & -> & _). apply list_alter_some. exists H.
  split; [done|]. destruct (decide (g = g')) as [<-|]; [|done]. pose proof (l_G _ _ _ _ _ _ _ L). pose proof (l_mem _ _ _ _ _ _ _ L).
  congruence.
Qed.

Lemma detached_children k q : bt_get k (processes (detached pid g t)) = Some q ->
  exists q0, bt_get k (processes t) = Some q0 /\ p_children q = p_children q0.
Proof using L.
  unfold detached. rewrite (upd_process_eq pid p) by apply (l_p _ _ _ _ _ _ _ L). simpl.
  intros Hq. apply bt_insert_some in Hq as [[-> ->]|[_ Hq]]; [|eauto]. exists p. split; [apply (l_p _ _ _ _ _ _ _ L)|done].
Qed.

Lemma detached_wf : wf_gen (Some pid) (Some g) (detached pid g t).
Proof using Hwf L. eapply detach_wf; [done|apply (l_p _ _ _ _ _ _ _ L)|apply (l_g _ _ _ _ _ _ _ L)|apply (l_G _ _ _ _ _ _ _ L)]. Qed.

(** The group is not empty: only the process changed. *)
Lemma left_nonempty : group_is_empty G' = false -> left_group t pid p (detached pid g t).
Proof using Hwf L.
  intros Hne. destruct (detached_fields pid g t) as (Hgt & Hst & _ & _ & Hn). split.
  - eapply nonempty_wf; [apply detached_wf|apply detached_group|]. by apply bool_decide_eq_false in Hne.
  - apply detached_proc.
  - by rewrite Hgt.
  - by rewrite Hst.
  - done.
  - apply detached_other.
  - intros k g' H Hk _ _. by rewrite Hgt.
  - apply detached_children.
Qed.

(** The group is empty and goes from the group table. *)
Definition dropped : ptable :=
  set_group_table (bt_remove (g_pgid G') (group_table (detached pid g t))) (detached pid g t).

Lemma left_empty : group_is_empty G' = true -> left_group t pid p dropped.
Proof using Hwf L.
  intros He. apply bool_decide_eq_true in He. destruct (detached_fields pid g t) as (Hgt & Hst & _ & _ & Hn).
  assert (Hpg : g_pgid G' = g_pgid G) by apply group_remove_fields.
  split; unfold dropped; simpl.
  - eapply drop_group_wf; [apply detached_wf|apply detached_group| |done]. rewrite Hgt, Hpg. apply (l_gt _ _ _ _ _ _ _ L).
  - apply detached_proc.
  - intros k Hk. rewrite bt_get_remove, Hgt. by destruct (k =? _).
  - by rewrite Hst.
  - done.
  - apply detached_other.
  - intros k g' H Hk HH Hno. apply bt_remove_some. rewrite Hgt. split; [|done]. rewrite Hpg. intros ->.
    pose proof (l_gt _ _ _ _ _ _ _ L). assert (g' = g) as -> by congruence. pose proof (l_G _ _ _ _ _ _ _ L).
    pose proof (l_mem _ _ _ _ _ _ _ L). congruence.
  - apply detached_children.
Qed.

Lemma dropped_session : sessions dropped !! s = Some ss /\ session_table dropped = session_table t.
Proof using L.
  destruct (detached_fields pid g t) as (_ & Hst & Hss & _ & _). unfold dropped. simpl. rewrite Hss. split; [apply (l_ss _ _ _ _ _ _ _ L)|done].
Qed.

End Leave.

Lemma left_upd_session t pid p t1 s f :
  left_group t pid p t1 -> (forall ss, s_sid (f ss) = s_sid ss) ->
  (forall ss pgid g, bt_get pgid (group_table t1) = Some g ->
     bt_get pgid (s_groups ss) = Some g -> bt_get pgid (s_groups (f ss)) = Some g) ->
  left_group t pid p (upd_session s f t1).
Proof. intros [Hw ???????] Hsid Hgrp. split; try done. apply session_upd_wf; eauto. Qed.

Lemma left_drop_session t pid p t1 s ss :
  left_group t pid p t1 -> sessions t1 !! s = Some ss -> bt_get (s_sid ss) (session_table t1) = Some s -> s_groups ss = [] ->
  left_group t pid p (set_session_table (bt_remove (s_sid ss) (session_table t1)) t1).
Proof.
  intros [Hw ?? Hst ????] Hss Hs Hnil. split; try done; [by eapply drop_session_wf|].
  intros k Hk. simpl. rewrite bt_get_remove. destruct (k =? s_sid ss); [done|]. eauto.
Qed.

Section Leave2.
Context {t : ptable} {pid : Z} {p : Process} {g : nat} {G : ProcessGroup} {s : nat} {ss : Session}.
Hypothesis (Hwf : wf t) (L : located t pid p g G s ss).

(** The empty group goes from the session too. *)
Lemma left_session_group :
  let G' := group_remove_process pid G in
  group_is_empty G' = true ->
  let t1 := upd_session s (session_remove_group (g_pgid G')) (@dropped t pid g G) in
  left_group t pid p t1 /\ sessions t1 !! s = Some (session_remove_group (g_pgid G') ss) /\ session_table t1 = session_table t.
Proof using Hwf L.
  intros G' He t1. destruct (dropped_session L) as [Hss Hst]. split; [|split; [|done]].
  - apply left_upd_session; [by apply (left_empty Hwf L)|done|].
    intros ss0 pgid g0 Hgt Hsg. simpl in *. apply bt_remove_some in Hgt as [Hne _]. by apply bt_remove_some.
  - apply list_alter_some. exists ss. by rewrite decide_True.
Qed.

Lemma listed_assert :
  bool_decide (is_Some (bt_get (g_pgid (group_remove_process pid G)) (s_groups ss))) = true.
Proof using L.
  apply bool_decide_true. destruct (group_remove_fields pid G) as [-> _]. rewrite (l_sg _ _ _ _ _ _ _ L). eauto.
Qed.

Lemma leave_group_ok :
  exists t1 ss1, leave_group pid s t = (Ok tt, t1) /\ left_group t pid p t1 /\
    sessions t1 !! s = Some ss1 /\ bt_get (s_sid ss1) (session_table t1) = Some s.
Proof using Hwf L.
  unfold leave_group. rewrite (sbind_ok _ _ _ _ _ (process_group_ok L)), (sbind_ok _ _ _ _ _ (remove_from_group_ok L)).
  destruct (group_is_empty _) eqn:He.
  - destruct (left_session_group He) as (Hl & Hss & Hst). eexists _, (session_remove_group _ ss). split; [|split; [exact Hl|]].
    + erewrite sbind_ok by reflexivity. fold (@dropped t pid g G). destruct (dropped_session L) as [Hss' _].
      erewrite sbind_ok by (unfold get_session; by rewrite Hss'). rewrite listed_assert. done.
    + split; [exact Hss|]. rewrite Hst. apply (l_st _ _ _ _ _ _ _ L).
  - destruct (detached_fields pid g t) as (_ & Hst & Hss & _). eexists _, ss. split; [done|].
    split; [by apply (left_nonempty Hwf L)|]. rewrite Hss, Hst. split; [apply (l_ss _ _ _ _ _ _ _ L)|apply (l_st _ _ _ _ _ _ _ L)].
Qed.

Lemma leave_session_ok : exists t1, leave_session pid s t = (Ok tt, t1) /\ left_group t pid p t1.
Proof using Hwf L.
  unfold leave_session. rewrite (sbind_ok _ _ _ _ _ (process_group_ok L)), (sbind_ok _ _ _ _ _ (remove_from_group_ok L)).
  destruct (group_is_empty _) eqn:He; [|eexists; split; [done|by apply (left_nonempty Hwf L)]].
  destruct (left_session_group He) as (Hl & Hss & Hst).
  erewrite sbind_ok by reflexivity. fold (@dropped t pid g G). destruct (dropped_session L) as [Hss' _].
  erewrite sbind_ok by (unfold get_session; by rewrite Hss'). rewrite listed_assert. erewrite sbind_ok by reflexivity.
  erewrite sbind_ok by reflexivity. erewrite sbind_ok by (unfold get_session; by rewrite Hss).
  destruct (session_is_empty _) eqn:Hse; [|by eexists].
  eexists. split; [done|]. eapply left_drop_session; [done|exact Hss| |by apply bool_decide_eq_true in Hse].
  rewrite Hst. apply (l_st _ _ _ _ _ _ _ L).
Qed.

End Leave2.

(** * The moves *)

Ltac unfold_table :=
  unfold upd_session, upd_group, set_sessions, set_groups, set_session_table, set_group_table, set_processes, set_next_tid in *;
  simpl in *.


Lemma alter_last {A} (f : A -> A) (l : list A) x : alter f (length l) (l ++ [x]) = l ++ [f x].
Proof. induction l as [|y l IH]; [done|]. simpl. f_equal. exact IH. Qed.

Lemma to_new_group_ok t pid p g G s ss :
  wf t -> located t pid p g G s ss -> bt_get pid (group_table t) = None ->
  exists t1, to_new_group pid t = (Ok tt, t1) /\ wf t1.
Proof.
  intros Hwf L Hno. unfold to_new_group. rewrite (sbind_ok _ _ _ _ _ (session_unwrap_ok L)).
  destruct (leave_group_ok Hwf L) as (t1 & ss1 & Hrun & Hl & Hss & Hst). rewrite (sbind_ok _ _ _ _ _ Hrun).
  eexists. split; [reflexivity|].
  pose proof (lg_p _ _ _ _ Hl) as Hp.
  set (ng := length (groups t1)).
  assert (Hw : wf_gen (Some pid) None (upd_session s (session_insert_group pid ng) t1)).
  { apply session_upd_wf; [apply (lg_wf _ _ _ _ Hl)|done|]. intros ss0 pgid g0 _ Hgt Hsg. simpl.
    rewrite bt_insert_ne; [done|]. intros ->. rewrite (lg_gt _ _ _ _ Hl pid Hno) in Hgt. done. }
  pose proof (new_group_wf _ pid _ s (session_insert_group pid ng ss1) Hw Hp (lg_gt _ _ _ _ Hl pid Hno)) as Hfin.
  unfold wf in *. rewrite (upd_process_eq pid (with_group None p)) by done. fold ng in Hfin |- *.
  unfold_table. unfold ng in *. rewrite alter_last. apply Hfin; [|done|apply bt_insert_eq]. apply list_alter_some. exists ss1. by rewrite decide_True.
Qed.

(** The call does not panic and leaves a consistent table. *)
Definition safe {A} (r : outcome Errno A * ptable) : Prop :=
  match r.1 with Panic => False | _ => wf r.2 end.

Lemma safe_ok {A} (a : A) t : wf t -> safe (Ok a, t).
Proof. done. Qed.
Lemma safe_err {A} e t : wf t -> safe (@Err Errno A e, t).
Proof. done. Qed.

Lemma safe_bind {A B} (m : treeM A) (k : A -> treeM B) t :
  safe (m t) -> (forall a t', m t = (Ok a, t') -> wf t' -> safe (k a t')) -> safe (sbind m k t).
Proof.
  unfold sbind. destruct (m t) as [[a|e|] t'] eqn:Hm; intros Hs Hk; [by apply Hk|done|done].
Qed.

Lemma to_new_session_safe t pid p :
  wf t -> bt_get pid (processes t) = Some p -> 
  let r := to_new_session pid t in
  safe r /\ forall s', r.1 = Ok s' -> is_Some (sessions r.2 !! s').
Proof.
  intros Hwf Hpid r. unfold r. destruct (wf_located t pid p Hwf Hpid) as (g & G & s & ss & L). unfold to_new_session.
  rewrite (sbind_ok _ _ _ _ _ (is_session_leader_ok L)).
  destruct (bool_decide (s_leader ss = Some pid)); [rewrite (session_unwrap_ok L); split; [done|]; intros s1 [= <-]; simpl; rewrite (l_ss _ _ _ _ _ _ _ L); eauto|].
  rewrite (sbind_ok _ _ _ _ _ (is_group_leader_ok L)).
  destruct (bool_decide (g_leader G = Some pid)); [by split|].
  rewrite (sbind_ok _ _ _ _ _ (session_unwrap_ok L)).
  erewrite sbind_ok by reflexivity. erewrite sbind_ok by reflexivity.
  destruct (bool_decide (is_Some (bt_get pid (session_table t)))) eqn:Hst; [by split|].
  destruct (bool_decide (is_Some (bt_get pid (group_table t)))) eqn:Hgt; [by split|].
  apply bool_decide_eq_false, eq_None_not_Some in Hst, Hgt.
  destruct (leave_session_ok Hwf L) as (t1 & Hrun & Hl). rewrite (sbind_ok _ _ _ _ _ Hrun).
  pose proof (lg_p _ _ _ _ Hl) as Hp.
  set (ng := length (groups t1)). set (ns := length (sessions t1)).
  assert (Hlt : pid < next_tid t1).
  { rewrite (lg_tid _ _ _ _ Hl). apply (w_pids _ _ _ Hwf). left. eauto. }
  pose proof (new_session_wf _ _ _ pid ng (Some pid) (lg_wf _ _ _ _ Hl) (lg_st _ _ _ _ Hl pid Hst) Hlt) as Hw.
  pose proof (new_group_wf _ pid _ ns (MkSession pid [(pid, ng)] (Some pid)) Hw Hp (lg_gt _ _ _ _ Hl pid Hgt)) as Hfin.
  split; [apply safe_ok|]; cycle 1.
  { intros s' [= <-]. unfold_table. apply lookup_lt_is_Some. unfold upd_process. simpl. rewrite Hp. simpl. rewrite !length_alter, length_app. simpl. lia. }
  unfold wf in *. rewrite (upd_process_eq pid (with_group None p)) by done.
  apply session_upd_wf; [|done|done]. unfold_table. unfold ng, ns in *. rewrite !alter_last.
  apply Hfin; [by apply list_lookup_middle|apply bt_insert_eq|by rewrite Z.eqb_refl].
Qed.

Lemma to_specified_group_safe t pid p g G s ss g' H :
  wf t -> located t pid p g G s ss -> groups t !! g' = Some H -> bt_get (g_pgid H) (group_table t) = Some g' ->
  safe (to_specified_group pid g' t).
Proof.
  intros Hwf L HH Hgt'. unfold to_specified_group.
  rewrite (sbind_ok (get_group g') _ t H t) by (unfold get_group; by rewrite HH).
  rewrite (sbind_ok _ _ _ _ _ (process_group_ok L)), (sbind_ok _ _ _ _ _ (get_group_ok L)).
  destruct (Z.eqb_spec (g_pgid G) (g_pgid H)) as [Heq|Hne]; [done|].
  assert (Hno : bt_get pid (g_processes H) = None).
  { destruct (bt_get pid (g_processes H)) eqn:Hin; [|done].
    destruct (w_member _ _ _ Hwf g' H pid HH) as (q & Hq & Hqg); [by rewrite Hin|].
    pose proof (l_p _ _ _ _ _ _ _ L). pose proof (l_g _ _ _ _ _ _ _ L). pose proof (l_G _ _ _ _ _ _ _ L). congruence. }
  rewrite (sbind_ok _ _ _ _ _ (remove_from_group_ok L)).
  assert (Hend : forall t1, left_group t pid p t1 -> safe ((modify (upd_group g' (group_insert_process pid)) ;!
    modify (upd_process pid (with_group (Some g')))) t1)).
  { intros t1 Hl. apply safe_ok. eapply attach_wf; [apply (lg_wf _ _ _ _ Hl)|apply (lg_p _ _ _ _ Hl)| |].
    - by apply (lg_groups _ _ _ _ Hl).
    - by eapply (lg_kept _ _ _ _ Hl). }
  destruct (group_is_empty _) eqn:He; (erewrite sbind_ok by reflexivity); apply Hend.
  - by apply (left_empty Hwf L).
  - by apply (left_nonempty Hwf L).
Qed.

Lemma to_other_group_safe t pid p pgid :
  wf t -> bt_get pid (processes t) = Some p -> safe (to_other_group pid pgid t).
Proof.
  intros Hwf Hpid. destruct (wf_located t pid p Hwf Hpid) as (g & G & s & ss & L). unfold to_other_group.
  rewrite (sbind_ok _ _ _ _ _ (pgid_of_ok L)). destruct (g_pgid G =? pgid); [done|].
  rewrite (sbind_ok _ _ _ _ _ (is_session_leader_ok L)). destruct (bool_decide _); [done|].
  erewrite sbind_ok by reflexivity. destruct (bt_get pgid (group_table t)) as [g'|] eqn:Hgt.
  - destruct (w_group _ _ _ Hwf pgid g' Hgt) as (H & s' & ss' & HH & Hpg & _).
    rewrite (sbind_ok _ _ _ _ _ (session_unwrap_ok L)), (sbind_ok (get_group g') _ t H t) by (unfold get_group; by rewrite HH).
    rewrite (sbind_ok _ _ _ _ _ (get_session_ok L)). destruct (bool_decide _); [|done].
    eapply to_specified_group_safe; eauto. by rewrite Hpg.
  - destruct (Z.eqb_spec pgid pid) as [->|]; [|done].
    destruct (to_new_group_ok t pid p g G s ss Hwf L Hgt) as (t1 & -> & Hw). done.
Qed.

Lemma sys_setsid_safe t pid p : wf t -> bt_get pid (processes t) = Some p -> safe (sys_setsid pid t).
Proof.
  intros Hwf Hpid. unfold sys_setsid. destruct (to_new_session_safe t pid p Hwf Hpid) as [Hs Hsome].
  apply safe_bind; [done|]. intros s t' Hrun Hw. rewrite Hrun in Hsome. destruct (Hsome s eq_refl) as [ss Hss]. simpl in Hss.
  unfold sbind, get_session. by rewrite Hss.
Qed.

Lemma sys_setpgid_safe t current p pid pgid :
  wf t -> bt_get current (processes t) = Some p -> safe (sys_setpgid current pid pgid t).
Proof.
  intros Hwf Hcur. unfold sys_setpgid. set (pid' := if pid =? 0 then current else pid). set (pgid' := if pgid =? 0 then pid' else pgid).
  rewrite (sbind_ok (get_process current) _ t p t) by (unfold get_process; by rewrite Hcur).
  destruct (negb (pid' =? current) && _); [done|]. erewrite sbind_ok by reflexivity.
  destruct (negb (pgid' =? pid') && _); [done|]. erewrite sbind_ok by reflexivity.
  destruct (bt_get pid' (processes t)) as [q|] eqn:Hq; [|done].
  apply safe_bind; [by eapply to_other_group_safe|]. intros a t' _ Hw. done.
Qed.

(** * Birth and death *)

(** A change of processes that keeps their groups. *)
Lemma procs_wf x e t ps f :
  wf_gen x e t -> (forall k, bt_get k ps = f k <$> bt_get k (processes t)) -> (forall k q, p_group (f k q) = p_group q) ->
  (forall k q c, bt_get k (processes t) = Some q -> is_Some (bt_get c (p_children (f k q))) ->
     exists r, bt_get c (processes t) = Some r /\ p_parent (f c r) = Some k) ->
  wf_gen x e (set_processes ps t).
Proof.
  intros [Hp Hf Hg Hm Hs Hc Hk] Hps Hgrp Hch.
  assert (Hinv : forall k q, bt_get k ps = Some q -> exists q0, bt_get k (processes t) = Some q0 /\ q = f k q0).
  { intros k q. rewrite Hps. intros Hq. apply fmap_Some in Hq as (q0 & Hq0 & ->). eauto. }
  split; simpl; [| |done| |done| |].
  - intros k q Hq Hx. destruct (Hinv k q Hq) as (q0 & Hq0 & ->). rewrite Hgrp. by apply Hp.
  - intros k q Hx Hq. destruct (Hinv k q Hq) as (q0 & Hq0 & ->). rewrite Hgrp. by apply (Hf k).
  - intros g G k HG Hin. destruct (Hm g G k HG Hin) as (q & Hq & Hqg). exists (f k q). rewrite Hps, Hq, Hgrp. done.
  - intros k q c Hq Hcc. destruct (Hinv k q Hq) as (q0 & Hq0 & ->). destruct (Hch k q0 c Hq0 Hcc) as (r & Hr & Hrp).
    exists (f c r). by rewrite Hps, Hr.
  - intros k Hor. apply Hk. rewrite Hps in Hor. destruct Hor as [Hin|Hor]; [left|by right].
    destruct (bt_get k (processes t)); [eauto|by destruct Hin].
Qed.

Lemma upd_process_lookup pid f t :
  exists ps, upd_process pid f t = set_processes ps t /\
    forall k, bt_get k ps = (if k =? pid then f else id) <$> bt_get k (processes t).
Proof.
  unfold upd_process. destruct (bt_get pid (processes t)) as [p|] eqn:Hp.
  - eexists. split; [done|]. intros k. rewrite bt_lookup_insert. destruct (Z.eqb_spec k pid) as [->|]; [by rewrite Hp|].
    by destruct (bt_get k (processes t)).
  - exists (processes t). split; [by destruct t|]. intros k. destruct (Z.eqb_spec k pid) as [->|]; [by rewrite Hp|].
    by destruct (bt_get k (processes t)).
Qed.

Lemma upd_process_get pid f t k :
  bt_get k (processes (upd_process pid f t)) = (if k =? pid then f else id) <$> bt_get k (processes t).
Proof. destruct (upd_process_lookup pid f t) as (ps & -> & Hps). apply Hps. Qed.

(** Changing a process without touching group, parent or adding children. *)
Lemma upd_process_wf x e t pid f :
  wf_gen x e t -> (forall q, p_group (f q) = p_group q) -> (forall q, p_parent (f q) = p_parent q) ->
  (forall q c, is_Some (bt_get c (p_children (f q))) -> is_Some (bt_get c (p_children q))) ->
  wf_gen x e (upd_process pid f t).
Proof.
  intros Hw Hg Hp Hc. destruct (upd_process_lookup pid f t) as (ps & -> & Hps).
  apply (procs_wf x e t ps (fun k => if k =? pid then f else id) Hw Hps).
  - intros k q. by destruct (k =? pid).
  - intros k q c Hq Hin. destruct (w_child _ _ _ Hw k q c Hq) as (r & Hr & Hrp).
    + destruct (k =? pid); [by apply Hc|done].
    + exists r. split; [done|]. destruct (c =? pid); [by rewrite Hp|done].
Qed.

(** The child [c] of a process without children left goes to [i]. *)
Lemma reparent_wf t c r i parent q0 :
  wf t -> bt_get i (processes t) = Some q0 -> bt_get c (processes t) = Some r -> p_parent r = Some parent \/ p_parent r = Some i ->
  (forall q, bt_get parent (processes t) = Some q -> p_children q = []) ->
  wf (upd_process c (with_parent (Some i))
        (upd_process i (fun q => with_children (bt_insert c tt (p_children q)) q) t)).
Proof.
  intros Hw Hi Hr Hpar Hnone.
  destruct (upd_process_lookup i (fun q => with_children (bt_insert c tt (p_children q)) q) t) as (ps1 & -> & Hps1).
  destruct (upd_process_lookup c (with_parent (Some i)) (set_processes ps1 t)) as (ps2 & -> & Hps2).
  change (set_processes ps2 (set_processes ps1 t)) with (set_processes ps2 t).
  apply (procs_wf None None t ps2 (fun k q => (if k =? c then with_parent (Some i) else id)
    ((if k =? i then fun q => with_children (bt_insert c tt (p_children q)) q else id) q)) Hw).
  - intros k. rewrite Hps2. simpl. rewrite Hps1. by destruct (bt_get k (processes t)).
  - intros k q. by destruct (k =? c), (k =? i).
  - intros k q d Hq Hin.
    assert (Hcase : (k = i /\ d = c) \/ is_Some (bt_get d (p_children q))).
    { destruct (Z.eqb_spec k c), (Z.eqb_spec k i); simpl in Hin; try by right.
      all: rewrite bt_lookup_insert in Hin; destruct (Z.eqb_spec d c); [by left|by right]. }
    destruct Hcase as [[-> ->]|Hin'].
    + exists r. split; [done|]. rewrite Z.eqb_refl. by destruct (c =? i).
    + destruct (w_child _ _ _ Hw k q d Hq Hin') as (r' & Hr' & Hrp). exists r'. split; [done|].
      destruct (Z.eqb_spec d c) as [->|]; [|by destruct (d =? i)].
      assert (r' = r) as -> by congruence. assert (k = parent \/ k = i) as [-> | ->] by (destruct Hpar; [left|right]; congruence).
      * rewrite (Hnone q Hq) in Hin'. by destruct Hin'.
      * by destruct (c =? i).
Qed.

Definition adopt (child : Z) : treeM unit :=
  modify (upd_process 1 (fun i => with_children (bt_insert child tt (p_children i)) i)) ;!
  modify (upd_process child (with_parent (Some 1))).

Lemma adopt_loop_safe current cs t :
  wf t -> current <> 1 -> is_Some (bt_get 1 (processes t)) ->
  (forall q, bt_get current (processes t) = Some q -> p_children q = []) ->
  (forall c, c ∈ cs -> exists r, bt_get c (processes t) = Some r /\ (p_parent r = Some current \/ p_parent r = Some 1)) ->
  safe (sfor cs adopt t).
Proof.
  revert t. induction cs as [|c cs IH]; intros t Hw Hne [q1 H1] Hnone Hcs; [done|].
  destruct (Hcs c) as (r & Hr & Hpar); [set_solver|].
  pose proof (reparent_wf t c r 1 current q1 Hw H1 Hr Hpar Hnone) as Hw'.
  cbn [sfor]. erewrite sbind_ok by reflexivity. apply IH; [done|done| | |].
  - rewrite !upd_process_get, H1. simpl. destruct (1 =? c); eauto.
  - intros q. rewrite !upd_process_get. destruct (bt_get current (processes t)) as [q'|] eqn:Hq; [|done]. simpl.
    destruct (Z.eqb_spec current 1); [done|]. intros [= <-]. destruct (current =? c); by apply (Hnone q').
  - intros d Hd. destruct (Hcs d) as (r' & Hr' & Hpar'); [set_solver|]. rewrite !upd_process_get, Hr'. simpl.
    eexists. split; [done|]. destruct (d =? c); [by right|]. by destruct (d =? 1).
Qed.

Lemma do_exit_group_safe t current term p :
  wf t -> bt_get current (processes t) = Some p -> safe (do_exit_group current term t).
Proof.
  intros Hw Hp. unfold do_exit_group.
  rewrite (sbind_ok (get_process current) _ t p t) by (unfold get_process; by rewrite Hp).
  destruct (is_zombie p); [done|]. erewrite sbind_ok by reflexivity. erewrite sbind_ok by reflexivity.
  set (t1 := upd_process current (with_status (Zombie term)) t).
  assert (Hw1 : wf t1) by (apply upd_process_wf; done).
  assert (Hp1 : bt_get current (processes t1) = Some (with_status (Zombie term) p))
    by (unfold t1; rewrite upd_process_get, Hp, Z.eqb_refl; done).
  destruct (Z.eqb_spec current 1) as [->|Hne]; [done|].
  destruct (bt_get 1 (processes t1)) as [q1|] eqn:H1; [|done]. erewrite sbind_ok by reflexivity.
  apply (adopt_loop_safe current).
  - apply upd_process_wf; [done|done|done|]. intros q c. simpl. intros [? ?]. done.
  - done.
  - rewrite upd_process_get, H1. simpl. eauto.
  - intros q. rewrite upd_process_get, Hp1, Z.eqb_refl. simpl. by intros [= <-].
  - intros c Hc. apply bt_key_get in Hc. destruct (w_child _ _ _ Hw1 current _ c Hp1 Hc) as (r & Hr & Hpar).
    rewrite upd_process_get, Hr. simpl. eexists. split; [done|]. left. by destruct (c =? current).
Qed.

(** A process between groups goes. *)
Lemma remove_process_wf t pid :
  wf_gen (Some pid) None t -> (forall k q, bt_get k (processes t) = Some q -> bt_get pid (p_children q) = None) ->
  wf (set_processes (bt_remove pid (processes t)) t).
Proof.
  intros [Hp Hf Hg Hm Hs Hc Hk] Hno. split; simpl.
  - intros k q Hq _. apply bt_remove_some in Hq as [Hne Hq]. apply Hp; [done|congruence].
  - done.
  - done.
  - intros g G k HG Hin. destruct (Hm g G k HG Hin) as (q & Hq & Hqg). exists q. split; [|done]. apply bt_remove_some.
    split; [|done]. intros ->. rewrite (Hf pid q eq_refl Hq) in Hqg. done.
  - done.
  - intros k q c Hq Hin. apply bt_remove_some in Hq as [_ Hq]. destruct (Hc k q c Hq Hin) as (r & Hr & Hrp).
    exists r. split; [|done]. apply bt_remove_some. split; [|done]. intros ->. rewrite (Hno k q Hq) in Hin. by destruct Hin.
  - intros k Hor. apply Hk. rewrite bt_get_remove in Hor. destruct (k =? pid); [|done]. destruct Hor as [[? ?]|]; [done|by right].
Qed.

Lemma session_remove_left t pid p t1 s :
  left_group t pid p t1 -> left_group t pid p (upd_session s (session_remove_process pid) t1).
Proof. intros Hl. by apply left_upd_session. Qed.

(** The removal of [pid] from group, tables and session in
    [reap_zombie_child]. *)
Lemma reap_leave t pid p g G s ss :
  wf t -> located t pid p g G s ss ->
  exists t1, left_group t pid p t1 /\
  (let! G' := get_group g in
   if group_is_empty G' then
     modify (fun t => set_group_table (bt_remove (g_pgid G') (group_table t)) t) ;!
     modify (upd_session s (session_remove_group (g_pgid G'))) ;!
     let! ss := get_session s in
     if session_is_empty ss then modify (fun t => set_session_table (bt_remove (s_sid ss) (session_table t)) t) else sret tt
   else sret tt) (upd_session s (session_remove_process pid) (detached pid g t)) = (Ok tt, t1).
Proof.
  intros Hwf L. set (G' := group_remove_process pid G). set (f := session_remove_process pid).
  rewrite (sbind_ok (get_group g) _ _ G' (upd_session s f (detached pid g t)))
    by (unfold get_group; simpl; by rewrite (detached_group L)).
  destruct (group_is_empty G') eqn:He.
  - erewrite sbind_ok by reflexivity.
    change (set_group_table _ (upd_session s f (detached pid g t))) with (upd_session s f (@dropped t pid g G)).
    erewrite sbind_ok by reflexivity. destruct (dropped_session L) as [Hss Hst].
    set (h := session_remove_group (g_pgid G')). set (t1 := upd_session s h (upd_session s f (@dropped t pid g G))).
    assert (Hl : left_group t pid p t1).
    { apply left_upd_session; [apply session_remove_left, (left_empty Hwf L He)|done|].
      intros ss0 k g0 Hgt Hsg. simpl in *. apply bt_remove_some in Hgt as [Hne _]. by apply bt_remove_some. }
    assert (Hs1 : sessions t1 !! s = Some (h (f ss))).
    { simpl. apply list_alter_some. exists (f ss). rewrite decide_True by done. split; [|done].
      apply list_alter_some. exists ss. by rewrite decide_True. }
    rewrite (sbind_ok (get_session s) _ t1 (h (f ss)) t1) by (unfold get_session; by rewrite Hs1).
    destruct (session_is_empty (h (f ss))) eqn:Hse; [|by eexists].
    eexists. split; [|done]. eapply left_drop_session; [done|exact Hs1| |by apply bool_decide_eq_true in Hse].
    change (session_table t1) with (session_table (@dropped t pid g G)). rewrite Hst. apply (l_st _ _ _ _ _ _ _ L).
  - eexists. split; [|done]. apply session_remove_left, (left_nonempty Hwf L He).
Qed.

Lemma reap_zombie_child_safe t current p pid q :
  wf t -> bt_get current (processes t) = Some p -> is_Some (bt_get pid (p_children p)) ->
  bt_get pid (processes t) = Some q -> is_zombie q = true -> safe (reap_zombie_child current pid t).
Proof.
  intros Hw Hp [[] Hch] Hq Hz. unfold reap_zombie_child.
  rewrite (sbind_ok (get_process current) _ t p t) by (unfold get_process; by rewrite Hp).
  rewrite (slift_ok _ _ _ tt) by by rewrite Hch. erewrite sbind_ok by reflexivity.
  set (t1 := upd_process current _ t).
  assert (Hw1 : wf t1).
  { apply upd_process_wf; [done|done|done|]. intros r c [v Hv]. simpl in Hv. apply bt_remove_some in Hv as [_ Hv]. eauto. }
  assert (Hq1 : exists q1, bt_get pid (processes t1) = Some q1 /\ p_status q1 = p_status q).
  { unfold t1. rewrite upd_process_get, Hq. simpl. eexists. split; [done|]. by destruct (pid =? current). }
  destruct Hq1 as (q1 & Hq1 & Hst).
  assert (Hno : forall k r, bt_get k (processes t1) = Some r -> bt_get pid (p_children r) = None).
  { intros k r Hr. destruct (bt_get pid (p_children r)) eqn:Hin; [|done].
    destruct (w_child _ _ _ Hw1 k r pid Hr) as (q2 & Hq2 & Hp2); [by rewrite Hin|].
    destruct (w_child _ _ _ Hw current p pid Hp) as (q3 & Hq3 & Hp3); [by rewrite Hch|].
    assert (k = current) as ->.
    { unfold t1 in Hq2. rewrite upd_process_get, Hq3 in Hq2. simpl in Hq2. injection Hq2 as <-. destruct (pid =? current); simpl in Hp2; congruence. }
    unfold t1 in Hr. rewrite upd_process_get, Hp, Z.eqb_refl in Hr. simpl in Hr. injection Hr as <-. simpl in Hin.
    apply bt_remove_some in Hin as [? _]. done. }
  rewrite (sbind_ok (get_process pid) _ t1 q1 t1) by (unfold get_process; by rewrite Hq1).
  rewrite (slift_ok _ _ _ tt) by (rewrite Hst; by rewrite Hz).
  destruct (wf_located t1 pid q1 Hw1 Hq1) as (g & G & s & ss & L).
  rewrite (sbind_ok _ _ _ _ _ (process_group_ok L)), (slift_ok _ _ _ g) by done.
  rewrite (sbind_ok _ _ _ _ _ (get_group_ok L)). erewrite sbind_ok by (by rewrite (upgrade_session_ok L)).
  erewrite sbind_ok by reflexivity. erewrite sbind_ok by reflexivity. erewrite sbind_ok by reflexivity.
  assert (upd_process pid (with_group None) (upd_session s (session_remove_process pid) (upd_group g (group_remove_process pid) t1))
    = upd_session s (session_remove_process pid) (detached pid g t1)) as ->.
  { unfold detached. by rewrite !(upd_process_eq pid q1). }
  destruct (reap_leave t1 pid q1 g G s ss Hw1 L) as (t2 & Hl & Hrun).
  apply sbind_inv in Hrun as (G' & t3 & Hg3 & Hrun). rewrite (sbind_ok _ _ _ _ _ Hg3), (sbind_ok _ _ _ _ _ Hrun).
  erewrite sbind_ok by reflexivity.
  assert (Hfin : wf (set_processes (bt_remove pid (processes t2)) t2)).
  { apply remove_process_wf; [apply (lg_wf _ _ _ _ Hl)|]. intros k r Hr.
    destruct (lg_children _ _ _ _ Hl k r Hr) as (r0 & Hr0 & ->). by apply (Hno k). }
  rewrite Hst. by destruct (p_status q).
Qed.

(** A child without a group is born. *)
Lemma born_wf t current p child :
  wf t -> bt_get current (processes t) = Some p -> next_tid t <= child ->
  wf_gen (Some child) None
    (set_next_tid (child + 1)
       (set_processes (bt_insert child (MkProcess Runnable (Some current) [] None)
          (bt_insert current (with_children (bt_insert child tt (p_children p)) p) (processes t))) t)).
Proof.
  intros Hw Hcur Hlt. pose proof Hw as [Hp Hf Hg Hm Hs Hc Hk].
  assert (Hnew : bt_get child (processes t) = None).
  { destruct (bt_get child (processes t)) eqn:Hq; [|done]. assert (child < next_tid t); [apply Hk; left; by rewrite Hq|lia]. }
  assert (Hne : child <> current) by congruence.
  set (f k q := if k =? current then with_children (bt_insert child tt (p_children p)) p else q).
  assert (Hget : forall k, k <> child -> bt_get k (bt_insert child (MkProcess Runnable (Some current) [] None)
      (bt_insert current (with_children (bt_insert child tt (p_children p)) p) (processes t))) = f k <$> bt_get k (processes t)).
  { intros k Hk'. rewrite bt_insert_ne by done. rewrite bt_lookup_insert. unfold f.
    destruct (Z.eqb_spec k current) as [->|]; [by rewrite Hcur|by destruct (bt_get k (processes t))]. }
  assert (Hf' : forall k q, bt_get k (processes t) = Some q -> p_group (f k q) = p_group q /\ p_parent (f k q) = p_parent q).
  { intros k q Hq. unfold f. destruct (Z.eqb_spec k current) as [->|]; [|done]. simpl. split; congruence. }
  split; simpl; [| |done| |done| |].
  - intros k q Hq Hx. rewrite Hget in Hq by congruence. apply fmap_Some in Hq as (q0 & Hq0 & ->).
    rewrite (proj1 (Hf' k q0 Hq0)). by apply Hp.
  - intros k q [= <-] Hq. rewrite bt_insert_eq in Hq. by injection Hq as <-.
  - intros g G k HG Hin. destruct (Hm g G k HG Hin) as (q & Hq & Hqg). exists (f k q).
    rewrite Hget, Hq by congruence. split; [done|]. by rewrite (proj1 (Hf' k q Hq)).
  - assert (Hold : forall k q c, bt_get k (processes t) = Some q -> is_Some (bt_get c (p_children q)) -> exists r',
      bt_get c (bt_insert child (MkProcess Runnable (Some current) [] None)
        (bt_insert current (with_children (bt_insert child tt (p_children p)) p) (processes t))) = Some r' /\ p_parent r' = Some k).
    { intros k q c Hq Hin. destruct (Hc k q c Hq Hin) as (r & Hr & Hrp). exists (f c r). rewrite Hget, Hr by congruence.
      split; [done|]. by rewrite (proj2 (Hf' c r Hr)). }
    intros k q c Hq Hin. destruct (decide (k = child)) as [->|Hkc]; [rewrite bt_insert_eq in Hq; injection Hq as <-; by destruct Hin|].
    rewrite Hget in Hq by done. apply fmap_Some in Hq as (q0 & Hq0 & ->). unfold f in Hin.
    destruct (Z.eqb_spec k current) as [->|]; [|by eapply Hold]. simpl in Hin.
    destruct (decide (c = child)) as [->|Hcc]; [rewrite bt_insert_eq; eauto|]. rewrite bt_insert_ne in Hin by done. by apply (Hold current p c).
  - intros k Hor. destruct (decide (k = child)) as [->|Hkc]; [lia|]. rewrite Hget in Hor by done.
    assert (k < next_tid t); [|lia]. apply Hk. destruct Hor as [Hin|]; [left|by right].
    destruct (bt_get k (processes t)); [eauto|by destruct Hin].
Qed.

(** A child joins the group of its parent. *)
Lemma fork_wf t current p g G s ss child :
  wf t -> located t current p g G s ss -> next_tid t <= child ->
  wf (MkTable (bt_insert child (MkProcess Runnable (Some current) [] (Some g))
                (bt_insert current (with_children (bt_insert child tt (p_children p)) p) (processes t)))
        (group_table t) (session_table t) (alter (group_insert_process child) g (groups t)) (sessions t) (child + 1)).
Proof.
  intros Hw L Hlt. pose proof (born_wf t current p child Hw (l_p _ _ _ _ _ _ _ L) Hlt) as Hb.
  pose proof (attach_wf _ child _ g G Hb (bt_insert_eq _ _ _) (l_G _ _ _ _ _ _ _ L) (l_gt _ _ _ _ _ _ _ L)) as Ha.
  rewrite (upd_process_eq child (MkProcess Runnable (Some current) [] None)) in Ha by apply bt_insert_eq.
  unfold_table. rewrite bt_insert_insert in Ha. exact Ha.
Qed.

Lemma clone_child_process_safe t current p :
  wf t -> bt_get current (processes t) = Some p -> 0 <= next_tid t -> next_tid t + 1 < 2 ^ 32 ->
  safe (clone_child_process current t).
Proof.
  intros Hw Hp H0 H1. destruct (wf_located t current p Hw Hp) as (g & G & s & ss & L).
  unfold clone_child_process. erewrite sbind_ok by reflexivity. rewrite Z.mod_small by lia.
  assert (L' : located (set_next_tid (next_tid t + 1) t) current p g G s ss) by (destruct L; by split).
  unfold set_parent_and_group. rewrite (sbind_ok (fun s => _) _ _ tt
    (MkTable (bt_insert (next_tid t) (MkProcess Runnable (Some current) [] (Some g))
                (bt_insert current (with_children (bt_insert (next_tid t) tt (p_children p)) p) (processes t)))
        (group_table t) (session_table t) (alter (group_insert_process (next_tid t)) g (groups t)) (sessions t) (next_tid t + 1))).
  - apply safe_ok. eapply fork_wf; [done|exact L|lia].
  - rewrite (sbind_ok _ _ _ _ _ (process_group_ok L')), (slift_ok _ _ _ g) by done.
    unfold sbind, modify. by rewrite (upd_process_eq current p).
Qed.

Lemma matching_children_ok f l t :
  wf t -> (forall c, c ∈ l -> is_Some (bt_get c (processes t))) ->
  exists l', matching_children f l t = (Ok l', t) /\ forall c, c ∈ l' -> c ∈ l.
Proof.
  intros Hw. induction l as [|c l IH]; intros Hin; [by exists []|].
  destruct (Hin c) as [q Hq]; [set_solver|]. destruct (wf_located t c q Hw Hq) as (g & G & s & ss & L).
  destruct IH as (l' & Hrun & Hsub); [set_solver|].
  eexists. cbn [matching_children]. rewrite (sbind_ok _ _ _ _ _ (pgid_of_ok L)), (sbind_ok _ _ _ _ _ Hrun).
  split; [done|]. intros d. case_match; set_solver.
Qed.

Lemma try_wait_safe t current p f nohang nowait :
  wf t -> bt_get current (processes t) = Some p -> safe (try_wait current f nohang nowait t).
Proof.
  intros Hw Hp. unfold try_wait.
  rewrite (sbind_ok (get_process current) _ t p t) by (unfold get_process; by rewrite Hp).
  assert (Hkids : forall c, c ∈ bt_keys (p_children p) -> is_Some (bt_get c (processes t))).
  { intros c Hc. apply bt_key_get in Hc. destruct (w_child _ _ _ Hw current p c Hp Hc) as (q & Hq & _). eauto. }
  destruct (matching_children_ok f _ t Hw Hkids) as (l & Hrun & Hsub). rewrite (sbind_ok _ _ _ _ _ Hrun).
  destruct l as [|c0 l]; [done|]. erewrite sbind_ok by reflexivity.
  destruct (List.find _ (c0 :: l)) as [z|] eqn:Hf; [|by destruct nohang].
  apply List.find_some in Hf as [Hzin Hz]. apply list_elem_of_In in Hzin.
  destruct (bt_get z (processes t)) as [q|] eqn:Hq; [|done].
  destruct nowait.
  - rewrite (sbind_ok (get_process z) _ t q t) by (unfold get_process; by rewrite Hq).
    by destruct (p_status q).
  - apply safe_bind; [|done]. eapply reap_zombie_child_safe; eauto. by apply bt_key_get, Hsub.
Qed.

(** * Every sequence of calls *)

Inductive tree_call : Type :=
  | CClone
  | CSetsid
  | CSetpgid (pid pgid : Z)
  | CExit (term_status : Z)
  | CWait (f : ProcessFilter) (wnohang wnowait : bool).

Definition run_call (current : Z) (k : tree_call) : treeM unit :=
  match k with
  | CClone => clone_child_process current ;! sret tt
  | CSetsid => sys_setsid current ;! sret tt
  | CSetpgid pid pgid => sys_setpgid current pid pgid ;! sret tt
  | CExit term_status => do_exit_group current term_status
  | CWait f wnohang wnowait => try_wait current f wnohang wnowait ;! sret tt
  end.

(** A live process makes the call; thread ids have not run out. *)
Definition may_call (t : ptable) (current : Z) (k : tree_call) : Prop :=
  (exists p, bt_get current (processes t) = Some p /\ is_zombie p = false) /\
  (k = CClone -> 0 <= next_tid t /\ next_tid t + 1 < 2 ^ 32).

Inductive call_step (t : ptable) : ptable -> Prop :=
  | Call current k : may_call t current k -> call_step t (run_call current k t).2.

(** After the first process is created: it has pid 1. *)
Definition boot_table : ptable := (create_user_process (MkTable [] [] [] [] [] 1)).2.

Lemma boot_wf : wf boot_table.
Proof.
  change boot_table with (MkTable [(1, MkProcess Runnable None [] (Some 0%nat))] [(1, 0%nat)] [(1, 0%nat)]
    [MkGroup 1 [(1, tt)] (Some 1) (Some 0%nat)] [MkSession 1 [(1, 0%nat)] (Some 1)] 2).
  assert (Hone : forall A k (v w : A), bt_get k [(1, v)] = Some w -> k = 1 /\ w = v).
  { intros A k v w. simpl. destruct (Z.eqb_spec k 1); [|done]. by intros [= ->]. }
  split; cbn [processes group_table session_table groups sessions next_tid].
  - intros k q Hq _. apply Hone in Hq as [-> ->]. by eexists _, _.
  - done.
  - intros k g Hg. apply Hone in Hg as [-> ->]. by eexists _, _, _.
  - intros g G k HG [v Hk]. destruct g as [|[|g]]; [|done|done]. injection HG as <-. apply Hone in Hk as [-> _]. by eexists.
  - intros k s Hs. apply Hone in Hs as [-> ->]. by eexists.
  - intros k q c Hq [v Hc]. apply Hone in Hq as [-> ->]. done.
  - intros k [[v Hv]|[[v Hv]|[v Hv]]]; apply Hone in Hv as [-> _]; lia.
Qed.

Lemma run_call_safe t current k : wf t -> may_call t current k -> safe (run_call current k t).
Proof.
  intros Hw [(p & Hp & _) Hk].
  assert (Hret : forall A (m : treeM A), safe (m t) -> safe ((m ;! sret tt) t)) by (intros A m Hm; by apply safe_bind).
  destruct k; simpl; [apply Hret..| |apply Hret].
  - destruct (Hk eq_refl). by eapply clone_child_process_safe.
  - by eapply sys_setsid_safe.
  - by eapply sys_setpgid_safe.
  - by eapply do_exit_group_safe.
  - by eapply try_wait_safe.
Qed.

(** C15: the process tables stay consistent.  In every state that calls of
    live processes ([clone], [setsid], [setpgid], [exit_group], [wait]) lead to
    from the first process: every process is in exactly one group, which the
    group table holds under its id and which lists the process; every group
    of the table is non-empty, lists only such processes and belongs to a
    session that the session table holds and that lists the group; the
    children of a process are in the process table and name it as parent.  And
    no further call panics: every [unwrap] and assertion holds. *)
Theorem process_tree_consistent t :
  rtc call_step boot_table t ->
  wf t /\ forall current k, may_call t current k -> (run_call current k t).1 <> Panic.
Proof.
  intros Hreach. assert (Hw : wf t).
  { refine (rtc_invariant _ wf _ _ _ Hreach boot_wf). intros t1 t2 [current k Hmay] Hw.
    pose proof (run_call_safe t1 current k Hw Hmay) as Hs. unfold safe in Hs.
    destruct (run_call current k t1) as [[| |] t']; [done|done|by destruct Hs]. }
  split; [done|]. intros current k Hmay Hpanic. pose proof (run_call_safe t current k Hw Hmay) as Hs.
  unfold safe in Hs. by rewrite Hpanic in Hs.
Qed.

Lemma process_tree_consistent_witness :
  let t := (run_call 1 CClone boot_table).2 in wf t /\ (run_call 2 CSetsid t).1 = Ok tt.
Proof.
  intros t. split; [|by vm_compute]. apply process_tree_consistent. eapply rtc_l; [|apply rtc_refl].
  apply Call. split; [by eexists|]. by vm_compute.
Defined.

Definition sid_of (pid : Z) (t : ptable) : option Z :=
  match (session pid t).1 with Ok (Some s) => s_sid <$> sessions t !! s | _ => None end.

(** [setpgid] can move a process into another session.  Process 2 founds
    a group, leaves it again for the group of process 1, and then founds
    session 2: the first session still lists the abandoned group under the id
    2.  A [setpgid] of process 3 to group 2 is then accepted as a move within
    its session and takes it from session 1 to session 2. *)
Lemma setpgid_crosses_sessions :
  let calls := [(1, CClone); (1, CClone); (1, CSetpgid 2 2); (1, CSetpgid 2 1); (2, CSetsid)] in
  let t := foldl (fun t c => (run_call c.1 c.2 t).2) boot_table calls in
  rtc call_step boot_table t /\ sid_of 3 t = Some 1 /\
  (run_call 1 (CSetpgid 3 2) t).1 = Ok tt /\ sid_of 3 (run_call 1 (CSetpgid 3 2) t).2 = Some 2.
Proof.
  intros calls t. split; [|by vm_compute]. unfold t, calls. cbn [foldl fst snd].
  do 5 (eapply rtc_r; [|apply Call; split; [eexists; split; vm_compute; reflexivity|by vm_compute]]). apply rtc_refl.
Qed.
