(* ===== verification/SlotVec.v ===== *)
(** Vectors of slots (kernel/libs/aster-util/src/slot_vec.rs): the index of an
    item stays the same while other items come and go.  The directories of the
    memory file system and the file tables are kept in them. *)

From S2P Require Import Prelude.

(** * The data structure *)

Record SlotVec (T : Type) : Type := MkSlotVec {
  slots : list (option T);
  num_occupied : nat;
}.
Arguments MkSlotVec {T} _ _.
Arguments slots {T} _.
Arguments num_occupied {T} _.

(** [Iterator::position] *)
Fixpoint position {A} (f : A -> bool) (l : list A) : option nat :=
  match l with
  | [] => None
  | x :: l' => if f x then Some O else S <$> position f l'
  end.

Section Ops.
Context {E T : Type}.
Implicit Types (sv : SlotVec T).

Definition sv_new : SlotVec T := MkSlotVec [] 0.



(** The [unwrap] of [position] is a panic when every slot is occupied. *)
Definition sv_put (entry : T) sv : outcome E (nat * SlotVec T) :=
  if (num_occupied sv =? length (slots sv))%nat then
    Ok (length (slots sv), MkSlotVec (slots sv ++ [Some entry]) (S (num_occupied sv)))
  else
    match position (fun x => match x with None => true | Some _ => false end) (slots sv) with
    | None => Panic
    | Some idx => Ok (idx, MkSlotVec (<[idx := Some entry]> (slots sv)) (S (num_occupied sv)))
    end.

Definition sv_put_at (idx : nat) (item : T) sv : option T * SlotVec T :=
  let ss := if (length (slots sv) <=? idx)%nat then slots sv ++ replicate (S idx - length (slots sv)) None else slots sv in
  let sub_item := mjoin (ss !! idx) in
  (sub_item, MkSlotVec (<[idx := Some item]> ss)
               (match sub_item with None => S (num_occupied sv) | Some _ => num_occupied sv end)).

Definition sv_remove (idx : nat) sv : outcome E (option T * SlotVec T) :=
  if (length (slots sv) <=? idx)%nat then Ok (None, sv)
  else
    match mjoin (slots sv !! idx) with
    | None => Ok (None, MkSlotVec (<[idx := None]> (slots sv)) (num_occupied sv))
    | Some item =>
        let? _ := oassert (0 <? num_occupied sv)%nat in
        Ok (Some item, MkSlotVec (<[idx := None]> (slots sv)) (pred (num_occupied sv)))
    end.

(** [idxes_and_items] and [iter] *)
Definition sv_idxes_and_items sv : list (nat * T) :=
  omap (fun '(idx, x) => (fun t => (idx, t)) <$> x) (imap pair (slots sv)).
Definition sv_iter sv : list T := omap id (slots sv).

End Ops.

(** * Well-formedness and what the operations do *)

Section Facts.
Context {E T : Type}.
Implicit Types (sv : SlotVec T).

Definition sv_wf sv : Prop := num_occupied sv = length (sv_iter sv).

Lemma iter_app (a b : list (option T)) : omap id (a ++ b) = omap id a ++ omap id b.
Proof. apply omap_app. Qed.

(** Replacing the slot [i]: what is before and after it stays. *)
Lemma iter_split (ss : list (option T)) i x :
  ss !! i = Some x ->
  omap id ss = omap id (take i ss) ++ option_list x ++ omap id (drop (S i) ss) /\
  forall y, omap id (<[i := y]> ss) = omap id (take i ss) ++ option_list y ++ omap id (drop (S i) ss).
Proof.
  intros Hi. pose proof (lookup_lt_Some _ _ _ Hi) as Hlt. split.
  - rewrite <- (take_drop_middle ss i x Hi) at 1. rewrite omap_app. f_equal. by destruct x.
  - intros y. rewrite insert_take_drop by done. rewrite omap_app. f_equal. by destruct y.
Qed.

Lemma iter_full (ss : list (option T)) : (length (omap id ss) <= length ss)%nat /\
  (length (omap id ss) = length ss -> forall i, ss !! i <> Some None).
Proof.
  induction ss as [|[t|] ss [IH1 IH2]]; csimpl; [split; [lia|done]| |].
  - split; [lia|]. intros Hl [|i]; [done|]. apply IH2. lia.
  - split; [lia|]. intros Hl. lia.
Qed.

Lemma position_none (ss : list (option T)) :
  match position (fun x => match x with None => true | Some _ => false end) ss with
  | Some i => ss !! i = Some None
  | None => length (omap id ss) = length ss
  end.
Proof.
  induction ss as [|[t|] ss IH]; csimpl; [done| |done].
  destruct (position _ ss); simpl in *; [done|by f_equal].
Qed.

(** [put] never panics on a well-formed vector, and uses a free slot. *)
Lemma sv_put_ok (t : T) sv :
  sv_wf sv ->
  exists i sv', @sv_put E T t sv = Ok (i, sv') /\ sv_wf sv' /\ mjoin (slots sv !! i) = None /\
    (forall j, mjoin (slots sv' !! j) = if decide (j = i) then Some t else mjoin (slots sv !! j)) /\
    sv_iter sv' ≡ₚ t :: sv_iter sv.
Proof.
  unfold sv_wf, sv_put, sv_iter. intros Hwf. destruct (Nat.eqb_spec (num_occupied sv) (length (slots sv))) as [Hf|Hf].
  - do 2 eexists. split; [done|]. cbn. rewrite omap_app, length_app, Hwf. simpl.
    split; [lia|]. rewrite (lookup_ge_None_2 (slots sv)) by lia. split; [done|]. split; [|by rewrite Permutation_app_comm].
    intros j. destruct (decide (j = _)) as [->|Hj]; [by rewrite list_lookup_middle|].
    destruct (decide (j < length (slots sv))%nat); [by rewrite lookup_app_l|].
    rewrite !lookup_ge_None_2; [done|lia|rewrite length_app; simpl; lia].
  - pose proof (position_none (slots sv)) as Hp. destruct (position _ (slots sv)) as [i|]; [|lia].
    do 2 eexists. split; [done|]. cbn. destruct (iter_split _ _ _ Hp) as [Hold Hnew].
    rewrite (Hnew (Some t)). split; [rewrite Hwf, Hold, !length_app; simpl; lia|]. rewrite Hp. split; [done|]. split.
    + intros j. destruct (decide (j = i)) as [->|Hj]; [rewrite list_lookup_insert_eq; [done|by eapply lookup_lt_Some]|].
      by rewrite list_lookup_insert_ne.
    + rewrite Hold. simpl. by rewrite Permutation_middle.
Qed.

Lemma sv_remove_ok i (t : T) sv :
  sv_wf sv -> mjoin (slots sv !! i) = Some t ->
  exists sv', @sv_remove E T i sv = Ok (Some t, sv') /\ sv_wf sv' /\
    (forall j, mjoin (slots sv' !! j) = if decide (j = i) then None else mjoin (slots sv !! j)) /\
    sv_iter sv ≡ₚ t :: sv_iter sv'.
Proof.
  unfold sv_wf, sv_remove, sv_iter. intros Hwf Hi. destruct (slots sv !! i) as [[t'|]|] eqn:Hl; [|done|done].
  injection Hi as ->. pose proof (lookup_lt_Some _ _ _ Hl). destruct (Nat.leb_spec (length (slots sv)) i); [lia|].
  destruct (iter_split _ _ _ Hl) as [Hold Hnew].
  assert (Hpos : (0 < num_occupied sv)%nat) by (rewrite Hwf, Hold, !length_app; simpl; lia).
  apply Nat.ltb_lt in Hpos. rewrite Hpos. eexists. split; [done|]. cbn. rewrite Hwf, (Hnew None), Hold, !length_app. simpl. split; [lia|]. split.
  - intros j. destruct (decide (j = i)) as [->|Hj]; [by rewrite list_lookup_insert_eq|by rewrite list_lookup_insert_ne].
  - by rewrite Permutation_middle.
Qed.

(** [put_at] on an occupied slot replaces its item; on a free slot of the
    vector it fills it. *)
Lemma sv_put_at_ok i (t : T) sv :
  sv_wf sv -> (i < length (slots sv))%nat ->
  exists sv', sv_put_at i t sv = (mjoin (slots sv !! i), sv') /\ sv_wf sv' /\
    (forall j, mjoin (slots sv' !! j) = if decide (j = i) then Some t else mjoin (slots sv !! j)) /\
    option_list (mjoin (slots sv !! i)) ++ sv_iter sv' ≡ₚ t :: sv_iter sv.
Proof.
  unfold sv_wf, sv_put_at, sv_iter. intros Hwf Hi. destruct (Nat.leb_spec (length (slots sv)) i); [lia|].
  destruct (lookup_lt_is_Some_2 _ _ Hi) as [x Hl]. destruct (iter_split _ _ _ Hl) as [Hold Hnew].
  rewrite Hl. cbn. eexists. split; [done|]. cbn. rewrite (Hnew (Some t)). split; [|split].
  - rewrite Hwf, Hold, !length_app. destruct x; simpl; lia.
  - intros j. destruct (decide (j = i)) as [->|Hj]; [by rewrite list_lookup_insert_eq|by rewrite list_lookup_insert_ne].
  - rewrite Hold. destruct x as [y|]; simpl; rewrite <- !Permutation_middle; [apply perm_swap|done].
Qed.

(** The items with their indices. *)
Lemma elem_of_idxes sv i (t : T) : (i, t) ∈ sv_idxes_and_items sv <-> mjoin (slots sv !! i) = Some t.
Proof.
  unfold sv_idxes_and_items. rewrite list_elem_of_omap. split.
  - intros [[j x] [Hin Hx]]. apply elem_of_lookup_imap in Hin as (k & y & [= -> ->] & Hk).
    destruct y; simplify_eq/=. by rewrite Hk.
  - intros Hi. destruct (slots sv !! i) as [[y|]|] eqn:Hl; simplify_eq/=. exists (i, Some t). split; [|done].
    apply elem_of_lookup_imap. eauto.
Qed.

End Facts.
