(* ===== verification/PathLookup.v ===== *)
(** Path resolution (kernel/aster-nix/src/fs/fs_resolver.rs).

    A path is its bytes; the separator is the byte 47.  The directory entries
    (fs/utils/dentry.rs) and the inodes behind them are an interface over a
    state [W]; the loops take fuel, and [None] means that it ran out. *)

From S2P Require Import Prelude Perms.

Notation SLASH := 47%Z (only parsing).
Notation PATH_MAX := 4096%Z (only parsing).
Notation SYMLINKS_MAX := 40%nat (only parsing).
Notation AT_FDCWD := (-100)%Z (only parsing).

Notation path := (list Z).

(** * The string functions the resolver uses *)

Definition starts_slash (p : path) : bool := match p with c :: _ => c =? SLASH | [] => false end.
Definition ends_slash (p : path) : bool := match last p with Some c => c =? SLASH | None => false end.

(** [trim_start_matches('/')] *)
Fixpoint trim_start (p : path) : path :=
  match p with
  | c :: p' => if c =? SLASH then trim_start p' else p
  | [] => []
  end.

(** [trim_end_matches('/')] *)
Definition trim_end (p : path) : path := reverse (trim_start (reverse p)).

(** [split_once('/')] *)
Fixpoint split_once (p : path) : option (path * path) :=
  match p with
  | [] => None
  | c :: p' =>
      if c =? SLASH then Some ([], p')
      else match split_once p' with Some (a, b) => Some (c :: a, b) | None => None end
  end.

(** [split_inclusive('/')] *)
Fixpoint split_inclusive (p : path) : list path :=
  match p with
  | [] => []
  | c :: p' =>
      if c =? SLASH then [c] :: split_inclusive p'
      else match split_inclusive p' with
           | s :: ss => (c :: s) :: ss
           | [] => [[c]]
           end
  end.

(** [rsplitn(2, '/')]: the part after the last separator, and the part before
    it if there is one. *)
Definition rsplit2 (p : path) : path * option path :=
  match split_once (reverse p) with
  | Some (a, b) => (reverse a, Some (reverse b))
  | None => (p, None)
  end.

(** [split_path]; the byte 46 is a dot. *)
Definition split_path (p : path) : path * path :=
  let file_name := default [46] (last (filter (fun x => x <> [SLASH]) (split_inclusive p))) in
  let '(last_part, before) := rsplit2 (trim_end p) in
  let dir :=
    if bool_decide (last_part = []) then [SLASH]
    else
      let dir := trim_end (default [46] before) in
      if bool_decide (dir = []) then [SLASH] else dir in
  (dir, file_name).

(** * Directory entries *)

Inductive InodeType : Type := NamedPipe | CharDevice | Dir | BlockDevice | File | SymLink | Socket.

#[export] Instance InodeType_eq_dec : EqDecision InodeType.
Proof. solve_decision. Defined.

Class DentryOps (W D : Type) : Type := {
  d_lookup : D -> path -> stM W Errno D;
  d_type : D -> W -> InodeType;
  d_read_link : D -> stM W Errno path;
  d_is_readable : D -> stM W Errno bool;
  d_is_writable : D -> stM W Errno bool;
  d_create : D -> path -> Z -> stM W Errno D;
  d_open_device : D -> stM W Errno unit;
}.

Section Resolver.
Context {W D : Type} `{DentryOps W D}.

Record FsResolver : Type := MkResolver { root : D; cwd : D }.

Context (self : FsResolver) (lookup_from_fd : Z -> stM W Errno D).

Definition type_of (d : D) : stM W Errno InodeType := fun w => (Ok (d_type d w), w).

(** The next name, the path that remains, and whether the name must be that of
    a directory. *)
Definition next_part (relative_path : path) : path * path * bool :=
  match split_once relative_path with
  | Some (prefix, suffix) => (prefix, trim_start suffix, true)
  | None => (relative_path, [], false)
  end.

(** The [while] loop of [lookup_from_parent]. *)
Fixpoint lookup_loop (fuel : nat) (follow_tail_link : bool) (follows : nat) (dentry : D) (relative_path : path)
    : stM W Errno (option D) :=
  match fuel with
  | O => sret None
  | S fuel' =>
      if bool_decide (relative_path = []) then sret (Some dentry)
      else
        let '(next_name, path_remain, must_be_dir) := next_part relative_path in
        let! next_dentry := d_lookup dentry next_name in
        let! next_type := type_of next_dentry in
        let next_is_tail := bool_decide (path_remain = []) in
        if bool_decide (next_type = SymLink) && (follow_tail_link || negb next_is_tail) then
          if (SYMLINKS_MAX <=? follows)%nat then serr ELOOP
          else
            let! link := d_read_link next_dentry in
            if bool_decide (link = []) then serr ENOENT
            else
              let link_path_remain :=
                if negb (bool_decide (path_remain = [])) then link ++ [SLASH] ++ path_remain
                else if must_be_dir then link ++ [SLASH] else link in
              let dentry := if starts_slash link_path_remain then root self else dentry in
              lookup_loop fuel' follow_tail_link (S follows) dentry (trim_start link_path_remain)
        else if must_be_dir && negb (bool_decide (next_type = Dir)) then serr ENOTDIR
        else lookup_loop fuel' follow_tail_link follows next_dentry path_remain
  end.

Definition lookup_from_parent (fuel : nat) (parent : D) (relative_path : path) (follow_tail_link : bool)
    : stM W Errno (option D) :=
  slift (oassert (negb (starts_slash relative_path))) ;!
  if PATH_MAX <? Z.of_nat (length relative_path) then serr ENAMETOOLONG
  else lookup_loop fuel follow_tail_link 0 parent relative_path.

(** [FsPathInner] *)
Inductive FsPath : Type :=
  | Absolute (p : path)
  | CwdRelative (p : path)
  | Cwd
  | FdRelative (fd : Z) (p : path)
  | Fd (fd : Z).

(** [FsPath::new] *)
Definition fs_path_new (dirfd : Z) (p : path) : outcome Errno FsPath :=
  if PATH_MAX <? Z.of_nat (length p) then Err ENAMETOOLONG
  else if starts_slash p then Ok (Absolute p)
  else if 0 <=? dirfd then Ok (if bool_decide (p = []) then Fd dirfd else FdRelative dirfd p)
  else if dirfd =? AT_FDCWD then Ok (if bool_decide (p = []) then Cwd else CwdRelative p)
  else Err EBADF.


Definition lookup_inner (fuel : nat) (p : FsPath) (follow_tail_link : bool) : stM W Errno (option D) :=
  match p with
  | Absolute p => lookup_from_parent fuel (root self) (trim_start p) follow_tail_link
  | CwdRelative p => lookup_from_parent fuel (cwd self) p follow_tail_link
  | Cwd => sret (Some (cwd self))
  | FdRelative fd p => let! parent := lookup_from_fd fd in lookup_from_parent fuel parent p follow_tail_link
  | Fd fd => let! d := lookup_from_fd fd in sret (Some d)
  end.

(** Continue unless the fuel ran out. *)
Definition with_dir {A} (m : stM W Errno (option D)) (k : D -> stM W Errno (option A)) : stM W Errno (option A) :=
  let! d := m in match d with Some d => k d | None => sret None end.

(** The [loop] that dereferences the tail symlinks. *)
Fixpoint deref_tail (fuel : nat) (dir_dentry : D) (base_name : path) : stM W Errno (option (D * path)) :=
  match fuel with
  | O => sret None
  | S fuel' => fun w =>
      match d_lookup dir_dentry (trim_end base_name) w with
      | (Ok dentry, w1) =>
          if bool_decide (d_type dentry w1 = SymLink) then
            (let! link := d_read_link dentry in
             if bool_decide (link = []) then serr ENOENT
             else
               let link := if ends_slash base_name && negb (ends_slash link) then link ++ [SLASH] else link in
               let '(dir, file_name) := split_path link in
               with_dir (if starts_slash dir then lookup_from_parent fuel' (root self) (trim_start dir) true
                         else lookup_from_parent fuel' dir_dentry dir true)
                 (fun d => deref_tail fuel' d file_name)) w1
          else (Ok (Some (dir_dentry, base_name)), w1)
      | (Err _, w1) => (Ok (Some (dir_dentry, base_name)), w1)
      | (Panic, w1) => (Panic, w1)
      end
  end.

Definition lookup_dir_and_base_name_inner (fuel : nat) (p : FsPath) (follow_tail_link : bool)
    : stM W Errno (option (D * path)) :=
  let finish (file_name : path) (d : D) : stM W Errno (option (D * path)) :=
    if negb follow_tail_link then sret (Some (d, file_name)) else deref_tail fuel d file_name in
  match p with
  | Absolute p => let '(dir, file_name) := split_path p in
      with_dir (lookup_from_parent fuel (root self) (trim_start dir) true) (finish file_name)
  | CwdRelative p => let '(dir, file_name) := split_path p in
      with_dir (lookup_from_parent fuel (cwd self) dir true) (finish file_name)
  | FdRelative fd p => let '(dir, file_name) := split_path p in
      let! parent := lookup_from_fd fd in
      with_dir (lookup_from_parent fuel parent dir true) (finish file_name)
  | _ => serr ENOENT
  end.

Definition flag_set (flags bit : Z) : bool := Z.testbit flags bit.

(** [InodeHandle::new]: the checks before the handle is made. *)
Definition inode_handle_new (dentry : D) (access_mode : Z) : stM W Errno D :=
  let readable := (access_mode =? 0) || (access_mode =? 2) in
  let writable := (access_mode =? 1) || (access_mode =? 2) in
  let! _ := (if readable then let! m := d_is_readable dentry in if m : bool then sret tt else serr EACCES else sret tt) in
  let! _ := (if writable then let! m := d_is_writable dentry in if m : bool then sret tt else serr EACCES else sret tt) in
  let! ty := type_of dentry in
  if writable && bool_decide (ty = Dir) then serr EISDIR
  else d_open_device dentry ;! sret dentry.

(** [FsResolver::open]; bits 6, 7, 16 and 17 are [O_CREAT], [O_EXCL],
    [O_DIRECTORY] and [O_NOFOLLOW], bit 21 is [O_PATH]. *)
Definition open (fuel : nat) (p : FsPath) (flags mode : Z) : stM W Errno (option D) :=
  let access_mode := Z.land flags 3 in
  if 2 <? access_mode then serr EINVAL
  else
    let o_creat := flag_set flags 6 in
    let o_excl := flag_set flags 7 in
    let o_directory := flag_set flags 16 in
    let o_nofollow := flag_set flags 17 in
    let follow_tail_link := negb (o_nofollow || o_creat && o_excl) in
    let finish (d : D) : stM W Errno (option D) := let! h := inode_handle_new d access_mode in sret (Some h) in
    fun w =>
      match lookup_inner fuel p follow_tail_link w with
      | (Ok None, w1) => (Ok None, w1)
      | (Ok (Some dentry), w1) =>
          if bool_decide (d_type dentry w1 = SymLink) && o_nofollow && negb (flag_set flags 21) then (Err ELOOP, w1)
          else if o_creat && o_excl then (Err EEXIST, w1)
          else if o_directory && negb (bool_decide (d_type dentry w1 = Dir)) then (Err ENOTDIR, w1)
          else finish dentry w1
      | (Err e, w1) =>
          if bool_decide (e = ENOENT) && o_creat then
            if o_directory then (Err ENOTDIR, w1)
            else
              (let! r := lookup_dir_and_base_name_inner fuel p follow_tail_link in
               match r with
               | None => sret None
               | Some (dir_dentry, file_name) =>
                   if ends_slash file_name then serr EISDIR
                   else
                     let! m := d_is_writable dir_dentry in
                     if negb m then serr EACCES
                     else let! d := d_create dir_dentry file_name (Z.land mode 0xfff) in finish d
               end) w1
          else (Err e, w1)
      | (Panic, w1) => (Panic, w1)
      end.

End Resolver.
Arguments FsResolver : clear implicits.
