(* ===== verification/RamFs.v ===== *)
(** The in-memory file system (kernel/aster-nix/src/fs/ramfs/fs.rs): inodes,
    directories and the directory operations of the trait [Inode].

    An inode is named by its inode number, so that [Arc::ptr_eq] is equality of
    numbers.  The state is one file system; the checks that two inodes belong
    to the same file system hold there and are left out.  The state has the
    inodes of which an [Arc] is held, so a [Weak] reference can be upgraded while
    its inode is there.  The operations drop no inode: callers hold
    the [Arc]s of the inodes they use, and [drop_inode] stands for dropping the
    last [Arc] of one.  The page cache of a regular file is not part of the state.
    Counters of inodes, links and entries stay far below the word size and are
    unbounded; their decrements keep the assertions of the code. *)

From S2P Require Import Prelude Perms SlotVec PathLookup.

Notation BLOCK_SIZE := 4096%Z (only parsing).
Notation ROOT_INO := 1%Z (only parsing).
Notation NAME_MAX := 255%nat (only parsing).
Notation DOT := [46%Z] (only parsing).
Notation DOTDOT := [46%Z; 46%Z] (only parsing).

(** * Names *)

(** [str::from_utf8] succeeds *)
Definition cont (b : Z) : bool := (128 <=? b) && (b <=? 191).
Definition between (a b x : Z) : bool := (a <=? x) && (x <=? b).

Fixpoint utf8_valid (s : path) : bool :=
  match s with
  | [] => true
  | a :: s1 =>
      if between 0 127 a then utf8_valid s1
      else if between 194 223 a then match s1 with b :: s2 => cont b && utf8_valid s2 | _ => false end
      else if between 224 239 a then
        match s1 with
        | b :: c :: s3 =>
            between (if a =? 224 then 160 else 128) (if a =? 237 then 159 else 191) b && cont c && utf8_valid s3
        | _ => false
        end
      else if between 240 244 a then
        match s1 with
        | b :: c :: d :: s4 =>
            between (if a =? 240 then 144 else 128) (if a =? 244 then 143 else 191) b && cont c && cont d && utf8_valid s4
        | _ => false
        end
      else false
  end.

(** [CStr256::from]: the bytes before the first zero, at most 255 of them. *)
Fixpoint until_nul (s : path) : path :=
  match s with
  | [] => []
  | c :: s' => if c =? 0 then [] else c :: until_nul s'
  end.
Definition cstr256_from (s : path) : path := take 255 (until_nul s).

(** [as_str().unwrap()] *)
Definition as_str (s : path) : outcome Errno path := if utf8_valid s then Ok s else Panic.

Definition is_dot (name : path) : bool := bool_decide (name = DOT) || bool_decide (name = DOTDOT).

(** * Inodes *)

Record Metadata : Type := MkMetadata {
  dev : Z;
  ino : Z;
  size : Z;
  blk_size : Z;
  blocks : Z;
  atime : Z;
  mtime : Z;
  ctime : Z;
  type_ : InodeType;
  mode : Z;
  nlinks : Z;
  uid : Z;
  gid : Z;
  rdev : Z;
}.

(** A device: its inode type and its number. *)
Record Device : Type := MkDevice { device_type : InodeType; device_id : Z }.

Record DirEntry : Type := MkDirEntry {
  children : SlotVec (path * Z);
  this : Z;
  parent : Z;
}.

Inductive Inner : Type :=
  | IDir (d : DirEntry)
  | IFile
  | ISymLink (link : path)
  | IDevice (d : Device)
  | ISocket.

Record Inode_ : Type := MkInode { inner : Inner; metadata : Metadata }.

(** [Metadata::new_dir], [new_file], [new_symlink], [new_device] and
    [new_socket] *)
Definition metadata_new (ino : Z) (ty : InodeType) (mode rdev : Z) : Metadata :=
  let '(size, blocks, nlinks) := match ty with Dir => (2, 1, 2) | _ => (0, 0, 1) end in
  MkMetadata 0 ino size BLOCK_SIZE blocks 0 0 0 ty mode nlinks 0 0 rdev.

(** [Inode_::new_dir], [new_file], [new_symlink], [new_socket] and
    [new_device] *)
Definition inode_new (ino mode : Z) (i : Inner) : Inode_ :=
  MkInode i
    (match i with
     | IDir _ => metadata_new ino Dir mode 0
     | IFile => metadata_new ino File mode 0
     | ISymLink _ => metadata_new ino SymLink mode 0
     | ISocket => metadata_new ino Socket mode 0
     | IDevice d => metadata_new ino (device_type d) mode (device_id d)
     end).

Definition set_size (m : Metadata) (s b : Z) : Metadata :=
  MkMetadata (dev m) (ino m) s (blk_size m) b (atime m) (mtime m) (ctime m) (type_ m) (mode m) (nlinks m) (uid m) (gid m) (rdev m).
Definition set_nlinks (m : Metadata) (n : Z) : Metadata :=
  MkMetadata (dev m) (ino m) (size m) (blk_size m) (blocks m) (atime m) (mtime m) (ctime m) (type_ m) (mode m) n (uid m) (gid m) (rdev m).
Definition set_inner (i : Inode_) (x : Inner) : Inode_ := MkInode x (metadata i).
Definition set_metadata (i : Inode_) (m : Metadata) : Inode_ := MkInode (inner i) m.

Definition blocks_of (s : Z) : Z := (s + BLOCK_SIZE - 1) / BLOCK_SIZE.

Definition inc_size (m : Metadata) : outcome Errno Metadata := Ok (set_size m (size m + 1) (blocks_of (size m + 1))).
Definition dec_size (m : Metadata) : outcome Errno Metadata :=
  let? _ := oassert (0 <? size m) in Ok (set_size m (size m - 1) (blocks_of (size m - 1))).
Definition inc_nlinks (m : Metadata) : outcome Errno Metadata := Ok (set_nlinks m (nlinks m + 1)).
Definition dec_nlinks (m : Metadata) : outcome Errno Metadata :=
  let? _ := oassert (0 <? nlinks m) in Ok (set_nlinks m (nlinks m - 1)).

(** * Directory entries *)

(** [any] over the names, and [find] over the indexed entries *)
Fixpoint any_name (name : path) (es : list (path * Z)) : outcome Errno bool :=
  match es with
  | [] => Ok false
  | (child, _) :: es' =>
      let? s := as_str child in
      if bool_decide (s = name) then Ok true else any_name name es'
  end.

Fixpoint find_name (name : path) (es : list (nat * (path * Z))) : outcome Errno (option (nat * Z)) :=
  match es with
  | [] => Ok None
  | (idx, (child, inode)) :: es' =>
      let? s := as_str child in
      if bool_decide (s = name) then Ok (Some (idx, inode)) else find_name name es'
  end.

Definition contains_entry (d : DirEntry) (name : path) : outcome Errno bool :=
  if is_dot name then Ok true else any_name name (sv_iter (children d)).

Definition with_children (d : DirEntry) (c : SlotVec (path * Z)) : DirEntry := MkDirEntry c (this d) (parent d).

Definition append_entry (name : path) (inode : Z) (d : DirEntry) : outcome Errno DirEntry :=
  let? r := sv_put (cstr256_from name, inode) (children d) in Ok (with_children d r.2).

Definition remove_entry (idx : nat) (d : DirEntry) : outcome Errno DirEntry :=
  let? _ := oassert (2 <=? idx)%nat in
  let? r := sv_remove (idx - 2) (children d) in Ok (with_children d r.2).

Definition substitute_entry (idx : nat) (new_entry : path * Z) (d : DirEntry) : outcome Errno DirEntry :=
  let? _ := oassert (2 <=? idx)%nat in
  Ok (with_children d (sv_put_at (idx - 2) new_entry (children d)).2).

Notation is_empty_children d := ((num_occupied (children d) =? 0)%nat) (only parsing).
Definition set_parent (p : Z) (d : DirEntry) : outcome Errno DirEntry := Ok (MkDirEntry (children d) (this d) p).

(** * The file system *)

Record RamFS : Type := MkRamFS {
  inodes : gmap Z Inode_;
  inode_allocator : Z;
  files : Z;
}.

Notation ramM := (stM RamFS Errno).

(** [RamFS::new] *)
Definition ramfs_new : RamFS :=
  MkRamFS {[ ROOT_INO := inode_new ROOT_INO 493 (IDir (MkDirEntry sv_new ROOT_INO ROOT_INO)) ]} (ROOT_INO + 1) 0.

Notation alloc_id := ((fun fs =>
  (Ok (inode_allocator fs), MkRamFS (inodes fs) (inode_allocator fs + 1) (files fs + 1))) : ramM Z) (only parsing).

(** The inode behind a reference, under its lock. *)
Definition get_inode (i : Z) : ramM Inode_ := fun fs =>
  match inodes fs !! i with Some x => (Ok x, fs) | None => (Panic, fs) end.
Definition put_inode (i : Z) (x : Inode_) : ramM unit := fun fs =>
  (Ok tt, MkRamFS (<[i := x]> (inodes fs)) (inode_allocator fs) (files fs)).

(** [Weak::upgrade().unwrap()] *)
Definition upgrade_inode (i : Z) : ramM Z := let! _ := get_inode i in sret i.

(** The last [Arc] of an inode is dropped. *)
Definition drop_inode (i : Z) (fs : RamFS) : RamFS := MkRamFS (delete i (inodes fs)) (inode_allocator fs) (files fs).

Definition get_entry (d : DirEntry) (name : path) : ramM (option (nat * Z)) :=
  if bool_decide (name = DOT) then let! i := upgrade_inode (this d) in sret (Some (0%nat, i))
  else if bool_decide (name = DOTDOT) then let! i := upgrade_inode (parent d) in sret (Some (1%nat, i))
  else
    let! r := slift (find_name name (sv_idxes_and_items (children d))) in
    sret (match r with Some (idx, inode) => Some (idx + 2, inode)%nat | None => None end).

Definition upd_metadata (i : Z) (f : Metadata -> outcome Errno Metadata) : ramM unit :=
  let! x := get_inode i in
  let! m := slift (f (metadata x)) in
  put_inode i (set_metadata x m).

(** [inner.as_direntry().unwrap()] and [as_direntry_mut] *)
Definition as_direntry (x : Inode_) : outcome Errno DirEntry := match inner x with IDir d => Ok d | _ => Panic end.

Definition upd_direntry (i : Z) (f : DirEntry -> outcome Errno DirEntry) : ramM unit :=
  let! x := get_inode i in
  let! d := slift (as_direntry x) in
  let! d' := slift (f d) in
  put_inode i (set_inner x (IDir d')).

Definition inode_type (i : Z) : ramM InodeType := let! x := get_inode i in sret (type_ (metadata x)).
Definition direntry (i : Z) : ramM DirEntry := let! x := get_inode i in slift (as_direntry x).

(** [RamInode::new_dir], [new_file], [new_socket], [new_symlink] and
    [new_device] *)
Definition new_inode (mode : Z) (mk : Z -> Inner) : ramM Z :=
  let! id := alloc_id in
  put_inode id (inode_new id mode (mk id)) ;! sret id.
Definition new_dir (mode : Z) (p : Z) : ramM Z := new_inode mode (fun id => IDir (MkDirEntry sv_new id p)).

(** * The directory operations of [Inode] *)

Definition ram_mknod (self : Z) (name : path) (mode : Z) (device : Device) : ramM Z :=
  let! ty := inode_type self in
  if negb (bool_decide (ty = Dir)) then serr ENOTDIR
  else if (NAME_MAX <? length name)%nat then serr ENAMETOOLONG
  else
    let! d := direntry self in
    let! exists_ := slift (contains_entry d name) in
    if exists_ : bool then serr EEXIST
    else
      let! device_inode := new_inode mode (fun _ => IDevice device) in
      upd_direntry self (append_entry name device_inode) ;!
      upd_metadata self inc_size ;!
      sret device_inode.

Definition ram_create (self : Z) (name : path) (ty : InodeType) (mode : Z) : ramM Z :=
  let! self_ty := inode_type self in
  if negb (bool_decide (self_ty = Dir)) then serr ENOTDIR
  else if (NAME_MAX <? length name)%nat then serr ENAMETOOLONG
  else
    let! d := direntry self in
    let! exists_ := slift (contains_entry d name) in
    if exists_ : bool then serr EEXIST
    else
      let! new_inode :=
        match ty with
        | File => new_inode mode (fun _ => IFile)
        | SymLink => new_inode mode (fun _ => ISymLink [])
        | Socket => new_inode mode (fun _ => ISocket)
        | Dir => let! dir_inode := new_dir mode self in upd_metadata self inc_nlinks ;! sret dir_inode
        | _ => spanic
        end in
      upd_direntry self (append_entry name new_inode) ;!
      upd_metadata self inc_size ;!
      sret new_inode.

Definition ram_link (self old : Z) (name : path) : ramM unit :=
  let! ty := inode_type self in
  if negb (bool_decide (ty = Dir)) then serr ENOTDIR
  else
    let! old_ty := inode_type old in
    if bool_decide (old_ty = Dir) then serr EPERM
    else
      let! d := direntry self in
      let! exists_ := slift (contains_entry d name) in
      if exists_ : bool then serr EEXIST
      else
        upd_direntry self (append_entry name old) ;!
        upd_metadata self inc_size ;!
        upd_metadata old inc_nlinks.

(** [get_entry(name).ok_or(ENOENT)] *)
Definition the_entry (d : DirEntry) (name : path) : ramM (nat * Z) :=
  let! e := get_entry d name in
  match e with Some r => sret r | None => serr ENOENT end.

Definition ram_unlink (self : Z) (name : path) : ramM unit :=
  let! ty := inode_type self in
  if negb (bool_decide (ty = Dir)) then serr ENOTDIR
  else if is_dot name then serr EISDIR
  else
    let! d := direntry self in
    let! e := the_entry d name in
    let! target_ty := inode_type e.2 in
    if bool_decide (target_ty = Dir) then serr EISDIR
    else
      upd_direntry self (remove_entry e.1) ;!
      upd_metadata self dec_size ;!
      upd_metadata e.2 dec_nlinks.

Definition ram_rmdir (self : Z) (name : path) : ramM unit :=
  let! ty := inode_type self in
  if negb (bool_decide (ty = Dir)) then serr ENOTDIR
  else if bool_decide (name = DOT) then serr EINVAL
  else if bool_decide (name = DOTDOT) then serr ENOTEMPTY
  else
    let! d := direntry self in
    let! e := the_entry d name in
    let! target_ty := inode_type e.2 in
    if negb (bool_decide (target_ty = Dir)) then serr ENOTDIR
    else
      let! target := direntry e.2 in
      if negb (is_empty_children target) then serr ENOTEMPTY
      else
        upd_direntry self (remove_entry e.1) ;!
        upd_metadata self dec_size ;!
        upd_metadata self dec_nlinks ;!
        upd_metadata e.2 dec_nlinks ;!
        upd_metadata e.2 dec_nlinks.

Definition ram_lookup (self : Z) (name : path) : ramM Z :=
  let! ty := inode_type self in
  if negb (bool_decide (ty = Dir)) then serr ENOTDIR
  else
    let! d := direntry self in
    let! e := the_entry d name in
    sret e.2.

(** The closure [check_replace_inode] of [rename] *)
Definition check_replace_inode (src_inode dst_inode : Z) : ramM unit :=
  let! src := get_inode src_inode in
  let! dst := get_inode dst_inode in
  if ino (metadata src) =? ino (metadata dst) then sret tt
  else
    match type_ (metadata src), type_ (metadata dst) with
    | Dir, Dir => let! d := direntry dst_inode in if negb (is_empty_children d) then serr ENOTEMPTY else sret tt
    | Dir, _ => serr ENOTDIR
    | _, Dir => serr EISDIR
    | _, _ => sret tt
    end.

Definition when (b : bool) (m : ramM unit) : ramM unit := if b then m else sret tt.

(** [rename] in the same directory *)
Definition rename_same (self : Z) (old_name new_name : path) : ramM unit :=
  let! d := direntry self in
  let! src := the_entry d old_name in
  let! src_ty := inode_type src.2 in
  let is_dir := bool_decide (src_ty = Dir) in
  let! dst := get_entry d new_name in
  match dst with
  | Some (dst_idx, dst_inode) =>
      check_replace_inode src.2 dst_inode ;!
      upd_direntry self (remove_entry dst_idx) ;!
      upd_direntry self (substitute_entry src.1 (cstr256_from new_name, src.2)) ;!
      upd_metadata self dec_size ;!
      when is_dir (upd_metadata self dec_nlinks)
  | None => upd_direntry self (substitute_entry src.1 (cstr256_from new_name, src.2))
  end.

(** [rename] across directories *)
Definition rename_across (self : Z) (old_name : path) (target : Z) (new_name : path) : ramM unit :=
  let! d := direntry self in
  let! src := the_entry d old_name in
  if src.2 =? target then serr EINVAL
  else
    let! src_ty := inode_type src.2 in
    let is_dir := bool_decide (src_ty = Dir) in
    let! target_dir := direntry target in
    let! dst := get_entry target_dir new_name in
    let! _ :=
      match dst with
      | Some (dst_idx, dst_inode) =>
          if self =? dst_inode then serr ENOTEMPTY
          else
            check_replace_inode src.2 dst_inode ;!
            upd_direntry self (remove_entry src.1) ;!
            upd_direntry target (remove_entry dst_idx) ;!
            upd_direntry target (append_entry new_name src.2) ;!
            upd_metadata self dec_size ;!
            when is_dir (upd_metadata self dec_nlinks)
      | None =>
          upd_direntry self (remove_entry src.1) ;!
          upd_direntry target (append_entry new_name src.2) ;!
          upd_metadata self dec_size ;!
          upd_metadata target inc_size ;!
          when is_dir (upd_metadata self dec_nlinks ;! upd_metadata target inc_nlinks)
      end in
    when is_dir (upd_direntry src.2 (set_parent target)).

Definition ram_rename (self : Z) (old_name : path) (target : Z) (new_name : path) : ramM unit :=
  let! me := get_inode self in
  if negb (bool_decide (type_ (metadata me) = Dir)) then serr ENOTDIR
  else
    let! tgt := get_inode target in
    if negb (bool_decide (type_ (metadata tgt) = Dir)) then serr ENOTDIR
    else if is_dot old_name then serr EISDIR
    else if is_dot new_name then serr EISDIR
    else if ino (metadata me) =? ino (metadata tgt) then rename_same self old_name new_name
    else rename_across self old_name target new_name.


(** * Reading directories *)

(** [Iterator::skip_while] *)
Fixpoint skip_while {A} (f : A -> bool) (l : list A) : list A :=
  match l with
  | [] => []
  | x :: l' => if f x then skip_while f l' else l
  end.

(** The two special entries and the children, with their offsets. *)
Definition all_entries (d : DirEntry) : list (nat * (path * Z)) :=
  (0%nat, (DOT, this d)) :: (1%nat, (DOTDOT, parent d)) ::
  ((fun '(offset, e) => (offset + 2, e)%nat) <$> sv_idxes_and_items (children d)).

Section Readdir.
Context {V : Type} (visit : path -> Z -> InodeType -> nat -> stM V Errno unit).

(** The closure [try_visit] of [visit_entry]; it also gives the offset it came to. *)
Fixpoint try_visit (fs : RamFS) (es : list (nat * (path * Z))) (idx : nat) (v : V) : outcome Errno unit * nat * V :=
  match es with
  | [] => (Ok tt, idx, v)
  | (offset, (name, child)) :: es' =>
      match inodes fs !! child, as_str name with
      | Some x, Ok s =>
          match visit s (ino (metadata x)) (type_ (metadata x)) offset v with
          | (Ok _, v') => try_visit fs es' (S offset) v'
          | (Err e, v') => (Err e, idx, v')
          | (Panic, v') => (Panic, idx, v')
          end
      | _, _ => (Panic, idx, v)
      end
  end.

Definition visit_entry (fs : RamFS) (d : DirEntry) (idx : nat) (v : V) : outcome Errno nat * V :=
  match try_visit fs (skip_while (fun e => (e.1 <? idx)%nat) (all_entries d)) idx v with
  | (Ok _, iterate_idx, v') => (Ok (iterate_idx - idx)%nat, v')
  | (Err e, iterate_idx, v') => (if (idx =? iterate_idx)%nat then Err e else Ok (iterate_idx - idx)%nat, v')
  | (Panic, _, v') => (Panic, v')
  end.

Definition ram_readdir_at (fs : RamFS) (self : Z) (offset : nat) (v : V) : outcome Errno nat * V :=
  match (let! ty := inode_type self in
         if negb (bool_decide (ty = Dir)) then serr ENOTDIR else direntry self) fs with
  | (Ok d, _) => visit_entry fs d offset v
  | (Err e, _) => (Err e, v)
  | (Panic, _) => (Panic, v)
  end.

End Readdir.
