(* ===== verification/FsTree.v ===== *)
(** What a file system promises about its directories: a tree of inodes with
    named entries, the effect of every directory operation on it, and that the
    operations keep it well formed. *)

From S2P Require Import Prelude Perms SlotVec PathLookup RamFs.

(** * Trees *)

Record tree : Type := MkTree {
  t_kind : gmap Z InodeType;
  t_dirs : gmap Z (gmap path Z);
  t_parent : gmap Z Z;
  t_next : Z;
}.

Definition entry (t : tree) (d : Z) (n : path) : option Z := t_dirs t !! d ≫= (.!! n).

Definition set_entry (d : Z) (n : path) (o : option Z) (t : tree) : tree :=
  MkTree (t_kind t) (alter (partial_alter (fun _ => o) n) d (t_dirs t)) (t_parent t) (t_next t).

(** A fresh inode; a directory starts empty. *)
Definition add_node (ty : InodeType) (p : Z) (t : tree) : tree :=
  MkTree (<[t_next t := ty]> (t_kind t))
    (if decide (ty = Dir) then <[t_next t := ∅]> (t_dirs t) else t_dirs t)
    (if decide (ty = Dir) then <[t_next t := p]> (t_parent t) else t_parent t)
    (t_next t + 1).

Definition set_tparent (c p : Z) (t : tree) : tree :=
  MkTree (t_kind t) (t_dirs t) (<[c := p]> (t_parent t)) (t_next t).

(** * Operations *)

Notation treeM := (stM tree Errno).

(** The entry is looked up in a directory; [k] goes on with what it holds. *)
Definition in_dir {A} (d : Z) (k : tree -> outcome Errno A * tree) : treeM A := fun t =>
  match t_kind t !! d with
  | None => (Panic, t)
  | Some Dir => k t
  | Some _ => (Err ENOTDIR, t)
  end.

Definition kind_of {A} (i : Z) (t : tree) (k : InodeType -> outcome Errno A * tree) : outcome Errno A * tree :=
  match t_kind t !! i with None => (Panic, t) | Some ty => k ty end.

Definition tree_make (d : Z) (n : path) (ty : InodeType) : treeM Z := in_dir d (fun t =>
  if (NAME_MAX <? length n)%nat then (Err ENAMETOOLONG, t)
  else if is_dot n then (Err EEXIST, t)
  else match entry t d n with
       | Some _ => (Err EEXIST, t)
       | None => (Ok (t_next t), set_entry d n (Some (t_next t)) (add_node ty d t))
       end).

Definition tree_link (d old : Z) (n : path) : treeM unit := in_dir d (fun t => kind_of old t (fun ty =>
  if decide (ty = Dir) then (Err EPERM, t)
  else if is_dot n then (Err EEXIST, t)
  else match entry t d n with
       | Some _ => (Err EEXIST, t)
       | None => (Ok tt, set_entry d n (Some old) t)
       end)).

Definition tree_unlink (d : Z) (n : path) : treeM unit := in_dir d (fun t =>
  if is_dot n then (Err EISDIR, t)
  else match entry t d n with
       | None => (Err ENOENT, t)
       | Some c => kind_of c t (fun ty =>
           if decide (ty = Dir) then (Err EISDIR, t) else (Ok tt, set_entry d n None t))
       end).

Definition is_empty (t : tree) (d : Z) : bool := bool_decide (t_dirs t !! d = Some ∅).

Definition tree_rmdir (d : Z) (n : path) : treeM unit := in_dir d (fun t =>
  if bool_decide (n = DOT) then (Err EINVAL, t)
  else if bool_decide (n = DOTDOT) then (Err ENOTEMPTY, t)
  else match entry t d n with
       | None => (Err ENOENT, t)
       | Some c => kind_of c t (fun ty =>
           if negb (bool_decide (ty = Dir)) then (Err ENOTDIR, t)
           else if negb (is_empty t c) then (Err ENOTEMPTY, t)
           else (Ok tt, set_entry d n None t))
       end).

Definition tree_lookup (d : Z) (n : path) : treeM Z := in_dir d (fun t =>
  if bool_decide (n = DOT) then (Ok d, t)
  else if bool_decide (n = DOTDOT) then (match t_parent t !! d with Some p => Ok p | None => Panic end, t)
  else match entry t d n with None => (Err ENOENT, t) | Some c => (Ok c, t) end).

(** May the inode [src] take the place of [dst]? *)
Definition tree_replace (t : tree) (src dst : Z) : outcome Errno unit :=
  if src =? dst then Ok tt
  else match t_kind t !! src, t_kind t !! dst with
       | Some Dir, Some Dir => if is_empty t dst then Ok tt else Err ENOTEMPTY
       | Some Dir, _ => Err ENOTDIR
       | _, Some Dir => Err EISDIR
       | _, _ => Ok tt
       end.

(** Moves the entry [n] of [d] to [n'] of [d']. *)
Definition move (d : Z) (n : path) (d' : Z) (n' : path) (src : Z) (t : tree) : tree :=
  let t' := set_entry d' n' (Some src) (set_entry d n None t) in
  if decide (d = d') then t' else if decide (t_kind t !! src = Some Dir) then set_tparent src d' t' else t'.

Definition tree_rename (d : Z) (n : path) (d' : Z) (n' : path) : treeM unit := in_dir d (fun t => in_dir d' (fun t =>
  if is_dot n then (Err EISDIR, t)
  else if is_dot n' then (Err EISDIR, t)
  else match entry t d n with
       | None => (Err ENOENT, t)
       | Some src =>
           if bool_decide (d <> d') && (src =? d') then (Err EINVAL, t)
           else match entry t d' n' with
                | None => (Ok tt, move d n d' n' src t)
                | Some dst =>
                    if bool_decide (d <> d') && (d =? dst) then (Err ENOTEMPTY, t)
                    else match tree_replace t src dst with
                         | Ok _ => (Ok tt, move d n d' n' src t)
                         | Err e => (Err e, t)
                         | Panic => (Panic, t)
                         end
                end
       end) t).

(** * Well-formedness *)

Record tree_wf (t : tree) : Prop := {
  wf_root : t_kind t !! ROOT_INO = Some Dir;
  wf_dirs i : is_Some (t_dirs t !! i) <-> t_kind t !! i = Some Dir;
  wf_entry d n c : entry t d n = Some c -> is_Some (t_kind t !! c) /\ is_dot n = false /\ c <> ROOT_INO;
  wf_dir_parent d n c : entry t d n = Some c -> t_kind t !! c = Some Dir -> t_parent t !! c = Some d;
  wf_dir_name d n n' c : entry t d n = Some c -> entry t d n' = Some c -> t_kind t !! c = Some Dir -> n' = n;
  wf_parent i : t_kind t !! i = Some Dir -> exists p, t_parent t !! i = Some p /\ t_kind t !! p = Some Dir;
  wf_next i : is_Some (t_kind t !! i) -> i < t_next t;
}.

Lemma entry_is_dir t d n c : tree_wf t -> entry t d n = Some c -> t_kind t !! d = Some Dir.
Proof. intros Hwf He. apply (wf_dirs t Hwf). unfold entry in He. destruct (t_dirs t !! d); [eauto|done]. Qed.

Lemma entry_kind t d n c : tree_wf t -> entry t d n = Some c -> exists ty, t_kind t !! c = Some ty.
Proof. intros Hwf He. apply (wf_entry t Hwf) in He as [? _]. done. Qed.

(** The holder of a directory is unique. *)
Lemma entry_dir_unique t d n d' n' c :
  tree_wf t -> entry t d n = Some c -> entry t d' n' = Some c -> t_kind t !! c = Some Dir -> d' = d /\ n' = n.
Proof.
  intros Hwf He He' Hc. pose proof (wf_dir_parent t Hwf _ _ _ He Hc). pose proof (wf_dir_parent t Hwf _ _ _ He' Hc).
  simplify_eq. split; [done|]. by eapply wf_dir_name.
Qed.

Lemma entry_set t d n o d' n' :
  is_Some (t_dirs t !! d) ->
  entry (set_entry d n o t) d' n' = if decide (d' = d /\ n' = n) then o else entry t d' n'.
Proof.
  intros [m Hm]. unfold entry. simpl. destruct (decide (d' = d)) as [->|Hd].
  - rewrite lookup_alter_eq, Hm. simpl. destruct (decide (n' = n)) as [->|Hn].
    + rewrite lookup_partial_alter_eq. by rewrite decide_True.
    + rewrite lookup_partial_alter_ne by done. rewrite decide_False; [done|tauto].
  - rewrite lookup_alter_ne by done. rewrite decide_False; [done|tauto].
Qed.

Lemma dirs_set t d n o i : is_Some (t_dirs (set_entry d n o t) !! i) <-> is_Some (t_dirs t !! i).
Proof.
  simpl. destruct (decide (i = d)) as [->|Hi]; [|by rewrite lookup_alter_ne]. rewrite lookup_alter_eq.
  by rewrite fmap_is_Some.
Qed.

(** No entry of the tree is the inode [c]. *)
Definition unlinked (t : tree) (c : Z) : Prop := forall d n, entry t d n <> Some c.

Lemma next_fresh t : tree_wf t -> t_kind t !! t_next t = None.
Proof.
  intros Hwf. destruct (t_kind t !! t_next t) eqn:Hk; [|done]. pose proof (wf_next t Hwf (t_next t) ltac:(eauto)). lia.
Qed.

Lemma next_no_dir t : tree_wf t -> t_dirs t !! t_next t = None.
Proof.
  intros Hwf. destruct (t_dirs t !! t_next t) eqn:Hk; [|done].
  assert (t_kind t !! t_next t = Some Dir) by (apply (wf_dirs t Hwf); eauto). rewrite next_fresh in *; done.
Qed.

Lemma next_unlinked t : tree_wf t -> unlinked t (t_next t).
Proof. intros Hwf d n He. destruct (entry_kind t d n _ Hwf He) as [ty Hk]. by rewrite next_fresh in Hk. Qed.

Lemma entry_add ty p t d n : tree_wf t -> entry (add_node ty p t) d n = entry t d n.
Proof.
  intros Hwf. unfold entry. simpl. destruct (decide (ty = Dir)); [|done].
  destruct (decide (d = t_next t)) as [->|Hd]; [|by rewrite lookup_insert_ne].
  rewrite lookup_insert_eq, next_no_dir by done. done.
Qed.

Lemma kind_add ty p t c : tree_wf t -> is_Some (t_kind t !! c) -> t_kind (add_node ty p t) !! c = t_kind t !! c.
Proof.
  intros Hwf [ty' Hc]. simpl. rewrite lookup_insert_ne; [done|]. intros <-. rewrite next_fresh in Hc; done.
Qed.

Lemma kind_add_new ty p t : t_kind (add_node ty p t) !! t_next t = Some ty.
Proof. apply lookup_insert_eq. Qed.

Lemma add_node_wf ty p t : tree_wf t -> t_kind t !! p = Some Dir -> tree_wf (add_node ty p t).
Proof.
  intros Hwf Hp. pose proof (next_fresh t Hwf) as Hfresh.
  assert (Hold : forall c, is_Some (t_kind t !! c) -> t_kind (add_node ty p t) !! c = t_kind t !! c).
  { intros c. by apply kind_add. }
  assert (Hpar : forall c, is_Some (t_kind t !! c) -> t_parent (add_node ty p t) !! c = t_parent t !! c).
  { intros c [ty' Hc]. simpl. destruct (decide (ty = Dir)); [|done]. rewrite lookup_insert_ne; [done|]. intros <-. congruence. }
  split.
  - rewrite Hold; [|rewrite (wf_root t Hwf); eauto]. apply (wf_root t Hwf).
  - intros i. simpl. destruct (decide (i = t_next t)) as [->|Hi].
    + rewrite lookup_insert_eq. destruct (decide (ty = Dir)) as [->|]; [by rewrite lookup_insert_eq|].
      rewrite next_no_dir by done. split; [by intros []|congruence].
    + rewrite lookup_insert_ne by done. rewrite <- (wf_dirs t Hwf i). destruct (decide (ty = Dir)); [|done].
      by rewrite lookup_insert_ne.
  - intros d n c. rewrite entry_add by done. intros He. destruct (wf_entry t Hwf _ _ _ He) as (Hk & Hn & Hr).
    by rewrite Hold.
  - intros d n c. rewrite entry_add by done. intros He. destruct (wf_entry t Hwf _ _ _ He) as (Hk & _).
    rewrite Hold, Hpar by done. by eapply wf_dir_parent.
  - intros d n n' c. rewrite !entry_add by done. intros He. destruct (wf_entry t Hwf _ _ _ He) as (Hk & _).
    rewrite Hold by done. by eapply wf_dir_name.
  - intros i. destruct (decide (i = t_next t)) as [->|Hi].
    + simpl. rewrite lookup_insert_eq. intros [= ->]. rewrite decide_True, lookup_insert_eq by done. exists p.
      split; [done|]. rewrite lookup_insert_ne; [done|congruence].
    + intros Hk. simpl in Hk. rewrite lookup_insert_ne in Hk by done.
      destruct (wf_parent t Hwf i Hk) as (q & Hq & Hkq). exists q. rewrite Hpar, Hold by eauto. done.
  - intros i. simpl. destruct (decide (i = t_next t)) as [->|Hi]; [lia|]. rewrite lookup_insert_ne by done.
    intros Hk. pose proof (wf_next t Hwf i Hk). lia.
Qed.

Lemma set_none_wf d n t : tree_wf t -> t_kind t !! d = Some Dir -> tree_wf (set_entry d n None t).
Proof.
  intros Hwf Hd. apply (wf_dirs t Hwf) in Hd.
  assert (Hsub : forall d' n' c, entry (set_entry d n None t) d' n' = Some c -> entry t d' n' = Some c).
  { intros d' n' c. rewrite entry_set by done. by case_decide. }
  split.
  - apply (wf_root t Hwf).
  - intros i. rewrite dirs_set. apply (wf_dirs t Hwf).
  - intros d' n' c He. by eapply (wf_entry t Hwf), Hsub.
  - intros d' n' c He. eapply (wf_dir_parent t Hwf), Hsub, He.
  - intros d' n1 n2 c H1 H2. eapply (wf_dir_name t Hwf); by apply Hsub.
  - apply (wf_parent t Hwf).
  - apply (wf_next t Hwf).
Qed.

Lemma set_some_wf d n c t :
  tree_wf t -> t_kind t !! d = Some Dir -> is_dot n = false -> is_Some (t_kind t !! c) -> c <> ROOT_INO ->
  (t_kind t !! c = Some Dir -> unlinked t c /\ t_parent t !! c = Some d) ->
  tree_wf (set_entry d n (Some c) t).
Proof.
  intros Hwf Hd Hn Hc Hr Hdir. apply (wf_dirs t Hwf) in Hd.
  assert (Hsub : forall d' n' c', entry (set_entry d n (Some c) t) d' n' = Some c' ->
    (d' = d /\ n' = n /\ c' = c) \/ entry t d' n' = Some c').
  { intros d' n' c'. rewrite entry_set by done. case_decide; [|by right]. intros [= <-]. left. tauto. }
  split.
  - apply (wf_root t Hwf).
  - intros i. rewrite dirs_set. apply (wf_dirs t Hwf).
  - intros d' n' c' [(-> & -> & ->)|He]%Hsub; [done|]. by eapply (wf_entry t Hwf).
  - intros d' n' c' [(-> & -> & ->)|He]%Hsub Hk; [by apply Hdir|]. by eapply (wf_dir_parent t Hwf).
  - intros d' n1 n2 c' H1 H2 Hk. simpl in Hk.
    destruct (Hsub _ _ _ H1) as [(-> & -> & ->)|He1], (Hsub _ _ _ H2) as [(? & -> & He2)|He2]; subst.
    + done.
    + by destruct (proj1 (Hdir Hk) _ _ He2).
    + by destruct (proj1 (Hdir Hk) _ _ He1).
    + by eapply (wf_dir_name t Hwf).
  - apply (wf_parent t Hwf).
  - apply (wf_next t Hwf).
Qed.

Lemma set_tparent_wf c p t :
  tree_wf t -> unlinked t c -> t_kind t !! p = Some Dir -> tree_wf (set_tparent c p t).
Proof.
  intros Hwf Hun Hp. split; try apply Hwf.
  - intros d n c' He Hk. simpl. rewrite lookup_insert_ne; [by eapply (wf_dir_parent t Hwf)|]. intros <-. by apply (Hun d n).
  - intros i Hk. simpl. destruct (decide (i = c)) as [->|]; [rewrite lookup_insert_eq; eauto|].
    rewrite lookup_insert_ne by done. by apply (wf_parent t Hwf).
Qed.

Lemma unlinked_set_none d n c t :
  tree_wf t -> entry t d n = Some c -> t_kind t !! c = Some Dir -> unlinked (set_entry d n None t) c.
Proof.
  intros Hwf He Hk d' n'. rewrite entry_set by (apply (wf_dirs t Hwf); by eapply entry_is_dir).
  case_decide as Hdn; [done|]. intros He'. apply Hdn. by eapply (entry_dir_unique t d n).
Qed.

Lemma move_wf d n d' n' src t :
  tree_wf t -> entry t d n = Some src -> t_kind t !! d' = Some Dir -> is_dot n' = false ->
  tree_wf (move d n d' n' src t).
Proof.
  intros Hwf He Hd' Hn'. pose proof (entry_is_dir _ _ _ _ Hwf He) as Hd.
  destruct (wf_entry t Hwf _ _ _ He) as (Hk & _ & Hr). pose proof (set_none_wf d n t Hwf Hd) as Hwf1.
  pose proof (unlinked_set_none d n src t Hwf He) as Hun. unfold move.
  destruct (decide (d = d')) as [<-|Hdd]; [|destruct (decide (t_kind t !! src = Some Dir)) as [Hs|Hs]].
  - apply set_some_wf; try done. intros Hs. split; [by apply Hun|]. by eapply (wf_dir_parent t Hwf).
  - change (set_tparent _ _ (set_entry _ _ _ ?t1)) with (set_entry d' n' (Some src) (set_tparent src d' t1)).
    apply set_some_wf; try done; [by apply set_tparent_wf; [|by apply Hun|]|]. intros _. split; [by apply Hun|].
    simpl. apply lookup_insert_eq.
  - apply set_some_wf; done.
Qed.
