(* ===== verification/RamFsFacts.v ===== *)
(** The in-memory file system refines the directory tree: its link counts and
    sizes never fail an assertion, and every directory operation acts on the
    tree as promised. *)

From S2P Require Import Prelude Perms SlotVec PathLookup RamFs FsTree.

(** * Names and entries *)

(** A name that the fixed-size strings of the directories hold unchanged. *)
Definition name_ok (n : path) : Prop := utf8_valid n = true /\ (length n <= 255)%nat /\ 0 ∉ n.

Lemma until_nul_id n : 0 ∉ n -> until_nul n = n.
Proof.
  induction n as [|c n IH]; [done|]. simpl. intros Hn. destruct (Z.eqb_spec c 0) as [->|]; [set_solver|].
  rewrite IH; set_solver.
Qed.

Lemma cstr256_id n : name_ok n -> cstr256_from n = n.
Proof. intros (_ & Hl & H0). unfold cstr256_from. rewrite until_nul_id by done. by rewrite take_ge. Qed.

Lemma as_str_ok n : name_ok n -> as_str n = Ok n.
Proof. intros (Hu & _). unfold as_str. by rewrite Hu. Qed.

Record dir_ok (d : DirEntry) : Prop := {
  dir_wf : sv_wf (children d);
  dir_nodup : NoDup (sv_iter (children d)).*1;
  dir_names : Forall (fun e => name_ok e.1 /\ is_dot e.1 = false) (sv_iter (children d));
}.

Definition dir_map (d : DirEntry) : gmap path Z := list_to_map (sv_iter (children d)).

Lemma any_name_spec n es :
  Forall (fun e => name_ok e.1 /\ is_dot e.1 = false) es ->
  any_name n es = Ok (bool_decide (is_Some ((list_to_map es : gmap path Z) !! n))).
Proof.
  induction es as [|[m i] es IH]; intros Hes; simpl.
  - rewrite lookup_empty. by rewrite bool_decide_eq_false_2 by (by intros []).
  - inversion Hes as [|? ? [Hm _] Hes']; subst. simpl in Hm. rewrite as_str_ok by done. simpl.
    destruct (decide (m = n)) as [->|Hne].
    + rewrite bool_decide_eq_true_2 by done. rewrite lookup_insert_eq. by rewrite bool_decide_eq_true_2.
    + rewrite bool_decide_eq_false_2 by done. rewrite lookup_insert_ne by done. by apply IH.
Qed.

Lemma contains_entry_spec d n :
  dir_ok d -> is_dot n = false -> contains_entry d n = Ok (bool_decide (is_Some (dir_map d !! n))).
Proof. intros Hd Hn. unfold contains_entry. rewrite Hn. apply any_name_spec, Hd. Qed.

Lemma find_name_spec n es :
  Forall (fun e => name_ok e.2.1) es ->
  match find_name n es with
  | Ok (Some (i, c)) => (i, (n, c)) ∈ es
  | Ok None => Forall (fun e => e.2.1 <> n) es
  | _ => False
  end.
Proof.
  induction es as [|[i [m c]] es IH]; intros Hes; simpl; [by constructor|].
  inversion Hes as [|? ? Hm Hes']; subst. simpl in Hm. rewrite as_str_ok by done. simpl. specialize (IH Hes').
  destruct (decide (m = n)) as [->|Hne]; [rewrite bool_decide_eq_true_2 by done; by left|].
  rewrite bool_decide_eq_false_2 by done. destruct (find_name n es) as [[[j c']|]| |]; [by right|by constructor|done|done].
Qed.

Lemma elem_of_iter {T} (sv : SlotVec T) t : t ∈ sv_iter sv <-> exists i, mjoin (slots sv !! i) = Some t.
Proof.
  unfold sv_iter. rewrite list_elem_of_omap. split.
  - intros ([x|] & Hin & Hx); simplify_eq/=. apply list_elem_of_lookup in Hin as [i Hi]. exists i. by rewrite Hi.
  - intros [i Hi]. destruct (slots sv !! i) as [[x|]|] eqn:Hl; simplify_eq/=. exists (Some t). split; [|done].
    by eapply list_elem_of_lookup_2.
Qed.

Lemma dir_map_elem d n c : dir_ok d -> dir_map d !! n = Some c <-> (n, c) ∈ sv_iter (children d).
Proof.
  intros Hd. unfold dir_map. split; [apply elem_of_list_to_map_2|]. apply elem_of_list_to_map_1, Hd.
Qed.

Lemma get_entry_spec d n fs :
  dir_ok d -> is_dot n = false ->
  match (get_entry d n fs).1 with
  | Ok (Some (i, c)) => (2 <= i)%nat /\ mjoin (slots (children d) !! (i - 2)%nat) = Some (n, c) /\ dir_map d !! n = Some c
  | Ok None => dir_map d !! n = None
  | _ => False
  end /\ (get_entry d n fs).2 = fs.
Proof.
  intros Hd Hn. unfold get_entry, sbind, slift. unfold is_dot in Hn. apply orb_false_iff in Hn as [-> ->].
  assert (Hes : Forall (fun e => name_ok e.2.1) (sv_idxes_and_items (children d))).
  { apply Forall_forall. intros [i [m c]] Hin. apply elem_of_idxes in Hin. simpl.
    pose proof (dir_names d Hd) as Hall. rewrite Forall_forall in Hall.
    apply (Hall (m, c)). apply elem_of_iter. eauto. }
  pose proof (find_name_spec n _ Hes) as Hf. destruct (find_name _ _) as [[[i c]|]| |]; (split; [|done]); simpl; [| |done|done].
  - apply elem_of_idxes in Hf. replace (i + 2 - 2)%nat with i by lia. split; [lia|]. split; [done|].
    apply dir_map_elem; [done|]. apply elem_of_iter. eauto.
  - apply eq_None_not_Some. intros [c Hc]. apply dir_map_elem in Hc; [|done]. apply elem_of_iter in Hc as [i Hi].
    apply elem_of_idxes in Hi. rewrite Forall_forall in Hf. by apply (Hf _ Hi).
Qed.

(** Directories after their entries changed. *)
Lemma dir_ok_perm d d' :
  dir_ok d -> sv_wf (children d') -> sv_iter (children d') ≡ₚ sv_iter (children d) -> dir_ok d' /\ dir_map d' = dir_map d.
Proof.
  intros Hd Hwf Hp. split; [split; [done|..]|].
  - rewrite Hp. apply Hd.
  - rewrite Hp. apply Hd.
  - apply list_to_map_proper; [|done]. rewrite Hp. apply Hd.
Qed.

Lemma append_entry_ok d n c :
  dir_ok d -> name_ok n -> is_dot n = false -> dir_map d !! n = None ->
  exists d', append_entry n c d = Ok d' /\ dir_ok d' /\ dir_map d' = <[n := c]> (dir_map d) /\
    length (sv_iter (children d')) = S (length (sv_iter (children d))) /\ this d' = this d /\ parent d' = parent d.
Proof.
  intros Hd Hn Hdot Hno. unfold append_entry. rewrite cstr256_id by done.
  destruct (sv_put_ok (E := Errno) (n, c) (children d) (dir_wf d Hd)) as (i & sv' & -> & Hwf & _ & _ & Hp).
  eexists. split; [done|]. simpl.
  assert (Hnd : NoDup (sv_iter sv').*1).
  { rewrite Hp. simpl. constructor; [|apply Hd]. intros Hin. apply list_elem_of_fmap in Hin as ([n' c'] & ? & Hin).
    simpl in *. subst n'. apply dir_map_elem in Hin; [|done]. congruence. }
  split; [split; [done|done|]|].
  - simpl. rewrite Hp. constructor; [done|apply Hd].
  - split; [|split; [by rewrite Hp|done]]. unfold dir_map. simpl. by rewrite (list_to_map_proper _ _ Hnd Hp).
Qed.

Lemma remove_entry_ok d i n c :
  dir_ok d -> (2 <= i)%nat -> mjoin (slots (children d) !! (i - 2)%nat) = Some (n, c) ->
  exists d', remove_entry i d = Ok d' /\ dir_ok d' /\ dir_map d' = delete n (dir_map d) /\
    length (sv_iter (children d)) = S (length (sv_iter (children d'))) /\ this d' = this d /\ parent d' = parent d /\
    (forall j, mjoin (slots (children d') !! j) = if decide (j = i - 2)%nat then None else mjoin (slots (children d) !! j)).
Proof.
  intros Hd Hi Hs. unfold remove_entry. destruct (Nat.leb_spec 2 i); [|lia]. simpl.
  destruct (sv_remove_ok (E := Errno) (i - 2) (n, c) (children d) (dir_wf d Hd) Hs) as (sv' & -> & Hwf & Hj & Hp).
  eexists. split; [done|]. simpl.
  pose proof (dir_nodup d Hd) as Hnd. rewrite Hp in Hnd. simpl in Hnd. inversion Hnd as [|? ? Hnin Hnd']; subst.
  pose proof (dir_names d Hd) as Hall. rewrite Hp in Hall. inversion Hall; subst.
  split; [done|]. split; [|split; [by rewrite Hp|done]]. unfold dir_map. simpl.
  rewrite (list_to_map_proper (sv_iter (children d)) _ (dir_nodup d Hd) Hp). simpl. rewrite delete_insert_id; [done|].
  apply not_elem_of_list_to_map_1. done.
Qed.

Lemma substitute_entry_ok d i n c n' :
  dir_ok d -> (2 <= i)%nat -> mjoin (slots (children d) !! (i - 2)%nat) = Some (n, c) ->
  name_ok n' -> is_dot n' = false -> dir_map d !! n' = None ->
  exists d', substitute_entry i (cstr256_from n', c) d = Ok d' /\ dir_ok d' /\
    dir_map d' = <[n' := c]> (delete n (dir_map d)) /\
    length (sv_iter (children d')) = length (sv_iter (children d)) /\ this d' = this d /\ parent d' = parent d.
Proof.
  intros Hd Hi Hs Hn' Hdot Hno. unfold substitute_entry. destruct (Nat.leb_spec 2 i); [|lia]. cbn -[sv_put_at].
  rewrite cstr256_id by done.
  assert (Hlt : (i - 2 < length (slots (children d)))%nat).
  { destruct (slots (children d) !! (i - 2)%nat) eqn:Hl; [by eapply lookup_lt_Some|done]. }
  destruct (sv_put_at_ok (i - 2) (n', c) (children d) (dir_wf d Hd) Hlt) as (sv' & -> & Hwf & _ & Hp).
  rewrite Hs in Hp. simpl in Hp. eexists. split; [done|]. simpl.
  destruct (sv_remove_ok (E := Errno) (i - 2) (n, c) (children d) (dir_wf d Hd) Hs) as (sv0 & _ & _ & _ & Hp0).
  rewrite Hp0, perm_swap in Hp. apply Permutation_cons_inv in Hp.
  pose proof (dir_nodup d Hd) as Hnd. rewrite Hp0 in Hnd. simpl in Hnd. inversion Hnd as [|? ? Hnin Hnd0]; subst.
  pose proof (dir_names d Hd) as Hall. rewrite Hp0 in Hall. inversion Hall; subst.
  assert (Hn0 : n' ∉ (sv_iter sv0).*1).
  { intros Hin. apply list_elem_of_fmap in Hin as ([m x] & ? & Hin). simpl in *. subst m.
    assert (dir_map d !! n' = Some x) by (apply dir_map_elem; [done|]; rewrite Hp0; by right). congruence. }
  assert (Hnd' : NoDup (sv_iter sv').*1) by (rewrite Hp; simpl; by constructor).
  split; [split; [done|done|simpl; rewrite Hp; by constructor]|]. split; [|split; [by rewrite Hp, Hp0|done]].
  unfold dir_map. simpl. rewrite (list_to_map_proper _ _ Hnd' Hp). simpl. f_equal.
  rewrite (list_to_map_proper (sv_iter (children d)) _ (dir_nodup d Hd) Hp0). simpl. rewrite delete_insert_id; [done|].
  apply not_elem_of_list_to_map_1. done.
Qed.

(** * Link counts *)

(** At most [k] values satisfy [P]. *)
Definition at_most {A} (k : Z) (P : A -> Prop) : Prop :=
  forall l, NoDup l -> Forall P l -> Z.of_nat (length l) <= k.

Lemma at_most_nonneg {A} k (P : A -> Prop) : at_most k P -> 0 <= k.
Proof. intros H. apply (H []); constructor. Qed.

Lemma at_most_mono {A} k k' (P Q : A -> Prop) : at_most k P -> k <= k' -> (forall x, Q x -> P x) -> at_most k' Q.
Proof. intros H Hk HPQ l Hnd Hl. etrans; [apply H; [done|]|done]. by eapply Forall_impl. Qed.

Lemma at_most_remove {A} k (P : A -> Prop) x : at_most k P -> P x -> at_most (k - 1) (fun y => P y /\ y <> x).
Proof.
  intros H Hx l Hnd Hl. enough (Z.of_nat (length (x :: l)) <= k) by (simpl in *; lia). apply H.
  - constructor; [|done]. intros Hin. rewrite Forall_forall in Hl. by apply (Hl x Hin).
  - constructor; [done|]. eapply Forall_impl; [done|]. by intros y [? _].
Qed.

Lemma at_most_add {A} `{EqDecision A} k (P : A -> Prop) x : at_most k P -> at_most (k + 1) (fun y => P y \/ y = x).
Proof.
  intros H l Hnd Hl. destruct (decide (x ∈ l)) as [Hx|Hx].
  - apply elem_of_Permutation in Hx as [l' Hp]. rewrite Hp in Hnd, Hl |- *. inversion Hnd as [|? ? Hnin Hnd']; subst.
    inversion Hl as [|? ? _ Hl']; subst. simpl. specialize (H l' Hnd'). rewrite Nat2Z.inj_succ.
    enough (Z.of_nat (length l') <= k) by lia. apply H. rewrite Forall_forall in *. intros y Hy.
    destruct (Hl' y Hy) as [?| ->]; done.
  - specialize (H l Hnd). enough (Z.of_nat (length l) <= k) by lia. apply H. rewrite Forall_forall in *. intros y Hy.
    destruct (Hl y Hy) as [?| ->]; done.
Qed.

(** The entries that are directories. *)
Definition subdir (t : tree) (i : Z) (n : path) : Prop := exists c, entry t i n = Some c /\ t_kind t !! c = Some Dir.
Definition linked (t : tree) (i : Z) : Prop := exists d n, entry t d n = Some i.

(** [k] links are enough for the inode [i]: a file counts its entries, a
    directory its subdirectories and, while it is in use, itself and its entry. *)
Definition link_ok (t : tree) (i k : Z) : Prop :=
  (t_kind t !! i <> Some Dir -> at_most k (fun p : Z * path => entry t p.1 p.2 = Some i)) /\
  (t_kind t !! i = Some Dir ->
     at_most k (subdir t i) /\ (i = ROOT_INO \/ linked t i -> at_most (k - 2) (subdir t i))).

Lemma link_ok_nonneg t i k : link_ok t i k -> 0 <= k.
Proof.
  intros [Hf Hd]. destruct (decide (t_kind t !! i = Some Dir)) as [Hk|Hk].
  - by eapply at_most_nonneg, Hd.
  - by eapply at_most_nonneg, Hf.
Qed.

Lemma link_ok_mono t i k k' : link_ok t i k -> k <= k' -> link_ok t i k'.
Proof.
  intros [Hf Hd] Hk. split.
  - intros Ht. eapply at_most_mono; [by apply Hf|lia|done].
  - intros Ht. destruct (Hd Ht) as [H1 H2]. split; [by eapply at_most_mono|]. intros Hl.
    eapply at_most_mono; [by apply H2|lia|done].
Qed.

(** The links that an entry of [d] for [c] takes from the inode [i]. *)
Definition ldelta (t : tree) (d c i : Z) : Z :=
  (if decide (i = c) then (if decide (t_kind t !! c = Some Dir) then 2 else 1) else 0) +
  (if decide (i = d /\ t_kind t !! c = Some Dir) then 1 else 0).

Lemma link_ok_set_some t d n c i k :
  is_Some (t_dirs t !! d) -> entry t d n = None -> (t_kind t !! c = Some Dir -> unlinked t c /\ c <> ROOT_INO) ->
  link_ok t i k -> link_ok (set_entry d n (Some c) t) i (k + ldelta t d c i).
Proof.
  intros Hd Hno Hc [Hf Hdir]. unfold ldelta. split; simpl.
  - intros Ht. specialize (Hf Ht). 
    assert (Hsub : forall p : Z * path, entry (set_entry d n (Some c) t) p.1 p.2 = Some i ->
              entry t p.1 p.2 = Some i \/ (i = c /\ p = (d, n))).
    { intros [d' n']. simpl. rewrite entry_set by done. case_decide as Hdn; [|by left]. intros [= ->].
      right. destruct Hdn as [-> ->]. done. }
    destruct (decide (i = c)) as [->|Hi].
    + rewrite (decide_False (P := t_kind t !! c = Some Dir)) by done.
      eapply at_most_mono; [by eapply (at_most_add _ _ (d, n))|case_decide; lia|].
      intros p [Hp|[_ Hp]]%Hsub; [by left|by right].
    + eapply at_most_mono; [done|case_decide; lia|]. intros p [Hp|[? _]]%Hsub; done.
  - intros Ht. destruct (Hdir Ht) as [H1 H2].
    assert (Hsub : forall n', subdir (set_entry d n (Some c) t) i n' ->
              subdir t i n' \/ (i = d /\ t_kind t !! c = Some Dir /\ n' = n)).
    { intros n' (x & Hx & Hkx). simpl in Hkx. rewrite entry_set in Hx by done. case_decide as Hdn; [|left; by exists x].
      destruct Hdn as [-> ->]. simplify_eq. by right. }
    assert (Hadd : forall k, at_most k (subdir t i) ->
              at_most (k + (if decide (i = d /\ t_kind t !! c = Some Dir) then 1 else 0)) (subdir (set_entry d n (Some c) t) i)).
    { intros k' Hk'. case_decide as Hcase.
      - eapply at_most_mono; [by eapply (at_most_add _ _ n)|lia|]. intros n' [?|(_ & _ & ?)]%Hsub; [by left|by right].
      - eapply at_most_mono; [done|lia|]. intros n' [?|(? & ? & _)]%Hsub; [done|]. tauto. }
    assert (Hlink : linked (set_entry d n (Some c) t) i -> i = c \/ linked t i).
    { intros (d' & n' & He). rewrite entry_set in He by done. case_decide; [left; congruence|right; by do 2 eexists]. }
    split; [eapply at_most_mono; [by apply Hadd|repeat case_decide; lia|done]|].
    intros Hl. destruct (decide (i = c)) as [->|Hi].
    + rewrite (decide_True (P := t_kind t !! c = Some Dir)) by done.
      eapply at_most_mono; [by apply Hadd|lia|done].
    + eapply at_most_mono; [apply Hadd, H2|lia|done]. destruct Hl as [->|Hl]; [by left|].
      apply Hlink in Hl as [?|Hl]; [done|by right].
Qed.

Lemma link_ok_set_none t d n c i k :
  is_Some (t_dirs t !! d) -> t_kind t !! d = Some Dir -> entry t d n = Some c -> c <> ROOT_INO ->
  (t_kind t !! c = Some Dir -> unlinked (set_entry d n None t) c) ->
  link_ok t i k -> link_ok (set_entry d n None t) i (k - ldelta t d c i).
Proof.
  intros Hd Hdk He Hroot Hc [Hf Hdir]. unfold ldelta.
  assert (Hsub : forall d' n' x, entry (set_entry d n None t) d' n' = Some x -> entry t d' n' = Some x /\ ~ (d' = d /\ n' = n)).
  { intros d' n' x. rewrite entry_set by done. by case_decide. }
  split; simpl.
  - intros Ht. specialize (Hf Ht). rewrite (decide_False (P := i = d /\ _)) by (intros [-> _]; done).
    destruct (decide (i = c)) as [->|Hi].
    + rewrite decide_False by done. eapply at_most_mono; [by eapply (at_most_remove _ _ (d, n))|lia|].
      intros [d' n'] [? Hne]%Hsub. split; [done|]. intros [= -> ->]. tauto.
    + eapply at_most_mono; [done|lia|]. by intros p [? _]%Hsub.
  - intros Ht. destruct (Hdir Ht) as [H1 H2].
    assert (Hrem : forall k, at_most k (subdir t i) ->
              at_most (k - (if decide (i = d /\ t_kind t !! c = Some Dir) then 1 else 0)) (subdir (set_entry d n None t) i)).
    { intros k' Hk'. case_decide as Hcase.
      - destruct Hcase as [-> Hkc]. eapply at_most_mono; [eapply (at_most_remove _ _ n); [done|by exists c]|lia|].
        intros n' (x & [Hx Hne]%Hsub & Hkx). split; [by exists x|]. intros ->. tauto.
      - eapply at_most_mono; [done|lia|]. intros n' (x & [Hx _]%Hsub & Hkx). by exists x. }
    destruct (decide (i = c)) as [->|Hi].
    + rewrite (decide_True (P := t_kind t !! c = Some Dir)) by done.
      assert (Hk2 : at_most (k - 2) (subdir t c)) by (apply H2; right; by do 2 eexists).
      split; [eapply at_most_mono; [by apply Hrem|lia|done]|]. intros [?|(d' & n' & He')]; [done|].
      by destruct (Hc Ht d' n').
    + split; [eapply at_most_mono; [by apply Hrem|lia|done]|]. intros Hl.
      eapply at_most_mono; [apply Hrem, H2|lia|done]. destruct Hl as [->|(d' & n' & He')]; [by left|].
      right. apply Hsub in He' as [? _]. by do 2 eexists.
Qed.

(** * The tree of a file system *)

Definition dir_of (x : Inode_) : option (gmap path Z) := match inner x with IDir d => Some (dir_map d) | _ => None end.
Definition parent_of (x : Inode_) : option Z := match inner x with IDir d => Some (parent d) | _ => None end.

Definition abs (fs : RamFS) : tree :=
  MkTree ((fun x => type_ (metadata x)) <$> inodes fs) (omap dir_of (inodes fs)) (omap parent_of (inodes fs))
    (inode_allocator fs).

(** An inode agrees with its content; [δ] is what its size is short of. *)
Definition node_ok (δ i : Z) (x : Inode_) : Prop :=
  ino (metadata x) = i /\
  match inner x with
  | IDir d =>
      type_ (metadata x) = Dir /\ dir_ok d /\ this d = i /\
      size (metadata x) + δ = 2 + Z.of_nat (length (sv_iter (children d)))
  | IFile => type_ (metadata x) = File
  | ISymLink _ => type_ (metadata x) = SymLink
  | IDevice _ => type_ (metadata x) <> Dir /\ type_ (metadata x) <> SymLink
  | ISocket => type_ (metadata x) = Socket
  end.

(** The state in the middle of an operation: [ds i] and [dl i] are what the
    size and the link count of the inode [i] are short of. *)
Definition ram_st (ds dl : Z -> Z) (fs : RamFS) : Prop :=
  forall i x, inodes fs !! i = Some x -> node_ok (ds i) i x /\ link_ok (abs fs) i (nlinks (metadata x) + dl i).

Definition bump (i δ : Z) (f : Z -> Z) : Z -> Z := fun j => if decide (j = i) then f j + δ else f j.

Record ram_inv (fs : RamFS) : Prop := {
  inv_tree : tree_wf (abs fs);
  inv_nodes : ram_st (fun _ => 0) (fun _ => 0) fs;
}.

Lemma abs_kind fs i : t_kind (abs fs) !! i = (fun x => type_ (metadata x)) <$> inodes fs !! i.
Proof. apply lookup_fmap. Qed.

Lemma abs_node fs i ty : t_kind (abs fs) !! i = Some ty -> exists x, inodes fs !! i = Some x /\ type_ (metadata x) = ty.
Proof. rewrite abs_kind. destruct (inodes fs !! i); [|done]. intros [= <-]. eauto. Qed.

Lemma abs_dir ds dl fs i x d :
  ram_st ds dl fs -> inodes fs !! i = Some x -> inner x = IDir d -> t_kind (abs fs) !! i = Some Dir /\
  t_dirs (abs fs) !! i = Some (dir_map d) /\ t_parent (abs fs) !! i = Some (parent d) /\ dir_ok d.
Proof.
  intros Hst Hx Hd. destruct (Hst i x Hx) as [[_ Hn] _]. rewrite Hd in Hn. destruct Hn as (Ht & Hok & _).
  rewrite abs_kind. simpl. rewrite !lookup_omap, Hx. simpl. unfold dir_of, parent_of. rewrite Hd, Ht. done.
Qed.

(** A directory of the tree. *)
Lemma node_dir ds dl fs i :
  ram_st ds dl fs -> t_kind (abs fs) !! i = Some Dir ->
  exists x d, inodes fs !! i = Some x /\ inner x = IDir d /\ type_ (metadata x) = Dir /\ dir_ok d /\
    t_dirs (abs fs) !! i = Some (dir_map d) /\ t_parent (abs fs) !! i = Some (parent d).
Proof.
  intros Hst Hk. destruct (abs_node fs i Dir Hk) as (x & Hx & Ht). exists x.
  destruct (Hst i x Hx) as [[_ Hn] _]. destruct (inner x) as [d| | | |] eqn:Hi; try (exfalso; destruct Hn; congruence);
    try (exfalso; congruence).
  exists d. destruct (abs_dir ds dl fs i x d Hst Hx Hi) as (_ & ? & ? & ?). done.
Qed.

Lemma ram_st_weaken ds dl ds' dl' fs :
  ram_st ds dl fs -> (forall i, ds' i = ds i) -> (forall i, dl i <= dl' i) -> ram_st ds' dl' fs.
Proof.
  intros Hst Hs Hl i x Hx. destruct (Hst i x Hx) as [Hn Hk]. rewrite Hs. split; [done|].
  eapply link_ok_mono; [done|]. specialize (Hl i). lia.
Qed.

(** ** Steps on the metadata *)

Definition put_fs (i : Z) (x : Inode_) (fs : RamFS) : RamFS :=
  MkRamFS (<[i := x]> (inodes fs)) (inode_allocator fs) (files fs).

Lemma abs_put_meta fs i x m :
  inodes fs !! i = Some x -> type_ m = type_ (metadata x) -> abs (put_fs i (set_metadata x m) fs) = abs fs.
Proof.
  intros Hx Ht. unfold abs, put_fs. simpl. f_equal; apply map_eq; intros j.
  - rewrite !lookup_fmap. destruct (decide (j = i)) as [->|]; [|by rewrite lookup_insert_ne].
    rewrite lookup_insert_eq, Hx. simpl. by rewrite Ht.
  - rewrite !lookup_omap. destruct (decide (j = i)) as [->|]; [|by rewrite lookup_insert_ne].
    rewrite lookup_insert_eq, Hx. done.
  - rewrite !lookup_omap. destruct (decide (j = i)) as [->|]; [|by rewrite lookup_insert_ne].
    rewrite lookup_insert_eq, Hx. done.
Qed.

Lemma step_meta ds dl fs i x f m :
  ram_st ds dl fs -> inodes fs !! i = Some x -> f (metadata x) = Ok m ->
  type_ m = type_ (metadata x) -> ino m = ino (metadata x) ->
  upd_metadata i f fs = (Ok tt, put_fs i (set_metadata x m) fs) /\ abs (put_fs i (set_metadata x m) fs) = abs fs /\
  ram_st (bump i (size (metadata x) - size m) ds) (bump i (nlinks (metadata x) - nlinks m) dl) (put_fs i (set_metadata x m) fs).
Proof.
  intros Hst Hx Hf Ht Hi. split; [|split; [by apply abs_put_meta|]].
  { unfold upd_metadata, get_inode, sbind. rewrite Hx. unfold slift. by rewrite Hf. }
  intros j y. simpl. unfold bump. destruct (decide (j = i)) as [->|Hj].
  - rewrite lookup_insert_eq. intros [= <-]. rewrite abs_put_meta by done. destruct (Hst i x Hx) as [[Hino Hn] Hl]. split.
    + split; simpl; [congruence|]. destruct (inner x); rewrite ?Ht; try done. destruct Hn as (? & ? & ? & ?).
      split_and!; try done. lia.
    + simpl. eapply link_ok_mono; [done|lia].
  - rewrite lookup_insert_ne by done. intros Hy. rewrite abs_put_meta by done. by apply Hst.
Qed.

Lemma step_inc_size ds dl fs i :
  ram_st ds dl fs -> t_kind (abs fs) !! i = Some Dir ->
  exists fs', upd_metadata i inc_size fs = (Ok tt, fs') /\ abs fs' = abs fs /\ ram_st (bump i (-1) ds) dl fs'.
Proof.
  intros Hst Hk. destruct (abs_node fs i _ Hk) as (x & Hx & _). eexists.
  destruct (step_meta ds dl fs i x inc_size _ Hst Hx eq_refl eq_refl eq_refl) as (-> & Ha & Hst').
  split; [done|]. split; [done|]. eapply ram_st_weaken; [done|..]; intros j; unfold bump; simpl; case_decide; lia.
Qed.

Lemma step_dec_size ds dl fs i :
  ram_st ds dl fs -> t_kind (abs fs) !! i = Some Dir -> ds i <= 1 ->
  exists fs', upd_metadata i dec_size fs = (Ok tt, fs') /\ abs fs' = abs fs /\ ram_st (bump i 1 ds) dl fs'.
Proof.
  intros Hst Hk Hds. destruct (node_dir ds dl fs i Hst Hk) as (x & d & Hx & Hd & _). eexists.
  assert (Hf : dec_size (metadata x) = Ok (set_size (metadata x) (size (metadata x) - 1) (blocks_of (size (metadata x) - 1)))).
  { destruct (Hst i x Hx) as [[_ Hn] _]. rewrite Hd in Hn. destruct Hn as (_ & _ & _ & Hs). unfold dec_size.
    destruct (Z.ltb_spec 0 (size (metadata x))); [done|lia]. }
  destruct (step_meta ds dl fs i x dec_size _ Hst Hx Hf eq_refl eq_refl) as (-> & Ha & Hst').
  split; [done|]. split; [done|]. eapply ram_st_weaken; [done|..]; intros j; unfold bump; simpl; case_decide; lia.
Qed.

Lemma step_inc_nlinks ds dl fs i ty :
  ram_st ds dl fs -> t_kind (abs fs) !! i = Some ty ->
  exists fs', upd_metadata i inc_nlinks fs = (Ok tt, fs') /\ abs fs' = abs fs /\ ram_st ds (bump i (-1) dl) fs'.
Proof.
  intros Hst Hk. destruct (abs_node fs i _ Hk) as (x & Hx & _). eexists.
  destruct (step_meta ds dl fs i x inc_nlinks _ Hst Hx eq_refl eq_refl eq_refl) as (-> & Ha & Hst').
  split; [done|]. split; [done|]. eapply ram_st_weaken; [done|..]; intros j; unfold bump; simpl; case_decide; lia.
Qed.

Lemma step_dec_nlinks ds dl fs i ty :
  ram_st ds dl fs -> t_kind (abs fs) !! i = Some ty -> dl i < 0 ->
  exists fs', upd_metadata i dec_nlinks fs = (Ok tt, fs') /\ abs fs' = abs fs /\ ram_st ds (bump i 1 dl) fs'.
Proof.
  intros Hst Hk Hdl. destruct (abs_node fs i _ Hk) as (x & Hx & _). eexists.
  assert (Hf : dec_nlinks (metadata x) = Ok (set_nlinks (metadata x) (nlinks (metadata x) - 1))).
  { destruct (Hst i x Hx) as [_ Hl]. apply link_ok_nonneg in Hl. unfold dec_nlinks.
    destruct (Z.ltb_spec 0 (nlinks (metadata x))); [done|lia]. }
  destruct (step_meta ds dl fs i x dec_nlinks _ Hst Hx Hf eq_refl eq_refl) as (-> & Ha & Hst').
  split; [done|]. split; [done|]. eapply ram_st_weaken; [done|..]; intros j; unfold bump; simpl; case_decide; lia.
Qed.

(** ** Steps on the directories *)

(** The directory [d] holds [c] under the name [n] at the index [idx]. *)
Definition has_slot (fs : RamFS) (d : Z) (idx : nat) (n : path) (c : Z) : Prop :=
  exists x de, inodes fs !! d = Some x /\ inner x = IDir de /\ (2 <= idx)%nat /\
    mjoin (slots (children de) !! (idx - 2)%nat) = Some (n, c).

Lemma abs_put_dir g fs i x d d' :
  inodes fs !! i = Some x -> inner x = IDir d -> dir_map d' = g (dir_map d) -> parent d' = parent d ->
  abs (put_fs i (set_inner x (IDir d')) fs) =
  MkTree (t_kind (abs fs)) (alter g i (t_dirs (abs fs))) (t_parent (abs fs)) (t_next (abs fs)).
Proof.
  intros Hx Hd Hm Hp. unfold abs, put_fs. simpl. f_equal; apply map_eq; intros j.
  - rewrite !lookup_fmap. destruct (decide (j = i)) as [->|]; [|by rewrite lookup_insert_ne].
    rewrite lookup_insert_eq, Hx. done.
  - destruct (decide (j = i)) as [->|]; [|rewrite lookup_alter_ne, !lookup_omap, lookup_insert_ne by done; done].
    rewrite lookup_alter_eq, !lookup_omap, lookup_insert_eq, Hx. simpl. unfold dir_of. rewrite Hd. simpl. by rewrite Hm.
  - rewrite !lookup_omap. destruct (decide (j = i)) as [->|]; [|by rewrite lookup_insert_ne].
    rewrite lookup_insert_eq, Hx. unfold parent_of. simpl. by rewrite Hd, Hp.
Qed.

(** A directory operation [f] that turns the entries [d] into [d']. *)
Lemma step_dir ds dl fs i x d f d' t' δ dl' :
  ram_st ds dl fs -> inodes fs !! i = Some x -> inner x = IDir d -> f d = Ok d' -> dir_ok d' -> this d' = this d ->
  abs (put_fs i (set_inner x (IDir d')) fs) = t' ->
  Z.of_nat (length (sv_iter (children d'))) = Z.of_nat (length (sv_iter (children d))) + δ ->
  (forall j k, link_ok (abs fs) j (k + dl j) -> link_ok t' j (k + dl' j)) ->
  upd_direntry i f fs = (Ok tt, put_fs i (set_inner x (IDir d')) fs) /\
  ram_st (bump i δ ds) dl' (put_fs i (set_inner x (IDir d')) fs).
Proof.
  intros Hst Hx Hd Hf Hok Hthis Habs Hlen Hlink. split.
  { unfold upd_direntry, get_inode, sbind. rewrite Hx. unfold as_direntry, slift. rewrite Hd. simpl. by rewrite Hf. }
  intros j y. rewrite Habs. simpl. unfold bump. destruct (decide (j = i)) as [->|Hj].
  - rewrite lookup_insert_eq. intros [= <-]. destruct (Hst i x Hx) as [[Hino Hn] Hl]. rewrite Hd in Hn. split.
    + split; [done|]. simpl. destruct Hn as (? & ? & ? & ?). split_and!; try done; [congruence|lia].
    + by apply Hlink.
  - rewrite lookup_insert_ne by done. intros Hy. destruct (Hst j y Hy) as [Hn Hl]. split; [done|]. by apply Hlink.
Qed.

Lemma entry_dir fs ds dl i x d n :
  ram_st ds dl fs -> inodes fs !! i = Some x -> inner x = IDir d -> entry (abs fs) i n = dir_map d !! n.
Proof. intros Hst Hx Hd. unfold entry. destruct (abs_dir ds dl fs i x d Hst Hx Hd) as (_ & -> & _). done. Qed.

Lemma step_append ds dl fs d n c :
  ram_st ds dl fs -> t_kind (abs fs) !! d = Some Dir -> name_ok n -> is_dot n = false -> entry (abs fs) d n = None ->
  (t_kind (abs fs) !! c = Some Dir -> unlinked (abs fs) c /\ c <> ROOT_INO) ->
  exists fs', upd_direntry d (append_entry n c) fs = (Ok tt, fs') /\ abs fs' = set_entry d n (Some c) (abs fs) /\
    ram_st (bump d 1 ds) (fun i => dl i + ldelta (abs fs) d c i) fs'.
Proof.
  intros Hst Hk Hn Hdot Hno Hc. destruct (node_dir ds dl fs d Hst Hk) as (x & de & Hx & Hd & _ & Hok & Hdirs & _).
  rewrite (entry_dir fs ds dl d x de n Hst Hx Hd) in Hno.
  destruct (append_entry_ok de n c Hok Hn Hdot Hno) as (de' & Hf & Hok' & Hm & Hlen & Hthis & Hpar).
  eexists. pose proof (abs_put_dir (partial_alter (fun _ => Some c) n) fs d x de de' Hx Hd Hm Hpar) as Habs.
  destruct (step_dir ds dl fs d x de _ de' _ 1 (fun i => dl i + ldelta (abs fs) d c i) Hst Hx Hd Hf Hok' Hthis Habs) as [-> Hst'];
    [lia| |done].
  intros j k Hl. rewrite Z.add_assoc. apply link_ok_set_some; [by rewrite Hdirs| |done|done].
  by rewrite (entry_dir fs ds dl d x de n Hst Hx Hd).
Qed.

Lemma has_slot_other fs d idx n c i x de x' :
  has_slot fs d idx n c -> inodes fs !! i = Some x -> inner x = IDir de ->
  (d = i -> exists de', inner x' = IDir de' /\
     (mjoin (slots (children de) !! (idx - 2)%nat) = Some (n, c) -> mjoin (slots (children de') !! (idx - 2)%nat) = Some (n, c))) ->
  has_slot (put_fs i x' fs) d idx n c.
Proof.
  intros (y & dy & Hy & Hdy & Hidx & Hs) Hx Hde Hi. unfold has_slot. simpl. destruct (decide (d = i)) as [->|Hd].
  - destruct (Hi eq_refl) as (de' & Hde' & Himp). simplify_eq. rewrite Hdy in Hde. injection Hde as ->.
    exists x', de'. rewrite lookup_insert_eq. auto.
  - exists y, dy. by rewrite lookup_insert_ne.
Qed.

Lemma step_remove ds dl fs d idx n c :
  ram_st ds dl fs -> has_slot fs d idx n c -> c <> ROOT_INO ->
  (t_kind (abs fs) !! c = Some Dir -> unlinked (set_entry d n None (abs fs)) c) ->
  exists fs', upd_direntry d (remove_entry idx) fs = (Ok tt, fs') /\ abs fs' = set_entry d n None (abs fs) /\
    ram_st (bump d (-1) ds) (fun i => dl i - ldelta (abs fs) d c i) fs' /\
    (forall d' idx' n' c', has_slot fs d' idx' n' c' -> ~ (d' = d /\ idx' = idx) -> has_slot fs' d' idx' n' c').
Proof.
  intros Hst (x & de & Hx & Hd & Hidx & Hs) Hroot Hc. destruct (abs_dir ds dl fs d x de Hst Hx Hd) as (Hk & Hdirs & _ & Hok).
  destruct (remove_entry_ok de idx n c Hok Hidx Hs) as (de' & Hf & Hok' & Hm & Hlen & Hthis & Hpar & Hslots).
  eexists. pose proof (abs_put_dir (partial_alter (fun _ => None) n) fs d x de de' Hx Hd Hm Hpar) as Habs.
  destruct (step_dir ds dl fs d x de _ de' _ (-1) (fun i => dl i - ldelta (abs fs) d c i) Hst Hx Hd Hf Hok' Hthis Habs) as [-> Hst'].
  - lia.
  - intros j k Hl. rewrite Z.add_sub_assoc. apply link_ok_set_none; [by rewrite Hdirs|done| |done|done|done].
    rewrite (entry_dir fs ds dl d x de n Hst Hx Hd). apply dir_map_elem; [done|]. apply elem_of_iter. eauto.
  - do 3 (split; [done|]). intros d' idx' n' c' Hslot Hne. pose proof Hslot as (_ & _ & _ & _ & Hidx' & _).
    eapply has_slot_other; [done..|]. intros ->. exists de'. split; [done|]. rewrite Hslots. case_decide as Hcase; [|done].
    destruct Hne. split; [done|lia].
Qed.

Lemma step_substitute ds dl fs d idx n c n' :
  ram_st ds dl fs -> has_slot fs d idx n c -> name_ok n' -> is_dot n' = false -> entry (abs fs) d n' = None ->
  c <> ROOT_INO -> (t_kind (abs fs) !! c = Some Dir -> unlinked (set_entry d n None (abs fs)) c) ->
  exists fs', upd_direntry d (substitute_entry idx (cstr256_from n', c)) fs = (Ok tt, fs') /\
    abs fs' = set_entry d n' (Some c) (set_entry d n None (abs fs)) /\ ram_st ds dl fs'.
Proof.
  intros Hst (x & de & Hx & Hd & Hidx & Hs) Hn' Hdot Hno Hroot Hc.
  destruct (abs_dir ds dl fs d x de Hst Hx Hd) as (Hk & Hdirs & _ & Hok).
  pose proof Hno as Hno'. rewrite (entry_dir fs ds dl d x de n' Hst Hx Hd) in Hno'.
  destruct (substitute_entry_ok de idx n c n' Hok Hidx Hs Hn' Hdot Hno') as (de' & Hf & Hok' & Hm & Hlen & Hthis & Hpar).
  eexists. set (x' := set_inner x (IDir de')).
  assert (Habs : abs (put_fs d x' fs) = set_entry d n' (Some c) (set_entry d n None (abs fs))).
  { subst x'. rewrite (abs_put_dir (partial_alter (fun _ => Some c) n' ∘ partial_alter (fun _ => None) n) fs d x de de') by done.
    unfold set_entry. simpl. by rewrite alter_alter_eq. }
  destruct (step_dir ds dl fs d x de _ de' _ 0 dl Hst Hx Hd Hf Hok' Hthis Habs) as [-> Hst'].
  - lia.
  - intros j k Hl. assert (He : entry (abs fs) d n = Some c).
    { rewrite (entry_dir fs ds dl d x de n Hst Hx Hd). apply dir_map_elem; [done|]. apply elem_of_iter. eauto. }
    apply (link_ok_set_none _ d n c) in Hl; [|by rewrite Hdirs|done|done|done|done].
    apply (link_ok_set_some _ d n' c) in Hl; [|by apply dirs_set; rewrite Hdirs| |intros Hkc; split; [by apply Hc|done]].
    + eapply link_ok_mono; [done|]. change (ldelta (set_entry d n None (abs fs))) with (ldelta (abs fs)). lia.
    + rewrite entry_set by (by rewrite Hdirs). by case_decide.
  - split; [done|]. split; [done|]. eapply ram_st_weaken; [done|..]; intros j; unfold bump; [case_decide; lia|lia].
Qed.

Lemma step_set_parent ds dl fs c p :
  ram_st ds dl fs -> t_kind (abs fs) !! c = Some Dir ->
  exists fs', upd_direntry c (set_parent p) fs = (Ok tt, fs') /\ abs fs' = set_tparent c p (abs fs) /\ ram_st ds dl fs'.
Proof.
  intros Hst Hk. destruct (node_dir ds dl fs c Hst Hk) as (x & de & Hx & Hd & _ & Hok & _).
  assert (Habs : abs (put_fs c (set_inner x (IDir (MkDirEntry (children de) (this de) p))) fs) = set_tparent c p (abs fs)).
  { unfold abs, put_fs, set_tparent. simpl. f_equal; apply map_eq; intros j.
    - rewrite !lookup_fmap. destruct (decide (j = c)) as [->|]; [|by rewrite lookup_insert_ne]. by rewrite lookup_insert_eq, Hx.
    - rewrite !lookup_omap. destruct (decide (j = c)) as [->|]; [|by rewrite lookup_insert_ne].
      rewrite lookup_insert_eq, Hx. unfold dir_of. simpl. by rewrite Hd.
    - destruct (decide (j = c)) as [->|]; [by rewrite lookup_omap, !lookup_insert_eq|].
      by rewrite lookup_insert_ne, !lookup_omap, lookup_insert_ne. }
  eexists. destruct (step_dir ds dl fs c x de (set_parent p) _ (set_tparent c p (abs fs)) 0 dl Hst Hx Hd eq_refl)
    as [-> Hst']; [by destruct Hok; split|done|done|simpl; lia|done|].
  split; [done|]. split; [done|]. eapply ram_st_weaken; [done|..]; intros j; unfold bump; [case_decide; lia|lia].
Qed.

(** ** New inodes *)

(** What [new_inode] is called with. *)
Definition fresh_inner (id p : Z) (i : Inner) : Prop :=
  match i with
  | IDir d => d = MkDirEntry sv_new id p
  | IDevice d => device_type d <> Dir /\ device_type d <> SymLink
  | ISymLink l => l = []
  | _ => True
  end.

Lemma metadata_new_type id ty m r : type_ (metadata_new id ty m r) = ty /\ ino (metadata_new id ty m r) = id.
Proof. by destruct ty. Qed.

Lemma link_ok_add ty p t i k :
  tree_wf t -> is_Some (t_kind t !! i) -> link_ok t i k -> link_ok (add_node ty p t) i k.
Proof.
  intros Hwf Hi. pose proof (next_fresh t Hwf) as Hfresh.
  assert (Hkind : forall c, is_Some (t_kind t !! c) -> t_kind (add_node ty p t) !! c = t_kind t !! c).
  { intros c. by apply kind_add. }
  assert (Hsub : forall n, subdir (add_node ty p t) i n -> subdir t i n).
  { intros n (c & He & Hc). rewrite entry_add in He by done. exists c. split; [done|].
    by rewrite Hkind in Hc by (by eapply entry_kind). }
  unfold link_ok. rewrite Hkind by done. intros [Hf Hd]. split.
  - intros Ht. eapply at_most_mono; [by apply Hf|done|]. intros q. by rewrite entry_add.
  - intros Ht. destruct (Hd Ht) as [H1 H2]. split; [by eapply at_most_mono|]. intros Hl.
    eapply at_most_mono; [apply H2|done|done]. destruct Hl as [->|(d & n & He)]; [by left|]. right. exists d, n.
    by rewrite entry_add in He.
Qed.

Lemma link_ok_fresh ty p t : tree_wf t -> link_ok (add_node ty p t) (t_next t) 0.
Proof.
  intros Hwf. split.
  - intros _ l _ Hl. destruct l as [|q l]; [done|]. inversion Hl as [|? ? He]; subst. rewrite entry_add in He by done.
    by apply next_unlinked in He.
  - assert (Hnone : forall k, 0 <= k -> at_most k (subdir (add_node ty p t) (t_next t))).
    { intros k Hk l _ Hl. destruct l as [|n l]; [done|]. inversion Hl as [|? ? (c & He & _)]; subst.
      rewrite entry_add in He by done. unfold entry in He. by rewrite next_no_dir in He. }
    intros _. split; [by apply Hnone|]. intros [Hr|(d & n & He)].
    + pose proof (next_fresh t Hwf) as Hf. rewrite Hr, (wf_root t Hwf) in Hf. done.
    + rewrite entry_add in He by done. by apply next_unlinked in He.
Qed.

Lemma step_new ds dl fs mode mk p :
  let id := t_next (abs fs) in
  let x := inode_new id mode (mk id) in
  tree_wf (abs fs) -> ram_st ds dl fs -> ds id = 0 -> dl id = 0 -> fresh_inner id p (mk id) ->
  exists fs', new_inode mode mk fs = (Ok id, fs') /\ abs fs' = add_node (type_ (metadata x)) p (abs fs) /\
    ram_st ds (bump id (- nlinks (metadata x)) dl) fs'.
Proof.
  intros id x Hwf Hst Hds Hdl Hin. set (fs' := MkRamFS (<[id := x]> (inodes fs)) (id + 1) (files fs + 1)).
  exists fs'. split; [done|]. pose proof (next_fresh _ Hwf) as Hfresh.
  rewrite abs_kind in Hfresh. change (t_next (abs fs)) with id in Hfresh.
  destruct (inodes fs !! id) as [|] eqn:Hid; [done|].
  assert (Habs : abs fs' = add_node (type_ (metadata x)) p (abs fs)).
  { assert (Hdir : dir_of x = if decide (type_ (metadata x) = Dir) then Some ∅ else None).
    { unfold x, dir_of, inode_new, fresh_inner in *. destruct (mk id); simpl; try done; [by subst|].
      rewrite decide_False; [done|]. rewrite (proj1 (metadata_new_type _ _ _ _)). apply Hin. }
    assert (Hpar : parent_of x = if decide (type_ (metadata x) = Dir) then Some p else None).
    { unfold x, parent_of, inode_new, fresh_inner in *. destruct (mk id); simpl; try done; [by subst|].
      rewrite decide_False; [done|]. rewrite (proj1 (metadata_new_type _ _ _ _)). apply Hin. }
    clearbody x. unfold abs at 1, add_node. simpl. change (inode_allocator fs) with id. f_equal.
    - by rewrite fmap_insert.
    - apply map_eq. intros j. rewrite lookup_omap. destruct (decide (j = id)) as [->|Hj].
      + rewrite lookup_insert_eq. simpl. rewrite Hdir. case_decide; [by rewrite lookup_insert_eq|]. by rewrite lookup_omap, Hid.
      + rewrite lookup_insert_ne by done. case_decide; [rewrite lookup_insert_ne by done|]; by rewrite lookup_omap.
    - apply map_eq. intros j. rewrite lookup_omap. destruct (decide (j = id)) as [->|Hj].
      + rewrite lookup_insert_eq. simpl. rewrite Hpar. case_decide; [by rewrite lookup_insert_eq|]. by rewrite lookup_omap, Hid.
      + rewrite lookup_insert_ne by done. case_decide; [rewrite lookup_insert_ne by done|]; by rewrite lookup_omap. }
  split; [done|]. intros j y Hy. rewrite Habs. simpl in Hy.
  unfold bump. destruct (decide (j = id)) as [->|Hj].
  - rewrite lookup_insert_eq in Hy. injection Hy as <-. rewrite Hds, Hdl. split.
    + unfold node_ok, x, inode_new, fresh_inner in *. destruct (mk id) as [| | |d|]; subst; cbn -[metadata_new]; try done.
      * split_and!; try done. split; [done|constructor|constructor].
      * destruct (metadata_new_type (inode_allocator fs) (device_type d) mode (device_id d)) as [-> ->]. done.
    + replace (nlinks (metadata x) + (0 + - nlinks (metadata x))) with 0 by lia.
      by apply link_ok_fresh.
  - rewrite lookup_insert_ne in Hy by done. destruct (Hst j y Hy) as [Hn Hl]. split; [done|].
    apply link_ok_add; [done| |done]. rewrite abs_kind, Hy. done.
Qed.
