(* ===== verification/RamFsSpec.v ===== *)
(** Every directory operation of the in-memory file system simulates the
    operation of the directory tree, errors included. *)

From S2P Require Import Prelude Perms SlotVec PathLookup RamFs FsTree RamFsFacts.

(** The operation [m] keeps the invariant and does to the tree what [spec] says. *)
Definition simulates {A} (m : ramM A) (spec : treeM A) (fs : RamFS) : Prop :=
  ram_inv (m fs).2 /\ spec (abs fs) = ((m fs).1, abs (m fs).2).

Lemma sim_same {A} (m : ramM A) spec fs r :
  ram_inv fs -> m fs = (r, fs) -> spec (abs fs) = (r, abs fs) -> simulates m spec fs.
Proof. intros Hinv Hm Hs. unfold simulates. by rewrite Hm. Qed.

Lemma sim_done {A} (p : outcome Errno A * RamFS) q r fs' ds dl :
  p = (r, fs') -> q = (r, abs fs') -> tree_wf (abs fs') -> ram_st ds dl fs' ->
  (forall i, ds i = 0) -> (forall i, dl i <= 0) -> ram_inv p.2 /\ q = (p.1, abs p.2).
Proof.
  intros -> -> Hwf Hst Hds Hdl. split; [|done]. split; [done|].
  eapply ram_st_weaken; [done|done|done].
Qed.

(** * Running the operations *)

Lemma run_type {A} fs i (k : InodeType -> ramM A) :
  sbind (inode_type i) k fs = match t_kind (abs fs) !! i with Some ty => k ty fs | None => (Panic, fs) end.
Proof.
  rewrite abs_kind. unfold inode_type, get_inode, sbind, sret. by destruct (inodes fs !! i).
Qed.

Lemma run_inode {A} fs i (k : Inode_ -> ramM A) :
  sbind (get_inode i) k fs = match inodes fs !! i with Some x => k x fs | None => (Panic, fs) end.
Proof. unfold get_inode, sbind. by destruct (inodes fs !! i). Qed.

Lemma run_direntry ds dl fs i :
  ram_st ds dl fs -> t_kind (abs fs) !! i = Some Dir ->
  exists x de, inodes fs !! i = Some x /\ inner x = IDir de /\ dir_ok de /\ direntry i fs = (Ok de, fs) /\
    t_dirs (abs fs) !! i = Some (dir_map de) /\ (forall n, entry (abs fs) i n = dir_map de !! n).
Proof.
  intros Hst Hk. destruct (node_dir ds dl fs i Hst Hk) as (x & de & Hx & Hd & _ & Hok & Hdirs & _). exists x, de.
  split_and!; try done.
  - unfold direntry. rewrite run_inode, Hx. unfold as_direntry. by rewrite Hd.
  - intros n. by eapply entry_dir.
Qed.

Lemma run_entry {A} de n (k : nat * Z -> ramM A) fs :
  dir_ok de -> is_dot n = false ->
  match dir_map de !! n with
  | Some c => exists idx, (2 <= idx)%nat /\ mjoin (slots (children de) !! (idx - 2)%nat) = Some (n, c) /\
                sbind (the_entry de n) k fs = k (idx, c) fs
  | None => sbind (the_entry de n) k fs = (Err ENOENT, fs)
  end.
Proof.
  intros Hok Hn. pose proof (get_entry_spec de n fs Hok Hn) as [Hg Hfs]. unfold the_entry, sbind.
  destruct (get_entry de n fs) as [[[[idx c]|]| |] fs']; simpl in Hfs, Hg; subst fs'; [| |done|done].
  - destruct Hg as (? & ? & ->). eauto.
  - by rewrite Hg.
Qed.

Lemma ldelta_dir t d c i : t_kind t !! c = Some Dir ->
  ldelta t d c i = (if decide (i = c) then 2 else 0) + (if decide (i = d) then 1 else 0).
Proof. intros Hc. unfold ldelta. rewrite (decide_True (P := t_kind t !! c = Some Dir)) by done. repeat case_decide; tauto || lia. Qed.

Lemma ldelta_file t d c i : t_kind t !! c <> Some Dir -> ldelta t d c i = if decide (i = c) then 1 else 0.
Proof. intros Hc. unfold ldelta. repeat case_decide; tauto || lia. Qed.

Lemma is_dot_inv n : is_dot n = false -> bool_decide (n = DOT) = false /\ bool_decide (n = DOTDOT) = false.
Proof. unfold is_dot. by intros [-> ->]%orb_false_iff. Qed.

(** * Creation *)

Section Create.
Context (fs : RamFS) (Hinv : ram_inv fs) (d : Z) (n : path).
Hypothesis (Hd : t_kind (abs fs) !! d = Some Dir) (Hn : name_ok n) (Hdot : is_dot n = false)
  (Hno : entry (abs fs) d n = None).

Notation id := (t_next (abs fs)).

Lemma make_tail fs1 ty dl :
  abs fs1 = add_node ty d (abs fs) -> ram_st (fun _ => 0) dl fs1 ->
  (forall i, dl i + ldelta (add_node ty d (abs fs)) d id i <= 0) ->
  exists fs', (upd_direntry d (append_entry n id) ;! upd_metadata d inc_size ;! sret id) fs1 = (Ok id, fs') /\
    abs fs' = set_entry d n (Some id) (add_node ty d (abs fs)) /\ ram_inv fs'.
Proof using Hinv Hd Hn Hdot Hno.
  intros Habs Hst Hdl. pose proof (inv_tree fs Hinv) as Hwf. pose proof (next_fresh _ Hwf) as Hfresh.
  pose proof (add_node_wf ty d _ Hwf Hd) as Hwf1. pose proof (wf_root _ Hwf) as Hroot.
  assert (Hid : id <> ROOT_INO) by (intros Hid; rewrite Hid, Hroot in Hfresh; done).
  assert (Hun : unlinked (add_node ty d (abs fs)) id) by (intros d' n'; rewrite entry_add by done; by apply next_unlinked).
  assert (Hd1 : t_kind (abs fs1) !! d = Some Dir).
  { rewrite Habs, kind_add; [done|done|eauto]. }
  destruct (step_append _ _ fs1 d n id Hst Hd1 Hn Hdot) as (fs2 & H2 & Ha2 & Hst2);
    [rewrite Habs; by rewrite entry_add|rewrite Habs; by intros _|].
  destruct (step_inc_size _ _ fs2 d Hst2) as (fs3 & H3 & Ha3 & Hst3); [by rewrite Ha2|].
  exists fs3. erewrite sbind_ok by exact H2. erewrite sbind_ok by exact H3. split; [done|].
  assert (Habs3 : abs fs3 = set_entry d n (Some id) (add_node ty d (abs fs))) by congruence.
  split; [done|]. split.
  - rewrite Habs3. rewrite <- Habs in *. apply set_some_wf; try done; rewrite Habs; simpl; [rewrite lookup_insert_eq; eauto|].
    rewrite lookup_insert_eq. intros [= ->]. split; [by rewrite <- Habs|]. rewrite decide_True by done. apply lookup_insert_eq.
  - eapply ram_st_weaken; [done|..]; intros i; [unfold bump; case_decide; lia|]. simpl. rewrite Habs. apply Hdl.
Qed.

(** A new inode that is not a directory. *)
Lemma make_file mode mk :
  fresh_inner id d (mk id) -> type_ (metadata (inode_new id mode (mk id))) <> Dir ->
  exists fs', (let! i := new_inode mode mk in
               upd_direntry d (append_entry n i) ;! upd_metadata d inc_size ;! sret i) fs = (Ok id, fs') /\
    abs fs' = set_entry d n (Some id) (add_node (type_ (metadata (inode_new id mode (mk id)))) d (abs fs)) /\ ram_inv fs'.
Proof using Hinv Hd Hn Hdot Hno.
  intros Hin Hty. destruct (step_new _ _ fs mode mk d (inv_tree fs Hinv) (inv_nodes fs Hinv) eq_refl eq_refl Hin)
    as (fs1 & H1 & Ha1 & Hst1). erewrite sbind_ok by exact H1. apply (make_tail _ _ _ Ha1 Hst1). intros i.
  rewrite ldelta_file by (rewrite kind_add_new; congruence). unfold bump.
  assert (nlinks (metadata (inode_new id mode (mk id))) = 1).
  { revert Hty. unfold inode_new. destruct (mk id); simpl; try done. by destruct (device_type _). }
  repeat case_decide; lia.
Qed.

Lemma make_dir mode :
  exists fs', (let! i := (let! dir_inode := new_dir mode d in upd_metadata d inc_nlinks ;! sret dir_inode) in
               upd_direntry d (append_entry n i) ;! upd_metadata d inc_size ;! sret i) fs = (Ok id, fs') /\
    abs fs' = set_entry d n (Some id) (add_node Dir d (abs fs)) /\ ram_inv fs'.
Proof using Hinv Hd Hn Hdot Hno.
  destruct (step_new _ _ fs mode (fun id => IDir (MkDirEntry sv_new id d)) d (inv_tree fs Hinv) (inv_nodes fs Hinv) eq_refl eq_refl eq_refl)
    as (fs1 & H1 & Ha1 & Hst1).
  assert (Hd1 : t_kind (abs fs1) !! d = Some Dir) by (rewrite Ha1, kind_add; [done|apply Hinv|eauto]).
  destruct (step_inc_nlinks _ _ fs1 d Dir Hst1 Hd1) as (fs2 & H2 & Ha2 & Hst2).
  destruct (make_tail fs2 Dir _ ltac:(by rewrite Ha2, Ha1) Hst2) as (fs3 & H3 & Ha3 & Hinv3).
  - intros i. rewrite ldelta_dir by apply kind_add_new. unfold bump. cbn [nlinks metadata inode_new metadata_new]. repeat case_decide; lia.
  - exists fs3. split; [|done]. unfold sbind at 1. unfold new_dir. erewrite sbind_ok by exact H1.
    erewrite sbind_ok by exact H2. exact H3.
Qed.

End Create.

(** The checks that all operations on a directory begin with. *)
Lemma sim_dir {A} d (k : ramM A) spec fs :
  ram_inv fs ->
  (t_kind (abs fs) !! d = Some Dir -> simulates k spec fs) ->
  simulates (let! ty := inode_type d in if negb (bool_decide (ty = Dir)) then serr ENOTDIR else k) (in_dir d spec) fs.
Proof.
  intros Hinv Hk. unfold simulates, in_dir. rewrite run_type. destruct (t_kind (abs fs) !! d) as [ty|] eqn:Hty; [|done].
  destruct (decide (ty = Dir)) as [->|Hne].
  - rewrite bool_decide_eq_true_2 by done. simpl. by apply Hk.
  - rewrite bool_decide_eq_false_2 by done. simpl. by destruct ty.
Qed.

(** The type of an inode that exists. *)
Lemma sim_kind {A} i (k : InodeType -> ramM A) spec fs :
  ram_inv fs -> (forall ty, t_kind (abs fs) !! i = Some ty -> simulates (k ty) (fun t => spec ty t) fs) ->
  simulates (let! ty := inode_type i in k ty) (fun t => kind_of i t (fun ty => spec ty t)) fs.
Proof.
  intros Hinv Hk. unfold simulates, kind_of. rewrite run_type. destruct (t_kind (abs fs) !! i) as [ty|] eqn:Hty; [|done].
  by apply Hk.
Qed.

(** The checks of [mknod] and [create] before the inode is made. *)
Lemma sim_fresh_name fs d n (k : ramM Z) ty :
  ram_inv fs -> utf8_valid n = true -> 0 ∉ n ->
  (t_kind (abs fs) !! d = Some Dir -> name_ok n -> is_dot n = false -> entry (abs fs) d n = None ->
   exists fs', k fs = (Ok (t_next (abs fs)), fs') /\
     abs fs' = set_entry d n (Some (t_next (abs fs))) (add_node ty d (abs fs)) /\ ram_inv fs') ->
  simulates
    (let! ty := inode_type d in
     if negb (bool_decide (ty = Dir)) then serr ENOTDIR
     else if (NAME_MAX <? length n)%nat then serr ENAMETOOLONG
     else let! de := direntry d in
          let! exists_ := slift (contains_entry de n) in
          if exists_ : bool then serr EEXIST else k) (tree_make d n ty) fs.
Proof.
  intros Hinv Hu H0 Hk. apply sim_dir; [done|]. intros Hd.
  destruct (Nat.ltb_spec 255 (length n)) as [Hlen|Hlen]; [by eapply sim_same|].
  destruct (run_direntry _ _ fs d (inv_nodes fs Hinv) Hd) as (x & de & Hx & Hde & Hok & Hrun & _ & Hent).
  unfold simulates. erewrite sbind_ok by exact Hrun.
  destruct (is_dot n) eqn:Hdot; [unfold contains_entry; rewrite Hdot; by eapply sim_same|].
  rewrite (contains_entry_spec de n Hok Hdot). erewrite slift_ok by reflexivity. rewrite <- Hent.
  destruct (entry (abs fs) d n) as [c|] eqn:He; [by rewrite bool_decide_eq_true_2|].
  rewrite bool_decide_eq_false_2 by (by intros []). destruct (Hk Hd (conj Hu (conj Hlen H0)) eq_refl eq_refl) as (fs' & Hrun' & Ha & Hinv').
  rewrite Hrun'. simpl. by rewrite Ha.
Qed.

Lemma ram_mknod_sim fs d n mode device :
  ram_inv fs -> utf8_valid n = true -> 0 ∉ n -> device_type device <> Dir -> device_type device <> SymLink ->
  simulates (ram_mknod d n mode device) (tree_make d n (device_type device)) fs.
Proof.
  intros Hinv Hu H0 Hdev Hdev2. apply sim_fresh_name; [done..|]. intros Hd Hn Hdot Hno.
  destruct (make_file fs Hinv d n Hd Hn Hdot Hno mode (fun _ => IDevice device)) as (fs' & H & Ha & Hinv'); [done| |].
  - simpl. by rewrite (proj1 (metadata_new_type _ _ _ _)).
  - simpl in Ha. rewrite (proj1 (metadata_new_type _ _ _ _)) in Ha. eauto.
Qed.

Lemma ram_create_sim fs d n ty mode :
  ram_inv fs -> utf8_valid n = true -> 0 ∉ n -> ty ∈ [File; SymLink; Socket; Dir] ->
  simulates (ram_create d n ty mode) (tree_make d n ty) fs.
Proof.
  intros Hinv Hu H0 Hty. apply sim_fresh_name; [done..|]. intros Hd Hn Hdot Hno.
  rewrite !elem_of_cons, elem_of_nil in Hty. destruct Hty as [->|[->|[->|[->|[]]]]].
  - by apply (make_file fs Hinv d n Hd Hn Hdot Hno mode (fun _ => IFile)).
  - by apply (make_file fs Hinv d n Hd Hn Hdot Hno mode (fun _ => ISymLink [])).
  - by apply (make_file fs Hinv d n Hd Hn Hdot Hno mode (fun _ => ISocket)).
  - by apply make_dir.
Qed.

(** * Links *)

Lemma ram_link_sim fs d old n : ram_inv fs -> name_ok n -> simulates (ram_link d old n) (tree_link d old n) fs.
Proof.
  intros Hinv Hn. apply sim_dir; [done|]. intros Hd. apply (sim_kind old _ (fun ty t => _)); [done|]. intros ty Hty.
  destruct (decide (ty = Dir)) as [->|Hne]; [by eapply sim_same|]. rewrite bool_decide_eq_false_2 by done.
  destruct (run_direntry _ _ fs d (inv_nodes fs Hinv) Hd) as (x & de & Hx & Hde & Hok & Hrun & _ & Hent).
  unfold simulates. erewrite sbind_ok by exact Hrun.
  destruct (is_dot n) eqn:Hdot; [unfold contains_entry; rewrite Hdot; by eapply sim_same|].
  rewrite (contains_entry_spec de n Hok Hdot). erewrite slift_ok by reflexivity. rewrite <- Hent.
  destruct (entry (abs fs) d n) as [c|] eqn:He; [by rewrite bool_decide_eq_true_2|].
  rewrite bool_decide_eq_false_2 by (by intros []). assert (Hf : t_kind (abs fs) !! old <> Some Dir) by congruence.
  destruct (step_append _ _ fs d n old (inv_nodes fs Hinv) Hd Hn Hdot He) as (fs1 & H1 & Ha1 & Hst1); [done|].
  destruct (step_inc_size _ _ fs1 d Hst1) as (fs2 & H2 & Ha2 & Hst2); [by rewrite Ha1|].
  destruct (step_inc_nlinks _ _ fs2 old ty Hst2) as (fs3 & H3 & Ha3 & Hst3); [by rewrite Ha2, Ha1|].
  eapply sim_done; [|by rewrite Ha3, Ha2, Ha1| |exact Hst3|..].
  - erewrite sbind_ok by exact H1. erewrite sbind_ok by exact H2. exact H3.
  - rewrite Ha3, Ha2, Ha1. apply set_some_wf; [apply Hinv|done|done|by rewrite Hty| |done].
    intros ->. rewrite (wf_root _ (inv_tree fs Hinv)) in Hty. congruence.
  - intros i. unfold bump. case_decide; lia.
  - intros i. unfold bump. rewrite ldelta_file by done. repeat case_decide; lia.
Qed.

(** The entry of the name [n], as the operations find it. *)
Lemma run_lookup {A} fs d n (k : DirEntry -> nat * Z -> ramM A) :
  ram_inv fs -> t_kind (abs fs) !! d = Some Dir -> is_dot n = false ->
  match entry (abs fs) d n with
  | Some c => exists idx de, has_slot fs d idx n c /\ dir_ok de /\ (forall n', entry (abs fs) d n' = dir_map de !! n') /\
                (let! de := direntry d in let! e := the_entry de n in k de e) fs = k de (idx, c) fs
  | None => (let! de := direntry d in let! e := the_entry de n in k de e) fs = (Err ENOENT, fs)
  end.
Proof.
  intros Hinv Hd Hdot. destruct (run_direntry _ _ fs d (inv_nodes fs Hinv) Hd) as (x & de & Hx & Hde & Hok & Hrun & _ & Hent).
  erewrite sbind_ok by exact Hrun. rewrite Hent. pose proof (run_entry de n (k de) fs Hok Hdot) as Hr.
  destruct (dir_map de !! n) as [c|]; [|done]. destruct Hr as (idx & Hidx & Hs & Hr). exists idx, de.
  split; [by exists x, de|]. done.
Qed.

(** Removing the entry of [c] from [d] with the size of the directory. *)
Lemma step_unlink fs d n c idx :
  ram_inv fs -> entry (abs fs) d n = Some c -> has_slot fs d idx n c ->
  exists fs', (upd_direntry d (remove_entry idx) ;! upd_metadata d dec_size) fs = (Ok tt, fs') /\
    abs fs' = set_entry d n None (abs fs) /\
    ram_st (fun _ => 0) (fun i => - ldelta (abs fs) d c i) fs'.
Proof.
  intros Hinv He Hslot. pose proof (inv_tree fs Hinv) as Hwf.
  destruct (step_remove _ _ fs d idx n c (inv_nodes fs Hinv) Hslot) as (fs1 & H1 & Ha1 & Hst1 & _);
    [by eapply (wf_entry _ Hwf) in He as (_ & _ & ?)|intros Hk; by apply unlinked_set_none|].
  destruct (step_dec_size _ _ fs1 d Hst1) as (fs2 & H2 & Ha2 & Hst2).
  { rewrite Ha1. by apply (entry_is_dir (abs fs) d n c). }
  { unfold bump. case_decide; lia. }
  exists fs2. erewrite sbind_ok by exact H1. split; [exact H2|]. split; [congruence|].
  eapply ram_st_weaken; [done|..]; intros i; unfold bump; [case_decide; lia|lia].
Qed.

Lemma ram_unlink_sim fs d n : ram_inv fs -> simulates (ram_unlink d n) (tree_unlink d n) fs.
Proof.
  intros Hinv. apply sim_dir; [done|]. intros Hd. destruct (is_dot n) eqn:Hdot; [by eapply sim_same|].
  pose proof (run_lookup fs d n (fun de e => let! target_ty := inode_type e.2 in
    if bool_decide (target_ty = Dir) then serr EISDIR
    else upd_direntry d (remove_entry e.1) ;! upd_metadata d dec_size ;! upd_metadata e.2 dec_nlinks) Hinv Hd Hdot) as Hrun.
  unfold simulates. destruct (entry (abs fs) d n) as [c|] eqn:He; [|by rewrite Hrun].
  destruct Hrun as (idx & de & Hslot & _ & _ & Hrun). rewrite Hrun. clear Hrun. cbn [fst snd]. rewrite run_type.
  destruct (entry_kind _ _ _ _ (inv_tree fs Hinv) He) as [ty Hty]. unfold kind_of. rewrite Hty.
  destruct (decide (ty = Dir)) as [->|Hne]; [done|]. rewrite bool_decide_eq_false_2 by done.
  destruct (step_unlink fs d n c idx Hinv He Hslot) as (fs1 & H1 & Ha1 & Hst1).
  destruct (step_dec_nlinks _ _ fs1 c ty Hst1) as (fs2 & H2 & Ha2 & Hst2).
  { by rewrite Ha1. }
  { rewrite ldelta_file by congruence. rewrite decide_True by done. lia. }
  eapply sim_done; [|by rewrite Ha2, Ha1| |exact Hst2|..].
  - apply sbind_inv in H1 as ([] & fs0 & H0 & H1). erewrite sbind_ok by exact H0. erewrite sbind_ok by exact H1. exact H2.
  - rewrite Ha2, Ha1. apply set_none_wf; [apply Hinv|done].
  - done.
  - intros i. unfold bump. rewrite ldelta_file by congruence. repeat case_decide; lia.
Qed.

Lemma is_empty_map de : dir_ok de -> is_empty_children de = bool_decide (dir_map de = ∅).
Proof.
  intros Hok. rewrite (dir_wf de Hok). unfold dir_map.
  destruct (sv_iter (children de)) as [|[n c] es]; simpl; [by rewrite bool_decide_eq_true_2|].
  rewrite bool_decide_eq_false_2; [done|]. apply insert_non_empty.
Qed.

Lemma run_empty fs c :
  ram_inv fs -> t_kind (abs fs) !! c = Some Dir ->
  exists de, direntry c fs = (Ok de, fs) /\ is_empty_children de = is_empty (abs fs) c.
Proof.
  intros Hinv Hc. destruct (run_direntry _ _ fs c (inv_nodes fs Hinv) Hc) as (x & de & _ & _ & Hok & Hrun & Hdirs & _).
  exists de. split; [done|]. unfold is_empty. rewrite Hdirs, is_empty_map by done.
  apply bool_decide_ext. split; [by intros ->|congruence].
Qed.

Lemma ram_rmdir_sim fs d n : ram_inv fs -> simulates (ram_rmdir d n) (tree_rmdir d n) fs.
Proof.
  intros Hinv. apply sim_dir; [done|]. intros Hd.
  destruct (bool_decide (n = DOT)) eqn:Hdot1; [by eapply sim_same|].
  destruct (bool_decide (n = DOTDOT)) eqn:Hdot2; [by eapply sim_same|].
  assert (Hdot : is_dot n = false) by (unfold is_dot; by rewrite Hdot1, Hdot2).
  pose proof (run_lookup fs d n (fun de e => let! target_ty := inode_type e.2 in
    if negb (bool_decide (target_ty = Dir)) then serr ENOTDIR
    else let! target := direntry e.2 in
         if negb (is_empty_children target) then serr ENOTEMPTY
         else upd_direntry d (remove_entry e.1) ;! upd_metadata d dec_size ;! upd_metadata d dec_nlinks ;!
              upd_metadata e.2 dec_nlinks ;! upd_metadata e.2 dec_nlinks) Hinv Hd Hdot) as Hrun.
  unfold simulates. destruct (entry (abs fs) d n) as [c|] eqn:He; [|by rewrite Hrun].
  destruct Hrun as (idx & de & Hslot & _ & _ & Hrun). rewrite Hrun. clear Hrun. cbn [fst snd]. rewrite run_type.
  destruct (entry_kind _ _ _ _ (inv_tree fs Hinv) He) as [ty Hty]. unfold kind_of. rewrite Hty.
  destruct (decide (ty = Dir)) as [->|Hne]; [|by rewrite bool_decide_eq_false_2].
  rewrite bool_decide_eq_true_2 by done. cbn [negb].
  destruct (run_empty fs c Hinv Hty) as (dc & Hdc & Hem). erewrite sbind_ok by exact Hdc. rewrite Hem.
  destruct (is_empty (abs fs) c); cbn [negb]; [|done].
  destruct (step_unlink fs d n c idx Hinv He Hslot) as (fs1 & H1 & Ha1 & Hst1).
  destruct (step_dec_nlinks _ _ fs1 d Dir Hst1) as (fs2 & H2 & Ha2 & Hst2).
  { by rewrite Ha1. }
  { rewrite ldelta_dir by done. repeat case_decide; lia || done. }
  destruct (step_dec_nlinks _ _ fs2 c Dir Hst2) as (fs3 & H3 & Ha3 & Hst3).
  { by rewrite Ha2, Ha1. }
  { unfold bump. rewrite ldelta_dir by done. repeat case_decide; lia || done. }
  destruct (step_dec_nlinks _ _ fs3 c Dir Hst3) as (fs4 & H4 & Ha4 & Hst4).
  { by rewrite Ha3, Ha2, Ha1. }
  { unfold bump. rewrite ldelta_dir by done. repeat case_decide; lia || done. }
  eapply sim_done; [|by rewrite Ha4, Ha3, Ha2, Ha1| |exact Hst4|..].
  - apply sbind_inv in H1 as ([] & fs0 & H0 & H1). erewrite sbind_ok by exact H0. erewrite sbind_ok by exact H1.
    erewrite sbind_ok by exact H2. erewrite sbind_ok by exact H3. exact H4.
  - rewrite Ha4, Ha3, Ha2, Ha1. apply set_none_wf; [apply Hinv|done].
  - done.
  - intros i. unfold bump. rewrite ldelta_dir by done. repeat case_decide; lia.
Qed.

Lemma ram_lookup_sim fs d n : ram_inv fs -> simulates (ram_lookup d n) (tree_lookup d n) fs.
Proof.
  intros Hinv. apply sim_dir; [done|]. intros Hd.
  destruct (run_direntry _ _ fs d (inv_nodes fs Hinv) Hd) as (x & de & Hx & Hde & Hok & Hrun & _ & Hent).
  destruct (abs_dir _ _ fs d x de (inv_nodes fs Hinv) Hx Hde) as (_ & _ & Hpar & _).
  destruct (inv_nodes fs Hinv d x Hx) as [[_ Hn] _]. rewrite Hde in Hn. destruct Hn as (_ & _ & Hthis & _).
  unfold simulates. erewrite sbind_ok by exact Hrun.
  destruct (bool_decide (n = DOT)) eqn:Hdot1.
  { unfold the_entry, get_entry, upgrade_inode, get_inode, sbind. rewrite Hdot1, Hthis, Hx. done. }
  destruct (bool_decide (n = DOTDOT)) eqn:Hdot2.
  { destruct (wf_parent _ (inv_tree fs Hinv) d Hd) as (p & Hp & Hpk). rewrite Hpar in Hp. injection Hp as <-.
    rewrite abs_kind in Hpk. unfold the_entry, get_entry, upgrade_inode, get_inode, sbind. rewrite Hdot1, Hdot2.
    destruct (inodes fs !! parent de); [|done]. simpl in *. by rewrite Hpar. }
  pose proof (run_entry de n (fun e => sret e.2) fs Hok ltac:(unfold is_dot; by rewrite Hdot1, Hdot2)) as Hr.
  rewrite Hent. destruct (dir_map de !! n) as [c|]; [|by rewrite Hr]. by destruct Hr as (idx & _ & _ & ->).
Qed.

(** * Renaming *)

Lemma run_replace fs src dst sty dty :
  ram_inv fs -> t_kind (abs fs) !! src = Some sty -> t_kind (abs fs) !! dst = Some dty ->
  check_replace_inode src dst fs = (tree_replace (abs fs) src dst, fs).
Proof.
  intros Hinv Hs Hd. unfold check_replace_inode, tree_replace. rewrite run_inode.
  destruct (abs_node fs src _ Hs) as (x & Hx & Htx), (abs_node fs dst _ Hd) as (y & Hy & Hty). rewrite Hx, run_inode, Hy.
  destruct (inv_nodes fs Hinv src x Hx) as [[-> _] _]. destruct (inv_nodes fs Hinv dst y Hy) as [[-> _] _].
  destruct (src =? dst); [done|]. rewrite Hs, Hd, Htx, Hty.
  destruct sty; try (by destruct dty). destruct dty; try done.
  destruct (run_empty fs dst Hinv Hd) as (de & Hde & Hem). erewrite sbind_ok by exact Hde. rewrite Hem.
  by destruct (is_empty (abs fs) dst).
Qed.

(** A replacement that is allowed keeps directories and files apart. *)
Lemma replace_kinds t src dst :
  tree_replace t src dst = Ok tt -> src <> dst -> (t_kind t !! src = Some Dir <-> t_kind t !! dst = Some Dir).
Proof.
  unfold tree_replace. intros Hr Hne. destruct (Z.eqb_spec src dst); [done|].
  destruct (t_kind t !! src) as [[]|], (t_kind t !! dst) as [[]|]; done || (split; congruence).
Qed.

Lemma set_entry_absorb t d n n' o o2 o3 :
  n <> n' -> set_entry d n' o (set_entry d n o2 (set_entry d n' o3 t)) = set_entry d n' o (set_entry d n o2 t).
Proof.
  intros Hn. unfold set_entry. simpl. f_equal. rewrite !alter_alter_eq. apply alter_ext. intros m _. simpl.
  apply map_eq. intros k. destruct (decide (k = n')) as [->|Hk]; [by rewrite !lookup_partial_alter_eq|].
  rewrite !(lookup_partial_alter_ne _ _ n') by done. destruct (decide (k = n)) as [->|Hk'];
    [by rewrite !lookup_partial_alter_eq|]. rewrite !(lookup_partial_alter_ne _ _ n) by done.
  by rewrite (lookup_partial_alter_ne _ _ n').
Qed.

Lemma set_entry_twice t d n o o' : set_entry d n o (set_entry d n o' t) = set_entry d n o t.
Proof.
  unfold set_entry. simpl. f_equal. rewrite alter_alter_eq. apply alter_ext. intros m _. simpl.
  apply map_eq. intros k. destruct (decide (k = n)) as [->|Hk]; [by rewrite !lookup_partial_alter_eq|].
  by rewrite !(lookup_partial_alter_ne _ _ n).
Qed.

Lemma step_dec_when (b : bool) ds dl fs i :
  ram_st ds dl fs -> t_kind (abs fs) !! i = Some Dir -> (b = true -> dl i < 0) ->
  exists fs', when b (upd_metadata i dec_nlinks) fs = (Ok tt, fs') /\ abs fs' = abs fs /\
    ram_st ds (if b then bump i 1 dl else dl) fs'.
Proof. intros Hst Hk Hdl. destruct b; [by apply (step_dec_nlinks ds dl fs i Dir); [| |apply Hdl]|by exists fs]. Qed.

Lemma step_parent_when (b : bool) ds dl fs c p :
  ram_st ds dl fs -> (b = true -> t_kind (abs fs) !! c = Some Dir) ->
  exists fs', when b (upd_direntry c (set_parent p)) fs = (Ok tt, fs') /\
    abs fs' = (if b then set_tparent c p (abs fs) else abs fs) /\ ram_st ds dl fs'.
Proof. intros Hst Hk. destruct b; [by apply step_set_parent; [|apply Hk]|by exists fs]. Qed.

Section Rename.
Context (fs : RamFS) (Hinv : ram_inv fs) (d : Z) (n : path) (d' : Z) (n' : path) (src : Z) (sty : InodeType) (idx : nat).
Hypothesis (He : entry (abs fs) d n = Some src) (Hsty : t_kind (abs fs) !! src = Some sty)
  (Hd' : t_kind (abs fs) !! d' = Some Dir) (Hn' : name_ok n') (Hdot' : is_dot n' = false)
  (Hslot : has_slot fs d idx n src).

Notation t := (abs fs).
Notation is_dir := (bool_decide (sty = Dir)).

Let Hwf : tree_wf t := inv_tree fs Hinv.

Lemma src_not_root : src <> ROOT_INO.
Proof using Hinv He. by apply (wf_entry t Hwf) in He as (_ & _ & ?). Qed.

Lemma src_unlinked : t_kind t !! src = Some Dir -> unlinked (set_entry d n None t) src.
Proof using Hinv He. by apply unlinked_set_none. Qed.

Lemma d_is_dir : t_kind t !! d = Some Dir.
Proof using Hinv He. by apply (entry_is_dir t d n src). Qed.

Lemma moved : tree_wf (move d n d' n' src t).
Proof using Hinv He Hd' Hdot'. by apply move_wf. Qed.

(** Within the directory, to a new name *)
Lemma same_plain :
  d = d' -> entry t d n' = None ->
  exists fs', upd_direntry d (substitute_entry idx (cstr256_from n', src)) fs = (Ok tt, fs') /\
    abs fs' = move d n d' n' src t /\ ram_inv fs'.
Proof using All.
  intros Hdd Hno. destruct (step_substitute _ _ fs d idx n src n' (inv_nodes fs Hinv) Hslot Hn' Hdot' Hno src_not_root src_unlinked)
    as (fs1 & H1 & Ha1 & Hst1).
  assert (Ha : abs fs1 = move d n d' n' src t) by (unfold move; rewrite decide_True, <- Hdd by done; done).
  exists fs1. split; [done|]. split; [done|]. split; [rewrite Ha; apply moved|done].
Qed.

(** Across directories: the move of the tree, with the parent of a directory *)
Lemma move_across :
  d <> d' ->
  move d n d' n' src t =
  (if is_dir then set_tparent src d' (set_entry d' n' (Some src) (set_entry d n None t))
   else set_entry d' n' (Some src) (set_entry d n None t)).
Proof using All.
  intros Hdd. unfold move. rewrite decide_False by done. rewrite Hsty. repeat (case_decide || case_bool_decide); congruence.
Qed.

Lemma src_ldelta d0 i :
  ldelta t d0 src i = if is_dir then (if decide (i = src) then 2 else 0) + (if decide (i = d0) then 1 else 0)
                      else if decide (i = src) then 1 else 0.
Proof using All. case_bool_decide; [rewrite ldelta_dir by congruence|rewrite ldelta_file by congruence]; done. Qed.

(** The entry leaves its directory. *)
Lemma leave_dir :
  exists fs1, upd_direntry d (remove_entry idx) fs = (Ok tt, fs1) /\ abs fs1 = set_entry d n None t /\
    ram_st (bump d (-1) (fun _ => 0)) (fun i => 0 - ldelta t d src i) fs1 /\
    (forall d' idx' n' c', has_slot fs d' idx' n' c' -> d' <> d -> has_slot fs1 d' idx' n' c').
Proof using All.
  destruct (step_remove _ _ fs d idx n src (inv_nodes fs Hinv) Hslot src_not_root src_unlinked) as (fs1 & H1 & Ha1 & Hst1 & Hkeep).
  exists fs1. split_and!; try done. intros. apply Hkeep; [done|]. by intros [? _].
Qed.

(** To a new name *)
Lemma across_plain :
  d <> d' -> entry t d' n' = None ->
  exists fs1 fs', (upd_direntry d (remove_entry idx) ;! upd_direntry d' (append_entry n' src) ;!
      upd_metadata d dec_size ;! upd_metadata d' inc_size ;!
      when is_dir (upd_metadata d dec_nlinks ;! upd_metadata d' inc_nlinks)) fs = (Ok tt, fs1) /\
    when is_dir (upd_direntry src (set_parent d')) fs1 = (Ok tt, fs') /\ abs fs' = move d n d' n' src t /\ ram_inv fs'.
Proof using All.
  intros Hdd Hno. pose proof d_is_dir as Hd. destruct leave_dir as (fs1 & H1 & Ha1 & Hst1 & _).
  assert (Hds : is_Some (t_dirs t !! d)) by (by apply (wf_dirs t Hwf)).
  destruct (step_append _ _ fs1 d' n' src Hst1 ltac:(by rewrite Ha1) Hn' Hdot') as (fs2 & H2 & Ha2 & Hst2).
  { rewrite Ha1, entry_set by done. by case_decide. }
  { rewrite Ha1. intros Hk. split; [by apply src_unlinked|apply src_not_root]. }
  rewrite Ha1 in Ha2, Hst2. change (ldelta (set_entry d n None t)) with (ldelta t) in Hst2.
  destruct (step_dec_size _ _ fs2 d Hst2) as (fs3 & H3 & Ha3 & Hst3); [by rewrite Ha2|unfold bump; repeat case_decide; lia|].
  destruct (step_inc_size _ _ fs3 d' Hst3) as (fs4 & H4 & Ha4 & Hst4); [by rewrite Ha3, Ha2|].
  assert (Hw : exists fs5, when is_dir (upd_metadata d dec_nlinks ;! upd_metadata d' inc_nlinks) fs4 = (Ok tt, fs5) /\
    abs fs5 = abs fs4 /\ ram_st (fun _ => 0) (fun _ => 0) fs5).
  { destruct is_dir eqn:Hb.
    - destruct (step_dec_nlinks _ _ fs4 d Dir Hst4) as (fs5 & H5 & Ha5 & Hst5); [by rewrite Ha4, Ha3, Ha2| |].
      { rewrite !src_ldelta, Hb. repeat case_decide; done || lia. }
      destruct (step_inc_nlinks _ _ fs5 d' Dir Hst5) as (fs6 & H6 & Ha6 & Hst6); [by rewrite Ha5, Ha4, Ha3, Ha2|].
      exists fs6. unfold when. erewrite sbind_ok by exact H5. split; [done|]. split; [congruence|].
      eapply ram_st_weaken; [exact Hst6|..]; intros i; unfold bump; [repeat case_decide; lia|].
      rewrite !src_ldelta, Hb. repeat case_decide; done || lia.
    - exists fs4. split; [done|]. split; [done|]. eapply ram_st_weaken; [exact Hst4|..]; intros i;
        [unfold bump; repeat case_decide; lia|]. cbn beta. rewrite !src_ldelta, Hb. lia. }
  destruct Hw as (fs5 & H5 & Ha5 & Hst5).
  destruct (step_parent_when is_dir _ _ fs5 src d' Hst5) as (fs6 & H6 & Ha6 & Hst6).
  { intros Hb%bool_decide_eq_true. rewrite Ha5, Ha4, Ha3, Ha2. simpl. by rewrite <- Hb. }
  exists fs5, fs6. erewrite sbind_ok by exact H1. erewrite sbind_ok by exact H2. erewrite sbind_ok by exact H3.
  erewrite sbind_ok by exact H4. split; [done|]. split; [done|].
  assert (Ha : abs fs6 = move d n d' n' src t) by (rewrite Ha6, Ha5, Ha4, Ha3, Ha2; by rewrite move_across).
  split; [done|]. split; [rewrite Ha; apply moved|done].
Qed.

Context (dst : Z) (idx' : nat).
Hypothesis (Hdst : entry t d' n' = Some dst) (Hslot' : has_slot fs d' idx' n' dst) (Hrep : tree_replace t src dst = Ok tt)
  (Hne : ~ (d = d' /\ n = n')).

(** A directory takes the place of a directory, a file that of a file. *)
Lemma dst_kind : if is_dir then t_kind t !! dst = Some Dir /\ src <> dst else t_kind t !! dst <> Some Dir.
Proof using All.
  destruct (decide (src = dst)) as [<-|Hsd].
  - rewrite Hsty. case_bool_decide as Hs; [|congruence]. exfalso. apply Hne. rewrite Hs in Hsty.
    destruct (entry_dir_unique t d n d' n' src Hwf He Hdst Hsty) as [-> ->]. done.
  - pose proof (replace_kinds t src dst Hrep Hsd) as Hk. rewrite Hsty in Hk. case_bool_decide as Hs.
    + split; [|done]. apply Hk. by rewrite Hs.
    + intros Hx. apply Hk in Hx. injection Hx as Hx. by apply Hs.
Qed.

Lemma dst_not_root : dst <> ROOT_INO.
Proof using Hinv Hdst. by apply (wf_entry t Hwf) in Hdst as (_ & _ & ?). Qed.

(** Within the directory, over another entry *)
Lemma same_replace :
  d = d' ->
  exists fs', (upd_direntry d (remove_entry idx') ;! upd_direntry d (substitute_entry idx (cstr256_from n', src)) ;!
     upd_metadata d dec_size ;! when is_dir (upd_metadata d dec_nlinks)) fs = (Ok tt, fs') /\
    abs fs' = move d n d' n' src t /\ ram_inv fs'.
Proof using All.
  intros Hdd. assert (Hnn : n <> n') by tauto. pose proof Hdst as Hdst1. pose proof Hslot' as Hslot1'.
  rewrite <- Hdd in Hdst1, Hslot1'. pose proof d_is_dir as Hd.
  destruct (step_remove _ _ fs d idx' n' dst (inv_nodes fs Hinv) Hslot1' dst_not_root) as (fs1 & H1 & Ha1 & Hst1 & Hkeep);
    [intros Hk; by apply unlinked_set_none|].
  assert (Hslot1 : has_slot fs1 d idx n src).
  { apply Hkeep; [done|]. intros [_ ->]. destruct Hslot as (x & de & Hx & Hde & _ & Hs), Hslot1' as (y & dy & Hy & Hdy & _ & Hs').
    rewrite Hx in Hy. injection Hy as <-. rewrite Hde in Hdy. injection Hdy as <-. rewrite Hs in Hs'. congruence. }
  assert (Hds : is_Some (t_dirs t !! d)) by (by apply (wf_dirs t Hwf)).
  destruct (step_substitute _ _ fs1 d idx n src n' Hst1 Hslot1 Hn' Hdot') as (fs2 & H2 & Ha2 & Hst2).
  { rewrite Ha1, entry_set, decide_True; done. }
  { apply src_not_root. }
  { rewrite Ha1. intros Hk. apply unlinked_set_none; [by apply set_none_wf| |done].
    rewrite entry_set, decide_False by (done || tauto). done. }
  rewrite Ha1, set_entry_absorb in Ha2 by done.
  destruct (step_dec_size _ _ fs2 d Hst2) as (fs3 & H3 & Ha3 & Hst3); [by rewrite Ha2|unfold bump; case_decide; lia|].
  pose proof dst_kind as Hdk. destruct (step_dec_when is_dir _ _ fs3 d Hst3) as (fs4 & H4 & Ha4 & Hst4).
  { by rewrite Ha3, Ha2. }
  { intros Hb. rewrite Hb in Hdk. rewrite ldelta_dir by apply Hdk. repeat case_decide; done || lia. }
  exists fs4. erewrite sbind_ok by exact H1. erewrite sbind_ok by exact H2. erewrite sbind_ok by exact H3.
  assert (Ha : abs fs4 = move d n d' n' src t) by (unfold move; rewrite decide_True, <- Hdd by done; congruence).
  split; [done|]. split; [done|]. split; [rewrite Ha; apply moved|]. eapply ram_st_weaken; [exact Hst4|..]; intros i.
  - unfold bump. repeat case_decide; lia.
  - destruct is_dir; unfold bump; [rewrite ldelta_dir by apply Hdk|rewrite ldelta_file by apply Hdk]; repeat case_decide; lia.
Qed.

(** Across directories, over another entry *)
Lemma across_replace :
  d <> d' ->
  exists fs1 fs', (upd_direntry d (remove_entry idx) ;! upd_direntry d' (remove_entry idx') ;!
      upd_direntry d' (append_entry n' src) ;! upd_metadata d dec_size ;! when is_dir (upd_metadata d dec_nlinks)) fs = (Ok tt, fs1) /\
    when is_dir (upd_direntry src (set_parent d')) fs1 = (Ok tt, fs') /\ abs fs' = move d n d' n' src t /\ ram_inv fs'.
Proof using All.
  intros Hdd. pose proof d_is_dir as Hd. destruct leave_dir as (fs1 & H1 & Ha1 & Hst1 & Hkeep).
  assert (Hds : is_Some (t_dirs t !! d)) by (by apply (wf_dirs t Hwf)).
  assert (Hds' : is_Some (t_dirs t !! d')) by (by apply (wf_dirs t Hwf)).
  assert (Hwf1 : tree_wf (set_entry d n None t)) by (by apply set_none_wf).
  destruct (step_remove _ _ fs1 d' idx' n' dst Hst1) as (fs2 & H2 & Ha2 & Hst2 & _).
  { by apply Hkeep. }
  { apply dst_not_root. }
  { rewrite Ha1. intros Hk. apply unlinked_set_none; [done| |done]. rewrite entry_set, decide_False by (done || naive_solver). done. }
  rewrite Ha1 in Ha2, Hst2. change (ldelta (set_entry d n None t)) with (ldelta t) in Hst2.
  destruct (step_append _ _ fs2 d' n' src Hst2 ltac:(by rewrite Ha2) Hn' Hdot') as (fs3 & H3 & Ha3 & Hst3).
  { rewrite Ha2, entry_set by (by apply dirs_set). by rewrite decide_True. }
  { rewrite Ha2. intros Hk. split; [|apply src_not_root]. intros d0 n0. rewrite entry_set by (by apply dirs_set).
    case_decide; [done|]. by apply src_unlinked. }
  rewrite Ha2, set_entry_twice in Ha3. rewrite Ha2 in Hst3.
  change (ldelta (set_entry d' n' None (set_entry d n None t))) with (ldelta t) in Hst3.
  destruct (step_dec_size _ _ fs3 d Hst3) as (fs4 & H4 & Ha4 & Hst4); [by rewrite Ha3|unfold bump; repeat case_decide; lia|].
  pose proof dst_kind as Hdk. destruct (step_dec_when is_dir _ _ fs4 d Hst4) as (fs5 & H5 & Ha5 & Hst5).
  { by rewrite Ha4, Ha3. }
  { intros Hb. rewrite Hb in Hdk. cbn beta. rewrite !src_ldelta, Hb, ldelta_dir by apply Hdk. repeat case_decide; done || lia. }
  destruct (step_parent_when is_dir _ _ fs5 src d' Hst5) as (fs6 & H6 & Ha6 & Hst6).
  { intros Hb%bool_decide_eq_true. rewrite Ha5, Ha4, Ha3. simpl. by rewrite <- Hb. }
  exists fs5, fs6. erewrite sbind_ok by exact H1. erewrite sbind_ok by exact H2. erewrite sbind_ok by exact H3.
  erewrite sbind_ok by exact H4. split; [done|]. split; [done|].
  assert (Ha : abs fs6 = move d n d' n' src t) by (rewrite Ha6, Ha5, Ha4, Ha3; by rewrite move_across).
  split; [done|]. split; [rewrite Ha; apply moved|]. eapply ram_st_weaken; [exact Hst6|..]; intros i.
  - unfold bump. repeat case_decide; lia.
  - destruct is_dir eqn:Hb; unfold bump; rewrite !src_ldelta, Hb;
      [rewrite ldelta_dir by apply Hdk|rewrite ldelta_file by apply Hdk]; repeat case_decide; lia.
Qed.

End Rename.

(** What [get_entry] finds under the new name. *)
Lemma run_dst {A} fs d n (k : option (nat * Z) -> ramM A) de :
  ram_inv fs -> direntry d fs = (Ok de, fs) -> t_kind (abs fs) !! d = Some Dir -> is_dot n = false ->
  match entry (abs fs) d n with
  | Some c => exists idx, has_slot fs d idx n c /\ sbind (get_entry de n) k fs = k (Some (idx, c)) fs
  | None => sbind (get_entry de n) k fs = k None fs
  end.
Proof.
  intros Hinv Hrun Hd Hdot.
  destruct (run_direntry _ _ fs d (inv_nodes fs Hinv) Hd) as (x & de' & Hx & Hde & Hok & Hrun' & _ & Hent).
  rewrite Hrun in Hrun'. injection Hrun' as <-. rewrite Hent. pose proof (get_entry_spec de n fs Hok Hdot) as [Hg Hfs].
  unfold sbind. destruct (get_entry de n fs) as [[[[idx c]|]| |] fs']; simpl in Hfs, Hg; subst fs'; [| |done|done].
  - destruct Hg as (? & ? & ->). exists idx. split; [by exists x, de|done].
  - by rewrite Hg.
Qed.

(** The part of [rename] after the checks *)
Lemma rename_same_sim fs d n n' :
  ram_inv fs -> t_kind (abs fs) !! d = Some Dir -> is_dot n = false -> is_dot n' = false -> name_ok n' -> n <> n' ->
  simulates (rename_same d n n') (tree_rename d n d n') fs.
Proof.
  intros Hinv Hd Hdot Hdot' Hn' Hnn. unfold simulates, tree_rename, in_dir. rewrite !Hd, Hdot, Hdot'.
  rewrite (bool_decide_eq_false_2 (d <> d)) by tauto. cbn [andb].
  destruct (run_direntry _ _ fs d (inv_nodes fs Hinv) Hd) as (x & de & Hx & Hde & Hok & Hrun & _ & Hent).
  unfold rename_same. erewrite sbind_ok by exact Hrun.
  match goal with |- context [sbind (the_entry de n) ?k fs] => pose proof (run_entry de n k fs Hok Hdot) as Hr end.
  rewrite <- Hent in Hr. destruct (entry (abs fs) d n) as [src|] eqn:He; [|by rewrite Hr].
  destruct Hr as (idx & Hidx & Hs & Hr). rewrite Hr. clear Hr. cbn [fst snd]. rewrite run_type.
  destruct (entry_kind _ _ _ _ (inv_tree fs Hinv) He) as [sty Hsty]. rewrite Hsty.
  assert (Hslot : has_slot fs d idx n src) by (by exists x, de).
  match goal with |- context [sbind (get_entry de n') ?k fs] =>
    pose proof (run_dst fs d n' k de Hinv Hrun Hd Hdot') as Hr end.
  destruct (entry (abs fs) d n') as [dst|] eqn:He'.
  - destruct Hr as (idx' & Hslot' & Hr). rewrite Hr. clear Hr.
    destruct (entry_kind _ _ _ _ (inv_tree fs Hinv) He') as [dty Hdty].
    pose proof (run_replace fs src dst sty dty Hinv Hsty Hdty) as Hrep. rewrite (sbind_eq _ _ _ _ _ Hrep).
    destruct (tree_replace (abs fs) src dst) as [[]|e|] eqn:Hrp; [|done|done].
    destruct (same_replace fs Hinv d n d n' src sty idx He Hsty Hd Hn' Hdot' Hslot dst idx' He' Hslot' Hrp) as (fs' & Hrun' & Ha & Hinv');
      [tauto|done|]. rewrite Hrun'. simpl. by rewrite Ha.
  - rewrite Hr. destruct (same_plain fs Hinv d n d n' src sty idx He Hsty Hd Hn' Hdot' Hslot eq_refl He') as (fs' & Hrun' & Ha & Hinv').
    rewrite Hrun'. simpl. by rewrite Ha.
Qed.

Lemma rename_across_sim fs d n d' n' :
  ram_inv fs -> t_kind (abs fs) !! d = Some Dir -> t_kind (abs fs) !! d' = Some Dir -> d <> d' ->
  is_dot n = false -> is_dot n' = false -> name_ok n' -> simulates (rename_across d n d' n') (tree_rename d n d' n') fs.
Proof.
  intros Hinv Hd Hd' Hdd Hdot Hdot' Hn'. unfold simulates, tree_rename, in_dir. rewrite !Hd, Hd', Hdot, Hdot'.
  rewrite (bool_decide_eq_true_2 (d <> d')) by done. cbn [andb].
  destruct (run_direntry _ _ fs d (inv_nodes fs Hinv) Hd) as (x & de & Hx & Hde & Hok & Hrun & _ & Hent).
  unfold rename_across. erewrite sbind_ok by exact Hrun.
  match goal with |- context [sbind (the_entry de n) ?k fs] => pose proof (run_entry de n k fs Hok Hdot) as Hr end.
  rewrite <- Hent in Hr. destruct (entry (abs fs) d n) as [src|] eqn:He; [|by rewrite Hr].
  destruct Hr as (idx & Hidx & Hs & Hr). rewrite Hr. clear Hr. cbn [fst snd].
  destruct (src =? d'); [done|]. rewrite run_type.
  destruct (entry_kind _ _ _ _ (inv_tree fs Hinv) He) as [sty Hsty]. rewrite Hsty.
  assert (Hslot : has_slot fs d idx n src) by (by exists x, de).
  destruct (run_direntry _ _ fs d' (inv_nodes fs Hinv) Hd') as (x' & de' & _ & _ & _ & Hrun' & _ & _).
  erewrite sbind_ok by exact Hrun'.
  match goal with |- context [sbind (get_entry de' n') ?k fs] =>
    pose proof (run_dst fs d' n' k de' Hinv Hrun' Hd' Hdot') as Hr end.
  destruct (entry (abs fs) d' n') as [dst|] eqn:He'.
  - destruct Hr as (idx' & Hslot' & Hr). rewrite Hr. clear Hr. destruct (d =? dst); [done|].
    destruct (entry_kind _ _ _ _ (inv_tree fs Hinv) He') as [dty Hdty].
    pose proof (run_replace fs src dst sty dty Hinv Hsty Hdty) as Hrep. rewrite sbind_assoc, (sbind_eq _ _ _ _ _ Hrep).
    destruct (tree_replace (abs fs) src dst) as [[]|e|] eqn:Hrp; [|done|done].
    destruct (across_replace fs Hinv d n d' n' src sty idx He Hsty Hd' Hn' Hdot' Hslot dst idx' He' Hslot' Hrp)
      as (fs1 & fs' & H1 & H2 & Ha & Hinv'); [tauto|done|].
    erewrite sbind_ok by exact H1. rewrite H2. simpl. by rewrite Ha.
  - rewrite Hr. destruct (across_plain fs Hinv d n d' n' src sty idx He Hsty Hd' Hn' Hdot' Hslot Hdd He')
      as (fs1 & fs' & H1 & H2 & Ha & Hinv'). erewrite sbind_ok by exact H1. rewrite H2. simpl. by rewrite Ha.
Qed.

Lemma ram_rename_sim fs d n d' n' :
  ram_inv fs -> name_ok n' -> ~ (d = d' /\ n = n') -> simulates (ram_rename d n d' n') (tree_rename d n d' n') fs.
Proof.
  intros Hinv Hn' Hne. unfold simulates, ram_rename. rewrite run_inode.
  destruct (inodes fs !! d) as [x|] eqn:Hx; [|unfold tree_rename, in_dir; by rewrite abs_kind, Hx].
  destruct (decide (type_ (metadata x) = Dir)) as [Hd|Hd];
    [|rewrite bool_decide_eq_false_2 by done; unfold tree_rename, in_dir; rewrite abs_kind, Hx; simpl; by destruct (type_ (metadata x))].
  rewrite (bool_decide_eq_true_2 (type_ (metadata x) = Dir)) by done. cbn [negb]. rewrite run_inode.
  assert (Hdk : t_kind (abs fs) !! d = Some Dir) by (rewrite abs_kind, Hx; simpl; by rewrite Hd).
  destruct (inodes fs !! d') as [y|] eqn:Hy; [|unfold tree_rename, in_dir; by rewrite Hdk, abs_kind, Hy].
  destruct (decide (type_ (metadata y) = Dir)) as [Hd'|Hd'];
    [|rewrite bool_decide_eq_false_2 by done; unfold tree_rename, in_dir; rewrite Hdk, abs_kind, Hy; simpl; by destruct (type_ (metadata y))].
  rewrite (bool_decide_eq_true_2 (type_ (metadata y) = Dir)) by done. cbn [negb].
  assert (Hdk' : t_kind (abs fs) !! d' = Some Dir) by (rewrite abs_kind, Hy; simpl; by rewrite Hd').
  destruct (is_dot n) eqn:Hdot; [unfold tree_rename, in_dir; by rewrite Hdk, Hdk', Hdot|].
  destruct (is_dot n') eqn:Hdot'; [unfold tree_rename, in_dir; by rewrite Hdk, Hdk', Hdot, Hdot'|].
  destruct (inv_nodes fs Hinv d x Hx) as [[-> _] _]. destruct (inv_nodes fs Hinv d' y Hy) as [[-> _] _].
  destruct (Z.eqb_spec d d') as [<-|Hdd]; [apply rename_same_sim; try done; tauto|by apply rename_across_sim].
Qed.

(** * Sequences of operations *)

Inductive fs_op : Type :=
  | OpCreate (d : Z) (n : path) (ty : InodeType) (mode : Z)
  | OpMknod (d : Z) (n : path) (mode : Z) (device : Device)
  | OpLink (d old : Z) (n : path)
  | OpUnlink (d : Z) (n : path)
  | OpRmdir (d : Z) (n : path)
  | OpLookup (d : Z) (n : path)
  | OpRename (d : Z) (n : path) (d' : Z) (n' : path).

Definition unit_op {S} (m : stM S Errno unit) : stM S Errno Z := let! _ := m in sret 0.

Definition ram_run (op : fs_op) : ramM Z :=
  match op with
  | OpCreate d n ty mode => ram_create d n ty mode
  | OpMknod d n mode device => ram_mknod d n mode device
  | OpLink d old n => unit_op (ram_link d old n)
  | OpUnlink d n => unit_op (ram_unlink d n)
  | OpRmdir d n => unit_op (ram_rmdir d n)
  | OpLookup d n => ram_lookup d n
  | OpRename d n d' n' => unit_op (ram_rename d n d' n')
  end.

Definition tree_run (op : fs_op) : treeM Z :=
  match op with
  | OpCreate d n ty _ => tree_make d n ty
  | OpMknod d n _ device => tree_make d n (device_type device)
  | OpLink d old n => unit_op (tree_link d old n)
  | OpUnlink d n => unit_op (tree_unlink d n)
  | OpRmdir d n => unit_op (tree_rmdir d n)
  | OpLookup d n => tree_lookup d n
  | OpRename d n d' n' => unit_op (tree_rename d n d' n')
  end.

(** Names are valid strings without zero bytes; the operations that do not
    check its length get a name of at most 255 bytes, and a rename is not one
    of an entry to itself. *)
Definition op_ok (op : fs_op) : Prop :=
  match op with
  | OpCreate _ n ty _ => utf8_valid n = true /\ 0 ∉ n /\ ty ∈ [File; SymLink; Socket; Dir]
  | OpMknod _ n _ device => utf8_valid n = true /\ 0 ∉ n /\ device_type device <> Dir /\ device_type device <> SymLink
  | OpLink _ _ n => name_ok n
  | OpRename d n d' n' => name_ok n' /\ ~ (d = d' /\ n = n')
  | _ => True
  end.

Definition op_inodes (op : fs_op) : list Z :=
  match op with
  | OpCreate d _ _ _ | OpMknod d _ _ _ | OpUnlink d _ | OpRmdir d _ | OpLookup d _ => [d]
  | OpLink d old _ => [d; old]
  | OpRename d _ d' _ => [d; d']
  end.

Fixpoint run_ops {S} (run : fs_op -> stM S Errno Z) (ops : list fs_op) (s : S) : list (outcome Errno Z) * S :=
  match ops with
  | [] => ([], s)
  | op :: ops' => let '(r, s1) := run op s in let '(rs, s2) := run_ops run ops' s1 in (r :: rs, s2)
  end.

Lemma sim_unit (m : ramM unit) (spec : treeM unit) fs : simulates m spec fs -> simulates (unit_op m) (unit_op spec) fs.
Proof.
  unfold simulates, unit_op, sbind. intros [Hinv Hs]. rewrite Hs. destruct (m fs) as [[[]|e|] fs']; done.
Qed.

Lemma ram_run_sim fs op : ram_inv fs -> op_ok op -> simulates (ram_run op) (tree_run op) fs.
Proof.
  intros Hinv Hok. destruct op; simpl in *.
  - destruct Hok as (? & ? & ?). by apply ram_create_sim.
  - destruct Hok as (? & ? & ? & ?). by apply ram_mknod_sim.
  - by apply sim_unit, ram_link_sim.
  - by apply sim_unit, ram_unlink_sim.
  - by apply sim_unit, ram_rmdir_sim.
  - by apply ram_lookup_sim.
  - destruct Hok. by apply sim_unit, ram_rename_sim.
Qed.

Definition tree_new : tree := MkTree {[ROOT_INO := Dir]} {[ROOT_INO := ∅]} {[ROOT_INO := ROOT_INO]} 2.

Lemma abs_new : abs ramfs_new = tree_new.
Proof. reflexivity. Qed.

Lemma entry_new d n : entry tree_new d n = None.
Proof.
  unfold entry. simpl. destruct (decide (d = 1)) as [->|]; [by rewrite lookup_singleton_eq|by rewrite lookup_singleton_ne].
Qed.

Lemma tree_new_wf : tree_wf tree_new.
Proof.
  split; try (intros *; rewrite entry_new; done).
  - done.
  - intros i. simpl. destruct (decide (i = 1)) as [->|]; [rewrite !lookup_singleton_eq; split; eauto|].
    rewrite !lookup_singleton_ne by done. split; [by intros []|done].
  - intros i. simpl. destruct (decide (i = 1)) as [->|]; [rewrite !lookup_singleton_eq; eauto|].
    by rewrite lookup_singleton_ne.
  - intros i. simpl. destruct (decide (i = 1)) as [->|]; [done|]. rewrite lookup_singleton_ne by done. by intros [].
Qed.

Lemma ramfs_new_inv : ram_inv ramfs_new.
Proof.
  split; [rewrite abs_new; apply tree_new_wf|]. intros i x Hx. simpl in Hx. rewrite abs_new.
  destruct (decide (i = 1)) as [->|]; [|by rewrite lookup_singleton_ne in Hx]. rewrite lookup_singleton_eq in Hx.
  injection Hx as <-. split.
  - split; [done|]. simpl. split_and!; try done. split; [done|constructor|constructor].
  - split; [done|]. intros _. assert (Hnone : forall k, 0 <= k -> at_most k (subdir tree_new 1)).
    { intros k Hk l _ Hl. destruct l as [|n l]; [done|]. inversion Hl as [|? ? (c & He & _)]; subst. by rewrite entry_new in He. }
    split; [by apply Hnone|]. intros _. by apply Hnone.
Qed.
