(* ===== verification/RamFsProps.v ===== *)
(** Properties of the in-memory file system: its directories are the tree that
    the operations promise, and what happens to the names and counts that the
    operations do not check. *)

From S2P Require Import Prelude Perms SlotVec PathLookup RamFs FsTree RamFsFacts RamFsSpec.

Lemma unit_op_panic {S} (m : stM S Errno unit) s : (m s).1 <> Panic -> (unit_op m s).1 <> Panic.
Proof. unfold unit_op, sbind. by destruct (m s) as [[[]| |] s']. Qed.

Lemma replace_no_panic t src dst : tree_replace t src dst <> Panic.
Proof.
  unfold tree_replace. destruct (src =? dst); [done|].
  destruct (t_kind t !! src) as [[]|], (t_kind t !! dst) as [[]|]; try done. by destruct (is_empty t dst).
Qed.

Lemma tree_no_panic t op :
  tree_wf t -> Forall (fun i => is_Some (t_kind t !! i)) (op_inodes op) -> (tree_run op t).1 <> Panic.
Proof.
  intros Hwf Hin.
  assert (Hkind : forall d n c, entry t d n = Some c -> exists ty, t_kind t !! c = Some ty) by (intros d n c; by apply entry_kind).
  destruct op; simpl in *; repeat match goal with H : Forall _ (_ :: _) |- _ => apply Forall_cons in H as [[? ?] ?] end;
    try apply unit_op_panic;
    unfold tree_make, tree_link, tree_unlink, tree_rmdir, tree_lookup, tree_rename, in_dir, kind_of;
    repeat match goal with
    | |- context [match t_parent t !! ?d with _ => _ end] =>
        let Hp := fresh in destruct (wf_parent t Hwf d) as (? & Hp & _); [congruence|]; rewrite Hp
    | |- context [match entry t ?d ?n with _ => _ end] => let H := fresh in destruct (entry t d n) eqn:H; [apply Hkind in H as [? H]; rewrite ?H|]
    | |- context [tree_replace t ?a ?b] => pose proof (replace_no_panic t a b); destruct (tree_replace t a b)
    | H : t_kind t !! ?i = _ |- context [t_kind t !! ?i] => rewrite H
    | |- context [match ?x with _ => _ end] => destruct x
    end; done.
Qed.

Lemma run_ops_sim ops fs :
  ram_inv fs -> Forall op_ok ops ->
  ram_inv (run_ops ram_run ops fs).2 /\
  run_ops tree_run ops (abs fs) = ((run_ops ram_run ops fs).1, abs (run_ops ram_run ops fs).2).
Proof.
  revert fs. induction ops as [|op ops IH]; intros fs Hinv Hok; [done|]. apply Forall_cons in Hok as [Hop Hops]. simpl.
  destruct (ram_run_sim fs op Hinv Hop) as [Hinv1 Hs]. rewrite Hs. destruct (ram_run op fs) as [r fs1]. simpl in *.
  destruct (IH fs1 Hinv1 Hops) as [Hinv2 Hs2]. rewrite Hs2. by destruct (run_ops ram_run ops fs1).
Qed.

Lemma lookup_parent_dropped fs i x d :
  inodes fs !! i = Some x -> inner x = IDir d -> type_ (metadata x) = Dir -> parent d <> i ->
  (ram_lookup i DOTDOT (drop_inode (parent d) fs)).1 = Panic.
Proof.
  intros Hx Hd Hty Hp.
  assert (Hi : inodes (drop_inode (parent d) fs) !! i = Some x) by (cbn; by rewrite lookup_delete_ne).
  assert (Hpar : inodes (drop_inode (parent d) fs) !! parent d = None) by (cbn; apply lookup_delete_eq).
  generalize dependent (drop_inode (parent d) fs). intros fs' Hi Hpar.
  unfold ram_lookup, inode_type, direntry, as_direntry, the_entry, get_entry, upgrade_inode.
  rewrite !sbind_assoc, run_inode, Hi. unfold sret at 1. unfold sbind at 1. rewrite Hty. cbn [negb].
  rewrite bool_decide_true by done. cbn [negb]. rewrite sbind_assoc, run_inode, Hi, Hd. unfold sbind at 1, slift at 1.
  rewrite bool_decide_false, bool_decide_true by done. by rewrite !sbind_assoc, run_inode, Hpar.
Qed.


(** Two files and a directory, renamed and removed. *)
Definition demo_ops : list fs_op :=
  [OpCreate 1 [97] Dir 493; OpCreate 2 [98] File 420; OpLink 1 3 [99]; OpRename 2 [98] 1 [100]; OpUnlink 1 [99];
   OpRmdir 1 [97]; OpLookup 1 [100]].

Lemma demo_ok : Forall op_ok demo_ops.
Proof.
  assert (Hn : forall c, c ∈ [98; 99; 100] -> name_ok [c]).
  { intros c Hc. rewrite !elem_of_cons, elem_of_nil in Hc. destruct Hc as [->|[->|[->|[]]]]; (split; [done|]; split; [simpl; lia|set_solver]). }
  repeat apply Forall_cons_2; simpl; try done.
  - split; [done|]. split; [set_solver|set_solver].
  - split; [done|]. split; [set_solver|set_solver].
  - apply Hn. set_solver.
  - split; [apply Hn; set_solver|]. by intros [].
Qed.


(** The names of a directory, and the link count of an inode. *)
Definition names (fs : RamFS) (i : Z) : list path :=
  match inodes fs !! i with
  | Some x => match inner x with IDir d => (sv_iter (children d)).*1 | _ => [] end
  | None => []
  end.
Definition nlinks_of (fs : RamFS) (i : Z) : option Z := (fun x => nlinks (metadata x)) <$> inodes fs !! i.

(** What the hypotheses on names and renames leave out.  [link] does not
    check the length of the name and cuts it at 255 bytes: two links to a file
    can end up under the same name in one directory, and when the cut splits a
    character, the next lookup in the directory that misses panics.  A rename
    over another file does not count down the links of the file it replaces. *)
Lemma ramfs_unchecked :
  (let '(rs, fs) := run_ops ram_run [OpCreate 1 [102] File 420; OpLink 1 2 (replicate 300 97); OpLink 1 2 (replicate 301 97)] ramfs_new in
   rs = [Ok 2; Ok 0; Ok 0] /\ names fs 1 = [[102]; replicate 255 97; replicate 255 97]) /\
  (run_ops ram_run [OpCreate 1 [102] File 420; OpLink 1 2 (replicate 254 97 ++ [195; 169]); OpLookup 1 [120]] ramfs_new).1 =
    [Ok 2; Ok 0; Panic] /\
  (let '(rs, fs) := run_ops ram_run [OpCreate 1 [102] File 420; OpCreate 1 [103] File 420; OpRename 1 [102] 1 [103]] ramfs_new in
   rs = [Ok 2; Ok 3; Ok 0] /\ names fs 1 = [[103]] /\ nlinks_of fs 2 = Some 1 /\ nlinks_of fs 3 = Some 1).
Proof. vm_compute. done. Qed.
