(* ===== verification/RamFsReaddir.v ===== *)
(** Reading a directory in several calls lists every entry once. *)

From S2P Require Import Prelude Perms SlotVec PathLookup RamFs FsTree RamFsFacts RamFsSpec RamFsProps.

(** Offsets grow along the entries. *)
Definition increasing {A} (es : list (nat * A)) : Prop :=
  forall i j a b, es !! i = Some a -> es !! j = Some b -> (i < j)%nat -> (a.1 < b.1)%nat.

Lemma increasing_cons {A} (a : nat * A) es :
  increasing (a :: es) -> increasing es /\ Forall (fun b => (a.1 < b.1)%nat) es.
Proof.
  intros H. split.
  - intros i j x y Hi Hj Hij. apply (H (S i) (S j) x y); [done|done|lia].
  - apply Forall_lookup. intros j b Hj. by apply (H 0%nat (S j) a b); [| |lia].
Qed.

Lemma increasing_cons_2 {A} (a : nat * A) es :
  increasing es -> Forall (fun b => (a.1 < b.1)%nat) es -> increasing (a :: es).
Proof.
  intros H Ha [|i] [|j] x y; simpl; intros Hi Hj Hij; [lia| |lia|by apply (H i j); [| |lia]].
  injection Hi as <-. rewrite Forall_lookup in Ha. by apply (Ha j).
Qed.

Lemma skip_while_prefix {A} (f : A -> bool) (pre es : list A) :
  Forall (fun x => f x = true) pre -> skip_while f (pre ++ es) = skip_while f es.
Proof. induction 1 as [|x pre Hx _ IH]; [done|]. simpl. by rewrite Hx. Qed.

Lemma skip_while_none {A} (f : A -> bool) (es : list A) : Forall (fun x => f x = false) es -> skip_while f es = es.
Proof. intros H. destruct es as [|x es]; [done|]. inversion H as [|? ? Hx]; subst. simpl. by rewrite Hx. Qed.

(** The entries that a call at the offset [idx] starts from. *)
Definition entries_from (d : DirEntry) (idx : nat) : list (nat * (path * Z)) :=
  skip_while (fun e => (e.1 <? idx)%nat) (all_entries d).

Lemma skip_split {A} (es : list (nat * A)) idx :
  increasing es ->
  exists pre, es = pre ++ skip_while (fun e => (e.1 <? idx)%nat) es /\ Forall (fun e => (e.1 < idx)%nat) pre /\
    Forall (fun e => (idx <= e.1)%nat) (skip_while (fun e => (e.1 <? idx)%nat) es).
Proof.
  induction es as [|a es IH]; intros Hinc; [by exists []|]. apply increasing_cons in Hinc as [Hes Ha]. simpl.
  destruct (Nat.ltb_spec a.1 idx) as [Hlt|Hge].
  - destruct (IH Hes) as (pre & Heq & Hpre & Hpost). exists (a :: pre). split; [simpl; by f_equal|]. split; [by constructor|done].
  - exists []. split; [done|]. split; [constructor|]. constructor; [done|]. eapply Forall_impl; [done|]. simpl. lia.
Qed.

(** The offset after [k] entries of [es] were read from the offset [idx]. *)
Definition offset_after (es : list (nat * (path * Z))) (k idx : nat) : nat :=
  match last (take k es) with Some e => S e.1 | None => idx end.

(** Reading goes on after the entries that were read. *)
Lemma resume_app pre rest k idx :
  increasing (pre ++ rest) -> Forall (fun e => (e.1 < idx)%nat) pre -> Forall (fun e => (idx <= e.1)%nat) rest ->
  skip_while (fun e => (e.1 <? offset_after rest k idx)%nat) (pre ++ rest) = drop k rest.
Proof.
  intros Hinc Hpre Hrest. unfold offset_after. destruct (last (take k rest)) as [e|] eqn:Hlast.
  - apply last_Some in Hlast as [l Hl].
    assert (Heq : pre ++ rest = (pre ++ l) ++ e :: drop k rest).
    { rewrite <- (take_drop k rest) at 1. rewrite Hl, <- !(assoc_L (++)). done. }
    rewrite Heq in Hinc |- *. set (post := drop k rest) in *.
    replace ((pre ++ l) ++ e :: post) with ((pre ++ l ++ [e]) ++ post) by (rewrite <- !(assoc_L (++)); done).
    rewrite skip_while_prefix.
    + apply skip_while_none. apply Forall_lookup. intros j b Hj. apply Nat.ltb_ge.
      apply (Hinc (length (pre ++ l)) (length (pre ++ l) + S j)%nat e b); [by rewrite list_lookup_middle| |lia].
      rewrite lookup_app_r by lia. by replace (length (pre ++ l) + S j - length (pre ++ l))%nat with (S j) by lia.
    + rewrite (assoc_L (++)). apply Forall_app. split; [|constructor; [apply Nat.ltb_lt; lia|constructor]].
      apply Forall_lookup. intros j b Hj. pose proof (lookup_lt_Some _ _ _ Hj). apply Nat.ltb_lt.
      enough (b.1 < e.1)%nat by lia. apply (Hinc j (length (pre ++ l)) b e); [by rewrite lookup_app_l|by rewrite list_lookup_middle|done].
  - apply last_None in Hlast. rewrite skip_while_prefix by (eapply Forall_impl; [done|]; intros ? ?; by apply Nat.ltb_lt).
    rewrite skip_while_none by (eapply Forall_impl; [done|]; intros ? ?; by apply Nat.ltb_ge).
    destruct k as [|k]; [done|]. by destruct rest.
Qed.

Lemma resume es k idx :
  increasing es ->
  skip_while (fun e => (e.1 <? offset_after (skip_while (fun e => (e.1 <? idx)%nat) es) k idx)%nat) es =
  drop k (skip_while (fun e => (e.1 <? idx)%nat) es).
Proof.
  intros Hinc. destruct (skip_split es idx Hinc) as (pre & Heq & Hpre & Hpost).
  remember (skip_while _ es) as rest eqn:Hrest. clear Hrest. subst es. by apply resume_app.
Qed.

(** A visitor with room for [cap] entries. *)
Definition collect (cap : nat) (s : path) (i : Z) (ty : InodeType) (offset : nat) : stM (list path) Errno unit := fun v =>
  if (length v <? cap)%nat then (Ok tt, v ++ [s]) else (Err EINVAL, v).

Definition entry_ok (fs : RamFS) (e : nat * (path * Z)) : Prop := utf8_valid e.2.1 = true /\ is_Some (inodes fs !! e.2.2).

Lemma try_visit_collect fs cap es idx v :
  Forall (entry_ok fs) es ->
  let k := (length es `min` (cap - length v))%nat in
  try_visit (collect cap) fs es idx v =
  (if (length es <=? cap - length v)%nat then Ok tt else Err EINVAL, offset_after es k idx, v ++ ((fun e => e.2.1) <$> take k es)).
Proof.
  intros Hes. revert idx v. induction Hes as [|[off [s c]] es [Hs [x Hx]] _ IH]; intros idx v k; subst k; simpl.
  { unfold offset_after. simpl. by rewrite app_nil_r. }
  simpl in Hs, Hx. rewrite Hx. unfold as_str. rewrite Hs. unfold collect at 1. destruct (Nat.ltb_spec (length v) cap) as [Hlt|Hge].
  - rewrite IH, length_app. simpl. destruct (cap - length v)%nat as [|m] eqn:Hm; [lia|].
    replace (cap - (length v + 1))%nat with m by lia. simpl. unfold offset_after. simpl. f_equal; [f_equal|].
    + destruct (take (length es `min` m) es) as [|b l] eqn:Ht; [done|]. change (last ((off, (s, c)) :: b :: l)) with (last (b :: l)).
      destruct (last (b :: l)) eqn:Hl; [done|]. by apply last_None in Hl.
    + by rewrite <- (assoc_L (++)).
  - replace (cap - length v)%nat with 0%nat by lia. simpl. unfold offset_after. simpl. by rewrite app_nil_r.
Qed.

(** * The entries of a directory *)

Lemma imap_increasing {A B} (f : nat -> A -> option (nat * B)) k (l : list A) :
  (forall i x b, f i x = Some b -> b.1 = (k + i)%nat) -> increasing (omap id (imap f l)) /\
  Forall (fun e => (k <= e.1)%nat) (omap id (imap f l)).
Proof.
  revert f k. induction l as [|x l IH]; intros f k Hf; [by split; [intros i j a b Hi|constructor]|].
  destruct (IH (f ∘ S) (S k)) as [Hinc Hge]; [intros i y b Hb; apply Hf in Hb; lia|]. rewrite imap_cons. csimpl.
  destruct (f 0%nat x) as [b|] eqn:Hb; csimpl.
  - apply Hf in Hb. split; [apply increasing_cons_2; [done|]|constructor; [lia|]]; eapply Forall_impl; try done; simpl; lia.
  - split; [done|]. eapply Forall_impl; [done|]. simpl. lia.
Qed.

Lemma idxes_imap {T} (sv : SlotVec T) :
  (fun '(offset, e) => (offset + 2, e)%nat) <$> sv_idxes_and_items sv =
  omap id (imap (fun i x => (fun t => (i + 2, t)%nat) <$> x) (slots sv)).
Proof.
  unfold sv_idxes_and_items. generalize (slots sv). intros l.
  enough (forall f : nat -> nat, (fun '(offset, e) => (offset + 2, e)%nat) <$>
            omap (fun '(idx, x) => (fun t => (idx, t)) <$> x) (imap (fun i (x : option T) => (f i, x)) l) =
          omap id (imap (fun i x => (fun t => (f i + 2, t)%nat) <$> x) l)) as H by apply (H id).
  induction l as [|[t|] l IH]; intros f; [done|..]; rewrite !imap_cons; csimpl; [f_equal|]; apply (IH (f ∘ S)).
Qed.

Lemma all_entries_increasing d : increasing (all_entries d).
Proof.
  unfold all_entries. rewrite idxes_imap.
  destruct (imap_increasing (fun i x => (fun t => (i + 2, t)%nat) <$> x) 2 (slots (children d))) as [Hinc Hge].
  { intros i [t|] b Hb; simplify_eq/=. lia. }
  apply increasing_cons_2; [apply increasing_cons_2; [done|]|constructor; [simpl; lia|]];
    (eapply Forall_impl; [done|]; simpl; lia).
Qed.

Lemma all_entries_names d : (fun e => e.2.1) <$> all_entries d = DOT :: DOTDOT :: (sv_iter (children d)).*1.
Proof.
  unfold all_entries. csimpl. do 2 f_equal. rewrite idxes_imap. unfold sv_iter. generalize (slots (children d)). intros l.
  enough (forall f : nat -> nat, (fun e => e.2.1) <$> omap id (imap (fun i x => (fun t => (f i, t)) <$> x) l) = (omap id l).*1)
    as H by apply (H (fun i => (i + 2)%nat)).
  induction l as [|[[n c]|] l IH]; intros f; [done|..]; rewrite imap_cons; csimpl; [f_equal|]; apply (IH (f ∘ S)).
Qed.

Lemma all_entries_ok fs i x d :
  ram_inv fs -> inodes fs !! i = Some x -> inner x = IDir d -> Forall (entry_ok fs) (all_entries d).
Proof.
  intros Hinv Hx Hd. destruct (abs_dir _ _ fs i x d (inv_nodes fs Hinv) Hx Hd) as (Hk & _ & Hp & Hok).
  assert (Hnode : forall j, is_Some (t_kind (abs fs) !! j) -> is_Some (inodes fs !! j)).
  { intros j. rewrite abs_kind. apply fmap_is_Some. }
  destruct (inv_nodes fs Hinv i x Hx) as [[_ Hn] _]. rewrite Hd in Hn. destruct Hn as (_ & _ & Hthis & _).
  unfold all_entries. constructor; [split; [done|]; simpl; rewrite Hthis; eauto|]. constructor; [split; [done|]; simpl|].
  { apply Hnode. destruct (wf_parent _ (inv_tree fs Hinv) i Hk) as (p & Hp' & Hkp). rewrite Hp in Hp'. injection Hp' as ->. eauto. }
  apply Forall_fmap, Forall_forall. intros [idx [n c]] Hin. apply elem_of_idxes in Hin. simpl.
  assert (Hin' : (n, c) ∈ sv_iter (children d)) by (apply elem_of_iter; eauto).
  pose proof (dir_names d Hok) as Hall. rewrite Forall_forall in Hall. split; [apply (Hall _ Hin')|]. simpl. apply Hnode.
  apply (entry_kind _ i n c (inv_tree fs Hinv)). rewrite (entry_dir fs _ _ i x d n (inv_nodes fs Hinv) Hx Hd).
  by apply dir_map_elem.
Qed.

(** One call reads the next [cap] entries and the offset moves past them. *)
Lemma readdir_step fs i x d cap idx :
  ram_inv fs -> inodes fs !! i = Some x -> inner x = IDir d -> (0 < cap)%nat ->
  exists cnt, ram_readdir_at (collect cap) fs i idx [] = (Ok cnt, (fun e => e.2.1) <$> take cap (entries_from d idx)) /\
    entries_from d (idx + cnt) = drop cap (entries_from d idx).
Proof.
  intros Hinv Hx Hd Hcap. pose proof (all_entries_ok fs i x d Hinv Hx Hd) as Hall.
  destruct (abs_dir _ _ fs i x d (inv_nodes fs Hinv) Hx Hd) as (Hk & _).
  destruct (skip_split (all_entries d) idx (all_entries_increasing d)) as (pre & Heq & _ & Hge).
  fold (entries_from d idx) in Heq, Hge. set (es := entries_from d idx) in *.
  assert (Hes : Forall (entry_ok fs) es) by (rewrite Heq in Hall; by apply Forall_app in Hall as [_ ?]).
  assert (Hk' : take (length es `min` cap) es = take cap es).
  { destruct (decide (cap <= length es)%nat); [by rewrite Nat.min_r by lia|]. rewrite Nat.min_l by lia. by rewrite !take_ge by lia. }
  exists (offset_after es cap idx - idx)%nat. split.
  - unfold ram_readdir_at. rewrite run_type, Hk. rewrite bool_decide_eq_true_2 by done. cbn [negb]. unfold direntry.
    rewrite run_inode, Hx. unfold as_direntry. rewrite Hd. unfold slift. unfold visit_entry. fold (entries_from d idx). fold es.
    rewrite try_visit_collect by done. simpl length. rewrite Nat.sub_0_r. simpl. unfold offset_after. rewrite Hk'.
    destruct (Nat.leb_spec (length es) cap); [done|]. destruct (last (take cap es)) as [e|] eqn:Hlast.
    + assert (idx <= e.1)%nat.
      { apply last_Some in Hlast as [l Hl]. rewrite Forall_forall in Hge. apply Hge. rewrite <- (take_drop cap es), Hl. set_solver. }
      destruct (Nat.eqb_spec idx (S e.1)); [lia|done].
    + apply last_None, (f_equal length) in Hlast. rewrite length_take in Hlast. simpl in Hlast. lia.
  - assert (Hle : (idx <= offset_after es cap idx)%nat).
    { unfold offset_after. destruct (last (take cap es)) as [e|] eqn:Hlast; [|lia]. apply last_Some in Hlast as [l Hl].
      enough (idx <= e.1)%nat by lia. rewrite Forall_forall in Hge. apply Hge. rewrite <- (take_drop cap es), Hl. set_solver. }
    replace (idx + (offset_after es cap idx - idx))%nat with (offset_after es cap idx) by lia.
    apply (resume (all_entries d) cap idx), all_entries_increasing.
Qed.

(** Reading a directory to its end, with a buffer for [cap] entries. *)
Fixpoint list_dir (fuel cap : nat) (fs : RamFS) (d : Z) (idx : nat) : list path :=
  match fuel with
  | O => []
  | S fuel' =>
      match ram_readdir_at (collect cap) fs d idx [] with
      | (Ok cnt, v) => if bool_decide (v = []) then [] else v ++ list_dir fuel' cap fs d (idx + cnt)
      | _ => []
      end
  end.

Lemma list_dir_from fs i x d cap fuel idx :
  ram_inv fs -> inodes fs !! i = Some x -> inner x = IDir d -> (0 < cap)%nat -> (length (entries_from d idx) < fuel)%nat ->
  list_dir fuel cap fs i idx = (fun e => e.2.1) <$> entries_from d idx.
Proof.
  intros Hinv Hx Hd Hcap. revert idx. induction fuel as [|fuel IH]; intros idx Hfuel; [lia|]. simpl.
  destruct (readdir_step fs i x d cap idx Hinv Hx Hd Hcap) as (cnt & -> & Hnext).
  destruct (entries_from d idx) as [|e es] eqn:Hes; [destruct cap; by rewrite bool_decide_eq_true_2|].
  rewrite bool_decide_eq_false_2 by (destruct cap; [lia|done]). rewrite IH; rewrite Hnext.
  - by rewrite <- fmap_app, take_drop.
  - rewrite length_drop. simpl in *. lia.
Qed.

(** C26: directories are listed completely.  In every state of the file system,
    reading a directory with a buffer of any size, call after call, gives [.],
    [..] and then the name of every entry exactly once, in order of their
    slots; a buffer that is too small for the rest ends a call, and the next
    call goes on where it ended. *)
Theorem readdir_complete ops i x d cap fuel :
  let fs := (run_ops ram_run ops ramfs_new).2 in
  Forall op_ok ops -> inodes fs !! i = Some x -> inner x = IDir d -> (0 < cap)%nat ->
  (2 + length (sv_iter (children d)) < fuel)%nat ->
  list_dir fuel cap fs i 0 = DOT :: DOTDOT :: (sv_iter (children d)).*1 /\ NoDup (sv_iter (children d)).*1.
Proof.
  intros fs Hops Hx Hd Hcap Hfuel. destruct (run_ops_sim ops ramfs_new ramfs_new_inv Hops) as [Hinv _]. fold fs in Hinv.
  assert (Hall : entries_from d 0 = all_entries d) by (unfold entries_from; apply skip_while_none; by apply Forall_forall).
  split.
  - rewrite (list_dir_from fs i x d cap fuel 0 Hinv Hx Hd Hcap), Hall; [apply all_entries_names|].
    rewrite Hall. pose proof (f_equal length (all_entries_names d)) as Hl. rewrite length_fmap in Hl. rewrite Hl. simpl.
    rewrite length_fmap. done.
  - destruct (abs_dir _ _ fs i x d (inv_nodes fs Hinv) Hx Hd) as (_ & _ & _ & Hok). apply Hok.
Qed.

(** Three entries, read two at a time. *)
Definition three_ops : list fs_op := [OpCreate 1 [97] Dir 493; OpCreate 1 [98] Dir 493; OpCreate 1 [99] Dir 493].

Lemma readdir_complete_witness :
  list_dir 6 2 (run_ops ram_run three_ops ramfs_new).2 1 0 = [DOT; DOTDOT; [97]; [98]; [99]] /\ NoDup [[97]; [98]; [99]].
Proof.
  apply (readdir_complete three_ops 1 _ _ 2 6) with (2 := eq_refl) (3 := eq_refl); [|lia|vm_compute; lia].
  repeat apply Forall_cons_2; try done; (split; [done|]; split; set_solver).
Defined.
