(* ===== verification/Dentry.v ===== *)
(** The dentry cache and the mount tree (kernel/aster-nix/src/fs/utils/dentry.rs
    and mount.rs).

    Dentries and mount nodes are named by numbers that are never used again;
    the inodes and the file systems behind them are the class [InodeOps] over a
    state [W].  A [Weak] reference can be upgraded while the global cache or a
    holder outside of it ([held]) keeps the dentry; the [this] and [mount_node]
    references of a dentry in use always can.  The recursions over mounts take
    the number of mounts as fuel, and running out of it is a panic, as an
    endless recursion is. *)

From S2P Require Import Prelude Perms PathLookup RamFs.

(** The trait [Inode], as the dentries use it. *)
Class InodeOps (W : Type) : Type := {
  i_type : Z -> W -> InodeType;
  i_is_executable : Z -> stM W Errno bool;
  i_create : Z -> path -> InodeType -> Z -> stM W Errno Z;
  i_mknod : Z -> path -> Z -> Device -> stM W Errno Z;
  i_lookup : Z -> path -> stM W Errno Z;
  i_link : Z -> Z -> path -> stM W Errno unit;
  i_unlink : Z -> path -> stM W Errno unit;
  i_rmdir : Z -> path -> stM W Errno unit;
  i_rename : Z -> path -> Z -> path -> stM W Errno unit;
  i_is_dentry_cacheable : Z -> bool;
}.

Notation DentryKey := (path * Z)%type.

Record Dentry : Type := MkDentry {
  dn_inode : Z;
  dn_name_and_parent : option (path * Z);
  dn_children : gmap path Z;
  dn_mount_node : Z;
  dn_mounted : bool;
}.

Record MountNode : Type := MkMount {
  mt_root_dentry : Z;
  mt_mountpoint_dentry : option Z;
  mt_children : gmap DentryKey Z;
}.

Record dworld (W : Type) : Type := MkWorld {
  fs_state : W;
  dentries : gmap Z Dentry;
  dcache : gmap DentryKey Z;
  mounts : gmap Z MountNode;
  next_id : Z;
  held : gset Z;
}.
Arguments MkWorld {W}.
Arguments fs_state {W}.
Arguments dentries {W}.
Arguments dcache {W}.
Arguments mounts {W}.
Arguments next_id {W}.
Arguments held {W}.

Section Dentries.
Context {W : Type} `{InodeOps W}.

Notation dentM := (stM (dworld W) Errno).

(** * State *)

Definition inode_op {A} (m : stM W Errno A) : dentM A := fun w =>
  let '(r, s) := m (fs_state w) in
  (r, MkWorld s (dentries w) (dcache w) (mounts w) (next_id w) (held w)).

Definition get_dentry (d : Z) : dentM Dentry := fun w =>
  match dentries w !! d with Some x => (Ok x, w) | None => (Panic, w) end.
Definition put_dentry (d : Z) (x : Dentry) : dentM unit := fun w =>
  (Ok tt, MkWorld (fs_state w) (<[d := x]> (dentries w)) (dcache w) (mounts w) (next_id w) (held w)).
Definition set_dcache (f : gmap DentryKey Z -> gmap DentryKey Z) : dentM unit := fun w =>
  (Ok tt, MkWorld (fs_state w) (dentries w) (f (dcache w)) (mounts w) (next_id w) (held w)).
Definition get_mount (m : Z) : dentM MountNode := fun w =>
  match mounts w !! m with Some x => (Ok x, w) | None => (Panic, w) end.
Definition put_mount (m : Z) (x : MountNode) : dentM unit := fun w =>
  (Ok tt, MkWorld (fs_state w) (dentries w) (dcache w) (<[m := x]> (mounts w)) (next_id w) (held w)).
Definition fresh_id : dentM Z := fun w =>
  (Ok (next_id w), MkWorld (fs_state w) (dentries w) (dcache w) (mounts w) (next_id w + 1) (held w)).

Definition upd_children (d : Z) (f : gmap path Z -> gmap path Z) : dentM unit :=
  let! x := get_dentry d in
  put_dentry d (MkDentry (dn_inode x) (dn_name_and_parent x) (f (dn_children x)) (dn_mount_node x) (dn_mounted x)).

(** [DentryKey::new] *)
Definition key_of (d : Z) (x : Dentry) : DentryKey :=
  match dn_name_and_parent x with Some np => np | None => ([SLASH], d) end.
Definition key (d : Z) : dentM DentryKey := let! x := get_dentry d in sret (key_of d x).

Definition inode_type_of (d : Z) : dentM InodeType :=
  let! x := get_dentry d in fun w => (Ok (i_type (dn_inode x) (fs_state w)), w).

(** [Weak::upgrade] *)
Definition upgrade (d : Z) (w : dworld W) : bool := bool_decide (d ∈ held w \/ d ∈ (map_to_list (dcache w)).*2).

(** * Dentries *)

(** [Dentry::new] *)
Definition new_dentry (inode : Z) (np : option (path * Z)) (mount_node : Z) : dentM Z :=
  let! d := fresh_id in
  put_dentry d (MkDentry inode np ∅ mount_node false) ;! sret d.

(** [Dentry::new] with [DentryOptions::Leaf] *)
Definition new_leaf (inode : Z) (name : path) (parent : Z) : dentM Z :=
  let! p := get_dentry parent in new_dentry inode (Some (name, parent)) (dn_mount_node p).

(** [Dentry::new_root] *)
Definition new_root (inode mount : Z) : dentM Z :=
  let! root := new_dentry inode None mount in
  let! k := key root in
  set_dcache (<[k := root]>) ;! sret root.

Definition name (d : Z) : dentM path :=
  let! x := get_dentry d in
  sret (match dn_name_and_parent x with Some (n, _) => n | None => [SLASH] end).

Definition parent_dentry (d : Z) : dentM (option Z) :=
  let! x := get_dentry d in sret (snd <$> dn_name_and_parent x).

Definition is_root_of_mount (x : Dentry) : bool := match dn_name_and_parent x with None => true | Some _ => false end.

(** [MountNode::get] *)
Definition mount_get (m : Z) (mountpoint : Z) : dentM (option Z) :=
  let! x := get_dentry mountpoint in
  if negb (dn_mount_node x =? m) then sret None
  else
    let! mn := get_mount m in
    sret (mt_children mn !! key_of mountpoint x).

Fixpoint overlaid_dentry (fuel : nat) (d : Z) : dentM Z :=
  match fuel with
  | O => spanic
  | S fuel' =>
      let! x := get_dentry d in
      if negb (dn_mounted x) then sret d
      else
        let! child := mount_get (dn_mount_node x) d in
        match child with
        | Some child_mount => let! mn := get_mount child_mount in overlaid_dentry fuel' (mt_root_dentry mn)
        | None => sret d
        end
  end.


Fixpoint effective_parent (fuel : nat) (d : Z) : dentM (option Z) :=
  match fuel with
  | O => spanic
  | S fuel' =>
      let! x := get_dentry d in
      if negb (is_root_of_mount x) then parent_dentry d
      else
        let! mn := get_mount (dn_mount_node x) in
        match mt_mountpoint_dentry mn with
        | Some self_mountpoint => effective_parent fuel' self_mountpoint
        | None => parent_dentry d
        end
  end.

(** Every turn of these recursions leaves one mount. *)
Definition mount_fuel : dentM nat := fun w => (Ok (S (base.size (mounts w))), w).

(** * The children of a directory *)

Definition insert_dentry (self : Z) (dentry : Z) : dentM unit :=
  let! x := get_dentry dentry in
  if negb (i_is_dentry_cacheable (dn_inode x)) then sret tt
  else
    let! k := key dentry in
    set_dcache (<[k := dentry]>) ;!
    let! n := name dentry in
    upd_children self (<[n := dentry]>).

Definition delete_dentry (self : Z) (n : path) : dentM (option Z) :=
  let! x := get_dentry self in
  upd_children self (delete n) ;!
  match dn_children x !! n with
  | None => sret None
  | Some d => fun w =>
      if upgrade d w then
        (let! k := key d in
         fun w => (Ok (dcache w !! k), (set_dcache (delete k) w).2)) w
      else (Ok None, w)
  end.

Definition find_dentry (self : Z) (n : path) : dentM (option Z) :=
  let! x := get_dentry self in
  match dn_children x !! n with
  | None => sret None
  | Some d => fun w => if upgrade d w then (Ok (Some d), w) else (upd_children self (delete n) ;! sret None) w
  end.

Definition find_dentry_with_checking_mountpoint (self : Z) (n : path) : dentM (option Z) :=
  let! dentry := find_dentry self n in
  match dentry with
  | None => sret None
  | Some d => let! x := get_dentry d in if dn_mounted x then serr EBUSY else sret (Some d)
  end.

(** * The operations *)

(** [create] and [mknod], with the call that makes the inode *)
Definition create_with (self : Z) (n : path) (make : Z -> stM W Errno Z) : dentM Z :=
  let! ty := inode_type_of self in
  if negb (bool_decide (ty = Dir)) then serr ENOTDIR
  else
    let! found := find_dentry self n in
    if bool_decide (is_Some found) then serr EEXIST
    else
      let! x := get_dentry self in
      let! inode := inode_op (make (dn_inode x)) in
      let! dentry := new_leaf inode n self in
      insert_dentry self dentry ;!
      sret dentry.

Definition create (self : Z) (n : path) (ty : InodeType) (mode : Z) : dentM Z :=
  create_with self n (fun i => i_create i n ty mode).
Definition mknod (self : Z) (n : path) (mode : Z) (device : Device) : dentM Z :=
  create_with self n (fun i => i_mknod i n mode device).

Definition dentry_lookup (self : Z) (n : path) : dentM Z :=
  let! ty := inode_type_of self in
  if negb (bool_decide (ty = Dir)) then serr ENOTDIR
  else
    let! x := get_dentry self in
    let! executable := inode_op (i_is_executable (dn_inode x)) in
    if negb executable then serr EACCES
    else if (NAME_MAX <? length n)%nat then serr ENAMETOOLONG
    else if bool_decide (n = DOT) then sret self
    else if bool_decide (n = DOTDOT) then
      let! fuel := mount_fuel in
      let! p := effective_parent fuel self in sret (default self p)
    else
      let! found := find_dentry self n in
      match found with
      | Some dentry => let! fuel := mount_fuel in overlaid_dentry fuel dentry
      | None =>
          let! inode := inode_op (i_lookup (dn_inode x) n) in
          let! dentry := new_leaf inode n self in
          insert_dentry self dentry ;!
          sret dentry
      end.

Definition link (self old : Z) (n : path) : dentM unit :=
  let! ty := inode_type_of self in
  if negb (bool_decide (ty = Dir)) then serr ENOTDIR
  else
    let! found := find_dentry self n in
    if bool_decide (is_Some found) then serr EEXIST
    else
      let! o := get_dentry old in
      let! x := get_dentry self in
      if negb (dn_mount_node o =? dn_mount_node x) then serr EXDEV
      else
        inode_op (i_link (dn_inode x) (dn_inode o) n) ;!
        let! dentry := new_leaf (dn_inode o) n self in
        insert_dentry self dentry.

(** [unlink] and [rmdir], with the call that removes the inode *)
Definition remove_with (self : Z) (n : path) (remove : Z -> stM W Errno unit) : dentM unit :=
  let! ty := inode_type_of self in
  if negb (bool_decide (ty = Dir)) then serr ENOTDIR
  else
    let! _ := find_dentry_with_checking_mountpoint self n in
    let! x := get_dentry self in
    inode_op (remove (dn_inode x)) ;!
    let! _ := delete_dentry self n in
    sret tt.

Definition unlink (self : Z) (n : path) : dentM unit := remove_with self n (fun i => i_unlink i n).
Definition rmdir (self : Z) (n : path) : dentM unit := remove_with self n (fun i => i_rmdir i n).

Definition set_name_and_parent (d : Z) (n : path) (parent : Z) : dentM unit :=
  let! x := get_dentry d in
  put_dentry d (MkDentry (dn_inode x) (Some (n, parent)) (dn_children x) (dn_mount_node x) (dn_mounted x)).

(** The part of [rename] after the checks; the two directories are the same
    or different dentries. *)
Definition rename_dentry (self : Z) (old_name : path) (new_dir : Z) (new_name : path) : dentM unit :=
  let! old_dentry := find_dentry_with_checking_mountpoint self old_name in
  let! _ := find_dentry_with_checking_mountpoint new_dir new_name in
  let! x := get_dentry self in
  let! y := get_dentry new_dir in
  inode_op (i_rename (dn_inode x) old_name (dn_inode y) new_name) ;!
  match old_dentry with
  | Some dentry =>
      let! _ := delete_dentry self old_name in
      set_name_and_parent dentry new_name new_dir ;!
      insert_dentry new_dir dentry
  | None => let! _ := delete_dentry new_dir new_name in sret tt
  end.

Definition rename (self : Z) (old_name : path) (new_dir : Z) (new_name : path) : dentM unit :=
  if is_dot old_name || is_dot new_name then serr EISDIR
  else
    let! ty := inode_type_of self in
    let! new_ty := inode_type_of new_dir in
    if negb (bool_decide (ty = Dir)) || negb (bool_decide (new_ty = Dir)) then serr ENOTDIR
    else if self =? new_dir then
      if bool_decide (old_name = new_name) then sret tt else rename_dentry self old_name new_dir new_name
    else
      let! x := get_dentry self in
      let! y := get_dentry new_dir in
      if negb (dn_mount_node x =? dn_mount_node y) then serr EXDEV
      else rename_dentry self old_name new_dir new_name.

Definition set_mounted (b : bool) (d : Z) : dentM unit :=
  let! x := get_dentry d in
  put_dentry d (MkDentry (dn_inode x) (dn_name_and_parent x) (dn_children x) (dn_mount_node x) b).

(** [MountNode::new]; [root_inode] is the root of the file system. *)
Definition mount_new (root_inode : Z) (mountpoint : option Z) : dentM Z :=
  let! m := fresh_id in
  let! root := new_root root_inode m in
  put_mount m (MkMount root mountpoint ∅) ;! sret m.

(** [MountNode::mount] *)
Definition mount_node_mount (m : Z) (root_inode : Z) (mountpoint : Z) : dentM Z :=
  let! x := get_dentry mountpoint in
  if negb (dn_mount_node x =? m) then serr EINVAL
  else
    let! ty := inode_type_of mountpoint in
    if negb (bool_decide (ty = Dir)) then serr ENOTDIR
    else
      let! k := key mountpoint in
      let! child_mount := mount_new root_inode (Some mountpoint) in
      let! mn := get_mount m in
      put_mount m (MkMount (mt_root_dentry mn) (mt_mountpoint_dentry mn) (<[k := child_mount]> (mt_children mn))) ;!
      sret child_mount.

(** [MountNode::umount] *)
Definition mount_node_umount (m : Z) (mountpoint : Z) : dentM Z :=
  let! x := get_dentry mountpoint in
  if negb (dn_mount_node x =? m) then serr EINVAL
  else
    let! k := key mountpoint in
    let! mn := get_mount m in
    match mt_children mn !! k with
    | None => serr ENOENT
    | Some child_mount =>
        put_mount m (MkMount (mt_root_dentry mn) (mt_mountpoint_dentry mn) (delete k (mt_children mn))) ;!
        sret child_mount
    end.

(** [Dentry::mount] *)
Definition mount (self : Z) (root_inode : Z) : dentM Z :=
  let! ty := inode_type_of self in
  if negb (bool_decide (ty = Dir)) then serr ENOTDIR
  else
    let! fuel := mount_fuel in
    let! p := effective_parent fuel self in
    match p with
    | None => serr EINVAL
    | Some _ =>
        let! x := get_dentry self in
        let! child_mount := mount_node_mount (dn_mount_node x) root_inode self in
        set_mounted true self ;!
        sret child_mount
    end.

(** [Dentry::umount] *)
Definition umount (self : Z) : dentM Z :=
  let! x := get_dentry self in
  if negb (is_root_of_mount x) then serr EINVAL
  else
    let! mn := get_mount (dn_mount_node x) in
    match mt_mountpoint_dentry mn with
    | None => serr EINVAL
    | Some mountpoint =>
        let! y := get_dentry mountpoint in
        let! child_mount := mount_node_umount (dn_mount_node y) mountpoint in
        set_mounted false mountpoint ;!
        sret child_mount
    end.



End Dentries.
