(* ===== verification/DentryFacts.v ===== *)
(** The dentry cache is transparent: with the cache in between, the directory
    operations do to the tree of the file system what they do without it. *)

From S2P Require Import Prelude Perms SlotVec PathLookup RamFs FsTree RamFsFacts RamFsSpec Dentry.

(** * What the dentries rely on *)

Definition fsim {W A} (inv : W -> Prop) (tr : W -> tree) (m : stM W Errno A) (spec : treeM A) (w : W) : Prop :=
  inv (m w).2 /\ spec (tr w) = ((m w).1, tr (m w).2).

(** A file system whose directory operations are those of the tree, and whose
    inodes do not disappear behind the cache. *)
Class InodeLaws (W : Type) `{InodeOps W} (fs_inv : W -> Prop) (fs_tree : W -> tree) : Prop := {
  law_wf w : fs_inv w -> tree_wf (fs_tree w);
  law_type i w ty : fs_inv w -> t_kind (fs_tree w) !! i = Some ty -> i_type i w = ty;
  law_executable i w : fs_inv w -> is_Some (t_kind (fs_tree w) !! i) -> exists b, i_is_executable i w = (Ok b, w);
  law_create d n ty mode w :
    fs_inv w -> utf8_valid n = true -> 0 ∉ n -> ty ∈ [File; SymLink; Socket; Dir] ->
    fsim fs_inv fs_tree (i_create d n ty mode) (tree_make d n ty) w;
  law_mknod d n mode device w :
    fs_inv w -> utf8_valid n = true -> 0 ∉ n -> device_type device <> Dir -> device_type device <> SymLink ->
    fsim fs_inv fs_tree (i_mknod d n mode device) (tree_make d n (device_type device)) w;
  law_lookup d n w : fs_inv w -> fsim fs_inv fs_tree (i_lookup d n) (tree_lookup d n) w;
  law_link d old n w : fs_inv w -> name_ok n -> fsim fs_inv fs_tree (i_link d old n) (tree_link d old n) w;
  law_unlink d n w : fs_inv w -> fsim fs_inv fs_tree (i_unlink d n) (tree_unlink d n) w;
  law_rmdir d n w : fs_inv w -> fsim fs_inv fs_tree (i_rmdir d n) (tree_rmdir d n) w;
  law_rename d n d' n' w :
    fs_inv w -> name_ok n' -> ~ (d = d' /\ n = n') -> fsim fs_inv fs_tree (i_rename d n d' n') (tree_rename d n d' n') w;
  law_name_len d n c w : fs_inv w -> entry (fs_tree w) d n = Some c -> (length n <= 255)%nat;
  law_cacheable i : i_is_dentry_cacheable i = true;
}.

(** The in-memory file system keeps these laws. *)
#[export] Instance ramfs_ops : InodeOps RamFS := {
  i_type i fs := match inodes fs !! i with Some x => type_ (metadata x) | None => File end;
  i_is_executable i := let! x := get_inode i in sret (Z.testbit (mode (metadata x)) 6);
  i_create := ram_create;
  i_mknod := ram_mknod;
  i_lookup := ram_lookup;
  i_link := ram_link;
  i_unlink := ram_unlink;
  i_rmdir := ram_rmdir;
  i_rename := ram_rename;
  i_is_dentry_cacheable := fun _ => true;
}.

#[export] Instance ramfs_laws : InodeLaws RamFS ram_inv abs.
Proof.
  split.
  - apply inv_tree.
  - intros i fs ty _ Hk. rewrite abs_kind in Hk. simpl. destruct (inodes fs !! i); [|done]. by injection Hk as <-.
  - intros i fs _ [ty Hk]. rewrite abs_kind in Hk. cbn -[sbind]. rewrite run_inode. destruct (inodes fs !! i); [|done]. by eexists.
  - intros. by apply ram_create_sim.
  - intros. by apply ram_mknod_sim.
  - intros. by apply ram_lookup_sim.
  - intros. by apply ram_link_sim.
  - intros. by apply ram_unlink_sim.
  - intros. by apply ram_rmdir_sim.
  - intros. by apply ram_rename_sim.
  - intros d n c fs Hinv He. pose proof (entry_is_dir _ _ _ _ (inv_tree fs Hinv) He) as Hd.
    destruct (node_dir _ _ fs d (inv_nodes fs Hinv) Hd) as (x & de & Hx & Hde & _ & Hok & _).
    rewrite (entry_dir fs _ _ d x de n (inv_nodes fs Hinv) Hx Hde), dir_map_elem in He by done.
    pose proof (dir_names de Hok) as Hall. rewrite Forall_forall in Hall. by destruct (Hall _ He) as [(_ & ? & _) _].
  - done.
Qed.

(** * The cache agrees with the tree *)

(** The cache as functions: the inode of a dentry, the children of a directory,
    the name and parent of a dentry, and the global cache. *)
Record cview : Type := MkView {
  v_ino : Z -> option Z;
  v_child : Z -> path -> option Z;
  v_np : Z -> option (path * Z);
  v_dc : DentryKey -> option Z;
  v_next : Z;
}.

Record coherent (t : tree) (v : cview) : Prop := {
  co_inode p i : v_ino v p = Some i -> is_Some (t_kind t !! i) /\ p < v_next v;
  co_child p n c :
    v_child v p n = Some c ->
    exists i j, v_ino v p = Some i /\ v_ino v c = Some j /\ v_np v c = Some (n, p) /\ v_dc v (n, p) = Some c /\
      entry t i n = Some j;
  co_unique a b i : v_ino v a = Some i -> v_ino v b = Some i -> t_kind t !! i = Some Dir -> a = b;
  co_linked c j i n :
    v_ino v c = Some j -> t_kind t !! j = Some Dir -> entry t i n = Some j ->
    exists p, v_ino v p = Some i /\ v_child v p n = Some c;
}.

Section Coherent.
Context (t : tree) (v v' : cview).
Hypothesis (Hwf : tree_wf t) (Hco : coherent t v).

(** A new entry of the tree; if it is a directory, it has no dentry yet. *)
Lemma co_add d n i :
  is_Some (t_dirs t !! d) -> entry t d n = None -> (t_kind t !! i = Some Dir -> forall c, v_ino v c <> Some i) ->
  coherent (set_entry d n (Some i) t) v.
Proof using Hco.
  intros Hd Hno Hi. split; [apply Hco|..|apply Hco|].
  - intros p m c Hc. destruct (co_child _ _ Hco p m c Hc) as (x & y & Hx & Hy & Hnp & Hdc & He). exists x, y.
    split_and!; try done. rewrite entry_set by done. case_decide as Hcase; [|done]. destruct Hcase as [-> ->]. congruence.
  - intros c j d0 m Hc Hk He. rewrite entry_set in He by done. case_decide as Hcase; [|by eapply (co_linked _ _ Hco)].
    injection He as ->. by destruct (Hi Hk c).
Qed.

(** A new inode without an entry *)
Lemma co_node ty p : t_kind t !! p = Some Dir -> coherent (add_node ty p t) v.
Proof using Hwf Hco.
  intros Hp. assert (Hkind : forall q i, v_ino v q = Some i -> t_kind (add_node ty p t) !! i = t_kind t !! i).
  { intros q i Hq. apply kind_add; [done|]. by apply (co_inode _ _ Hco q). }
  split.
  - intros q i Hq. rewrite (Hkind q i) by done. by apply (co_inode _ _ Hco).
  - intros q n c Hc. destruct (co_child _ _ Hco q n c Hc) as (i & j & H). exists i, j. by rewrite entry_add.
  - intros a b i Ha Hb Hk. rewrite (Hkind a i) in Hk by done. by eapply (co_unique _ _ Hco).
  - intros c j i n Hc Hk He. rewrite (Hkind c j) in Hk by done. rewrite entry_add in He by done. by eapply (co_linked _ _ Hco).
Qed.

(** A dentry for an entry that has none is put into the cache. *)
Lemma co_cache self d n i :
  v_ino v self = Some d -> entry t d n = Some i -> v_child v self n = None ->
  (forall p, v_ino v' p = if decide (p = v_next v) then Some i else v_ino v p) ->
  (forall p m, v_child v' p m = if decide (p = self /\ m = n) then Some (v_next v) else v_child v p m) ->
  (forall p, v_np v' p = if decide (p = v_next v) then Some (n, self) else v_np v p) ->
  (forall k, v_dc v' k = if decide (k = (n, self)) then Some (v_next v) else v_dc v k) ->
  v_next v' = v_next v + 1 -> coherent t v'.
Proof using Hwf Hco.
  intros Hself He Hnone Hino Hch Hnp Hdc Hnext. pose proof (entry_is_dir t _ _ _ Hwf He) as Hdir.
  assert (Hold : forall p j, v_ino v p = Some j -> v_ino v' p = Some j /\ v_np v' p = v_np v p).
  { intros p j Hp. pose proof (co_inode _ _ Hco p j Hp) as [_ Hlt]. rewrite Hino, Hnp, !decide_False by lia. done. }
  assert (Hnodir : t_kind t !! i = Some Dir -> forall c, v_ino v c <> Some i).
  { intros Hk c Hc. destruct (co_linked _ _ Hco c i d n Hc Hk He) as (p & Hp & Hpc).
    rewrite (co_unique _ _ Hco p self d Hp Hself Hdir) in Hpc. congruence. }
  split.
  - intros p j. rewrite Hino, Hnext. case_decide.
    + intros [= <-]. split; [by eapply entry_kind|lia].
    + intros Hp. apply (co_inode _ _ Hco) in Hp as [? ?]. split; [done|lia].
  - intros p m c. rewrite Hch. case_decide as Hcase.
    + destruct Hcase as [-> ->]. intros [= <-]. exists d, i. destruct (Hold self d Hself) as [Hs _].
      rewrite (Hino (v_next v)), Hnp, Hdc, !decide_True by done. done.
    + intros Hc. destruct (co_child _ _ Hco p m c Hc) as (x & y & Hx & Hy & Hcnp & Hcdc & Hent). exists x, y.
      destruct (Hold p x Hx) as [-> _], (Hold c y Hy) as [-> ->]. split_and!; try done.
      rewrite Hdc, decide_False; [done|]. intros [= -> ->]. tauto.
  - intros a b j. rewrite !Hino. repeat case_decide; intros Ha Hb Hk; simplify_eq.
    + done.
    + by destruct (Hnodir Hk b).
    + by destruct (Hnodir Hk a).
    + by eapply (co_unique _ _ Hco).
  - intros c j d0 m. rewrite Hino. case_decide as Hcn; intros Hc Hk Hent; simplify_eq.
    + destruct (entry_dir_unique t d n _ _ _ Hwf He Hent Hk) as [-> ->]. exists self. split; [by apply Hold|].
      rewrite Hch. by rewrite decide_True.
    + destruct (co_linked _ _ Hco c j d0 m Hc Hk Hent) as (p & Hp & Hpc). exists p. split; [by apply Hold|].
      rewrite Hch, decide_False; [done|]. intros [-> ->]. congruence.
Qed.

(** An entry and its dentry are removed. *)
Lemma co_remove self d n :
  v_ino v self = Some d -> t_kind t !! d = Some Dir ->
  (forall p, v_ino v' p = v_ino v p) -> (forall p, v_np v' p = v_np v p) -> v_next v' = v_next v ->
  (forall p m, v_child v' p m = if decide (p = self /\ m = n) then None else v_child v p m) ->
  (forall k, k <> (n, self) -> v_dc v' k = v_dc v k) -> coherent (set_entry d n None t) v'.
Proof using Hwf Hco.
  intros Hself Hdir Hino Hnp Hnext Hch Hdc. assert (Hd : is_Some (t_dirs t !! d)) by (by apply (wf_dirs t Hwf)).
  split.
  - intros p i. rewrite Hino, Hnext. apply (co_inode _ _ Hco).
  - intros p m c. rewrite Hch. case_decide as Hcase; [done|]. intros Hc.
    destruct (co_child _ _ Hco p m c Hc) as (x & y & Hx & Hy & Hcnp & Hcdc & Hent). exists x, y. rewrite !Hino, Hnp.
    split_and!; try done; [rewrite Hdc; [done|]; intros [= -> ->]; tauto|]. rewrite entry_set by done.
    case_decide as Hdn; [|done]. destruct Hdn as [-> ->]. rewrite (co_unique _ _ Hco p self d Hx Hself Hdir) in Hcase. tauto.
  - intros a b i. rewrite !Hino. apply (co_unique _ _ Hco).
  - intros c j i m. rewrite Hino. intros Hc Hk Hent. rewrite entry_set in Hent by done. case_decide as Hdn; [done|].
    destruct (co_linked _ _ Hco c j i m Hc Hk Hent) as (p & Hp & Hpc). exists p. rewrite Hino, Hch. split; [done|].
    rewrite decide_False; [done|]. intros [-> ->]. rewrite Hself in Hp. injection Hp as ->. tauto.
Qed.

Lemma entry_move d n d' n' src i m :
  is_Some (t_dirs t !! d) -> is_Some (t_dirs t !! d') ->
  entry (move d n d' n' src t) i m =
  if decide (i = d' /\ m = n') then Some src else if decide (i = d /\ m = n) then None else entry t i m.
Proof.
  intros Hd Hd'. assert (He : entry (set_entry d' n' (Some src) (set_entry d n None t)) i m =
    if decide (i = d' /\ m = n') then Some src else if decide (i = d /\ m = n) then None else entry t i m).
  { rewrite entry_set by (by apply dirs_set). case_decide; [done|]. by rewrite entry_set. }
  unfold move. repeat case_decide; exact He.
Qed.

Lemma kind_move d n d' n' src : t_kind (move d n d' n' src t) = t_kind t.
Proof. unfold move. by repeat case_decide. Qed.

(** An entry is renamed, with its dentry if it has one. *)
Lemma co_move self d n new_dir d' n' src :
  v_ino v self = Some d -> v_ino v new_dir = Some d' -> t_kind t !! d' = Some Dir -> entry t d n = Some src ->
  (forall p, v_ino v' p = v_ino v p) -> v_next v' = v_next v ->
  (forall p, v_np v' p = if decide (v_child v self n = Some p) then Some (n', new_dir) else v_np v p) ->
  (forall p m, v_child v' p m = if decide (p = new_dir /\ m = n') then v_child v self n
                                else if decide (p = self /\ m = n) then None else v_child v p m) ->
  (forall k, k <> (n, self) -> k <> (n', new_dir) -> v_dc v' k = v_dc v k) ->
  (forall c, v_child v self n = Some c -> v_dc v' (n', new_dir) = Some c) ->
  coherent (move d n d' n' src t) v'.
Proof using Hwf Hco.
  intros Hself Hnew Hdir' He Hino Hnext Hnp Hch Hdc Hdc'. pose proof (entry_is_dir t _ _ _ Hwf He) as Hdir.
  assert (Hd : is_Some (t_dirs t !! d)) by (by apply (wf_dirs t Hwf)).
  assert (Hd' : is_Some (t_dirs t !! d')) by (by apply (wf_dirs t Hwf)).
  split; try rewrite !kind_move.
  - intros p i. rewrite Hino, Hnext. apply (co_inode _ _ Hco).
  - intros p m c. rewrite Hch. case_decide as Hcase; [|case_decide as Hcase2; [done|]].
    + destruct Hcase as [-> ->]. intros Hc. destruct (co_child _ _ Hco self n c Hc) as (x & y & Hx & Hy & Hcnp & Hcdc & Hent).
      exists d', y. rewrite !Hino, Hnp, decide_True by done. split_and!; try done; [by apply Hdc'|].
      rewrite entry_move, decide_True by done. congruence.
    + intros Hc. destruct (co_child _ _ Hco p m c Hc) as (x & y & Hx & Hy & Hcnp & Hcdc & Hent).
      exists x, y. rewrite !Hino, Hnp. split_and!; try done.
      * rewrite decide_False; [done|]. intros Hsc. destruct (co_child _ _ Hco self n c Hsc) as (_ & _ & _ & _ & Hcnp' & _).
        rewrite Hcnp in Hcnp'. injection Hcnp' as -> ->. tauto.
      * rewrite Hdc; [done|intros [= -> ->]; tauto|intros [= -> ->]; tauto].
      * rewrite entry_move, !decide_False; [done|..]; try done; intros [-> ->].
        -- rewrite (co_unique _ _ Hco p self d Hx Hself Hdir) in Hcase2. tauto.
        -- rewrite (co_unique _ _ Hco p new_dir d' Hx Hnew Hdir') in Hcase. tauto.
  - intros a b i. rewrite !Hino. apply (co_unique _ _ Hco).
  - intros c j i m. rewrite Hino, entry_move by done. intros Hc Hk Hent.
    case_decide as Hcase; [|case_decide as Hcase2; [done|]].
    + destruct Hcase as [-> ->]. injection Hent as <-. destruct (co_linked _ _ Hco c src d n Hc Hk He) as (p & Hp & Hpc).
      exists new_dir. rewrite Hino, Hch, decide_True by done. split; [done|].
      by rewrite (co_unique _ _ Hco p self d Hp Hself Hdir) in Hpc.
    + destruct (co_linked _ _ Hco c j i m Hc Hk Hent) as (p & Hp & Hpc). exists p. rewrite Hino, Hch. split; [done|].
      rewrite !decide_False; [done|..]; intros [-> ->]; [rewrite Hself in Hp|rewrite Hnew in Hp]; injection Hp as ->; tauto.
Qed.

End Coherent.

(** * Running the operations on a coherent cache *)

Section Run.
Context {W : Type} `{InodeOps W} (fs_inv : W -> Prop) (fs_tree : W -> tree) `{!InodeLaws W fs_inv fs_tree} (m0 : Z).

Notation dentM := (stM (dworld W) Errno).
Notation tr w := (fs_tree (fs_state w)).
Implicit Types w : dworld W.

Definition view (w : dworld W) : cview :=
  MkView (fun p => dn_inode <$> dentries w !! p) (fun p n => dentries w !! p ≫= fun x => dn_children x !! n)
    (fun p => dentries w !! p ≫= dn_name_and_parent) (fun k => dcache w !! k) (next_id w).

(** One mount, on which nothing is mounted *)
Record dinv (w : dworld W) : Prop := {
  di_fs : fs_inv (fs_state w);
  di_co : coherent (tr w) (view w);
  di_mount p x : dentries w !! p = Some x -> dn_mounted x = false /\ dn_mount_node x = m0;
}.

Lemma di_wf w : dinv w -> tree_wf (tr w).
Proof using All. intros Hw. apply (law_wf (fs_inv := fs_inv) (fs_tree := fs_tree)), Hw. Qed.

Lemma run_get {A} w d x (k : Dentry -> dentM A) : dentries w !! d = Some x -> sbind (get_dentry d) k w = k x w.
Proof. intros Hx. unfold sbind, get_dentry. by rewrite Hx. Qed.

Lemma get_ok w d x : dentries w !! d = Some x -> get_dentry d w = (Ok x, w).
Proof. intros Hx. unfold get_dentry. by rewrite Hx. Qed.

Lemma view_ino w d x : dentries w !! d = Some x -> v_ino (view w) d = Some (dn_inode x).
Proof. intros Hx. simpl. by rewrite Hx. Qed.

Lemma view_child w d x n : dentries w !! d = Some x -> v_child (view w) d n = dn_children x !! n.
Proof. intros Hx. simpl. by rewrite Hx. Qed.

(** The inode of a dentry has a type. *)
Lemma run_itype {A} w d x (k : InodeType -> dentM A) :
  dinv w -> dentries w !! d = Some x ->
  exists ty, t_kind (tr w) !! dn_inode x = Some ty /\ sbind (inode_type_of d) k w = k ty w.
Proof using All.
  intros Hw Hx. destruct (co_inode _ _ (di_co w Hw) d (dn_inode x)) as [[ty Hty] _]; [by apply view_ino|].
  exists ty. split; [done|]. unfold inode_type_of, sbind, get_dentry. rewrite Hx. by erewrite law_type by (done || apply Hw).
Qed.

(** A child in the cache is alive. *)
Lemma run_find {A} w d x n (k : option Z -> dentM A) :
  dinv w -> dentries w !! d = Some x -> sbind (find_dentry d n) k w = k (dn_children x !! n) w.
Proof using All.
  intros Hw Hx. unfold find_dentry. rewrite <- (view_child w d x n Hx). unfold sbind at 1. rewrite (run_get w d x) by done.
  rewrite (view_child w d x n Hx). destruct (dn_children x !! n) as [c|] eqn:Hc; [|done].
  destruct (co_child _ _ (di_co w Hw) d n c) as (i & j & _ & _ & _ & Hdc & _); [by rewrite (view_child w d x)|].
  unfold upgrade. rewrite bool_decide_eq_true_2; [done|]. right. apply list_elem_of_fmap.
  exists ((n, d), c). split; [done|]. by apply elem_of_map_to_list.
Qed.

Lemma run_find_checking {A} w d x n (k : option Z -> dentM A) :
  dinv w -> dentries w !! d = Some x ->
  sbind (find_dentry_with_checking_mountpoint d n) k w = k (dn_children x !! n) w.
Proof using All.
  intros Hw Hx. unfold find_dentry_with_checking_mountpoint. rewrite sbind_assoc, (run_find w d x) by done.
  destruct (dn_children x !! n) as [c|] eqn:Hc; [|done].
  destruct (co_child _ _ (di_co w Hw) d n c) as (i & j & _ & Hj & _); [by rewrite (view_child w d x)|].
  simpl in Hj. destruct (dentries w !! c) as [y|] eqn:Hy; [|done]. rewrite sbind_assoc, (run_get w c y) by done.
  by destruct (di_mount w Hw c y Hy) as [-> _].
Qed.

Definition with_fs (s : W) (w : dworld W) : dworld W := MkWorld s (dentries w) (dcache w) (mounts w) (next_id w) (held w).

Lemma run_inode_op {A B} w (m : stM W Errno A) (k : A -> dentM B) :
  sbind (inode_op m) k w =
  match (m (fs_state w)).1 with
  | Ok a => k a (with_fs (m (fs_state w)).2 w)
  | Err e => (Err e, with_fs (m (fs_state w)).2 w)
  | Panic => (Panic, with_fs (m (fs_state w)).2 w)
  end.
Proof. unfold sbind, inode_op. by destruct (m (fs_state w)) as [[a|e|] s]. Qed.

(** The file system changed, the cache did not. *)
Lemma with_fs_dinv s w : dinv w -> fs_inv s -> coherent (fs_tree s) (view w) -> dinv (with_fs s w).
Proof. intros Hw Hs Hco. split; [done|done|apply Hw]. Qed.

Lemma with_fs_same s w : dinv w -> fs_inv s -> fs_tree s = tr w -> dinv (with_fs s w).
Proof. intros Hw Hs Ht. apply with_fs_dinv; [done|done|]. rewrite Ht. apply Hw. Qed.

(** The world with a new dentry for the entry [n] of [self] *)
Definition cache_w (self : Z) (x : Dentry) (n : path) (i : Z) w : dworld W :=
  MkWorld (fs_state w)
    (<[self := MkDentry (dn_inode x) (dn_name_and_parent x) (<[n := next_id w]> (dn_children x)) (dn_mount_node x) (dn_mounted x)]>
       (<[next_id w := MkDentry i (Some (n, self)) ∅ (dn_mount_node x) false]> (dentries w)))
    (<[(n, self) := next_id w]> (dcache w)) (mounts w) (next_id w + 1) (held w).

Lemma run_cache w self x n i :
  dinv w -> dentries w !! self = Some x ->
  exists w1, new_leaf i n self w = (Ok (next_id w), w1) /\ insert_dentry self (next_id w) w1 = (Ok tt, cache_w self x n i w).
Proof using All.
  intros Hw Hx. destruct (co_inode _ _ (di_co w Hw) self _ (view_ino w self x Hx)) as [_ Hlt]. simpl in Hlt.
  eexists. split; [unfold new_leaf; rewrite (run_get w self x) by done; reflexivity|]. unfold insert_dentry.
  erewrite run_get by (simpl; apply lookup_insert_eq). simpl. rewrite (law_cacheable (fs_inv := fs_inv) (fs_tree := fs_tree)). simpl.
  unfold key, name, upd_children, sbind, sret, get_dentry, set_dcache, put_dentry, key_of. simpl.
  rewrite !lookup_insert_eq. simpl. rewrite !lookup_insert_eq. simpl.
  rewrite lookup_insert_ne by lia. rewrite Hx. done.
Qed.

Lemma cache_dinv w self x n i :
  dinv w -> dentries w !! self = Some x -> entry (tr w) (dn_inode x) n = Some i -> dn_children x !! n = None ->
  dinv (cache_w self x n i w) /\ dn_inode <$> dentries (cache_w self x n i w) !! next_id w = Some i.
Proof using All.
  intros Hw Hx He Hno. destruct (co_inode _ _ (di_co w Hw) self _ (view_ino w self x Hx)) as [_ Hlt]. simpl in Hlt.
  assert (Hfresh : dentries w !! next_id w = None).
  { destruct (dentries w !! next_id w) as [y|] eqn:Hy; [|done].
    destruct (co_inode _ _ (di_co w Hw) _ _ (view_ino w _ y Hy)) as [_ ?]. simpl in *. lia. }
  split; [|simpl; rewrite lookup_insert_ne, lookup_insert_eq by lia; done]. split; [apply Hw| |].
  - apply (co_cache (tr w) (view w) _ (di_wf w Hw) (di_co w Hw) self (dn_inode x) n i); simpl; try done.
    + by rewrite Hx.
    + by rewrite Hx.
    + intros p. rewrite !lookup_insert. repeat case_decide; subst; try done; [lia|by rewrite Hx].
    + intros p m. destruct (decide (p = self)) as [->|Hp].
      * rewrite lookup_insert_eq, Hx. simpl. destruct (decide (m = n)) as [->|Hm].
        -- by rewrite lookup_insert_eq, decide_True.
        -- rewrite lookup_insert_ne by done. rewrite decide_False; [done|tauto].
      * rewrite lookup_insert_ne by done. rewrite decide_False by tauto. destruct (decide (p = next_id w)) as [->|Hpn].
        -- by rewrite lookup_insert_eq, Hfresh.
        -- by rewrite lookup_insert_ne.
    + intros p. rewrite !lookup_insert. repeat case_decide; subst; try done; [lia|by rewrite Hx].
    + intros k. rewrite lookup_insert. repeat case_decide; congruence.
  - intros p y. simpl. rewrite !lookup_insert. repeat case_decide; [intros [= <-]|intros [= <-]|apply Hw].
    + by apply (di_mount w Hw self x).
    + split; [done|]. by apply (di_mount w Hw self x).
Qed.

End Run.
