(* ===== verification/DentrySpec.v ===== *)
(** The operations on dentries, one by one, and the transparency of the cache. *)

From S2P Require Import Prelude Perms SlotVec PathLookup RamFs FsTree RamFsFacts RamFsSpec Dentry DentryFacts.

(** * What the operations do to the tree when they succeed *)

Lemma in_dir_inv {A} d (k : tree -> outcome Errno A * tree) t r t' :
  in_dir d k t = (r, t') -> (t_kind t !! d = Some Dir /\ k t = (r, t')) \/ (t' = t /\ forall a, r <> Ok a).
Proof.
  unfold in_dir. destruct (t_kind t !! d) as [[]|]; intros H; try (right; by simplify_eq). by left.
Qed.

Definition unchanged {A} (r : outcome Errno A) (t t' : tree) : Prop := t' = t /\ forall a, r <> Ok a.

Lemma make_inv d n ty t r t' :
  tree_make d n ty t = (r, t') ->
  (t_kind t !! d = Some Dir /\ entry t d n = None /\ r = Ok (t_next t) /\
   t' = set_entry d n (Some (t_next t)) (add_node ty d t)) \/ unchanged r t t'.
Proof.
  intros [[Hd H]|H]%in_dir_inv; [|by right]. destruct (NAME_MAX <? length n)%nat; [right; by simplify_eq|].
  destruct (is_dot n); [right; by simplify_eq|]. destruct (entry t d n); simplify_eq; [by right|by left].
Qed.

Lemma link_inv d old n t r t' :
  tree_link d old n t = (r, t') ->
  (t_kind t !! d = Some Dir /\ entry t d n = None /\ t_kind t !! old <> Some Dir /\ is_Some (t_kind t !! old) /\ r = Ok tt /\
   t' = set_entry d n (Some old) t) \/ unchanged r t t'.
Proof.
  intros [[Hd H]|H]%in_dir_inv; [|by right]. unfold kind_of in H. destruct (t_kind t !! old) as [ty|]; [|right; by simplify_eq].
  case_decide; [right; by simplify_eq|]. destruct (is_dot n); [right; by simplify_eq|].
  destruct (entry t d n); simplify_eq; [by right|]. left. split_and!; try done; congruence.
Qed.

Lemma unlink_inv d n t r t' :
  tree_unlink d n t = (r, t') -> (t_kind t !! d = Some Dir /\ r = Ok tt /\ t' = set_entry d n None t) \/ unchanged r t t'.
Proof.
  intros [[Hd H]|H]%in_dir_inv; [|by right]. destruct (is_dot n); [right; by simplify_eq|].
  destruct (entry t d n) as [c|]; [|right; by simplify_eq]. unfold kind_of in H.
  destruct (t_kind t !! c) as [ty|]; [|right; by simplify_eq]. case_decide; simplify_eq; [by right|by left].
Qed.

Lemma rmdir_inv d n t r t' :
  tree_rmdir d n t = (r, t') -> (t_kind t !! d = Some Dir /\ r = Ok tt /\ t' = set_entry d n None t) \/ unchanged r t t'.
Proof.
  intros [[Hd H]|H]%in_dir_inv; [|by right]. do 2 (destruct (bool_decide _); [right; by simplify_eq|]).
  destruct (entry t d n) as [c|]; [|right; by simplify_eq]. unfold kind_of in H.
  destruct (t_kind t !! c) as [ty|]; [|right; by simplify_eq]. destruct (negb _); [right; by simplify_eq|].
  destruct (negb _); simplify_eq; [by right|by left].
Qed.

Lemma rename_inv d n d' n' t r t' :
  tree_rename d n d' n' t = (r, t') ->
  (exists src, t_kind t !! d = Some Dir /\ t_kind t !! d' = Some Dir /\ entry t d n = Some src /\ r = Ok tt /\
   t' = move d n d' n' src t) \/ unchanged r t t'.
Proof.
  intros [[Hd H]|H]%in_dir_inv; [|by right]. apply in_dir_inv in H as [[Hd' H]|H]; [|by right].
  do 2 (destruct (is_dot _); [right; by simplify_eq|]). destruct (entry t d n) as [src|]; [|right; by simplify_eq].
  destruct (_ && _); [right; by simplify_eq|]. destruct (entry t d' n') as [dst|]; [|left; exists src; by simplify_eq].
  destruct (_ && _); [right; by simplify_eq|]. destruct (tree_replace t src dst) as [[]|e|]; simplify_eq; [|by right..].
  left. by exists src.
Qed.

Lemma lookup_inv d n t r t' :
  tree_lookup d n t = (r, t') -> is_dot n = false ->
  t' = t /\ ((exists c, t_kind t !! d = Some Dir /\ entry t d n = Some c /\ r = Ok c) \/ forall a, r <> Ok a).
Proof.
  intros H Hdot. destruct (is_dot_inv n Hdot) as [H1 H2]. apply in_dir_inv in H as [[Hd H]|[-> H]]; [|by auto].
  rewrite H1, H2 in H. destruct (entry t d n); simplify_eq; split; try done; [left; eauto|by right].
Qed.

(** * The operations *)

Section Ops.
Context {W : Type} `{InodeOps W} (fs_inv : W -> Prop) (fs_tree : W -> tree) `{!InodeLaws W fs_inv fs_tree} (m0 : Z).
Implicit Types w : dworld W.

Notation dentM := (stM (dworld W) Errno).
Notation tr w := (fs_tree (fs_state w)).
Notation dinv := (dinv fs_inv fs_tree m0).

Definition inode_of w (d : Z) : Z := default 0 (dn_inode <$> dentries w !! d).

(** The run [p] of an operation on dentries keeps the invariant, and the result
    of [spec] on the tree is its result, with dentries replaced by their inodes. *)
Definition dsim {A B} (res : A -> dworld W -> B) (p : outcome Errno A * dworld W) (q : outcome Errno B * tree) : Prop :=
  dinv p.2 /\ q = (match p.1 with Ok a => Ok (res a p.2) | Err e => Err e | Panic => Panic end, tr p.2).

Definition to_inode (c : Z) w : Z := inode_of w c.
Definition to_unit (u : unit) w : unit := u.

(** A failed call of the file system *)
Lemma dsim_fail {A B C} (res : A -> dworld W -> B) (r : outcome Errno C) (r' : outcome Errno A) q w s :
  dinv w -> fs_inv s -> unchanged r (tr w) (fs_tree s) ->
  r' = match r with Ok _ => Panic | Err e => Err e | Panic => Panic end ->
  q = (match r with Ok _ => Panic | Err e => Err e | Panic => Panic end, fs_tree s) ->
  dsim res (r', with_fs s w) q.
Proof.
  intros Hw Hs [Ht Hr] -> ->. split; [by apply with_fs_same|]. destruct r as [a|e|]; [by destruct (Hr a)|done|done].
Qed.

(** A dentry is made for a new entry of the tree. *)
Lemma add_dentry w s self x n i :
  dinv w -> fs_inv s -> coherent (fs_tree s) (view w) -> dentries w !! self = Some x ->
  entry (fs_tree s) (dn_inode x) n = Some i -> dn_children x !! n = None ->
  exists w2, (let! c := new_leaf i n self in insert_dentry self c ;! sret c) (with_fs s w) = (Ok (next_id w), w2) /\
    (let! c := new_leaf i n self in insert_dentry self c) (with_fs s w) = (Ok tt, w2) /\
    dinv w2 /\ inode_of w2 (next_id w) = i /\ tr w2 = fs_tree s.
Proof using All.
  intros Hw Hs Hco Hx He Hno. assert (Hw1 : dinv (with_fs s w)) by (by apply with_fs_dinv).
  destruct (run_cache fs_inv fs_tree m0 (with_fs s w) self x n i Hw1 Hx) as (w1 & H1 & H2).
  destruct (cache_dinv fs_inv fs_tree m0 (with_fs s w) self x n i Hw1 Hx He Hno) as [Hd Hi].
  exists (cache_w self x n i (with_fs s w)). 
  split; [erewrite sbind_ok by exact H1; by erewrite sbind_ok by exact H2|].
  split; [by erewrite sbind_ok by exact H1|]. split_and!; try done. unfold inode_of. simpl in Hi |- *. by rewrite Hi.
Qed.

(** A name in the cache is in the tree. *)
Lemma cached_entry w self x n c :
  dinv w -> dentries w !! self = Some x -> dn_children x !! n = Some c ->
  exists y, dentries w !! c = Some y /\ entry (tr w) (dn_inode x) n = Some (dn_inode y).
Proof using All.
  intros Hw Hx Hc. destruct (co_child _ _ (di_co _ _ _ w Hw) self n c) as (i & j & Hi & Hj & _ & _ & He);
    [by rewrite (view_child w self x)|]. rewrite (view_ino w self x Hx) in Hi. injection Hi as <-.
  simpl in Hj. destruct (dentries w !! c) as [y|]; [|done]. injection Hj as <-. eauto.
Qed.

Lemma fresh_coherent w self x n ty :
  dinv w -> dentries w !! self = Some x -> t_kind (tr w) !! dn_inode x = Some Dir -> entry (tr w) (dn_inode x) n = None ->
  coherent (set_entry (dn_inode x) n (Some (t_next (tr w))) (add_node ty (dn_inode x) (tr w))) (view w) /\
  entry (set_entry (dn_inode x) n (Some (t_next (tr w))) (add_node ty (dn_inode x) (tr w))) (dn_inode x) n = Some (t_next (tr w)).
Proof using All.
  intros Hw Hx Hty Hno. pose proof (di_wf fs_inv fs_tree m0 w Hw) as Hwf.
  assert (Hdirs : is_Some (t_dirs (add_node ty (dn_inode x) (tr w)) !! dn_inode x)).
  { apply (wf_dirs _ (add_node_wf ty _ _ Hwf Hty)). by rewrite kind_add by eauto. }
  split; [|by rewrite entry_set, decide_True]. apply co_add; [by apply co_node; [|apply Hw|]|done|by rewrite entry_add|].
  intros _ c Hc. apply (co_inode _ _ (di_co _ _ _ w Hw)) in Hc as [[ty' Hk] _]. by rewrite next_fresh in Hk.
Qed.

Lemma create_with_sim w self x n make ty :
  dinv w -> dentries w !! self = Some x ->
  fsim fs_inv fs_tree (make (dn_inode x)) (tree_make (dn_inode x) n ty) (fs_state w) ->
  dsim to_inode (create_with self n make w) (tree_make (dn_inode x) n ty (tr w)).
Proof using All.
  intros Hw Hx [Hfs Hm]. pose proof (di_wf fs_inv fs_tree m0 w Hw) as Hwf. unfold create_with.
  match goal with |- context [sbind (inode_type_of self) ?k w] =>
    destruct (run_itype fs_inv fs_tree m0 w self x k Hw Hx) as (ty0 & Hty & ->) end.
  destruct (decide (ty0 = Dir)) as [->|Hne].
  2:{ rewrite bool_decide_eq_false_2 by done. split; [done|]. unfold tree_make, in_dir. rewrite Hty. by destruct ty0. }
  rewrite bool_decide_eq_true_2 by done. cbn [negb]. rewrite (run_find fs_inv fs_tree m0 w self x) by done.
  destruct (dn_children x !! n) as [c|] eqn:Hc.
  { rewrite bool_decide_eq_true_2 by done. split; [done|]. simpl. destruct (cached_entry w self x n c Hw Hx Hc) as (y & _ & He).
    pose proof (law_name_len (fs_inv := fs_inv) _ _ _ _ (di_fs _ _ _ w Hw) He).
    destruct (wf_entry _ Hwf _ _ _ He) as (_ & Hdot & _). unfold tree_make, in_dir. rewrite Hty, Hdot, He.
    destruct (Nat.ltb_spec 255 (length n)); [lia|done]. }
  rewrite bool_decide_eq_false_2 by (by intros []). rewrite (run_get w self x), run_inode_op by done.
  destruct (make_inv _ _ _ _ _ _ Hm) as [(_ & Hno & Hr & Ht)|Hun].
  - rewrite Hr in *. destruct (fresh_coherent w self x n ty Hw Hx Hty Hno) as [Hco He]. rewrite <- Ht in Hco, He.
    destruct (add_dentry w _ self x n _ Hw Hfs Hco Hx He Hc) as (w2 & H1 & _ & Hw2 & Hi & Htr). rewrite H1.
    split; [done|]. rewrite Hm. simpl. unfold to_inode. by rewrite Hi, Htr.
  - pose proof Hun as [_ Hr]. destruct (make (dn_inode x) (fs_state w)) as [[a|e|] s] eqn:Hmk; simpl in *;
      [by destruct (Hr a)|by eapply dsim_fail|by eapply dsim_fail].
Qed.

(** ** Updates of the cache *)

Definition w_dentry (d : Z) (g : Dentry -> Dentry) w : dworld W :=
  MkWorld (fs_state w) (alter g d (dentries w)) (dcache w) (mounts w) (next_id w) (held w).
Definition dn_with_children (f : gmap path Z -> gmap path Z) (x : Dentry) : Dentry :=
  MkDentry (dn_inode x) (dn_name_and_parent x) (f (dn_children x)) (dn_mount_node x) (dn_mounted x).
Definition dn_with_np (np : path * Z) (x : Dentry) : Dentry :=
  MkDentry (dn_inode x) (Some np) (dn_children x) (dn_mount_node x) (dn_mounted x).
Definition w_child (d : Z) (f : gmap path Z -> gmap path Z) : dworld W -> dworld W := w_dentry d (dn_with_children f).
Definition w_np (d : Z) (np : path * Z) : dworld W -> dworld W := w_dentry d (dn_with_np np).
Definition w_dc (f : gmap DentryKey Z -> gmap DentryKey Z) w : dworld W :=
  MkWorld (fs_state w) (dentries w) (f (dcache w)) (mounts w) (next_id w) (held w).

Lemma put_alter w d x g : dentries w !! d = Some x -> put_dentry d (g x) w = (Ok tt, w_dentry d g w).
Proof.
  intros Hx. unfold put_dentry, w_dentry. repeat f_equal. apply map_eq. intros p. destruct (decide (p = d)) as [->|Hp].
  - by rewrite lookup_insert_eq, lookup_alter_eq, Hx.
  - by rewrite lookup_insert_ne, lookup_alter_ne.
Qed.

Lemma run_upd_children w d x f : dentries w !! d = Some x -> upd_children d f w = (Ok tt, w_child d f w).
Proof. intros Hx. unfold upd_children. rewrite (run_get w d x) by done. by apply (put_alter w d x (dn_with_children f)). Qed.

Lemma run_set_np w d x np : dentries w !! d = Some x -> set_name_and_parent d np.1 np.2 w = (Ok tt, w_np d np w).
Proof. intros Hx. unfold set_name_and_parent. rewrite (run_get w d x) by done. destruct np as [a b]. by apply (put_alter w d x (dn_with_np (a, b))). Qed.

Lemma view_np w c np p : is_Some (dentries w !! c) ->
  v_np (view (w_np c np w)) p = if decide (p = c) then Some np else v_np (view w) p.
Proof.
  intros [x Hx]. simpl. case_decide; [subst; by rewrite lookup_alter_eq, Hx|by rewrite lookup_alter_ne].
Qed.

Lemma view_child_w w d f p m :
  v_child (view (w_child d f w)) p m =
  if decide (p = d) then (dentries w !! d ≫= fun x => f (dn_children x) !! m) else v_child (view w) p m.
Proof.
  simpl. case_decide; [subst|by rewrite lookup_alter_ne]. rewrite lookup_alter_eq. by destruct (dentries w !! d).
Qed.

Lemma view_same_np w d f p : v_np (view (w_child d f w)) p = v_np (view w) p.
Proof.
  simpl. destruct (decide (p = d)) as [->|]; [|by rewrite lookup_alter_ne]. rewrite lookup_alter_eq. by destruct (dentries w !! d).
Qed.

Lemma view_ino_w w d g p : (forall x, dn_inode (g x) = dn_inode x) -> v_ino (view (w_dentry d g w)) p = v_ino (view w) p.
Proof.
  intros Hg. simpl. destruct (decide (p = d)) as [->|]; [|by rewrite lookup_alter_ne]. rewrite lookup_alter_eq.
  destruct (dentries w !! d); simpl; [by rewrite Hg|done].
Qed.

Lemma view_child_np w c np p m : v_child (view (w_np c np w)) p m = v_child (view w) p m.
Proof.
  simpl. destruct (decide (p = c)) as [->|]; [|by rewrite lookup_alter_ne]. rewrite lookup_alter_eq. by destruct (dentries w !! c).
Qed.

Lemma mounts_w w d g (P : Dentry -> Prop) :
  (forall x, P x -> P (g x)) -> (forall p x, dentries w !! p = Some x -> P x) ->
  forall p x, dentries (w_dentry d g w) !! p = Some x -> P x.
Proof.
  intros Hg Hw p x. simpl. destruct (decide (p = d)) as [->|]; [|rewrite lookup_alter_ne by done; apply Hw].
  rewrite lookup_alter_eq. destruct (dentries w !! d) as [y|] eqn:Hy; [|done]. intros [= <-]. by eapply Hg, Hw.
Qed.

(** [delete_dentry] on a cache that agrees with some tree *)
Definition w_delete (self : Z) (x : Dentry) (n : path) w : dworld W :=
  w_dc (if decide (is_Some (dn_children x !! n)) then delete (n, self) else id) (w_child self (delete n) w).

Lemma run_delete t w self x n :
  coherent t (view w) -> dentries w !! self = Some x -> exists r, delete_dentry self n w = (Ok r, w_delete self x n w).
Proof using All.
  intros Hco Hx. unfold delete_dentry. rewrite (run_get w self x) by done.
  erewrite sbind_ok by (by apply (run_upd_children w self x)). unfold w_delete.
  destruct (dn_children x !! n) as [c|] eqn:Hc; [|exists None; done].
  rewrite decide_True by eauto. destruct (co_child _ _ Hco self n c) as (i & j & _ & Hj & Hnp & Hdc & _);
    [by rewrite (view_child w self x)|]. unfold upgrade. rewrite bool_decide_eq_true_2.
  2:{ right. apply list_elem_of_fmap. exists ((n, self), c). split; [done|]. by apply elem_of_map_to_list. }
  rewrite <- (view_same_np w self (delete n)) in Hnp. simpl in Hnp. unfold key. rewrite sbind_assoc.
  destruct (dentries (w_child self (delete n) w) !! c) as [y|] eqn:Hy; simpl in Hy; rewrite Hy in Hnp; [|done].
  simpl in Hnp. rewrite (run_get _ c y) by done. unfold key_of. rewrite Hnp. eexists. reflexivity.
Qed.

Lemma view_delete w self x n :
  dentries w !! self = Some x ->
  (forall p, v_ino (view (w_delete self x n w)) p = v_ino (view w) p) /\
  (forall p, v_np (view (w_delete self x n w)) p = v_np (view w) p) /\
  (forall p m, v_child (view (w_delete self x n w)) p m = if decide (p = self /\ m = n) then None else v_child (view w) p m) /\
  (forall k, k <> (n, self) -> v_dc (view (w_delete self x n w)) k = v_dc (view w) k).
Proof.
  intros Hx. split_and!.
  - intros p. by apply (view_ino_w w self).
  - intros p. apply (view_same_np w self).
  - intros p m. etrans; [apply (view_child_w w self)|]. rewrite Hx. simpl. case_decide as Hp.
    + subst p. rewrite Hx. simpl. destruct (decide (m = n)) as [->|Hm]; [by rewrite lookup_delete_eq, decide_True|].
      rewrite lookup_delete_ne by done. rewrite decide_False; [done|tauto].
    + rewrite decide_False; [done|tauto].
  - intros k Hk. simpl. case_decide; [by apply lookup_delete_ne|done].
Qed.

Lemma delete_dinv w s self x n :
  dinv w -> dentries w !! self = Some x -> fs_inv s -> t_kind (tr w) !! dn_inode x = Some Dir ->
  fs_tree s = set_entry (dn_inode x) n None (tr w) -> dinv (w_delete self x n (with_fs s w)).
Proof using All.
  intros Hw Hx Hs Hk Ht. destruct (view_delete (with_fs s w) self x n Hx) as (Hino & Hnp & Hch & Hdc).
  split; [done| |].
  - simpl. rewrite Ht. apply (co_remove (tr w) (view w) _ (di_wf fs_inv fs_tree m0 w Hw) (di_co _ _ _ w Hw) self); try done.
    by apply view_ino.
  - apply (mounts_w w self (dn_with_children (delete n)) (fun x => dn_mounted x = false /\ dn_mount_node x = m0)); [done|apply Hw].
Qed.

(** [unlink] and [rmdir] *)
Lemma remove_with_sim w self x n remove (spec : treeM unit) :
  dinv w -> dentries w !! self = Some x ->
  fsim fs_inv fs_tree (remove (dn_inode x)) spec (fs_state w) ->
  (forall ty, t_kind (tr w) !! dn_inode x = Some ty -> ty <> Dir -> spec (tr w) = (Err ENOTDIR, tr w)) ->
  (forall r t', spec (tr w) = (r, t') ->
     (t_kind (tr w) !! dn_inode x = Some Dir /\ r = Ok tt /\ t' = set_entry (dn_inode x) n None (tr w)) \/ unchanged r (tr w) t') ->
  dsim to_unit (remove_with self n remove w) (spec (tr w)).
Proof using All.
  intros Hw Hx [Hfs Hm] Hnd Hinv. unfold remove_with.
  match goal with |- context [sbind (inode_type_of self) ?k w] =>
    destruct (run_itype fs_inv fs_tree m0 w self x k Hw Hx) as (ty0 & Hty & ->) end.
  destruct (decide (ty0 = Dir)) as [->|Hne]; [|rewrite bool_decide_eq_false_2 by done; split; [done|]; by apply (Hnd ty0)].
  rewrite bool_decide_eq_true_2 by done. cbn [negb]. rewrite (run_find_checking fs_inv fs_tree m0 w self x) by done.
  rewrite (run_get w self x), run_inode_op by done.
  destruct (Hinv _ _ Hm) as [(_ & Hr & Ht)|Hun].
  - rewrite Hr in *. destruct (run_delete (tr w) (with_fs (remove (dn_inode x) (fs_state w)).2 w) self x n) as (r & Hdel);
      [apply Hw|done|]. erewrite sbind_ok by exact Hdel. split; [by apply delete_dinv|by rewrite Hm].
  - pose proof Hun as [_ Hr]. destruct (remove (dn_inode x) (fs_state w)) as [[a|e|] s] eqn:Hmk; simpl in *;
      [by destruct (Hr a)|by eapply dsim_fail|by eapply dsim_fail].
Qed.

Lemma link_sim w self x old o n :
  dinv w -> dentries w !! self = Some x -> dentries w !! old = Some o -> name_ok n ->
  dsim to_unit (link self old n w)
    (if bool_decide (t_kind (tr w) !! dn_inode x = Some Dir) && bool_decide (t_kind (tr w) !! dn_inode o = Some Dir) &&
        bool_decide (is_Some (dn_children x !! n))
     then (Err EEXIST, tr w) else tree_link (dn_inode x) (dn_inode o) n (tr w)).
Proof using All.
  intros Hw Hx Ho Hn. pose proof (di_wf fs_inv fs_tree m0 w Hw) as Hwf.
  destruct (law_link (fs_inv := fs_inv) (fs_tree := fs_tree) (dn_inode x) (dn_inode o) n (fs_state w) (di_fs _ _ _ w Hw) Hn) as [Hfs Hm].
  destruct (co_inode _ _ (di_co _ _ _ w Hw) old _ (view_ino w old o Ho)) as [[oty Hok] _].
  unfold link. match goal with |- context [sbind (inode_type_of self) ?k w] =>
    destruct (run_itype fs_inv fs_tree m0 w self x k Hw Hx) as (ty0 & Hty & ->) end.
  destruct (decide (ty0 = Dir)) as [->|Hne].
  2:{ rewrite !bool_decide_eq_false_2 by congruence. split; [done|]. unfold tree_link, in_dir. rewrite Hty. by destruct ty0. }
  rewrite Hty, !(bool_decide_eq_true_2 (_ = _)) by done. cbn [negb andb]. rewrite (run_find fs_inv fs_tree m0 w self x) by done.
  destruct (dn_children x !! n) as [c|] eqn:Hc.
  { rewrite bool_decide_eq_true_2, andb_true_r by done. case_bool_decide as Hod; [done|]. split; [done|]. simpl.
    destruct (cached_entry w self x n c Hw Hx Hc) as (y & _ & He).
    destruct (wf_entry _ Hwf _ _ _ He) as (_ & Hdot & _). unfold tree_link, in_dir, kind_of. rewrite Hty, Hok, Hdot, He.
    case_decide; [congruence|done]. }
  rewrite bool_decide_eq_false_2, andb_false_r by (by intros []). rewrite (run_get w old o), (run_get w self x) by done.
  destruct (di_mount _ _ _ w Hw self x Hx) as [_ ->]. destruct (di_mount _ _ _ w Hw old o Ho) as [_ ->].
  rewrite Z.eqb_refl. cbn [negb]. rewrite run_inode_op. destruct (link_inv _ _ _ _ _ _ Hm) as [(_ & Hno & Hod & _ & Hr & Ht)|Hun].
  - rewrite Hr in *. assert (Hdirs : is_Some (t_dirs (tr w) !! dn_inode x)) by (by apply (wf_dirs _ Hwf)).
    destruct (add_dentry w (i_link (dn_inode x) (dn_inode o) n (fs_state w)).2 self x n (dn_inode o) Hw Hfs) as (w2 & _ & H2 & Hw2 & _ & Htr); try done.
    { rewrite Ht. apply co_add; [apply Hw|done|done|congruence]. }
    { by rewrite Ht, entry_set, decide_True. }
    rewrite H2. split; [done|]. rewrite Hm. simpl. by rewrite Htr.
  - pose proof Hun as [_ Hr]. destruct (i_link (dn_inode x) (dn_inode o) n (fs_state w)) as [[a|e|] s] eqn:Hmk; simpl in *;
      [by destruct (Hr a)|by eapply dsim_fail|by eapply dsim_fail].
Qed.

Lemma with_fs_id w : with_fs (fs_state w) w = w.
Proof. by destruct w. Qed.

Lemma lookup_sim w self x n :
  dinv w -> dentries w !! self = Some x -> is_dot n = false -> (length n <= 255)%nat ->
  i_is_executable (dn_inode x) (fs_state w) = (Ok true, fs_state w) ->
  dsim to_inode (dentry_lookup self n w) (tree_lookup (dn_inode x) n (tr w)).
Proof using All.
  intros Hw Hx Hdot Hlen Hexec. destruct (is_dot_inv n Hdot) as [Hd1 Hd2].
  destruct (law_lookup (fs_inv := fs_inv) (fs_tree := fs_tree) (dn_inode x) n (fs_state w) (di_fs _ _ _ w Hw)) as [Hfs Hm].
  unfold dentry_lookup. match goal with |- context [sbind (inode_type_of self) ?k w] =>
    destruct (run_itype fs_inv fs_tree m0 w self x k Hw Hx) as (ty0 & Hty & ->) end.
  destruct (decide (ty0 = Dir)) as [->|Hne].
  2:{ rewrite bool_decide_eq_false_2 by done. split; [done|]. unfold tree_lookup, in_dir. rewrite Hty. by destruct ty0. }
  rewrite bool_decide_eq_true_2 by done. cbn [negb]. rewrite (run_get w self x), run_inode_op, Hexec by done. cbn [fst snd negb].
  rewrite with_fs_id. destruct (Nat.ltb_spec 255 (length n)); [lia|]. rewrite Hd1, Hd2.
  rewrite (run_find fs_inv fs_tree m0 w self x) by done. destruct (dn_children x !! n) as [c|] eqn:Hc.
  - destruct (cached_entry w self x n c Hw Hx Hc) as (y & Hy & He). unfold mount_fuel, sbind at 1. cbn [overlaid_dentry].
    rewrite (run_get w c y) by done. destruct (di_mount _ _ _ w Hw c y Hy) as [-> _]. split; [done|].
    unfold tree_lookup, in_dir. rewrite Hty, Hd1, Hd2, He. simpl. unfold to_inode, inode_of. by rewrite Hy.
  - rewrite run_inode_op. destruct (lookup_inv _ _ _ _ _ Hm Hdot) as [Ht [(c & _ & He & Hr)|Hr]].
    + rewrite Hr in *. destruct (add_dentry w (i_lookup (dn_inode x) n (fs_state w)).2 self x n c Hw Hfs) as (w2 & H2 & _ & Hw2 & Hi & Htr); try done.
      { rewrite Ht. apply Hw. }
      { by rewrite Ht. }
      rewrite H2. split; [done|]. rewrite Hm. simpl. unfold to_inode. by rewrite Hi, Htr.
    + destruct (i_lookup (dn_inode x) n (fs_state w)) as [[a|e|] s] eqn:Hmk; simpl in *;
        [by destruct (Hr a)|by eapply dsim_fail|by eapply dsim_fail].
Qed.

(** ** Renaming *)

(** The dentry [c] moves from the name [n] of [self] to the name [n'] of [new_dir]. *)
Definition w_move (self : Z) (x : Dentry) (n : path) (new_dir : Z) (n' : path) (c : Z) w : dworld W :=
  w_child new_dir (<[n' := c]>) (w_dc (<[(n', new_dir) := c]>) (w_np c (n', new_dir) (w_delete self x n w))).

Lemma delete_some w self x n p : is_Some (dentries (w_delete self x n w) !! p) <-> is_Some (dentries w !! p).
Proof. simpl. rewrite lookup_alter. case_decide; [subst; by rewrite fmap_is_Some|done]. Qed.

Lemma np_some w c np p : is_Some (dentries (w_np c np w) !! p) <-> is_Some (dentries w !! p).
Proof. simpl. rewrite lookup_alter. case_decide; [subst; by rewrite fmap_is_Some|done]. Qed.

Lemma run_insert w new_dir c n' :
  is_Some (dentries w !! c) -> is_Some (dentries w !! new_dir) ->
  insert_dentry new_dir c (w_np c (n', new_dir) w) =
  (Ok tt, w_child new_dir (<[n' := c]>) (w_dc (<[(n', new_dir) := c]>) (w_np c (n', new_dir) w))).
Proof using All.
  intros Hc Hnew. assert (Hy : exists y, dentries (w_np c (n', new_dir) w) !! c = Some y /\ dn_name_and_parent y = Some (n', new_dir)).
  { destruct Hc as [y0 Hy0]. simpl. rewrite lookup_alter_eq, Hy0. simpl. eauto. }
  destruct Hy as (y & Hy & Hnp). apply (np_some w c (n', new_dir)) in Hnew as [z Hz].
  unfold insert_dentry. rewrite (run_get _ c y) by done. rewrite (law_cacheable (fs_inv := fs_inv) (fs_tree := fs_tree)). cbn [negb].
  unfold key at 1. rewrite sbind_assoc, (run_get _ c y) by done. unfold key_of. rewrite Hnp.
  erewrite sbind_ok by reflexivity. erewrite sbind_ok by reflexivity. unfold name. rewrite sbind_assoc, (run_get _ c y) by done.
  rewrite Hnp. erewrite sbind_ok by reflexivity. by apply (run_upd_children _ new_dir z).
Qed.

Lemma run_move t w self x n new_dir n' c :
  coherent t (view w) -> dentries w !! self = Some x -> is_Some (dentries w !! c) -> is_Some (dentries w !! new_dir) ->
  (let! _ := delete_dentry self n in set_name_and_parent c n' new_dir ;! insert_dentry new_dir c) w =
  (Ok tt, w_move self x n new_dir n' c w).
Proof using All.
  intros Hco Hx Hc Hnew. destruct (run_delete t w self x n Hco Hx) as (r & Hdel). erewrite sbind_ok by exact Hdel.
  apply (delete_some w self x n) in Hc, Hnew. destruct Hc as [y Hy].
  erewrite sbind_ok by (by apply (run_set_np _ c y (n', new_dir))). apply run_insert; eauto.
Qed.

Lemma move_dinv w s self x n new_dir z n' c src :
  dinv w -> dentries w !! self = Some x -> dentries w !! new_dir = Some z -> dn_children x !! n = Some c -> fs_inv s ->
  entry (tr w) (dn_inode x) n = Some src -> t_kind (tr w) !! dn_inode z = Some Dir ->
  fs_tree s = move (dn_inode x) n (dn_inode z) n' src (tr w) -> dinv (w_move self x n new_dir n' c (with_fs s w)).
Proof using All.
  intros Hw Hx Hz Hc Hs He Hkz Ht. set (w0 := with_fs s w). destruct (view_delete w0 self x n Hx) as (Hino & Hnp & Hch & Hdc).
  destruct (cached_entry w self x n c Hw Hx Hc) as (y & Hy & _).
  assert (Hcs : is_Some (dentries (w_delete self x n w0) !! c)) by (apply delete_some; eauto).
  assert (Hns : is_Some (dentries (w_np c (n', new_dir) (w_delete self x n w0)) !! new_dir)) by (apply np_some, delete_some; eauto).
  assert (Hsc : v_child (view w) self n = Some c) by (by rewrite (view_child w self x)).
  split; [done| |].
  - simpl. rewrite Ht. apply (co_move (tr w) (view w) _ (di_wf fs_inv fs_tree m0 w Hw) (di_co _ _ _ w Hw) self (dn_inode x) n new_dir (dn_inode z) n' src);
      try done; [by apply view_ino|by apply view_ino|..].
    + intros p. unfold w_move. etrans; [by apply view_ino_w|]. change (v_ino (view (w_dc ?f ?w1)) p) with (v_ino (view w1) p).
      etrans; [by apply (view_ino_w _ c)|]. apply Hino.
    + intros p. unfold w_move. rewrite view_same_np. change (v_np (view (w_dc ?f ?w1)) p) with (v_np (view w1) p).
      rewrite view_np by done. rewrite Hnp.
      repeat case_decide; done || congruence.
    + intros p m. unfold w_move. rewrite view_child_w. case_decide as Hp.
      * subst p. destruct Hns as [z' Hz']. change (dentries (w_dc _ ?w1)) with (dentries w1). rewrite Hz'. simpl.
        destruct (decide (m = n')) as [->|Hm]; [by rewrite lookup_insert_eq, decide_True|]. rewrite lookup_insert_ne by done.
        rewrite decide_False by tauto. rewrite <- Hch, <- (view_child_np _ c (n', new_dir)). by rewrite (view_child _ new_dir z').
      * rewrite decide_False by tauto. change (v_child (view (w_dc ?f ?w1)) p m) with (v_child (view w1) p m).
        rewrite view_child_np. apply Hch.
    + intros k Hk1 Hk2. simpl. rewrite lookup_insert_ne by done. by apply Hdc.
    + intros c' Hc'. rewrite Hsc in Hc'. injection Hc' as <-. simpl. apply lookup_insert_eq.
  - unfold w_move. set (P := fun x => dn_mounted x = false /\ dn_mount_node x = m0).
    apply (mounts_w _ new_dir _ P); [done|]. apply (mounts_w _ c _ P); [done|]. apply (mounts_w _ self _ P); [done|apply Hw].
Qed.

(** The entry that moved has no dentry; that of the entry it replaces goes. *)
Lemma forget_dinv w s self x n new_dir z n' src :
  dinv w -> dentries w !! self = Some x -> dentries w !! new_dir = Some z -> dn_children x !! n = None -> fs_inv s ->
  entry (tr w) (dn_inode x) n = Some src -> t_kind (tr w) !! dn_inode z = Some Dir ->
  fs_tree s = move (dn_inode x) n (dn_inode z) n' src (tr w) -> dinv (w_delete new_dir z n' (with_fs s w)).
Proof using All.
  intros Hw Hx Hz Hc Hs He Hkz Ht. destruct (view_delete (with_fs s w) new_dir z n' Hz) as (Hino & Hnp & Hch & Hdc).
  assert (Hsc : v_child (view w) self n = None) by (by rewrite (view_child w self x)).
  split; [done| |].
  - simpl. rewrite Ht. apply (co_move (tr w) (view w) _ (di_wf fs_inv fs_tree m0 w Hw) (di_co _ _ _ w Hw) self (dn_inode x) n new_dir (dn_inode z) n' src);
      try done; [by apply view_ino|by apply view_ino|..]; rewrite ?Hsc; try done.
    + intros p m. rewrite Hch. case_decide; [done|]. case_decide as Hsn; [|done]. destruct Hsn as [-> ->]. done.
    + intros k _ Hk. by apply Hdc.
  - apply (mounts_w w new_dir (dn_with_children (delete n')) (fun x => dn_mounted x = false /\ dn_mount_node x = m0)); [done|apply Hw].
Qed.

Lemma rename_dentry_sim w self x n new_dir z n' :
  dinv w -> dentries w !! self = Some x -> dentries w !! new_dir = Some z ->
  t_kind (tr w) !! dn_inode x = Some Dir -> name_ok n' -> ~ (self = new_dir /\ n = n') ->
  dsim to_unit (rename_dentry self n new_dir n' w) (tree_rename (dn_inode x) n (dn_inode z) n' (tr w)).
Proof using All.
  intros Hw Hx Hz Hkx Hn' Hne.
  assert (Hne' : ~ (dn_inode x = dn_inode z /\ n = n')).
  { intros [Hi ->]. apply Hne. split; [|done]. apply (co_unique _ _ (di_co _ _ _ w Hw) self new_dir (dn_inode x)); [by apply view_ino| |done].
    rewrite Hi. by apply view_ino. }
  destruct (law_rename (fs_inv := fs_inv) (fs_tree := fs_tree) (dn_inode x) n (dn_inode z) n' (fs_state w) (di_fs _ _ _ w Hw) Hn' Hne') as [Hfs Hm].
  unfold rename_dentry. rewrite (run_find_checking fs_inv fs_tree m0 w self x) by done.
  rewrite (run_find_checking fs_inv fs_tree m0 w new_dir z) by done.
  rewrite (run_get w self x), (run_get w new_dir z), run_inode_op by done.
  destruct (rename_inv _ _ _ _ _ _ _ Hm) as [(src & _ & Hkz & He & Hr & Ht)|Hun].
  - rewrite Hr in *. set (s := (i_rename _ _ _ _ _).2) in *. destruct (dn_children x !! n) as [c|] eqn:Hc.
    + destruct (cached_entry w self x n c Hw Hx Hc) as (y & Hy & _).
      rewrite (run_move (tr w) (with_fs s w) self x n new_dir n' c); [|apply Hw|done|by eauto|by eauto].
      split; [by eapply (move_dinv w s self x n new_dir z n' c src)|by rewrite Hm].
    + destruct (run_delete (tr w) (with_fs s w) new_dir z n') as (r & Hdel); [apply Hw|done|]. erewrite sbind_ok by exact Hdel.
      split; [by eapply (forget_dinv w s self x n new_dir z n' src)|by rewrite Hm].
  - pose proof Hun as [_ Hr]. destruct (i_rename (dn_inode x) n (dn_inode z) n' (fs_state w)) as [[a|e|] s] eqn:Hmk; simpl in *;
      [by destruct (Hr a)|by eapply dsim_fail|by eapply dsim_fail].
Qed.

Lemma rename_sim w self x n new_dir z n' :
  dinv w -> dentries w !! self = Some x -> dentries w !! new_dir = Some z ->
  is_dot n = false -> is_dot n' = false -> name_ok n' -> ~ (self = new_dir /\ n = n') ->
  dsim to_unit (rename self n new_dir n' w) (tree_rename (dn_inode x) n (dn_inode z) n' (tr w)).
Proof using All.
  intros Hw Hx Hz Hdot Hdot' Hn' Hne. unfold rename. rewrite Hdot, Hdot'. cbn [orb].
  match goal with |- context [sbind (inode_type_of self) ?k w] =>
    destruct (run_itype fs_inv fs_tree m0 w self x k Hw Hx) as (ty & Hty & ->) end.
  match goal with |- context [sbind (inode_type_of new_dir) ?k w] =>
    destruct (run_itype fs_inv fs_tree m0 w new_dir z k Hw Hz) as (tz & Htz & ->) end.
  destruct (decide (ty = Dir)) as [->|Hnx].
  2:{ rewrite bool_decide_eq_false_2 by done. split; [done|]. unfold tree_rename, in_dir. rewrite Hty. by destruct ty. }
  destruct (decide (tz = Dir)) as [->|Hnz].
  2:{ rewrite (bool_decide_eq_false_2 (tz = Dir)) by done. split; [done|]. unfold tree_rename, in_dir. rewrite Hty, Htz. by destruct tz. }
  rewrite bool_decide_eq_true_2 by done. cbn [negb orb]. destruct (Z.eqb_spec self new_dir) as [Heq|Hsd].
  - rewrite bool_decide_eq_false_2 by tauto. by apply rename_dentry_sim.
  - rewrite (run_get w self x), (run_get w new_dir z) by done.
    destruct (di_mount _ _ _ w Hw self x Hx) as [_ ->]. destruct (di_mount _ _ _ w Hw new_dir z Hz) as [_ ->].
    rewrite Z.eqb_refl. by apply rename_dentry_sim.
Qed.

End Ops.
