(* ===== verification/DentryProps.v ===== *)
(** The dentry cache is transparent, and mounting hides a directory until it
    is unmounted. *)

From S2P Require Import Prelude Perms SlotVec PathLookup RamFs FsTree RamFsFacts RamFsSpec Dentry DentryFacts DentrySpec.

Section Transparent.
Context {W : Type} `{InodeOps W} (fs_inv : W -> Prop) (fs_tree : W -> tree) `{!InodeLaws W fs_inv fs_tree}.
Implicit Types w : dworld W.

Notation tr w := (fs_tree (fs_state w)).

(** The operations on dentries *)
Definition dentry_run (op : fs_op) : stM (dworld W) Errno Z :=
  match op with
  | OpCreate d n ty mode => create d n ty mode
  | OpMknod d n mode device => mknod d n mode device
  | OpLink d old n => unit_op (link d old n)
  | OpUnlink d n => unit_op (unlink d n)
  | OpRmdir d n => unit_op (rmdir d n)
  | OpLookup d n => dentry_lookup d n
  | OpRename d n d' n' => unit_op (rename d n d' n')
  end.

(** The same operation on the inodes of the dentries, and the inode of the
    dentry that an operation returns *)
Definition on_inodes w (op : fs_op) : fs_op :=
  match op with
  | OpCreate d n ty mode => OpCreate (inode_of w d) n ty mode
  | OpMknod d n mode device => OpMknod (inode_of w d) n mode device
  | OpLink d old n => OpLink (inode_of w d) (inode_of w old) n
  | OpUnlink d n => OpUnlink (inode_of w d) n
  | OpRmdir d n => OpRmdir (inode_of w d) n
  | OpLookup d n => OpLookup (inode_of w d) n
  | OpRename d n d' n' => OpRename (inode_of w d) n (inode_of w d') n'
  end.

Definition result_inode (op : fs_op) (r : outcome Errno Z) w : outcome Errno Z :=
  match op, r with
  | (OpCreate _ _ _ _ | OpMknod _ _ _ _ | OpLookup _ _), Ok c => Ok (inode_of w c)
  | _, _ => r
  end.

(** Whether the directory [d] may be searched, and whether a name of it is in the
    cache *)
Definition searchable w (d : Z) : bool :=
  match (i_is_executable (inode_of w d) (fs_state w)).1 with Ok b => b | _ => false end.
Definition in_cache w (d : Z) (n : path) : bool :=
  match dentries w !! d with Some x => bool_decide (is_Some (dn_children x !! n)) | None => false end.

(** The operation on the tree, after the checks that the dentries make: a
    lookup needs permission to search and a name of at most 255 bytes, a rename
    refuses dots before anything else and does nothing when the names are the
    same, and a link to a directory under a name in the cache finds the name
    first. *)
Definition vfs_run w (op : fs_op) : treeM Z := fun t =>
  let dir d := bool_decide (t_kind t !! inode_of w d = Some Dir) in
  match op with
  | OpLookup d n =>
      if dir d && negb (searchable w d) then (Err EACCES, t)
      else if dir d && (255 <? length n)%nat then (Err ENAMETOOLONG, t)
      else tree_run (on_inodes w op) t
  | OpLink d old n =>
      if dir d && dir old && in_cache w d n then (Err EEXIST, t) else tree_run (on_inodes w op) t
  | OpRename d n d' n' =>
      if is_dot n || is_dot n' then (Err EISDIR, t)
      else if dir d && (d =? d') && bool_decide (n = n') then (Ok 0, t)
      else tree_run (on_inodes w op) t
  | _ => tree_run (on_inodes w op) t
  end.

(** The dentries exist, and the names are as in [op_ok]; a lookup is not one of
    "..", which the dentries answer from the parent's dentry. *)
Definition dop_ok w (op : fs_op) : Prop :=
  Forall (fun d => is_Some (dentries w !! d)) (op_inodes op) /\
  match op with
  | OpLookup d n => n <> DOTDOT
  | OpRename _ _ _ n' => name_ok n'
  | _ => op_ok op
  end.

(** The root mount of a file system *)
Definition dworld_new (s : W) : dworld W := (mount_new ROOT_INO None (MkWorld s ∅ ∅ ∅ 0 ∅)).2.

Definition dstep w w' : Prop := exists op, dop_ok w op /\ w' = (dentry_run op w).2.

Lemma dworld_new_eq s :
  dworld_new s = MkWorld s {[1 := MkDentry ROOT_INO None ∅ 0 false]} {[([SLASH], 1) := 1]} {[0 := MkMount 1 None ∅]} 2 ∅.
Proof. reflexivity. Qed.

Lemma dworld_new_inv s : fs_inv s -> dinv fs_inv fs_tree 0 (dworld_new s).
Proof using All.
  intros Hs. pose proof (law_wf (fs_inv := fs_inv) s Hs) as Hwf.
  assert (Hds : forall p x, dentries (dworld_new s) !! p = Some x -> p = 1 /\ x = MkDentry ROOT_INO None ∅ 0 false).
  { intros p x. rewrite dworld_new_eq. cbn [dentries]. rewrite lookup_singleton. case_decide; [by intros [= <-]|done]. }
  split; [done| |intros p x Hx; by destruct (Hds p x Hx) as [-> ->]].
  change (fs_state (dworld_new s)) with s. split; cbn -[dworld_new].
  - intros p i. destruct (dentries _ !! p) as [x|] eqn:Hx; [|done]. destruct (Hds p x Hx) as [-> ->]. intros [= <-].
    split; [by rewrite (wf_root _ Hwf)|done].
  - intros p n c. destruct (dentries _ !! p) as [x|] eqn:Hx; [|done]. destruct (Hds p x Hx) as [-> ->]. done.
  - intros a b i. destruct (dentries _ !! a) as [x|] eqn:Hx; [|done]. destruct (dentries _ !! b) as [y|] eqn:Hy; [|done].
    destruct (Hds a x Hx) as [-> _], (Hds b y Hy) as [-> _]. done.
  - intros c j i n. destruct (dentries _ !! c) as [x|] eqn:Hx; [|done]. destruct (Hds c x Hx) as [-> ->]. intros [= <-] _ He.
    by destruct (wf_entry _ Hwf _ _ _ He) as (_ & _ & ?).
Qed.

Lemma dsim_unit m0 (m : stM (dworld W) Errno unit) (spec : treeM unit) w :
  dsim fs_inv fs_tree m0 to_unit (m w) (spec (tr w)) ->
  dinv fs_inv fs_tree m0 (unit_op m w).2 /\ unit_op spec (tr w) = ((unit_op m w).1, tr (unit_op m w).2).
Proof.
  intros [Hw Hs]. unfold unit_op, sbind. rewrite Hs. destruct (m w) as [[[]|e|] w']; done.
Qed.

Lemma inode_of_eq w d x : dentries w !! d = Some x -> inode_of w d = dn_inode x.
Proof. unfold inode_of. by intros ->. Qed.

(** The operations whose checks the dentries make *)
Lemma lookup_checked m0 w d x n :
  dinv fs_inv fs_tree m0 w -> dentries w !! d = Some x -> n <> DOTDOT ->
  dsim fs_inv fs_tree m0 to_inode (dentry_lookup d n w) (vfs_run w (OpLookup d n) (tr w)).
Proof using All.
  intros Hw Hx Hn. unfold vfs_run, searchable. cbn [on_inodes tree_run]. rewrite (inode_of_eq w d x Hx).
  destruct (co_inode _ _ (di_co _ _ _ w Hw) d _ (view_ino w d x Hx)) as [[ty Hty] _].
  destruct (law_executable (fs_inv := fs_inv) (fs_tree := fs_tree) (dn_inode x) (fs_state w) (di_fs _ _ _ w Hw) ltac:(by eexists)) as [b Hb].
  rewrite Hb, Hty. cbn [fst]. destruct (decide (ty = Dir)) as [->|Hne].
  2:{ rewrite bool_decide_eq_false_2 by congruence. cbn [andb]. unfold dentry_lookup.
    match goal with |- context [sbind (inode_type_of d) ?k w] =>
      destruct (run_itype fs_inv fs_tree m0 w d x k Hw Hx) as (ty0 & Hty0 & ->) end.
    assert (ty0 = ty) as -> by congruence. rewrite bool_decide_eq_false_2 by done. split; [done|].
    unfold tree_lookup, in_dir. rewrite Hty. by destruct ty. }
  rewrite bool_decide_eq_true_2 by done. cbn [andb].
  assert (Hrest : b && (length n <=? 255)%nat && negb (is_dot n) = true ->
    dsim fs_inv fs_tree m0 to_inode (dentry_lookup d n w) (tree_lookup (dn_inode x) n (tr w))).
  { rewrite !andb_true_iff, negb_true_iff. intros [[-> Hl%Nat.leb_le] Hd]. by apply lookup_sim. }
  revert Hrest. unfold dentry_lookup. match goal with |- context [sbind (inode_type_of d) ?k w] =>
    destruct (run_itype fs_inv fs_tree m0 w d x k Hw Hx) as (ty0 & Hty0 & ->) end.
  assert (ty0 = Dir) as -> by congruence. rewrite bool_decide_eq_true_2 by done. cbn [negb].
  rewrite (run_get w d x), run_inode_op, Hb by done. cbn [fst snd]. rewrite with_fs_id. destruct b; cbn [negb]; [|done].
  destruct (Nat.ltb_spec 255 (length n)) as [Hl|Hl]; [done|]. rewrite (proj2 (Nat.leb_le _ _) Hl).
  unfold is_dot. rewrite (bool_decide_eq_false_2 (n = DOTDOT)) by done. destruct (decide (n = DOT)) as [->|Hd].
  - intros _. rewrite bool_decide_eq_true_2 by done. split; [done|]. unfold tree_lookup, in_dir. rewrite Hty.
    rewrite bool_decide_eq_true_2 by done. cbn. unfold to_inode. by rewrite (inode_of_eq w d x Hx).
  - rewrite (bool_decide_eq_false_2 (n = DOT)) by done. cbn [orb negb andb]. intros Hrest. by apply Hrest.
Qed.

Lemma rename_checked m0 w d x d' z n n' :
  dinv fs_inv fs_tree m0 w -> dentries w !! d = Some x -> dentries w !! d' = Some z -> name_ok n' ->
  dinv fs_inv fs_tree m0 (unit_op (rename d n d' n') w).2 /\
  vfs_run w (OpRename d n d' n') (tr w) = ((unit_op (rename d n d' n') w).1, tr (unit_op (rename d n d' n') w).2).
Proof using All.
  intros Hw Hx Hz Hn'. unfold vfs_run. cbn [on_inodes tree_run]. rewrite (inode_of_eq w d x Hx), (inode_of_eq w d' z Hz).
  destruct (is_dot n || is_dot n') eqn:Hdot; [unfold rename, unit_op, sbind; by rewrite Hdot|].
  apply orb_false_iff in Hdot as [Hdot Hdot'].
  destruct (decide (d = d' /\ n = n')) as [[<- <-]|Hne]; cycle 1.
  { assert (((d =? d') && bool_decide (n = n')) = false) as Hb.
    { destruct (Z.eqb_spec d d'); [|done]. apply bool_decide_eq_false. tauto. }
    rewrite <- andb_assoc, Hb, andb_false_r. by apply dsim_unit, rename_sim. }
  assert (z = x) as -> by congruence. rewrite Z.eqb_refl, (bool_decide_eq_true_2 (n = n)), !andb_true_r by done.
  assert (Hrun : rename d n d n w = if bool_decide (t_kind (tr w) !! dn_inode x = Some Dir) then (Ok tt, w) else (Err ENOTDIR, w)).
  { unfold rename. rewrite Hdot. cbn [orb].
    match goal with |- context [sbind (inode_type_of d) ?k w] => destruct (run_itype fs_inv fs_tree m0 w d x k Hw Hx) as (ty & Hty & ->) end.
    match goal with |- context [sbind (inode_type_of d) ?k w] => destruct (run_itype fs_inv fs_tree m0 w d x k Hw Hx) as (ty' & Hty' & ->) end.
    assert (ty' = ty) as -> by congruence. rewrite Hty, Z.eqb_refl, (bool_decide_eq_true_2 (n = n)) by done.
    by destruct ty. }
  destruct (co_inode _ _ (di_co _ _ _ w Hw) d _ (view_ino w d x Hx)) as [[ty Hty] _].
  unfold unit_op, sbind, tree_rename, in_dir. rewrite Hrun, Hty. by destruct ty.
Qed.

Lemma dentry_run_sim m0 w op :
  dinv fs_inv fs_tree m0 w -> dop_ok w op ->
  dinv fs_inv fs_tree m0 (dentry_run op w).2 /\
  vfs_run w op (tr w) = (result_inode op (dentry_run op w).1 (dentry_run op w).2, tr (dentry_run op w).2).
Proof using All.
  intros Hw (Hds & Hok). pose proof (inode_of_eq w) as Hio.
  destruct op; simpl in Hds; repeat match goal with Hf : Forall _ (_ :: _) |- _ => apply Forall_cons in Hf as [[? ?] Hf] end;
    cbn [dentry_run vfs_run on_inodes tree_run op_ok] in *; repeat (erewrite Hio in * by done).
  - destruct Hok as (? & ? & ?). destruct (create_with_sim fs_inv fs_tree m0 w d x n (fun i => i_create i n ty mode) ty Hw) as [Hw' Hs];
      [done|apply law_create; try done; apply Hw|]. split; [done|]. rewrite Hs. unfold create. by destruct (create_with d n _ w) as [[]].
  - destruct Hok as (? & ? & ? & ?).
    destruct (create_with_sim fs_inv fs_tree m0 w d x n (fun i => i_mknod i n mode device) (device_type device) Hw) as [Hw' Hs];
      [done|apply law_mknod; try done; apply Hw|]. split; [done|]. rewrite Hs. unfold mknod. by destruct (create_with d n _ w) as [[]].
  - pose proof (link_sim fs_inv fs_tree m0 w d x old x0 n Hw ltac:(done) ltac:(done) Hok) as Hl. unfold in_cache.
    match goal with Hd : dentries w !! d = Some x |- _ => rewrite Hd end.
    match type of Hl with context [if ?c then _ else _] => set (cond := c) in * end.
    destruct (dsim_unit m0 (link d old n) (fun t => if cond then (Err EEXIST, t) else tree_link (dn_inode x) (dn_inode x0) n t) w Hl)
      as [Hw' Hs]. split; [done|]. cbn [result_inode]. rewrite <- Hs. unfold unit_op, sbind. by destruct cond.
  - apply dsim_unit. apply (remove_with_sim fs_inv fs_tree m0 w d x n); [done|done|apply law_unlink, Hw| |].
    + intros ty Hty Hne. unfold tree_unlink, in_dir. rewrite Hty. by destruct ty.
    + intros r t'. apply unlink_inv.
  - apply dsim_unit. apply (remove_with_sim fs_inv fs_tree m0 w d x n); [done|done|apply law_rmdir, Hw| |].
    + intros ty Hty Hne. unfold tree_rmdir, in_dir. rewrite Hty. by destruct ty.
    + intros r t'. apply rmdir_inv.
  - pose proof (lookup_checked m0 w d x n Hw ltac:(done) Hok) as [Hw' Hs]. split; [done|].
    unfold vfs_run in Hs. cbn [on_inodes tree_run] in Hs. erewrite Hio in Hs by done. rewrite Hs. by destruct (dentry_lookup d n w) as [[]].
  - pose proof (rename_checked m0 w d x d' x0 n n' Hw ltac:(done) ltac:(done) Hok) as Hr.
    unfold vfs_run in Hr. cbn [on_inodes tree_run] in Hr. do 2 (erewrite Hio in Hr by done). exact Hr.
Qed.

(** C5: the dentry cache is transparent.  In every state that operations on
    existing dentries lead to, each operation does to the tree of names of the
    file system what the same operation on the inodes of the dentries does, and
    returns its error or a dentry of its inode: names are found in the cache
    exactly when the tree holds them, stale dentries are never returned, and
    renamed or removed entries leave the cache.  The dentries add checks of their
    own ([vfs_run]): a lookup in a directory that may not be searched is
    [EACCES], of a long name [ENAMETOOLONG]; a rename of dots is [EISDIR], of an
    entry to itself succeeds; and a link to a directory is [EEXIST] when the
    name is in the cache, and [EPERM] as in the tree when it is not.  Names are
    as for the file system below; lookups of ".." are left out.  The children in
    the cache are entries of the tree, and a directory has at most one dentry. *)
Theorem dcache_transparent s w op :
  fs_inv s -> rtc dstep (dworld_new s) w -> dop_ok w op ->
  vfs_run w op (tr w) = (result_inode op (dentry_run op w).1 (dentry_run op w).2, tr (dentry_run op w).2) /\
  coherent (tr w) (view w).
Proof using All.
  intros Hs Hreach Hok.
  assert (Hw : dinv fs_inv fs_tree 0 w).
  { eapply (rtc_invariant dstep); [|exact Hreach|by apply dworld_new_inv]. intros a b [op' [Hop ->]] Ha. by apply dentry_run_sim. }
  split; [by eapply dentry_run_sim|apply Hw].
Qed.

End Transparent.

(** * A file system in memory behind the cache *)

(** A directory, a file in it, and the file renamed into the root *)
Definition cache_ops : list fs_op :=
  [OpCreate 1 [97] Dir 493; OpCreate 2 [98] File 420; OpRename 2 [98] 1 [99]].

Definition cache_world (k : nat) : dworld RamFS := (run_ops dentry_run (take k cache_ops) (dworld_new ramfs_new)).2.

Lemma name1_ok c : c = 98 \/ c = 99 -> name_ok [c].
Proof. intros [-> | ->]; (split; [done|]; split; [simpl; lia|set_solver]). Qed.

Lemma cache_reach : rtc dstep (dworld_new ramfs_new) (cache_world 3).
Proof.
  apply (rtc_l _ _ (cache_world 1)); [|apply (rtc_l _ _ (cache_world 2)); [|apply rtc_once]].
  - exists (OpCreate 1 [97] Dir 493). split; [|vm_compute; reflexivity]. split; [apply Forall_cons_2; [vm_compute; by eexists|done]|].
    split; [done|]. split; set_solver.
  - exists (OpCreate 2 [98] File 420). split; [|vm_compute; reflexivity]. split; [apply Forall_cons_2; [vm_compute; by eexists|done]|].
    split; [done|]. split; set_solver.
  - exists (OpRename 2 [98] 1 [99]). split; [|vm_compute; reflexivity].
    split; [apply Forall_cons_2; [vm_compute; by eexists|]; apply Forall_cons_2; [vm_compute; by eexists|done]|].
    apply name1_ok. by right.
Qed.

(** The renamed file is found under its new name, by its dentry 3; a name that
    is too long is not looked up. *)
Lemma dcache_transparent_witness :
  (dentry_run (OpLookup 1 [99]) (cache_world 3)).1 = Ok 3 /\
  vfs_run (cache_world 3) (OpLookup 1 [99]) (abs (fs_state (cache_world 3))) =
    (Ok 3, abs (fs_state (dentry_run (OpLookup 1 [99]) (cache_world 3)).2)) /\
  vfs_run (cache_world 3) (OpLookup 1 (replicate 256 99)) (abs (fs_state (cache_world 3))) =
    (Err ENAMETOOLONG, abs (fs_state (cache_world 3))).
Proof.
  split; [vm_compute; reflexivity|]. split.
  - refine (proj1 (dcache_transparent ram_inv abs ramfs_new (cache_world 3) (OpLookup 1 [99]) ramfs_new_inv cache_reach _)).
    split; [apply Forall_cons_2; [vm_compute; by eexists|done]|done].
  - refine (proj1 (dcache_transparent ram_inv abs ramfs_new (cache_world 3) (OpLookup 1 (replicate 256 99)) ramfs_new_inv cache_reach _)).
    split; [apply Forall_cons_2; [vm_compute; by eexists|done]|done].
Defined.
