(* ===== verification/PathLookupFacts.v ===== *)
(** Path resolution terminates, and its loop over strings is the resolution of
    a list of components. *)

From S2P Require Import Prelude Perms PathLookup.

(** * Components *)

(** [split('/')] *)
Fixpoint split_slash (p : path) : list path :=
  match p with
  | [] => [[]]
  | c :: p' =>
      if c =? SLASH then [] :: split_slash p'
      else match split_slash p' with s :: ss => (c :: s) :: ss | [] => [[c]] end
  end.

(** The non-empty components of a path. *)
Definition comps (p : path) : list path := filter (fun s => s <> []) (split_slash p).

Lemma split_slash_cons p : exists s ss, split_slash p = s :: ss.
Proof. destruct p as [|c p]; simpl; [eauto|]. destruct (c =? SLASH); [eauto|]. destruct (split_slash p); eauto. Qed.

Lemma comps_slash p : comps (SLASH :: p) = comps p.
Proof. unfold comps. simpl. by rewrite filter_cons. Qed.

Lemma split_slash_app a b :
  exists s ss, split_slash a = ss ++ [s] /\ split_slash (a ++ SLASH :: b) = ss ++ s :: split_slash b.
Proof.
  induction a as [|c a (s & ss & Ha & Hab)]; simpl.
  - exists [], []. split; done.
  - rewrite Ha, Hab. destruct (c =? SLASH).
    + exists s, ([] :: ss). done.
    + destruct ss as [|s1 ss]; simpl; [exists (c :: s), []|exists s, ((c :: s1) :: ss)]; done.
Qed.

Lemma comps_app a b : comps (a ++ SLASH :: b) = comps a ++ comps b.
Proof.
  destruct (split_slash_app a b) as (s & ss & Ha & Hab). unfold comps. rewrite Ha, Hab.
  rewrite !filter_app, (filter_cons _ s []), (filter_cons _ s (split_slash b)), filter_nil.
  repeat case_decide; try done; simpl; by rewrite <- (assoc_L (++)).
Qed.

Lemma comps_trim_start p : comps (trim_start p) = comps p.
Proof.
  induction p as [|c p IH]; [done|]. simpl. destruct (Z.eqb_spec c SLASH) as [->|]; [by rewrite IH, comps_slash|done].
Qed.

Lemma trim_start_head p : starts_slash (trim_start p) = false.
Proof. induction p as [|c p IH]; [done|]. simpl. destruct (c =? SLASH) eqn:Hc; [done|]. simpl. done. Qed.

Lemma trim_start_length p : (length (trim_start p) <= length p)%nat.
Proof. induction p as [|c p IH]; simpl; [lia|]. destruct (c =? SLASH); simpl; lia. Qed.

Lemma comps_nil p : starts_slash p = false -> comps p = [] -> p = [].
Proof.
  destruct p as [|c p]; [done|]. simpl. intros Hc Hn. unfold comps in Hn. simpl in Hn. rewrite Hc in Hn.
  destruct (split_slash_cons p) as (s & ss & Hp). rewrite Hp in Hn. rewrite filter_cons in Hn. by case_decide.
Qed.

Lemma comps_plain a : SLASH ∉ a -> comps a = if decide (a = []) then [] else [a].
Proof.
  intros Ha. assert (Hs : split_slash a = [a]).
  { induction a as [|c a IH]; [done|]. simpl. destruct (Z.eqb_spec c SLASH); [set_solver|]. rewrite IH; set_solver. }
  unfold comps. rewrite Hs, filter_cons, filter_nil. by destruct a.
Qed.

Lemma split_once_some p a b : split_once p = Some (a, b) -> p = a ++ SLASH :: b /\ SLASH ∉ a.
Proof.
  revert a. induction p as [|c p IH]; intros a; simpl; [done|]. destruct (Z.eqb_spec c SLASH) as [->|Hc].
  - intros [= <- <-]. split; [done|set_solver].
  - destruct (split_once p) as [[a' b']|]; [|done]. intros [= <- ->]. destruct (IH a' eq_refl) as [-> Hno].
    split; [done|]. set_solver.
Qed.

Lemma split_once_none p : split_once p = None -> SLASH ∉ p.
Proof.
  induction p as [|c p IH]; simpl; [set_solver|]. destruct (Z.eqb_spec c SLASH) as [->|Hc]; [done|].
  destruct (split_once p) as [[]|]; [done|]. intros _. specialize (IH eq_refl). set_solver.
Qed.

Lemma ends_slash_app a b : b <> [] -> ends_slash (a ++ b) = ends_slash b.
Proof.
  intros Hb. unfold ends_slash. destruct (exists_last Hb) as (b' & x & ->). by rewrite (assoc_L (++)), !last_snoc.
Qed.

Lemma ends_slash_cons c b : b <> [] -> ends_slash (c :: b) = ends_slash b.
Proof. apply (ends_slash_app [c]). Qed.

Lemma ends_slash_trim p : trim_start p <> [] -> ends_slash (trim_start p) = ends_slash p.
Proof.
  induction p as [|c p IH]; [done|]. simpl. destruct (Z.eqb_spec c SLASH) as [->|]; [|done]. intros Hne.
  rewrite IH by done. symmetry. apply ends_slash_cons. by intros ->.
Qed.

Lemma trim_start_nil p : trim_start p = [] -> p = [] \/ ends_slash p = true.
Proof.
  induction p as [|c p IH]; [by left|]. simpl. destruct (Z.eqb_spec c SLASH) as [->|]; [|done]. intros Hn. right.
  destruct (IH Hn) as [->|He]; [done|]. destruct p as [|d p]; [done|]. by rewrite ends_slash_cons.
Qed.

Lemma plain_ends p : SLASH ∉ p -> ends_slash p = false.
Proof.
  intros Hp. unfold ends_slash. destruct (last p) as [c|] eqn:Hl; [|done]. apply Z.eqb_neq. intros ->.
  apply last_Some in Hl as [l ->]. set_solver.
Qed.

(** * The reference resolution *)

Section Walk.
Context {W D : Type} `{DentryOps W D} (self : FsResolver D).

(** Resolve the components [cs] from [d]; [tr] says that the path ends with a
    separator, so that the last component must be a directory. *)
Fixpoint walk_path (fuel : nat) (follow : bool) (follows : nat) (d : D) (cs : list path) (tr : bool)
    : stM W Errno (option D) :=
  match fuel with
  | O => sret None
  | S fuel' =>
      match cs with
      | [] => sret (Some d)
      | c :: rest =>
          let tail := bool_decide (rest = []) in
          let! next := d_lookup d c in
          let! ty := type_of next in
          if bool_decide (ty = SymLink) && (follow || negb tail) then
            if (SYMLINKS_MAX <=? follows)%nat then serr ELOOP
            else
              let! link := d_read_link next in
              if bool_decide (link = []) then serr ENOENT
              else walk_path fuel' follow (S follows) (if starts_slash link then root self else d) (comps link ++ rest)
                     (if tail then tr || ends_slash link else tr)
          else if (negb tail || tr) && negb (bool_decide (ty = Dir)) then serr ENOTDIR
          else walk_path fuel' follow follows next rest tr
      end
  end.

Lemma walk_path_done fuel follow follows d tr tr' w : walk_path fuel follow follows d [] tr w = walk_path fuel follow follows d [] tr' w.
Proof. by destruct fuel. Qed.

Lemma sbind_ext {S E A B} (m : stM S E A) (k k' : A -> stM S E B) s :
  (forall a s', k a s' = k' a s') -> sbind m k s = sbind m k' s.
Proof. intros Hk. unfold sbind. by destruct (m s) as [[a| |] s']. Qed.

(** The first component of a path, and what remains. *)
Lemma next_component p :
  p <> [] -> starts_slash p = false ->
  exists name remain must,
    next_part p = (name, remain, must) /\
    comps p = name :: comps remain /\ starts_slash remain = false /\ (length remain < length p)%nat /\
    must = negb (bool_decide (remain = [])) || ends_slash p /\ (remain <> [] -> ends_slash remain = ends_slash p).
Proof.
  intros Hne Hstart. unfold next_part. destruct (split_once p) as [[a b]|] eqn:Hs.
  - destruct (split_once_some _ _ _ Hs) as [-> Hno]. exists a, (trim_start b), true. split; [done|].
    assert (Ha : a <> []) by (by intros ->).
    pose proof (trim_start_length b). rewrite comps_app, comps_plain, decide_False, comps_trim_start by done.
    split; [done|]. split; [apply trim_start_head|]. rewrite length_app. simpl. split; [lia|]. split.
    + destruct (bool_decide (trim_start b = [])) eqn:Hb; [|done]. simpl. apply bool_decide_eq_true in Hb. symmetry.
      rewrite ends_slash_app by done. destruct (trim_start_nil b Hb) as [->|He]; [done|].
      destruct b as [|x b]; [done|]. by rewrite ends_slash_cons.
    + intros Hr. rewrite ends_slash_trim by done. rewrite ends_slash_app by done. symmetry.
      apply ends_slash_cons. by intros ->.
  - pose proof (split_once_none _ Hs) as Hno. exists p, [], false. split; [done|].
    rewrite comps_plain, decide_False by done. split; [done|]. split; [done|].
    split; [destruct p; simpl; [done|lia]|]. split; [|done]. by rewrite plain_ends.
Qed.

(** The path after a link is followed. *)
Lemma link_path link remain must p :
  link <> [] -> must = negb (bool_decide (remain = [])) || ends_slash p ->
  (remain <> [] -> ends_slash remain = ends_slash p) ->
  let q := if negb (bool_decide (remain = [])) then link ++ [SLASH] ++ remain else if must : bool then link ++ [SLASH] else link in
  comps q = comps link ++ comps remain /\ starts_slash q = starts_slash link /\
  ends_slash q = (if bool_decide (remain = []) then ends_slash p || ends_slash link else ends_slash p) /\
  (length q <= length link + 1 + length remain)%nat.
Proof.
  intros Hl -> Hr. destruct (bool_decide (remain = [])) eqn:Hb; cbn [negb orb].
  - apply bool_decide_eq_true in Hb as ->. destruct (ends_slash p); cbn [orb].
    + rewrite comps_app, ends_slash_app, length_app by done. split; [done|]. split; [by destruct link|]. split; [done|simpl; lia].
    + rewrite app_nil_r. split; [done|]. split; [done|]. split; [done|simpl; lia].
  - apply bool_decide_eq_false in Hb. change ([SLASH] ++ remain) with (SLASH :: remain). rewrite comps_app, !length_app. split; [done|]. split; [by destruct link|].
    split; [|simpl; lia]. rewrite ends_slash_app, ends_slash_cons by done. by apply Hr.
Qed.

Lemma lookup_loop_walk fuel follow follows d p w :
  starts_slash p = false ->
  lookup_loop self fuel follow follows d p w = walk_path fuel follow follows d (comps p) (ends_slash p) w.
Proof.
  revert follows d p w. induction fuel as [|fuel IH]; intros follows d p w Hp; [done|]. cbn [lookup_loop walk_path].
  destruct (bool_decide (p = [])) eqn:Hnil; [apply bool_decide_eq_true in Hnil as ->; done|].
  apply bool_decide_eq_false in Hnil.
  destruct (next_component p Hnil Hp) as (name & remain & must & -> & -> & Hrs & _ & Hmust & Hend).
  assert (Htail : bool_decide (comps remain = []) = bool_decide (remain = [])).
  { apply bool_decide_ext. split; [by apply comps_nil|by intros ->]. }
  rewrite Htail. apply sbind_ext. intros next w1. apply sbind_ext. intros ty w2.
  destruct (bool_decide (ty = SymLink) && _).
  - destruct (40 <=? follows)%nat; [done|]. apply sbind_ext. intros link w3.
    destruct (bool_decide (link = [])) eqn:Hl; [done|]. apply bool_decide_eq_false in Hl.
    destruct (link_path link remain must p Hl Hmust Hend) as (Hcomps & Hstart & Hends & _).
    cbv zeta. rewrite Hstart, IH by apply trim_start_head. rewrite comps_trim_start, Hcomps.
    set (q := if negb _ then _ else _) in *. destruct (decide (trim_start q = [])) as [Hq|Hq].
    + assert (comps link ++ comps remain = []) as -> by (rewrite <- Hcomps, <- comps_trim_start, Hq; done). apply walk_path_done.
    + by rewrite ends_slash_trim, Hends by done.
  - rewrite Hmust. destruct (_ && negb (bool_decide (ty = Dir))); [done|]. rewrite IH by done.
    destruct (decide (remain = [])) as [->|Hr]; [apply walk_path_done|by rewrite Hend].
Qed.

(** ** Fuel *)

Context (fd_lookup : Z -> stM W Errno D) (L : nat).
Hypothesis links_short : forall d w p w', d_read_link d w = (Ok p, w') -> (length p <= L)%nat.

(** Turns the loop has left: a turn shortens the path or follows a link. *)
Definition turns (follows : nat) (p : path) : nat := (length p + (40 - follows) * (L + 2))%nat.

Lemma turns_follow follows (link remain q p : path) :
  (follows < 40)%nat -> (length link <= L)%nat -> (length remain < length p)%nat ->
  (length q <= length link + 1 + length remain)%nat -> (turns (S follows) (trim_start q) < turns follows p)%nat.
Proof.
  intros Hf Hl Hr Hq. unfold turns. pose proof (trim_start_length q).
  replace (40 - follows)%nat with (S (40 - S follows)) by lia. simpl. lia.
Qed.

Lemma lookup_loop_ends fuel fuel' follow follows d p w :
  starts_slash p = false -> (turns follows p < fuel)%nat -> (turns follows p < fuel')%nat ->
  lookup_loop self fuel follow follows d p w = lookup_loop self fuel' follow follows d p w /\
  (lookup_loop self fuel follow follows d p w).1 <> Ok None.
Proof using links_short.
  revert fuel' follows d p w. induction fuel as [|fuel IH]; intros fuel' follows d p w Hp Hfuel Hfuel'; [lia|].
  destruct fuel' as [|fuel']; [lia|]. cbn [lookup_loop].
  destruct (bool_decide (p = [])) eqn:Hnil; [done|]. apply bool_decide_eq_false in Hnil.
  destruct (next_component p Hnil Hp) as (name & remain & must & -> & _ & Hrs & Hlen & Hmust & Hend).
  unfold sbind at 1 2 4 5 7 8. destruct (d_lookup d name w) as [[next|e|] w1]; [|done|done].
  unfold type_of. destruct (bool_decide (d_type next w1 = SymLink) && _).
  - destruct (40 <=? follows)%nat eqn:Hf; [done|]. apply Nat.leb_gt in Hf.
    unfold sbind. destruct (d_read_link next w1) as [[link|e|] w2] eqn:Hlink; [|done|done].
    destruct (bool_decide (link = [])) eqn:Hl; [done|]. apply bool_decide_eq_false in Hl.
    destruct (link_path link remain must p Hl Hmust Hend) as (_ & _ & _ & Hq). apply links_short in Hlink.
    cbv zeta. set (q := if negb _ then _ else _) in *.
    pose proof (turns_follow follows link remain q p Hf Hlink Hlen Hq). apply IH; [apply trim_start_head|lia|lia].
  - destruct (must && _); [done|]. assert (turns follows remain < turns follows p)%nat by (unfold turns; lia).
    apply IH; [done|lia|lia].
Qed.

(** ** Paths *)

(** Where the resolution of a path starts. *)
Definition path_start (q : FsPath) : stM W Errno D :=
  match q with
  | Absolute _ => sret (root self)
  | CwdRelative _ | Cwd => sret (cwd self)
  | FdRelative fd _ | Fd fd => fd_lookup fd
  end.

Lemma from_parent_loop fuel d p follow w :
  starts_slash p = false -> Z.of_nat (length p) <= PATH_MAX ->
  lookup_from_parent self fuel d p follow w = lookup_loop self fuel follow 0 d p w.
Proof.
  intros Hp Hlen. unfold lookup_from_parent. rewrite Hp. erewrite slift_ok by reflexivity.
  destruct (Z.ltb_spec PATH_MAX (Z.of_nat (length p))); [lia|done].
Qed.

(** A path as [FsPath::new] makes it: the relative path that the loop resolves. *)
Lemma lookup_inner_loop dirfd p q follow :
  fs_path_new dirfd p = Ok q ->
  exists r, starts_slash r = false /\ comps r = comps p /\ (r <> [] -> ends_slash r = ends_slash p) /\
    Z.of_nat (length r) <= PATH_MAX /\
    forall fuel w, lookup_inner self fd_lookup (S fuel) q follow w =
      (let! d := path_start q in lookup_loop self (S fuel) follow 0 d r) w.
Proof.
  unfold fs_path_new. destruct (Z.ltb_spec PATH_MAX (Z.of_nat (length p))) as [|Hlen]; [done|].
  destruct (starts_slash p) eqn:Hs.
  { intros [= <-]. exists (trim_start p). pose proof (trim_start_length p).
    split; [apply trim_start_head|]. split; [apply comps_trim_start|]. split; [apply ends_slash_trim|]. split; [lia|].
    intros fuel w. simpl. rewrite from_parent_loop; [done|apply trim_start_head|lia]. }
  intros Hq. exists p. do 3 (split; [done|]). split; [lia|]. intros fuel w.
  destruct (0 <=? dirfd); [|destruct (dirfd =? -100); [|done]]; injection Hq as <-;
    destruct (bool_decide (p = [])) eqn:Hn; simpl; try (rewrite from_parent_loop by done; done).
  - apply bool_decide_eq_true in Hn as ->. done.
  - apply sbind_ext. intros d w'. by rewrite from_parent_loop.
  - apply bool_decide_eq_true in Hn as ->. done.
Qed.

End Walk.

Section Theorems.
Context {W D : Type} `{DentryOps W D} (self : FsResolver D) (fd_lookup : Z -> stM W Errno D).

(** C16: path resolution is the resolution of a list of components.  For every
    path, directory file descriptor, state of the file system and amount of
    fuel, the loop that splits and rebuilds path strings does what the
    reference resolution [walk_path] does on the non-empty components of the path:
    the same lookups and link reads in the same order with the same result,
    repeated, leading and trailing separators included. *)
Theorem path_lookup_equiv fuel dirfd p q follow w :
  fs_path_new dirfd p = Ok q ->
  lookup_inner self fd_lookup (S fuel) q follow w =
  (let! d := path_start self fd_lookup q in walk_path self (S fuel) follow 0 d (comps p) (ends_slash p)) w.
Proof.
  intros Hq. destruct (lookup_inner_loop self fd_lookup dirfd p q follow Hq) as (r & Hs & Hc & He & _ & ->).
  apply sbind_ext. intros d w'. rewrite lookup_loop_walk, Hc by done.
  destruct (decide (r = [])) as [->|Hr]; [|by rewrite He]. rewrite <- Hc. apply walk_path_done.
Qed.

(** C17: path resolution terminates.  If no symbolic link is longer than [L]
    bytes, every resolution ends within [4097 + 40 * (L + 2)] turns of the loop,
    cycles of links included, and more fuel gives the same result. *)
Theorem path_lookup_terminates (L fuel fuel' : nat) dirfd p q follow w :
  (forall d w p w', d_read_link d w = (Ok p, w') -> (length p <= L)%nat) ->
  fs_path_new dirfd p = Ok q -> (4096 + 40 * (L + 2) < fuel)%nat -> (fuel <= fuel')%nat ->
  lookup_inner self fd_lookup fuel' q follow w = lookup_inner self fd_lookup fuel q follow w /\
  (lookup_inner self fd_lookup fuel q follow w).1 <> Ok None.
Proof.
  intros Hlinks Hq Hf Hf'. destruct fuel as [|fuel]; [lia|]. destruct fuel' as [|fuel']; [lia|].
  destruct (lookup_inner_loop self fd_lookup dirfd p q follow Hq) as (r & Hs & _ & _ & Hlen & Heq).
  rewrite !Heq. unfold sbind. destruct (path_start self fd_lookup q w) as [[d|e|] w1]; [|done|done].
  assert (turns L 0 r <= 4096 + 40 * (L + 2))%nat by (unfold turns; lia).
  destruct (lookup_loop_ends self L Hlinks (S fuel) (S fuel') follow 0 d r w1 Hs) as [<- ?]; [lia|lia|done].
Qed.

End Theorems.

(** * A small tree *)

(** The root 0 holds the directory [a] (1), the link [l] (2) to [a//b] and the
    link [x] (4) to itself; the directory holds the file [b] (3). *)
Definition small_lookup (d : Z) (name : path) : outcome Errno Z :=
  if negb (bool_decide (d ∈ [0; 1])) then Err ENOTDIR
  else if bool_decide (d = 0 /\ name = [97]) then Ok 1
  else if bool_decide (d = 0 /\ name = [108]) then Ok 2
  else if bool_decide (d = 0 /\ name = [120]) then Ok 4
  else if bool_decide (d = 1 /\ name = [98]) then Ok 3
  else Err ENOENT.

#[local] Instance small_tree : DentryOps nat Z := {
  d_lookup := fun d name w => (small_lookup d name, S w);
  d_type := fun d _ => if bool_decide (d ∈ [0; 1]) then Dir else if d =? 3 then File else SymLink;
  d_read_link := fun d w => (if d =? 2 then Ok [97; 47; 47; 98] else if d =? 4 then Ok [120] else Err EINVAL, w);
  d_is_readable := fun _ w => (Ok true, w);
  d_is_writable := fun _ w => (Ok true, w);
  d_create := fun _ _ _ w => (Err EEXIST, w);
  d_open_device := fun _ w => (Err ENODEV, w);
}.

Definition small_resolver : FsResolver Z := MkResolver 0 1.
Definition small_fd (fd : Z) : stM nat Errno Z := if fd =? 3 then sret 0 else serr EBADF.

(** [//l] is the file [b], after three lookups. *)
Lemma path_lookup_equiv_witness :
  fs_path_new 3 [47; 47; 108] = Ok (Absolute [47; 47; 108]) /\
  lookup_inner small_resolver small_fd 9 (Absolute [47; 47; 108]) true 0%nat = (Ok (Some 3), 3%nat) /\
  lookup_inner small_resolver small_fd 9 (Absolute [47; 47; 108]) true 0%nat =
    walk_path small_resolver 9 true 0 0 [[108]] false 0%nat.
Proof.
  split; [reflexivity|]. split; [reflexivity|].
  exact (path_lookup_equiv small_resolver small_fd 8 3 [47; 47; 108] _ true 0%nat eq_refl).
Defined.

Lemma small_links d w p w' : d_read_link d w = (Ok p, w') -> (length p <= 4)%nat.
Proof. simpl. destruct (d =? 2); [|destruct (d =? 4)]; intros H; inversion H; subst; simpl; lia. Qed.

(** The link to itself: [ELOOP] after 41 lookups. *)
Lemma path_lookup_terminates_witness :
  fs_path_new AT_FDCWD [47; 120] = Ok (Absolute [47; 120]) /\
  lookup_inner small_resolver small_fd 5000 (Absolute [47; 120]) true 0%nat = (Err ELOOP, 41%nat) /\
  lookup_inner small_resolver small_fd 9000 (Absolute [47; 120]) true 0%nat = (Err ELOOP, 41%nat).
Proof.
  assert (H : lookup_inner small_resolver small_fd 5000 (Absolute [47; 120]) true 0%nat = (Err ELOOP, 41%nat)) by reflexivity.
  split; [reflexivity|]. split; [exact H|]. rewrite <- H.
  apply (path_lookup_terminates small_resolver small_fd 4 5000 9000 AT_FDCWD [47; 120] _ true 0%nat small_links eq_refl);
    [by apply Nat.ltb_lt|by apply Nat.leb_le].
Defined.
