(* ===== verification/MountProps.v ===== *)
(** Mounting a file system on a directory hides the directory behind the root
    of the file system; unmounting brings it back. *)

From S2P Require Import Prelude Perms PathLookup RamFs Dentry DentryFacts.

Section Mount.
Context {W : Type} `{InodeOps W}.
Implicit Types w : dworld W.

(** The directory [self] is the child [n] of the directory [p] in the cache,
    and nothing is mounted on it. *)
Record mountable w (self : Z) (x : Dentry) (n : path) (p : Z) (y : Dentry) (mn : MountNode) : Prop := {
  ma_self : dentries w !! self = Some x;
  ma_np : dn_name_and_parent x = Some (n, p);
  ma_free : dn_mounted x = false;
  ma_dir : i_type (dn_inode x) (fs_state w) = Dir;
  ma_mount : mounts w !! dn_mount_node x = Some mn;
  ma_key : mt_children mn !! (n, p) = None;
  ma_parent : dentries w !! p = Some y;
  ma_child : dn_children y !! n = Some self;
  ma_cached : dcache w !! (n, p) = Some self;
  ma_pdir : i_type (dn_inode y) (fs_state w) = Dir;
  ma_exec : i_is_executable (dn_inode y) (fs_state w) = (Ok true, fs_state w);
  ma_name : is_dot n = false /\ (length n <= 255)%nat;
  ma_next : self < next_id w /\ p < next_id w /\ dn_mount_node x < next_id w /\ self <> p;
}.

(** The world after [mount]; [next_id w] is the new mount and the number after
    it the root dentry. *)
Definition w_mounted w (self : Z) (x : Dentry) (k : DentryKey) (mn : MountNode) (root_inode : Z) : dworld W :=
  MkWorld (fs_state w)
    (<[self := MkDentry (dn_inode x) (dn_name_and_parent x) (dn_children x) (dn_mount_node x) true]>
       (<[next_id w + 1 := MkDentry root_inode None ∅ (next_id w) false]> (dentries w)))
    (<[([SLASH], next_id w + 1) := next_id w + 1]> (dcache w))
    (<[dn_mount_node x := MkMount (mt_root_dentry mn) (mt_mountpoint_dentry mn) (<[k := next_id w]> (mt_children mn))]>
       (<[next_id w := MkMount (next_id w + 1) (Some self) ∅]> (mounts w)))
    (next_id w + 1 + 1) (held w).

Lemma run_itype' {A} w d x (k : InodeType -> stM (dworld W) Errno A) :
  dentries w !! d = Some x -> sbind (inode_type_of d) k w = k (i_type (dn_inode x) (fs_state w)) w.
Proof. intros Hx. unfold inode_type_of, sbind, get_dentry. by rewrite Hx. Qed.

Lemma run_get_mount {A} w m mn (k : MountNode -> stM (dworld W) Errno A) :
  mounts w !! m = Some mn -> sbind (get_mount m) k w = k mn w.
Proof. intros Hm. unfold sbind, get_mount. by rewrite Hm. Qed.

Lemma run_mount_new w root_inode mp :
  mount_new root_inode mp w =
  (Ok (next_id w),
   MkWorld (fs_state w) (<[next_id w + 1 := MkDentry root_inode None ∅ (next_id w) false]> (dentries w))
     (<[([SLASH], next_id w + 1) := next_id w + 1]> (dcache w))
     (<[next_id w := MkMount (next_id w + 1) mp ∅]> (mounts w)) (next_id w + 1 + 1) (held w)).
Proof.
  unfold mount_new, new_root, new_dentry, key, sbind, fresh_id, put_dentry, get_dentry, set_dcache, put_mount, sret. simpl.
  by rewrite lookup_insert_eq.
Qed.

Lemma run_mount w self x n p y mn root_inode :
  mountable w self x n p y mn -> mount self root_inode w = (Ok (next_id w), w_mounted w self x (n, p) mn root_inode).
Proof.
  intros [Hx Hnp Hfree Hdir Hm Hk Hy Hch Hdc Hpd Hex [Hdot Hlen] (Hs & Hp & Hmn & Hsp)]. unfold mount.
  rewrite (run_itype' w self x), Hdir by done. rewrite bool_decide_eq_true_2 by done. cbn [negb].
  assert (Hep : forall fuel, effective_parent (S fuel) self w = (Ok (Some p), w)).
  { intros fuel. cbn [effective_parent]. rewrite (run_get w self x) by done. unfold is_root_of_mount. rewrite Hnp. cbn [negb].
    unfold parent_dentry. rewrite (run_get w self x) by done. by rewrite Hnp. }
  erewrite sbind_ok by reflexivity. erewrite sbind_ok by apply Hep. cbn iota. rewrite (run_get w self x) by done.
  unfold mount_node_mount. rewrite sbind_assoc, (run_get w self x) by done. rewrite Z.eqb_refl. cbn [negb].
  rewrite sbind_assoc, (run_itype' w self x), Hdir by done. rewrite bool_decide_eq_true_2 by done. cbn [negb].
  unfold key. rewrite sbind_assoc, sbind_assoc, (run_get w self x) by done. unfold key_of. rewrite Hnp.
  erewrite sbind_ok by reflexivity. rewrite sbind_assoc. erewrite sbind_ok by apply run_mount_new.
  unfold set_mounted, put_mount, put_dentry, get_mount, get_dentry, sbind, sret. cbn [mounts dentries].
  rewrite lookup_insert_ne by lia. rewrite Hm. cbn. rewrite lookup_insert_ne by lia. rewrite Hx. done.
Qed.

Lemma mounted_alive w self x n p y mn root_inode :
  mountable w self x n p y mn -> upgrade self (w_mounted w self x (n, p) mn root_inode) = true.
Proof.
  intros Hma. unfold upgrade. apply bool_decide_eq_true. right. apply list_elem_of_fmap. exists ((n, p), self). split; [done|].
  apply elem_of_map_to_list. simpl. rewrite lookup_insert_ne; [apply Hma|]. intros [= _ Hp]. destruct Hma. lia.
Qed.

(** A lookup that finds a cached child *)
Lemma run_cached_lookup w p y n c :
  dentries w !! p = Some y -> dn_children y !! n = Some c -> upgrade c w = true ->
  i_type (dn_inode y) (fs_state w) = Dir -> i_is_executable (dn_inode y) (fs_state w) = (Ok true, fs_state w) ->
  is_dot n = false -> (length n <= 255)%nat ->
  dentry_lookup p n w = overlaid_dentry (S (base.size (mounts w))) c w.
Proof.
  intros Hy Hch Hup Hpd Hex Hdot Hlen. unfold dentry_lookup. unfold is_dot in Hdot. apply orb_false_iff in Hdot as [Hd1 Hd2].
  rewrite (run_itype' w p y), Hpd by done. rewrite bool_decide_eq_true_2 by done. cbn [negb].
  rewrite (run_get w p y), run_inode_op, Hex by done. cbn [fst snd negb]. destruct (Nat.ltb_spec 255 (length n)); [lia|].
  rewrite Hd1, Hd2. replace (with_fs (fs_state w) w) with w by (by destruct w). unfold find_dentry.
  rewrite sbind_assoc, (run_get w p y), Hch by done. unfold sbind at 1. rewrite Hup. done.
Qed.

Lemma size_mounted w x mn m k : mounts w !! dn_mount_node x = Some mn -> mounts w !! next_id w = None ->
  base.size (<[dn_mount_node x := k]> (<[next_id w := m]> (mounts w))) = S (base.size (mounts w)).
Proof.
  intros Hm Hn. rewrite map_size_insert, lookup_insert_ne, Hm by congruence. by rewrite map_size_insert_None.
Qed.

(** What the mounted world holds *)
Lemma w_mounted_at w self x n p y mn root_inode :
  mountable w self x n p y mn -> let w1 := w_mounted w self x (n, p) mn root_inode in
  dentries w1 !! (next_id w + 1) = Some (MkDentry root_inode None ∅ (next_id w) false) /\
  dentries w1 !! self = Some (MkDentry (dn_inode x) (dn_name_and_parent x) (dn_children x) (dn_mount_node x) true) /\
  dentries w1 !! p = Some y /\
  mounts w1 !! next_id w = Some (MkMount (next_id w + 1) (Some self) ∅) /\
  mounts w1 !! dn_mount_node x =
    Some (MkMount (mt_root_dentry mn) (mt_mountpoint_dentry mn) (<[(n, p) := next_id w]> (mt_children mn))).
Proof.
  intros [Hx Hnp Hfree Hdir Hm Hk Hy Hch Hdc Hpd Hex Hname (Hs & Hp & Hmn & Hsp)] w1. simpl.
  split_and!; repeat first [rewrite lookup_insert_eq | rewrite lookup_insert_ne by lia]; done.
Qed.

(** The world after [umount] of the root dentry *)
Definition w_umounted w (self : Z) (x : Dentry) (k : DentryKey) (mn : MountNode) (root_inode : Z) : dworld W :=
  let w1 := w_mounted w self x k mn root_inode in
  MkWorld (fs_state w1)
    (<[self := MkDentry (dn_inode x) (dn_name_and_parent x) (dn_children x) (dn_mount_node x) false]> (dentries w1))
    (dcache w1)
    (<[dn_mount_node x := MkMount (mt_root_dentry mn) (mt_mountpoint_dentry mn) (delete k (<[k := next_id w]> (mt_children mn)))]>
       (mounts w1)) (next_id w1) (held w1).

Lemma run_umount w self x n p y mn root_inode :
  mountable w self x n p y mn ->
  umount (next_id w + 1) (w_mounted w self x (n, p) mn root_inode) = (Ok (next_id w), w_umounted w self x (n, p) mn root_inode).
Proof.
  intros Hma. pose proof (ma_np _ _ _ _ _ _ _ Hma) as Hnp. unfold umount.
  set (w1 := w_mounted _ _ _ _ _ _).
  destruct (w_mounted_at w self x n p y mn root_inode Hma) as (Hroot & Hself & Hpar & Hcm & Hpm). fold w1 in Hroot, Hself, Hpar, Hcm, Hpm.
  rewrite (run_get w1 _ _ _ Hroot). cbn [is_root_of_mount dn_name_and_parent negb dn_mount_node].
  rewrite (run_get_mount w1 _ _ _ Hcm). cbn [mt_mountpoint_dentry]. rewrite (run_get w1 _ _ _ Hself).
  cbn [dn_mount_node]. unfold mount_node_umount, key. rewrite sbind_assoc, (run_get w1 _ _ _ Hself). cbn [dn_mount_node].
  rewrite Z.eqb_refl. cbn [negb]. rewrite sbind_assoc, sbind_assoc, (run_get w1 _ _ _ Hself). unfold key_of. cbn [dn_name_and_parent]. rewrite Hnp.
  erewrite sbind_ok by reflexivity. rewrite sbind_assoc, (run_get_mount w1 _ _ _ Hpm). cbn [mt_children]. rewrite lookup_insert_eq.
  unfold set_mounted, put_mount, put_dentry, get_dentry, sbind, sret. cbn [dentries]. rewrite Hself. done.
Qed.

(** C25: mounting hides a directory and unmounting brings it back.  A mount on a
    directory in the cache succeeds; a lookup of its name in its parent then
    gives the root of the mounted file system, whose parent is that of the
    directory, and the directory cannot be removed.  Unmounting the root
    returns the same mount, restores the directory and its mount node, and the
    lookup gives the directory again. *)
Theorem mount_umount w self x n p y mn root_inode :
  mountable w self x n p y mn -> mounts w !! next_id w = None ->
  exists w1 w2,
    mount self root_inode w = (Ok (next_id w), w1) /\
    dentry_lookup p n w1 = (Ok (next_id w + 1), w1) /\ dn_inode <$> dentries w1 !! (next_id w + 1) = Some root_inode /\
    (forall fuel, effective_parent (S (S fuel)) (next_id w + 1) w1 = (Ok (Some p), w1)) /\
    (rmdir p n w1).1 = Err EBUSY /\
    umount (next_id w + 1) w1 = (Ok (next_id w), w2) /\
    dentry_lookup p n w2 = (Ok self, w2) /\ dentries w2 !! self = Some x /\ mounts w2 !! dn_mount_node x = Some mn.
Proof.
  intros Hma Hfresh. pose proof Hma as [Hx Hnp Hfree Hdir Hm Hk Hy Hch Hdc Hpd Hex [Hdot Hlen] (Hs & Hp & Hmn & Hsp)].
  exists (w_mounted w self x (n, p) mn root_inode), (w_umounted w self x (n, p) mn root_inode).
  pose proof (mounted_alive w self x n p y mn root_inode Hma) as Hup. set (w1 := w_mounted _ _ _ _ _ _) in *.
  destruct (w_mounted_at w self x n p y mn root_inode Hma) as (Hroot & Hself & Hpar & Hcm & Hpm). fold w1 in Hroot, Hself, Hpar, Hcm, Hpm.
  assert (Hx' : MkDentry (dn_inode x) (dn_name_and_parent x) (dn_children x) (dn_mount_node x) false = x)
    by (rewrite <- Hfree; by destruct x).
  split_and!.
  - by apply run_mount with (y := y).
  - rewrite (run_cached_lookup w1 p y n self) by done. simpl base.size. rewrite (size_mounted w x mn) by done.
    cbn [overlaid_dentry]. rewrite (run_get w1 _ _ _ Hself). cbn [dn_mounted negb dn_mount_node]. unfold mount_get.
    rewrite sbind_assoc, (run_get w1 _ _ _ Hself). cbn [dn_mount_node]. rewrite Z.eqb_refl. cbn [negb].
    rewrite sbind_assoc, (run_get_mount w1 _ _ _ Hpm). unfold key_of. cbn [dn_name_and_parent mt_children]. rewrite Hnp.
    erewrite sbind_ok by reflexivity. rewrite lookup_insert_eq, (run_get_mount w1 _ _ _ Hcm). cbn [mt_root_dentry].
    by rewrite (run_get w1 _ _ _ Hroot).
  - by rewrite Hroot.
  - intros fuel. cbn [effective_parent]. rewrite (run_get w1 _ _ _ Hroot). cbn. rewrite (run_get_mount w1 _ _ _ Hcm). cbn.
    rewrite (run_get w1 _ _ _ Hself). unfold is_root_of_mount. cbn. rewrite Hnp. cbn. unfold parent_dentry.
    rewrite (run_get w1 _ _ _ Hself). cbn. by rewrite Hnp.
  - unfold rmdir, remove_with. rewrite (run_itype' w1 p y) by done. change (fs_state w1) with (fs_state w). rewrite Hpd. rewrite bool_decide_eq_true_2 by done. cbn [negb].
    unfold find_dentry_with_checking_mountpoint, find_dentry. rewrite !sbind_assoc, (run_get w1 p y), Hch by done.
    unfold sbind at 1. rewrite Hup. rewrite sbind_assoc, (run_get w1 _ _ _ Hself). done.
  - by apply run_umount with (y := y).
  - rewrite (run_cached_lookup (w_umounted w self x (n, p) mn root_inode) p y n self); try done.
    + cbn [overlaid_dentry]. erewrite run_get by (simpl; apply lookup_insert_eq). done.
    + simpl. rewrite !lookup_insert_ne by lia. done.
  - simpl. by rewrite lookup_insert_eq, Hx'.
  - simpl. rewrite lookup_insert_eq, delete_insert_id by done. by destruct mn.
Qed.

End Mount.

(** A second file system mounted on the directory of the root *)
Definition mount_world : dworld RamFS :=
  (create 1 [97] Dir 493 (mount_new ROOT_INO None (MkWorld ramfs_new ∅ ∅ ∅ 0 ∅)).2).2.

Lemma mount_umount_witness :
  (mount 2 7 mount_world).1 = Ok 3 /\
  exists w1 w2, mount 2 7 mount_world = (Ok 3, w1) /\ dentry_lookup 1 [97] w1 = (Ok 4, w1) /\
    umount 4 w1 = (Ok 3, w2) /\ dentry_lookup 1 [97] w2 = (Ok 2, w2).
Proof.
  split; [vm_compute; reflexivity|].
  destruct (mount_umount mount_world 2 (MkDentry 2 (Some ([97], 1)) ∅ 0 false) [97] 1
    (MkDentry 1 None {[ [97] := 2 ]} 0 false) (MkMount 1 None ∅) 7) as (w1 & w2 & H1 & H2 & _ & _ & _ & H6 & H7 & _).
  - split; vm_compute; try reflexivity; repeat split; try lia; try reflexivity; by intros.
  - vm_compute. reflexivity.
  - exists w1, w2. split; [exact H1|]. split; [exact H2|]. split; [exact H6|exact H7].
Defined.
