(* ===== verification/VirtQueue.v ===== *)
(** The split virtqueue of virtio devices (kernel/comps/virtio/src/queue.rs):
    the descriptor table with its free list, the available ring that the driver
    writes and the used ring that the device writes.

    The modern layout is modelled, in which the descriptor table and the two
    rings have a page each; [descs] holds what the pointers of the source point
    to, and the last of its [queue_size + 1] elements is the memory after the
    table.  Memory fences have no effect on the state. *)

From S2P Require Import Prelude AlignExt Frame.

Inductive QueueError : Type := InvalidArgs | BufferTooSmall | NotReady | AlreadyUsed | WrongToken.

Notation NEXT := 1%Z (only parsing).
Notation WRITE := 2%Z (only parsing).

Record Descriptor : Type := MkDescriptor { d_addr : Z; d_len : Z; d_flags : Z; d_next : Z }.

Record AvailRing : Type := MkAvail { a_flags : Z; a_idx : Z; a_ring : list Z }.
(** [u_ring] holds the [UsedElem]s: the head of a chain and the length written. *)
Record UsedRing : Type := MkUsed { u_flags : Z; u_idx : Z; u_ring : list (Z * Z) }.

Record VirtQueue : Type := MkQueue {
  descs : list Descriptor;
  avail_ring : AvailRing;
  used_ring : UsedRing;
  queue_size : Z;
  num_used : Z;
  free_head : Z;
  avail_idx : Z;
  last_used_idx : Z;
}.

Notation queueM := (stM VirtQueue QueueError).

Definition set_descs (ds : list Descriptor) (q : VirtQueue) : VirtQueue :=
  MkQueue ds (avail_ring q) (used_ring q) (queue_size q) (num_used q) (free_head q) (avail_idx q) (last_used_idx q).
Definition set_free (used head : Z) (q : VirtQueue) : VirtQueue :=
  MkQueue (descs q) (avail_ring q) (used_ring q) (queue_size q) used head (avail_idx q) (last_used_idx q).
Definition set_avail (a : AvailRing) (idx : Z) (q : VirtQueue) : VirtQueue :=
  MkQueue (descs q) a (used_ring q) (queue_size q) (num_used q) (free_head q) idx (last_used_idx q).
Definition set_last_used (idx : Z) (q : VirtQueue) : VirtQueue :=
  MkQueue (descs q) (avail_ring q) (used_ring q) (queue_size q) (num_used q) (free_head q) (avail_idx q) idx.

(** [VirtQueue::new] on zeroed pages, for a transport that is not legacy *)
Definition queue_new (size : Z) : outcome QueueError VirtQueue :=
  if negb (is_power_of_two size) then Err InvalidArgs
  else if 256 <? size then Err InvalidArgs
  else
    Ok (MkQueue
      ((fun i => MkDescriptor 0 0 0 (if i <? size - 1 then i + 1 else 0)) <$> zrange 0 (size + 1))
      (MkAvail 0 0 (replicate (Z.to_nat size) 0)) (MkUsed 0 0 (replicate (Z.to_nat size) (0, 0)))
      size 0 0 0 0).

(** [self.descs[i]], read through its pointer: the index has to be in the
    vector and the descriptor on its page. *)
Definition desc_at (i : Z) : queueM Descriptor := fun q =>
  if (i + 1) * 16 <=? PAGE_SIZE then
    match descs q !! Z.to_nat i with Some d => (Ok d, q) | None => (Panic, q) end
  else (Panic, q).
Definition write_desc (i : Z) (d : Descriptor) : queueM unit :=
  let! _ := desc_at i in
  fun q => (Ok tt, set_descs (<[Z.to_nat i := d]> (descs q)) q).

(** A buffer by its virtual address and length *)
Notation buf := (Z * Z)%type.

Section Queue.
(** [vaddr_to_paddr] of the kernel page table *)
Context (vaddr_to_paddr : Z -> option Z).

(** [set_buf_slice], [set_buf_reader] and [set_buf_writer] *)
Definition set_buf (i : Z) (b : buf) : queueM unit :=
  let! pa := slift (ounwrap (vaddr_to_paddr b.1)) in
  let! d := desc_at i in
  write_desc i (MkDescriptor pa (b.2 mod 2 ^ 32) (d_flags d) (d_next d)).

(** The loops over the inputs and the outputs of [add_buf] and [add_vm]; they
    give the last descriptor taken from the free list. *)
Fixpoint take_descs (flags : Z) (bufs : list buf) (last : Z) : queueM Z :=
  match bufs with
  | [] => sret last
  | b :: bufs' =>
      let! q := sget in
      let head := free_head q in
      set_buf head b ;!
      let! d := desc_at head in
      write_desc head (MkDescriptor (d_addr d) (d_len d) flags (d_next d)) ;!
      let! q := sget in
      sput (set_free (num_used q) (d_next d) q) ;!
      take_descs flags bufs' head
  end.

(** The body of [add_buf] and [add_vm] *)
Definition add (inputs outputs : list buf) : queueM Z :=
  let n := Z.of_nat (length inputs) + Z.of_nat (length outputs) in
  let! q := sget in
  if n =? 0 then serr InvalidArgs
  else if queue_size q <? n + num_used q then serr BufferTooSmall
  else
    let head := free_head q in
    let! last := take_descs NEXT inputs head in
    let! last := take_descs (Z.lor NEXT WRITE) outputs last in
    let! d := desc_at last in
    write_desc last (MkDescriptor (d_addr d) (d_len d) (Z.ldiff (d_flags d) NEXT) (d_next d)) ;!
    let! q := sget in
    let avail_slot := Z.land (avail_idx q) (queue_size q - 1) in
    let idx := (avail_idx q + 1) mod 2 ^ 16 in
    sput (set_avail (MkAvail (a_flags (avail_ring q)) idx (<[Z.to_nat avail_slot := head]> (a_ring (avail_ring q)))) idx
           (set_free (num_used q + n) (free_head q) q)) ;!
    sret head.

Definition add_buf (inputs outputs : list slice) : queueM Z :=
  add ((fun s => (sl_ptr s, sl_len s)) <$> inputs) ((fun s => (sl_ptr s, sl_len s)) <$> outputs).

Definition add_vm (inputs : list VmReader) (outputs : list VmWriter) : queueM Z :=
  add ((fun r => (rd_cursor r, remain r)) <$> inputs) ((fun w => (wr_cursor w, avail w)) <$> outputs).

End Queue.

Notation can_pop q := (negb (last_used_idx q =? u_idx (used_ring q)))%Z (only parsing).

(** The loop of [recycle_descriptors].  Every turn counts [num_used] down, and
    a turn with none left panics, so [S num_used] turns are enough. *)
Fixpoint recycle_loop (fuel : nat) (origin_free_head head : Z) : queueM unit :=
  match fuel with
  | O => spanic
  | S fuel' =>
      let! d := desc_at head in
      let! q := sget in
      let! used := slift (usub (num_used q) 1) in
      sput (set_free used (free_head q) q) ;!
      if negb (Z.land (d_flags d) NEXT =? 0) then recycle_loop fuel' origin_free_head (d_next d)
      else write_desc head (MkDescriptor (d_addr d) (d_len d) (d_flags d) origin_free_head)
  end.

Definition recycle_descriptors (head : Z) : queueM unit :=
  let! q := sget in
  let origin_free_head := free_head q in
  sput (set_free (num_used q) head q) ;!
  let last_free_head := if head =? 0 then queue_size q - 1 else head - 1 in
  let! d := desc_at last_free_head in
  write_desc last_free_head (MkDescriptor (d_addr d) (d_len d) (d_flags d) head) ;!
  recycle_loop (S (Z.to_nat (num_used q))) origin_free_head head.

(** The next element of the used ring *)
Definition used_elem : queueM (Z * Z) :=
  let! q := sget in
  slift (ounwrap (u_ring (used_ring q) !! Z.to_nat (Z.land (last_used_idx q) (queue_size q - 1)))).

Definition pop_used : queueM (Z * Z) :=
  let! q := sget in
  if negb (can_pop q) then serr NotReady
  else
    let! e := used_elem in
    let index := e.1 mod 2 ^ 16 in
    recycle_descriptors index ;!
    let! q := sget in
    sput (set_last_used ((last_used_idx q + 1) mod 2 ^ 16) q) ;!
    sret (index, e.2).

Definition pop_used_with_token (token : Z) : queueM Z :=
  let! q := sget in
  if negb (can_pop q) then serr NotReady
  else
    let! e := used_elem in
    let index := e.1 mod 2 ^ 16 in
    if negb (index =? token) then serr WrongToken
    else
      recycle_descriptors index ;!
      let! q := sget in
      sput (set_last_used ((last_used_idx q + 1) mod 2 ^ 16) q) ;!
      sret e.2.
