(* ===== verification/VirtQueueFacts.v ===== *)
(** Virtqueues whose requests complete in last-in first-out order -- in
    particular those with one request at a time -- hand out disjoint descriptor
    chains; when two requests complete in the order they were made, the free
    list is corrupted. *)

From S2P Require Import Prelude AlignExt Frame VirtQueue.

(** What the device sees of a descriptor, apart from the link *)
Definition cell_of (d : Descriptor) : Z * Z * Z := (d_addr d, d_len d, d_flags d).

(** The last cell of a chain has no successor. *)
Definition unlink_cell (c : Z * Z * Z) : Z * Z * Z := (c.1, Z.ldiff c.2 NEXT).

(** * The descriptor table *)

(** The table [ds] of a queue of [n] descriptors, linked in a circle, begins
    with the cells [cs]. *)
Record table (n : nat) (ds : list Descriptor) (cs : list (Z * Z * Z)) : Prop := {
  tb_length : length ds = S n;
  tb_next : forall i, (i < n)%nat -> d_next <$> ds !! i = Some (Z.of_nat (S i) mod Z.of_nat n);
  tb_cells : take (length cs) (cell_of <$> ds) = cs;
  tb_room : (length cs <= n)%nat;
}.

Lemma table_snoc n ds cs a l f :
  table n ds cs -> (length cs < n)%nat ->
  table n (<[length cs := MkDescriptor a l f (Z.of_nat (S (length cs)) mod Z.of_nat n)]> ds) (cs ++ [(a, l, f)]).
Proof.
  intros [Hl Hn Hc Hr] Hlt. split.
  - by rewrite length_insert.
  - intros i Hi. destruct (decide (i = length cs)) as [-> | Hne].
    + by rewrite list_lookup_insert_eq by lia.
    + rewrite list_lookup_insert_ne by done. by apply Hn.
  - rewrite length_app. cbn [length]. rewrite list_fmap_insert, Nat.add_1_r.
    erewrite take_S_r by (apply list_lookup_insert_eq; rewrite length_fmap; lia).
    rewrite take_insert_ge by lia. by rewrite Hc.
  - rewrite length_app. simpl. lia.
Qed.

(** Writing back a link that is already there *)
Lemma relink n ds cs i d x :
  table n ds cs -> (i < n)%nat -> ds !! i = Some d -> x = Z.of_nat (S i) mod Z.of_nat n ->
  <[i := MkDescriptor (d_addr d) (d_len d) (d_flags d) x]> ds = ds.
Proof.
  intros Ht Hi Hd ->. apply list_insert_id. rewrite Hd. f_equal. pose proof (tb_next _ _ _ Ht i Hi) as Hx. rewrite Hd in Hx.
  injection Hx as <-. by destruct d.
Qed.

Lemma table_unlink n ds cs k d :
  table n ds cs -> (k < length cs)%nat -> ds !! k = Some d ->
  table n (<[k := MkDescriptor (d_addr d) (d_len d) (Z.ldiff (d_flags d) NEXT) (d_next d)]> ds) (alter unlink_cell k cs).
Proof.
  intros [Hl Hn Hc Hr] Hk Hd. split.
  - by rewrite length_insert.
  - intros i Hi. destruct (decide (i = k)) as [-> | Hne].
    + rewrite list_lookup_insert_eq by lia. rewrite <- Hn, Hd by done. done.
    + rewrite list_lookup_insert_ne by done. by apply Hn.
  - rewrite length_alter, list_fmap_insert. apply list_eq. intros i. destruct (decide (i < length cs)%nat).
    + rewrite lookup_take_lt by lia. assert (Hi : (cell_of <$> ds) !! i = cs !! i) by (rewrite <- (lookup_take_lt (cell_of <$> ds) (length cs) i) by lia; by rewrite Hc).
      destruct (decide (i = k)) as [-> | Hne].
      * rewrite list_lookup_insert_eq by (rewrite length_fmap; lia). rewrite list_lookup_alter_eq, <- Hi, list_lookup_fmap, Hd. done.
      * by rewrite list_lookup_insert_ne, list_lookup_alter_ne by done.
    + rewrite lookup_take_ge by lia. symmetry. apply lookup_ge_None. rewrite length_alter. lia.
  - by rewrite length_alter.
Qed.

Lemma run_desc_at {A} q i d (k : Descriptor -> stM VirtQueue QueueError A) :
  descs q !! i = Some d -> (i < 256)%nat -> sbind (desc_at (Z.of_nat i)) k q = k d q.
Proof.
  intros Hd Hi. unfold sbind, desc_at. rewrite (proj2 (Z.leb_le _ _)) by (unfold PAGE_SIZE; lia). by rewrite Nat2Z.id, Hd.
Qed.

Lemma run_write_desc {A} q i d (k : unit -> stM VirtQueue QueueError A) :
  (i < length (descs q))%nat -> (i < 256)%nat ->
  sbind (write_desc (Z.of_nat i) d) k q = k tt (set_descs (<[i := d]> (descs q)) q).
Proof.
  intros Hl Hi. destruct (lookup_lt_is_Some_2 _ _ Hl) as [x Hx]. unfold write_desc.
  rewrite sbind_assoc, (run_desc_at q i x) by done. unfold sbind. by rewrite Nat2Z.id.
Qed.

Section Take.
Context (v2p : Z -> option Z).

(** The cells of buffers and those of a chain *)
Definition buf_cell (flags : Z) (b : buf) : Z * Z * Z := (default 0 (v2p b.1), b.2 mod 2 ^ 32, flags).
Definition chain_cells (inputs outputs : list buf) : list (Z * Z * Z) :=
  let cs := (buf_cell NEXT <$> inputs) ++ (buf_cell (Z.lor NEXT WRITE) <$> outputs) in
  alter unlink_cell (pred (length cs)) cs.

Lemma run_take n flags bufs : (n <= 256)%nat -> Forall (fun b : buf => is_Some (v2p b.1)) bufs ->
  forall q cs last, table n (descs q) cs -> (length cs + length bufs <= n)%nat ->
  free_head q = Z.of_nat (length cs) mod Z.of_nat n ->
  exists ds, table n ds (cs ++ (buf_cell flags <$> bufs)) /\
    take_descs v2p flags bufs last q =
      (Ok (match bufs with [] => last | _ => Z.of_nat (length cs + length bufs - 1) end),
       set_free (num_used q) (Z.of_nat (length cs + length bufs) mod Z.of_nat n) (set_descs ds q)).
Proof.
  intros Hn. induction bufs as [|b bufs IH]; intros Hb q cs last Ht Hlen Hfree.
  - exists (descs q). rewrite app_nil_r. split; [done|]. cbn. rewrite Nat.add_0_r, <- Hfree. by destruct q.
  - apply Forall_cons in Hb as [[pa Hpa] Hb]. cbn [length] in Hlen. rewrite Z.mod_small in Hfree by lia.
    assert (Hi : (length cs < length (descs q))%nat) by (rewrite (tb_length _ _ _ Ht); lia).
    destruct (lookup_lt_is_Some_2 _ _ Hi) as [d Hd].
    pose proof (tb_next _ _ _ Ht (length cs)) as Hnext. rewrite Hd in Hnext. specialize (Hnext ltac:(lia)). injection Hnext as Hnext.
    pose proof (table_snoc n (descs q) cs pa (b.2 mod 2 ^ 32) flags Ht ltac:(lia)) as Ht1.
    set (ds1 := <[length cs := _]> (descs q)) in Ht1.
    set (q1 := set_free (num_used q) (d_next d) (set_descs ds1 q)).
    destruct (IH Hb q1 (cs ++ [(pa, b.2 mod 2 ^ 32, flags)]) (Z.of_nat (length cs))) as (ds & Ht2 & Hrun).
    + done.
    + rewrite length_app. simpl. lia.
    + simpl. rewrite Hnext, length_app, Nat.add_1_r. done.
    + exists ds. split.
      { rewrite <- app_assoc in Ht2. cbn. unfold buf_cell at 1. by rewrite Hpa. }
      cbn [take_descs]. erewrite sbind_ok by reflexivity. cbn beta zeta. rewrite Hfree. unfold set_buf.
      rewrite sbind_assoc, (slift_ok _ _ _ pa) by (by rewrite Hpa).
      rewrite sbind_assoc, (run_desc_at q _ d) by (done || lia). rewrite run_write_desc by (done || lia).
      erewrite run_desc_at by (cbn [descs set_descs]; by rewrite ?list_lookup_insert_eq || lia). cbn [d_addr d_len d_next].
      rewrite run_write_desc by (cbn [descs set_descs]; rewrite ?length_insert; lia).
      cbn [descs set_descs]. rewrite list_insert_insert_eq. erewrite sbind_ok by reflexivity. erewrite sbind_ok by reflexivity.
      transitivity (take_descs v2p flags bufs (Z.of_nat (length cs)) q1); [unfold q1, ds1; by rewrite <- Hnext|].
      rewrite Hrun, length_app. cbn [length].
      replace (length cs + 1 + length bufs)%nat with (length cs + S (length bufs))%nat by lia.
      f_equal. destruct bufs; [|done]. cbn. do 2 f_equal. lia.
Qed.

Lemma length_chain_cells ins outs : length (chain_cells ins outs) = (length ins + length outs)%nat.
Proof. unfold chain_cells. by rewrite length_alter, length_app, !length_fmap. Qed.

(** A chain: every cell but the last has a successor. *)
Definition is_chain (c : list (Z * Z * Z)) : Prop :=
  c <> [] /\ forall j x, c !! j = Some x -> (Z.land x.2 NEXT <> 0 <-> (S j < length c)%nat).

Lemma chain_cells_ok ins outs : ins ++ outs <> [] -> is_chain (chain_cells ins outs).
Proof.
  intros Hne. assert (Hlen : (0 < length ins + length outs)%nat) by (rewrite <- length_app; by destruct (ins ++ outs); [|simpl; lia]).
  split; [intros Hnil; apply (f_equal length) in Hnil; rewrite length_chain_cells in Hnil; simpl in Hnil; lia|].
  intros j x. rewrite length_chain_cells. unfold chain_cells. set (cs := _ ++ _).
  assert (Hcs : length cs = (length ins + length outs)%nat) by (unfold cs; by rewrite length_app, !length_fmap).
  assert (Hfl : forall i y, cs !! i = Some y -> y.2 = 1 \/ y.2 = 3).
  { intros i y Hy. apply list_elem_of_lookup_2 in Hy. apply elem_of_app in Hy as [Hy | Hy];
      apply list_elem_of_fmap in Hy as (b & -> & _); [by left|by right]. }
  destruct (decide (j = pred (length cs))) as [-> | Hj].
  - rewrite list_lookup_alter_eq. intros Hx. apply fmap_Some in Hx as (y & Hy & ->).
    destruct (Hfl _ _ Hy) as [E | E]; unfold unlink_cell; cbn [snd]; rewrite E; cbn; (split; [done|lia]).
  - rewrite list_lookup_alter_ne by done. intros Hx. pose proof (lookup_lt_Some _ _ _ Hx).
    split; [lia|]. intros _. destruct (Hfl _ _ Hx) as [E | E]; rewrite E; done.
Qed.

End Take.

(** * Last in, first out *)

(** The device puts a chain into the used ring. *)
Definition device_use (id len : Z) (q : VirtQueue) : VirtQueue :=
  let u := used_ring q in
  MkQueue (descs q) (avail_ring q)
    (MkUsed (u_flags u) ((u_idx u + 1) mod 2 ^ 16) (<[Z.to_nat (Z.land (u_idx u) (queue_size q - 1)) := (id, len)]> (u_ring u)))
    (queue_size q) (num_used q) (free_head q) (avail_idx q) (last_used_idx q).

(** A queue of [n] descriptors with the outstanding chains [st], oldest first,
    one after the other from the start of the table *)
Record lifo (n : nat) (q : VirtQueue) (st : list (list (Z * Z * Z))) : Prop := {
  lf_pow : exists k, n = (2 ^ k)%nat /\ (k <= 8)%nat;
  lf_size : queue_size q = Z.of_nat n;
  lf_table : table n (descs q) (concat st);
  lf_chains : Forall is_chain st;
  lf_used : num_used q = Z.of_nat (length (concat st));
  lf_free : free_head q = Z.of_nat (length (concat st)) mod Z.of_nat n;
}.

(** The driver has seen every element of the used ring. *)
Definition drained (n : nat) (q : VirtQueue) : Prop :=
  last_used_idx q = u_idx (used_ring q) /\ 0 <= last_used_idx q < 2 ^ 16 /\ length (u_ring (used_ring q)) = n.

Lemma pow_bound n : (exists k, n = (2 ^ k)%nat /\ (k <= 8)%nat) -> (0 < n <= 256)%nat.
Proof. intros (k & -> & Hk). do 9 (destruct k as [|k]; [simpl; lia|]). lia. Qed.

(** The slot of an index in a ring *)
Lemma slot_lt n i : (exists k, n = (2 ^ k)%nat /\ (k <= 8)%nat) -> 0 <= i -> (Z.to_nat (Z.land i (Z.of_nat n - 1)) < n)%nat.
Proof.
  intros Hk Hi. pose proof (pow_bound n Hk). destruct Hk as (k & -> & Hk).
  assert (E : Z.of_nat (2 ^ k) = 2 ^ Z.of_nat k) by (by rewrite Nat2Z.inj_pow).
  assert (Eo : Z.of_nat (2 ^ k) - 1 = Z.ones (Z.of_nat k)) by (rewrite Z.ones_equiv; lia).
  rewrite Eo, Z.land_ones by lia. pose proof (Z.mod_pos_bound i (2 ^ Z.of_nat k) ltac:(lia)). lia.
Qed.

Section Lifo.
Context (v2p : Z -> option Z).

Lemma lifo_add n q st ins outs :
  lifo n q st -> Forall (fun b : buf => is_Some (v2p b.1)) (ins ++ outs) -> ins ++ outs <> [] ->
  (length (concat st) + length (ins ++ outs) <= n)%nat ->
  exists q', add v2p ins outs q = (Ok (Z.of_nat (length (concat st))), q') /\
    lifo n q' (st ++ [chain_cells v2p ins outs]) /\ (drained n q -> drained n q').
Proof.
  intros [Hpow Hsz Ht Hch Hu Hf] Hb Hne Hroom. pose proof (pow_bound n Hpow) as Hn. rewrite length_app in Hroom.
  apply Forall_app in Hb as [Hbi Hbo].
  assert (Hlen : (0 < length ins + length outs)%nat) by (rewrite <- length_app; by destruct (ins ++ outs); [|simpl; lia]).
  destruct (run_take v2p n NEXT ins ltac:(lia) Hbi q (concat st) (free_head q) Ht ltac:(lia) Hf) as (ds1 & Ht1 & Hr1).
  set (q1 := set_free _ _ (set_descs ds1 q)) in Hr1. set (last1 := match ins with [] => free_head q | _ => _ end) in Hr1.
  destruct (run_take v2p n (Z.lor NEXT WRITE) outs ltac:(lia) Hbo q1 _ last1 Ht1) as (ds2 & Ht2 & Hr2).
  { rewrite length_app, length_fmap. lia. }
  { unfold q1. cbn. by rewrite length_app, length_fmap. }
  rewrite <- app_assoc in Ht2. set (new := (buf_cell v2p NEXT <$> ins) ++ (buf_cell v2p (Z.lor NEXT WRITE) <$> outs)) in Ht2.
  assert (Hnew : length new = (length ins + length outs)%nat) by (unfold new; by rewrite length_app, !length_fmap).
  set (k := (length (concat st) + pred (length new))%nat).
  assert (Hlast : match outs with [] => last1
    | _ => Z.of_nat (length (concat st ++ (buf_cell v2p NEXT <$> ins)) + length outs - 1) end = Z.of_nat k).
  { unfold k, last1. rewrite Hnew, length_app, length_fmap. destruct outs; [destruct ins; [simpl in Hlen; lia|]|]; cbn [length]; lia. }
  rewrite Hlast in Hr2.
  assert (Hk : (k < length ds2)%nat) by (rewrite (tb_length _ _ _ Ht2); unfold k; lia).
  destruct (lookup_lt_is_Some_2 _ _ Hk) as [d Hd].
  pose proof (table_unlink n ds2 _ k d Ht2 ltac:(rewrite length_app; unfold k; lia) Hd) as Ht3.
  unfold k in Ht3. rewrite alter_app_r in Ht3. fold k in Ht3. fold new in Ht3.
  assert (Hcc : concat (st ++ [chain_cells v2p ins outs]) = concat st ++ chain_cells v2p ins outs) by (rewrite concat_app; cbn; by rewrite app_nil_r).
  eexists. split.
  - unfold add. erewrite sbind_ok by reflexivity. cbn beta zeta. rewrite Hu, Hsz.
    destruct (Z.eqb_spec (Z.of_nat (length ins) + Z.of_nat (length outs)) 0); [lia|]. rewrite (proj2 (Z.ltb_ge _ _)) by lia.
    rewrite (sbind_ok _ _ _ _ _ Hr1), (sbind_ok _ _ _ _ _ Hr2). rewrite (run_desc_at _ k d) by (done || unfold k; lia).
    rewrite run_write_desc by (done || unfold k; lia). erewrite sbind_ok by reflexivity. erewrite sbind_ok by reflexivity.
    rewrite Hf, Z.mod_small by lia. reflexivity.
  - split; [|done]. rewrite length_app, length_fmap in *. split; cbn; rewrite ?Hcc; try done.
    + apply Forall_app. split; [done|]. apply Forall_singleton. by apply chain_cells_ok.
    + rewrite Hu, length_app, length_chain_cells. lia.
    + rewrite length_app, length_chain_cells. f_equal. lia.
Qed.

Lemma table_cell n ds cs i x : table n ds cs -> cs !! i = Some x -> exists d, ds !! i = Some d /\ cell_of d = x.
Proof.
  intros Ht Hx. pose proof (lookup_lt_Some _ _ _ Hx). rewrite <- (tb_cells _ _ _ Ht), lookup_take_lt, list_lookup_fmap in Hx by lia.
  apply fmap_Some in Hx as (d & Hd & ->). eauto.
Qed.

(** The loop goes along the chain [c] from its [j]-th cell and changes only the
    count of used descriptors. *)
Lemma run_recycle n pre c fuel q j :
  table n (descs q) (pre ++ c) -> (n <= 256)%nat -> is_chain c -> (j < length c)%nat -> (length c - j <= fuel)%nat ->
  Z.of_nat (length c - j) <= num_used q ->
  recycle_loop fuel (Z.of_nat (length pre + length c) mod Z.of_nat n) (Z.of_nat (length pre + j)) q =
    (Ok tt, set_free (num_used q - Z.of_nat (length c - j)) (free_head q) q).
Proof.
  revert q j. induction fuel as [|fuel IH]; intros q j Ht Hn Hc Hj Hfuel Hu; [lia|]. cbn [recycle_loop].
  pose proof (tb_room _ _ _ Ht) as Hroom. rewrite length_app in Hroom.
  destruct (lookup_lt_is_Some_2 c j Hj) as [x Hx].
  destruct (table_cell n (descs q) (pre ++ c) (length pre + j) x Ht) as (d & Hd & Hdx).
  { rewrite lookup_app_r by lia. rewrite <- Hx. f_equal. lia. }
  assert (Hfl : d_flags d = x.2) by (by subst x).
  pose proof (tb_next _ _ _ Ht (length pre + j) ltac:(lia)) as Hnext. rewrite Hd in Hnext. injection Hnext as Hnext.
  rewrite (run_desc_at q _ d) by (done || lia). erewrite sbind_ok by reflexivity.
  rewrite (slift_ok _ _ _ (num_used q - 1)) by (apply usub_ok; lia). erewrite sbind_ok by reflexivity.
  pose proof (proj2 Hc j x Hx) as Hlj. rewrite Hfl.
  destruct (decide (S j < length c)%nat) as [Hlt | Hge].
  - rewrite (proj2 (Z.eqb_neq _ _)) by tauto. cbn [negb]. rewrite Hnext, (Z.mod_small (Z.of_nat (S _))) by lia.
    replace (S (length pre + j)) with (length pre + S j)%nat by lia.
    rewrite (IH (set_free (num_used q - 1) (free_head q) q) (S j)) by (done || cbn; lia).
    f_equal. unfold set_free; cbn; f_equal; lia.
  - assert (Hz : Z.land x.2 NEXT = 0) by (destruct (Z.eq_dec (Z.land x.2 NEXT) 0); [done|tauto]).
    rewrite Hz. cbn [Z.eqb negb]. unfold write_desc. rewrite (run_desc_at _ _ d) by (done || lia). cbn [descs set_free].
    rewrite Nat2Z.id, <- Hfl, (relink n (descs q) (pre ++ c)) by (done || lia || (do 2 f_equal; lia)).
    f_equal. unfold set_descs, set_free; cbn; f_equal; lia.
Qed.

Lemma lifo_recycle n q st c :
  lifo n q (st ++ [c]) -> recycle_descriptors (Z.of_nat (length (concat st))) q =
    (Ok tt, set_free (Z.of_nat (length (concat st))) (Z.of_nat (length (concat st))) q).
Proof.
  intros [Hpow Hsz Ht Hch Hu Hf]. pose proof (pow_bound n Hpow) as Hn.
  assert (Hcc : concat (st ++ [c]) = concat st ++ c) by (rewrite concat_app; cbn; by rewrite app_nil_r).
  rewrite Hcc in *. rewrite length_app in *. apply Forall_app in Hch as [_ Hc]. rewrite Forall_singleton in Hc.
  pose proof (tb_room _ _ _ Ht) as Hroom. rewrite length_app in Hroom.
  assert (Hlen : (0 < length c)%nat) by (destruct Hc, c; [done|simpl; lia]).
  set (h := length (concat st)) in *. unfold recycle_descriptors. erewrite sbind_ok by reflexivity. cbn beta zeta.
  erewrite sbind_ok by reflexivity. rewrite Hsz.
  set (q1 := set_free (num_used q) (Z.of_nat h) q).
  set (i := if decide (h = 0)%nat then pred n else pred h).
  replace (if Z.of_nat h =? 0 then Z.of_nat n - 1 else Z.of_nat h - 1) with (Z.of_nat i)
    by (unfold i; destruct (Z.eqb_spec (Z.of_nat h) 0), (decide (h = 0)%nat); lia).
  assert (Hi : (i < n)%nat) by (unfold i; case_decide; lia).
  destruct (lookup_lt_is_Some_2 (descs q) i) as [d Hd]; [rewrite (tb_length _ _ _ Ht); lia|].
  rewrite (run_desc_at q1 i d) by (done || lia). rewrite run_write_desc by (cbn; rewrite ?(tb_length _ _ _ Ht); lia).
  cbn [descs q1 set_free]. rewrite (relink n (descs q) (concat st ++ c) i d) ; [|done|done|done|].
  2: { unfold i. case_decide as Hh; [rewrite Hh|rewrite Nat.succ_pred by done; by rewrite Z.mod_small by lia].
       rewrite Nat.succ_pred by lia. by rewrite Z.mod_same by lia. }
  rewrite Hf. replace (Z.of_nat h) with (Z.of_nat (h + 0)) at 1 by lia. unfold h at 1 2.
  rewrite (run_recycle n (concat st) c _ (set_descs (descs q) q1) 0) by (done || cbn; lia).
  f_equal. unfold set_free, set_descs; cbn. rewrite Hu. f_equal; lia.
Qed.

Lemma lifo_pop n q st c len :
  lifo n q (st ++ [c]) -> drained n q -> exists q',
  pop_used (device_use (Z.of_nat (length (concat st))) len q) = (Ok (Z.of_nat (length (concat st)), len), q') /\
  lifo n q' st /\ drained n q'.
Proof.
  intros Hl (Hidx & Hr & Hring). set (id := Z.of_nat (length (concat st))). set (qd := device_use id len q).
  assert (Hld : lifo n qd (st ++ [c])) by (destruct Hl; by split).
  pose proof (lifo_recycle n qd st c Hld) as Hrec. fold id in Hrec.
  destruct Hl as [Hpow Hsz Ht Hch Hu Hf]. pose proof (pow_bound n Hpow) as Hn.
  assert (Hcc : concat (st ++ [c]) = concat st ++ c) by (rewrite concat_app; cbn; by rewrite app_nil_r).
  pose proof (tb_room _ _ _ Ht) as Hroom. rewrite Hcc, length_app in Hroom. apply Forall_app in Hch as [Hch Hc].
  rewrite Forall_singleton in Hc. assert (Hlen : (0 < length c)%nat) by (destruct Hc, c; [done|simpl; lia]).
  pose proof (slot_lt n (last_used_idx q) Hpow ltac:(lia)) as Hslot.
  eexists. split; [|split].
  - unfold pop_used. erewrite sbind_ok by reflexivity. cbn [last_used_idx used_ring u_idx qd device_use].
    rewrite <- Hidx, (proj2 (Z.eqb_neq _ _)) by (destruct (decide (last_used_idx q = 65535)) as [-> | ];
      [done|rewrite Z.mod_small by lia; lia]). cbn [negb].
    unfold used_elem. rewrite sbind_assoc. erewrite sbind_ok by reflexivity.
    rewrite (slift_ok _ _ _ (id, len)) by (cbn; rewrite <- Hidx, Hsz, list_lookup_insert_eq by lia; done).
    cbn [fst snd]. rewrite Z.mod_small by (unfold id; lia). rewrite (sbind_ok _ _ _ _ _ Hrec).
    erewrite sbind_ok by reflexivity. erewrite sbind_ok by reflexivity. reflexivity.
  - split; cbn; try done.
    + destruct Ht as [Hl2 Hx Hcells Hr2]. split; try done; [|lia].
      rewrite Hcc in Hcells. apply (f_equal (take (length (concat st)))) in Hcells.
      rewrite take_take, take_app_length in Hcells. by rewrite length_app, Nat.min_l in Hcells by lia.
    + unfold id. rewrite Z.mod_small by lia. done.
  - unfold drained. cbn. rewrite length_insert, Hidx. split; [done|]. split; [|done]. apply Z.mod_pos_bound. lia.
Qed.

End Lifo.

(** * Runs of a queue *)

(** The descriptors that the device visits from [i] on, with what it sees *)
Fixpoint device_walk (fuel : nat) (q : VirtQueue) (i : Z) : list (Z * (Z * Z * Z)) :=
  match fuel with
  | O => []
  | S fuel' =>
      match descs q !! Z.to_nat i with
      | None => []
      | Some d => (i, cell_of d) :: if Z.land (d_flags d) NEXT =? 0 then [] else device_walk fuel' q (d_next d)
      end
  end.

Lemma device_walk_chain n q pre c post fuel j :
  table n (descs q) (pre ++ c ++ post) -> is_chain c -> (j < length c)%nat -> (length c - j <= fuel)%nat ->
  device_walk fuel q (Z.of_nat (length pre + j)) =
    zip (seqZ (Z.of_nat (length pre + j)) (Z.of_nat (length c - j))) (drop j c).
Proof.
  revert j. induction fuel as [|fuel IH]; intros j Ht Hc Hj Hfuel; [lia|]. cbn [device_walk].
  destruct (lookup_lt_is_Some_2 c j Hj) as [x Hx].
  destruct (table_cell n (descs q) _ (length pre + j) x Ht) as (d & Hd & Hdx).
  { rewrite lookup_app_r by lia. rewrite lookup_app_l by lia. rewrite <- Hx. f_equal. lia. }
  assert (Hfl : d_flags d = x.2) by (by subst x). rewrite Nat2Z.id, Hd, Hdx, Hfl, (drop_S c x j) by done.
  pose proof (tb_room _ _ _ Ht) as Hroom. rewrite !length_app in Hroom.
  pose proof (tb_next _ _ _ Ht (length pre + j) ltac:(lia)) as Hnext. rewrite Hd in Hnext. injection Hnext as Hnext.
  rewrite seqZ_cons by lia. cbn [zip zip_with]. f_equal. pose proof (proj2 Hc j x Hx) as Hlj.
  destruct (Z.eqb_spec (Z.land x.2 NEXT) 0) as [Hz | Hz].
  - assert (length c - j = 1)%nat as -> by (assert (~ (S j < length c)%nat) by tauto; lia). done.
  - assert (Hlt : (S j < length c)%nat) by tauto. rewrite Hnext, Z.mod_small by lia.
    replace (S (length pre + j)) with (length pre + S j)%nat by lia. rewrite IH by (done || lia).
    f_equal. f_equal; lia.
Qed.

Section Runs.
Context (v2p : Z -> option Z).

(** The queue and the outstanding requests, oldest first: the token of each and
    its buffers as cells.  Requests are added, and the device completes the
    newest one, which the driver then pops. *)
Inductive lstep : VirtQueue * list (Z * list (Z * Z * Z)) -> VirtQueue * list (Z * list (Z * Z * Z)) -> Prop :=
  | LAdd q st ins outs r q' :
      Forall (fun b : buf => is_Some (v2p b.1)) (ins ++ outs) -> add v2p ins outs q = (r, q') ->
      lstep (q, st) (q', match r with Ok token => st ++ [(token, chain_cells v2p ins outs)] | _ => st end)
  | LPop q st token cs len r q' :
      pop_used (device_use token len q) = (r, q') -> lstep (q, st ++ [(token, cs)]) (q', st).

(** The token of a request is the place of its chain in the table. *)
Definition tokens_ok (st : list (Z * list (Z * Z * Z))) : Prop :=
  forall pre token cs post, st = pre ++ (token, cs) :: post -> token = Z.of_nat (length (concat pre.*2)).

Definition linv (n : nat) (s : VirtQueue * list (Z * list (Z * Z * Z))) : Prop :=
  lifo n s.1 s.2.*2 /\ drained n s.1 /\ tokens_ok s.2.

(** What [add] returns *)
Lemma add_cases n q st ins outs :
  lifo n q st -> Forall (fun b : buf => is_Some (v2p b.1)) (ins ++ outs) ->
  (add v2p ins outs q).1 =
    (if decide (ins ++ outs = []) then Err InvalidArgs
     else if decide (n < length (concat st) + length (ins ++ outs))%nat then Err BufferTooSmall
     else Ok (Z.of_nat (length (concat st)))) /\
  (forall e, (add v2p ins outs q).1 = Err e -> (add v2p ins outs q).2 = q).
Proof.
  intros Hl Hb. case_decide as Hnil.
  { apply app_eq_nil in Hnil as [-> ->]. done. }
  assert (Hlen : (0 < length (ins ++ outs))%nat) by (by destruct (ins ++ outs); [|simpl; lia]).
  case_decide as Hroom.
  - unfold add. erewrite sbind_ok by reflexivity. cbn beta zeta. rewrite length_app in *.
    rewrite (lf_used _ _ _ Hl), (lf_size _ _ _ Hl).
    destruct (Z.eqb_spec (Z.of_nat (length ins) + Z.of_nat (length outs)) 0); [lia|]. rewrite (proj2 (Z.ltb_lt _ _)) by lia. done.
  - destruct (lifo_add v2p n q st ins outs Hl Hb Hnil) as (q' & -> & _); [lia|done].
Qed.

Lemma tokens_snoc st token cs :
  tokens_ok (st ++ [(token, cs)]) <-> tokens_ok st /\ token = Z.of_nat (length (concat st.*2)).
Proof.
  split.
  - intros Ht. split; [|by apply (Ht st token cs [])]. intros pre t c post ->. apply (Ht pre t c (post ++ [(token, cs)])).
    by rewrite <- app_assoc.
  - intros [Ht ->] pre t c post Heq. destruct (decide (post = [])) as [-> | Hne].
    + apply app_inj_tail in Heq as [-> [= <- <-]]. done.
    + destruct (exists_last Hne) as (post' & x & ->). rewrite app_comm_cons, app_assoc in Heq.
      apply app_inj_tail in Heq as [-> _]. by eapply Ht.
Qed.

Lemma lstep_inv n s s' : lstep s s' -> linv n s -> linv n s'.
Proof.
  intros Hstep (Hl & Hd & Htk). destruct Hstep as [q st ins outs r q' Hb Hadd | q st token cs len r q' Hpop]; cbn [fst snd] in *.
  - destruct (add_cases n q st.*2 ins outs Hl Hb) as [Hr Hq]. rewrite Hadd in Hr, Hq. cbn [fst snd] in Hr, Hq.
    repeat case_decide; subst r; [by rewrite (Hq _ eq_refl)|by rewrite (Hq _ eq_refl)|].
    destruct (lifo_add v2p n q st.*2 ins outs Hl Hb) as (q2 & Hadd2 & Hl2 & Hd2); [done|lia|]. rewrite Hadd in Hadd2.
    injection Hadd2 as <-. split; [cbn [fst snd]; by rewrite fmap_app|]. split; [by apply Hd2|]. by apply tokens_snoc.
  - apply tokens_snoc in Htk as [Htk ->]. rewrite fmap_app in Hl. destruct (lifo_pop n q st.*2 cs len Hl Hd) as (q2 & Hpop2 & Hl2 & Hd2).
    rewrite Hpop in Hpop2. by injection Hpop2 as _ <-.
Qed.

Lemma queue_new_inv size q : 0 <= size -> queue_new size = Ok q -> linv (Z.to_nat size) (q, []) /\ queue_size q = size.
Proof.
  intros Hs. unfold queue_new. destruct (is_power_of_two size) eqn:Hp; [|done]. destruct (Z.ltb_spec 256 size) as [|Hle]; [done|]. cbn [negb].
  intros [= <-]. apply is_power_of_two_spec in Hp as (k & Hk & ->); [|done].
  assert (Hk8 : k <= 8). { destruct (Z.le_gt_cases k 8) as [|Hgt]; [done|]. apply (Z.pow_lt_mono_r 2) in Hgt; lia. }
  assert (Hn : exists j, Z.to_nat (2 ^ k) = (2 ^ j)%nat /\ (j <= 8)%nat).
  { exists (Z.to_nat k). split; [|lia]. rewrite Z2Nat.inj_pow by lia. done. }
  pose proof (pow_bound _ Hn). split; [|done]. split; [|split].
  - split; cbn; try done; [lia|]. split; cbn; try lia.
    + rewrite length_fmap. unfold zrange. rewrite length_seqZ. lia.
    + intros i Hi. unfold zrange. rewrite list_lookup_fmap, lookup_seqZ_lt by lia. cbn. f_equal. rewrite ?Z.add_0_l.
      destruct (Z.ltb_spec (Z.of_nat i) (2 ^ k - 1)); [rewrite Z.mod_small; lia|].
      replace (Z.of_nat (S i)) with (Z.of_nat (Z.to_nat (2 ^ k))) by lia. by rewrite Z.mod_same by lia.
    + done.
  - split; [done|]. split; [done|]. cbn. by rewrite length_replicate.
  - by intros [].
Qed.

(** The chain of every outstanding request *)
Lemma walk_request n q st r :
  linv n (q, st) -> r ∈ st -> device_walk n q r.1 = zip (seqZ r.1 (Z.of_nat (length r.2))) r.2.
Proof.
  intros (Hl & _ & Htk) Hr. cbn [fst snd] in *. destruct r as [token cs]. apply list_elem_of_split in Hr as (pre & post & ->).
  rewrite (Htk pre token cs post eq_refl). cbn [fst snd]. pose proof (lf_table _ _ _ Hl) as Ht. pose proof (lf_chains _ _ _ Hl) as Hch.
  rewrite fmap_app, fmap_cons in Ht, Hch. rewrite concat_app in Ht. cbn [concat snd] in Ht, Hch.
  apply Forall_app in Hch as [_ Hch]. apply Forall_cons in Hch as [Hc _].
  pose proof (tb_room _ _ _ Ht) as Hroom. rewrite !length_app in Hroom.
  assert (Hlen : (0 < length cs)%nat) by (destruct Hc, cs; [done|simpl; lia]).
  pose proof (device_walk_chain n q (concat pre.*2) cs (concat post.*2) n 0 Ht Hc Hlen ltac:(lia)) as Hw.
  rewrite Nat.add_0_r, Nat.sub_0_r, drop_0 in Hw. done.
Qed.

Lemma tokens_seq st :
  tokens_ok st -> concat ((fun r : Z * list (Z * Z * Z) => seqZ r.1 (Z.of_nat (length r.2))) <$> st) =
    seqZ 0 (Z.of_nat (length (concat st.*2))).
Proof.
  induction st as [|[token cs] st IH] using rev_ind; intros Ht; [done|]. apply tokens_snoc in Ht as [Ht ->].
  rewrite !fmap_app, !concat_app, IH, length_app by done. cbn. rewrite !app_nil_r, Nat2Z.inj_add, seqZ_app by lia. done.
Qed.

(** C12: a queue whose requests complete newest first works.  In every state
    that additions and such completions lead to, the device finds in the chain
    of each outstanding token exactly the buffers of that request, in order,
    with the device-writable ones marked; no descriptor is in two places of
    these chains, and they are all the descriptors counted as used.  An
    addition returns an error just when it has no buffers or more than there
    are free descriptors, and the completion of the newest request returns its
    token and length; neither panics. *)
Theorem virtqueue_lifo size q0 q st :
  0 <= size -> queue_new size = Ok q0 -> rtc lstep (q0, []) (q, st) ->
  let walk r := device_walk (Z.to_nat size) q r.1 in
  Forall (fun r => (walk r).*2 = r.2) st /\ NoDup (concat ((fun r => (walk r).*1) <$> st)) /\
  num_used q = Z.of_nat (length (concat ((fun r => (walk r).*1) <$> st))) /\
  (forall ins outs, Forall (fun b : buf => is_Some (v2p b.1)) (ins ++ outs) ->
     (add v2p ins outs q).1 =
       if decide (ins ++ outs = []) then Err InvalidArgs
       else if decide (size < num_used q + Z.of_nat (length (ins ++ outs))) then Err BufferTooSmall else Ok (num_used q)) /\
  (forall st' r len, st = st' ++ [r] -> (pop_used (device_use r.1 len q)).1 = Ok (r.1, len)).
Proof.
  intros Hpos Hnew Hreach walk. destruct (queue_new_inv size q0 Hpos Hnew) as [Hinit Hsz].
  pose proof (rtc_invariant lstep (linv (Z.to_nat size)) _ _ (lstep_inv _) Hreach Hinit) as (Hl & Hd & Htk). cbn [fst snd] in *.
  set (n := Z.to_nat size) in *.
  assert (Hw : forall r, r ∈ st -> walk r = zip (seqZ r.1 (Z.of_nat (length r.2))) r.2)
    by (intros r Hr; apply (walk_request n q st); done).
  assert (Hidx : concat ((fun r => (walk r).*1) <$> st) = seqZ 0 (Z.of_nat (length (concat st.*2)))).
  { rewrite <- tokens_seq by done. f_equal. apply list_fmap_ext. intros i r Hr. apply list_elem_of_lookup_2 in Hr.
    rewrite Hw by done. apply fst_zip. rewrite length_seqZ. lia. }
  split_and!.
  - apply Forall_forall. intros r Hr. rewrite Hw by done. apply snd_zip. rewrite length_seqZ. lia.
  - rewrite Hidx. apply NoDup_seqZ.
  - rewrite Hidx, length_seqZ, (lf_used _ _ _ Hl). lia.
  - intros ins outs Hb. rewrite (proj1 (add_cases n q st.*2 ins outs Hl Hb)), (lf_used _ _ _ Hl).
    repeat case_decide; done || (unfold n in *; lia).
  - intros st' [token cs] len ->. apply tokens_snoc in Htk as [_ ->]. rewrite fmap_app in Hl.
    destruct (lifo_pop n q st'.*2 cs len Hl Hd) as (q' & Hpop & _). cbn [fst]. by rewrite Hpop.
Qed.

End Runs.

(** * Examples *)

(** The kernel's linear mapping *)
Definition demo_v2p (va : Z) : option Z := if 1000 <=? va then Some (va - 1000) else None.

(** A queue of four descriptors *)
Definition demo_queue : VirtQueue := match queue_new 4 with Ok q => q | _ => MkQueue [] (MkAvail 0 0 []) (MkUsed 0 0 []) 0 0 0 0 0 end.

Lemma virtqueue_lifo_witness :
  let q := (add demo_v2p [(2000, 16)] [(3000, 512)] demo_queue).2 in
  queue_new 4 = Ok demo_queue /\ (device_walk 4 q 0).*2 = [(1000, 16, 1); (2000, 512, 2)] /\
  (pop_used (device_use 0 512 q)).1 = Ok (0, 512).
Proof.
  intros q. split; [vm_compute; reflexivity|].
  destruct (virtqueue_lifo demo_v2p 4 demo_queue q [(0, chain_cells demo_v2p [(2000, 16)] [(3000, 512)])]) as (Hw & _ & _ & _ & Hpop).
  - lia.
  - vm_compute. reflexivity.
  - apply rtc_once. apply (LAdd demo_v2p demo_queue [] [(2000, 16)] [(3000, 512)] (Ok 0) q).
    + repeat constructor; vm_compute; by eexists.
    + vm_compute. reflexivity.
  - split; [vm_compute; reflexivity|]. exact (Hpop [] (0, chain_cells demo_v2p [(2000, 16)] [(3000, 512)]) 512 eq_refl).
Defined.

(** Requests that complete in the order they were made corrupt the free
    list.  Two requests of one buffer each are added to a queue of four
    descriptors and completed in order; nothing is outstanding then, and a
    request of three buffers is accepted, but the device finds only its last
    buffer in the chain. *)
Lemma virtqueue_fifo_corrupts :
  let q1 := (add demo_v2p [(2000, 1)] [] demo_queue).2 in
  let q2 := (add demo_v2p [(3000, 1)] [] q1).2 in
  let p1 := pop_used (device_use 0 0 q2) in
  let p2 := pop_used (device_use 1 0 p1.2) in
  let a := add demo_v2p [(4000, 1); (5000, 1); (6000, 1)] [] p2.2 in
  p1.1 = Ok (0, 0) /\ p2.1 = Ok (1, 0) /\ num_used p2.2 = 0 /\
  a.1 = Ok 1 /\ (device_walk 4 a.2 1).*2 = [(5000, 1, 0)].
Proof. vm_compute. done. Qed.
