(* ===== verification/Ext2Raw.v ===== *)
(** The metadata of ext2 in memory and on disk (fs/ext2/super_block.rs,
    inode.rs, block_group.rs and utils.rs, all under kernel/aster-nix/src):
    super blocks, inode descriptors and group descriptors are loaded from their
    raw form, and written back to it.

    Raw integers are given by their values; the bytes of a raw structure are
    its fields in order, padding and reserved fields included. *)

From S2P Require Import Prelude Perms.

Notation BLOCK_SIZE := 4096%Z (only parsing).
Notation SUPER_BLOCK_OFFSET := 1024%Z (only parsing).
Notation SUPER_BLOCK_SIZE := 1024%Z (only parsing).
Notation MAGIC_NUM := 0xef53%Z (only parsing).
Notation BLOCK_PTR_CNT := 15%nat (only parsing).

(** [z as uN] *)
Notation wrap n z := (z mod 2 ^ n)%Z (only parsing).

(** The derived trait [TryFromInt]: the discriminants of an enum, and the
    constructor with a given one *)
Class TryFromInt (A : Type) : Type := { constructors : list A; discriminant : A -> Z }.
Definition try_from_int `{TryFromInt A} (v : Z) : option A := find (fun a => discriminant a =? v) constructors.

(** [Bits::from_bits] for flags with the given union *)
Definition from_bits (mask bits : Z) : option Z := if Z.ldiff bits mask =? 0 then Some bits else None.

(** [o.ok_or(e)] *)
Definition ok_or {A} (o : option A) (e : Errno) : outcome Errno A := match o with Some a => Ok a | None => Err e end.

(** [Duration] and the conversions of [UnixTime], a number of seconds *)
Record Duration : Type := MkDuration { secs : Z; nanos : Z }.
Notation unix_time d := (secs d mod 2 ^ 32)%Z (only parsing).
Notation duration_of t := (MkDuration t 0) (only parsing).

(** * Super blocks *)

Inductive FsState : Type := Valid | FsErr | Corrupted.
#[export] Instance fs_state_code : TryFromInt FsState :=
  {| constructors := [Valid; FsErr; Corrupted]; discriminant s := match s with Valid => 1 | FsErr => 2 | Corrupted => 117 end |}.

Inductive ErrorsBehaviour : Type := Continue | RemountReadonly | PanicOnError.
#[export] Instance errors_code : TryFromInt ErrorsBehaviour :=
  {| constructors := [Continue; RemountReadonly; PanicOnError]; discriminant b := match b with Continue => 1 | RemountReadonly => 2 | PanicOnError => 3 end |}.

Inductive OsId : Type := Linux | Hurd | Masix | FreeBSD | Lites.
#[export] Instance os_code : TryFromInt OsId :=
  {| constructors := [Linux; Hurd; Masix; FreeBSD; Lites]; discriminant o := match o with Linux => 0 | Hurd => 1 | Masix => 2 | FreeBSD => 3 | Lites => 4 end |}.

Inductive RevLevel : Type := GoodOld | Dynamic.
#[export] Instance rev_code : TryFromInt RevLevel :=
  {| constructors := [GoodOld; Dynamic]; discriminant r := match r with GoodOld => 0 | Dynamic => 1 end |}.

Record SuperBlock : Type := MkSuperBlock {
  inodes_count : Z; sb_blocks_count : Z; reserved_blocks_count : Z; free_blocks_count : Z; free_inodes_count : Z;
  first_data_block : Z; block_size : Z; frag_size : Z; blocks_per_group : Z; frags_per_group : Z; inodes_per_group : Z;
  sb_mtime : Z; wtime : Z; mnt_count : Z; max_mnt_count : Z; magic : Z;
  state : FsState; errors_behaviour : ErrorsBehaviour; last_check_time : Z; check_interval : Duration;
  creator_os : OsId; rev_level : RevLevel; def_resuid : Z; def_resgid : Z;
  first_ino : Z; inode_size : Z; block_group_idx : Z; feature_compat : Z; feature_incompat : Z; feature_ro_compat : Z;
  uuid : list Z; volume_name : list Z; last_mounted_dir : list Z; prealloc_file_blocks : Z; prealloc_dir_blocks : Z;
}.

Record RawSuperBlock : Type := MkRawSuperBlock {
  r_inodes_count : Z; r_blocks_count : Z; r_reserved_blocks_count : Z; r_free_blocks_count : Z; r_free_inodes_count : Z;
  r_first_data_block : Z; log_block_size : Z; log_frag_size : Z; r_blocks_per_group : Z; r_frags_per_group : Z;
  r_inodes_per_group : Z; r_mtime : Z; r_wtime : Z; r_mnt_count : Z; r_max_mnt_count : Z; r_magic : Z;
  r_state : Z; r_errors : Z; min_rev_level : Z; r_last_check_time : Z; r_check_interval : Z; r_creator_os : Z; r_rev_level : Z;
  r_def_resuid : Z; r_def_resgid : Z; r_first_ino : Z; r_inode_size : Z; r_block_group_idx : Z;
  r_feature_compat : Z; r_feature_incompat : Z; r_feature_ro_compat : Z;
  r_uuid : list Z; r_volume_name : list Z; r_last_mounted_dir : list Z;
  algorithm_usage_bitmap : Z; r_prealloc_file_blocks : Z; r_prealloc_dir_blocks : Z; padding1 : Z;
  journal_uuid : list Z; journal_ino : Z; journal_dev : Z; last_orphan : Z; hash_seed : list Z;
  def_hash_version : Z; reserved_char_pad : Z; reserved_word_pad : Z; default_mount_opts : Z; first_meta_bg : Z;
  sb_reserved : list Z;
}.

(** [1024 << n] on [usize] *)
Definition shl1024 {E} (n : Z) : outcome E Z := if n <? 64 then Ok (wrap 64 (Z.shiftl 1024 n)) else Panic.

Definition super_block_try_from (sb : RawSuperBlock) : outcome Errno SuperBlock :=
  let? bsize := shl1024 (log_block_size sb) in
  let? fsize := shl1024 (log_frag_size sb) in
  if negb (r_magic sb =? MAGIC_NUM) then Err EINVAL
  else
    let? st := ok_or (try_from_int (r_state sb)) EINVAL in
    match st with
    | Corrupted => Err EUCLEAN
    | _ =>
        let? eb := ok_or (try_from_int (r_errors sb)) EINVAL in
        let? os := ok_or (try_from_int (r_creator_os sb)) EINVAL in
        match os with
        | Linux =>
            let? rev := ok_or (try_from_int (r_rev_level sb)) EINVAL in
            match rev with
            | GoodOld => Err EINVAL
            | Dynamic =>
                if r_inode_size sb <? 128 then Err EINVAL
                else
                  let? fc := ok_or (from_bits 63 (r_feature_compat sb)) EINVAL in
                  let? fi := ok_or (from_bits 31 (r_feature_incompat sb)) EINVAL in
                  let? fr := ok_or (from_bits 7 (r_feature_ro_compat sb)) EINVAL in
                  Ok (MkSuperBlock (r_inodes_count sb) (r_blocks_count sb) (r_reserved_blocks_count sb)
                    (r_free_blocks_count sb) (r_free_inodes_count sb) (r_first_data_block sb) bsize fsize
                    (r_blocks_per_group sb) (r_frags_per_group sb) (r_inodes_per_group sb) (r_mtime sb) (r_wtime sb)
                    (r_mnt_count sb) (r_max_mnt_count sb) MAGIC_NUM st eb (r_last_check_time sb)
                    (duration_of (r_check_interval sb)) Linux Dynamic (r_def_resuid sb) (r_def_resgid sb) (r_first_ino sb)
                    (r_inode_size sb) (r_block_group_idx sb) fc fi fr (r_uuid sb) (r_volume_name sb) (r_last_mounted_dir sb)
                    (r_prealloc_file_blocks sb) (r_prealloc_dir_blocks sb))
            end
        | _ => Err EINVAL
        end
    end.

(** The fields of [..Default::default()] are zero: arrays of 16 bytes, of four
    and of 190 words among them. *)
Definition raw_super_block (sb : SuperBlock) : RawSuperBlock :=
  MkRawSuperBlock (inodes_count sb) (sb_blocks_count sb) (reserved_blocks_count sb) (free_blocks_count sb) (free_inodes_count sb)
    (wrap 32 (first_data_block sb)) (wrap 32 (Z.shiftr (block_size sb) 11)) (wrap 32 (Z.shiftr (frag_size sb) 11))
    (blocks_per_group sb) (frags_per_group sb) (inodes_per_group sb) (sb_mtime sb) (wtime sb) (mnt_count sb) (max_mnt_count sb)
    (magic sb) (discriminant (state sb)) (discriminant (errors_behaviour sb)) 0 (last_check_time sb)
    (wrap 32 (secs (check_interval sb))) (discriminant (creator_os sb)) (discriminant (rev_level sb))
    (wrap 16 (def_resuid sb)) (wrap 16 (def_resgid sb)) (first_ino sb) (wrap 16 (inode_size sb)) (wrap 16 (block_group_idx sb))
    (feature_compat sb) (feature_incompat sb) (feature_ro_compat sb) (uuid sb) (volume_name sb) (last_mounted_dir sb)
    0 (prealloc_file_blocks sb) (prealloc_dir_blocks sb) 0
    (replicate 16 0) 0 0 0 (replicate 4 0) 0 0 0 0 0 (replicate 190 0).

(** [IsPowerOf::is_power_of]; every turn at least doubles the power, so 64
    turns pass any [usize]. *)
Fixpoint is_power_of_loop (fuel : nat) (self x power : Z) : outcome Errno bool :=
  match fuel with
  | O => Panic
  | S fuel' => if power <? self then let? p := umul power x in is_power_of_loop fuel' self x p else Ok (power =? self)
  end.
Notation is_power_of self x := (is_power_of_loop 64 self x x) (only parsing).

Definition is_backup_group (sb : SuperBlock) (idx : Z) : outcome Errno bool :=
  if idx =? 0 then Ok false
  else if negb (Z.land (feature_ro_compat sb) 1 =? 0) then
    if idx =? 1 then Ok true
    else
      let? p3 := is_power_of idx 3 in
      if p3 then Ok true
      else
        let? p5 := is_power_of idx 5 in
        if p5 then Ok true else is_power_of idx 7
  else Ok true.

(** [SuperBlock::bid] *)
Definition super_block_bid (sb : SuperBlock) (idx : Z) : outcome Errno Z :=
  if idx =? 0 then if block_size sb =? 0 then Panic else Ok (SUPER_BLOCK_OFFSET / block_size sb)
  else
    let? b := is_backup_group sb idx in
    let? _ := oassert b in
    umul idx (blocks_per_group sb).

Definition group_descriptors_bid (sb : SuperBlock) (idx : Z) : outcome Errno Z :=
  let? b := super_block_bid sb idx in
  uadd b ((SUPER_BLOCK_SIZE + block_size sb - 1) / block_size sb).

(** * Inode descriptors *)

Inductive FileType : Type := Fifo | Char | DirT | Block | FileT | Symlink | SocketT.
#[export] Instance file_type_eq_dec : EqDecision FileType.
Proof. solve_decision. Defined.
#[export] Instance file_type_code : TryFromInt FileType := {|
  constructors := [Fifo; Char; DirT; Block; FileT; Symlink; SocketT];
  discriminant t :=
    match t with
    | Fifo => 0x1000 | Char => 0x2000 | DirT => 0x4000 | Block => 0x6000
    | FileT => 0x8000 | Symlink => 0xA000 | SocketT => 0xC000
    end;
|}.

Definition file_type_from_raw_mode (mode : Z) : outcome Errno FileType :=
  ok_or (try_from_int (Z.land mode 0xF000)) EINVAL.

Definition file_perm_from_raw_mode (mode : Z) : outcome Errno Z :=
  ok_or (from_bits 0xFFF (Z.land mode 0xFFF)) EINVAL.

(** The flags of [FileFlags] *)
Notation FILE_FLAGS := 0x8003FFFF%Z (only parsing).

Record InodeDesc : Type := MkInodeDesc {
  i_type : FileType; perm : Z; uid : Z; gid : Z; i_size : Z;
  atime : Duration; ctime : Duration; mtime : Duration; dtime : Duration;
  hard_links : Z; i_blocks_count : Z; i_flags : Z; i_data : list Z; acl : option Z;
}.

Record Osd2 : Type := MkOsd2 {
  frag_num : Z; osd_frag_size : Z; pad1 : Z; uid_high : Z; gid_high : Z; reserved2 : Z;
}.

Record RawInode : Type := MkRawInode {
  ri_mode : Z; ri_uid : Z; size_low : Z; ri_atime : Z; ri_ctime : Z; ri_mtime : Z; ri_dtime : Z;
  ri_gid : Z; ri_hard_links : Z; ri_blocks_count : Z; ri_flags : Z; reserved1 : Z; ri_data : list Z;
  generation : Z; file_acl : Z; size_high : Z; frag_addr : Z; os_dependent_2 : Osd2;
}.

Definition inode_desc_try_from (inode : RawInode) : outcome Errno InodeDesc :=
  let? ft := file_type_from_raw_mode (ri_mode inode) in
  let? pm := file_perm_from_raw_mode (ri_mode inode) in
  let? fl := ok_or (from_bits FILE_FLAGS (ri_flags inode)) EINVAL in
  Ok (MkInodeDesc ft pm
    (Z.lor (Z.shiftl (uid_high (os_dependent_2 inode)) 16) (ri_uid inode))
    (Z.lor (Z.shiftl (gid_high (os_dependent_2 inode)) 16) (ri_gid inode))
    (if decide (ft = FileT) then Z.lor (Z.shiftl (size_high inode) 32) (size_low inode) else size_low inode)
    (duration_of (ri_atime inode)) (duration_of (ri_ctime inode)) (duration_of (ri_mtime inode)) (duration_of (ri_dtime inode))
    (ri_hard_links inode) (ri_blocks_count inode) fl (ri_data inode)
    (match ft with FileT => Some (file_acl inode) | DirT => Some (size_high inode) | _ => None end)).

Definition raw_inode (inode : InodeDesc) : RawInode :=
  MkRawInode (Z.lor (discriminant (i_type inode)) (perm inode)) (wrap 16 (uid inode)) (wrap 32 (i_size inode))
    (unix_time (atime inode)) (unix_time (ctime inode)) (unix_time (mtime inode)) (unix_time (dtime inode))
    (wrap 16 (gid inode)) (hard_links inode) (i_blocks_count inode) (i_flags inode) 0 (i_data inode) 0
    (match acl inode with Some a => if decide (i_type inode = FileT) then wrap 32 a else 0 | None => 0 end)
    (match acl inode with Some a => if decide (i_type inode = DirT) then wrap 32 a else 0 | None => 0 end) 0
    (MkOsd2 0 0 0 (wrap 16 (Z.shiftr (uid inode) 16)) (wrap 16 (Z.shiftr (gid inode) 16)) 0).

(** [InodeDesc::new] *)
Definition inode_desc_new (t : FileType) (pm : Z) : InodeDesc :=
  MkInodeDesc t pm 0 0 0 (duration_of 0) (duration_of 0) (duration_of 0) (duration_of 0) 1 0 0 (replicate BLOCK_PTR_CNT 0)
    (match t with FileT | DirT => Some 0 | _ => None end).

(** [InodeDesc::blocks_count] *)
Definition blocks_count (d : InodeDesc) : outcome Errno Z :=
  if decide (i_type d = DirT) then
    let real_blocks := wrap 32 (i_size d / BLOCK_SIZE) in
    let? _ := oassert (real_blocks <=? i_blocks_count d) in Ok real_blocks
  else Ok (i_blocks_count d).

(** * Group descriptors *)

Record GroupDescriptor : Type := MkGroupDescriptor {
  block_bitmap_bid : Z; inode_bitmap_bid : Z; inode_table_bid : Z; g_free_blocks : Z; g_free_inodes : Z; dirs_count : Z;
}.

Record RawGroupDescriptor : Type := MkRawGroupDescriptor {
  rg_block_bitmap : Z; rg_inode_bitmap : Z; rg_inode_table : Z; rg_free_blocks : Z; rg_free_inodes : Z; rg_dirs : Z;
  rg_pad : Z; rg_reserved : list Z;
}.

Definition group_descriptor_from (d : RawGroupDescriptor) : GroupDescriptor :=
  MkGroupDescriptor (rg_block_bitmap d) (rg_inode_bitmap d) (rg_inode_table d) (rg_free_blocks d) (rg_free_inodes d) (rg_dirs d).
Definition raw_group_descriptor (d : GroupDescriptor) : RawGroupDescriptor :=
  MkRawGroupDescriptor (wrap 32 (block_bitmap_bid d)) (wrap 32 (inode_bitmap_bid d)) (wrap 32 (inode_table_bid d))
    (g_free_blocks d) (g_free_inodes d) (dirs_count d) 0 (replicate 3 0).
