(* ===== verification/Ext2RawFacts.v ===== *)
(** Loading ext2 metadata and writing it back gives what was loaded, and which
    block groups hold copies of the super block. *)

From S2P Require Import Prelude Perms Ext2Raw.

(** * Bits *)

Lemma lor_split n hi lo :
  0 <= n -> 0 <= lo < 2 ^ n ->
  Z.lor (Z.shiftl hi n) lo mod 2 ^ n = lo /\ Z.shiftr (Z.lor (Z.shiftl hi n) lo) n = hi.
Proof.
  intros Hn Hlo. split.
  - rewrite <- Z.land_ones, Z.land_lor_distr_l, !Z.land_ones, Z.shiftl_mul_pow2, Z.mod_mul, Z.lor_0_l by lia. by apply Z.mod_small.
  - rewrite Z.shiftr_lor, Z.shiftr_shiftl_l, Z.sub_diag, Z.shiftl_0_r, (Z.shiftr_div_pow2 lo), Z.div_small by lia. apply Z.lor_0_r.
Qed.

Lemma lor_add n h l : 0 <= n -> 0 <= l < 2 ^ n -> Z.lor (Z.shiftl h n) l = h * 2 ^ n + l.
Proof.
  intros Hn Hl. destruct (lor_split n h l Hn Hl) as [Hlo Hhi]. rewrite Z.shiftr_div_pow2 in Hhi by done.
  rewrite (Z.div_mod (Z.lor (Z.shiftl h n) l) (2 ^ n)) by (apply Z.pow_nonzero; lia). rewrite Hlo, Hhi. lia.
Qed.

Lemma try_from_int_inv `{TryFromInt A} v (a : A) : try_from_int v = Some a -> discriminant a = v.
Proof. intros Hf. apply find_some in Hf as [_ Hf]. by apply Z.eqb_eq in Hf. Qed.

Lemma ok_or_inv {A} (o : option A) e a : ok_or o e = Ok a -> o = Some a.
Proof. destruct o; cbn; congruence. Qed.

Lemma from_bits_inv mask b r : from_bits mask b = Some r -> r = b.
Proof. unfold from_bits. case_match; congruence. Qed.

(** * Round trips *)

(** The integers of raw structures at their widths *)
Definition u16 (z : Z) : Prop := 0 <= z < 2 ^ 16.
Definition u32 (z : Z) : Prop := 0 <= z < 2 ^ 32.

Record raw_super_block_wf (r : RawSuperBlock) : Prop := {
  rw_u32 : Forall u32 [r_first_data_block r; log_block_size r; log_frag_size r; r_check_interval r];
  rw_u16 : Forall u16 [r_def_resuid r; r_def_resgid r; r_inode_size r; r_block_group_idx r];
}.

Record raw_inode_wf (r : RawInode) : Prop := {
  rwi_u32 : Forall u32 [size_low r; size_high r; file_acl r; ri_atime r; ri_ctime r; ri_mtime r; ri_dtime r];
  rwi_u16 : Forall u16 [ri_mode r; ri_uid r; ri_gid r; uid_high (os_dependent_2 r); gid_high (os_dependent_2 r)];
}.

(** A raw structure with the fields that loading ignores set to zero.  For a
    raw inode these include what its type leaves unused of the access-control
    block and the upper half of the size; and the upper half of the size of a
    file, which is loaded, but not written. *)
Definition zero_sb (r : RawSuperBlock) : RawSuperBlock :=
  MkRawSuperBlock
    (r_inodes_count r) (r_blocks_count r) (r_reserved_blocks_count r) (r_free_blocks_count r) (r_free_inodes_count r)
    (r_first_data_block r) (log_block_size r) (log_frag_size r) (r_blocks_per_group r) (r_frags_per_group r)
    (r_inodes_per_group r) (r_mtime r) (r_wtime r) (r_mnt_count r) (r_max_mnt_count r) (r_magic r) (r_state r) (r_errors r)
    0 (r_last_check_time r) (r_check_interval r) (r_creator_os r) (r_rev_level r) (r_def_resuid r) (r_def_resgid r)
    (r_first_ino r) (r_inode_size r) (r_block_group_idx r) (r_feature_compat r) (r_feature_incompat r)
    (r_feature_ro_compat r) (r_uuid r) (r_volume_name r) (r_last_mounted_dir r) 0 (r_prealloc_file_blocks r)
    (r_prealloc_dir_blocks r) 0 (replicate 16 0) 0 0 0 (replicate 4 0) 0 0 0 0 0 (replicate 190 0).

Definition zero_inode (t : FileType) (r : RawInode) : RawInode :=
  MkRawInode (ri_mode r) (ri_uid r) (size_low r) (ri_atime r) (ri_ctime r) (ri_mtime r) (ri_dtime r) (ri_gid r) (ri_hard_links r)
    (ri_blocks_count r) (ri_flags r) 0 (ri_data r) 0 (if decide (t = FileT) then file_acl r else 0)
    (if decide (t = DirT) then size_high r else 0) 0
    (MkOsd2 0 0 0 (uid_high (os_dependent_2 r)) (gid_high (os_dependent_2 r)) 0).

Definition zero_group (r : RawGroupDescriptor) : RawGroupDescriptor :=
  MkRawGroupDescriptor (rg_block_bitmap r) (rg_inode_bitmap r) (rg_inode_table r) (rg_free_blocks r) (rg_free_inodes r) (rg_dirs r)
    0 (replicate 3 0).

Lemma log_size k : u32 k -> k <= 2 -> exists s, @shl1024 Errno k = Ok s /\ wrap 32 (Z.shiftr s 11) = k.
Proof. intros [H0 _] H2. assert (k = 0 \/ k = 1 \/ k = 2) as [-> | [-> | ->]] by lia;
  [exists 1024|exists 2048|exists 4096]; done. Qed.

(** What the checks of a conversion establish *)
Ltac checked H :=
  unfold obind, ok_or in H; repeat (case_match; try discriminate H);
  repeat match goal with
  | E : try_from_int _ = Some _ |- _ => apply try_from_int_inv in E
  | E : from_bits _ _ = Some _ |- _ => apply from_bits_inv in E
  | E : negb _ = false |- _ => apply negb_false_iff, Z.eqb_eq in E
  end; injection H as <-.

Lemma obind_inv {E A B} (m : outcome E A) (k : A -> outcome E B) b : obind m k = Ok b -> exists a, m = Ok a /\ k a = Ok b.
Proof. destruct m; cbn; [eauto|done|done]. Qed.

Lemma super_block_back r sb :
  raw_super_block_wf r -> super_block_try_from r = Ok sb -> log_block_size r <= 2 -> log_frag_size r <= 2 ->
  raw_super_block sb = zero_sb r.
Proof.
  intros [H32 H16] Hsb Hb Hf. rewrite !Forall_cons in H32, H16. destruct H32 as (Hd & Hlb & Hlf & Hc & _), H16 as (Hu & Hg & Hi & Hx & _).
  destruct (log_size _ Hlb Hb) as (bs & Ebs & Hbs), (log_size _ Hlf Hf) as (fs & Efs & Hfs).
  unfold super_block_try_from in Hsb. rewrite Ebs, Efs in Hsb. unfold u16, u32 in *.
  checked Hsb; cbv beta iota delta [raw_super_block inodes_count sb_blocks_count reserved_blocks_count free_blocks_count free_inodes_count
    first_data_block block_size frag_size blocks_per_group frags_per_group inodes_per_group sb_mtime wtime mnt_count max_mnt_count magic
    state errors_behaviour last_check_time check_interval creator_os rev_level def_resuid def_resgid first_ino inode_size block_group_idx
    feature_compat feature_incompat feature_ro_compat uuid volume_name last_mounted_dir prealloc_file_blocks prealloc_dir_blocks
    secs];
    rewrite Hbs, Hfs, !Z.mod_small by lia;
    unfold zero_sb; f_equal; congruence.
Qed.

Lemma inode_back r d :
  raw_inode_wf r -> inode_desc_try_from r = Ok d -> raw_inode d = zero_inode (i_type d) r.
Proof.
  intros [H32 H16] Hd. rewrite !Forall_cons in H32. rewrite !Forall_cons in H16.
  destruct H32 as (Hsl & Hsh & Hac & Hat & Hct & Hmt & Hdt & _), H16 as (Hm & Hu & Hg & Huh & Hgh & _). unfold u16, u32 in *.
  assert (H0 : 0 <= 16) by lia.
  destruct (lor_split 16 (uid_high (os_dependent_2 r)) (ri_uid r) H0 Hu) as [Hu1 Hu2].
  destruct (lor_split 16 (gid_high (os_dependent_2 r)) (ri_gid r) H0 Hg) as [Hg1 Hg2].
  unfold inode_desc_try_from, file_type_from_raw_mode, file_perm_from_raw_mode in Hd.
  assert (Hmode : forall t p, discriminant t = Z.land (ri_mode r) 0xF000 -> p = Z.land (ri_mode r) 0xFFF ->
    Z.lor (discriminant t) p = ri_mode r).
  { intros t p -> ->. rewrite <- Z.land_lor_distr_r. change (Z.lor 0xF000 0xFFF) with (Z.ones 16). rewrite Z.land_ones by lia.
    apply Z.mod_small. lia. }
  destruct (lor_split 32 (size_high r) (size_low r) ltac:(lia) Hsl) as [Hs1 _].
  apply obind_inv in Hd as (ft & Hft & Hd). apply ok_or_inv, try_from_int_inv in Hft.
  apply obind_inv in Hd as (pm & Hpm & Hd). apply ok_or_inv, from_bits_inv in Hpm.
  apply obind_inv in Hd as (fl & Hfl & Hd). apply ok_or_inv, from_bits_inv in Hfl.
  assert (Hlow : (if decide (ft = FileT) then Z.lor (Z.shiftl (size_high r) 32) (size_low r) else size_low r) mod 2 ^ 32 = size_low r)
    by (case_decide; [done|by apply Z.mod_small]).
  injection Hd as <-. cbv beta iota delta [raw_inode i_type perm uid gid i_size atime ctime mtime dtime hard_links i_blocks_count i_flags
    i_data acl secs] in *. rewrite Hlow, Hu1, Hg1, Hu2, Hg2, Hmode by done.
  rewrite (Z.mod_small (ri_atime r)), (Z.mod_small (ri_ctime r)), (Z.mod_small (ri_mtime r)), (Z.mod_small (ri_dtime r)),
    (Z.mod_small (uid_high _)), (Z.mod_small (gid_high _)) by done.
  unfold zero_inode. destruct ft; cbn; f_equal; try done; by apply Z.mod_small.
Qed.

Lemma inode_size_high r d :
  raw_inode_wf r -> inode_desc_try_from r = Ok d -> i_type d = FileT -> i_size d / 2 ^ 32 = size_high r.
Proof.
  intros [H32 _] Hd Hft. rewrite !Forall_cons in H32. destruct H32 as (Hsl & _).
  unfold inode_desc_try_from in Hd. apply obind_inv in Hd as (ft & _ & Hd). apply obind_inv in Hd as (pm & _ & Hd).
  apply obind_inv in Hd as (fl & _ & Hd). injection Hd as <-. cbn [i_type] in Hft. subst ft. cbn [i_size].
  rewrite decide_True by done. rewrite <- Z.shiftr_div_pow2 by lia. by apply lor_split.
Qed.

(** C28: loading metadata and writing it back keeps every field that loading
    reads and clears every other: of a super block the minor revision, the
    algorithm bitmap, the journal, orphan and hash fields, the mount options, the
    first meta group and the padding; of an inode the generation, the fragment
    and the reserved fields; of a group descriptor the padding.  It holds for a super block with block and fragment sizes up to 4096, every
    inode and every group descriptor that loads.  The limits are needed:
    fragments of 8192 bytes come back as 16384; and of the fields that loading
    reads, the upper half of the size of a file is the one that is cleared. *)
Theorem ext2_metadata_roundtrip r sb ri d rg :
  raw_super_block_wf r -> super_block_try_from r = Ok sb ->
  raw_inode_wf ri -> inode_desc_try_from ri = Ok d ->
  Forall u32 [rg_block_bitmap rg; rg_inode_bitmap rg; rg_inode_table rg] ->
  (log_block_size r <= 2 -> log_frag_size r <= 2 -> raw_super_block sb = zero_sb r) /\
  (log_frag_size r = 3 -> frag_size sb = 8192 /\ log_frag_size (raw_super_block sb) = 4) /\
  raw_inode d = zero_inode (i_type d) ri /\
  (i_type d = FileT -> i_size d / 2 ^ 32 = size_high ri /\ size_high (raw_inode d) = 0) /\
  raw_group_descriptor (group_descriptor_from rg) = zero_group rg.
Proof.
  intros Hr Hsb Hri Hd Hg. split_and!.
  - by apply super_block_back.
  - intros Hf. unfold super_block_try_from in Hsb. apply obind_inv in Hsb as (bs & _ & Hsb). apply obind_inv in Hsb as (fs & Hfs & Hsb).
    rewrite Hf in Hfs. injection Hfs as <-. assert (frag_size sb = 8192) as Hfr; [|split; [done|cbn; by rewrite Hfr]].
    unfold obind, ok_or in Hsb. repeat (case_match; try discriminate Hsb); injection Hsb as <-; reflexivity.
  - by apply inode_back.
  - intros Hft. split; [by apply inode_size_high|]. unfold raw_inode. cbn. rewrite Hft. by destruct (acl d).
  - rewrite !Forall_cons in Hg. destruct Hg as (H1 & H2 & H3 & _), rg. unfold raw_group_descriptor, group_descriptor_from. cbn in *.
    unfold u32 in *. by rewrite !Z.mod_small by done.
Qed.

(** A file system of 4096-byte blocks with a hash seed and mount options, and a
    file of 12345 bytes *)
Definition demo_raw_sb : RawSuperBlock :=
  MkRawSuperBlock 8192 32768 0 30000 8000 0 2 2 32768 32768 8192 0 0 1 20 MAGIC_NUM 1 1 0 0 0 0 1 0 0 11 128 0 0 2 1
    (replicate 16 7) (replicate 16 0) (replicate 64 0) 0 0 0 0 (replicate 16 0) 0 0 0 [1; 2; 3; 4] 1 0 0 12 0 (replicate 190 0).
Definition demo_raw_inode : RawInode :=
  MkRawInode 0x81A4 1000 12345 1 2 3 0 100 1 4 0 0 (replicate 15 9) 77 0 0 0 (MkOsd2 0 0 0 1 0 0).
Definition demo_raw_group : RawGroupDescriptor := MkRawGroupDescriptor 1 2 3 4 5 6 0 [0; 0; 0].

Lemma ext2_metadata_roundtrip_witness :
  exists sb d, super_block_try_from demo_raw_sb = Ok sb /\ inode_desc_try_from demo_raw_inode = Ok d /\
    raw_super_block sb = zero_sb demo_raw_sb /\ raw_inode d = zero_inode FileT demo_raw_inode /\ uid d = 66536.
Proof.
  destruct (super_block_try_from demo_raw_sb) as [sb| |] eqn:Hsb; [|vm_compute in Hsb; discriminate Hsb..].
  destruct (inode_desc_try_from demo_raw_inode) as [d| |] eqn:Hd; [|vm_compute in Hd; discriminate Hd..].
  destruct (ext2_metadata_roundtrip demo_raw_sb sb demo_raw_inode d demo_raw_group) as (H1 & _ & H3 & _).
  - split; repeat constructor; vm_compute; intros [=].
  - exact Hsb.
  - split; repeat constructor; vm_compute; intros [=].
  - exact Hd.
  - repeat constructor; vm_compute; intros [=].
  - exists sb, d. split; [reflexivity|]. split; [reflexivity|]. split; [apply H1; vm_compute; intros [=]|].
    vm_compute in Hd. injection Hd as <-. split; [exact H3|reflexivity].
Defined.

(** * Inode descriptors on the device *)

(** Descriptors whose fields have their types, and what is left of one after
    it was written: the seconds of its times and the lower half of its size *)
Record desc_ok (d : InodeDesc) : Prop := {
  do_perm : Z.ldiff (perm d) 0xFFF = 0;
  do_flags : Z.ldiff (i_flags d) FILE_FLAGS = 0;
  do_uid : u32 (uid d);
  do_gid : u32 (gid d);
  do_acl : match i_type d with FileT | DirT => exists a, acl d = Some a /\ u32 a | _ => acl d = None end;
}.
Definition persisted (d : InodeDesc) : InodeDesc :=
  let time t := MkDuration (secs t mod 2 ^ 32) 0 in
  MkInodeDesc (i_type d) (perm d) (uid d) (gid d) (i_size d mod 2 ^ 32) (time (atime d)) (time (ctime d)) (time (mtime d)) (time (dtime d))
    (hard_links d) (i_blocks_count d) (i_flags d) (i_data d) (acl d).

Lemma ldiff_land a m : Z.ldiff a m = 0 -> Z.land a m = a.
Proof. intros H. rewrite <- (Z.lor_ldiff_and a m) at 2. by rewrite H. Qed.

Lemma mode_split t p : Z.ldiff p 0xFFF = 0 ->
  Z.land (Z.lor (discriminant t) p) 0xF000 = discriminant t /\ Z.land (Z.lor (discriminant t) p) 0xFFF = p.
Proof.
  intros Hp. pose proof (ldiff_land _ _ Hp) as Hl. rewrite !Z.land_lor_distr_l, Hl.
  rewrite <- Hl at 1. rewrite <- Z.land_assoc. change (Z.land 0xFFF 0xF000) with 0. rewrite Z.land_0_r, Z.lor_0_r.
  by destruct t.
Qed.

Lemma halves z : u32 z -> Z.lor (Z.shiftl (wrap 16 (Z.shiftr z 16)) 16) (wrap 16 z) = z.
Proof.
  unfold u32. intros Hz. rewrite lor_add by (done || by apply Z.mod_pos_bound). rewrite Z.shiftr_div_pow2 by done.
  pose proof (Z.div_mod z (2 ^ 16) ltac:(done)). pose proof (Z.mod_pos_bound z (2 ^ 16) ltac:(done)).
  rewrite (Z.mod_small (z / 2 ^ 16)) by lia. lia.
Qed.

Lemma inode_persisted d : desc_ok d -> inode_desc_try_from (raw_inode d) = Ok (persisted d).
Proof.
  intros [Hp Hf Hu Hg Ha]. destruct (mode_split (i_type d) _ Hp) as [Ht Hpm].
  unfold inode_desc_try_from, file_type_from_raw_mode, file_perm_from_raw_mode.
  cbn [raw_inode ri_mode ri_uid ri_gid ri_flags os_dependent_2 uid_high gid_high]. rewrite Ht, Hpm, !halves by done.
  assert (Hty : try_from_int (discriminant (i_type d)) = Some (i_type d)) by (by destruct (i_type d)).
  rewrite Hty. cbn [ok_or obind]. unfold from_bits. rewrite Hp, Hf. cbn [Z.eqb ok_or obind]. unfold persisted. f_equal.
  unfold u32 in *. destruct (i_type d) eqn:E; cbn; try (destruct Ha as (a & -> & Hsm)); rewrite ?Ha, ?E, ?(Z.mod_small a) by done;
    reflexivity.
Qed.

(** * Copies of the super block *)

Lemma is_power_of_loop_ok fuel self x j :
  2 <= x <= 7 -> 0 <= self < 2 ^ 32 -> 1 <= j <= 33 -> 34 <= Z.of_nat fuel + j ->
  exists b, is_power_of_loop fuel self x (x ^ j) = Ok b /\ (b = true <-> exists k, j <= k /\ self = x ^ k).
Proof.
  revert j. induction fuel as [|fuel IH]; intros j Hx Hs Hj Hfuel; [lia|]. cbn [is_power_of_loop].
  destruct (Z.ltb_spec (x ^ j) self) as [Hlt | Hge].
  - assert (j < 32).
    { apply (Z.pow_lt_mono_r_iff 2); [lia|lia|]. apply Z.le_lt_trans with (x ^ j); [|lia]. apply Z.pow_le_mono_l. lia. }
    unfold umul. rewrite (proj2 (Z.leb_le _ _)) by (unfold usize_max; nia). cbn [obind].
    rewrite Z.mul_comm, <- Z.pow_succ_r by lia. destruct (IH (Z.succ j)) as (b & Hb & Hspec); [lia..|].
    exists b. split; [done|]. rewrite Hspec. split; intros (k & Hk & ->); exists k; (split; [|done]); [lia|].
    apply Z.le_succ_l. destruct (Z.eq_dec j k) as [-> |]; lia.
  - eexists. split; [reflexivity|]. rewrite Z.eqb_eq. split; [intros <-; exists j; lia|]. intros (k & Hk & ->).
    destruct (Z.eq_dec j k) as [-> |]; [done|]. assert (x ^ j < x ^ k) by (apply Z.pow_lt_mono_r; lia). lia.
Qed.

Lemma is_power_of_ok self x :
  2 <= x <= 7 -> 0 <= self < 2 ^ 32 -> exists b, is_power_of self x = Ok b /\ (b = true <-> exists k, 0 < k /\ self = x ^ k).
Proof.
  intros Hx Hs. destruct (is_power_of_loop_ok 64 self x 1) as (b & Hb & Hspec); [lia..|]. rewrite Z.pow_1_r in Hb.
  exists b. split; [done|]. rewrite Hspec. split; intros (k & Hk & ->); exists k; (split; [lia|done]).
Qed.

(** C40: the block groups with a copy of the super block.  The test ends without
    overflow for every group number of 32 bits, and is true for every group but
    the first, or, with sparse copies, for group 1 and the powers of 3, 5 and
    7; the copies are at the start of their groups, and the group descriptors
    in the block after. *)
Theorem ext2_backup_groups sb idx :
  0 <= idx < 2 ^ 32 -> block_size sb = BLOCK_SIZE -> 0 <= blocks_per_group sb < 2 ^ 16 ->
  exists b, is_backup_group sb idx = Ok b /\
    (b = true <-> idx <> 0 /\ (Z.land (feature_ro_compat sb) 1 <> 0 ->
       idx = 1 \/ exists k, 0 < k /\ (idx = 3 ^ k \/ idx = 5 ^ k \/ idx = 7 ^ k))) /\
    (idx = 0 -> super_block_bid sb idx = Ok 0 /\ group_descriptors_bid sb idx = Ok 1) /\
    (b = true -> super_block_bid sb idx = Ok (idx * blocks_per_group sb) /\
       group_descriptors_bid sb idx = Ok (idx * blocks_per_group sb + 1)) /\
    (b = false -> idx <> 0 -> super_block_bid sb idx = Panic).
Proof.
  intros Hi Hbs Hbg.
  assert (Hb : exists b, is_backup_group sb idx = Ok b /\ (b = true <-> idx <> 0 /\ (Z.land (feature_ro_compat sb) 1 <> 0 ->
       idx = 1 \/ exists k, 0 < k /\ (idx = 3 ^ k \/ idx = 5 ^ k \/ idx = 7 ^ k)))).
  { unfold is_backup_group. destruct (Z.eqb_spec idx 0) as [-> | H0]; [exists false; naive_solver|].
    destruct (Z.eqb_spec (Z.land (feature_ro_compat sb) 1) 0) as [Hc | Hc]; cbn [negb]; [exists true; naive_solver|].
    destruct (Z.eqb_spec idx 1) as [-> | H1]; [exists true; naive_solver|].
    destruct (is_power_of_ok idx 3) as (b3 & E3 & Hb3); [lia|done|]. destruct (is_power_of_ok idx 5) as (b5 & E5 & Hb5); [lia|done|].
    destruct (is_power_of_ok idx 7) as (b7 & E7 & Hb7); [lia|done|]. rewrite E3, E5, E7. cbn [obind].
    exists (b3 || b5 || b7). split; [by destruct b3, b5, b7|]. rewrite !orb_true_iff, Hb3, Hb5, Hb7. naive_solver. }
  destruct Hb as (b & Eb & Hb). exists b. unfold group_descriptors_bid, super_block_bid. rewrite Eb, Hbs. cbn [obind].
  split; [done|]. split; [done|]. split; [intros ->; split; reflexivity|]. split.
  - intros ->. destruct (Z.eqb_spec idx 0); [naive_solver|]. cbn [obind oassert].
    unfold umul. rewrite (proj2 (Z.leb_le _ _)) by (unfold usize_max; nia). cbn [obind]. split; [done|].
    change ((SUPER_BLOCK_SIZE + BLOCK_SIZE - 1) / BLOCK_SIZE) with 1. unfold uadd. by rewrite (proj2 (Z.leb_le _ _)) by (unfold usize_max; nia).
  - intros -> H0. by destruct (Z.eqb_spec idx 0).
Qed.

Lemma ext2_backup_groups_witness :
  exists sb, super_block_try_from demo_raw_sb = Ok sb /\ is_backup_group sb 25 = Ok true /\ super_block_bid sb 25 = Ok 819200.
Proof.
  destruct (super_block_try_from demo_raw_sb) as [sb| |] eqn:Hsb; [|vm_compute in Hsb; discriminate Hsb..].
  exists sb. split; [reflexivity|]. vm_compute in Hsb. injection Hsb as <-.
  match goal with |- is_backup_group ?s _ = _ /\ _ => destruct (ext2_backup_groups s 25) as (b & Hb & _ & _ & Ht & _) end.
  - lia.
  - reflexivity.
  - cbn. lia.
  - vm_compute in Hb. injection Hb as <-. split; [vm_compute; reflexivity|]. destruct (Ht eq_refl) as [H _]. exact H.
Defined.
