(* ===== verification/Ext2Alloc.v ===== *)
(** The allocators of ext2 (libs/aster-util/src/id_allocator.rs, and
    fs/ext2/block_group.rs and fs/ext2/fs.rs under kernel/aster-nix/src): the
    bitmap of a group, the counters of its descriptor, and the search over the
    groups with the counters of the super block.

    Each operation on [BlockGroup] takes the lock of its group, each operation
    on the super block the lock of the super block; a definition here is one
    critical section, or says which ones it composes. *)

From stdpp Require Import gmap.
From S2P Require Import Prelude Perms Ext2Raw.

(** [a + b], [a * b] and [a - b] on [uN] *)
Definition add_w {E} (n a b : Z) : outcome E Z := if a + b <? 2 ^ n then Ok (a + b) else Panic.
Definition mul_w {E} (n a b : Z) : outcome E Z := if a * b <? 2 ^ n then Ok (a * b) else Panic.

(** * Bitmaps of identifiers *)

Record IdAlloc : Type := MkIdAlloc { bitset : list bool; first_available_id : nat }.

(** [(from..bits.len()).find(|&i| !bits[i]).map_or(bits.len(), |i| i)] *)
Fixpoint leading_ones (bits : list bool) : nat :=
  match bits with true :: bits' => S (leading_ones bits') | _ => 0 end.
Definition find_available (from : nat) (bits : list bool) : nat := from + leading_ones (drop from bits).

(** The bits of [BitVec::<u8>::from_slice], the lowest bit of a byte first *)
Definition bits_of_bytes (slice : list Z) : list bool :=
  slice ≫= fun byte => Z.testbit byte <$> seqZ 0 8.

Definition from_bytes_with_capacity (slice : list Z) (capacity : nat) : IdAlloc :=
  let bits :=
    if (length slice * 8 <? capacity)%nat
    then bits_of_bytes slice ++ replicate (capacity - length slice * 8) false
    else take capacity (bits_of_bytes (take ((capacity + 7) / 8) slice)) in
  MkIdAlloc bits (find_available 0 bits).

Definition id_alloc (self : IdAlloc) : option nat * IdAlloc :=
  if (first_available_id self <? length (bitset self))%nat then
    let id := first_available_id self in
    let bits := <[id := true]> (bitset self) in
    (Some id, MkIdAlloc bits (find_available (id + 1) bits))
  else (None, self).

(** Indexing out of bounds is a panic. *)
Definition is_allocated {E} (self : IdAlloc) (id : nat) : outcome E bool := ounwrap (bitset self !! id).

Definition id_free {E} (id : nat) (self : IdAlloc) : outcome E IdAlloc :=
  let? a := is_allocated self id in
  let? _ := oassert a in
  Ok (MkIdAlloc (<[id := false]> (bitset self))
        (if (id <? first_available_id self)%nat then id else first_available_id self)).

(** * Block groups *)

Record GroupMetadata : Type := MkGroupMetadata {
  descriptor : GroupDescriptor; block_bitmap : IdAlloc; inode_bitmap : IdAlloc;
}.

(** [inc_*] and [dec_*] on a counter of [n] bits *)
Definition inc_counter {E} (n c : Z) : outcome E Z := add_w n c 1.
Definition dec_counter {E} (c : Z) : outcome E Z := let? _ := oassert (0 <? c) in Ok (c - 1).

Definition set_counts (d : GroupDescriptor) (blocks inodes dirs : Z) : GroupDescriptor :=
  MkGroupDescriptor (block_bitmap_bid d) (inode_bitmap_bid d) (inode_table_bid d) blocks inodes dirs.

Definition gm_alloc_inode {E} (is_dir : bool) (m : GroupMetadata) : outcome E (option Z * GroupMetadata) :=
  match id_alloc (inode_bitmap m) with
  | (None, _) => Ok (None, m)
  | (Some inode_idx, bitmap) =>
      let d := descriptor m in
      let? inodes := dec_counter (g_free_inodes d) in
      let? dirs := if is_dir then inc_counter 16 (dirs_count d) else Ok (dirs_count d) in
      Ok (Some (wrap 32 (Z.of_nat inode_idx)), MkGroupMetadata (set_counts d (g_free_blocks d) inodes dirs) (block_bitmap m) bitmap)
  end.

Definition gm_free_inode {E} (inode_idx : Z) (is_dir : bool) (m : GroupMetadata) : outcome E GroupMetadata :=
  let? bitmap := id_free (Z.to_nat inode_idx) (inode_bitmap m) in
  let d := descriptor m in
  let? inodes := inc_counter 16 (g_free_inodes d) in
  let? dirs := if is_dir then dec_counter (dirs_count d) else Ok (dirs_count d) in
  Ok (MkGroupMetadata (set_counts d (g_free_blocks d) inodes dirs) (block_bitmap m) bitmap).

Definition gm_alloc_block {E} (m : GroupMetadata) : outcome E (option Z * GroupMetadata) :=
  match id_alloc (block_bitmap m) with
  | (None, _) => Ok (None, m)
  | (Some block_idx, bitmap) =>
      let d := descriptor m in
      let? blocks := dec_counter (g_free_blocks d) in
      Ok (Some (wrap 32 (Z.of_nat block_idx)),
          MkGroupMetadata (set_counts d blocks (g_free_inodes d) (dirs_count d)) bitmap (inode_bitmap m))
  end.

Definition gm_free_block {E} (block_idx : Z) (m : GroupMetadata) : outcome E GroupMetadata :=
  let? bitmap := id_free (Z.to_nat block_idx) (block_bitmap m) in
  let d := descriptor m in
  let? blocks := inc_counter 16 (g_free_blocks d) in
  Ok (MkGroupMetadata (set_counts d blocks (g_free_inodes d) (dirs_count d)) bitmap (inode_bitmap m)).

(** The inode cache names [Inode] objects by their addresses. *)
Record BlockGroup : Type := MkBlockGroup {
  metadata : GroupMetadata; inode_cache : gmap Z Z; raw_inodes : list RawInode;
}.

(** [BlockGroup::load]: the descriptor, the bitmaps read from the blocks it
    names and the inode table. *)
Definition load_group (raw : RawGroupDescriptor) (read_bytes : Z -> outcome Errno (list Z)) (table : list RawInode)
    (sb : SuperBlock) : outcome Errno BlockGroup :=
  let d := group_descriptor_from raw in
  let get_bitmap bid capacity :=
    if BLOCK_SIZE * 8 <? capacity then Err EINVAL
    else let? buf := read_bytes bid in Ok (from_bytes_with_capacity buf (Z.to_nat capacity)) in
  let? block_bitmap := get_bitmap (block_bitmap_bid d) (Ext2Raw.blocks_per_group sb) in
  let? inode_bitmap := get_bitmap (inode_bitmap_bid d) (Ext2Raw.inodes_per_group sb) in
  Ok (MkBlockGroup (MkGroupMetadata d block_bitmap inode_bitmap) ∅ table).

Definition set_metadata (m : GroupMetadata) (g : BlockGroup) : BlockGroup := MkBlockGroup m (inode_cache g) (raw_inodes g).

(** The fast path reads the counter under the read lock, the slow path takes
    the write lock. *)
Definition bg_alloc_inode {E} (is_dir : bool) (g : BlockGroup) : outcome E (option Z * BlockGroup) :=
  if g_free_inodes (descriptor (metadata g)) =? 0 then Ok (None, g)
  else let? r := gm_alloc_inode is_dir (metadata g) in Ok (r.1, set_metadata r.2 g).

Definition bg_free_inode {E} (inode_idx : Z) (is_dir : bool) (g : BlockGroup) : outcome E BlockGroup :=
  let? a := is_allocated (inode_bitmap (metadata g)) (Z.to_nat inode_idx) in
  let? _ := oassert a in
  let? m := gm_free_inode inode_idx is_dir (metadata g) in
  Ok (MkBlockGroup m (delete inode_idx (inode_cache g)) (raw_inodes g)).

Definition bg_alloc_block {E} (g : BlockGroup) : outcome E (option Z * BlockGroup) :=
  if g_free_blocks (descriptor (metadata g)) =? 0 then Ok (None, g)
  else let? r := gm_alloc_block (metadata g) in Ok (r.1, set_metadata r.2 g).

Definition bg_free_block {E} (block_idx : Z) (g : BlockGroup) : outcome E BlockGroup :=
  let? a := is_allocated (block_bitmap (metadata g)) (Z.to_nat block_idx) in
  let? _ := oassert a in
  let? m := gm_free_block block_idx (metadata g) in
  Ok (set_metadata m g).

(** * The file system: its groups and the counters of the super block *)

Record Ext2 : Type := MkExt2 {
  super_block : SuperBlock; block_groups : list BlockGroup; inodes_per_group : Z; blocks_per_group : Z;
}.

(** The super block with other counters *)
Definition set_free (sb : SuperBlock) (blocks inodes : Z) : SuperBlock :=
  match sb with
  | MkSuperBlock ic bc rb _ _ fdb bs fs bpg fpg ipg mt wt mc mmc mg st eb lct ci os rl ru rg fi isz bgi fc fic frc uu vn lmd pf pd =>
      MkSuperBlock ic bc rb blocks inodes fdb bs fs bpg fpg ipg mt wt mc mmc mg st eb lct ci os rl ru rg fi isz bgi fc fic frc uu vn lmd pf pd
  end.
Definition set_super_block (sb : SuperBlock) (fs : Ext2) : Ext2 :=
  MkExt2 sb (block_groups fs) (inodes_per_group fs) (blocks_per_group fs).
Definition set_group (idx : nat) (g : BlockGroup) (fs : Ext2) : Ext2 :=
  MkExt2 (super_block fs) (<[idx := g]> (block_groups fs)) (inodes_per_group fs) (blocks_per_group fs).

Notation fsM := (stM Ext2 Errno).

(** [inc_free_blocks], [dec_free_blocks], [inc_free_inodes] and
    [dec_free_inodes] of the super block, from what they do to the two counters *)
Definition sb_update (blocks inodes : Z -> outcome Errno Z) : fsM unit := fun fs =>
  let sb := super_block fs in
  (let! b := slift (blocks (free_blocks_count sb)) in
   let! i := slift (inodes (free_inodes_count sb)) in
   sput (set_super_block (set_free sb b i) fs)) fs.
Notation sb_inc_free_blocks := (sb_update (inc_counter 32) Ok).
Notation sb_dec_free_blocks := (sb_update dec_counter Ok).
Notation sb_inc_free_inodes := (sb_update Ok (inc_counter 32)).
Notation sb_dec_free_inodes := (sb_update Ok dec_counter).

(** An operation on the group at an index; indexing out of bounds is a panic. *)
Definition on_group {A} (idx : nat) (op : BlockGroup -> outcome Errno (A * BlockGroup)) : fsM A :=
  let! fs := sget in
  let! g := slift (ounwrap (block_groups fs !! idx)) in
  let! r := slift (op g) in
  sput (set_group idx r.2 fs) ;! sret r.1.

(** The [for] loops of [alloc_block] and [alloc_ino], with [n] turns left. *)
Fixpoint alloc_block_loop (n idx : nat) : fsM Z :=
  match n with
  | O => serr ENOSPC
  | S n' =>
      let! fs := sget in
      let idx := if (length (block_groups fs) <=? idx)%nat then O else idx in
      let! r := on_group idx bg_alloc_block in
      match r with
      | Some block_idx =>
          let! base := slift (mul_w 32 (wrap 32 (Z.of_nat idx)) (blocks_per_group fs)) in
          let! bid := slift (add_w 32 base block_idx) in
          sb_dec_free_blocks ;! sret bid
      | None => alloc_block_loop n' (idx + 1)
      end
  end.
Definition alloc_block (block_group_idx : nat) : fsM Z :=
  let! fs := sget in
  if (length (block_groups fs) <=? block_group_idx)%nat then serr EINVAL
  else alloc_block_loop (length (block_groups fs)) block_group_idx.

Fixpoint alloc_ino_loop (n idx : nat) (is_dir : bool) : fsM (nat * Z) :=
  match n with
  | O => serr ENOSPC
  | S n' =>
      let! fs := sget in
      let idx := if (length (block_groups fs) <=? idx)%nat then O else idx in
      let! r := on_group idx (bg_alloc_inode is_dir) in
      match r with
      | Some inode_idx =>
          let! base := slift (mul_w 32 (wrap 32 (Z.of_nat idx)) (inodes_per_group fs)) in
          let! base := slift (add_w 32 base inode_idx) in
          let! ino := slift (add_w 32 base 1) in
          sb_dec_free_inodes ;! sret (idx, ino)
      | None => alloc_ino_loop n' (idx + 1) is_dir
      end
  end.
Definition alloc_ino (dir_block_group_idx : nat) (is_dir : bool) : fsM (nat * Z) :=
  let! fs := sget in
  if (length (block_groups fs) <=? dir_block_group_idx)%nat then serr EINVAL
  else alloc_ino_loop (length (block_groups fs)) dir_block_group_idx is_dir.

(** [n / d] and [n % d]: a panic for [d] zero *)
Definition div_w {E} (n d : Z) : outcome E Z := if d =? 0 then Panic else Ok (n / d).

Definition block_group_of_bid (fs : Ext2) (bid : Z) : outcome Errno nat :=
  let? idx := div_w bid (blocks_per_group fs) in
  if Z.of_nat (length (block_groups fs)) <=? idx then Err ENOENT else Ok (Z.to_nat idx).
Definition block_group_of_ino (fs : Ext2) (ino : Z) : outcome Errno nat :=
  let? n := usub ino 1 in
  let? idx := div_w n (inodes_per_group fs) in
  if Z.of_nat (length (block_groups fs)) <=? idx then Err ENOENT else Ok (Z.to_nat idx).
Definition inode_idx (fs : Ext2) (ino : Z) : outcome Errno Z :=
  let? n := usub ino 1 in
  let? _ := div_w n (inodes_per_group fs) in Ok (n mod inodes_per_group fs).
Definition block_idx (fs : Ext2) (bid : Z) : outcome Errno Z :=
  let? _ := div_w bid (blocks_per_group fs) in Ok (wrap 32 bid mod blocks_per_group fs).

Definition free_block (bid : Z) : fsM unit :=
  let! fs := sget in
  let! g := slift (block_group_of_bid fs bid) in
  let! idx := slift (block_idx fs bid) in
  sb_inc_free_blocks ;!
  on_group g (fun g => let? g' := bg_free_block idx g in Ok (tt, g')).

Definition free_inode (ino : Z) (is_dir : bool) : fsM unit :=
  let! fs := sget in
  let! g := slift (block_group_of_ino fs ino) in
  let! idx := slift (inode_idx fs ino) in
  sb_inc_free_inodes ;!
  on_group g (fun g => let? g' := bg_free_inode idx is_dir g in Ok (tt, g')).
