(* ===== verification/Ext2AllocFacts.v ===== *)
(** The allocators of ext2 hand out each block and each inode number once, keep
    their counters equal to the free bits of their bitmaps, and find free space
    in every group; and concurrent allocations and frees never drive a counter
    below zero. *)

From stdpp Require Import gmap.
From S2P Require Import Prelude Perms Ext2Raw Ext2RawFacts Ext2Alloc.

(** * Bitmaps *)

Record id_wf (a : IdAlloc) : Prop := {
  id_le : (first_available_id a <= length (bitset a))%nat;
  id_below j : (j < first_available_id a)%nat -> bitset a !! j = Some true;
  id_first : bitset a !! first_available_id a <> Some true;
}.

Lemma leading_ones_spec bits :
  (leading_ones bits <= length bits)%nat /\ (forall j, (j < leading_ones bits)%nat -> bits !! j = Some true) /\
  bits !! leading_ones bits <> Some true.
Proof.
  induction bits as [|[] bits (H1 & H2 & H3)]; cbn; split_and!; try lia; try done.
  intros [|j] Hj; cbn; [done|]. apply H2. lia.
Qed.

Lemma find_available_wf bits from :
  (from <= length bits)%nat -> (forall j, (j < from)%nat -> bits !! j = Some true) ->
  id_wf (MkIdAlloc bits (find_available from bits)).
Proof.
  intros Hle Hb. destruct (leading_ones_spec (drop from bits)) as (H1 & H2 & H3). rewrite length_drop in H1.
  unfold find_available. split; cbn.
  - lia.
  - intros j Hj. destruct (decide (j < from)%nat); [by apply Hb|].
    specialize (H2 (j - from)%nat). rewrite lookup_drop in H2. replace (from + (j - from))%nat with j in H2 by lia. apply H2. lia.
  - by rewrite lookup_drop in H3.
Qed.

Lemma from_bytes_wf slice capacity :
  id_wf (from_bytes_with_capacity slice capacity) /\ length (bitset (from_bytes_with_capacity slice capacity)) = capacity.
Proof.
  split; [apply find_available_wf; [lia|intros j Hj; lia]|]. unfold from_bytes_with_capacity. cbn [bitset].
  assert (Hlen : forall l, length (bits_of_bytes l) = (length l * 8)%nat).
  { induction l as [|b l IH]; [done|]. unfold bits_of_bytes in *. cbn [mbind list_bind]. rewrite length_app, length_fmap, length_seqZ, IH. cbn [length]. lia. }
  destruct (Nat.ltb_spec (length slice * 8) capacity).
  - rewrite length_app, Hlen, length_replicate. lia.
  - rewrite length_take, Hlen, length_take.
    assert (capacity <= ((capacity + 7) / 8) * 8)%nat by (pose proof (Nat.div_mod_eq (capacity + 7) 8); pose proof (Nat.mod_upper_bound (capacity + 7) 8); lia).
    lia.
Qed.

Lemma id_alloc_spec a :
  id_wf a ->
  (exists id a', id_alloc a = (Some id, a') /\ bitset a !! id = Some false /\ bitset a' = <[id := true]> (bitset a) /\ id_wf a') \/
  (id_alloc a = (None, a) /\ forall j, (j < length (bitset a))%nat -> bitset a !! j = Some true).
Proof.
  intros [Hle Hb Hf]. unfold id_alloc. destruct (Nat.ltb_spec (first_available_id a) (length (bitset a))) as [Hlt | Hge].
  - left. destruct (lookup_lt_is_Some_2 _ _ Hlt) as [[] Hx]; [done|].
    eexists _, _. split; [reflexivity|]. split; [done|]. split; [done|].
    apply find_available_wf; [rewrite length_insert; lia|].
    intros j Hj. destruct (decide (j = first_available_id a)) as [-> |]; [by apply list_lookup_insert_eq|].
    rewrite list_lookup_insert_ne by done. apply Hb. lia.
  - right. split; [done|]. intros j Hj. apply Hb. lia.
Qed.

Lemma id_free_spec E a id :
  id_wf a ->
  match bitset a !! id with
  | Some true => exists a', @id_free E id a = Ok a' /\ bitset a' = <[id := false]> (bitset a) /\ id_wf a'
  | _ => @id_free E id a = Panic
  end.
Proof.
  intros [Hle Hb Hf]. unfold id_free, is_allocated. destruct (bitset a !! id) as [[]|] eqn:Hid; cbn [ounwrap obind oassert]; [|done..].
  eexists. split; [reflexivity|]. split; [done|]. pose proof (lookup_lt_Some _ _ _ Hid).
  destruct (Nat.ltb_spec id (first_available_id a)) as [Hlt | Hge]; split; cbn [bitset first_available_id]; rewrite ?length_insert.
  - lia.
  - intros j Hj. rewrite list_lookup_insert_ne by lia. apply Hb. lia.
  - by rewrite list_lookup_insert_eq.
  - done.
  - intros j Hj. rewrite list_lookup_insert_ne by lia. by apply Hb.
  - destruct (decide (id = first_available_id a)) as [-> |]; [by rewrite list_lookup_insert_eq|].
    by rewrite list_lookup_insert_ne.
Qed.

(** * A bitmap with its counter of free bits *)

Definition free_bits (a : IdAlloc) : Z := count negb (bitset a).

Lemma free_bits_set a a' id b :
  bitset a !! id = Some b -> bitset a' = <[id := negb b]> (bitset a) -> free_bits a' = free_bits a + (if b then 1 else -1).
Proof.
  intros Hid Ha. unfold free_bits. rewrite Ha. rewrite (count_insert _ _ _ _ _ Hid). destruct b; cbn; lia.
Qed.

(** The bitmap has [n] bits, at most as many as a block holds, and the counter
    is the number of zeros. *)
Definition counted (n : nat) (a : IdAlloc) (c : Z) : Prop :=
  id_wf a /\ length (bitset a) = n /\ c = free_bits a /\ Z.of_nat n <= 32768.

Lemma counted_range n a c : counted n a c -> 0 <= c <= Z.of_nat n.
Proof. intros (_ & <- & -> & _). apply count_range. Qed.

Lemma counted_alloc n a c :
  counted n a c ->
  (exists id a', id_alloc a = (Some id, a') /\ bitset a !! id = Some false /\ bitset a' = <[id := true]> (bitset a) /\
     0 < c /\ counted n a' (c - 1)) \/
  (id_alloc a = (None, a) /\ c = 0).
Proof.
  intros (Hwf & Hlen & -> & Hn). destruct (id_alloc_spec a Hwf) as [(id & a' & H1 & H2 & H3 & H4) | [H1 H2]].
  - left. exists id, a'. pose proof (free_bits_set a a' id false H2 H3).
    assert (1 <= free_bits a) by exact (count_pos _ _ _ _ H2 eq_refl).
    unfold counted. rewrite H3, length_insert. cbn in H. split_and!; first [done | lia].
  - right. split; [done|]. apply count_none. intros b Hb. apply list_elem_of_lookup in Hb as [j Hj].
    pose proof (H2 j (lookup_lt_Some _ _ _ Hj)). by simplify_eq.
Qed.

Lemma counted_free E n a c id :
  counted n a c -> bitset a !! id = Some true ->
  exists a', @id_free E id a = Ok a' /\ bitset a' = <[id := false]> (bitset a) /\ c < 32768 /\ counted n a' (c + 1).
Proof.
  intros Hc Hid. pose proof Hc as (Hwf & Hlen & -> & Hn). pose proof (id_free_spec E a id Hwf) as H. rewrite Hid in H.
  destruct H as (a' & H1 & H2 & H3). exists a'. pose proof (free_bits_set a a' id true Hid H2).
  assert (Hc' : counted n a' (free_bits a + 1)) by (unfold counted; rewrite H2, length_insert; split_and!; first [done | lia]).
  pose proof (counted_range _ _ _ Hc'). split_and!; try done. lia.
Qed.

(** * The bitmaps of all the groups, with a total *)

Notation view := (IdAlloc * Z)%type (only parsing).
Fixpoint free_sum (l : list view) : Z := match l with [] => 0 | v :: l' => v.2 + free_sum l' end.

(** The identifier [k] is bit [k mod n] of group [k / n]. *)
Definition in_use (n : Z) (l : list view) (k : Z) : bool :=
  match l !! Z.to_nat (k / n) with
  | Some v => default false (bitset v.1 !! Z.to_nat (k mod n))
  | None => false
  end.

(** The total may exceed the sum of the groups by a constant: the blocks of a
    last group that is not complete, which the count of groups leaves out. *)
Record pool_wf (n slack total : Z) (l : list view) : Prop := {
  pool_n : 0 < n;
  pool_slack : 0 <= slack;
  pool_bound : Z.of_nat (length l) * n + slack < 2 ^ 32;
  pool_counted i v : l !! i = Some v -> counted (Z.to_nat n) v.1 v.2;
  pool_total : total = free_sum l + slack;
}.

Lemma free_sum_insert l i v v' : l !! i = Some v -> free_sum (<[i := v']> l) = free_sum l - v.2 + v'.2.
Proof.
  revert i. induction l as [|w l IH]; intros [|i] Hi; [done|done| |]; cbn in Hi.
  - injection Hi as ->. cbn. lia.
  - change (<[S i := v']> (w :: l)) with (w :: <[i := v']> l). cbn [free_sum]. rewrite (IH i Hi). lia.
Qed.

Lemma free_sum_nonneg n l : (forall i v, l !! i = Some v -> counted n v.1 v.2) -> 0 <= free_sum l <= Z.of_nat (length l) * Z.of_nat n.
Proof.
  induction l as [|w l IH]; intros Hl; cbn [free_sum length]; [lia|].
  pose proof (counted_range _ _ _ (Hl 0%nat w eq_refl)). specialize (IH (fun i v Hi => Hl (S i) v Hi)). lia.
Qed.

Lemma free_sum_ge l i v : (forall i v, l !! i = Some v -> 0 <= v.2) -> l !! i = Some v -> v.2 <= free_sum l.
Proof.
  revert i. induction l as [|w l IH]; intros [|i] Hl Hi; [done|done| |]; cbn in Hi |- *.
  - injection Hi as ->. enough (0 <= free_sum l) by lia.
    clear IH. assert (Hl' : forall i v, l !! i = Some v -> 0 <= v.2) by (intros j u Hj; exact (Hl (S j) u Hj)).
    clear Hl. induction l as [|u l IH]; cbn; [lia|]. pose proof (Hl' 0%nat u eq_refl). specialize (IH (fun i v Hi => Hl' (S i) v Hi)). lia.
  - specialize (IH i (fun i v Hi => Hl (S i) v Hi) Hi). pose proof (Hl 0%nat w eq_refl). lia.
Qed.

Lemma divmod_unique n i j : 0 <= j < n -> (Z.of_nat i * n + j) / n = Z.of_nat i /\ (Z.of_nat i * n + j) mod n = j.
Proof.
  intros Hj. split.
  - symmetry. apply (Z.div_unique _ _ _ j); lia.
  - symmetry. apply (Z.mod_unique _ _ (Z.of_nat i)); lia.
Qed.

Lemma in_use_at n l i j v b :
  l !! i = Some v -> bitset v.1 !! j = Some b -> Z.of_nat j < n -> in_use n l (Z.of_nat i * n + Z.of_nat j) = b.
Proof.
  intros Hi Hj Hn. unfold in_use. destruct (divmod_unique n i (Z.of_nat j)) as [-> ->]; [lia|].
  by rewrite !Nat2Z.id, Hi, Hj.
Qed.

Lemma in_use_insert n l i v v' j b k :
  0 < n -> 0 <= k -> l !! i = Some v -> bitset v'.1 = <[j := b]> (bitset v.1) -> (j < length (bitset v.1))%nat -> Z.of_nat j < n ->
  in_use n (<[i := v']> l) k = if k =? Z.of_nat i * n + Z.of_nat j then b else in_use n l k.
Proof.
  intros Hn Hk Hi Hv Hj Hjn. pose proof (lookup_lt_Some _ _ _ Hi). pose proof (Z.div_mod k n). pose proof (Z.mod_pos_bound k n Hn).
  assert (0 <= k / n) by (apply Z.div_pos; lia).
  destruct (Z.eqb_spec k (Z.of_nat i * n + Z.of_nat j)) as [-> | Hne].
  - apply (in_use_at n _ i j v'); [by apply list_lookup_insert_eq| |done]. rewrite Hv. by apply list_lookup_insert_eq.
  - unfold in_use. destruct (decide (Z.to_nat (k / n) = i)) as [Hq | Hq].
    + rewrite Hq, list_lookup_insert_eq, Hi, Hv by done. rewrite list_lookup_insert_ne; [done|]. nia.
    + by rewrite list_lookup_insert_ne.
Qed.

Lemma pool_set n slack total l i a c a' j b (d : Z) :
  pool_wf n slack total l -> l !! i = Some (a, c) -> bitset a !! j = Some (negb b) -> bitset a' = <[j := b]> (bitset a) ->
  counted (Z.to_nat n) a' (c + d) ->
  pool_wf n slack (total + d) (<[i := (a', c + d)]> l) /\
  0 <= Z.of_nat i * n + Z.of_nat j < Z.of_nat (length l) * n /\ in_use n l (Z.of_nat i * n + Z.of_nat j) = negb b /\
  (forall k, 0 <= k -> in_use n (<[i := (a', c + d)]> l) k = if k =? Z.of_nat i * n + Z.of_nat j then b else in_use n l k).
Proof.
  intros [Hn Hs Hb Hc Ht] Hi Hj Ha' Hc'. pose proof (lookup_lt_Some _ _ _ Hi) as Hil. pose proof (lookup_lt_Some _ _ _ Hj) as Hjl.
  destruct (Hc i _ Hi) as (_ & Hlen & _). cbn in Hlen. assert (Z.of_nat j < n) by lia. split_and!.
  - split; [done|done|by rewrite length_insert| |].
    + intros i' v Hi'. destruct (decide (i = i')) as [<- |]; [|rewrite list_lookup_insert_ne in Hi' by done; by eapply Hc].
      rewrite list_lookup_insert_eq in Hi' by done. by injection Hi' as <-.
    + rewrite (free_sum_insert _ _ _ _ Hi). cbn. lia.
  - lia.
  - assert ((Z.of_nat i + 1) * n <= Z.of_nat (length l) * n) by (apply Z.mul_le_mono_nonneg_r; lia). lia.
  - by apply (in_use_at n l i j (a, c)).
  - intros k Hk. by apply (in_use_insert n l i (a, c)).
Qed.

(** A group whose counter is zero has all its identifiers in use. *)
Lemma full_in_use n l : 0 < n -> (forall i v, l !! i = Some v -> counted (Z.to_nat n) v.1 v.2 /\ v.2 = 0) ->
  forall k, 0 <= k < Z.of_nat (length l) * n -> in_use n l k = true.
Proof.
  intros Hn Hl k Hk. unfold in_use. pose proof (Z.div_mod k n). pose proof (Z.mod_pos_bound k n Hn).
  assert (0 <= k / n) by (apply Z.div_pos; lia). assert (Hlt : (Z.to_nat (k / n) < length l)%nat) by nia.
  destruct (lookup_lt_is_Some_2 _ _ Hlt) as [v Hv]. rewrite Hv. destruct (Hl _ _ Hv) as [(_ & Hlen & Hc & _) Hz].
  destruct (bitset v.1 !! Z.to_nat (k mod n)) as [[]|] eqn:Hb; [done| |].
  - pose proof (count_pos negb (bitset v.1) _ _ Hb eq_refl). unfold free_bits in Hc. lia.
  - apply lookup_ge_None in Hb. lia.
Qed.

(** * The file system *)

Definition block_view (g : BlockGroup) : view := (block_bitmap (metadata g), g_free_blocks (descriptor (metadata g))).
Definition inode_view (g : BlockGroup) : view := (inode_bitmap (metadata g), g_free_inodes (descriptor (metadata g))).
Definition blocks_of (fs : Ext2) : list view := block_view <$> block_groups fs.
Definition inodes_of (fs : Ext2) : list view := inode_view <$> block_groups fs.

Definition block_used (fs : Ext2) (bid : Z) : bool := in_use (blocks_per_group fs) (blocks_of fs) bid.
Lemma length_blocks_of fs : length (blocks_of fs) = length (block_groups fs).
Proof. apply length_fmap. Qed.

(** Inode numbers begin at 1. *)
Definition ino_used (fs : Ext2) (k : Z) : bool := in_use (inodes_per_group fs) (inodes_of fs) k.
Definition n_blocks (fs : Ext2) : Z := Z.of_nat (length (block_groups fs)) * blocks_per_group fs.
Definition n_inodes (fs : Ext2) : Z := Z.of_nat (length (block_groups fs)) * inodes_per_group fs.

(** The counters of both kinds; there are no more directories than inodes in use. *)
Record fs_wf (sb si : Z) (fs : Ext2) : Prop := {
  wf_blocks : pool_wf (blocks_per_group fs) sb (free_blocks_count (super_block fs)) (blocks_of fs);
  wf_inodes : pool_wf (inodes_per_group fs) si (free_inodes_count (super_block fs)) (inodes_of fs);
  wf_dirs i g : block_groups fs !! i = Some g ->
    0 <= dirs_count (descriptor (metadata g)) <= inodes_per_group fs - g_free_inodes (descriptor (metadata g));
}.

Lemma on_group_ok {A} i (op : BlockGroup -> outcome Errno (A * BlockGroup)) fs g a g' :
  block_groups fs !! i = Some g -> op g = Ok (a, g') -> on_group i op fs = (Ok a, set_group i g' fs).
Proof. intros Hg Ho. unfold on_group, sbind, sget, slift, sput, sret. by rewrite Hg; cbn; rewrite Ho. Qed.

Lemma on_group_panic {A} i (op : BlockGroup -> outcome Errno (A * BlockGroup)) fs g :
  block_groups fs !! i = Some g -> op g = Panic -> on_group i op fs = (Panic, fs).
Proof. intros Hg Ho. unfold on_group, sbind, sget, slift, sput, sret. by rewrite Hg; cbn; rewrite Ho. Qed.

Lemma set_group_same i g fs : block_groups fs !! i = Some g -> set_group i g fs = fs.
Proof. destruct fs as [sb l n m]. intros Hg. unfold set_group. cbn in *. by rewrite list_insert_id. Qed.

(** The loop over the groups: it stops at the first group, from [idx] on and
    around the end, where the operation finds something. *)
Fixpoint search_loop {A B} (op : BlockGroup -> outcome Errno (option A * BlockGroup)) (k : Ext2 -> nat -> A -> fsM B)
    (n idx : nat) : fsM B :=
  match n with
  | O => serr ENOSPC
  | S n' =>
      let! fs := sget in
      let idx := if (length (block_groups fs) <=? idx)%nat then O else idx in
      let! r := on_group idx op in
      match r with Some a => k fs idx a | None => search_loop op k n' (idx + 1) end
  end.

Lemma search_loop_spec {A B} (op : BlockGroup -> outcome Errno (option A * BlockGroup)) (k : Ext2 -> nat -> A -> fsM B) fs n idx :
  let L := length (block_groups fs) in
  (forall i g, block_groups fs !! i = Some g -> op g = Ok (None, g) \/ exists a g', op g = Ok (Some a, g')) ->
  (n <= L)%nat -> (idx <= L)%nat ->
  (search_loop op k n idx fs = (Err ENOSPC, fs) /\
    forall t g, (t < n)%nat -> block_groups fs !! ((idx + t) mod L)%nat = Some g -> op g = Ok (None, g)) \/
  (exists t i g a g', (t < n)%nat /\ i = ((idx + t) mod L)%nat /\ block_groups fs !! i = Some g /\ op g = Ok (Some a, g') /\
     (forall t' g0, (t' < t)%nat -> block_groups fs !! ((idx + t') mod L)%nat = Some g0 -> op g0 = Ok (None, g0)) /\
     search_loop op k n idx fs = k fs i a (set_group i g' fs)).
Proof.
  intros L Hop. revert idx. induction n as [|n IH]; intros idx Hn Hidx; [left; split; [done|lia]|].
  assert (HL : (0 < L)%nat) by lia. set (i := if (L <=? idx)%nat then O else idx).
  assert (Hmod : i = (idx mod L)%nat).
  { unfold i. destruct (Nat.leb_spec L idx); [|by rewrite Nat.mod_small]. replace idx with L by lia. by rewrite Nat.Div0.mod_same. }
  assert (Hi : (i < L)%nat) by (rewrite Hmod; apply Nat.mod_upper_bound; lia).
  destruct (lookup_lt_is_Some_2 _ _ Hi) as [g Hg]. cbn [search_loop].
  rewrite (sbind_ok _ _ _ fs fs) by done. fold L. fold i.
  destruct (Hop i g Hg) as [Hnone | (a & g' & Hsome)].
  - rewrite (sbind_ok _ _ _ None fs) by (rewrite (on_group_ok _ _ _ g None g) by done; by rewrite set_group_same).
    assert (Hshift : forall t, ((i + 1 + t) mod L = (idx + S t) mod L)%nat).
    { intros t. rewrite Hmod. replace (idx + S t)%nat with (idx + (1 + t))%nat by lia. rewrite <- Nat.add_assoc. apply Nat.Div0.add_mod_idemp_l. }
    destruct (IH (i + 1)%nat) as [[He Hall] | (t & j & g1 & a & g1' & Ht & Hj & Hg1 & Ho1 & Hbef & Hres)]; [lia|lia| |].
    + left. split; [done|]. intros [|t] g0 Ht Hg0; [rewrite Nat.add_0_r, <- Hmod in Hg0; by simplify_eq|].
      apply (Hall t); [lia|]. by rewrite Hshift.
    + right. exists (S t), j, g1, a, g1'. rewrite <- Hshift. split_and!; [lia|done..| |done].
      intros [|t'] g0 Ht' Hg0; [rewrite Nat.add_0_r, <- Hmod in Hg0; by simplify_eq|]. apply (Hbef t'); [lia|]. by rewrite Hshift.
  - right. exists O, i, g, a, g'. rewrite Nat.add_0_r. split_and!; [lia|done..|intros; lia|].
    by rewrite (sbind_ok _ _ _ (Some a) (set_group i g' fs)) by (by apply (on_group_ok _ _ _ g)).
Qed.

(** ** One group *)

Definition with_blocks (a : IdAlloc) (c : Z) (g : BlockGroup) : BlockGroup :=
  let d := descriptor (metadata g) in
  set_metadata (MkGroupMetadata (set_counts d c (g_free_inodes d) (dirs_count d)) a (inode_bitmap (metadata g))) g.
Definition with_inodes (a : IdAlloc) (c dirs : Z) (g : BlockGroup) : BlockGroup :=
  let d := descriptor (metadata g) in
  set_metadata (MkGroupMetadata (set_counts d (g_free_blocks d) c dirs) (block_bitmap (metadata g)) a) g.

Lemma dec_counter_ok {E} c : 0 < c -> @dec_counter E c = Ok (c - 1).
Proof. intros H. unfold dec_counter. by rewrite (proj2 (Z.ltb_lt _ _) H). Qed.
Lemma inc_counter_ok {E} n c : c + 1 < 2 ^ n -> @inc_counter E n c = Ok (c + 1).
Proof. intros H. unfold inc_counter, add_w. by rewrite (proj2 (Z.ltb_lt _ _) H). Qed.

Lemma bg_alloc_block_spec E n g a c :
  counted n a c -> block_view g = (a, c) ->
  (@bg_alloc_block E g = Ok (None, g) /\ c = 0) \/
  (exists j a', @bg_alloc_block E g = Ok (Some (Z.of_nat j), with_blocks a' (c - 1) g) /\ 0 < c /\
     bitset a !! j = Some false /\ bitset a' = <[j := true]> (bitset a) /\ counted n a' (c - 1)).
Proof.
  intros Hc Hv. injection Hv as Ha Hcc. unfold bg_alloc_block, gm_alloc_block. rewrite Hcc, Ha.
  destruct (counted_alloc _ _ _ Hc) as [(j & a' & Hal & Hj & Ha' & H0 & Hc') | [Hal ->]]; [|by left].
  right. exists j, a'. rewrite (proj2 (Z.eqb_neq _ _)) by lia. rewrite Hal, dec_counter_ok by done. cbn [obind fst snd].
  pose proof (lookup_lt_Some _ _ _ Hj). destruct Hc as (_ & Hlen & _ & Hn). rewrite Z.mod_small by lia. done.
Qed.

Lemma bg_alloc_inode_spec E n g a c is_dir :
  counted n a c -> inode_view g = (a, c) -> 0 <= dirs_count (descriptor (metadata g)) <= Z.of_nat n - c ->
  (@bg_alloc_inode E is_dir g = Ok (None, g) /\ c = 0) \/
  (exists j a', @bg_alloc_inode E is_dir g =
       Ok (Some (Z.of_nat j), with_inodes a' (c - 1) (dirs_count (descriptor (metadata g)) + Z.b2z is_dir) g) /\ 0 < c /\
     bitset a !! j = Some false /\ bitset a' = <[j := true]> (bitset a) /\ counted n a' (c - 1)).
Proof.
  intros Hc Hv Hd. injection Hv as Ha Hcc. unfold bg_alloc_inode, gm_alloc_inode. rewrite Hcc, Ha.
  destruct (counted_alloc _ _ _ Hc) as [(j & a' & Hal & Hj & Ha' & H0 & Hc') | [Hal ->]]; [|by left].
  right. exists j, a'. rewrite (proj2 (Z.eqb_neq _ _)) by lia. rewrite Hal, dec_counter_ok by done. cbn [obind].
  pose proof (lookup_lt_Some _ _ _ Hj). destruct Hc as (_ & Hlen & _ & Hn). rewrite Z.mod_small by lia.
  destruct is_dir; cbn [Z.b2z]; [rewrite inc_counter_ok by lia|rewrite Z.add_0_r]; cbn [obind fst snd]; done.
Qed.

Lemma bg_free_block_spec E n g a c j :
  counted n a c -> block_view g = (a, c) ->
  match bitset a !! j with
  | Some true => exists a', @bg_free_block E (Z.of_nat j) g = Ok (with_blocks a' (c + 1) g) /\
      bitset a' = <[j := false]> (bitset a) /\ counted n a' (c + 1)
  | _ => @bg_free_block E (Z.of_nat j) g = Panic
  end.
Proof.
  intros Hc Hv. injection Hv as Ha Hcc. unfold bg_free_block, gm_free_block, is_allocated. rewrite Hcc, Ha, Nat2Z.id.
  destruct (bitset a !! j) as [[]|] eqn:Hj; cbn [ounwrap obind oassert]; [|done..].
  destruct (counted_free E _ _ _ _ Hc Hj) as (a' & Hf & Ha' & Hlt & Hc'). exists a'. rewrite Hf. cbn [obind].
  rewrite inc_counter_ok by lia. done.
Qed.

Lemma bg_free_inode_spec E n g a c j is_dir :
  counted n a c -> inode_view g = (a, c) -> (is_dir = true -> 0 < dirs_count (descriptor (metadata g))) ->
  match bitset a !! j with
  | Some true => exists a', @bg_free_inode E (Z.of_nat j) is_dir g =
        Ok (let g' := with_inodes a' (c + 1) (dirs_count (descriptor (metadata g)) - Z.b2z is_dir) g in
            MkBlockGroup (metadata g') (delete (Z.of_nat j) (inode_cache g)) (raw_inodes g)) /\
      bitset a' = <[j := false]> (bitset a) /\ counted n a' (c + 1)
  | _ => @bg_free_inode E (Z.of_nat j) is_dir g = Panic
  end.
Proof.
  intros Hc Hv Hd. injection Hv as Ha Hcc. unfold bg_free_inode, gm_free_inode, is_allocated. rewrite Hcc, Ha, Nat2Z.id.
  destruct (bitset a !! j) as [[]|] eqn:Hj; cbn [ounwrap obind oassert]; [|done..].
  destruct (counted_free E _ _ _ _ Hc Hj) as (a' & Hf & Ha' & Hlt & Hc'). exists a'. rewrite Hf. cbn [obind].
  rewrite inc_counter_ok by lia. cbn [obind].
  destruct is_dir; cbn [Z.b2z]; [rewrite dec_counter_ok by auto|rewrite Z.sub_0_r]; done.
Qed.

(** ** All the groups *)

Lemma with_blocks_of i a c g fs :
  block_groups fs !! i = Some g -> blocks_of (set_group i (with_blocks a c g) fs) = <[i := (a, c)]> (blocks_of fs) /\
  inodes_of (set_group i (with_blocks a c g) fs) = inodes_of fs.
Proof.
  intros Hg. unfold blocks_of, inodes_of. cbn [set_group block_groups]. rewrite !list_fmap_insert. split; [done|].
  apply list_insert_id. rewrite list_lookup_fmap, Hg. done.
Qed.

Lemma with_inodes_of i a c dirs m ch ri g fs :
  block_groups fs !! i = Some g -> m = metadata (with_inodes a c dirs g) ->
  inodes_of (set_group i (MkBlockGroup m ch ri) fs) = <[i := (a, c)]> (inodes_of fs) /\
  blocks_of (set_group i (MkBlockGroup m ch ri) fs) = blocks_of fs.
Proof.
  intros Hg ->. unfold blocks_of, inodes_of. cbn [set_group block_groups]. rewrite !list_fmap_insert. split; [done|].
  apply list_insert_id. rewrite list_lookup_fmap, Hg. done.
Qed.

Lemma groups_covered L idx i : (idx < L)%nat -> (i < L)%nat -> exists t, (t < L)%nat /\ ((idx + t) mod L)%nat = i.
Proof.
  intros H1 H2. destruct (decide (idx <= i)%nat).
  - exists (i - idx)%nat. split; [lia|]. rewrite Nat.mod_small; lia.
  - exists (i + L - idx)%nat. split; [lia|]. replace (idx + (i + L - idx))%nat with (i + 1 * L)%nat by lia.
    rewrite Nat.Div0.mod_add. apply Nat.mod_small. lia.
Qed.

Definition block_k (fs : Ext2) (idx : nat) (block_idx : Z) : fsM Z :=
  let! base := slift (mul_w 32 (wrap 32 (Z.of_nat idx)) (blocks_per_group fs)) in
  let! bid := slift (add_w 32 base block_idx) in
  sb_dec_free_blocks ;! sret bid.
Definition inode_k (fs : Ext2) (idx : nat) (inode_idx : Z) : fsM (nat * Z) :=
  let! base := slift (mul_w 32 (wrap 32 (Z.of_nat idx)) (inodes_per_group fs)) in
  let! base := slift (add_w 32 base inode_idx) in
  let! ino := slift (add_w 32 base 1) in
  sb_dec_free_inodes ;! sret (idx, ino).

Lemma sbind_congr {S E A B} (m : stM S E A) (k k' : A -> stM S E B) s : (forall a s', k a s' = k' a s') -> sbind m k s = sbind m k' s.
Proof. intros H. unfold sbind. destruct (m s) as [[] s']; [apply H|done..]. Qed.

Lemma alloc_block_search n idx fs : alloc_block_loop n idx fs = search_loop bg_alloc_block block_k n idx fs.
Proof.
  revert idx fs. induction n as [|n IH]; intros idx fs; [done|]. cbn [alloc_block_loop search_loop].
  rewrite !(sbind_ok sget _ fs fs fs eq_refl). by apply sbind_congr; intros [] ?.
Qed.
Lemma alloc_ino_search n idx is_dir fs : alloc_ino_loop n idx is_dir fs = search_loop (bg_alloc_inode is_dir) inode_k n idx fs.
Proof.
  revert idx fs. induction n as [|n IH]; intros idx fs; [done|]. cbn [alloc_ino_loop search_loop].
  rewrite !(sbind_ok sget _ fs fs fs eq_refl). by apply sbind_congr; intros [] ?.
Qed.

Lemma mul_w_ok {E} n a b : a * b < 2 ^ n -> @mul_w E n a b = Ok (a * b).
Proof. intros H. unfold mul_w. by rewrite (proj2 (Z.ltb_lt _ _) H). Qed.
Lemma add_w_ok {E} n a b : a + b < 2 ^ n -> @add_w E n a b = Ok (a + b).
Proof. intros H. unfold add_w. by rewrite (proj2 (Z.ltb_lt _ _) H). Qed.

Lemma set_free_counts s b i : free_blocks_count (set_free s b i) = b /\ free_inodes_count (set_free s b i) = i.
Proof. by destruct s. Qed.

Definition with_free (blocks inodes : Z) (fs : Ext2) : Ext2 := set_super_block (set_free (super_block fs) blocks inodes) fs.

Lemma sb_counter_ok fs (b := free_blocks_count (super_block fs)) (i := free_inodes_count (super_block fs)) :
  (0 < b -> sb_dec_free_blocks fs = (Ok tt, with_free (b - 1) i fs)) /\
  (0 < i -> sb_dec_free_inodes fs = (Ok tt, with_free b (i - 1) fs)) /\
  (b + 1 < 2 ^ 32 -> sb_inc_free_blocks fs = (Ok tt, with_free (b + 1) i fs)) /\
  (i + 1 < 2 ^ 32 -> sb_inc_free_inodes fs = (Ok tt, with_free b (i + 1) fs)).
Proof.
  unfold sb_update.
  split_and!; intros H; rewrite ?(dec_counter_ok _ H), ?(inc_counter_ok _ _ H); done.
Qed.

Lemma fs_wf_intro sb si b i fs :
  pool_wf (blocks_per_group fs) sb b (blocks_of fs) -> pool_wf (inodes_per_group fs) si i (inodes_of fs) ->
  (forall j g, block_groups fs !! j = Some g ->
     0 <= dirs_count (descriptor (metadata g)) <= inodes_per_group fs - g_free_inodes (descriptor (metadata g))) ->
  fs_wf sb si (with_free b i fs).
Proof.
  intros Hb Hi Hd. destruct (set_free_counts (super_block fs) b i) as [Eb Ei].
  split; cbn [with_free set_super_block super_block]; rewrite ?Eb, ?Ei; assumption.
Qed.

Lemma pool_total_lt n slack total l : pool_wf n slack total l -> total < 2 ^ 32.
Proof. intros [Hn Hs Hb Hc ->]. pose proof (free_sum_nonneg (Z.to_nat n) l Hc). lia. Qed.

Lemma pool_total_pos n slack total l i a c : pool_wf n slack total l -> l !! i = Some (a, c) -> c <= total.
Proof.
  intros [Hn Hs Hb Hc ->] Hi. apply (Z.le_trans _ (free_sum l)); [|lia]. apply (free_sum_ge l i (a, c)); [|done].
  intros j v Hj. destruct (counted_range _ _ _ (Hc j v Hj)). done.
Qed.

Lemma view_at {v : BlockGroup -> view} fs i g : block_groups fs !! i = Some g -> (v <$> block_groups fs) !! i = Some (v g).
Proof. intros Hg. by rewrite list_lookup_fmap, Hg. Qed.

Lemma full_pool n slack total fs (v : BlockGroup -> view) (op : BlockGroup -> Prop) idx :
  pool_wf n slack total (v <$> block_groups fs) -> (idx < length (block_groups fs))%nat ->
  (forall t g, (t < length (block_groups fs))%nat -> block_groups fs !! ((idx + t) mod length (block_groups fs))%nat = Some g -> op g) ->
  (forall i g, block_groups fs !! i = Some g -> op g -> (v g).2 = 0) ->
  forall k, 0 <= k < Z.of_nat (length (block_groups fs)) * n -> in_use n (v <$> block_groups fs) k = true.
Proof.
  intros Hp Hidx Hall H0. rewrite <- (length_fmap v). apply full_in_use; [apply (pool_n _ _ _ _ Hp)|].
  intros i w Hw. split; [by eapply pool_counted|]. rewrite list_lookup_fmap in Hw.
  destruct (block_groups fs !! i) as [g|] eqn:Hg; [|done]. injection Hw as <-. apply (H0 i g Hg).
  destruct (groups_covered (length (block_groups fs)) idx i) as (t & Ht & Hti); [done|by apply lookup_lt_Some in Hg|].
  apply (Hall t); [done|by rewrite Hti].
Qed.

Lemma dirs_frame i g g' fs :
  block_groups fs !! i = Some g ->
  (forall j g0, block_groups fs !! j = Some g0 ->
     0 <= dirs_count (descriptor (metadata g0)) <= inodes_per_group fs - g_free_inodes (descriptor (metadata g0))) ->
  0 <= dirs_count (descriptor (metadata g')) <= inodes_per_group fs - g_free_inodes (descriptor (metadata g')) ->
  forall j g0, block_groups (set_group i g' fs) !! j = Some g0 ->
     0 <= dirs_count (descriptor (metadata g0)) <= inodes_per_group fs - g_free_inodes (descriptor (metadata g0)).
Proof.
  intros Hg Hall Hg' j g0 Hj. cbn [set_group block_groups] in Hj. destruct (decide (i = j)) as [<- | Hne].
  - rewrite list_lookup_insert_eq in Hj by (by eapply lookup_lt_Some). by injection Hj as <-.
  - rewrite list_lookup_insert_ne in Hj by done. by eapply Hall.
Qed.

(** What the allocation and the release of [x] do to the identifiers in use *)
Definition allocates (used used' : Z -> bool) (x : Z) : Prop :=
  used x = false /\ forall k, 0 <= k -> used' k = (k =? x) || used k.
Definition releases (used used' : Z -> bool) (x : Z) : Prop :=
  used x = true /\ forall k, 0 <= k -> used' k = negb (k =? x) && used k.

(** The kind given to [free_inode] agrees with the count of directories of the
    group: there is a directory to remove, or an inode that is none. *)
Definition kind_ok (fs : Ext2) (ino : Z) (is_dir : bool) : Prop :=
  forall g, block_groups fs !! Z.to_nat ((ino - 1) / inodes_per_group fs) = Some g ->
    let d := descriptor (metadata g) in
    if is_dir then 0 < dirs_count d else dirs_count d < inodes_per_group fs - g_free_inodes d.

Lemma alloc_block_at sb si fs i g j a' :
  let c := g_free_blocks (descriptor (metadata g)) in
  let bid := Z.of_nat i * blocks_per_group fs + Z.of_nat j in
  fs_wf sb si fs -> block_groups fs !! i = Some g -> 0 < c ->
  bitset (block_bitmap (metadata g)) !! j = Some false -> bitset a' = <[j := true]> (bitset (block_bitmap (metadata g))) ->
  counted (Z.to_nat (blocks_per_group fs)) a' (c - 1) ->
  exists fs', block_k fs i (Z.of_nat j) (set_group i (with_blocks a' (c - 1) g) fs) = (Ok bid, fs') /\
    0 <= bid < n_blocks fs /\ fs_wf sb si fs' /\ allocates (block_used fs) (block_used fs') bid /\
    inodes_of fs' = inodes_of fs /\ n_blocks fs' = n_blocks fs.
Proof.
  intros c bid [Hb Hi Hd] Hg Hc Hj Ha' Hc'. pose proof (view_at (v := block_view) fs i g Hg) as Hv.
  destruct (pool_set _ _ _ _ i _ c a' j true (-1) Hb Hv Hj Ha' Hc') as (Hw & Hr & Hu & Hins). fold bid in Hr, Hu, Hins.
  pose proof (pool_total_pos _ _ _ _ _ _ _ Hb Hv) as Htot.
  assert (Hnb : 0 <= bid < n_blocks fs) by (unfold n_blocks; unfold blocks_of in Hr; by rewrite length_fmap in Hr).
  pose proof (pool_bound _ _ _ _ Hb) as Hbnd. pose proof (pool_slack _ _ _ _ Hb). unfold blocks_of in Hbnd. rewrite length_fmap in Hbnd.
  pose proof (pool_n _ _ _ _ Hb). unfold n_blocks in Hnb. assert (Hbid : bid = Z.of_nat i * blocks_per_group fs + Z.of_nat j) by done.
  assert (Z.of_nat i < 2 ^ 32) by (apply lookup_lt_Some in Hg; nia).
  unfold block_k. rewrite (Z.mod_small (Z.of_nat i)), mul_w_ok by lia. rewrite (slift_ok _ _ _ _ eq_refl), add_w_ok by lia.
  rewrite (slift_ok _ _ _ _ eq_refl).
  rewrite (sbind_ok _ _ _ tt _ (proj1 (sb_counter_ok (set_group i _ fs)) (Z.lt_le_trans _ _ _ Hc Htot))).
  eexists. split; [reflexivity|]. split; [done|].
  destruct (with_blocks_of i a' (c - 1) g fs Hg) as [Hbo Hio].
  split; [|split; [split; [done|]|split; [exact Hio|]]].
  - apply fs_wf_intro; [rewrite Hbo; exact Hw|rewrite Hio; exact Hi|].
    apply (dirs_frame i g _ fs); [done..|]. exact (Hd i g Hg).
  - intros k Hk. change (block_used (with_free _ _ ?f) k) with (block_used f k). unfold block_used. rewrite Hbo, Hins by done.
    by destruct (k =? bid).
  - unfold n_blocks. cbn. by rewrite length_insert.
Qed.

Lemma alloc_ino_at sb si fs i g j a' (is_dir : bool) :
  let c := g_free_inodes (descriptor (metadata g)) in
  let ino := Z.of_nat i * inodes_per_group fs + Z.of_nat j + 1 in
  fs_wf sb si fs -> block_groups fs !! i = Some g -> 0 < c ->
  bitset (inode_bitmap (metadata g)) !! j = Some false -> bitset a' = <[j := true]> (bitset (inode_bitmap (metadata g))) ->
  counted (Z.to_nat (inodes_per_group fs)) a' (c - 1) ->
  exists fs', inode_k fs i (Z.of_nat j)
      (set_group i (with_inodes a' (c - 1) (dirs_count (descriptor (metadata g)) + Z.b2z is_dir) g) fs) = (Ok (i, ino), fs') /\
    0 < ino <= n_inodes fs /\ fs_wf sb si fs' /\ allocates (ino_used fs) (ino_used fs') (ino - 1) /\
    blocks_of fs' = blocks_of fs /\ n_inodes fs' = n_inodes fs /\
    blocks_per_group fs' = blocks_per_group fs /\ inodes_per_group fs' = inodes_per_group fs /\ kind_ok fs' ino is_dir.
Proof.
  intros c ino [Hb Hi Hd] Hg Hc Hj Ha' Hc'. pose proof (view_at (v := inode_view) fs i g Hg) as Hv.
  destruct (pool_set _ _ _ _ i _ c a' j true (-1) Hi Hv Hj Ha' Hc') as (Hw & Hr & Hu & Hins).
  replace (Z.of_nat i * inodes_per_group fs + Z.of_nat j) with (ino - 1) in Hr, Hu, Hins by (unfold ino; lia).
  pose proof (pool_total_pos _ _ _ _ _ _ _ Hi Hv) as Htot.
  assert (Hnb : 0 < ino <= n_inodes fs) by (unfold n_inodes; unfold inodes_of in Hr; rewrite length_fmap in Hr; lia).
  pose proof (pool_bound _ _ _ _ Hi) as Hbnd. pose proof (pool_slack _ _ _ _ Hi). unfold inodes_of in Hbnd. rewrite length_fmap in Hbnd.
  pose proof (pool_n _ _ _ _ Hi). unfold n_inodes in Hnb. assert (Hino : ino = Z.of_nat i * inodes_per_group fs + Z.of_nat j + 1) by done.
  assert (Z.of_nat i < 2 ^ 32) by (apply lookup_lt_Some in Hg; nia).
  unfold inode_k. rewrite (Z.mod_small (Z.of_nat i)), mul_w_ok by lia. rewrite (slift_ok _ _ _ _ eq_refl), add_w_ok by lia.
  rewrite (slift_ok _ _ _ _ eq_refl), add_w_ok by lia. rewrite (slift_ok _ _ _ _ eq_refl).
  rewrite (sbind_ok _ _ _ tt _ (proj1 (proj2 (sb_counter_ok (set_group i _ fs))) (Z.lt_le_trans _ _ _ Hc Htot))).
  eexists. split; [reflexivity|]. split; [done|].
  destruct (with_inodes_of i a' (c - 1) (dirs_count (descriptor (metadata g)) + Z.b2z is_dir) _ (inode_cache g) (raw_inodes g) g fs Hg eq_refl) as [Hio Hbo].
  split; [|split; [split; [done|]|split; [exact Hbo|]]].
  - apply fs_wf_intro; [exact (eq_rect_r (pool_wf _ _ _) Hb Hbo)|exact (eq_rect_r (pool_wf _ _ _) Hw Hio)|].
    apply (dirs_frame i g _ fs); [done..|]. pose proof (Hd i g Hg). cbn. fold c. destruct is_dir; cbn; lia.
  - intros k Hk. unfold ino_used. etrans; [exact (f_equal (fun l => in_use (inodes_per_group fs) l k) Hio)|].
    rewrite Hins by done. by destruct (k =? ino - 1).
  - split; [unfold n_inodes; cbn; by rewrite length_insert|]. split; [done|]. split; [done|].
    intros g'. cbn. replace ((ino - 1) / inodes_per_group fs) with (Z.of_nat i).
    + rewrite Nat2Z.id, list_lookup_insert_eq by (by eapply lookup_lt_Some). intros [= <-]. cbn. pose proof (Hd i g Hg). fold c in H2 |- *. destruct is_dir; cbn; lia.
    + apply lookup_lt_Some in Hj. destruct (pool_counted _ _ _ _ Hi _ _ Hv) as (_ & Hlen & _). cbn in Hlen.
      replace (ino - 1) with (Z.of_nat i * inodes_per_group fs + Z.of_nat j) by (unfold ino; lia). symmetry. apply divmod_unique. lia.
Qed.

(** The group and the index that [free_block] and [free_inode] compute *)
Lemma group_of_ok n fs k (v : BlockGroup -> view) slack total :
  pool_wf n slack total (v <$> block_groups fs) -> 0 <= k < Z.of_nat (length (block_groups fs)) * n ->
  exists g, block_groups fs !! Z.to_nat (k / n) = Some g /\ 0 <= k / n < Z.of_nat (length (block_groups fs)) /\ 0 <= k mod n < n /\
    k = Z.of_nat (Z.to_nat (k / n)) * n + Z.of_nat (Z.to_nat (k mod n)) /\
    (v <$> block_groups fs) !! Z.to_nat (k / n) = Some (v g) /\
    in_use n (v <$> block_groups fs) k = default false (bitset (v g).1 !! Z.to_nat (k mod n)).
Proof.
  intros Hp Hk. pose proof (pool_n _ _ _ _ Hp). pose proof (Z.div_mod k n). pose proof (Z.mod_pos_bound k n ltac:(lia)).
  assert (0 <= k / n) by (apply Z.div_pos; lia). assert (k / n < Z.of_nat (length (block_groups fs))) by (apply Z.div_lt_upper_bound; lia).
  assert (Hlt : (Z.to_nat (k / n) < length (block_groups fs))%nat) by lia.
  destruct (lookup_lt_is_Some_2 _ _ Hlt) as [g Hg]. exists g. pose proof (view_at (v := v) fs _ g Hg) as Hv.
  split_and!; [done|lia|lia|lia|lia|lia|done|]. unfold in_use. by rewrite Hv.
Qed.

(** A panic of the group is a panic whatever the counter of the super block. *)
Lemma inc_then_panic (inc : fsM unit) i (op : BlockGroup -> outcome Errno (unit * BlockGroup)) fs g :
  inc = sb_inc_free_blocks \/ inc = sb_inc_free_inodes -> block_groups fs !! i = Some g -> op g = Panic ->
  exists fs', (inc ;! on_group i op) fs = (Panic, fs').
Proof.
  intros Hinc Hg Ho. destruct Hinc as [-> | ->]; unfold sb_update, inc_counter, add_w, sbind, slift, sput;
    destruct (_ <? _); eauto; eexists; by apply (on_group_panic _ _ _ g).
Qed.

Lemma free_block_spec sb si fs bid :
  fs_wf sb si fs -> 0 <= bid ->
  match free_block bid fs with
  | (Ok _, fs') => bid < n_blocks fs /\ fs_wf sb si fs' /\ releases (block_used fs) (block_used fs') bid /\
      inodes_of fs' = inodes_of fs /\ n_blocks fs' = n_blocks fs
  | (Err e, fs') => e = ENOENT /\ n_blocks fs <= bid /\ fs' = fs
  | (Panic, _) => bid < n_blocks fs /\ block_used fs bid = false
  end.
Proof.
  intros [Hb Hi Hd] H0. pose proof (pool_n _ _ _ _ Hb) as Hn. unfold free_block.
  rewrite (sbind_ok sget _ fs fs fs eq_refl). unfold block_group_of_bid, block_idx, div_w. rewrite (proj2 (Z.eqb_neq _ 0)) by lia.
  cbn [obind]. destruct (Z.leb_spec (Z.of_nat (length (block_groups fs))) (bid / blocks_per_group fs)) as [Hge | Hlt].
  { cbn. split_and!; [done| |done]. unfold n_blocks. pose proof (Z.mul_div_le bid (blocks_per_group fs)). nia. }
  assert (Hbid : bid < n_blocks fs) by (unfold n_blocks; pose proof (Z.mul_succ_div_gt bid (blocks_per_group fs)); nia).
  destruct (group_of_ok _ fs bid block_view _ _ Hb) as (g & Hg & Hq & Hr & Hk & Hv & Hu); [unfold n_blocks in *; lia|].
  pose proof (pool_bound _ _ _ _ Hb) as Hbnd. pose proof (pool_slack _ _ _ _ Hb). unfold blocks_of in Hbnd. rewrite length_fmap in Hbnd.
  rewrite !(slift_ok _ _ _ _ eq_refl), (Z.mod_small bid) by (unfold n_blocks in *; lia).
  pose proof (bg_free_block_spec Errno _ g _ _ (Z.to_nat (bid mod blocks_per_group fs)) (pool_counted _ _ _ _ Hb _ _ Hv) eq_refl) as Hf.
  rewrite Z2Nat.id in Hf by lia. cbn [block_view fst snd] in Hu, Hf.
  destruct (bitset _ !! _) as [[]|] eqn:Hj in Hf; rewrite Hj in Hu; 
    [|destruct (inc_then_panic sb_inc_free_blocks _ (fun g => let? g' := bg_free_block (bid mod blocks_per_group fs) g in Ok (tt, g'))
       fs g (or_introl eq_refl) Hg) as [fs' ->]; [by rewrite Hf|by split]..].
  destruct Hf as (a' & Hf & Ha' & Hc').
  destruct (pool_set _ _ _ _ _ _ _ a' _ false 1 Hb Hv Hj Ha' Hc') as (Hw & _ & _ & Hins). rewrite <- Hk in Hins.
  pose proof (pool_total_lt _ _ _ _ Hw) as Htot.
  rewrite (sbind_ok _ _ _ _ _ (proj1 (proj2 (proj2 (sb_counter_ok fs))) Htot)).
  rewrite (on_group_ok _ _ _ g tt (with_blocks a' (g_free_blocks (descriptor (metadata g)) + 1) g)) by (done || by rewrite Hf).
  destruct (with_blocks_of _ a' (g_free_blocks (descriptor (metadata g)) + 1) g fs Hg) as [Hbo Hio].
  split; [done|]. split; [|split; [split; [done|]|split; [exact Hio|]]].
  - apply (fs_wf_intro sb si _ _ (set_group _ _ fs)); [rewrite Hbo; exact Hw|rewrite Hio; exact Hi|].
    apply (dirs_frame _ g _ fs); [done..|]. exact (Hd _ g Hg).
  - intros k Hk0. etrans; [exact (f_equal (fun l => in_use (blocks_per_group fs) l k) Hbo)|]. rewrite Hins by done. by destruct (k =? bid).
  - unfold n_blocks. cbn. by rewrite length_insert.
Qed.

Lemma free_inode_spec sb si fs ino is_dir :
  fs_wf sb si fs -> 0 < ino -> kind_ok fs ino is_dir ->
  match free_inode ino is_dir fs with
  | (Ok _, fs') => ino <= n_inodes fs /\ fs_wf sb si fs' /\ releases (ino_used fs) (ino_used fs') (ino - 1) /\
      blocks_of fs' = blocks_of fs /\ n_inodes fs' = n_inodes fs
  | (Err e, fs') => e = ENOENT /\ n_inodes fs < ino /\ fs' = fs
  | (Panic, _) => ino <= n_inodes fs /\ ino_used fs (ino - 1) = false
  end.
Proof.
  intros [Hb Hi Hd] H0 Hkind. pose proof (pool_n _ _ _ _ Hi) as Hn. unfold free_inode.
  rewrite (sbind_ok sget _ fs fs fs eq_refl). unfold block_group_of_ino, inode_idx, div_w. rewrite usub_ok by lia. cbn [obind].
  rewrite (proj2 (Z.eqb_neq _ 0)) by lia.
  cbn [obind]. destruct (Z.leb_spec (Z.of_nat (length (block_groups fs))) ((ino - 1) / inodes_per_group fs)) as [Hge | Hlt].
  { cbn. split_and!; [done| |done]. unfold n_inodes. pose proof (Z.mul_div_le (ino - 1) (inodes_per_group fs)). nia. }
  assert (Hino : ino <= n_inodes fs) by (unfold n_inodes; pose proof (Z.mul_succ_div_gt (ino - 1) (inodes_per_group fs)); nia).
  destruct (group_of_ok _ fs (ino - 1) inode_view _ _ Hi) as (g & Hg & Hq & Hr & Hk & Hv & Hu); [unfold n_inodes in *; lia|].
  rewrite !(slift_ok _ _ _ _ eq_refl). pose proof (Hkind g Hg) as Hkg. cbn zeta in Hkg.
  pose proof (bg_free_inode_spec Errno _ g _ _ (Z.to_nat ((ino - 1) mod inodes_per_group fs)) is_dir (pool_counted _ _ _ _ Hi _ _ Hv) eq_refl) as Hf.
  rewrite Z2Nat.id in Hf by lia. cbn [inode_view fst snd] in Hu, Hf. specialize (Hf ltac:(intros ->; exact Hkg)).
  destruct (bitset _ !! _) as [[]|] eqn:Hj in Hf; rewrite Hj in Hu;
    [|destruct (inc_then_panic sb_inc_free_inodes _ (fun g => let? g' := bg_free_inode ((ino - 1) mod inodes_per_group fs) is_dir g in Ok (tt, g'))
       fs g (or_intror eq_refl) Hg) as [fs' ->]; [by rewrite Hf|by split]..].
  destruct Hf as (a' & Hf & Ha' & Hc'). cbn zeta in Hf.
  destruct (pool_set _ _ _ _ _ _ _ a' _ false 1 Hi Hv Hj Ha' Hc') as (Hw & _ & _ & Hins). rewrite <- Hk in Hins.
  rewrite (sbind_ok _ _ _ _ _ (proj2 (proj2 (proj2 (sb_counter_ok fs))) (pool_total_lt _ _ _ _ Hw))).
  erewrite (on_group_ok _ _ _ g tt) by (exact Hg || (rewrite Hf; reflexivity)).
  destruct (with_inodes_of _ a' (g_free_inodes (descriptor (metadata g)) + 1) (dirs_count (descriptor (metadata g)) - Z.b2z is_dir) _
    (delete ((ino - 1) mod inodes_per_group fs) (inode_cache g)) (raw_inodes g) g fs Hg eq_refl) as [Hio Hbo].
  split; [done|]. split; [|split; [split; [done|]|split; [exact Hbo|]]].
  - apply (fs_wf_intro sb si _ _ (set_group _ _ fs)); [rewrite Hbo; exact Hb|rewrite Hio; exact Hw|].
    apply (dirs_frame _ g _ fs); [done..|]. pose proof (Hd _ g Hg). cbn. destruct is_dir; cbn; lia.
  - intros k Hk0. etrans; [exact (f_equal (fun l => in_use (inodes_per_group fs) l k) Hio)|]. rewrite Hins by done. by destruct (k =? ino - 1).
  - unfold n_inodes. cbn. by rewrite length_insert.
Qed.

Lemma alloc_block_spec sb si fs idx :
  fs_wf sb si fs ->
  match alloc_block idx fs with
  | (Ok bid, fs') => 0 <= bid < n_blocks fs /\ fs_wf sb si fs' /\ allocates (block_used fs) (block_used fs') bid /\
      inodes_of fs' = inodes_of fs /\ n_blocks fs' = n_blocks fs
  | (Err e, fs') => fs' = fs /\ (e = EINVAL /\ (length (block_groups fs) <= idx)%nat \/
      e = ENOSPC /\ (idx < length (block_groups fs))%nat /\ forall k, 0 <= k < n_blocks fs -> block_used fs k = true)
  | (Panic, _) => False
  end.
Proof.
  intros Hwf. pose proof Hwf as [Hb Hi Hd]. unfold alloc_block. rewrite (sbind_ok sget _ fs fs fs eq_refl).
  destruct (Nat.leb_spec (length (block_groups fs)) idx) as [Hge | Hlt]; [by split; [|left]|]. rewrite alloc_block_search.
  assert (Hgr : forall i g, block_groups fs !! i = Some g -> counted (Z.to_nat (blocks_per_group fs)) (block_view g).1 (block_view g).2)
    by (intros i g Hg; exact (pool_counted _ _ _ _ Hb i _ (view_at fs i g Hg))).
  edestruct (search_loop_spec bg_alloc_block block_k fs (length (block_groups fs)) idx)
    as [[-> Hall] | (t & i & g & b & g' & Ht & Hii & Hg & Ho & Hbef & ->)]; [|lia|lia| |].
  { intros i g Hg. destruct (bg_alloc_block_spec Errno _ g _ _ (Hgr i g Hg) eq_refl) as [[? _] | (? & ? & ? & _)]; eauto. }
  - split; [done|]. right. split; [done|]. split; [done|].
    apply (full_pool _ _ _ fs block_view (fun g => bg_alloc_block g = @Ok Errno _ (None, g)) idx Hb Hlt Hall).
    intros i g Hg Hop. destruct (bg_alloc_block_spec Errno _ g _ _ (Hgr i g Hg) eq_refl) as [[_ ?] | (? & ? & H & _)]; [done|by rewrite H in Hop].
  - destruct (bg_alloc_block_spec Errno _ g _ _ (Hgr i g Hg) eq_refl) as [[H _] | (j & a' & H & Hc & Hj & Ha' & Hc')]; [by rewrite H in Ho|].
    rewrite H in Ho. injection Ho as <- <-. cbn [block_view fst snd] in *.
    destruct (alloc_block_at sb si fs i g j a' Hwf Hg Hc Hj Ha' Hc') as (fs' & -> & Hres). exact Hres.
Qed.

Lemma alloc_ino_spec sb si fs idx is_dir :
  fs_wf sb si fs ->
  match alloc_ino idx is_dir fs with
  | (Ok (i, ino), fs') => 0 < ino <= n_inodes fs /\ Z.of_nat i = (ino - 1) / inodes_per_group fs /\ fs_wf sb si fs' /\
      allocates (ino_used fs) (ino_used fs') (ino - 1) /\ blocks_of fs' = blocks_of fs /\ n_inodes fs' = n_inodes fs /\
      blocks_per_group fs' = blocks_per_group fs /\ inodes_per_group fs' = inodes_per_group fs /\ kind_ok fs' ino is_dir
  | (Err e, fs') => fs' = fs /\ (e = EINVAL /\ (length (block_groups fs) <= idx)%nat \/
      e = ENOSPC /\ (idx < length (block_groups fs))%nat /\ forall k, 0 <= k < n_inodes fs -> ino_used fs k = true)
  | (Panic, _) => False
  end.
Proof.
  intros Hwf. pose proof Hwf as [Hb Hi Hd]. unfold alloc_ino. rewrite (sbind_ok sget _ fs fs fs eq_refl).
  destruct (Nat.leb_spec (length (block_groups fs)) idx) as [Hge | Hlt]; [by split; [|left]|]. rewrite alloc_ino_search.
  pose proof (pool_n _ _ _ _ Hi) as Hn.
  assert (Hgr : forall i g, block_groups fs !! i = Some g -> counted (Z.to_nat (inodes_per_group fs)) (inode_view g).1 (inode_view g).2)
    by (intros i g Hg; exact (pool_counted _ _ _ _ Hi i _ (view_at fs i g Hg))).
  assert (Hop : forall i g, block_groups fs !! i = Some g -> _) by
    (intros i g Hg; refine (bg_alloc_inode_spec Errno _ g _ _ is_dir (Hgr i g Hg) eq_refl _); rewrite Z2Nat.id by lia; exact (Hd i g Hg)).
  edestruct (search_loop_spec (bg_alloc_inode is_dir) inode_k fs (length (block_groups fs)) idx)
    as [[-> Hall] | (t & i & g & b & g' & Ht & Hii & Hg & Ho & Hbef & ->)]; [|lia|lia| |].
  { intros i g Hg. destruct (Hop i g Hg) as [[? _] | (? & ? & ? & _)]; eauto. }
  - split; [done|]. right. split; [done|]. split; [done|].
    apply (full_pool _ _ _ fs inode_view (fun g => bg_alloc_inode is_dir g = @Ok Errno _ (None, g)) idx Hi Hlt Hall).
    intros i g Hg Hnone. destruct (Hop i g Hg) as [[_ ?] | (? & ? & H & _)]; [done|by rewrite H in Hnone].
  - destruct (Hop i g Hg) as [[H _] | (j & a' & H & Hc & Hj & Ha' & Hc')]; [by rewrite H in Ho|].
    rewrite H in Ho. injection Ho as <- <-. cbn [inode_view fst snd] in *.
    destruct (alloc_ino_at sb si fs i g j a' is_dir Hwf Hg Hc Hj Ha' Hc') as (fs' & -> & Hr & Hres). split; [done|]. split; [|exact Hres].
    apply lookup_lt_Some in Hj. destruct (Hgr i g Hg) as (_ & Hlen & _). cbn in Hlen.
    replace (Z.of_nat i * inodes_per_group fs + Z.of_nat j + 1 - 1) with (Z.of_nat i * inodes_per_group fs + Z.of_nat j) by lia.
    symmetry. apply divmod_unique. lia.
Qed.

(** C7: block and inode allocation of ext2.  With counters equal to the free
    bits of the bitmaps, [alloc_block] and [alloc_ino] return an identifier
    that was free, wherever the search starts, and report ENOSPC only when every
    identifier of every group is in use; [free_block] and [free_inode] release
    exactly the identifier given, panic on one that is free, and refuse one
    outside the device.  No other identifier changes, errors change nothing, and
    the counters keep agreeing with the bitmaps. *)
Theorem ext2_allocators sb si fs idx is_dir bid ino is_dir' :
  fs_wf sb si fs -> 0 <= bid -> 0 < ino -> kind_ok fs ino is_dir' ->
  match alloc_block idx fs with
  | (Ok b, fs') => 0 <= b < n_blocks fs /\ fs_wf sb si fs' /\ allocates (block_used fs) (block_used fs') b /\ inodes_of fs' = inodes_of fs
  | (Err e, fs') => fs' = fs /\ (e = EINVAL /\ (length (block_groups fs) <= idx)%nat \/
      e = ENOSPC /\ (idx < length (block_groups fs))%nat /\ forall k, 0 <= k < n_blocks fs -> block_used fs k = true)
  | (Panic, _) => False
  end /\
  match free_block bid fs with
  | (Ok _, fs') => bid < n_blocks fs /\ fs_wf sb si fs' /\ releases (block_used fs) (block_used fs') bid /\ inodes_of fs' = inodes_of fs
  | (Err e, fs') => e = ENOENT /\ n_blocks fs <= bid /\ fs' = fs
  | (Panic, _) => bid < n_blocks fs /\ block_used fs bid = false
  end /\
  match alloc_ino idx is_dir fs with
  | (Ok (i, n), fs') => 0 < n <= n_inodes fs /\ Z.of_nat i = (n - 1) / inodes_per_group fs /\ fs_wf sb si fs' /\
      allocates (ino_used fs) (ino_used fs') (n - 1) /\ blocks_of fs' = blocks_of fs
  | (Err e, fs') => fs' = fs /\ (e = EINVAL /\ (length (block_groups fs) <= idx)%nat \/
      e = ENOSPC /\ (idx < length (block_groups fs))%nat /\ forall k, 0 <= k < n_inodes fs -> ino_used fs k = true)
  | (Panic, _) => False
  end /\
  match free_inode ino is_dir' fs with
  | (Ok _, fs') => ino <= n_inodes fs /\ fs_wf sb si fs' /\ releases (ino_used fs) (ino_used fs') (ino - 1) /\ blocks_of fs' = blocks_of fs
  | (Err e, fs') => e = ENOENT /\ n_inodes fs < ino /\ fs' = fs
  | (Panic, _) => ino <= n_inodes fs /\ ino_used fs (ino - 1) = false
  end.
Proof.
  intros Hwf Hb Hi Hk. split; [|split; [|split]].
  - pose proof (alloc_block_spec sb si fs idx Hwf) as H. destruct (alloc_block idx fs) as [[] fs']; [tauto|done..].
  - pose proof (free_block_spec sb si fs bid Hwf Hb) as H. destruct (free_block bid fs) as [[] fs']; [tauto|done..].
  - pose proof (alloc_ino_spec sb si fs idx is_dir Hwf) as H. destruct (alloc_ino idx is_dir fs) as [[[]| |] fs']; [tauto|done..].
  - pose proof (free_inode_spec sb si fs ino is_dir' Hwf Hi Hk) as H. destruct (free_inode ino is_dir' fs) as [[] fs']; [tauto|done..].
Qed.

(** A device of two groups of eight blocks and eight inodes, with three blocks
    and two inodes in use in the first group *)
Definition demo_group (blocks inodes : Z) (free_b free_i dirs : Z) : BlockGroup :=
  MkBlockGroup (MkGroupMetadata (MkGroupDescriptor 3 4 5 free_b free_i dirs)
    (from_bytes_with_capacity [blocks] 8) (from_bytes_with_capacity [inodes] 8)) ∅ [].
Definition demo_sb (blocks inodes : Z) : SuperBlock :=
  MkSuperBlock 16 16 0 blocks inodes 0 BLOCK_SIZE BLOCK_SIZE 8 8 8 0 0 0 0 MAGIC_NUM Valid Continue 0 (MkDuration 0 0)
    Linux Dynamic 0 0 11 128 0 0 0 0 [] [] [] 0 0.
Definition demo_fs : Ext2 := MkExt2 (demo_sb 13 14) [demo_group 7 3 5 6 1; demo_group 0 0 8 8 0] 8 8.

Lemma demo_fs_wf : fs_wf 0 0 demo_fs.
Proof.
  split; [split|split|].
  1-3,5-8,10: cbn; lia.
  1,2: intros [|[|i]] v Hv; [injection Hv as <-|injection Hv as <-|done]; (split_and!; [apply from_bytes_wf|reflexivity|reflexivity|cbn; lia]).
  intros [|[|i]] g Hg; [injection Hg as <-|injection Hg as <-|done]; cbn; lia.
Qed.

Lemma ext2_allocators_witness :
  (alloc_block 0 demo_fs).1 = Ok 3 /\ block_used demo_fs 3 = false /\ (free_block 9 demo_fs).1 = Panic /\ (alloc_ino 1 true demo_fs).1 = Ok (1%nat, 9).
Proof.
  assert (Hk : kind_ok demo_fs 1 true) by (intros g Hg; injection Hg as <-; cbn; lia).
  destruct (ext2_allocators 0 0 demo_fs 0 true 9 1 true demo_fs_wf ltac:(lia) ltac:(lia) Hk) as (H1 & _).
  split; [vm_compute; reflexivity|]. split; [|split; vm_compute; reflexivity].
  destruct (alloc_block 0 demo_fs) as [r fs'] eqn:E. assert (Hr : r = Ok 3) by (apply (f_equal fst) in E; vm_compute in E; by rewrite <- E).
  subst r. destruct H1 as (_ & _ & [Hf _] & _). exact Hf.
Defined.

(** * Loading *)

(** The raw super blocks that load, and what is loaded *)
Definition sb_valid (r : RawSuperBlock) : Prop :=
  log_block_size r < 64 /\ log_frag_size r < 64 /\ r_magic r = MAGIC_NUM /\ r_state r ∈ [1; 2] /\ r_errors r ∈ [1; 2; 3] /\
  r_creator_os r = 0 /\ r_rev_level r = 1 /\ 128 <= r_inode_size r /\
  Z.ldiff (r_feature_compat r) 63 = 0 /\ Z.ldiff (r_feature_incompat r) 31 = 0 /\ Z.ldiff (r_feature_ro_compat r) 7 = 0.
Definition sb_loaded (r : RawSuperBlock) (sb : SuperBlock) : Prop :=
  magic sb = MAGIC_NUM /\ discriminant (state sb) = r_state r /\ discriminant (errors_behaviour sb) = r_errors r /\
  creator_os sb = Linux /\ rev_level sb = Dynamic /\
  block_size sb = 1024 * 2 ^ log_block_size r mod 2 ^ 64 /\ frag_size sb = 1024 * 2 ^ log_frag_size r mod 2 ^ 64 /\
  inodes_count sb = r_inodes_count r /\ sb_blocks_count sb = r_blocks_count r /\
  free_blocks_count sb = r_free_blocks_count r /\ free_inodes_count sb = r_free_inodes_count r /\
  Ext2Raw.blocks_per_group sb = r_blocks_per_group r /\ Ext2Raw.inodes_per_group sb = r_inodes_per_group r /\
  first_ino sb = r_first_ino r /\ inode_size sb = r_inode_size r /\
  feature_compat sb = r_feature_compat r /\ feature_incompat sb = r_feature_incompat r /\ feature_ro_compat sb = r_feature_ro_compat r /\
  reserved_blocks_count sb = r_reserved_blocks_count r /\ first_data_block sb = r_first_data_block r /\
  frags_per_group sb = r_frags_per_group r /\ sb_mtime sb = r_mtime r /\ wtime sb = r_wtime r /\ mnt_count sb = r_mnt_count r /\
  max_mnt_count sb = r_max_mnt_count r /\ last_check_time sb = r_last_check_time r /\
  check_interval sb = MkDuration (r_check_interval r) 0 /\ def_resuid sb = r_def_resuid r /\ def_resgid sb = r_def_resgid r /\
  block_group_idx sb = r_block_group_idx r /\ uuid sb = r_uuid r /\ volume_name sb = r_volume_name r /\
  last_mounted_dir sb = r_last_mounted_dir r /\ prealloc_file_blocks sb = r_prealloc_file_blocks r /\
  prealloc_dir_blocks sb = r_prealloc_dir_blocks r.

(** The raw inodes that load, and what is loaded *)
Definition inode_valid (r : RawInode) : Prop :=
  Z.land (ri_mode r) 0xF000 ∈ [0x1000; 0x2000; 0x4000; 0x6000; 0x8000; 0xA000; 0xC000] /\ Z.ldiff (ri_flags r) FILE_FLAGS = 0.
Definition inode_loaded (r : RawInode) (d : InodeDesc) : Prop :=
  discriminant (i_type d) = Z.land (ri_mode r) 0xF000 /\ perm d = ri_mode r mod 2 ^ 12 /\
  uid d = uid_high (os_dependent_2 r) * 2 ^ 16 + ri_uid r /\ gid d = gid_high (os_dependent_2 r) * 2 ^ 16 + ri_gid r /\
  i_size d = (if decide (i_type d = FileT) then size_high r * 2 ^ 32 else 0) + size_low r /\
  atime d = MkDuration (ri_atime r) 0 /\ ctime d = MkDuration (ri_ctime r) 0 /\ mtime d = MkDuration (ri_mtime r) 0 /\
  dtime d = MkDuration (ri_dtime r) 0 /\ hard_links d = ri_hard_links r /\ i_blocks_count d = ri_blocks_count r /\
  i_flags d = ri_flags r /\ i_data d = ri_data r /\
  acl d = match i_type d with FileT => Some (file_acl r) | DirT => Some (size_high r) | _ => None end.

(** A group whose bitmaps are the bits of the blocks that its descriptor names *)
Definition group_loaded (rg : RawGroupDescriptor) (read_bytes : Z -> outcome Errno (list Z)) (sb : SuperBlock) (g : BlockGroup) : Prop :=
  let bitmap_of a bid n := exists buf, read_bytes bid = Ok buf /\ id_wf a /\ n <= 32768 /\ Z.of_nat (length (bitset a)) = n /\
    forall i, (i < length (bitset a))%nat ->
      bitset a !! i = Some (default false ((fun b => Z.testbit b (Z.of_nat (i mod 8))) <$> buf !! (i / 8)%nat)) in
  bitmap_of (block_bitmap (metadata g)) (rg_block_bitmap rg) (Ext2Raw.blocks_per_group sb) /\
  bitmap_of (inode_bitmap (metadata g)) (rg_inode_bitmap rg) (Ext2Raw.inodes_per_group sb) /\
  descriptor (metadata g) = group_descriptor_from rg /\ inode_cache g = ∅.

Lemma bits_of_bytes_lookup l i :
  bits_of_bytes l !! i = (fun b => Z.testbit b (Z.of_nat (i mod 8))) <$> l !! (i / 8)%nat.
Proof.
  revert i. induction l as [|b l IH]; intros i; [done|]. unfold bits_of_bytes in *. cbn [mbind list_bind].
  destruct (Nat.lt_ge_cases i 8) as [Hi|Hi].
  - rewrite lookup_app_l by (rewrite length_fmap, length_seqZ; lia). rewrite (Nat.div_small i 8), (Nat.mod_small i 8) by lia.
    rewrite list_lookup_fmap, lookup_seqZ_lt by lia. done.
  - rewrite lookup_app_r by (rewrite length_fmap, length_seqZ; lia). rewrite length_fmap, length_seqZ.
    change (Z.to_nat 8) with 8%nat. rewrite IH. pose proof (Nat.div_add (i - 8) 1 8 ltac:(lia)) as Hd.
    pose proof (Nat.Div0.mod_add (i - 8) 1 8) as Hm. replace (i - 8 + 1 * 8)%nat with i in * by lia.
    rewrite Hm, Hd, Nat.add_1_r. done.
Qed.

Lemma from_bytes_bits slice capacity i :
  (i < capacity)%nat -> bitset (from_bytes_with_capacity slice capacity) !! i =
    Some (default false ((fun b => Z.testbit b (Z.of_nat (i mod 8))) <$> slice !! (i / 8)%nat)).
Proof.
  intros Hi. unfold from_bytes_with_capacity. cbn [bitset].
  assert (Hlen : length (bits_of_bytes slice) = (length slice * 8)%nat).
  { clear. induction slice as [|b l IH]; [done|]. unfold bits_of_bytes in *. cbn [mbind list_bind].
    rewrite length_app, length_fmap, length_seqZ, IH. cbn [length]. lia. }
  pose proof (Nat.div_mod_eq i 8). pose proof (Nat.mod_upper_bound i 8 ltac:(lia)).
  destruct (Nat.ltb_spec (length slice * 8) capacity) as [Hs|Hs].
  - destruct (Nat.lt_ge_cases i (length slice * 8)) as [Hl|Hl].
    + rewrite lookup_app_l, bits_of_bytes_lookup by lia.
      destruct (lookup_lt_is_Some_2 slice (i / 8)) as [b Hb]; [lia|]. by rewrite Hb.
    + rewrite lookup_app_r, lookup_replicate_2, (lookup_ge_None_2 slice) by lia. done.
  - rewrite lookup_take_lt, bits_of_bytes_lookup by done.
    pose proof (Nat.div_mod_eq (capacity + 7) 8). pose proof (Nat.mod_upper_bound (capacity + 7) 8 ltac:(lia)).
    rewrite lookup_take_lt by nia. destruct (lookup_lt_is_Some_2 slice (i / 8)) as [b Hb]; [nia|]. by rewrite Hb.
Qed.

Lemma sb_invalid r : 
  ~ (r_magic r = MAGIC_NUM /\ (r_state r = 1 \/ r_state r = 2) /\ (r_errors r = 1 \/ r_errors r = 2 \/ r_errors r = 3) /\
     r_creator_os r = 0 /\ r_rev_level r = 1 /\ 128 <= r_inode_size r /\
     Z.ldiff (r_feature_compat r) 63 = 0 /\ Z.ldiff (r_feature_incompat r) 31 = 0 /\ Z.ldiff (r_feature_ro_compat r) 7 = 0) ->
  ~ sb_valid r.
Proof. unfold sb_valid. rewrite !elem_of_cons, !elem_of_nil. intros H (_ & _ & ? & ? & ? & ? & ? & ? & ? & ? & ?). apply H. tauto. Qed.

(** A code converts to the constructor that has it, if any. *)
Lemma try_from_int_case `{TryFromInt A} (P : option A -> Prop) v :
  (forall a, discriminant a = v -> P (Some a)) ->
  (Forall (fun a => discriminant a <> v) constructors -> P None) -> P (try_from_int v).
Proof.
  intros Hs Hn. unfold try_from_int. destruct (find _ _) as [a|] eqn:Hf.
  - apply find_some in Hf as [Hin Hv]. by apply Hs, Z.eqb_eq.
  - apply Hn, Forall_forall. intros a Hin Hv. apply list_elem_of_In in Hin.
    pose proof (find_none _ _ Hf a Hin) as He. cbn in He. lia.
Qed.

Lemma from_bits_ok_or {B} (P : outcome Errno B -> Prop) mask b (k : Z -> outcome Errno B) :
  (Z.ldiff b mask = 0 -> P (k b)) -> (Z.ldiff b mask <> 0 -> P (Err EINVAL)) -> P (obind (ok_or (from_bits mask b) EINVAL) k).
Proof. intros H1 H2. unfold from_bits. destruct (Z.eqb_spec (Z.ldiff b mask) 0); cbn; auto. Qed.

(** A check of a super block that fails *)
Ltac refused :=
  intros; match goal with
  | H : Forall _ constructors |- _ => cbn in H; rewrite !Forall_cons in H
  | _ => idtac
  end; cbn [discriminant fs_state_code errors_code os_code rev_code] in *;
  split; [apply sb_invalid; lia|try done; by rewrite (proj2 (Z.eqb_neq (r_state _) 117)) by lia].

Lemma super_block_loads r :
  raw_super_block_wf r ->
  match super_block_try_from r with
  | Ok sb => sb_valid r /\ sb_loaded r sb
  | Err e => ~ sb_valid r /\ e = if (r_magic r =? MAGIC_NUM) && (r_state r =? 117) then EUCLEAN else EINVAL
  | Panic => 64 <= log_block_size r \/ 64 <= log_frag_size r
  end.
Proof.
  intros [H32 _]. rewrite !Forall_cons in H32. destruct H32 as (_ & [Hlb _] & [Hlf _] & _).
  unfold super_block_try_from, shl1024. destruct (Z.ltb_spec (log_block_size r) 64) as [Hb|Hb]; [|by left].
  destruct (Z.ltb_spec (log_frag_size r) 64) as [Hf|Hf]; [|by right]. cbn [obind].
  rewrite !Z.shiftl_mul_pow2 by done. destruct (Z.eqb_spec (r_magic r) MAGIC_NUM) as [Hm|Hm]; cbn [negb andb]; [|refused].
  apply try_from_int_case; [|refused]. intros st Hst. cbn [ok_or obind].
  destruct st; [| |cbn in Hst; rewrite <- Hst; refused].
  all: apply try_from_int_case; [|refused]; intros eb Heb; cbn [ok_or obind].
  all: apply try_from_int_case; [|refused]; intros os Hos; cbn [ok_or obind]; destruct os; [|refused..].
  all: apply try_from_int_case; [|refused]; intros rev Hrev; cbn [ok_or obind]; destruct rev; [refused|].
  all: destruct (Z.ltb_spec (r_inode_size r) 128); [refused|].
  all: do 3 (apply from_bits_ok_or; [intros|refused]).
  all: split; [|by unfold sb_loaded]; unfold sb_valid; rewrite !elem_of_cons; cbn in *; destruct eb; cbn in *; split_and!; lia.
Qed.

Lemma inode_loads r :
  raw_inode_wf r ->
  match inode_desc_try_from r with
  | Ok d => inode_valid r /\ inode_loaded r d
  | Err e => ~ inode_valid r /\ e = EINVAL
  | Panic => False
  end.
Proof.
  intros [H32 H16]. rewrite !Forall_cons in H32. rewrite !Forall_cons in H16.
  destruct H32 as (Hsl & _), H16 as (Hmode & Hu & Hg & _). unfold u16, u32 in *.
  unfold inode_desc_try_from, file_type_from_raw_mode, file_perm_from_raw_mode, inode_valid.
  apply try_from_int_case.
  - intros ft Hft. cbn [ok_or obind]. assert (Hpm : Z.ldiff (Z.land (ri_mode r) 0xFFF) 0xFFF = 0).
    { change 0xFFF with (Z.ones 12). rewrite Z.ldiff_land, <- Z.land_assoc, Z.land_lnot_diag. apply Z.land_0_r. }
    apply from_bits_ok_or; [intros _|done]. apply from_bits_ok_or; intros Hfl; [|by split; [intros [_ ?]|]].
    split; [split; [|done]; rewrite <- Hft, !elem_of_cons; destruct ft; cbn; lia|]. unfold inode_loaded.
    cbn [i_type perm uid gid i_size atime ctime mtime dtime hard_links i_blocks_count i_flags i_data acl].
    rewrite !lor_add by lia. change 0xFFF with (Z.ones 12). rewrite Z.land_ones by lia.
    split_and!; try done. by case_decide.
  - intros Hn. cbn in Hn. rewrite !Forall_cons in Hn. split; [|done].
    intros [Hv _]. rewrite !elem_of_cons, elem_of_nil in Hv. lia.
Qed.

Lemma group_loads rg read_bytes table sb :
  0 <= Ext2Raw.blocks_per_group sb -> 0 <= Ext2Raw.inodes_per_group sb ->
  match load_group rg read_bytes table sb with
  | Ok g => group_loaded rg read_bytes sb g /\ raw_inodes g = table
  | Err e => (e = EINVAL /\ (32768 < Ext2Raw.blocks_per_group sb \/ 32768 < Ext2Raw.inodes_per_group sb)) \/
      read_bytes (rg_block_bitmap rg) = Err e \/ read_bytes (rg_inode_bitmap rg) = Err e
  | Panic => read_bytes (rg_block_bitmap rg) = Panic \/ read_bytes (rg_inode_bitmap rg) = Panic
  end.
Proof.
  intros Hb Hi. unfold load_group. cbn [group_descriptor_from block_bitmap_bid inode_bitmap_bid].
  destruct (Z.ltb_spec (BLOCK_SIZE * 8) (Ext2Raw.blocks_per_group sb)); [left; split; [done|lia]|].
  destruct (read_bytes (rg_block_bitmap rg)) as [buf|e|] eqn:Hr; cbn [obind]; [|auto..].
  destruct (Z.ltb_spec (BLOCK_SIZE * 8) (Ext2Raw.inodes_per_group sb)); [left; split; [done|lia]|].
  destruct (read_bytes (rg_inode_bitmap rg)) as [buf'|e|] eqn:Hr'; cbn [obind]; [|auto..].
  split; [|done]. split; [|split]; [exists buf|exists buf'|done]; cbn [metadata block_bitmap inode_bitmap].
  all: match goal with |- context [from_bytes_with_capacity ?s ?c] => destruct (from_bytes_wf s c) as [Hwf Hlen] end.
  all: rewrite Hlen; split_and!; try done; try lia; intros i Hi'; by apply from_bytes_bits.
Qed.


