(* ===== verification/Ext2Conc.v ===== *)
(** Block allocation of ext2 by several threads (fs/ext2/fs.rs and
    fs/ext2/block_group.rs under kernel/aster-nix/src).  [alloc_block] and
    [free_block] run as sequences of critical sections: the read lock of a
    group for the fast path, its write lock for the bitmap, the write lock of
    the super block for its counter.  A thread may be preempted between any two
    of them. *)

From stdpp Require Import gmap.
From S2P Require Import Prelude Perms Ext2Raw Ext2Alloc Ext2AllocFacts.

(** Where a thread is: in the loop of [alloc_block] with the turns left and the
    index of the group, before the fast path or after it; with a block taken
    before [dec_free_blocks]; in [free_block], before [inc_free_blocks] or
    after it. *)
Inductive pc : Type :=
| Idle
| Scan (n idx : nat)
| Slow (n idx : nat)
| Dec (bid : Z)
| Inc (bid : Z)
| Clear (bid : Z).

(** One critical section.  The result names the next one, and the blocks given
    to the caller. *)
Definition exec (p : pc) : fsM (pc * list Z) :=
  match p with
  | Idle => sret (Idle, [])
  | Scan O idx => serr ENOSPC
  | Scan (S n) idx =>
      let! fs := sget in
      let idx := if (length (block_groups fs) <=? idx)%nat then O else idx in
      let! g := slift (ounwrap (block_groups fs !! idx)) in
      sret (if g_free_blocks (descriptor (metadata g)) =? 0 then Scan n (idx + 1) else Slow n idx, [])
  | Slow n idx =>
      let! fs := sget in
      let! r := on_group idx (fun g => let? r := gm_alloc_block (metadata g) in Ok (r.1, set_metadata r.2 g)) in
      match r with
      | Some block_idx =>
          let! base := slift (mul_w 32 (wrap 32 (Z.of_nat idx)) (blocks_per_group fs)) in
          let! bid := slift (add_w 32 base block_idx) in
          sret (Dec bid, [])
      | None => sret (Scan n (idx + 1), [])
      end
  | Dec bid => sb_dec_free_blocks ;! sret (Idle, [bid])
  | Inc bid =>
      let! fs := sget in
      let! _ := slift (block_group_of_bid fs bid) in
      let! _ := slift (block_idx fs bid) in
      sb_inc_free_blocks ;! sret (Clear bid, [])
  | Clear bid =>
      let! fs := sget in
      let! g := slift (block_group_of_bid fs bid) in
      let! idx := slift (block_idx fs bid) in
      on_group g (fun g => let? g' := bg_free_block idx g in Ok (tt, g')) ;! sret (Idle, [])
  end.

(** A thread that runs alone: the critical sections in sequence are the
    operations. *)
Fixpoint run_alone (fuel : nat) (p : pc) : fsM (list Z) :=
  match fuel with
  | O => spanic
  | S fuel' =>
      let! r := exec p in
      match r.1 with Idle => sret r.2 | p' => run_alone fuel' p' end
  end.


Lemma sb_inc_inv fs u fs1 : sb_inc_free_blocks fs = (Ok u, fs1) -> exists n, fs1 = with_free n (free_inodes_count (super_block fs)) fs.
Proof. unfold sb_update, sbind, slift, sput. destruct (inc_counter _ _) as [n| |]; [|done..]. intros [= <- <-]. by exists n. Qed.

Lemma alone_free bid fs : run_alone 2 (Inc bid) fs = (let! _ := free_block bid in sret []) fs.
Proof.
  unfold free_block. cbn [run_alone exec]. rewrite !sbind_assoc, !(sbind_ok sget _ fs fs fs eq_refl). unfold sbind, sget, slift, sret.
  destruct (block_group_of_bid fs bid) as [g|e|] eqn:Hg; [|done..]. destruct (block_idx fs bid) as [i|e|] eqn:Hi; [|done..].
  destruct (sb_inc_free_blocks fs) as [[u|e|] fs1] eqn:Hinc; [|done..]. destruct (sb_inc_inv _ _ _ Hinc) as [n Hfs1].
  assert (block_group_of_bid fs1 bid = Ok g /\ block_idx fs1 bid = Ok i) as [Hg1 Hi1] by (by rewrite Hfs1).
  cbn [fst snd]. rewrite Hg1, Hi1. by destruct (on_group _ _ fs1) as [[] fs2].
Qed.

Lemma on_group_alloc idx fs :
  on_group idx bg_alloc_block fs =
  match block_groups fs !! idx with
  | Some g => if g_free_blocks (descriptor (metadata g)) =? 0 then (Ok None, fs)
              else on_group idx (fun g => let? r := gm_alloc_block (metadata g) in Ok (r.1, set_metadata r.2 g)) fs
  | None => (Panic, fs)
  end.
Proof.
  unfold on_group, sbind, sget, slift, sput, sret, bg_alloc_block. destruct (block_groups fs !! idx) as [g|] eqn:Hg; cbn [ounwrap]; [|done].
  destruct (_ =? 0); [|done]. cbn [fst snd]. by rewrite set_group_same.
Qed.

Lemma alone_alloc n idx fuel fs :
  (2 * n + 1 <= fuel)%nat -> run_alone fuel (Scan n idx) fs = (let! bid := alloc_block_loop n idx in sret [bid]) fs.
Proof.
  revert idx fuel fs. induction n as [|n IH]; intros idx fuel fs Hf; (destruct fuel as [|fuel]; [lia|]); [done|].
  cbn [run_alone exec alloc_block_loop]. rewrite !sbind_assoc, !(sbind_ok sget _ fs fs fs eq_refl).
  set (i := if (_ <=? idx)%nat then O else idx). unfold sbind, slift, sret. rewrite on_group_alloc.
  destruct (block_groups fs !! i) as [g|] eqn:Hg; [|done]. cbn [ounwrap fst snd].
  destruct (g_free_blocks (descriptor (metadata g)) =? 0) eqn:H0; cbn [fst snd]; [by apply IH; lia|].
  destruct fuel as [|fuel]; [lia|]. cbn [run_alone exec]. unfold sbind, sget, slift, sret.
  destruct (on_group _ _ fs) as [[[b|]|e|] fs1]; [|cbn; by apply IH; lia|done..].
  destruct (mul_w _ _ _) as [base|e|]; [|done..]. destruct (add_w _ _ _) as [bid|e|]; [|done..]. cbn [fst snd].
  destruct fuel as [|fuel]; [lia|]. cbn [run_alone exec]. unfold sbind, sret. by destruct (sb_dec_free_blocks fs1) as [[] fs2].
Qed.

(** * Interleavings *)

(** The threads, and the blocks that callers hold. *)
Record World : Type := MkWorld { w_fs : Ext2; threads : list pc; held : list Z }.

Inductive cstep : World -> World -> Prop :=
| cstep_alloc fs ts hs t idx :
    ts !! t = Some Idle -> (idx < length (block_groups fs))%nat ->
    cstep (MkWorld fs ts hs) (MkWorld fs (<[t := Scan (length (block_groups fs)) idx]> ts) hs)
| cstep_free fs ts h1 bid h2 t :
    ts !! t = Some Idle ->
    cstep (MkWorld fs ts (h1 ++ bid :: h2)) (MkWorld fs (<[t := Inc bid]> ts) (h1 ++ h2))
| cstep_exec fs ts hs t p fs' p' out :
    ts !! t = Some p -> exec p fs = (Ok (p', out), fs') ->
    cstep (MkWorld fs ts hs) (MkWorld fs' (<[t := p']> ts) (out ++ hs))
| cstep_err fs ts hs t p fs' e :
    ts !! t = Some p -> exec p fs = (Err e, fs') ->
    cstep (MkWorld fs ts hs) (MkWorld fs' (<[t := Idle]> ts) hs).

(** The block a thread works on, and whether the counter of the super block
    counts one free block more than the bitmaps for it. *)
Definition owned (p : pc) : list Z := match p with Dec b | Inc b | Clear b => [b] | _ => [] end.
Definition ahead (p : pc) : bool := match p with Dec _ | Clear _ => true | _ => false end.

Definition pc_ok (L : nat) (p : pc) : Prop :=
  match p with Scan n idx => (n <= L)%nat /\ (idx <= L)%nat /\ (0 < L)%nat | Slow n idx => (n < L)%nat /\ (idx < L)%nat | _ => True end.

Record conc_inv (sb : Z) (w : World) : Prop := {
  ci_pool : pool_wf (blocks_per_group (w_fs w)) (sb + count ahead (threads w)) (free_blocks_count (super_block (w_fs w))) (blocks_of (w_fs w));
  ci_slack : 0 <= sb;
  ci_room : n_blocks (w_fs w) + sb + Z.of_nat (length (threads w)) < 2 ^ 32;
  ci_nodup : NoDup (held w ++ (threads w ≫= owned));
  ci_used b : b ∈ held w ++ (threads w ≫= owned) -> 0 <= b < n_blocks (w_fs w) /\ block_used (w_fs w) b = true;
  ci_pcs t p : threads w !! t = Some p -> pc_ok (length (block_groups (w_fs w))) p;
}.

Lemma owned_insert ts t p p' :
  ts !! t = Some p -> exists l, ts ≫= owned ≡ₚ owned p ++ l /\ <[t := p']> ts ≫= owned ≡ₚ owned p' ++ l.
Proof.
  intros Ht. pose proof (lookup_lt_Some _ _ _ Ht) as Hlt. exists ((take t ts ≫= owned) ++ (drop (S t) ts ≫= owned)). split.
  - rewrite <- (take_drop_middle ts t p Ht) at 1. rewrite bind_app, bind_cons. solve_Permutation.
  - rewrite (insert_take_drop ts t p' Hlt), bind_app, bind_cons. solve_Permutation.
Qed.

Lemma pool_shift n slack total l d :
  pool_wf n slack total l -> 0 <= slack + d -> Z.of_nat (length l) * n + slack + d < 2 ^ 32 -> pool_wf n (slack + d) (total + d) l.
Proof. intros [H1 H2 H3 H4 H5] Hd Hb. split; try done; lia. Qed.

(** What one critical section does to the file system.  The thread has its
    block before and after; or it takes a free block; or it gives one back. *)
Definition exec_post (sb : Z) (p : pc) (fs : Ext2) : Prop :=
  match exec p fs with
  | (Ok (p', out), fs') =>
      pool_wf (blocks_per_group fs') (sb + Z.b2z (ahead p')) (free_blocks_count (super_block fs')) (blocks_of fs') /\
      length (block_groups fs') = length (block_groups fs) /\ n_blocks fs' = n_blocks fs /\ pc_ok (length (block_groups fs)) p' /\
      ((owned p' ++ out = owned p /\ forall k, block_used fs' k = block_used fs k) \/
       (exists b, owned p = [] /\ owned p' ++ out = [b] /\ 0 <= b < n_blocks fs /\ allocates (block_used fs) (block_used fs') b) \/
       (exists b, owned p = [b] /\ owned p' ++ out = [] /\ releases (block_used fs) (block_used fs') b))
  | (Err e, fs') => fs' = fs /\ owned p = [] /\ ahead p = false
  | (Panic, _) => False
  end.

Section exec.
Context (sb : Z) (fs : Ext2) (Hsb : 0 <= sb) (Hroom : n_blocks fs + sb + 1 < 2 ^ 32).
Notation pool d := (pool_wf (blocks_per_group fs) (sb + d) (free_blocks_count (super_block fs)) (blocks_of fs)).

Lemma exec_scan n idx : pool 0 -> pc_ok (length (block_groups fs)) (Scan n idx) -> exec_post sb (Scan n idx) fs.
Proof.
  intros Hp (Hn & Hi & HL). unfold exec_post. destruct n as [|n]; [done|]. cbn [exec]. rewrite (sbind_ok sget _ fs fs fs eq_refl).
  set (i := if (_ <=? idx)%nat then O else idx). assert (Hlt : (i < length (block_groups fs))%nat) by (unfold i; destruct (Nat.leb_spec (length (block_groups fs)) idx); lia).
  destruct (lookup_lt_is_Some_2 _ _ Hlt) as [g Hg]. rewrite Hg. cbn [ounwrap]. rewrite (slift_ok _ _ _ _ eq_refl). cbn [sret].
  destruct (_ =? 0); cbn [ahead Z.b2z owned app pc_ok]; split_and!; try done; try lia; by left.
Qed.

Lemma gm_alloc_block_spec n g a c :
  counted n a c -> block_view g = (a, c) ->
  let op g := let? r := gm_alloc_block (metadata g) in @Ok Errno _ (r.1, set_metadata r.2 g) in
  (op g = Ok (None, g)) \/
  (exists j a', op g = Ok (Some (Z.of_nat j), with_blocks a' (c - 1) g) /\
     bitset a !! j = Some false /\ bitset a' = <[j := true]> (bitset a) /\ counted n a' (c - 1)).
Proof.
  intros Hc Hv op. injection Hv as Ha Hcc. unfold op, gm_alloc_block. rewrite Hcc, Ha.
  destruct (counted_alloc _ _ _ Hc) as [(j & a' & Hal & Hj & Ha' & H0 & Hc') | [Hal ->]].
  - right. exists j, a'. rewrite Hal, dec_counter_ok by done. cbn [obind fst snd].
    pose proof (lookup_lt_Some _ _ _ Hj). destruct Hc as (_ & Hlen & _ & Hn). rewrite Z.mod_small by lia. done.
  - left. rewrite Hal. cbn [obind fst snd]. by destruct g.
Qed.

Lemma exec_slow n idx : pool 0 -> (idx < length (block_groups fs))%nat -> (n < length (block_groups fs))%nat -> exec_post sb (Slow n idx) fs.
Proof.
  intros Hp Hlt Hn. unfold exec_post. destruct (lookup_lt_is_Some_2 _ _ Hlt) as [g Hg]. pose proof (view_at (v := block_view) fs idx g Hg) as Hv.
  pose proof (pool_n _ _ _ _ Hp). pose proof (pool_bound _ _ _ _ Hp) as Hbnd. unfold blocks_of in Hbnd. rewrite length_fmap in Hbnd.
  cbn [exec]. rewrite (sbind_ok sget _ fs fs fs eq_refl).
  destruct (gm_alloc_block_spec _ g _ _ (pool_counted _ _ _ _ Hp _ _ Hv) eq_refl) as [Ho | (j & a' & Ho & Hj & Ha' & Hc')].
  - rewrite (sbind_ok _ _ _ None fs) by (rewrite (on_group_ok _ _ _ g None g) by done; by rewrite set_group_same). cbn [sret].
    cbn [ahead Z.b2z owned app pc_ok]; split_and!; try done; try lia; by left.
  - rewrite (sbind_ok _ _ _ _ _ (on_group_ok _ _ _ g _ _ Hg Ho)). cbn [block_view fst snd] in *.
    destruct (pool_set _ _ _ _ _ _ _ a' _ true (-1) Hp Hv Hj Ha' Hc') as (Hw & Hr & Hu & Hins).
    unfold blocks_of in Hr. rewrite length_fmap in Hr. set (bid := Z.of_nat idx * blocks_per_group fs + Z.of_nat j) in *.
    assert (Hbid : bid = Z.of_nat idx * blocks_per_group fs + Z.of_nat j) by done.
    rewrite (Z.mod_small (Z.of_nat idx)), mul_w_ok by nia. rewrite (slift_ok _ _ _ _ eq_refl), add_w_ok by lia.
    rewrite (slift_ok _ _ _ _ eq_refl). cbn [sret]. rewrite <- Hbid. unfold n_blocks in *.
    destruct (with_blocks_of idx a' (g_free_blocks (descriptor (metadata g)) - 1) g fs Hg) as [Hbo _].
    assert (Hpool : pool_wf (blocks_per_group fs) (sb + 1) (free_blocks_count (super_block fs)) (blocks_of (set_group idx (with_blocks a' (g_free_blocks (descriptor (metadata g)) - 1) g) fs))).
    { rewrite Hbo. rewrite Z.add_0_r in Hw. replace (free_blocks_count _) with (free_blocks_count (super_block fs) + -1 + 1) by lia.
      apply pool_shift; [exact Hw|lia|]. rewrite length_insert. unfold blocks_of. rewrite length_fmap. lia. }
    cbn [ahead Z.b2z owned app pc_ok]. split; [exact Hpool|]. split; [cbn; by rewrite length_insert|]. split; [cbn; by rewrite length_insert|]. split; [done|].
    right. left. exists bid. split; [done|]. split; [done|]. split; [lia|]. split; [exact Hu|].
    intros k Hk. etrans; [exact (f_equal (fun l => in_use (blocks_per_group fs) l k) Hbo)|]. rewrite Hins by done. by destruct (k =? bid).
Qed.

Lemma exec_dec bid : pool 1 -> exec_post sb (Dec bid) fs.
Proof.
  intros Hp. unfold exec_post. cbn [exec]. pose proof (pool_total _ _ _ _ Hp) as Ht.
  pose proof (free_sum_nonneg _ _ (pool_counted _ _ _ _ Hp)).
  rewrite (sbind_ok _ _ _ _ _ (proj1 (sb_counter_ok fs) ltac:(lia))). cbn [sret ahead Z.b2z owned app pc_ok].
  split; [|split_and!; try done; by left]. cbn. rewrite (proj1 (set_free_counts _ _ _)).
  replace (sb + 0) with (sb + 1 + -1) by lia. apply (pool_shift _ _ _ _ (-1) Hp); [lia|]. pose proof (pool_bound _ _ _ _ Hp). lia.
Qed.

Lemma bid_group bid d : pool d -> 0 <= bid < n_blocks fs ->
  block_group_of_bid fs bid = Ok (Z.to_nat (bid / blocks_per_group fs)) /\ block_idx fs bid = Ok (bid mod blocks_per_group fs).
Proof.
  intros Hp Hb. pose proof (pool_n _ _ _ _ Hp). unfold block_group_of_bid, block_idx, div_w. rewrite (proj2 (Z.eqb_neq _ 0)) by lia.
  cbn [obind]. rewrite (Z.mod_small bid) by (unfold n_blocks in *; lia). split; [|done].
  destruct (group_of_ok _ fs bid block_view _ _ Hp Hb) as (g & _ & Hq & _). by rewrite (proj2 (Z.leb_gt _ _)) by lia.
Qed.

Lemma exec_inc bid : pool 0 -> 0 <= bid < n_blocks fs -> exec_post sb (Inc bid) fs.
Proof.
  intros Hp Hb. unfold exec_post. cbn [exec]. rewrite (sbind_ok sget _ fs fs fs eq_refl). destruct (bid_group bid 0 Hp Hb) as [-> ->].
  rewrite !(slift_ok _ _ _ _ eq_refl). pose proof (pool_total _ _ _ _ Hp) as Ht. pose proof (pool_n _ _ _ _ Hp).
  pose proof (free_sum_nonneg _ _ (pool_counted _ _ _ _ Hp)) as Hs. rewrite length_blocks_of, Z2Nat.id in Hs by lia.
  unfold n_blocks in *.
  rewrite (sbind_ok _ _ _ _ _ (proj1 (proj2 (proj2 (sb_counter_ok fs))) ltac:(lia))). cbn [sret ahead Z.b2z owned app pc_ok].
  split; [|split_and!; try done; by left]. cbn. rewrite (proj1 (set_free_counts _ _ _)).
  rewrite Z.add_0_r in Hp. apply (pool_shift _ _ _ _ 1 Hp); [lia|]. unfold blocks_of. rewrite length_fmap. lia.
Qed.

Lemma exec_clear bid : pool 1 -> 0 <= bid < n_blocks fs -> block_used fs bid = true -> exec_post sb (Clear bid) fs.
Proof.
  intros Hp Hb Hu. unfold exec_post. cbn [exec]. rewrite (sbind_ok sget _ fs fs fs eq_refl). destruct (bid_group bid 1 Hp Hb) as [-> ->].
  rewrite !(slift_ok _ _ _ _ eq_refl). destruct (group_of_ok _ fs bid block_view _ _ Hp Hb) as (g & Hg & Hq & Hr & Hk & Hv & Hu').
  assert (Hj : bitset (block_bitmap (metadata g)) !! Z.to_nat (bid mod blocks_per_group fs) = Some true).
  { assert (Hd : in_use (blocks_per_group fs) (block_view <$> block_groups fs) bid = true) by exact Hu. rewrite Hu' in Hd.
    cbn [block_view fst] in Hd. revert Hd. by destruct (bitset _ !! _) as [[]|]. }
  pose proof (bg_free_block_spec Errno _ g _ _ (Z.to_nat (bid mod blocks_per_group fs)) (pool_counted _ _ _ _ Hp _ _ Hv) eq_refl) as Hf.
  cbn [block_view fst snd] in Hf. rewrite Hj, Z2Nat.id in Hf by lia. destruct Hf as (a' & Hf & Ha' & Hc').
  destruct (pool_set _ _ _ _ _ _ _ a' _ false 1 Hp Hv Hj Ha' Hc') as (Hw & _ & _ & Hins). rewrite <- Hk in Hins.
  set (g' := with_blocks a' (g_free_blocks (descriptor (metadata g)) + 1) g).
  rewrite (sbind_ok _ _ _ tt (set_group (Z.to_nat (bid / blocks_per_group fs)) g' fs)) by (apply (on_group_ok _ _ _ g); [done|by rewrite Hf]).
  destruct (with_blocks_of _ a' (g_free_blocks (descriptor (metadata g)) + 1) g fs Hg) as [Hbo _]. fold g' in Hbo.
  cbn [sret ahead Z.b2z owned app pc_ok]. split.
  { rewrite Hbo. cbn. replace (free_blocks_count _) with (free_blocks_count (super_block fs) + 1 + -1) by lia.
    replace (sb + 0) with (sb + 1 + -1) by lia. apply pool_shift; [exact Hw|lia|]. pose proof (pool_bound _ _ _ _ Hw). lia. }
  split; [cbn; by rewrite length_insert|]. split; [unfold n_blocks; cbn; by rewrite length_insert|]. split; [done|].
  right. right. exists bid. split; [done|]. split; [done|]. split; [done|].
  intros k Hk0. etrans; [exact (f_equal (fun l => in_use (blocks_per_group fs) l k) Hbo)|]. rewrite Hins by done. by destruct (k =? bid).
Qed.

Lemma exec_ok p :
  pool (Z.b2z (ahead p)) -> pc_ok (length (block_groups fs)) p ->
  (forall b, b ∈ owned p -> 0 <= b < n_blocks fs /\ block_used fs b = true) -> exec_post sb p fs.
Proof.
  intros Hp Hpc Ho. destruct p as [|n idx|n idx|bid|bid|bid].
  - split; [exact Hp|]. split_and!; try done. by left.
  - by apply exec_scan.
  - destruct Hpc. by apply exec_slow.
  - by apply exec_dec.
  - apply exec_inc; [done|]. apply Ho. set_solver.
  - apply exec_clear; [done|apply Ho; set_solver..].
Qed.
End exec.

(** * The invariant *)

Lemma pcs_insert L (ts : list pc) (t : nat) p' :
  (forall u q, ts !! u = Some q -> pc_ok L q) -> pc_ok L p' -> forall u q, <[t := p']> ts !! u = Some q -> pc_ok L q.
Proof. intros Hall Hp u q Hu. apply list_lookup_insert_Some in Hu as [(_ & <- & _) | [_ Hu]]; [done|by eapply Hall]. Qed.

Lemma exec_at sb fs ts hs t p :
  conc_inv sb (MkWorld fs ts hs) -> ts !! t = Some p -> exec_post (sb + count ahead ts - Z.b2z (ahead p)) p fs.
Proof.
  intros [Hp Hs Hr Hn Hu Hpc] Ht. cbn in *. pose proof (count_insert ahead ts t p (Dec 0) Ht) as Hc. cbn in Hc.
  pose proof (count_range ahead (<[t := Dec 0]> ts)) as Hle. rewrite length_insert in Hle.
  pose proof (count_range ahead ts). destruct (owned_insert ts t p p Ht) as (l & Hl & _).
  assert (Z.b2z (ahead p) <= count ahead ts) by (destruct (ahead p) eqn:Ha; cbn; [by eapply count_pos|lia]).
  apply exec_ok.
  - lia.
  - lia.
  - by replace (sb + count ahead ts - Z.b2z (ahead p) + Z.b2z (ahead p)) with (sb + count ahead ts) by lia.
  - by eapply Hpc.
  - intros b Hb. apply Hu. rewrite Hl. set_solver.
Qed.

(** A thread changes its place without a change of the file system. *)
Lemma conc_inv_move sb fs ts hs hs' t p p' :
  conc_inv sb (MkWorld fs ts hs) -> ts !! t = Some p -> ahead p = ahead p' -> pc_ok (length (block_groups fs)) p' ->
  hs' ++ owned p' ≡ₚ hs ++ owned p -> conc_inv sb (MkWorld fs (<[t := p']> ts) hs').
Proof.
  intros [Hp Hs Hr Hn Hu Hpc] Ht Ha Hok Hperm. destruct (owned_insert ts t p p' Ht) as (l & Hl & Hl'). cbn in *.
  assert (Heq : hs' ++ (<[t := p']> ts ≫= owned) ≡ₚ hs ++ (ts ≫= owned)) by (rewrite Hl, Hl', !app_assoc; by f_equiv).
  split; cbn; rewrite ?(count_insert _ _ _ _ _ Ht), ?Ha, ?length_insert, ?Heq; try done.
  - by replace (count ahead ts - Z.b2z (ahead p') + Z.b2z (ahead p')) with (count ahead ts) by lia.
  - intros b. rewrite Heq. apply Hu.
  - by apply pcs_insert.
Qed.

Lemma conc_inv_exec sb fs ts hs t p fs' p' out :
  conc_inv sb (MkWorld fs ts hs) -> ts !! t = Some p -> exec p fs = (Ok (p', out), fs') ->
  conc_inv sb (MkWorld fs' (<[t := p']> ts) (out ++ hs)).
Proof.
  intros Hinv Ht He.
  pose proof (exec_at _ _ _ _ _ _ Hinv Ht) as Hpost. unfold exec_post in Hpost. rewrite He in Hpost.
  destruct Hpost as (Hp' & HL & Hnb & Hpc' & Hcase). destruct Hinv as [Hp Hs Hr Hn Hu Hpc]. cbn in *.
  destruct (owned_insert ts t p p' Ht) as (l & Hl & Hl').
  assert (Heq : (out ++ hs) ++ (<[t := p']> ts ≫= owned) ≡ₚ (owned p' ++ out) ++ hs ++ l) by (rewrite Hl'; solve_Permutation).
  assert (Heq0 : hs ++ (ts ≫= owned) ≡ₚ owned p ++ hs ++ l) by (rewrite Hl; solve_Permutation).
  rewrite Heq0 in Hn. assert (Hu0 : forall b, b ∈ owned p ++ hs ++ l -> 0 <= b < n_blocks fs /\ block_used fs b = true) by (intros b; rewrite <- Heq0; apply Hu).
  split; cbn.
  - rewrite (count_insert _ _ _ _ _ Ht). by replace (sb + (count ahead ts - Z.b2z (ahead p) + Z.b2z (ahead p'))) with (sb + count ahead ts - Z.b2z (ahead p) + Z.b2z (ahead p')) by lia.
  - done.
  - by rewrite Hnb, length_insert.
  - rewrite Heq. destruct Hcase as [[-> _] | [(b & Hop & -> & Hb & Hal & _) | (b & Hop & -> & _)]]; [done| |].
    + rewrite Hop in Hn. cbn. apply NoDup_cons. split; [|done]. intros Hin. destruct (Hu0 b) as [_ H]; [rewrite Hop; exact Hin|congruence].
    + rewrite Hop in Hn. by apply NoDup_cons in Hn as [_ Hn].
  - intros b. rewrite Heq, Hnb. intros Hb. destruct Hcase as [[Ho Hsame] | [(c & Hop & Ho & Hc & _ & Hal) | (c & Hop & Ho & _ & Hrel)]]; rewrite Ho in Hb.
    + rewrite Hsame. by apply Hu0.
    + apply elem_of_app in Hb as [Hb | Hb]; [apply list_elem_of_singleton in Hb as ->; split; [done|]; rewrite Hal by lia; by rewrite Z.eqb_refl|].
      destruct (Hu0 b) as [Hr0 Hb0]; [by rewrite Hop|]. split; [done|]. rewrite Hal by lia. by rewrite Hb0, orb_true_r.
    + rewrite Hop in Hn, Hu0. apply NoDup_cons in Hn as [Hnin _]. destruct (Hu0 b) as [Hr0 Hb0]; [by right|]. split; [done|].
      rewrite Hrel by lia. rewrite Hb0, (proj2 (Z.eqb_neq _ _)); [done|]. by intros ->.
  - rewrite HL. by apply pcs_insert.
Qed.

Lemma conc_inv_step sb w w' : conc_inv sb w -> cstep w w' -> conc_inv sb w'.
Proof.
  intros Hinv Hstep. destruct Hstep as [fs ts hs t idx Ht Hidx|fs ts h1 bid h2 t Ht|fs ts hs t p fs' p' out Ht He|fs ts hs t p fs' e Ht He].
  - apply (conc_inv_move _ _ _ hs _ _ Idle); try done. cbn. lia.
  - apply (conc_inv_move _ _ _ (h1 ++ bid :: h2) _ _ Idle); try done. cbn. solve_Permutation.
  - by eapply conc_inv_exec.
  - pose proof (exec_at _ _ _ _ _ _ Hinv Ht) as Hpost. unfold exec_post in Hpost. rewrite He in Hpost. destruct Hpost as (-> & Ho & Ha).
    apply (conc_inv_move _ _ _ hs _ _ p); try done. by rewrite Ho.
Qed.

(** C6: block allocation under every interleaving.  Threads allocate blocks
    and free blocks they hold, and are preempted between critical sections.  No
    thread panics: the counter of the super block never goes below zero, which
    is what the order of the two updates in [free_block] is for.  No two threads
    or callers hold the same block, every block held is marked in the bitmaps,
    and the counter exceeds the free bits by exactly the threads between their
    two updates, so that it is exact when no operation is under way.  A thread
    that runs alone does what [alloc_block] and [free_block] do. *)
Theorem ext2_alloc_interleavings sb si fs n hs w :
  fs_wf sb si fs -> 0 <= sb -> n_blocks fs + sb + Z.of_nat n < 2 ^ 32 ->
  NoDup hs -> (forall b, b ∈ hs -> 0 <= b < n_blocks fs /\ block_used fs b = true) ->
  rtc cstep (MkWorld fs (replicate n Idle) hs) w ->
  (forall t p, threads w !! t = Some p -> (exec p (w_fs w)).1 <> Panic) /\
  NoDup (held w ++ (threads w ≫= owned)) /\
  (forall b, b ∈ held w -> block_used (w_fs w) b = true) /\
  free_blocks_count (super_block (w_fs w)) = free_sum (blocks_of (w_fs w)) + sb + count ahead (threads w) /\
  (forall idx s, (idx < length (block_groups s))%nat ->
     run_alone (2 * length (block_groups s) + 1) (Scan (length (block_groups s)) idx) s = (let! b := alloc_block idx in sret [b]) s) /\
  (forall bid s, run_alone 2 (Inc bid) s = (let! _ := free_block bid in sret []) s).
Proof.
  intros Hwf Hs Hroom Hnd Hused Hrtc.
  assert (Hidle : forall m, replicate m Idle ≫= owned = [] /\ count ahead (replicate m Idle) = 0).
  { induction m as [|m [IH1 IH2]]; [done|]. cbn [replicate]. rewrite bind_cons, IH1, count_cons, IH2. done. }
  assert (Hinit : conc_inv sb (MkWorld fs (replicate n Idle) hs)).
  { destruct (Hidle n) as [Ho Hc]. split; cbn; rewrite ?Ho, ?Hc, ?app_nil_r, ?length_replicate, ?Z.add_0_r; try done.
    - apply (wf_blocks _ _ _ Hwf).
    - intros t p Ht. by apply lookup_replicate in Ht as [-> _]. }
  assert (Hinv : conc_inv sb w) by (refine (rtc_invariant cstep (conc_inv sb) _ _ _ Hrtc Hinit); intros; by eapply conc_inv_step).
  destruct w as [fs1 ts hs1]. split_and!.
  - intros t p Ht Hpanic. pose proof (exec_at _ _ _ _ _ _ Hinv Ht) as Hpost. unfold exec_post in Hpost. cbn in Hpanic.
    destruct (exec p fs1) as [r fs2]. cbn in Hpanic. by subst r.
  - apply (ci_nodup _ _ Hinv).
  - intros b Hb. apply (ci_used _ _ Hinv). set_solver.
  - rewrite (pool_total _ _ _ _ (ci_pool _ _ Hinv)). cbn. lia.
  - intros idx s Hidx. rewrite alone_alloc by lia. unfold alloc_block. rewrite sbind_assoc, (sbind_ok sget _ s s s eq_refl).
    by rewrite (proj2 (Nat.leb_gt _ _) Hidx).
  - intros bid s. apply alone_free.
Qed.

Lemma ext2_alloc_interleavings_witness :
  exists fs', exec (Scan 2 0) demo_fs = (Ok (Slow 1 0, []), demo_fs) /\ exec (Slow 1 0) demo_fs = (Ok (Dec 3, []), fs') /\
    free_blocks_count (super_block fs') = free_sum (blocks_of fs') + 1.
Proof.
  destruct (exec (Slow 1 0) demo_fs) as [r fs'] eqn:E. exists fs'. split; [vm_compute; reflexivity|].
  assert (r = Ok (Dec 3, [])) as -> by (apply (f_equal fst) in E; vm_compute in E; by rewrite <- E). split; [reflexivity|].
  assert (Hrtc : rtc cstep (MkWorld demo_fs (replicate 2 Idle) [0; 1]) (MkWorld fs' [Dec 3; Inc 0] [1])).
  { eapply rtc_l; [apply (cstep_alloc _ _ _ 0 0); [reflexivity|cbn; lia]|].
    eapply rtc_l; [eapply (cstep_free _ _ [] 0 [1] 1); reflexivity|].
    eapply rtc_l; [eapply (cstep_exec _ _ _ 0); [reflexivity|vm_compute; reflexivity]|].
    eapply rtc_l; [eapply (cstep_exec _ _ _ 0); [reflexivity|exact E]|]. apply rtc_refl. }
  destruct (ext2_alloc_interleavings 0 0 demo_fs 2 [0; 1] _ demo_fs_wf ltac:(lia) ltac:(vm_compute; reflexivity)
    ltac:(by apply (bool_decide_unpack _)) ltac:(intros b Hb; apply list_elem_of_In in Hb; cbn in Hb; destruct Hb as [<- | [<- | []]]; (split; [split; [lia|reflexivity]|reflexivity])) Hrtc)
    as (_ & _ & _ & H & _). cbn [w_fs threads] in H. rewrite H. change (count ahead [Dec 3; Inc 0]) with 1. lia.
Defined.
