(* ===== verification/Ext2Inode.v ===== *)
(** The inodes of ext2 over their device (fs/ext2/inode.rs, blocks_hole.rs,
    block_group.rs and fs.rs under kernel/aster-nix/src): the backend of the page
    cache of a file, which reads and writes the blocks of the file, allocates
    and frees them, and writes its metadata back.

    The contents of a block are an abstract type with a value for zeros.  The
    device completes an access or reports an error, in an order that is part of
    the state.  Inode objects are named by their positions in the list of the
    objects created; the lock of an inode is held during each operation. *)

From stdpp Require Import gmap functions.
From S2P Require Import Prelude Perms Ext2Raw Ext2Alloc.

Section Ext2Inode.
Context {blk : Type} (zero : blk).

(** [InodeImpl_]: the descriptor with its dirty mark, the holes, one bit for
    each block of the file, and whether the inode has been freed. *)
Record InodeImpl : Type := MkInodeImpl {
  desc : InodeDesc; is_dirty : bool; blocks_hole_desc : list bool; is_freed : bool;
}.
Record Inode : Type := MkInode { ino : Z; block_group_idx : nat; inode_impl : InodeImpl }.

Record World : Type := MkWorld {
  w_fs : Ext2; disk : Z -> blk; io : list (option Errno); inodes : list Inode;
}.
Notation M := (stM World Errno).

Definition on_fs {A} (m : fsM A) : M A := fun w =>
  let '(r, fs) := m (w_fs w) in (r, MkWorld fs (disk w) (io w) (inodes w)).

(** [self.0.read()] and [self.0.write()] on an inode *)
Definition get_inode (h : nat) : M Inode := let! w := sget in slift (ounwrap (inodes w !! h)).
Definition set_impl (h : nat) (f : InodeImpl -> InodeImpl) : M unit := fun w =>
  (Ok tt, MkWorld (w_fs w) (disk w) (io w) (alter (fun i => MkInode (ino i) (block_group_idx i) (f (inode_impl i))) h (inodes w))).

(** Changes of the descriptor mark it dirty. *)
Definition with_desc (f : InodeDesc -> InodeDesc) (i : InodeImpl) : InodeImpl :=
  MkInodeImpl (f (desc i)) true (blocks_hole_desc i) (is_freed i).
Definition with_holes (f : list bool -> list bool) (i : InodeImpl) : InodeImpl :=
  MkInodeImpl (desc i) (is_dirty i) (f (blocks_hole_desc i)) (is_freed i).
Definition set_data (k : nat) (v : Z) (d : InodeDesc) : InodeDesc :=
  match d with MkInodeDesc t p u g s a c m dt hl bc fl data ac => MkInodeDesc t p u g s a c m dt hl bc fl (<[k := v]> data) ac end.
Definition set_blocks_count (n : Z) (d : InodeDesc) : InodeDesc :=
  match d with MkInodeDesc t p u g s a c m dt hl _ fl data ac => MkInodeDesc t p u g s a c m dt hl n fl data ac end.
Definition set_size (n : Z) (d : InodeDesc) : InodeDesc :=
  match d with MkInodeDesc t p u g _ a c m dt hl bc fl data ac => MkInodeDesc t p u g n a c m dt hl bc fl data ac end.

(** * The device: [Ext2::read_block] and [Ext2::write_block] *)

Definition io_status : M unit := fun w =>
  match io w with
  | Some e :: io' => (Err e, MkWorld (w_fs w) (disk w) io' (inodes w))
  | None :: io' => (Ok tt, MkWorld (w_fs w) (disk w) io' (inodes w))
  | [] => (Ok tt, w)
  end.
Definition dev_read (bid : Z) : M blk := io_status ;! let! w := sget in sret (disk w bid).
Definition dev_write (bid : Z) (b : blk) : M unit :=
  io_status ;! fun w => (Ok tt, MkWorld (w_fs w) (<[bid := b]> (disk w)) (io w) (inodes w)).

(** * Blocks of a file *)

(** [field::DIRECT] *)
Notation is_direct bid := (bid <? 12)%Z.
Notation FAST_SYMLINK_MAX_LEN := 60%Z (only parsing).

(** [BlocksHoleDesc::resize]: new blocks are holes. *)
Definition holes_resize (new_size : nat) (l : list bool) : list bool :=
  take new_size l ++ replicate (new_size - length l) true.

Definition read_block (h : nat) (bid : Z) : M blk :=
  let bid := wrap 32 bid in
  let! i := get_inode h in
  let! n := slift (blocks_count (desc (inode_impl i))) in
  if n <=? bid then serr EINVAL
  else
    let! _ := slift (oassert (is_direct bid)) in
    let! hole := slift (ounwrap (blocks_hole_desc (inode_impl i) !! Z.to_nat bid)) in
    if (hole : bool) then sret zero
    else
      let! device_bid := slift (ounwrap (i_data (desc (inode_impl i)) !! Z.to_nat bid)) in
      dev_read device_bid.

(** [InodeImpl_::write_block] *)
Definition write_block_ (h : nat) (bid : Z) (b : blk) : M unit :=
  let bid := wrap 32 bid in
  let! i := get_inode h in
  let! n := slift (blocks_count (desc (inode_impl i))) in
  if n <=? bid then serr EINVAL
  else
    let! _ := slift (oassert (is_direct bid)) in
    let! device_bid := slift (ounwrap (i_data (desc (inode_impl i)) !! Z.to_nat bid)) in
    dev_write device_bid b.

(** [InodeImpl::write_block]: the block is no hole any more; indexing the holes
    out of bounds is a panic. *)
Definition write_block (h : nat) (bid : Z) (b : blk) : M unit :=
  write_block_ h bid b ;!
  let! i := get_inode h in
  let! hole := slift (ounwrap (blocks_hole_desc (inode_impl i) !! Z.to_nat bid)) in
  if (hole : bool) then set_impl h (with_holes (<[Z.to_nat bid := false]>)) else sret tt.

(** The loops of [resize] *)
Definition alloc_file_block (h : nat) (file_bid : Z) : M unit :=
  let! _ := slift (oassert (is_direct file_bid)) in
  let! i := get_inode h in
  let! device_bid := on_fs (alloc_block (block_group_idx i)) in
  set_impl h (with_desc (set_data (Z.to_nat file_bid) (wrap 32 device_bid))).
Definition free_file_block (h : nat) (file_bid : Z) : M unit :=
  let! _ := slift (oassert (is_direct file_bid)) in
  let! i := get_inode h in
  let! device_bid := slift (ounwrap (i_data (desc (inode_impl i)) !! Z.to_nat file_bid)) in
  on_fs (free_block device_bid).

Definition new_blocks_of (d : InodeDesc) (new_size : Z) : Z :=
  if bool_decide (i_type d = Symlink) && (new_size <=? FAST_SYMLINK_MAX_LEN) then 0
  else wrap 32 ((new_size + BLOCK_SIZE - 1) / BLOCK_SIZE).

Definition resize (h : nat) (new_size : Z) : M unit :=
  let! i := get_inode h in
  let new_blocks := new_blocks_of (desc (inode_impl i)) new_size in
  let! old_blocks := slift (blocks_count (desc (inode_impl i))) in
  match Z.compare new_blocks old_blocks with
  | Gt => sfor (zrange old_blocks new_blocks) (alloc_file_block h) ;! set_impl h (with_desc (set_blocks_count new_blocks))
  | Eq => sret tt
  | Lt => sfor (zrange new_blocks old_blocks) (free_file_block h) ;! set_impl h (with_desc (set_blocks_count new_blocks))
  end ;!
  set_impl h (with_desc (set_size new_size)) ;!
  set_impl h (with_holes (holes_resize (Z.to_nat new_blocks))).

(** [sync_data_holes] *)
Definition sync_hole (h : nat) (bid : Z) : M unit :=
  let! i := get_inode h in
  let! hole := slift (ounwrap (blocks_hole_desc (inode_impl i) !! Z.to_nat bid)) in
  if (hole : bool) then
    write_block_ h bid zero ;! set_impl h (with_holes (<[Z.to_nat bid := false]>))
  else sret tt.
Definition sync_data_holes (h : nat) : M unit :=
  let! i := get_inode h in
  let! n := slift (blocks_count (desc (inode_impl i))) in
  sfor (zrange 0 n) (sync_hole h).

(** * Counts of hard links *)

Definition set_hard_links (n : Z) (d : InodeDesc) : InodeDesc :=
  match d with MkInodeDesc t p u g s a c m dt _ bc fl data ac => MkInodeDesc t p u g s a c m dt n bc fl data ac end.
Definition inc_hard_links (h : nat) : M unit :=
  let! i := get_inode h in
  let! n := slift (inc_counter 16 (hard_links (desc (inode_impl i)))) in
  set_impl h (with_desc (set_hard_links n)).
Definition dec_hard_links (h : nat) : M unit :=
  let! i := get_inode h in
  let! n := slift (dec_counter (hard_links (desc (inode_impl i)))) in
  set_impl h (with_desc (set_hard_links n)).

(** * Inode objects and the inode table *)

(** [Inode::new] *)
Definition new_inode (number : Z) (group : nat) (d : InodeDesc) (dirty : bool) : M nat := fun w =>
  (let! n := slift (blocks_count d) in
   let i := MkInode number group (MkInodeImpl d dirty (replicate (Z.to_nat n) false) false) in
   sput (MkWorld (w_fs w) (disk w) (io w) (inodes w ++ [i])) ;! sret (length (inodes w))) w.

Definition insert_cache (group : nat) (idx : Z) (h : nat) : fsM unit :=
  on_group group (fun g =>
    let? a := is_allocated (inode_bitmap (metadata g)) (Z.to_nat idx) in
    let? _ := oassert a in
    Ok (tt, MkBlockGroup (metadata g) (<[idx := Z.of_nat h]> (inode_cache g)) (raw_inodes g))).

Definition create_inode (dir_block_group_idx : nat) (file_type : FileType) (file_perm : Z) : M nat :=
  let! r := on_fs (alloc_ino dir_block_group_idx (bool_decide (file_type = DirT))) in
  let! h := new_inode r.2 r.1 (inode_desc_new file_type file_perm) true in
  let! w := sget in
  let! idx := slift (inode_idx (w_fs w) r.2) in
  on_fs (insert_cache r.1 idx h) ;! sret h.

(** [BlockGroup::lookup_inode]: the cache, then the inode table; [load_inode]
    computes the inode number. *)
Definition bg_lookup_inode (group : nat) (idx : Z) : M nat :=
  let! w := sget in
  let! g := slift (ounwrap (block_groups (w_fs w) !! group)) in
  let! a := slift (is_allocated (inode_bitmap (metadata g)) (Z.to_nat idx)) in
  if negb a then serr ENOENT
  else
    match inode_cache g !! idx with
    | Some h => sret (Z.to_nat h)
    | None =>
        let! raw := slift (ounwrap (raw_inodes g !! Z.to_nat idx)) in
        let! d := slift (inode_desc_try_from raw) in
        let! base := slift (mul_w 32 (wrap 32 (Z.of_nat group)) (inodes_per_group (w_fs w))) in
        let! base := slift (add_w 32 idx base) in
        let! number := slift (add_w 32 base 1) in
        let! h := new_inode number group d false in
        on_fs (insert_cache group idx h) ;! sret h
    end.
Definition lookup_inode (number : Z) : M nat :=
  let! w := sget in
  let! group := slift (block_group_of_ino (w_fs w) number) in
  let! idx := slift (inode_idx (w_fs w) number) in
  bg_lookup_inode group idx.

(** [Ext2::sync_inode] and [BlockGroup::sync_raw_inode] *)
Definition sync_inode (number : Z) (d : InodeDesc) : fsM unit :=
  let! fs := sget in
  let! group := slift (block_group_of_ino fs number) in
  let! idx := slift (inode_idx fs number) in
  on_group group (fun g =>
    let? _ := oassert (Z.to_nat idx <? length (raw_inodes g))%nat in
    Ok (tt, MkBlockGroup (metadata g) (inode_cache g) (<[Z.to_nat idx := raw_inode d]> (raw_inodes g)))).

Definition sync_metadata (h : nat) : M unit :=
  let! i := get_inode h in
  if negb (is_dirty (inode_impl i)) then sret tt
  else
    (if hard_links (desc (inode_impl i)) =? 0 then
       resize h 0 ;!
       let! i := get_inode h in
       if is_freed (inode_impl i) then sret tt
       else
         on_fs (free_inode (ino i) (bool_decide (i_type (desc (inode_impl i)) = DirT))) ;!
         set_impl h (fun i => MkInodeImpl (desc i) (is_dirty i) (blocks_hole_desc i) true)
     else sret tt) ;!
    let! i := get_inode h in
    on_fs (sync_inode (ino i) (desc (inode_impl i))) ;!
    set_impl h (fun i => MkInodeImpl (desc i) false (blocks_hole_desc i) (is_freed i)).

End Ext2Inode.
Arguments World : clear implicits.
