(* ===== verification/Ext2InodeFacts.v ===== *)
(** The files of ext2 are isolated from each other: the blocks of the inodes are
    disjoint and allocated, blocks added to a file read as zeros, and a write or
    a change of size of one file changes no other. *)

From stdpp Require Import gmap functions.
From S2P Require Import Prelude Perms Ext2Raw Ext2Alloc Ext2AllocFacts Ext2Inode.

(** A loop over a range that may stop with an error *)
Lemma sfor_zrange_err {S E} (body : Z -> stM S E unit) (I : Z -> S -> Prop) (Q : E -> S -> Prop) a b s :
  a <= b -> I a s ->
  (forall i s, a <= i < b -> I i s -> match body i s with (Ok _, s') => I (i + 1) s' | (Err e, s') => Q e s' | (Panic, _) => False end) ->
  match sfor (zrange a b) body s with (Ok _, s') => I b s' | (Err e, s') => Q e s' | (Panic, _) => False end.
Proof.
  intros Hab. remember (Z.to_nat (b - a)) as n eqn:Hn. revert a s Hab Hn.
  induction n as [|n IH]; intros a s Hab Hn HI Hstep; [assert (a = b) as -> by lia; by rewrite zrange_nil by lia|].
  rewrite zrange_cons by lia. cbn [sfor]. specialize (Hstep a s) as Ha. unfold sbind at 1.
  destruct (body a s) as [[]s']; [|by apply Ha; [lia|]..]. apply IH; [lia|lia|by apply Ha; [lia|]|]. intros i s2 Hi. apply Hstep. lia.
Qed.

Section Facts.
Context {blk : Type} (zero : blk).
Notation World := (World blk).
Implicit Types (w : World) (i : Inode).

(** * The contents of a file *)

Definition n_of i : nat := Z.to_nat (i_blocks_count (desc (inode_impl i))).
Definition file_blocks i : list Z := take (n_of i) (i_data (desc (inode_impl i))).
Definition file_of (dsk : Z -> blk) i : list blk :=
  zip_with (fun (hole : bool) b => if hole then zero else dsk b) (blocks_hole_desc (inode_impl i)) (file_blocks i).
Definition files w : list (list blk) := file_of (disk w) <$> inodes w.

Record inode_ok i : Prop := {
  io_count : 0 <= i_blocks_count (desc (inode_impl i)) <= 12;
  io_data : length (i_data (desc (inode_impl i))) = BLOCK_PTR_CNT;
  io_holes : length (blocks_hole_desc (inode_impl i)) = n_of i;
  io_dir : i_type (desc (inode_impl i)) = DirT -> i_size (desc (inode_impl i)) = i_blocks_count (desc (inode_impl i)) * BLOCK_SIZE;
}.

(** The blocks of all the files are distinct, on the device and allocated. *)
Record world_wf (sb si : Z) w : Prop := {
  ww_fs : fs_wf sb si (w_fs w);
  ww_ok h i : inodes w !! h = Some i -> inode_ok i;
  ww_nodup : NoDup (inodes w ≫= file_blocks);
  ww_used b : b ∈ inodes w ≫= file_blocks -> 0 <= b < n_blocks (w_fs w) /\ block_used (w_fs w) b = true;
}.

Lemma length_file_blocks i : inode_ok i -> length (file_blocks i) = n_of i.
Proof. intros [Hc Hd _ _]. unfold file_blocks. rewrite length_take, Hd. unfold n_of. lia. Qed.

Lemma length_file_of dsk i : inode_ok i -> length (file_of dsk i) = n_of i.
Proof. intros Hi. unfold file_of. rewrite length_zip_with, (io_holes _ Hi), length_file_blocks by done. lia. Qed.

Lemma blocks_count_ok i : inode_ok i -> blocks_count (desc (inode_impl i)) = Ok (Z.of_nat (n_of i)).
Proof.
  intros [Hc Hd Hh Hdir]. unfold blocks_count, n_of. case_decide as Ht; [|f_equal; lia].
  rewrite (Hdir Ht), Z.div_mul by done. rewrite Z.mod_small by lia. rewrite (proj2 (Z.leb_le _ _)) by lia. cbn. f_equal. lia.
Qed.

Lemma file_of_ext dsk dsk' i : (forall b, b ∈ file_blocks i -> dsk' b = dsk b) -> file_of dsk' i = file_of dsk i.
Proof.
  unfold file_of. generalize (blocks_hole_desc (inode_impl i)) (file_blocks i). intros hs bs H.
  revert bs H. induction hs as [|hole hs IH]; intros [|b bs] H; try done. cbn. rewrite H by set_solver. f_equal. apply IH. set_solver.
Qed.

Lemma file_of_lookup dsk i k (hole : bool) b :
  blocks_hole_desc (inode_impl i) !! k = Some hole -> file_blocks i !! k = Some b ->
  file_of dsk i !! k = Some (if hole then zero else dsk b).
Proof. intros Hh Hb. unfold file_of. rewrite lookup_zip_with, Hh, Hb. done. Qed.

Lemma blocks_perm w h i : inodes w !! h = Some i -> exists l, forall i',
  (inodes w ≫= file_blocks) ≡ₚ file_blocks i ++ l /\ (<[h := i']> (inodes w) ≫= file_blocks) ≡ₚ file_blocks i' ++ l.
Proof.
  intros Hi. pose proof (lookup_lt_Some _ _ _ Hi) as Hlt. exists ((take h (inodes w) ≫= file_blocks) ++ (drop (S h) (inodes w) ≫= file_blocks)).
  intros i'. split.
  - rewrite <- (take_drop_middle (inodes w) h i Hi) at 1. rewrite bind_app, bind_cons. solve_Permutation.
  - rewrite (insert_take_drop (inodes w) h i' Hlt), bind_app, bind_cons. solve_Permutation.
Qed.

(** A block of one file is in no other. *)
Lemma files_disjoint sb si w h h' i i' b :
  world_wf sb si w -> inodes w !! h = Some i -> inodes w !! h' = Some i' -> h <> h' -> b ∈ file_blocks i -> b ∈ file_blocks i' -> False.
Proof.
  intros Hw Hi Hi' Hne Hb Hb'. destruct (blocks_perm w h i Hi) as (l & Hl). destruct (Hl (MkInode 0 0 (inode_impl i))) as [Hp Hp'].
  pose proof (ww_nodup _ _ _ Hw) as Hn. rewrite Hp in Hn. apply NoDup_app in Hn as (_ & Hdisj & _). apply (Hdisj b Hb).
  set (e := MkInode 0 0 (inode_impl (MkInode 0 0 (MkInodeImpl (inode_desc_new FileT 0) false [] false)))).
  destruct (Hl e) as [_ He]. assert (Hin : b ∈ <[h := e]> (inodes w) ≫= file_blocks).
  { apply list_elem_of_bind. exists i'. split; [done|]. apply list_elem_of_lookup. exists h'. by rewrite list_lookup_insert_ne. }
  rewrite He in Hin. exact Hin.
Qed.

(** * Reads and writes of blocks *)

Lemma get_inode_ok w h i : inodes w !! h = Some i -> get_inode h w = (Ok i, w).
Proof. intros Hi. unfold get_inode, sbind, sget, slift. by rewrite Hi. Qed.

(** The state after the device has answered *)
Definition after_io w : World := MkWorld (w_fs w) (disk w) (tail (io w)) (inodes w).

Lemma io_status_spec w : io_status w = (match io w with Some e :: _ => Err e | _ => Ok tt end, after_io w).
Proof. unfold io_status, after_io. destruct w as [f d [|[e|] l] l']; done. Qed.

Lemma world_wf_io sb si w : world_wf sb si w -> world_wf sb si (after_io w).
Proof. intros [H1 H2 H3 H4]. by split. Qed.

Lemma in_file sb si w h i k :
  world_wf sb si w -> inodes w !! h = Some i -> (k < n_of i)%nat ->
  exists (hole : bool) b, blocks_hole_desc (inode_impl i) !! k = Some hole /\ file_blocks i !! k = Some b /\
    i_data (desc (inode_impl i)) !! k = Some b /\ Z.of_nat k < 12.
Proof.
  intros Hw Hi Hk. pose proof (ww_ok _ _ _ Hw _ _ Hi) as Hok.
  destruct (lookup_lt_is_Some_2 (blocks_hole_desc (inode_impl i)) k) as [hole Hh]; [by rewrite (io_holes _ Hok)|].
  destruct (lookup_lt_is_Some_2 (file_blocks i) k) as [b Hb]; [by rewrite length_file_blocks|].
  exists hole, b. split_and!; try done.
  - unfold file_blocks in Hb. by rewrite lookup_take_lt in Hb.
  - pose proof (io_count _ Hok). unfold n_of in Hk. lia.
Qed.

Lemma read_block_spec sb si w h i bid :
  world_wf sb si w -> inodes w !! h = Some i -> 0 <= bid < 2 ^ 32 ->
  match read_block zero h bid w with
  | (Ok b, w') => file_of (disk w) i !! Z.to_nat bid = Some b /\ (w' = w \/ w' = after_io w)
  | (Err e, w') => e = EINVAL /\ w' = w /\ Z.of_nat (length (file_of (disk w) i)) <= bid \/ w' = after_io w /\ head (io w) = Some (Some e)
  | (Panic, _) => False
  end.
Proof.
  intros Hw Hi Hb. pose proof (ww_ok _ _ _ Hw _ _ Hi) as Hok. unfold read_block. rewrite (Z.mod_small bid) by done.
  rewrite (sbind_ok _ _ _ _ _ (get_inode_ok _ _ _ Hi)), blocks_count_ok, (slift_ok _ _ _ _ eq_refl) by done.
  destruct (Z.leb_spec (Z.of_nat (n_of i)) bid) as [Hge | Hlt]; [left; by rewrite length_file_of|].
  destruct (in_file sb si w h i (Z.to_nat bid) Hw Hi) as (hole & b & Hh & Hfb & Hd & H12); [lia|].
  rewrite (proj2 (Z.ltb_lt bid 12)) by lia. cbn [oassert]. rewrite (slift_ok _ _ _ _ eq_refl), Hh. cbn [ounwrap]. rewrite (slift_ok _ _ _ _ eq_refl).
  pose proof (file_of_lookup (disk w) i _ _ _ Hh Hfb) as Hf. destruct hole; [split; [done|by left]|].
  rewrite Hd. cbn [ounwrap]. rewrite (slift_ok _ _ _ _ eq_refl). unfold dev_read, sbind at 1. rewrite io_status_spec.
  destruct (io w) as [|[e|] l]; cbn; [split; [done|by right]|by right|split; [done|by right]].
Qed.

Lemma write_block__spec sb si w h i bid c :
  world_wf sb si w -> inodes w !! h = Some i -> 0 <= bid < 2 ^ 32 ->
  match write_block_ h bid c w with
  | (Ok _, w') => exists b, file_blocks i !! Z.to_nat bid = Some b /\ w' = MkWorld (w_fs w) (<[b := c]> (disk w)) (tail (io w)) (inodes w)
  | (Err e, w') => e = EINVAL /\ w' = w /\ Z.of_nat (n_of i) <= bid \/ w' = after_io w /\ head (io w) = Some (Some e)
  | (Panic, _) => False
  end.
Proof.
  intros Hw Hi Hb. pose proof (ww_ok _ _ _ Hw _ _ Hi) as Hok. unfold write_block_. rewrite (Z.mod_small bid) by done.
  rewrite (sbind_ok _ _ _ _ _ (get_inode_ok _ _ _ Hi)), blocks_count_ok, (slift_ok _ _ _ _ eq_refl) by done.
  destruct (Z.leb_spec (Z.of_nat (n_of i)) bid) as [Hge | Hlt]; [by left|].
  destruct (in_file sb si w h i (Z.to_nat bid) Hw Hi) as (hole & b & Hh & Hfb & Hd & H12); [lia|].
  rewrite (proj2 (Z.ltb_lt bid 12)) by lia. cbn [oassert]. rewrite (slift_ok _ _ _ _ eq_refl), Hd. cbn [ounwrap]. rewrite (slift_ok _ _ _ _ eq_refl).
  unfold dev_write, sbind at 1. rewrite io_status_spec. unfold after_io. destruct (io w) as [|[e|] l]; cbn; [by exists b|by right|by exists b].
Qed.

(** An inode whose block [k] is no hole any more, on a device where its block
    has been written *)
Definition unhole (k : nat) i : Inode := MkInode (ino i) (block_group_idx i) (with_holes (<[k := false]>) (inode_impl i)).

Lemma file_of_write dsk i k b c :
  inode_ok i -> NoDup (file_blocks i) -> file_blocks i !! k = Some b ->
  file_of (<[b := c]> dsk) (unhole k i) = <[k := c]> (file_of dsk i).
Proof.
  intros Hok Hnd Hb. pose proof (lookup_lt_Some _ _ _ Hb) as Hk. rewrite length_file_blocks in Hk by done.
  apply list_eq. intros j. destruct (decide (k = j)) as [<- | Hne].
  - rewrite list_lookup_insert_eq by (by rewrite length_file_of).
    unfold file_of. rewrite lookup_zip_with. cbn. rewrite list_lookup_insert_eq by (by rewrite (io_holes _ Hok)).
    change (file_blocks (unhole k i)) with (file_blocks i). rewrite Hb. cbn. by rewrite fn_lookup_insert.
  - rewrite list_lookup_insert_ne by done. unfold file_of. rewrite !lookup_zip_with. cbn.
    rewrite list_lookup_insert_ne by done. change (file_blocks (unhole k i)) with (file_blocks i).
    destruct (blocks_hole_desc (inode_impl i) !! j) as [hole|]; [|done]. cbn. destruct (file_blocks i !! j) as [b'|] eqn:Hj; [|done].
    cbn. destruct hole; [done|]. rewrite fn_lookup_insert_ne; [done|]. intros ->. apply Hne. by eapply NoDup_lookup.
Qed.

Lemma unhole_same k i : blocks_hole_desc (inode_impl i) !! k = Some false -> unhole k i = i.
Proof. intros H. destruct i as [n g [d dd hs f]]. unfold unhole, with_holes. cbn in *. by rewrite list_insert_id. Qed.

Lemma nodup_file sb si w h i : world_wf sb si w -> inodes w !! h = Some i -> NoDup (file_blocks i).
Proof.
  intros Hw Hi. destruct (blocks_perm w h i Hi) as (l & Hl). destruct (Hl i) as [Hp _]. pose proof (ww_nodup _ _ _ Hw) as Hn.
  rewrite Hp in Hn. by apply NoDup_app in Hn as (? & _).
Qed.

(** Replacing one inode *)
Definition put h i w : World := MkWorld (w_fs w) (disk w) (io w) (<[h := i]> (inodes w)).

Lemma world_wf_put sb si w h i i' :
  world_wf sb si w -> inodes w !! h = Some i -> inode_ok i' -> file_blocks i' = file_blocks i -> world_wf sb si (put h i' w).
Proof.
  intros [Hf Hok Hn Hu] Hi Hok' Hfb. destruct (blocks_perm w h i Hi) as (l & Hl). destruct (Hl i') as [Hp Hp'].
  rewrite Hfb, <- Hp in Hp'. split; cbn; [done| | |].
  - intros h' j Hj. apply list_lookup_insert_Some in Hj as [(_ & <- & _) | [_ Hj]]; [done|by eapply Hok].
  - by rewrite Hp'.
  - intros b. rewrite Hp'. apply Hu.
Qed.

Lemma set_impl_ok w h i f : inodes w !! h = Some i ->
  set_impl h f w = (Ok tt, put h (MkInode (ino i) (block_group_idx i) (f (inode_impl i))) w).
Proof.
  intros Hi. unfold set_impl, put. do 2 f_equal. apply list_eq. intros j. destruct (decide (h = j)) as [<- |].
  - by rewrite list_lookup_alter_eq, Hi, list_lookup_insert_eq by (by eapply lookup_lt_Some).
  - by rewrite list_lookup_alter_ne, list_lookup_insert_ne.
Qed.

Lemma files_put w h i' : files (put h i' w) = <[h := file_of (disk w) i']> (files w).
Proof. unfold files. cbn. by rewrite list_fmap_insert. Qed.

Lemma inode_ok_unhole k i : inode_ok i -> inode_ok (unhole k i).
Proof. intros [H1 H2 H3 H4]. split; [exact H1|exact H2| |exact H4]. cbn. rewrite length_insert. exact H3. Qed.

(** What a write to block [k] of a file does to the files *)
Lemma files_write sb si w h i k b c ios :
  world_wf sb si w -> inodes w !! h = Some i -> file_blocks i !! k = Some b ->
  let w' := MkWorld (w_fs w) (<[b := c]> (disk w)) ios (<[h := unhole k i]> (inodes w)) in
  world_wf sb si w' /\ files w' = alter (<[k := c]>) h (files w).
Proof.
  intros Hw Hi Hb w'. pose proof (ww_ok _ _ _ Hw _ _ Hi) as Hok. split.
  - pose proof (world_wf_put sb si w h i (unhole k i) Hw Hi (inode_ok_unhole k i Hok) eq_refl) as [H1 H2 H3 H4]. by split.
  - apply list_eq. intros j. unfold files, w'. cbn. rewrite list_lookup_fmap. destruct (decide (h = j)) as [<- | Hne].
    + rewrite list_lookup_insert_eq by (by eapply lookup_lt_Some). rewrite list_lookup_alter_eq, list_lookup_fmap, Hi. cbn.
      f_equal. apply file_of_write; [done|by eapply nodup_file|done].
    + rewrite list_lookup_insert_ne, list_lookup_alter_ne, list_lookup_fmap by done. destruct (inodes w !! j) as [i'|] eqn:Hj; [|done].
      cbn. f_equal. apply file_of_ext. intros b' Hb'. apply fn_lookup_insert_ne. intros ->.
      eapply (files_disjoint sb si w h j i i' b'); try done. by eapply list_elem_of_lookup_2.
Qed.

Lemma write_block_spec sb si w h i bid c :
  world_wf sb si w -> inodes w !! h = Some i -> 0 <= bid < 2 ^ 32 ->
  match write_block h bid c w with
  | (Ok _, w') => world_wf sb si w' /\ files w' = alter (<[Z.to_nat bid := c]>) h (files w) /\ (Z.to_nat bid < length (file_of (disk w) i))%nat
  | (Err e, w') => files w' = files w /\ world_wf sb si w' /\ (e = EINVAL /\ Z.of_nat (n_of i) <= bid \/ head (io w) = Some (Some e))
  | (Panic, _) => False
  end.
Proof.
  intros Hw Hi Hb. unfold write_block. pose proof (write_block__spec sb si w h i bid c Hw Hi Hb) as Hwr. unfold sbind at 1.
  destruct (write_block_ h bid c w) as [[[]|e|] w1]; [| |done].
  2:{ destruct Hwr as [(-> & -> & H) | [-> H]]; [by split_and!; [..|left]|]. split_and!; [done|by apply world_wf_io|by right]. }
  destruct Hwr as (b & Hfb & ->). erewrite (sbind_ok (get_inode h)) by (apply get_inode_ok; exact Hi).
  pose proof (lookup_lt_Some _ _ _ Hfb) as Hk. rewrite length_file_blocks in Hk by (by eapply ww_ok).
  destruct (in_file sb si w h i (Z.to_nat bid) Hw Hi Hk) as (hole & b' & Hh & _).
  rewrite Hh. cbn [ounwrap]. rewrite (slift_ok _ _ _ _ eq_refl). rewrite length_file_of by (by eapply ww_ok).
  destruct (files_write sb si w h i (Z.to_nat bid) b c (tail (io w)) Hw Hi Hfb) as [H1 H2].
  destruct hole; [rewrite (set_impl_ok _ _ i) by done; by split_and!|].
  cbn [sret]. rewrite unhole_same, list_insert_id in H1, H2 by done. by split_and!.
Qed.

(** Writing zeros to the holes leaves the contents as they are. *)
Lemma sync_hole_spec sb si w h i bid :
  world_wf sb si w -> inodes w !! h = Some i -> 0 <= bid < Z.of_nat (n_of i) ->
  match sync_hole zero h bid w with
  | (Ok _, w') => world_wf sb si w' /\ files w' = files w /\ inodes w' = <[h := unhole (Z.to_nat bid) i]> (inodes w)
  | (Err e, w') => world_wf sb si w' /\ files w' = files w
  | (Panic, _) => False
  end.
Proof.
  intros Hw Hi Hb. pose proof (ww_ok _ _ _ Hw _ _ Hi) as Hok. unfold sync_hole. rewrite (sbind_ok _ _ _ _ _ (get_inode_ok _ _ _ Hi)).
  destruct (in_file sb si w h i (Z.to_nat bid) Hw Hi ltac:(lia)) as (hole & b & Hh & Hfb & _). rewrite Hh. cbn [ounwrap].
  rewrite (slift_ok _ _ _ _ eq_refl). destruct hole; [|cbn; by rewrite unhole_same, list_insert_id].
  pose proof (io_count _ Hok). assert (Hbb : 0 <= bid < 2 ^ 32) by (unfold n_of in Hb; lia).
  pose proof (write_block__spec sb si w h i bid zero Hw Hi Hbb) as Hwr. unfold sbind at 1.
  destruct (write_block_ h bid zero w) as [[[]|e|] w1]; [| |done].
  2:{ destruct Hwr as [(-> & -> & H0) | [-> H0]]; [done|]. split; [by apply world_wf_io|done]. }
  destruct Hwr as (b' & Hfb' & ->). simplify_eq. rewrite (set_impl_ok _ _ i) by done.
  destruct (files_write sb si w h i (Z.to_nat bid) b zero (tail (io w)) Hw Hi Hfb) as [H1 H2].
  split; [exact H1|]. split; [|done]. etrans; [exact H2|]. apply list_eq. intros j. destruct (decide (h = j)) as [<- |]; [|by rewrite list_lookup_alter_ne].
  rewrite list_lookup_alter_eq. unfold files. rewrite list_lookup_fmap, Hi. cbn. f_equal. apply list_insert_id.
  exact (file_of_lookup (disk w) i _ true b Hh Hfb).
Qed.

Lemma sync_data_holes_spec sb si w h i :
  world_wf sb si w -> inodes w !! h = Some i ->
  match sync_data_holes zero h w with
  | (Ok _, w') => world_wf sb si w' /\ files w' = files w /\
      (exists i', inodes w' !! h = Some i' /\ blocks_hole_desc (inode_impl i') = replicate (n_of i) false)
  | (Err e, w') => world_wf sb si w' /\ files w' = files w
  | (Panic, _) => False
  end.
Proof.
  intros Hw Hi. pose proof (ww_ok _ _ _ Hw _ _ Hi) as Hok. unfold sync_data_holes. rewrite (sbind_ok _ _ _ _ _ (get_inode_ok _ _ _ Hi)).
  rewrite blocks_count_ok, (slift_ok _ _ _ _ eq_refl) by done.
  pose (I := fun (j : Z) w' => world_wf sb si w' /\ files w' = files w /\ exists i', inodes w' !! h = Some i' /\ n_of i' = n_of i /\
    forall k, (k < Z.to_nat j)%nat -> blocks_hole_desc (inode_impl i') !! k = Some false).
  assert (Hstep : forall j w2, 0 <= j < Z.of_nat (n_of i) -> I j w2 ->
    match sync_hole zero h j w2 with (Ok _, s') => I (j + 1) s' | (Err e, w') => world_wf sb si w' /\ files w' = files w | (Panic, _) => False end).
  { intros j w2 Hj (H1 & H2 & i' & Hi' & Hn & Hall). pose proof (sync_hole_spec sb si w2 h i' j H1 Hi' ltac:(lia)) as Hs.
    pose proof (io_holes _ (ww_ok _ _ _ H1 _ _ Hi')) as Hhl.
    destruct (sync_hole zero h j w2) as [[[]|e|] w3]; [| |done]; [|by destruct Hs; split; [|congruence]].
    destruct Hs as (H3 & H4 & H5). split; [done|]. split; [congruence|]. exists (unhole (Z.to_nat j) i').
    rewrite H5, list_lookup_insert_eq by (by eapply lookup_lt_Some). split; [done|]. split; [done|].
    intros k Hk. cbn. destruct (decide (Z.to_nat j = k)) as [<- |]; [apply list_lookup_insert_eq; lia|].
    rewrite list_lookup_insert_ne by done. apply Hall. lia. }
  assert (H0 : I 0 w) by (split_and!; [done|done|]; exists i; split_and!; [done|done|lia]).
  pose proof (sfor_zrange_err (sync_hole zero h) I _ 0 (Z.of_nat (n_of i)) w ltac:(lia) H0 Hstep) as Hloop.
  destruct (sfor _ _ w) as [[[]|e|] w1]; [|done..]. destruct Hloop as (H1 & H2 & i' & Hi' & Hn & Hall).
  split; [done|]. split; [done|]. exists i'. split; [done|]. pose proof (io_holes _ (ww_ok _ _ _ H1 _ _ Hi')) as Hhl.
  apply list_eq. intros k. destruct (decide (k < n_of i)%nat).
  - rewrite lookup_replicate_2 by done. apply Hall. lia.
  - rewrite !lookup_ge_None_2; [done|rewrite length_replicate; lia|lia].
Qed.

(** * Changes of size *)

(** The inode with other contents of the block pointers, block count, size and
    holes *)
Definition put_desc (data : list Z) (n size : Z) (d : InodeDesc) : InodeDesc :=
  match d with MkInodeDesc t p u g _ a c m dt hl _ fl _ ac => MkInodeDesc t p u g size a c m dt hl n fl data ac end.
Definition remade (data : list Z) (n size : Z) (holes : list bool) (dirty : bool) i : Inode :=
  MkInode (ino i) (block_group_idx i)
    (MkInodeImpl (put_desc data n size (desc (inode_impl i))) dirty holes (is_freed (inode_impl i))).

(** The inode with other block pointers only *)
Notation repointed data dirty i :=
  (remade data (i_blocks_count (desc (inode_impl i))) (i_size (desc (inode_impl i))) (blocks_hole_desc (inode_impl i)) dirty i).

Lemma repointed_same i : repointed (i_data (desc (inode_impl i))) (is_dirty (inode_impl i)) i = i.
Proof. by destruct i as [n g [[] dd hs f]]. Qed.

Lemma n_blocks_bound sb si fs : fs_wf sb si fs -> n_blocks fs < 2 ^ 32.
Proof.
  intros Hf. pose proof (pool_bound _ _ _ _ (wf_blocks _ _ _ Hf)) as H. pose proof (pool_slack _ _ _ _ (wf_blocks _ _ _ Hf)).
  unfold blocks_of in H. rewrite length_fmap in H. unfold n_blocks. lia.
Qed.

(** The state of the loop that adds blocks to the file, at block [j]: the files
    are as before, and the pointers from the old size on name distinct blocks
    that no file had. *)
Definition growing (sb si : Z) (w0 : World) (h : nat) (i : Inode) (j : Z) (w : World) : Prop :=
  exists data dirty, inodes w = <[h := repointed data dirty i]> (inodes w0) /\ disk w = disk w0 /\
    length data = BLOCK_PTR_CNT /\ take (n_of i) data = file_blocks i /\ NoDup (take (Z.to_nat j) data) /\
    fs_wf sb si (w_fs w) /\ n_blocks (w_fs w) = n_blocks (w_fs w0) /\
    (forall b, 0 <= b -> block_used (w_fs w0) b = true -> block_used (w_fs w) b = true) /\
    (forall b, b ∈ take (Z.to_nat j) data -> 0 <= b < n_blocks (w_fs w0) /\ block_used (w_fs w) b = true) /\
    (forall k b, (n_of i <= k < Z.to_nat j)%nat -> data !! k = Some b -> block_used (w_fs w0) b = false).

Lemma growing_wf sb si w0 h i j w :
  world_wf sb si w0 -> inodes w0 !! h = Some i -> growing sb si w0 h i j w -> world_wf sb si w /\ files w = files w0.
Proof.
  intros Hw Hi (data & dirty & Hin & Hdisk & Hlen & Htake & _ & Hfs & Hnb & Hmono & _). pose proof (ww_ok _ _ _ Hw _ _ Hi) as [O1 O2 O3 O4].
  assert (Hfb : file_blocks (repointed data dirty i) = file_blocks i) by (rewrite <- Htake; by destruct i as [? ? [[] ? ? ?]]).
  assert (Hok : inode_ok (repointed data dirty i)) by (destruct i as [? ? [[] ? ? ?]]; by split).
  pose proof (world_wf_put sb si w0 h i _ Hw Hi Hok Hfb) as [P1 P2 P3 P4]. cbn in P2, P3, P4. rewrite <- Hin in P2, P3, P4. split.
  - split; [done..|]. intros b Hb. destruct (P4 b Hb) as [Hr Hu]. rewrite Hnb. split; [done|]. apply Hmono; [lia|done].
  - unfold files. rewrite Hin, Hdisk, list_fmap_insert. apply list_insert_id. rewrite list_lookup_fmap, Hi. cbn. f_equal.
    unfold file_of. rewrite Hfb. done.
Qed.

Lemma alloc_file_block_spec sb si w0 h i j w :
  world_wf sb si w0 -> inodes w0 !! h = Some i -> Z.of_nat (n_of i) <= j < 12 -> growing sb si w0 h i j w ->
  match alloc_file_block h j w with
  | (Ok _, w') => growing sb si w0 h i (j + 1) w'
  | (Err e, w') => growing sb si w0 h i j w' /\ (e = ENOSPC /\ (forall k, 0 <= k < n_blocks (w_fs w') -> block_used (w_fs w') k = true) \/
      e = EINVAL /\ (length (block_groups (w_fs w')) <= block_group_idx i)%nat)
  | (Panic, _) => False
  end.
Proof.
  intros Hw Hi Hj Hg. pose proof Hg as (data & dirty & Hin & Hdisk & Hlen & Htake & Hnd & Hfs & Hnb & Hmono & Hused & Hfresh).
  unfold alloc_file_block. rewrite (proj2 (Z.ltb_lt j 12)) by lia. cbn [oassert]. rewrite (slift_ok _ _ _ _ eq_refl).
  assert (Hiw : inodes w !! h = Some (repointed data dirty i)) by (rewrite Hin; apply list_lookup_insert_eq; by eapply lookup_lt_Some).
  rewrite (sbind_ok _ _ _ _ _ (get_inode_ok _ _ _ Hiw)). pose proof (alloc_block_spec sb si (w_fs w) (block_group_idx i) Hfs) as Hal.
  unfold sbind, on_fs. change (block_group_idx (remade _ _ _ _ _ i)) with (block_group_idx i).
  destruct (alloc_block (block_group_idx i) (w_fs w)) as [[bid|e|] fs']; [| |done].
  2:{ destruct Hal as [-> Hcase]. destruct w as [fs dk ios ins]. cbn in *. split; [done|]. destruct Hcase as [[-> H] | (-> & _ & H)]; auto. }
  destruct Hal as (Hr & Hfs' & [Hfree Hall] & _ & Hnb'). rewrite (set_impl_ok _ _ (repointed data dirty i)) by exact Hiw.
  pose proof (n_blocks_bound _ _ _ Hfs). rewrite Z.mod_small by lia.
  exists (<[Z.to_nat j := bid]> data), true. cbn [inodes put disk w_fs].
  assert (Hjlt : (Z.to_nat j < length data)%nat) by (rewrite Hlen; lia).
  assert (Htk : take (Z.to_nat (j + 1)) (<[Z.to_nat j := bid]> data) = take (Z.to_nat j) data ++ [bid]).
  { replace (Z.to_nat (j + 1)) with (S (Z.to_nat j)) by lia. rewrite (take_S_r _ _ bid) by (by apply list_lookup_insert_eq).
    by rewrite take_insert_ge. }
  assert (Hnew : forall b, b ∈ take (Z.to_nat j) data -> b <> bid) by (intros b Hb ->; destruct (Hused bid Hb); congruence).
  split_and!; [|done|by rewrite length_insert| | |done|by rewrite Hnb'|..].
  - rewrite Hin, list_insert_insert_eq. f_equal. by destruct i as [? ? [[] ? ? ?]].
  - rewrite take_insert_ge by lia. done.
  - rewrite Htk. apply NoDup_app. split; [done|]. split; [|apply NoDup_singleton]. intros b Hb Hb'. apply list_elem_of_singleton in Hb'. by eapply Hnew.
  - intros b H0 Hb. rewrite Hall by done. by rewrite (Hmono b H0 Hb), orb_true_r.
  - intros b. rewrite Htk. intros [Hb | Hb%list_elem_of_singleton]%elem_of_app.
    + destruct (Hused b Hb) as [Hrb Hub]. split; [done|]. rewrite Hall by lia. by rewrite Hub, orb_true_r.
    + subst b. rewrite <- Hnb. split; [done|]. rewrite Hall by lia. by rewrite Z.eqb_refl.
  - intros k b Hk Hb. destruct (decide (k = Z.to_nat j)) as [-> | Hne].
    + rewrite list_lookup_insert_eq in Hb by done. injection Hb as <-.
      destruct (block_used (w_fs w0) bid) eqn:Hu; [|done]. rewrite Hmono in Hfree by (done || lia). done.
    + rewrite list_lookup_insert_ne in Hb by done. apply (Hfresh k); [lia|done].
Qed.

(** The loop that frees blocks, at block [j]: the blocks from the new size up to
    [j] are free, and nothing else has changed. *)
Definition shrinking (sb si : Z) (w0 : World) (i : Inode) (new j : Z) (w : World) : Prop :=
  inodes w = inodes w0 /\ disk w = disk w0 /\ fs_wf sb si (w_fs w) /\ n_blocks (w_fs w) = n_blocks (w_fs w0) /\
  forall b, 0 <= b -> block_used (w_fs w) b = block_used (w_fs w0) b && negb (bool_decide (b ∈ drop (Z.to_nat new) (take (Z.to_nat j) (file_blocks i)))).

Lemma free_file_block_spec sb si w0 h i new j w :
  world_wf sb si w0 -> inodes w0 !! h = Some i -> 0 <= new -> new <= j < Z.of_nat (n_of i) -> shrinking sb si w0 i new j w ->
  match free_file_block h j w with (Ok _, w') => shrinking sb si w0 i new (j + 1) w' | _ => False end.
Proof.
  intros Hw Hi H0 Hj (Hin & Hdisk & Hfs & Hnb & Hused). unfold free_file_block.
  destruct (in_file sb si w0 h i (Z.to_nat j) Hw Hi ltac:(lia)) as (hole & b & _ & Hfb & Hd & H12).
  rewrite (proj2 (Z.ltb_lt j 12)) by lia. cbn [oassert]. rewrite (slift_ok _ _ _ _ eq_refl).
  rewrite (sbind_ok _ _ _ _ _ (get_inode_ok w h i ltac:(by rewrite Hin))), Hd. cbn [ounwrap]. rewrite (slift_ok _ _ _ _ eq_refl).
  assert (Hb : 0 <= b < n_blocks (w_fs w0) /\ block_used (w_fs w0) b = true).
  { apply (ww_used _ _ _ Hw). apply list_elem_of_bind. exists i. split; [by eapply list_elem_of_lookup_2|by eapply list_elem_of_lookup_2]. }
  pose proof (nodup_file sb si w0 h i Hw Hi) as Hnd.
  assert (Hnot : b ∉ drop (Z.to_nat new) (take (Z.to_nat j) (file_blocks i))).
  { intros Hin'. apply list_elem_of_lookup in Hin' as [k Hk]. rewrite lookup_drop in Hk. apply lookup_take_Some in Hk as [Hk Hlt].
    pose proof (NoDup_lookup _ _ _ _ Hnd Hk Hfb). lia. }
  pose proof (free_block_spec sb si (w_fs w) b Hfs (proj1 (proj1 Hb))) as Hf. unfold on_fs.
  destruct (free_block b (w_fs w)) as [[[]|e|] fs'].
  - destruct Hf as (_ & Hfs' & [_ Hrel] & _ & Hnb'). split; [done|]. split; [done|]. split; [done|]. split; [cbn; congruence|].
    intros b' Hb'. cbn. rewrite Hrel by done. rewrite Hused by done.
    replace (Z.to_nat (j + 1)) with (S (Z.to_nat j)) by lia. rewrite (take_S_r _ _ b Hfb), drop_app_le by (rewrite length_take, length_file_blocks by (by eapply ww_ok); lia).
    destruct (Z.eqb_spec b' b) as [-> | Hne].
    + cbn [negb andb]. rewrite bool_decide_eq_true_2 by (apply elem_of_app; right; by apply list_elem_of_singleton). cbn. by rewrite andb_false_r.
    + cbn [negb andb]. do 2 f_equal. apply bool_decide_ext. rewrite elem_of_app, list_elem_of_singleton. tauto.
  - destruct Hf as (_ & Hge & _). rewrite Hnb in Hge. lia.
  - destruct Hf as [_ Hf]. rewrite Hused in Hf by lia. rewrite bool_decide_eq_false_2 in Hf by done. rewrite (proj2 Hb) in Hf. done.
Qed.

(** What a change of size to [n] blocks does to a file *)
Definition resized (n : nat) (c : list blk) : list blk := take n c ++ replicate (n - length c) zero.

Lemma new_blocks_range d size : 0 <= size <= 12 * BLOCK_SIZE -> 0 <= new_blocks_of d size <= 12.
Proof.
  intros Hs. unfold new_blocks_of. destruct (_ && _); [lia|].
  assert (0 <= (size + BLOCK_SIZE - 1) / BLOCK_SIZE <= 12) by (split; [apply Z.div_pos; lia|apply Z.lt_succ_r, Z.div_lt_upper_bound; lia]).
  rewrite Z.mod_small by lia. done.
Qed.

(** The inode at the end of [resize] *)
Lemma final_ok i data n size dirty :
  inode_ok i -> 0 <= n <= 12 -> length data = BLOCK_PTR_CNT -> (i_type (desc (inode_impl i)) = DirT -> size = n * BLOCK_SIZE) ->
  let i' := remade data n size (holes_resize (Z.to_nat n) (blocks_hole_desc (inode_impl i))) dirty i in
  inode_ok i' /\ file_blocks i' = take (Z.to_nat n) data /\
  (take (Nat.min (n_of i) (Z.to_nat n)) data = take (Nat.min (n_of i) (Z.to_nat n)) (file_blocks i) -> forall dsk, file_of dsk i' = resized (Z.to_nat n) (file_of dsk i)).
Proof.
  intros Hok Hn Hlen Hdir i'. pose proof (io_holes _ Hok) as Hh.
  assert (Hfb : file_blocks i' = take (Z.to_nat n) data) by (by destruct i as [? ? [[] ? ? ?]]).
  split; [|split; [done|]].
  - unfold i'. destruct i as [? ? [[] ? ? ?]]. split; cbn in *; [done|done| |done].
    unfold holes_resize, n_of. cbn. rewrite length_app, length_take, length_replicate. lia.
  - intros Hpre dsk. apply list_eq. intros k. unfold resized. unfold file_of at 1. rewrite Hfb, lookup_zip_with.
    assert (Hholes : blocks_hole_desc (inode_impl i') = holes_resize (Z.to_nat n) (blocks_hole_desc (inode_impl i))) by done.
    rewrite Hholes. unfold holes_resize. pose proof (length_file_of dsk i Hok) as Hlf. pose proof (length_file_blocks i Hok) as Hlb.
    destruct (decide (k < Z.to_nat n)%nat) as [Hk | Hk].
    + rewrite (lookup_take_lt data) by done. destruct (decide (k < n_of i)%nat) as [Hk' | Hk'].
      * rewrite !lookup_app_l by (rewrite length_take; lia). rewrite !lookup_take_lt by done.
        unfold file_of. rewrite lookup_zip_with. assert (Hdk : data !! k = file_blocks i !! k).
        { apply (f_equal (fun l => l !! k)) in Hpre. rewrite !lookup_take_lt in Hpre by lia. done. }
        by rewrite Hdk.
      * rewrite (lookup_app_r (take _ (blocks_hole_desc _))), (lookup_app_r (take _ (file_of _ _))) by (rewrite length_take; lia).
        rewrite !length_take, !lookup_replicate_2 by lia. cbn. destruct (lookup_lt_is_Some_2 data k) as [b Hb]; [rewrite Hlen; lia|].
        by rewrite Hb.
    + rewrite (lookup_ge_None_2 (take (Z.to_nat n) data)) by (rewrite length_take; lia).
      rewrite (lookup_ge_None_2 (take (Z.to_nat n) (file_of dsk i) ++ _)) by (rewrite length_app, length_take, length_replicate; lia).
      by destruct (_ !! k).
Qed.

Lemma put_at w h i0 i : inodes w !! h = Some i0 -> inodes (put h i w) !! h = Some i.
Proof. intros H. cbn. apply list_lookup_insert_eq. by eapply lookup_lt_Some. Qed.
Lemma w_put_put w h i i' : put h i' (put h i w) = put h i' w.
Proof. unfold put. cbn. by rewrite list_insert_insert_eq. Qed.

(** The end of [resize] *)
Lemma resize_end w h i data dirty n size :
  inodes w !! h = Some (repointed data dirty i) ->
  let fin := put h (remade data n size (holes_resize (Z.to_nat n) (blocks_hole_desc (inode_impl i))) true i) w in
  let rest := set_impl h (with_desc (set_size size)) ;! set_impl h (with_holes (holes_resize (Z.to_nat n))) in
  (n = i_blocks_count (desc (inode_impl i)) -> rest w = (Ok tt, fin)) /\
  (set_impl h (with_desc (set_blocks_count n)) ;! rest) w = (Ok tt, fin).
Proof.
  intros Hi fin rest. split.
  - intros ->. unfold rest. rewrite (sbind_ok _ _ _ _ _ (set_impl_ok _ _ _ _ Hi)), (set_impl_ok _ _ _ _ (put_at _ _ _ _ Hi)), w_put_put.
    unfold fin. do 2 f_equal. by destruct i as [? ? [[] ? ? ?]].
  - rewrite (sbind_ok _ _ _ _ _ (set_impl_ok _ _ _ _ Hi)). unfold rest.
    rewrite (sbind_ok _ _ _ _ _ (set_impl_ok _ _ _ _ (put_at _ _ _ _ Hi))), w_put_put.
    rewrite (set_impl_ok _ _ _ _ (put_at _ _ _ _ Hi)), w_put_put. unfold fin. do 2 f_equal. by destruct i as [? ? [[] ? ? ?]].
Qed.

(** The world at the end, from the blocks the file has then *)
Lemma resize_final sb si w h i w1 data dirty n size :
  world_wf sb si w -> inodes w !! h = Some i -> 0 <= n <= 12 -> length data = BLOCK_PTR_CNT ->
  (i_type (desc (inode_impl i)) = DirT -> size = n * BLOCK_SIZE) ->
  inodes w1 = <[h := repointed data dirty i]> (inodes w) -> disk w1 = disk w -> fs_wf sb si (w_fs w1) ->
  n_blocks (w_fs w1) = n_blocks (w_fs w) ->
  take (Nat.min (n_of i) (Z.to_nat n)) data = take (Nat.min (n_of i) (Z.to_nat n)) (file_blocks i) ->
  NoDup (take (Z.to_nat n) data) ->
  (forall b, b ∈ take (Z.to_nat n) data -> 0 <= b < n_blocks (w_fs w) /\ block_used (w_fs w1) b = true) ->
  (forall h' j b, h' <> h -> inodes w !! h' = Some j -> b ∈ file_blocks j -> block_used (w_fs w1) b = true /\ b ∉ take (Z.to_nat n) data) ->
  let w' := put h (remade data n size (holes_resize (Z.to_nat n) (blocks_hole_desc (inode_impl i))) true i) w1 in
  world_wf sb si w' /\ files w' = alter (resized (Z.to_nat n)) h (files w).
Proof.
  intros Hw Hi Hn Hlen Hdir Hin Hdisk Hfs Hnb Hpre Hnd Hused Hothers w'.
  destruct (final_ok i data n size true (ww_ok _ _ _ Hw _ _ Hi) Hn Hlen Hdir) as (Hok & Hfb & Hfile).
  set (i' := remade data n size _ true i) in *. pose proof (lookup_lt_Some _ _ _ Hi) as Hlt.
  assert (Hins : inodes w' = <[h := i']> (inodes w)) by (unfold w'; cbn; by rewrite Hin, list_insert_insert_eq).
  destruct (blocks_perm w h i Hi) as (l & Hl). destruct (Hl i') as [Hp Hp']. rewrite <- Hins in Hp'.
  assert (Hrest : forall b, b ∈ l -> 0 <= b < n_blocks (w_fs w) /\ block_used (w_fs w1) b = true /\ b ∉ take (Z.to_nat n) data).
  { intros b Hb. assert (Hb0 : b ∈ inodes w ≫= file_blocks) by (rewrite Hp; set_solver). destruct (ww_used _ _ _ Hw b Hb0) as [Hr _].
    split; [done|]. pose proof (ww_nodup _ _ _ Hw) as Hnw. rewrite Hp in Hnw. apply NoDup_app in Hnw as (_ & Hdisj & _).
    apply list_elem_of_bind in Hb0 as (j & Hbj & Hj). apply list_elem_of_lookup in Hj as [h' Hj].
    apply (Hothers h' j); [|done|done]. intros ->. simplify_eq. by apply (Hdisj b). }
  split; [split|].
  - done.
  - intros h' j Hj. rewrite Hins in Hj. apply list_lookup_insert_Some in Hj as [(_ & <- & _) | [_ Hj]]; [done|by eapply ww_ok].
  - rewrite Hp', Hfb. apply NoDup_app. split; [done|]. split; [intros b Hb Hb'; by destruct (Hrest b Hb') as (_ & _ & ?)|].
    pose proof (ww_nodup _ _ _ Hw) as Hnw. rewrite Hp in Hnw. by apply NoDup_app in Hnw as (_ & _ & ?).
  - intros b. rewrite Hp', Hfb. change (w_fs w') with (w_fs w1). rewrite Hnb. intros [Hb | Hb]%elem_of_app; [by apply Hused|].
    destruct (Hrest b Hb) as (? & ? & _). done.
  - unfold files. rewrite Hins. change (disk w') with (disk w1). rewrite Hdisk, list_fmap_insert, (Hfile Hpre).
    apply list_eq. intros k. destruct (decide (h = k)) as [<- |].
    + rewrite list_lookup_insert_eq, list_lookup_alter_eq, list_lookup_fmap, Hi by (by rewrite length_fmap). done.
    + by rewrite list_lookup_insert_ne, list_lookup_alter_ne.
Qed.

(** A block of another file is in use, and not in this one. *)
Lemma other_used sb si w h i h' j b :
  world_wf sb si w -> inodes w !! h = Some i -> h' <> h -> inodes w !! h' = Some j -> b ∈ file_blocks j ->
  0 <= b /\ block_used (w_fs w) b = true /\ b ∉ file_blocks i.
Proof.
  intros Hw Hi Hne Hj Hb. destruct (ww_used _ _ _ Hw b) as [Hr Hu].
  { apply list_elem_of_bind. exists j. split; [done|by eapply list_elem_of_lookup_2]. }
  split_and!; [lia|done|]. intros Hb'. by eapply (files_disjoint sb si w h h' i j b).
Qed.

Definition resize_post (sb si : Z) (w : World) (h : nat) (i : Inode) (size : Z) (r : outcome Errno unit * World) : Prop :=
  match r with
  | (Ok _, w') => world_wf sb si w' /\
      files w' = alter (resized (Z.to_nat (new_blocks_of (desc (inode_impl i)) size))) h (files w)
  | (Err e, w') => world_wf sb si w' /\ files w' = files w /\
      (e = ENOSPC /\ (forall k, 0 <= k < n_blocks (w_fs w') -> block_used (w_fs w') k = true) \/
       e = EINVAL /\ (length (block_groups (w_fs w')) <= block_group_idx i)%nat)
  | (Panic, _) => False
  end.

Section resize.
Context (sb si : Z) (w : World) (h : nat) (i : Inode) (size : Z).
Context (Hw : world_wf sb si w) (Hi : inodes w !! h = Some i).
Notation n := (new_blocks_of (desc (inode_impl i)) size).
Context (Hn : 0 <= n <= 12) (Hdir : i_type (desc (inode_impl i)) = DirT -> size = n * BLOCK_SIZE).

Lemma grow_loop : Z.of_nat (n_of i) < n ->
  match sfor (zrange (Z.of_nat (n_of i)) n) (alloc_file_block h) w with
  | (Ok _, w') => growing sb si w h i n w'
  | (Err e, w') => resize_post sb si w h i size (Err e, w')
  | (Panic, _) => False
  end.
Proof using Hw Hi Hn.
  intros Hgt. pose proof (ww_ok _ _ _ Hw _ _ Hi) as Hok.
  apply (sfor_zrange_err _ (growing sb si w h i) (fun e w' => resize_post sb si w h i size (Err e, w'))); [lia| |].
  - exists (i_data (desc (inode_impl i))), (is_dirty (inode_impl i)). rewrite repointed_same, Nat2Z.id, list_insert_id by done.
    split_and!; try done; [by apply (io_data _ Hok)|by eapply nodup_file|by apply (ww_fs _ _ _ Hw)| |lia].
    intros b Hb. apply (ww_used _ _ _ Hw). apply list_elem_of_bind. exists i. split; [done|by eapply list_elem_of_lookup_2].
  - intros j w' Hj Hg. pose proof (alloc_file_block_spec sb si w h i j w' Hw Hi ltac:(lia) Hg) as Hs.
    destruct (alloc_file_block h j w') as [[]w2]; [done| |done]. destruct Hs as [Hg2 Hcase].
    destruct (growing_wf _ _ _ _ _ _ _ Hw Hi Hg2). by split_and!.
Qed.

Lemma resize_grow : Z.of_nat (n_of i) < n -> resize_post sb si w h i size (resize h size w).
Proof using Hw Hi Hn Hdir.
  intros Hgt. pose proof (ww_ok _ _ _ Hw _ _ Hi) as Hok. pose proof (lookup_lt_Some _ _ _ Hi) as Hlt.
  unfold resize. rewrite (sbind_ok _ _ _ _ _ (get_inode_ok _ _ _ Hi)), blocks_count_ok, (slift_ok _ _ _ _ eq_refl) by done.
  rewrite (proj2 (Z.compare_gt_iff _ _) Hgt). rewrite sbind_assoc. pose proof (grow_loop Hgt) as Hloop.
  unfold sbind at 1. destruct (sfor _ _ w) as [[[]|e|] w1]; [|done..].
  destruct Hloop as (data & dirty & Hin & Hdisk & Hlen & Htake & Hnd & Hfs1 & Hnb & Hmono & Hused & Hfresh).
  assert (Hi1 : inodes w1 !! h = Some (repointed data dirty i)) by (rewrite Hin; by apply list_lookup_insert_eq).
  destruct (resize_end w1 h i data dirty n size Hi1) as [_ ->].
  apply (resize_final sb si w h i w1 data dirty n size); try done.
  - rewrite Nat.min_l by lia. rewrite Htake. unfold file_blocks. by rewrite take_take, Nat.min_id.
  - intros h' j b Hne Hj Hb. destruct (other_used sb si w h i h' j b Hw Hi Hne Hj Hb) as (Hb0 & Hu & Hnot).
    split; [by apply Hmono|]. intros Hin'. apply list_elem_of_lookup in Hin' as [k Hk]. apply lookup_take_Some in Hk as [Hk Hkn].
    destruct (decide (k < n_of i)%nat) as [Hold | Hnew].
    + apply Hnot. rewrite <- Htake. eapply list_elem_of_lookup_2. by rewrite lookup_take_lt.
    + rewrite (Hfresh k b) in Hu by (done || lia). done.
Qed.

Lemma shrink_loop : n < Z.of_nat (n_of i) ->
  match sfor (zrange n (Z.of_nat (n_of i))) (free_file_block h) w with
  | (Ok _, w') => shrinking sb si w i n (Z.of_nat (n_of i)) w' | _ => False end.
Proof using Hw Hi Hn.
  intros Hlt.
  enough (H : match sfor (zrange n (Z.of_nat (n_of i))) (free_file_block h) w with
    | (Ok _, w') => shrinking sb si w i n (Z.of_nat (n_of i)) w' | (Err e, w') => (fun _ _ => False) e w' | (Panic, _) => False end)
    by (by destruct (sfor _ _ _) as [[]?]).
  apply sfor_zrange_err; [lia| |].
  - split_and!; try done; [by apply (ww_fs _ _ _ Hw)|]. intros b Hb. rewrite bool_decide_eq_false_2; [by rewrite andb_true_r|].
    rewrite drop_ge by (rewrite length_take; lia). apply not_elem_of_nil.
  - intros j w' Hj Hg. pose proof (free_file_block_spec sb si w h i n j w' Hw Hi ltac:(lia) ltac:(lia) Hg) as Hs.
    by destruct (free_file_block h j w') as [[]?].
Qed.

Lemma resize_shrink : n < Z.of_nat (n_of i) -> resize_post sb si w h i size (resize h size w).
Proof using Hw Hi Hn Hdir.
  intros Hlt. pose proof (ww_ok _ _ _ Hw _ _ Hi) as Hok. pose proof (nodup_file sb si w h i Hw Hi) as Hnd.
  unfold resize. rewrite (sbind_ok _ _ _ _ _ (get_inode_ok _ _ _ Hi)), blocks_count_ok, (slift_ok _ _ _ _ eq_refl) by done.
  rewrite (proj2 (Z.compare_lt_iff _ _) Hlt). rewrite sbind_assoc. pose proof (shrink_loop Hlt) as Hloop.
  unfold sbind at 1. destruct (sfor _ _ w) as [[[]|e|] w1]; [|done..]. destruct Hloop as (Hin & Hdisk & Hfs1 & Hnb & Hused).
  set (data := i_data (desc (inode_impl i))). set (dirty := is_dirty (inode_impl i)).
  assert (Hi1 : inodes w1 = <[h := repointed data dirty i]> (inodes w)) by (unfold data, dirty; by rewrite repointed_same, list_insert_id).
  assert (Hi1' : inodes w1 !! h = Some (repointed data dirty i)) by (rewrite Hi1; apply list_lookup_insert_eq; by eapply lookup_lt_Some).
  destruct (resize_end w1 h i data dirty n size Hi1') as [_ ->].
  assert (Htk : take (Z.to_nat n) data = take (Z.to_nat n) (file_blocks i)) by (unfold file_blocks; by rewrite take_take, Nat.min_l by lia).
  rewrite Nat2Z.id, take_ge in Hused by (by rewrite length_file_blocks).
  assert (Hsplit : forall b, b ∈ take (Z.to_nat n) (file_blocks i) \/ b ∈ drop (Z.to_nat n) (file_blocks i) <-> b ∈ file_blocks i)
    by (intros b; rewrite <- elem_of_app, take_drop; done).
  apply (resize_final sb si w h i w1 data dirty n size); try done.
  - apply (io_data _ Hok).
  - rewrite Nat.min_r by lia. exact Htk.
  - rewrite Htk. eapply sublist_NoDup; [done|apply sublist_take].
  - intros b Hb. rewrite Htk in Hb. destruct (ww_used _ _ _ Hw b) as [Hr Hu].
    { apply list_elem_of_bind. exists i. split; [apply Hsplit; by left|by eapply list_elem_of_lookup_2]. }
    split; [done|]. rewrite Hused, Hu by lia. rewrite bool_decide_eq_false_2; [done|]. intros Hb'.
    rewrite <- (take_drop (Z.to_nat n) (file_blocks i)) in Hnd. apply NoDup_app in Hnd as (_ & Hdisj & _). by apply (Hdisj b).
  - intros h' j b Hne Hj Hb. destruct (other_used sb si w h i h' j b Hw Hi Hne Hj Hb) as (Hb0 & Hu & Hnot).
    rewrite Hused, Hu, Htk by done. rewrite bool_decide_eq_false_2 by (intros ?; apply Hnot, Hsplit; by right).
    split; [done|]. intros ?. apply Hnot, Hsplit. by left.
Qed.

Lemma resize_equal : Z.of_nat (n_of i) = n -> resize_post sb si w h i size (resize h size w).
Proof using Hw Hi Hn Hdir.
  intros Heq. pose proof (ww_ok _ _ _ Hw _ _ Hi) as Hok. pose proof (io_count _ Hok).
  unfold resize. rewrite (sbind_ok _ _ _ _ _ (get_inode_ok _ _ _ Hi)), blocks_count_ok, (slift_ok _ _ _ _ eq_refl) by done.
  rewrite (proj2 (Z.compare_eq_iff _ _) (eq_sym Heq)). rewrite (sbind_ok (sret tt) _ w tt w eq_refl).
  set (data := i_data (desc (inode_impl i))). set (dirty := is_dirty (inode_impl i)).
  assert (Hi1 : inodes w = <[h := repointed data dirty i]> (inodes w)) by (unfold data, dirty; by rewrite repointed_same, list_insert_id).
  assert (Hi1' : inodes w !! h = Some (repointed data dirty i)) by (unfold data, dirty; by rewrite repointed_same).
  destruct (resize_end w h i data dirty n size Hi1') as [Hend _].
  rewrite Hend by (unfold n_of in Heq; lia).
  assert (Hfb : take (Z.to_nat n) data = file_blocks i) by (unfold file_blocks; f_equal; lia).
  apply (resize_final sb si w h i w data dirty n size); try done.
  - apply (io_data _ Hok).
  - apply (ww_fs _ _ _ Hw).
  - rewrite Nat.min_r, Hfb by lia. by rewrite take_ge by (rewrite length_file_blocks by done; lia).
  - rewrite Hfb. by eapply nodup_file.
  - intros b Hb. rewrite Hfb in Hb. apply (ww_used _ _ _ Hw). apply list_elem_of_bind. exists i. split; [done|by eapply list_elem_of_lookup_2].
  - intros h' j b Hne Hj Hb. rewrite Hfb. by destruct (other_used sb si w h i h' j b Hw Hi Hne Hj Hb) as (_ & ? & ?).
Qed.
End resize.

Lemma resize_spec sb si w h i size :
  world_wf sb si w -> inodes w !! h = Some i -> 0 <= size <= 12 * BLOCK_SIZE ->
  (i_type (desc (inode_impl i)) = DirT -> (BLOCK_SIZE | size)) -> resize_post sb si w h i size (resize h size w).
Proof.
  intros Hw Hi Hs Hdir. pose proof (new_blocks_range (desc (inode_impl i)) size Hs) as Hn.
  assert (Hd : i_type (desc (inode_impl i)) = DirT -> size = new_blocks_of (desc (inode_impl i)) size * BLOCK_SIZE).
  { intros Ht. destruct (Hdir Ht) as [q ->]. unfold new_blocks_of in *. rewrite bool_decide_eq_false_2 by (by rewrite Ht). cbn [andb].
    replace (q * BLOCK_SIZE + BLOCK_SIZE - 1) with (BLOCK_SIZE - 1 + q * BLOCK_SIZE) by lia. rewrite Z.div_add by done.
    change ((BLOCK_SIZE - 1) / BLOCK_SIZE) with 0. rewrite Z.mod_small; lia. }
  destruct (Z.lt_trichotomy (Z.of_nat (n_of i)) (new_blocks_of (desc (inode_impl i)) size)) as [H | [H | H]].
  - by apply resize_grow.
  - by apply resize_equal.
  - by apply resize_shrink.
Qed.
End Facts.
