(* ===== verification/Ext2Files.v ===== *)
(** The inodes of ext2 refine a list of files, each a list of blocks; what an
    inode is when it is loaded after it was written; and what happens when an
    inode that was freed is written back. *)

From stdpp Require Import gmap functions.
From S2P Require Import Prelude Perms Ext2Raw Ext2RawFacts Ext2Alloc Ext2AllocFacts Ext2Inode Ext2InodeFacts.

Section Files.
Context {blk : Type} (zero : blk).
Notation World := (World blk).
Notation M := (stM World Errno).
Implicit Types (w : World).

(** * Creation of inodes *)

Lemma insert_cache_ok sb si fs group idx h g :
  fs_wf sb si fs -> block_groups fs !! group = Some g -> bitset (inode_bitmap (metadata g)) !! Z.to_nat idx = Some true ->
  exists fs', insert_cache group idx h fs = (Ok tt, fs') /\ fs_wf sb si fs' /\ blocks_of fs' = blocks_of fs /\ n_blocks fs' = n_blocks fs /\
    blocks_per_group fs' = blocks_per_group fs.
Proof.
  intros [Hb Hi Hd] Hg Hbit. unfold insert_cache. set (g' := MkBlockGroup (metadata g) (<[idx := Z.of_nat h]> (inode_cache g)) (raw_inodes g)).
  exists (set_group group g' fs). rewrite (on_group_ok _ _ _ g tt g') by (done || (unfold is_allocated; rewrite Hbit; done)).
  assert (Hbo : blocks_of (set_group group g' fs) = blocks_of fs).
  { unfold blocks_of. cbn. rewrite list_fmap_insert. apply list_insert_id. by rewrite list_lookup_fmap, Hg. }
  assert (Hio : inodes_of (set_group group g' fs) = inodes_of fs).
  { unfold inodes_of. cbn. rewrite list_fmap_insert. apply list_insert_id. by rewrite list_lookup_fmap, Hg. }
  split; [done|]. split; [split; [rewrite Hbo; exact Hb|rewrite Hio; exact Hi|]|].
  - apply (dirs_frame group g g' fs); [done..|]. exact (Hd group g Hg).
  - split; [done|]. split; [|done]. unfold n_blocks. cbn. by rewrite length_insert.
Qed.

Lemma create_inode_spec sb si w dir t pm :
  world_wf sb si w ->
  match create_inode dir t pm w with
  | (Ok h, w') => h = length (inodes w) /\ world_wf sb si w' /\ files zero w' = files zero w ++ [[]]
  | (Err e, w') => w' = w
  | (Panic, _) => False
  end.
Proof.
  intros [Hfs Hok Hnd Hu]. unfold create_inode. pose proof (alloc_ino_spec sb si (w_fs w) dir (bool_decide (t = DirT)) Hfs) as Hal.
  unfold sbind at 1, on_fs at 1. destruct (alloc_ino dir _ (w_fs w)) as [[[grp number]|e|] fs']; [| |done].
  2:{ destruct Hal as [-> _]. by destruct w. }
  destruct Hal as (Hr & Hgrp & Hfs' & [Hfree Hal] & Hbo & Hni & Hbpg & Hipg & _). cbn [fst snd].
  pose proof (pool_n _ _ _ _ (wf_inodes _ _ _ Hfs')) as Hn. unfold sbind at 1, new_inode, sbind, slift, sput, sret, sget.
  assert (Hnew : blocks_count (inode_desc_new t pm) = Ok 0) by (unfold blocks_count; by case_decide). rewrite Hnew. cbn [w_fs disk io inodes fst snd].
  destruct (group_of_ok _ fs' (number - 1) inode_view _ _ (wf_inodes _ _ _ Hfs')) as (g & Hg & Hq & Hm & _ & _ & Hin); [unfold n_inodes in *; lia|].
  unfold inode_idx, div_w. rewrite usub_ok by lia. cbn [obind]. rewrite (proj2 (Z.eqb_neq _ 0)) by lia. cbn [obind].
  assert (Hbit : bitset (inode_bitmap (metadata g)) !! Z.to_nat ((number - 1) mod inodes_per_group fs') = Some true).
  { assert (Hu1 : ino_used fs' (number - 1) = true) by (rewrite Hal by lia; by rewrite Z.eqb_refl). unfold ino_used, inodes_of in Hu1.
    rewrite Hin in Hu1. cbn in Hu1. revert Hu1. by destruct (bitset _ !! _) as [[]|]. }
  replace grp with (Z.to_nat ((number - 1) / inodes_per_group fs')) by (rewrite Hipg; lia).
  destruct (insert_cache_ok sb si fs' _ ((number - 1) mod inodes_per_group fs') (length (inodes w)) g Hfs' Hg Hbit) as (fs2 & Hins & Hfs2 & Hbo2 & Hnb2 & Hbpg2).
  unfold on_fs. cbn [w_fs]. rewrite Hins. cbn [disk io inodes].
  assert (Hused : forall b, block_used fs2 b = block_used (w_fs w) b) by (intros b; unfold block_used; by rewrite Hbo2, Hbo, Hbpg2, Hbpg).
  assert (Hnb : n_blocks fs2 = n_blocks (w_fs w)).
  { unfold n_blocks. by rewrite <- !length_blocks_of, Hbo2, Hbo, Hbpg2, Hbpg. }
  split; [done|]. set (i := MkInode _ _ _). assert (Hfb : file_blocks i = []) by done. split; [split; cbn|].
  - done.
  - intros h' j Hj. apply lookup_app_Some in Hj as [Hj | [_ Hj]]; [by eapply Hok|]. apply list_lookup_singleton_Some in Hj as [_ <-].
    split; cbn; [lia|done|done|done].
  - rewrite bind_app, bind_cons, Hfb. cbn. by rewrite app_nil_r.
  - intros b. rewrite bind_app, bind_cons, Hfb. cbn. rewrite app_nil_r, Hused, Hnb. apply Hu.
  - unfold files. cbn. by rewrite fmap_app.
Qed.

(** * Operations on files and what they mean *)

Inductive file_op : Type :=
| Create (dir : nat) (t : FileType) (pm : Z)
| Read (h : nat) (bid : Z)
| Write (h : nat) (bid : Z) (c : blk)
| Resize (h : nat) (size : Z)
| SyncHoles (h : nat).

Definition run_op (op : file_op) : M (option blk) :=
  match op with
  | Create dir t pm => create_inode dir t pm ;! sret None
  | Read h bid => let! c := read_block zero h bid in sret (Some c)
  | Write h bid c => write_block h bid c ;! sret None
  | Resize h size => resize h size ;! sret None
  | SyncHoles h => sync_data_holes zero h ;! sret None
  end.

(** On lists of files: a new file is empty, a write changes one block of one
    file, a change of size truncates or adds zeros. *)
Definition abs_op w (op : file_op) (F : list (list blk)) : list (list blk) :=
  match op with
  | Create _ _ _ => F ++ [[]]
  | Write h bid c => alter (<[Z.to_nat bid := c]>) h F
  | Resize h size =>
      match inodes w !! h with
      | Some i => alter (resized zero (Z.to_nat (new_blocks_of (desc (inode_impl i)) size))) h F
      | None => F
      end
  | Read _ _ | SyncHoles _ => F
  end.

Definition op_ok w (op : file_op) : Prop :=
  match op with
  | Create _ _ _ => True
  | Read h bid | Write h bid _ => (h < length (inodes w))%nat /\ 0 <= bid < 2 ^ 32
  | Resize h size => (h < length (inodes w))%nat /\ 0 <= size <= 12 * BLOCK_SIZE /\
      (forall i, inodes w !! h = Some i -> i_type (desc (inode_impl i)) = DirT -> (BLOCK_SIZE | size))
  | SyncHoles h => (h < length (inodes w))%nat
  end.

(** C4: the files of ext2 refine a list of files, each a list of blocks.  The
    blocks of the files are distinct and allocated, and stay so.  A new block
    reads as zeros although nothing was written to the device, whatever its
    former owner left there; a write, and a change of size, change the one file
    and no other; writing the holes back changes nothing that can be read.  An
    operation that fails, of the device or for lack of space, leaves the
    contents of every file as they were, and none panics while files have at most
    12 blocks. *)
Theorem ext2_files_refine sb si w op :
  world_wf sb si w -> op_ok w op ->
  match run_op op w with
  | (Ok r, w') => world_wf sb si w' /\ files zero w' = abs_op w op (files zero w) /\
      (forall h bid, op = Read h bid -> exists f c, files zero w !! h = Some f /\ f !! Z.to_nat bid = Some c /\ r = Some c)
  | (Err e, w') => world_wf sb si w' /\ files zero w' = files zero w
  | (Panic, _) => False
  end.
Proof.
  intros Hw Hok. destruct op as [dir t pm|h bid|h bid c|h size|h]; cbn [run_op abs_op op_ok] in *; unfold sbind, sret.
  - pose proof (create_inode_spec sb si w dir t pm Hw) as H. destruct (create_inode dir t pm w) as [[h|e|] w']; [|by subst|done].
    destruct H as (_ & H1 & H2). split_and!; [done|done|by intros].
  - destruct Hok as [Hh Hb]. destruct (lookup_lt_is_Some_2 _ _ Hh) as [i Hi].
    pose proof (read_block_spec zero sb si w h i bid Hw Hi Hb) as H. destruct (read_block zero h bid w) as [[c|e|] w']; [| |done].
    + destruct H as (Hf & [-> | ->]); (split_and!; [by try apply world_wf_io|done|]); intros h' bid' [= <- <-];
        exists (file_of zero (disk w) i), c; unfold files; by rewrite list_lookup_fmap, Hi.
    + destruct H as [(_ & -> & _) | [-> _]]; [done|]. split; [by apply world_wf_io|done].
  - destruct Hok as [Hh Hb]. destruct (lookup_lt_is_Some_2 _ _ Hh) as [i Hi].
    pose proof (write_block_spec zero sb si w h i bid c Hw Hi Hb) as H. destruct (write_block h bid c w) as [[[]|e|] w']; [| |done].
    + destruct H as (H1 & H2 & _). split_and!; [done|done|by intros].
    + by destruct H as (H1 & H2 & _).
  - destruct Hok as (Hh & Hs & Hdir). destruct (lookup_lt_is_Some_2 _ _ Hh) as [i Hi]. rewrite Hi.
    pose proof (resize_spec zero sb si w h i size Hw Hi Hs (Hdir i Hi)) as H. unfold resize_post in H.
    destruct (resize h size w) as [[[]|e|] w']; [| |done]; [|by destruct H as (H1 & H2 & _)].
    destruct H as (H1 & H2). split_and!; [done|done|by intros].
  - destruct (lookup_lt_is_Some_2 _ _ Hok) as [i Hi]. pose proof (sync_data_holes_spec zero sb si w h i Hw Hi) as H.
    destruct (sync_data_holes zero h w) as [[[]|e|] w']; [|done..]. destruct H as (H1 & H2 & _). split_and!; [done|done|by intros].
Qed.
End Files.

(** A device whose blocks hold the number 7, with no inode in memory *)
Definition demo_world : World Z := MkWorld demo_fs (fun _ => 7) [] [].

Lemma demo_world_wf : world_wf 0 0 demo_world.
Proof. split; cbn; [apply demo_fs_wf|done|apply NoDup_nil_2|]. intros b Hb. by apply not_elem_of_nil in Hb. Qed.

Lemma ext2_files_refine_witness :
  world_wf 0 0 demo_world /\ op_ok demo_world (Create 0 FileT 420) /\ files 0 (run_op 0 (Create 0 FileT 420) demo_world).2 = [[]].
Proof.
  split; [apply demo_world_wf|]. split; [exact I|].
  pose proof (ext2_files_refine 0 0 0 demo_world (Create 0 FileT 420) demo_world_wf I) as H.
  destruct (run_op 0 (Create 0 FileT 420) demo_world) as [[r|e|] w'] eqn:E; [| |destruct H].
  - destruct H as (_ & H & _). exact H.
  - apply (f_equal (fun p => match p.1 with Ok _ => true | _ => false end)) in E. vm_compute in E. discriminate E.
Defined.

(** * Inodes on the device *)

Section Persist.
Context {blk : Type} (w : World blk) (n : Z) (g : BlockGroup).
Notation ipg := (inodes_per_group (w_fs w)).
Notation group := (Z.to_nat ((n - 1) / ipg)).
Notation idx := ((n - 1) mod ipg).

(** An inode number in use of a group whose table has an entry for it *)
Record in_table : Prop := {
  it_n : 0 < n < 2 ^ 32;
  it_ipg : 0 < ipg;
  it_group : block_groups (w_fs w) !! group = Some g;
  it_entry : (Z.to_nat idx < length (raw_inodes g))%nat;
  it_used : bitset (inode_bitmap (metadata g)) !! Z.to_nat idx = Some true;
}.
Hypothesis Hin : in_table.

Definition with_entry (d : InodeDesc) : BlockGroup :=
  MkBlockGroup (metadata g) (inode_cache g) (<[Z.to_nat idx := raw_inode d]> (raw_inodes g)).

Lemma number_parts :
  block_group_of_ino (w_fs w) n = Ok group /\ inode_idx (w_fs w) n = Ok idx /\
  wrap 32 (Z.of_nat group) * ipg + idx + 1 = n.
Proof using Hin.
  destruct Hin as [Hn Hi Hg _ _]. pose proof (Z.div_pos (n - 1) ipg ltac:(lia) Hi) as Hpos. apply lookup_lt_Some in Hg.
  pose proof (Z.div_mod (n - 1) ipg ltac:(lia)) as Hd. pose proof (Z.mod_pos_bound (n - 1) ipg Hi) as Hm.
  unfold block_group_of_ino, inode_idx, div_w. rewrite usub_ok by lia. cbn [obind]. rewrite (proj2 (Z.eqb_neq _ 0)) by lia.
  cbn [obind]. rewrite (proj2 (Z.leb_gt _ _)) by lia. split_and!; [done..|]. rewrite Z2Nat.id, Z.mod_small by nia. nia.
Qed.

Lemma sync_inode_run d : sync_inode n d (w_fs w) = (Ok tt, set_group group (with_entry d) (w_fs w)).
Proof using Hin.
  destruct number_parts as (Hg & Hi & _). unfold sync_inode. rewrite (sbind_ok sget _ _ _ _ eq_refl), Hg, Hi, !(slift_ok _ _ _ _ eq_refl).
  apply (on_group_ok _ _ _ g); [apply Hin|]. rewrite (proj2 (Nat.ltb_lt _ _)) by apply Hin. done.
Qed.

Lemma lookup_uncached raw d k :
  inode_cache g !! idx = None -> raw_inodes g !! Z.to_nat idx = Some raw -> inode_desc_try_from raw = Ok d -> blocks_count d = Ok k ->
  exists w', lookup_inode n w = (Ok (length (inodes w)), w') /\
    inodes w' = inodes w ++ [MkInode n group (MkInodeImpl d false (replicate (Z.to_nat k) false) false)].
Proof using Hin.
  intros Hc Hr Hd Hk. destruct number_parts as (Hg & Hi & Hn). pose proof Hin as [Hb Hp Hgr _ Hu].
  pose proof (Z.mod_pos_bound (n - 1) ipg Hp) as Hm. pose proof (Z.mod_pos_bound (Z.of_nat group) (2 ^ 32) ltac:(lia)) as Hw32.
  unfold lookup_inode. rewrite (sbind_ok sget _ _ _ _ eq_refl), Hg, Hi, !(slift_ok _ _ _ _ eq_refl).
  unfold bg_lookup_inode. rewrite (sbind_ok sget _ _ _ _ eq_refl), Hgr. cbn [ounwrap]. rewrite (slift_ok _ _ _ _ eq_refl).
  unfold is_allocated. rewrite Hu. cbn [ounwrap]. rewrite (slift_ok _ _ _ _ eq_refl). cbn [negb]. rewrite Hc, Hr. cbn [ounwrap].
  rewrite (slift_ok _ _ _ _ eq_refl), Hd, (slift_ok _ _ _ _ eq_refl). unfold mul_w, add_w. rewrite (proj2 (Z.ltb_lt _ _)), (slift_ok _ _ _ _ eq_refl) by nia.
  rewrite (proj2 (Z.ltb_lt _ _)), (slift_ok _ _ _ _ eq_refl), (proj2 (Z.ltb_lt _ _)), (slift_ok _ _ _ _ eq_refl) by lia.
  unfold new_inode. rewrite Hk. cbn. unfold on_fs, insert_cache, on_group, is_allocated, sbind, slift, sget. cbn. rewrite Hgr. cbn. rewrite Hu. cbn.
  eexists. split; [reflexivity|]. cbn. do 3 f_equal. lia.
Qed.
End Persist.

(** C39: an inode that is written to the inode table and loaded again later.
    [sync_inode] of a number in use, whose group has an entry for it, sets that
    entry of the table and no other.  When the number is then looked up without
    an object in the cache, the new object has this number, is clean, and its
    descriptor is the one that was written, but for the fractions of seconds of
    its times and what its size has above 32 bits. *)
Theorem ext2_inode_persists {blk} (w : World blk) n g d k :
  in_table w n g -> inode_cache g !! ((n - 1) mod inodes_per_group (w_fs w)) = None ->
  desc_ok d -> blocks_count (persisted d) = Ok k ->
  let group := Z.to_nat ((n - 1) / inodes_per_group (w_fs w)) in
  let fs' := set_group group (with_entry w n g d) (w_fs w) in
  sync_inode n d (w_fs w) = (Ok tt, fs') /\
  (forall j t, raw_inodes <$> block_groups (w_fs w) !! j = Some t ->
     raw_inodes <$> block_groups fs' !! j =
     Some (if decide (j = group) then <[Z.to_nat ((n - 1) mod inodes_per_group (w_fs w)) := raw_inode d]> t else t)) /\
  exists h w' i, lookup_inode n (MkWorld fs' (disk w) (io w) (inodes w)) = (Ok h, w') /\
    inodes w' !! h = Some i /\ ino i = n /\ desc (inode_impl i) = persisted d /\ is_dirty (inode_impl i) = false.
Proof.
  intros Hin Hc Hd Hk group fs'. pose proof Hin as [Hn Hi Hg He Hu]. fold group in Hg.
  pose proof (lookup_lt_Some _ _ _ Hg) as Hlt. split; [by apply sync_inode_run|]. split.
  { intros j t Ht. cbn. destruct (decide (j = group)) as [->|Hne]; [|by rewrite list_lookup_insert_ne].
    rewrite list_lookup_insert_eq by done. rewrite Hg in Ht. injection Ht as <-. done. }
  set (w1 := MkWorld fs' (disk w) (io w) (inodes w)).
  assert (Hg1 : block_groups fs' !! group = Some (with_entry w n g d)) by (by apply list_lookup_insert_eq).
  assert (Hin1 : in_table w1 n (with_entry w n g d)).
  { constructor; [done|done|done| |done]. cbn. by rewrite length_insert. }
  destruct (lookup_uncached w1 n _ Hin1 (raw_inode d) (persisted d) k) as (w2 & Hl & Hi2); [done| |by apply inode_persisted|done|].
  { cbn. by apply list_lookup_insert_eq. }
  eexists _, w2, _. split; [exact Hl|]. split; [rewrite Hi2; by apply list_lookup_middle|done].
Qed.

(** * An inode number that is used again *)

Definition demo_table : list RawInode := replicate 8 (raw_inode (inode_desc_new FileT 0)).
Definition table_world : World Z :=
  let with_table g := MkBlockGroup (metadata g) (inode_cache g) demo_table in
  MkWorld (MkExt2 (demo_sb 13 14) (with_table <$> [demo_group 7 3 5 6 1; demo_group 0 0 8 8 0]) 8 8) (fun _ => 7) [] [].

Lemma ext2_inode_persists_witness :
  exists g h w' i, block_groups (w_fs table_world) !! 0%nat = Some g /\
    lookup_inode 2 (MkWorld (set_group 0 (with_entry table_world 2 g (inode_desc_new FileT 420)) (w_fs table_world)) (fun _ => 7) [] []) = (Ok h, w') /\
    inodes w' !! h = Some i /\ ino i = 2 /\ desc (inode_impl i) = inode_desc_new FileT 420.
Proof.
  destruct (block_groups (w_fs table_world) !! 0%nat) as [g|] eqn:Hg; [|discriminate Hg]. exists g.
  destruct (ext2_inode_persists table_world 2 g (inode_desc_new FileT 420) 0) as (_ & _ & h & w' & i & H1 & H2 & H3 & H4 & _).
  - injection Hg as <-. constructor; [lia|cbn; lia|reflexivity|vm_compute; lia|reflexivity].
  - injection Hg as <-. reflexivity.
  - constructor; [reflexivity|reflexivity|split; reflexivity || (cbn; lia)|split; reflexivity || (cbn; lia)|].
    exists 0. split; [reflexivity|]. unfold u32. lia.
  - reflexivity.
  - exists h, w', i. split; [reflexivity|]. split; [exact H1|]. split; [exact H2|]. split; [exact H3|exact H4].
Defined.

(** A file is removed and written back while a process still has it open; another
    file is created and written back; the process adds a block to the removed
    file, which is written back once more. *)
Definition reuse_run : stM (World Z) Errno (nat * nat) :=
  let! a := create_inode 0 FileT 420 in
  dec_hard_links a ;! sync_metadata a ;!
  let! b := create_inode 0 FileT 384 in
  sync_metadata b ;!
  resize a BLOCK_SIZE ;! sync_metadata a ;!
  sret (a, b).

(** The entry of the inode table of an inode object *)
Definition table_entry (w : World Z) (h : nat) : option RawInode :=
  i ← inodes w !! h; g ← block_groups (w_fs w) !! block_group_idx i; raw_inodes g !! Z.to_nat ((ino i - 1) mod inodes_per_group (w_fs w)).

(** An inode that was freed is still written back to the inode table under
    its old number.  [is_freed] keeps the number from being freed twice, but not
    the entry from being written: after the run above, the new file has the
    number of the removed one, one link, and is clean, so that it will not be
    written again; its entry in the table is the descriptor of the removed file,
    with no links. *)
Lemma ext2_freed_inode_overwrites :
  exists w a b ia ib, reuse_run table_world = (Ok (a, b), w) /\ a <> b /\
    inodes w !! a = Some ia /\ inodes w !! b = Some ib /\ ino ia = ino ib /\
    hard_links (desc (inode_impl ib)) = 1 /\ is_dirty (inode_impl ib) = false /\ is_freed (inode_impl ia) = true /\
    table_entry w b = Some (raw_inode (desc (inode_impl ia))) /\
    (ri_hard_links <$> table_entry w b) = Some 0.
Proof.
  destruct (reuse_run table_world) as [r w] eqn:E.
  assert (Hr : r = Ok (0%nat, 1%nat)) by (apply (f_equal fst) in E; vm_compute in E; by rewrite <- E).
  assert (Hw : w = (reuse_run table_world).2) by (by rewrite E). subst r. clear E. vm_compute in Hw. subst w.
  eexists _, 0%nat, 1%nat, _, _. split; [reflexivity|]. split; [done|]. split; [reflexivity|]. split; [reflexivity|].
  split_and!; vm_compute; reflexivity.
Qed.
