(* ===== verification/Ext2Dir.v ===== *)
(** The directories of ext2 (fs/ext2/dir.rs and the struct [Inner] of
    fs/ext2/inode.rs under kernel/aster-nix/src): directory entries as records
    in the bytes of the directory, read and changed through its page cache.

    The page cache of a directory is an interface: bytes that can be read and
    written, where an access may fail and may change the cache.  A loop over
    the entries has as fuel one more than the size of the directory.  Running
    out of it, as a record of length zero makes it do, is [Panic] here and a
    loop that does not end in the code. *)

From S2P Require Import Prelude Perms Pod AlignExt PathLookup RamFs Ext2Raw Ext2Alloc Ext2Inode.

Notation MAX_FNAME_LEN := 255%nat (only parsing).

(** * Entries *)

(** [DirEntryHeader], and its bytes *)
Record DirEntryHeader : Type := MkHeader { h_ino : Z; h_record_len : Z; h_name_len : Z; h_file_type : Z }.
Notation HEADER_LEN := 8%nat (only parsing).

Definition header_bytes (h : DirEntryHeader) : list Z :=
  le_bytes 4 (h_ino h) ++ le_bytes 2 (h_record_len h) ++ le_bytes 1 (h_name_len h) ++ le_bytes 1 (h_file_type h).
Definition header_of (bs : list Z) : DirEntryHeader :=
  MkHeader (le_val (field 0 4 bs)) (le_val (field 4 2 bs)) (le_val (field 6 1 bs)) (le_val (field 7 1 bs)).

Record DirEntry : Type := MkDirEntry { header : DirEntryHeader; e_name : path }.

Inductive DirEntryFileType : Type := EUnknown | EFile | EDir | EChar | EBlock | EFifo | ESocket | ESymlink.
#[export] Instance entry_type_code : TryFromInt DirEntryFileType := {|
  constructors := [EUnknown; EFile; EDir; EChar; EBlock; EFifo; ESocket; ESymlink];
  discriminant t :=
    match t with
    | EUnknown => 0 | EFile => 1 | EDir => 2 | EChar => 3 | EBlock => 4 | EFifo => 5 | ESocket => 6 | ESymlink => 7
    end;
|}.

Definition entry_type_of (t : FileType) : DirEntryFileType :=
  match t with
  | Fifo => EFifo | Char => EChar | DirT => EDir | Block => EBlock | FileT => EFile | Symlink => ESymlink | SocketT => ESocket
  end.
Definition file_type_of (t : DirEntryFileType) : outcome Errno FileType :=
  match t with
  | EFifo => Ok Fifo | EChar => Ok Char | EDir => Ok DirT | EBlock => Ok Block | EFile => Ok FileT
  | ESymlink => Ok Symlink | ESocket => Ok SocketT | EUnknown => Panic
  end.

(** [(header_len() + len).align_up(4)] *)
Definition padded_len (len : nat) : outcome Errno Z :=
  let? n := uadd 8 (Z.of_nat len) in align_up 64 n 4.

Definition dir_entry_new (ino : Z) (name : path) (t : FileType) : outcome Errno DirEntry :=
  let? _ := oassert (length name <=? MAX_FNAME_LEN)%nat in
  let? record_len := padded_len (length name) in
  Ok (MkDirEntry (MkHeader ino (wrap 16 record_len) (wrap 8 (Z.of_nat (length name))) (discriminant (entry_type_of t)))
        (cstr256_from name)).

(** [DirEntry::ino], [record_len], [name] and [set_ino] *)
Notation e_ino e := (h_ino (header e)).
Notation record_len e := (h_record_len (header e)).
Notation name_of e := (as_str (e_name e)).
Notation set_ino n e :=
  (MkDirEntry (MkHeader n (record_len e) (h_name_len (header e)) (h_file_type (header e))) (e_name e)) (only parsing).

Definition type_ (e : DirEntry) : outcome Errno FileType :=
  let? t := ounwrap (try_from_int (h_file_type (header e))) in file_type_of t.

Definition actual_len (e : DirEntry) : outcome Errno Z := padded_len (length (e_name e)).

Definition set_record_len (n : Z) (e : DirEntry) : outcome Errno DirEntry :=
  let? a := actual_len e in
  let? _ := oassert (a <=? n) in
  Ok (MkDirEntry (MkHeader (e_ino e) (wrap 16 n) (h_name_len (header e)) (h_file_type (header e))) (e_name e)).

Definition gap_len (e : DirEntry) : outcome Errno Z := let? a := actual_len e in usub (record_len e) a.

(** * The page cache of a directory *)

Class PageCache (P : Type) : Type := {
  pc_size : P -> Z;
  pc_read : Z -> nat -> stM P Errno (list Z);
  pc_write : Z -> list Z -> stM P Errno unit;
  pc_resize : Z -> stM P Errno unit;
}.

Section Dir.
Context {P : Type} `{!PageCache P}.
Notation D := (stM P Errno).
Notation fuel p := (S (Z.to_nat (pc_size p))).

(** * Readers: an offset into the cache *)

Definition read_entry (offset : Z) : D (DirEntry * Z) :=
  let! bs := pc_read offset HEADER_LEN in
  let header := header_of bs in
  if h_ino header =? 0 then serr ENOENT
  else
    let! at_name := slift (uadd offset 8) in
    let! name := pc_read at_name (Z.to_nat (h_name_len header)) in
    let entry := MkDirEntry header (cstr256_from name) in
    let! offset := slift (uadd offset (record_len entry)) in
    sret (entry, offset).

(** [Iterator::next]: every error ends the iteration. *)
Definition next (offset : Z) : D (option (DirEntry * Z)) := fun p =>
  match read_entry offset p with
  | (Ok r, p') => (Ok (Some r), p')
  | (Err _, p') => (Ok None, p')
  | (Panic, p') => (Panic, p')
  end.

(** [Iterator::find] and [Iterator::count] on a reader, and [find] on
    two readers in step *)
Fixpoint find_entry (n : nat) (pred : DirEntry -> outcome Errno bool) (offset : Z) : D (option (Z * DirEntry)) :=
  match n with
  | O => spanic
  | S n' =>
      let! r := next offset in
      match r with
      | None => sret None
      | Some (e, offset') =>
          let! b := slift (pred e) in
          if (b : bool) then sret (Some (offset, e)) else find_entry n' pred offset'
      end
  end.

Fixpoint count_entries (n : nat) (offset : Z) : D Z :=
  match n with
  | O => spanic
  | S n' =>
      let! r := next offset in
      match r with None => sret 0 | Some (_, offset') => let! k := count_entries n' offset' in sret (k + 1) end
  end.

Fixpoint find_zip (n : nat) (name : path) (offset1 offset2 : Z) : D (option ((Z * DirEntry) * (Z * DirEntry))) :=
  match n with
  | O => spanic
  | S n' =>
      let! r1 := next offset1 in
      match r1 with
      | None => sret None
      | Some (e1, offset1') =>
          let! r2 := next offset2 in
          match r2 with
          | None => sret None
          | Some (e2, offset2') =>
              let! s := slift (name_of e2) in
              if bool_decide (s = name) then sret (Some ((offset1, e1), (offset2, e2))) else find_zip n' name offset1' offset2'
          end
      end
  end.

Definition has_name (name : path) (e : DirEntry) : outcome Errno bool := let? s := name_of e in Ok (bool_decide (s = name)).

(** * Writers *)

Definition write_entry (e : DirEntry) (offset : Z) : D Z :=
  pc_write offset (header_bytes (header e)) ;!
  let! at_name := slift (uadd offset 8) in
  let! s := slift (name_of e) in
  pc_write at_name s ;!
  slift (uadd offset (record_len e)).

(** [DirEntryWriter::append_entry] *)
Definition append_at (new_entry : DirEntry) (offset : Z) : D unit :=
  let! p := sget in
  let! r := find_entry (fuel p) (fun e => let? g := gap_len e in Ok (record_len new_entry <=? g)) offset in
  match r with
  | None =>
      let! p := sget in
      let old_size := pc_size p in
      let! new_size := slift (uadd old_size BLOCK_SIZE) in
      pc_resize new_size ;!
      let! new_entry := slift (set_record_len BLOCK_SIZE new_entry) in
      write_entry new_entry old_size ;! sret tt
  | Some (offset, entry) =>
      let! g := slift (gap_len entry) in
      let! new_entry := slift (set_record_len g new_entry) in
      let! a := slift (actual_len entry) in
      let! entry := slift (set_record_len a entry) in
      let! offset := write_entry entry offset in
      write_entry new_entry offset ;! sret tt
  end.

(** [DirEntryWriter::remove_entry] *)
Definition remove_named (name : path) : D DirEntry :=
  let! self_entry := slift (dir_entry_new 0 DOT DirT) in
  let! p := sget in
  let! r := find_zip (fuel p) name 0 (record_len self_entry) in
  match r with
  | None => serr ENOENT
  | Some ((pre_offset, pre_entry), (offset, entry)) =>
      let! here := next offset in
      (if bool_decide (here = None) && negb (pre_offset / BLOCK_SIZE =? offset / BLOCK_SIZE) then
         let! new_size := slift (align_up 64 pre_offset BLOCK_SIZE) in
         pc_resize new_size ;!
         let! len := slift (usub new_size pre_offset) in
         let! pre_entry := slift (set_record_len len pre_entry) in
         write_entry pre_entry pre_offset
       else
         let! len := slift (uadd (record_len pre_entry) (record_len entry)) in
         let! pre_entry := slift (set_record_len len pre_entry) in
         write_entry pre_entry pre_offset) ;!
      sret entry
  end.

(** [DirEntryWriter::rename_entry] *)
Definition rename_at (old_name new_name : path) (offset : Z) : D unit :=
  let! p := sget in
  let! r := find_entry (fuel p) (has_name old_name) offset in
  let! oe := slift (ok_or r ENOENT) in
  let! t := slift (type_ oe.2) in
  let! new_entry := slift (dir_entry_new (e_ino oe.2) new_name t) in
  if record_len new_entry <=? record_len oe.2 then
    let! new_entry := slift (set_record_len (record_len oe.2) new_entry) in
    write_entry new_entry oe.1 ;! sret tt
  else
    remove_named old_name ;!
    append_at new_entry 0.

(** [Inner::get_entry] and [Inner::entry_count] *)
Definition get_entry (name : path) (offset : Z) : D (option (Z * DirEntry)) :=
  let! p := sget in find_entry (fuel p) (has_name name) offset.
Definition entry_count : D Z := let! p := sget in count_entries (fuel p) 0.

(** [Inner::set_parent_ino] *)
Definition set_parent_ino (parent_ino : Z) : D unit :=
  let! r := get_entry DOTDOT 0 in
  let! oe := slift (ounwrap r) in
  write_entry (set_ino parent_ino oe.2) oe.1 ;! sret tt.

(** * [Inner]: the page cache with the inode of the directory *)

Section Inner.
Context {blk : Type}.
Notation I := (stM (World blk * P) Errno).

Definition on_inode {A} (m : stM (World blk) Errno A) : I A := fun s => let '(r, w) := m s.1 in (r, (w, s.2)).
Definition on_cache {A} (m : D A) : I A := fun s => let '(r, p) := m s.2 in (r, (s.1, p)).

(** [file_size()] and [page_cache.pages().size()], which the operations compare *)
Definition sizes (h : nat) : I (Z * Z) :=
  let! i := on_inode (get_inode h) in
  let! s := sget in
  sret (i_size (desc (inode_impl i)), pc_size s.2).

Definition append_entry (h : nat) (e : DirEntry) (offset : Z) : I unit :=
  let! t := slift (type_ e) in
  let! name := slift (name_of e) in
  on_cache (append_at e offset) ;!
  let! z := sizes h in
  (if z.1 <? z.2 then on_inode (resize h z.2) else sret tt) ;!
  if bool_decide (t = DirT) && negb (bool_decide (name = DOTDOT)) then on_inode (inc_hard_links h) else sret tt.

Definition remove_entry (h : nat) (name : path) : I unit :=
  let! e := on_cache (remove_named name) in
  let! t := slift (type_ e) in
  let! z := sizes h in
  (if z.2 <? z.1 then on_inode (resize h z.2) else sret tt) ;!
  if bool_decide (t = DirT) then on_inode (dec_hard_links h) else sret tt.

Definition rename_entry (h : nat) (old_name new_name : path) (offset : Z) : I unit :=
  on_cache (rename_at old_name new_name offset) ;!
  let! z := sizes h in
  if negb (z.2 =? z.1) then on_inode (resize h z.2) else sret tt.

Definition init_dir (h : nat) (self_ino parent_ino : Z) : I unit :=
  let! dot := slift (dir_entry_new self_ino DOT DirT) in
  append_entry h dot 0 ;!
  let! dotdot := slift (dir_entry_new parent_ino DOTDOT DirT) in
  append_entry h dotdot 0.
End Inner.

End Dir.
