(* ===== verification/Ext2DirFacts.v ===== *)
(** Directories of ext2 as lists of entries: the bytes of a directory are the
    records of its entries one after the other, and readers and writers
    search, split and merge these records. *)

From S2P Require Import Prelude Perms Pod AlignExt PathLookup RamFs Ext2Raw Ext2Alloc Ext2AllocFacts Ext2Inode Ext2InodeFacts Ext2Dir.

(** * The page cache *)

(** What directories rely on.  While the device answers, a cache holds bytes:
    accesses within its size read and write them, others are refused, and new
    bytes are zero.  The size is a number of whole pages. *)
Class PageCacheLaws (P : Type) `{!PageCache P} : Type := {
  pc_ok : P -> Prop;
  pc_bytes : P -> list Z;
  pc_size_ok p : pc_ok p -> pc_size p = Z.of_nat (length (pc_bytes p)) /\ is_usize (pc_size p);
  pc_read_in off n p : pc_ok p -> 0 <= off -> off + Z.of_nat n <= pc_size p ->
    exists p', pc_read off n p = (Ok (field (Z.to_nat off) n (pc_bytes p)), p') /\ pc_ok p' /\ pc_bytes p' = pc_bytes p;
  pc_read_out off n p : pc_ok p -> pc_size p < off + Z.of_nat n -> pc_read off n p = (Err EINVAL, p);
  pc_write_in off bs p : pc_ok p -> 0 <= off -> off + Z.of_nat (length bs) <= pc_size p ->
    exists p', pc_write off bs p = (Ok tt, p') /\ pc_ok p' /\
      pc_bytes p' = take (Z.to_nat off) (pc_bytes p) ++ bs ++ drop (Z.to_nat off + length bs) (pc_bytes p);
  pc_grow n p : pc_ok p -> is_usize n -> (PAGE_SIZE | n) -> pc_size p <= n ->
    exists p', pc_resize n p = (Ok tt, p') /\ pc_ok p' /\
      pc_bytes p' = pc_bytes p ++ replicate (Z.to_nat (n - pc_size p)) 0;
}.

(** * Records *)

Lemma until_nul_idem (s : path) : until_nul s = s -> forall n, until_nul (take n s) = take n s.
Proof.
  induction s as [|c s IH]; intros H [|n]; try done. cbn in *. destruct (c =? 0); [done|]. injection H as H. f_equal. by apply IH.
Qed.

(** Names that a record can hold *)
Record name_ok (s : path) : Prop := {
  nm_len : (length s <= 255)%nat;
  nm_nul : until_nul s = s;
  nm_utf8 : utf8_valid s = true;
}.

Lemma name_cstr_id s : name_ok s -> cstr256_from s = s.
Proof. intros [Hl Hn _]. unfold cstr256_from. rewrite Hn. apply take_ge. lia. Qed.
Lemma name_str_ok s : name_ok s -> as_str s = Ok s.
Proof. intros [_ _ Hu]. unfold as_str. by rewrite Hu. Qed.

(** The length of the shortest record for a name *)
Definition min_len (s : path) : Z := (8 + Z.of_nat (length s) + 3) / 4 * 4.

Lemma min_len_range s : (length s <= 255)%nat -> 8 + Z.of_nat (length s) <= min_len s <= 264.
Proof. intros H. unfold min_len. pose proof (Z.div_mod (8 + Z.of_nat (length s) + 3) 4). pose proof (Z.mod_pos_bound (8 + Z.of_nat (length s) + 3) 4). lia. Qed.

Lemma padded_len_ok s : (length s <= 255)%nat -> padded_len (length s) = Ok (min_len s).
Proof.
  intros H. unfold padded_len, min_len. rewrite uadd_ok by (unfold usize_max; lia). cbn [obind].
  change 4 with (2 ^ 2) at 1. rewrite align_up_eq; [done|lia..].
Qed.

(** The record of an entry: its header, its name, and bytes that do not matter *)
Record entry_ok (e : DirEntry) : Prop := {
  eo_ino : 0 < e_ino e < 2 ^ 32;
  eo_name : name_ok (e_name e);
  eo_len : h_name_len (header e) = Z.of_nat (length (e_name e));
  eo_type : exists t, h_file_type (header e) = discriminant (entry_type_of t);
  eo_rec : min_len (e_name e) <= record_len e < 2 ^ 16;
}.
Definition rec_ok (e : DirEntry) (bs : list Z) : Prop :=
  entry_ok e /\ Z.of_nat (length bs) = record_len e /\ exists junk, bs = header_bytes (header e) ++ e_name e ++ junk.

Lemma header_bytes_length h : length (header_bytes h) = 8%nat.
Proof. done. Qed.

Lemma header_roundtrip e rest : entry_ok e -> header_of (header_bytes (header e) ++ rest) = header e.
Proof.
  intros [Hi Hn Hl [t Ht] Hr]. destruct e as [[i r n ft] s]. cbn [header e_name h_ino h_record_len h_name_len h_file_type] in *.
  unfold header_of, header_bytes. cbn [h_ino h_record_len h_name_len h_file_type].
  pose proof (nm_len _ Hn). pose proof (min_len_range s ltac:(lia)).
  rewrite <- !app_assoc.
  set (i4 := le_bytes 4 i). set (r2 := le_bytes 2 r). set (n1 := le_bytes 1 n). set (t1 := le_bytes 1 ft).
  replace (field 0 4 _) with i4 by (symmetry; exact (field_app 0 [] i4 _ 4 eq_refl eq_refl)).
  replace (field 4 2 _) with r2 by (symmetry; exact (field_app 4 i4 r2 _ 2 eq_refl eq_refl)).
  replace (field 6 1 _) with n1 by (symmetry; rewrite app_assoc; exact (field_app 6 (i4 ++ r2) n1 _ 1 eq_refl eq_refl)).
  replace (field 7 1 _) with t1 by (symmetry; rewrite 2!app_assoc; exact (field_app 7 ((i4 ++ r2) ++ n1) t1 _ 1 eq_refl eq_refl)).
  unfold i4, r2, n1, t1.
  rewrite !le_val_bytes; [done| |change (256 ^ Z.of_nat 1) with 256; lia|change (256 ^ Z.of_nat 2) with (2 ^ 16); lia|change (256 ^ Z.of_nat 4) with (2 ^ 32); lia].
  rewrite Ht. destruct t; cbn; lia.
Qed.

Lemma type_ok e t : h_file_type (header e) = discriminant (entry_type_of t) -> type_ e = Ok t.
Proof. unfold type_. intros ->. by destruct t. Qed.

Lemma actual_len_ok e : entry_ok e -> actual_len e = Ok (min_len (e_name e)).
Proof. intros He. unfold actual_len. apply padded_len_ok. apply He. Qed.

Lemma gap_len_ok e : entry_ok e -> gap_len e = Ok (record_len e - min_len (e_name e)).
Proof. intros He. unfold gap_len. rewrite actual_len_ok by done. cbn [obind]. apply usub_ok. apply He. Qed.

(** The entry with another record length *)
Definition with_len (n : Z) (e : DirEntry) : DirEntry :=
  MkDirEntry (MkHeader (e_ino e) n (h_name_len (header e)) (h_file_type (header e))) (e_name e).

Lemma entry_ok_len n e : entry_ok e -> min_len (e_name e) <= n < 2 ^ 16 -> entry_ok (with_len n e).
Proof. intros [H1 H2 H3 H4 H5] Hn. by split. Qed.

Lemma set_record_len_ok n e : entry_ok e -> min_len (e_name e) <= n < 2 ^ 16 -> set_record_len n e = Ok (with_len n e).
Proof.
  intros He Hn. unfold set_record_len. rewrite actual_len_ok by done. cbn [obind]. rewrite (proj2 (Z.leb_le _ _)) by lia. cbn [oassert obind].
  pose proof (min_len_range (e_name e) (nm_len _ (eo_name _ He))). rewrite Z.mod_small by lia. done.
Qed.

(** [DirEntry::new] *)
Definition new_entry (ino : Z) (s : path) (t : FileType) : DirEntry :=
  MkDirEntry (MkHeader ino (min_len s) (Z.of_nat (length s)) (discriminant (entry_type_of t))) s.

Lemma dir_entry_new_ok ino s t : name_ok s -> dir_entry_new ino s t = Ok (new_entry ino s t).
Proof.
  intros Hs. pose proof (nm_len _ Hs) as Hl. pose proof (min_len_range s Hl). unfold dir_entry_new.
  rewrite (proj2 (Nat.leb_le _ _) Hl). cbn [oassert obind]. rewrite padded_len_ok by done. cbn [obind].
  rewrite !Z.mod_small by lia. by rewrite name_cstr_id.
Qed.
Lemma new_entry_ok ino s t : name_ok s -> 0 < ino < 2 ^ 32 -> entry_ok (new_entry ino s t).
Proof. intros Hs Hi. pose proof (min_len_range s (nm_len _ Hs)). split; cbn; [done|done|done|by exists t|lia]. Qed.

(** * The bytes of a directory *)

Fixpoint dir_rep (es : list DirEntry) (bs : list Z) : Prop :=
  match es with
  | [] => bs = []
  | e :: es' => exists b rest, bs = b ++ rest /\ rec_ok e b /\ dir_rep es' rest
  end.

Lemma dir_rep_app es1 es2 bs : dir_rep (es1 ++ es2) bs <-> exists b1 b2, bs = b1 ++ b2 /\ dir_rep es1 b1 /\ dir_rep es2 b2.
Proof.
  revert bs. induction es1 as [|e es1 IH]; intros bs; cbn.
  - split; [intros H; by exists [], bs|by intros (b1 & b2 & -> & -> & H)].
  - split.
    + intros (b & rest & -> & Hb & Hr). apply IH in Hr as (b1 & b2 & -> & H1 & H2). exists (b ++ b1), b2. split; [by rewrite app_assoc|].
      split; [by exists b, b1|done].
    + intros (b1 & b2 & -> & (b & rest & -> & Hb & Hr) & H2). exists b, (rest ++ b2). split; [by rewrite app_assoc|]. split; [done|].
      apply IH. by exists rest, b2.
Qed.

Lemma dir_rep_single e bs : dir_rep [e] bs <-> rec_ok e bs.
Proof.
  cbn. split; [intros (b & r & -> & Hb & ->); by rewrite app_nil_r|]. intros H. exists bs, []. by rewrite app_nil_r.
Qed.

Lemma dir_rep_ok es bs : dir_rep es bs -> Forall entry_ok es.
Proof.
  revert bs. induction es as [|e es IH]; intros bs; [done|]. intros (b & r & -> & Hb & Hr). constructor; [apply Hb|by eapply IH].
Qed.

Lemma rec_len e bs : rec_ok e bs -> 8 + Z.of_nat (length (e_name e)) <= Z.of_nat (length bs).
Proof. intros (He & -> & _). pose proof (min_len_range _ (nm_len _ (eo_name _ He))). pose proof (eo_rec _ He). lia. Qed.

Lemma dir_rep_length es bs : dir_rep es bs -> (8 * length es <= length bs)%nat.
Proof.
  revert bs. induction es as [|e es IH]; intros bs; [cbn; lia|]. intros (b & r & -> & Hb & Hr). pose proof (rec_len _ _ Hb). apply IH in Hr.
  rewrite length_app. cbn [length]. lia.
Qed.

(** The bytes determine the entries. *)
Lemma rec_ok_inj e e' b b' r r' : rec_ok e b -> rec_ok e' b' -> b ++ r = b' ++ r' -> e = e' /\ b = b' /\ r = r'.
Proof.
  intros (He & Hl & j & ->) (He' & Hl' & j' & ->) Heq. assert (Hh : header e = header e').
  { rewrite <- (header_roundtrip e (e_name e ++ j ++ r) He), <- (header_roundtrip e' (e_name e' ++ j' ++ r') He'). f_equal. by rewrite !app_assoc in *. }
  apply app_inj_1 in Heq as [Hb ->]; [|apply Nat2Z.inj; rewrite Hl, Hl'; by rewrite Hh]. split; [|done].
  rewrite Hh in Hb. apply app_inv_head in Hb. apply app_inj_1 in Hb as [Hn _].
  - destruct e, e'; cbn in *; congruence.
  - apply Nat2Z.inj. rewrite <- (eo_len _ He), <- (eo_len _ He'). by rewrite Hh.
Qed.

Lemma dir_rep_inj es es' bs : dir_rep es bs -> dir_rep es' bs -> es = es'.
Proof.
  assert (Hnil : forall e l, dir_rep (e :: l) [] -> False).
  { intros e l (b & r & Hb & Hrec & _). symmetry in Hb. apply app_eq_nil in Hb as [-> _]. apply rec_len in Hrec. cbn in Hrec. lia. }
  revert es' bs. induction es as [|e es IH]; intros [|e' es'] bs Hr Hr'; [done|cbn in Hr; subst; by apply Hnil in Hr'|cbn in Hr'; subst; by apply Hnil in Hr|].
  destruct Hr as (b & r & -> & Hb & Hr). destruct Hr' as (b' & r' & Heq & Hb' & Hr'). destruct (rec_ok_inj _ _ _ _ _ _ Hb Hb' Heq) as (-> & _ & ->).
  f_equal. by eapply IH.
Qed.

(** The length of the records *)
Definition total (es : list DirEntry) : Z := foldr (fun e n => record_len e + n) 0 es.
Lemma total_app l k : total (l ++ k) = total l + total k.
Proof. unfold total. induction l as [|e l IH]; cbn [app foldr]; [done|]. rewrite IH. lia. Qed.
Lemma dir_rep_total es bs : dir_rep es bs -> Z.of_nat (length bs) = total es.
Proof.
  revert bs. induction es as [|e es IH]; intros bs; [by intros ->|]. intros (b & r & -> & (_ & Hl & _) & Hr). by rewrite length_app, Nat2Z.inj_add, Hl, (IH r Hr).
Qed.

Lemma names_inj (l : list DirEntry) x y : NoDup (e_name <$> l) -> x ∈ l -> y ∈ l -> e_name x = e_name y -> x = y.
Proof.
  intros Hnd [i Hi]%list_elem_of_lookup_1 [j Hj]%list_elem_of_lookup_1 Hxy.
  assert (i = j) as ->; [|congruence]. eapply (NoDup_lookup _ i j (e_name x) Hnd); rewrite list_lookup_fmap, ?Hi, ?Hj; cbn; congruence.
Qed.

(** * Readers *)

Section Dir.
Context {P : Type} `{!PageCache P, !PageCacheLaws P}.
Implicit Types (p : P) (e : DirEntry) (es : list DirEntry) (bs : list Z).
Notation len bs := (Z.of_nat (length bs)).

Definition holds p bs : Prop := pc_ok p /\ pc_bytes p = bs.

Lemma holds_size p bs : holds p bs -> pc_size p = len bs /\ len bs <= usize_max.
Proof. intros [Hp <-]. destruct (pc_size_ok p Hp) as [H1 [_ H2]]. lia. Qed.

Lemma read_mid p (b1 b b2 : list Z) (off : Z) (n : nat) :
  holds p (b1 ++ b ++ b2) -> off = len b1 -> n = length b ->
  exists p', pc_read off n p = (Ok b, p') /\ holds p' (b1 ++ b ++ b2).
Proof.
  intros Hp -> ->. pose proof (holds_size _ _ Hp) as [Hs _]. destruct Hp as [Hp Hb].
  destruct (pc_read_in (len b1) (length b) p Hp) as (p' & Hr & Hp' & Hb'); [lia|rewrite Hs, !length_app; lia|].
  exists p'. rewrite Hr, Nat2Z.id, Hb, field_app by done. split; [done|]. split; [done|by rewrite Hb'].
Qed.

Lemma next_ok p (b1 b b2 : list Z) e :
  holds p (b1 ++ b ++ b2) -> rec_ok e b ->
  exists p', next (len b1) p = (Ok (Some (e, len b1 + record_len e)), p') /\ holds p' (b1 ++ b ++ b2).
Proof.
  intros Hp (He & Hlen & junk & ->). pose proof (holds_size _ _ Hp) as [_ Hmax]. rewrite !length_app in Hmax. rewrite !length_app in Hlen.
  set (hb := header_bytes (header e)) in *. assert (Hhb : length hb = 8%nat) by done. unfold next, read_entry.
  rewrite <- !app_assoc in Hp. destruct (read_mid p b1 hb _ (len b1) 8 Hp eq_refl eq_refl) as (p1 & Hr1 & Hp1).
  rewrite (sbind_ok _ _ _ _ _ Hr1). replace (header_of hb) with (header e) by (unfold hb; rewrite <- (app_nil_r (header_bytes _)); by rewrite header_roundtrip).
  cbv zeta. rewrite (proj2 (Z.eqb_neq _ 0)) by (pose proof (eo_ino _ He); lia).
  rewrite uadd_ok, (slift_ok _ _ _ _ eq_refl) by lia.
  rewrite (app_assoc b1) in Hp1. destruct (read_mid p1 (b1 ++ hb) (e_name e) _ (len b1 + 8) (length (e_name e)) Hp1) as (p2 & Hr2 & Hp2); [rewrite length_app; lia|done|].
  rewrite (eo_len _ He), Nat2Z.id, (sbind_ok _ _ _ _ _ Hr2), (name_cstr_id _ (eo_name _ He)).
  replace (MkDirEntry (header e) (e_name e)) with e by (by destruct e).
  rewrite uadd_ok, (slift_ok _ _ _ _ eq_refl) by lia. exists p2. split; [done|]. by rewrite <- !app_assoc in *.
Qed.

Lemma next_end p bs : holds p bs -> next (len bs) p = (Ok None, p).
Proof.
  intros Hp. pose proof (holds_size _ _ Hp) as [Hs _]. unfold next, read_entry, sbind. rewrite pc_read_out; [done|apply Hp|lia].
Qed.

(** [find] returns the first entry the predicate holds of, and its offset. *)
Lemma find_entry_ok (pred : DirEntry -> outcome Errno bool) (f : DirEntry -> bool) n es : forall p (b1 b2 : list Z),
  holds p (b1 ++ b2) -> dir_rep es b2 -> (length es < n)%nat -> Forall (fun e => pred e = Ok (f e)) es ->
  exists r p', find_entry n pred (len b1) p = (Ok r, p') /\ holds p' (b1 ++ b2) /\
    match r with
    | None => Forall (fun e => f e = false) es
    | Some (off, e) => exists l1 l2 c1 c2, es = l1 ++ e :: l2 /\ f e = true /\ Forall (fun e => f e = false) l1 /\
        b2 = c1 ++ c2 /\ dir_rep l1 c1 /\ dir_rep (e :: l2) c2 /\ off = len b1 + len c1
    end.
Proof.
  revert n. induction es as [|e es IH]; intros [|n] p b1 b2 Hp Hr Hn Hf; cbn [length] in Hn; try lia; cbn [find_entry].
  - cbn in Hr. subst b2. rewrite app_nil_r in *. rewrite (sbind_ok _ _ _ _ _ (next_end _ _ Hp)). by exists None, p.
  - destruct Hr as (b & rest & -> & Hb & Hrest). inversion Hf as [|? ? Hfe Hfs]; subst.
    destruct (next_ok p b1 b rest e Hp Hb) as (p1 & Hnext & Hp1). rewrite (sbind_ok _ _ _ _ _ Hnext), Hfe, (slift_ok _ _ _ _ eq_refl).
    destruct (f e) eqn:Hfe'.
    + exists (Some (len b1, e)), p1. split; [done|]. split; [done|]. exists [], es, [], (b ++ rest). cbn. split_and!; try done; [|lia].
      by exists b, rest.
    + destruct Hb as (He & Hlen & Hj). rewrite app_assoc in Hp1.
      destruct (IH n p1 (b1 ++ b) rest Hp1 Hrest ltac:(lia) Hfs) as (r & p2 & Hfind & Hp2 & Hres).
      rewrite length_app in Hfind. replace (len b1 + record_len e) with (Z.of_nat (length b1 + length b)) by lia.
      exists r, p2. split; [done|]. rewrite <- app_assoc in Hp2. split; [done|]. destruct r as [[off e']|]; [|by constructor].
      destruct Hres as (l1 & l2 & c1 & c2 & -> & ? & ? & -> & Hc1 & ? & ->). exists (e :: l1), l2, (b ++ c1), c2.
      split_and!; try done; [by constructor|by rewrite app_assoc|by exists b, c1|rewrite !length_app; lia].
Qed.

Lemma count_entries_ok n es : forall p (b1 b2 : list Z),
  holds p (b1 ++ b2) -> dir_rep es b2 -> (length es < n)%nat ->
  exists p', count_entries n (len b1) p = (Ok (len es), p') /\ holds p' (b1 ++ b2).
Proof.
  revert n. induction es as [|e es IH]; intros [|n] p b1 b2 Hp Hr Hn; cbn [length] in Hn; try lia; cbn [count_entries].
  - cbn in Hr. subst b2. rewrite app_nil_r in *. rewrite (sbind_ok _ _ _ _ _ (next_end _ _ Hp)). by exists p.
  - destruct Hr as (b & rest & -> & Hb & Hrest). destruct (next_ok p b1 b rest e Hp Hb) as (p1 & Hnext & Hp1).
    rewrite (sbind_ok _ _ _ _ _ Hnext). destruct Hb as (He & Hlen & Hj). rewrite app_assoc in Hp1.
    destruct (IH n p1 (b1 ++ b) rest Hp1 Hrest ltac:(lia)) as (p2 & Hc & Hp2). rewrite length_app in Hc.
    replace (len b1 + record_len e) with (Z.of_nat (length b1 + length b)) by lia.
    rewrite (sbind_ok _ _ _ _ _ Hc). exists p2. rewrite <- app_assoc in Hp2. split; [|done]. unfold sret. do 2 f_equal. cbn [length]. lia.
Qed.

(** Two readers in step, the second one entry ahead *)
Lemma find_zip_ok name n es : forall p a (b1 ba b2 : list Z),
  holds p (b1 ++ ba ++ b2) -> rec_ok a ba -> dir_rep es b2 -> (length es < n)%nat ->
  exists r p', find_zip n name (len b1) (len b1 + record_len a) p = (Ok r, p') /\ holds p' (b1 ++ ba ++ b2) /\
    match r with
    | None => Forall (fun e => e_name e <> name) es
    | Some ((o1, e1), (o2, e2)) => exists l1 l2 c1 c2, a :: es = l1 ++ e1 :: e2 :: l2 /\ e_name e2 = name /\
        Forall (fun e => e_name e <> name) (tail (l1 ++ [e1])) /\
        ba ++ b2 = c1 ++ c2 /\ dir_rep l1 c1 /\ dir_rep (e1 :: e2 :: l2) c2 /\ o1 = len b1 + len c1 /\ o2 = o1 + record_len e1
    end.
Proof.
  revert n. induction es as [|e es IH]; intros [|n] p a b1 ba b2 Hp Ha Hr Hn; cbn [length] in Hn; try lia; cbn [find_zip];
    destruct (next_ok p b1 ba b2 a Hp Ha) as (p1 & Hnext & Hp1); rewrite (sbind_ok _ _ _ _ _ Hnext); pose proof Ha as (Hea & Hla & _).
  - cbn in Hr. subst b2. rewrite app_nil_r in *.
    replace (len b1 + record_len a) with (len (b1 ++ ba)) by (rewrite length_app; lia).
    rewrite (sbind_ok _ _ _ _ _ (next_end _ _ Hp1)). by exists None, p1.
  - destruct Hr as (b & rest & -> & Hb & Hrest). rewrite app_assoc in Hp1. destruct (next_ok p1 (b1 ++ ba) b rest e Hp1 Hb) as (p2 & Hnext2 & Hp2).
    replace (len b1 + record_len a) with (len (b1 ++ ba)) in * by (rewrite length_app; lia).
    rewrite (sbind_ok _ _ _ _ _ Hnext2). pose proof Hb as (He & Hle & _). rewrite (name_str_ok _ (eo_name _ He)), (slift_ok _ _ _ _ eq_refl).
    case_bool_decide as Hname.
    + exists (Some ((len b1, a), (len (b1 ++ ba), e))), p2. split; [done|]. rewrite <- app_assoc in Hp2. split; [done|].
      exists [], es, [], (ba ++ b ++ rest). cbn [tail app length]. split_and!; try done; [|lia|rewrite length_app; lia].
      exists ba, (b ++ rest). split; [done|]. split; [done|]. by exists b, rest.
    + destruct (IH n p2 e (b1 ++ ba) b rest Hp2 Hb Hrest ltac:(lia)) as (r & p3 & Hfind & Hp3 & Hres).
      exists r, p3. split; [done|]. rewrite <- app_assoc in Hp3. split; [done|]. destruct r as [[[o1 e1] [o2 e2]]|]; [|by constructor].
      destruct Hres as (l1 & l2 & c1 & c2 & Heq & Hn2 & Hl1 & Hc & Hc1 & Hc2 & -> & ->).
      exists (a :: l1), l2, (ba ++ c1), c2. cbn [tail app]. split_and!; try done; [by f_equal| |by rewrite <- app_assoc, <- Hc|by exists ba, c1|rewrite !length_app; lia].
      destruct l1 as [|x l1]; cbn in Heq, Hl1; injection Heq as <- Heq; cbn [app]; by constructor.
Qed.

(** * Writers *)

Lemma write_mid p (b1 b b2 bs : list Z) (off : Z) :
  holds p (b1 ++ b ++ b2) -> off = len b1 -> length bs = length b ->
  exists p', pc_write off bs p = (Ok tt, p') /\ holds p' (b1 ++ bs ++ b2).
Proof.
  intros Hp -> Hl. pose proof (holds_size _ _ Hp) as [Hs _]. destruct Hp as [Hp Hb]. rewrite !length_app in Hs.
  destruct (pc_write_in (len b1) bs p Hp) as (p' & Hw & Hp' & Hb'); [lia..|]. exists p'. split; [done|]. split; [done|].
  rewrite Hb', Hb, Nat2Z.id, take_app_length, Hl. do 2 f_equal. rewrite <- drop_drop, drop_app_length. by rewrite drop_app_length.
Qed.

Lemma write_entry_ok p (b1 b b2 : list Z) e :
  holds p (b1 ++ b ++ b2) -> entry_ok e -> len b = record_len e ->
  exists p' b', write_entry e (len b1) p = (Ok (len b1 + record_len e), p') /\ holds p' (b1 ++ b' ++ b2) /\ rec_ok e b'.
Proof.
  intros Hp He Hl. pose proof (holds_size _ _ Hp) as [_ Hmax]. rewrite !length_app in Hmax. pose proof (eo_rec _ He).
  pose proof (min_len_range _ (nm_len _ (eo_name _ He))) as Hmin. set (hb := header_bytes (header e)). assert (Hhb : length hb = 8%nat) by done.
  set (nm := e_name e) in *. assert (exists x y z, b = x ++ y ++ z /\ length x = 8%nat /\ length y = length nm) as (x & y & z & -> & Hx & Hy).
  { exists (take 8 b), (take (length nm) (drop 8 b)), (drop (length nm) (drop 8 b)). rewrite !take_drop. split; [done|].
    rewrite !length_take, length_drop. lia. }
  unfold write_entry. rewrite <- !app_assoc in Hp. destruct (write_mid p b1 x _ hb (len b1) Hp eq_refl) as (p1 & Hw1 & Hp1); [lia|].
  rewrite (sbind_ok _ _ _ _ _ Hw1), uadd_ok, (slift_ok _ _ _ _ eq_refl), (name_str_ok _ (eo_name _ He)), (slift_ok _ _ _ _ eq_refl) by lia.
  rewrite app_assoc in Hp1. destruct (write_mid p1 (b1 ++ hb) y (z ++ b2) nm (len b1 + 8) Hp1) as (p2 & Hw2 & Hp2); [rewrite length_app; lia|lia|].
  rewrite (sbind_ok _ _ _ _ _ Hw2), uadd_ok by lia. exists p2, (hb ++ nm ++ z). split; [done|]. split; [by rewrite <- !app_assoc in *|].
  split; [done|]. split; [rewrite !length_app in *; lia|by exists z].
Qed.

(** Cutting the record of an entry *)
Lemma cut_record (b : list Z) (n m : Z) : 0 <= n -> 0 <= m -> len b = n + m -> exists x y, b = x ++ y /\ len x = n /\ len y = m.
Proof.
  intros Hn Hm Hb. exists (take (Z.to_nat n) b), (drop (Z.to_nat n) b). rewrite take_drop, length_take, length_drop. split; [done|]. lia.
Qed.

Definition gap (e : DirEntry) : Z := record_len e - min_len (e_name e).

(** Splitting a record into the record of its entry and that of a new one *)
Lemma write_gap p (c1 b c2 : list Z) e new :
  holds p (c1 ++ b ++ c2) -> rec_ok e b -> entry_ok new -> min_len (e_name new) <= gap e ->
  exists p' b' b3, (let! offset := write_entry (with_len (min_len (e_name e)) e) (len c1) in
      write_entry (with_len (gap e) new) offset ;! sret tt) p = (Ok tt, p') /\
    holds p' (c1 ++ b' ++ b3 ++ c2) /\ rec_ok (with_len (min_len (e_name e)) e) b' /\ rec_ok (with_len (gap e) new) b3.
Proof.
  intros Hp Hb Hnew Hg. pose proof Hb as (He & Hlb & _). pose proof (eo_rec _ He). pose proof (min_len_range _ (nm_len _ (eo_name _ He))).
  assert (Hgap : record_len e = min_len (e_name e) + gap e) by (unfold gap; lia). pose proof (min_len_range _ (nm_len _ (eo_name _ Hnew))).
  destruct (cut_record b (min_len (e_name e)) (gap e)) as (x & y & -> & Hx & Hy); [lia..|]. rewrite <- app_assoc in Hp.
  destruct (write_entry_ok p c1 x _ (with_len (min_len (e_name e)) e) Hp) as (p2 & b' & Hw & Hp2 & Hb'); [apply entry_ok_len; [done|lia]|done|].
  rewrite (sbind_ok _ _ _ _ _ Hw). rewrite app_assoc in Hp2. pose proof Hb' as (_ & Hlb' & _). cbn [with_len header h_record_len] in *.
  destruct (write_entry_ok p2 (c1 ++ b') y c2 (with_len (gap e) new) Hp2) as (p3 & b3 & Hw3 & Hp3 & Hb3); [apply entry_ok_len; [done|lia]|done|].
  cbn [with_len header h_record_len] in *. rewrite length_app in Hw3. replace (len c1 + min_len (e_name e)) with (Z.of_nat (length c1 + length b')) by lia.
  rewrite (sbind_ok _ _ _ _ _ Hw3). exists p3, b', b3. split; [done|]. split; [by rewrite <- app_assoc in Hp3|done].
Qed.

(** An entry goes into the first gap that is large enough, or into a new block. *)
Definition appended (new : DirEntry) (es es' : list DirEntry) (bs bs' : list Z) : Prop :=
  (exists l1 e l2, es = l1 ++ e :: l2 /\ Forall (fun e => gap e < record_len new) l1 /\ record_len new <= gap e /\
     es' = l1 ++ with_len (min_len (e_name e)) e :: with_len (gap e) new :: l2 /\ length bs' = length bs) \/
  (Forall (fun e => gap e < record_len new) es /\ es' = es ++ [with_len BLOCK_SIZE new] /\ len bs' = len bs + BLOCK_SIZE).

Lemma append_at_ok p bs es new :
  holds p bs -> dir_rep es bs -> entry_ok new -> record_len new = min_len (e_name new) ->
  (BLOCK_SIZE | len bs) -> len bs + BLOCK_SIZE <= usize_max ->
  exists p' es' bs', append_at new 0 p = (Ok tt, p') /\ holds p' bs' /\ dir_rep es' bs' /\ appended new es es' bs bs'.
Proof.
  intros Hp Hr Hnew Hmin Hblk Hmax. pose proof (holds_size _ _ Hp) as [Hs _]. pose proof (dir_rep_length _ _ Hr) as Hlen.
  pose proof (min_len_range _ (nm_len _ (eo_name _ Hnew))) as Hrange. unfold append_at. rewrite (sbind_ok sget _ p p p eq_refl).
  destruct (find_entry_ok (fun e => let? g := gap_len e in Ok (record_len new <=? g)) (fun e => record_len new <=? gap e)
    (S (Z.to_nat (pc_size p))) es p [] bs Hp Hr) as (r & p1 & Hfind & Hp1 & Hres).
  { lia. } { eapply Forall_impl; [by eapply dir_rep_ok|]. intros e He. cbn beta. by rewrite gap_len_ok. }
  assert (Hno : forall l, Forall (fun e => (record_len new <=? gap e) = false) l -> Forall (fun e => gap e < record_len new) l).
  { intros l Hl. eapply Forall_impl; [exact Hl|]. intros ? H'. by apply Z.leb_gt in H'. }
  cbn [length] in Hfind. rewrite (sbind_ok _ _ _ _ _ Hfind). cbn [app] in Hp1. destruct r as [[off e]|].
  - destruct Hres as (l1 & l2 & c1 & c2 & -> & Hf & Hl1 & -> & Hc1 & (b & c3 & -> & Hb & Hc3) & ->). apply Z.leb_le in Hf.
    pose proof Hb as (He & Hlb & _). pose proof (eo_rec _ He). pose proof (min_len_range _ (nm_len _ (eo_name _ He))).
    rewrite gap_len_ok, (slift_ok _ _ _ _ eq_refl) by done. fold (gap e). assert (Hgap : gap e < 2 ^ 16) by (unfold gap; lia).
    rewrite set_record_len_ok, (slift_ok _ _ _ _ eq_refl) by (done || lia). rewrite actual_len_ok, (slift_ok _ _ _ _ eq_refl) by done.
    rewrite set_record_len_ok, (slift_ok _ _ _ _ eq_refl) by (done || lia). cbn [length]. replace (Z.of_nat 0 + len c1) with (len c1) by lia.
    destruct (write_gap p1 c1 b c3 e new Hp1 Hb Hnew ltac:(lia)) as (p2 & b' & b3 & Hw & Hp2 & Hb' & Hb3). rewrite Hw.
    exists p2, (l1 ++ with_len (min_len (e_name e)) e :: with_len (gap e) new :: l2), (c1 ++ b' ++ b3 ++ c3). split; [done|]. split; [done|]. split.
    + apply dir_rep_app. exists c1, (b' ++ b3 ++ c3). split_and!; [done..|]. exists b', (b3 ++ c3). split_and!; [done..|]. by exists b3, c3.
    + left. exists l1, e, l2. split_and!; try done; [by apply Hno|].
      destruct Hb' as (_ & Hlb' & _), Hb3 as (_ & Hlb3 & _). cbn [with_len header h_record_len] in *. unfold gap in *. rewrite !length_app. lia.
  - rewrite (sbind_ok sget _ p1 p1 p1 eq_refl). pose proof (holds_size _ _ Hp1) as [Hs1 _].
    rewrite Hs1, uadd_ok, (slift_ok _ _ _ _ eq_refl) by done. destruct Hp1 as [Hok1 Hb1].
    destruct (pc_grow (len bs + BLOCK_SIZE) p1 Hok1) as (p2 & Hz & Hok2 & Hb2); [unfold is_usize; lia|apply Z.divide_add_r; [done|by exists 1]|lia|].
    rewrite (sbind_ok _ _ _ _ _ Hz). rewrite set_record_len_ok, (slift_ok _ _ _ _ eq_refl) by (done || lia).
    rewrite Hs1, Hb1 in Hb2. replace (Z.to_nat (len bs + BLOCK_SIZE - len bs)) with (Z.to_nat BLOCK_SIZE) in Hb2 by lia.
    destruct (write_entry_ok p2 bs (replicate (Z.to_nat BLOCK_SIZE) 0) [] (with_len BLOCK_SIZE new)) as (p3 & b' & Hw & Hp3 & Hb').
    { split; [done|]. rewrite app_nil_r. exact Hb2. } { apply entry_ok_len; [done|lia]. } { by rewrite length_replicate. }
    rewrite (sbind_ok _ _ _ _ _ Hw). exists p3, (es ++ [with_len BLOCK_SIZE new]), (bs ++ b'). rewrite app_nil_r in Hp3. split; [done|]. split; [done|]. split.
    + apply dir_rep_app. exists bs, b'. split_and!; [done..|]. by apply dir_rep_single.
    + right. split_and!; [by apply Hno|done|]. destruct Hb' as (_ & Hlb' & _). cbn [with_len header h_record_len] in Hlb'. rewrite length_app. lia.
Qed.

(** Removing an entry gives its record to the entry before it. *)
Definition removed (name : path) (es es' : list DirEntry) (x : DirEntry) : Prop :=
  exists l1 a l2, es = l1 ++ a :: x :: l2 /\ e_name x = name /\ Forall (fun e => e_name e <> name) (tail (l1 ++ [a])) /\
    es' = l1 ++ with_len (record_len a + record_len x) a :: l2.

Lemma remove_named_ok p bs dot es name :
  holds p bs -> dir_rep (dot :: es) bs -> record_len dot = 12 -> len bs < 2 ^ 16 ->
  exists r p', remove_named name p = (r, p') /\
    match r with
    | Ok x => exists es' bs', removed name (dot :: es) es' x /\ holds p' bs' /\ dir_rep es' bs' /\ length bs' = length bs
    | Err e => e = ENOENT /\ holds p' bs /\ Forall (fun e => e_name e <> name) es
    | Panic => False
    end.
Proof.
  intros Hp Hr Hdot Hmax. pose proof (holds_size _ _ Hp) as [Hs _]. pose proof (dir_rep_length _ _ Hr) as Hlen. cbn [length] in Hlen.
  unfold remove_named. rewrite (dir_entry_new_ok 0 DOT DirT), (slift_ok _ _ _ _ eq_refl) by (by split; cbn; [lia|..]). change (record_len (new_entry _ _ _)) with (0 + 12). rewrite (sbind_ok sget _ p p p eq_refl).
  pose proof Hr as (ba & b2 & -> & Ha & Hb2). rewrite <- Hdot.
  destruct (find_zip_ok name (S (Z.to_nat (pc_size p))) es p dot [] ba b2 Hp Ha Hb2 ltac:(lia)) as (r & p1 & Hfind & Hp1 & Hres).
  rewrite (sbind_ok _ _ _ _ _ Hfind). cbn [app] in Hp1. destruct r as [[[o1 e1] [o2 e2]]|]; [|exists (Err ENOENT), p1; by split].
  destruct Hres as (l1 & l2 & c1 & c2 & Heq & Hname & Hl1 & Hc & Hc1 & (x1 & c3 & -> & Hx1 & (x2 & c4 & -> & Hx2 & Hc4)) & -> & ->).
  rewrite Hc in Hp1, Hmax. pose proof Hx1 as (He1 & Hle1 & _). pose proof Hx2 as (He2 & Hle2 & _). pose proof Hp1 as Hp1'. rewrite app_assoc in Hp1'.
  destruct (next_ok p1 (c1 ++ x1) x2 c4 e2 Hp1' Hx2) as (p2 & Hnext & Hp2). cbn [length] in *. rewrite length_app in Hnext.
  replace (Z.of_nat 0 + len c1) with (len c1) by lia. replace (len c1 + record_len e1) with (Z.of_nat (length c1 + length x1)) by lia.
  rewrite (sbind_ok _ _ _ _ _ Hnext), bool_decide_eq_false_2 by done. cbn [andb]. rewrite !length_app in Hmax.
  rewrite uadd_ok by (unfold usize_max; lia). rewrite sbind_assoc, (slift_ok _ _ _ _ eq_refl).
  pose proof (eo_rec _ He1). pose proof (min_len_range _ (nm_len _ (eo_name _ He2))). pose proof (eo_rec _ He2).
  rewrite set_record_len_ok by (done || lia). rewrite sbind_assoc, (slift_ok _ _ _ _ eq_refl). rewrite <- app_assoc, (app_assoc x1) in Hp2.
  destruct (write_entry_ok p2 c1 (x1 ++ x2) c4 (with_len (record_len e1 + record_len e2) e1) Hp2) as (p3 & b' & Hw & Hp3 & Hb').
  { apply entry_ok_len; [done|lia]. } { cbn [with_len header h_record_len]. rewrite length_app. lia. }
  rewrite (sbind_ok _ _ _ _ _ Hw). exists (Ok e2), p3. split; [done|].
  exists (l1 ++ with_len (record_len e1 + record_len e2) e1 :: l2), (c1 ++ b' ++ c4). split_and!; [by exists l1, e1, l2|done| |].
  - apply dir_rep_app. exists c1, (b' ++ c4). split_and!; [done..|]. by exists b', c4.
  - rewrite Hc. destruct Hb' as (_ & Hlb' & _). cbn [with_len header h_record_len] in Hlb'. rewrite !length_app. lia.
Qed.

Lemma get_entry_ok p bs es name :
  holds p bs -> dir_rep es bs -> exists r p', get_entry name 0 p = (Ok r, p') /\ holds p' bs /\
    match r with
    | None => Forall (fun e => e_name e <> name) es
    | Some (off, e) => exists l1 l2 c1 c2, es = l1 ++ e :: l2 /\ e_name e = name /\ bs = c1 ++ c2 /\
        dir_rep l1 c1 /\ dir_rep (e :: l2) c2 /\ off = len c1
    end.
Proof.
  intros Hp Hr. pose proof (holds_size _ _ Hp) as [Hs _]. pose proof (dir_rep_length _ _ Hr) as Hlen. unfold get_entry. rewrite (sbind_ok sget _ p p p eq_refl).
  destruct (find_entry_ok (has_name name) (fun e => bool_decide (e_name e = name)) (S (Z.to_nat (pc_size p))) es p [] bs Hp Hr ltac:(lia))
    as (r & p1 & Hfind & Hp1 & Hres).
  { eapply Forall_impl; [by eapply dir_rep_ok|]. intros e He. unfold has_name. by rewrite (name_str_ok _ (eo_name _ He)). }
  exists r, p1. split; [done|]. split; [done|]. destruct r as [[off e]|].
  - destruct Hres as (l1 & l2 & c1 & c2 & -> & Hf & _ & -> & Hc1 & Hc2 & ->). apply bool_decide_eq_true in Hf. by exists l1, l2, c1, c2.
  - eapply Forall_impl; [exact Hres|]. intros e He. by apply bool_decide_eq_false in He.
Qed.

Lemma entry_count_ok p bs es : holds p bs -> dir_rep es bs -> exists p', entry_count p = (Ok (len es), p') /\ holds p' bs.
Proof.
  intros Hp Hr. pose proof (holds_size _ _ Hp) as [Hs _]. pose proof (dir_rep_length _ _ Hr) as Hlen. unfold entry_count. rewrite (sbind_ok sget _ p p p eq_refl).
  by destruct (count_entries_ok (S (Z.to_nat (pc_size p))) es p [] bs Hp Hr ltac:(lia)) as (p1 & Hc & Hp1); [exists p1].
Qed.

(** * Renaming *)

(** The entry keeps its record when the new name fits there, or else it is
    removed and appended again. *)
Definition renamed (old new : path) (es es' : list DirEntry) (bs bs' : list Z) : Prop :=
  (exists l1 e l2 t, es = l1 ++ e :: l2 /\ e_name e = old /\ type_ e = Ok t /\
     es' = l1 ++ with_len (record_len e) (new_entry (e_ino e) new t) :: l2 /\ length bs' = length bs) \/
  (exists es1 bs1 x t, removed old es es1 x /\ type_ x = Ok t /\ length bs1 = length bs /\ appended (new_entry (e_ino x) new t) es1 es' bs1 bs').

Lemma move_entry_ok p bs dot es e old new t :
  holds p bs -> dir_rep (dot :: es) bs -> record_len dot = 12 -> (BLOCK_SIZE | len bs) -> len bs < 2 ^ 16 ->
  name_ok new -> NoDup (e_name <$> dot :: es) -> e ∈ es -> e_name e = old -> type_ e = Ok t ->
  exists p' es' bs', (remove_named old ;! append_at (new_entry (e_ino e) new t) 0) p = (Ok tt, p') /\
    renamed old new (dot :: es) es' bs bs' /\ holds p' bs' /\ dir_rep es' bs'.
Proof.
  intros Hp Hr Hdot Hblk Hmax Hnew Hnd He Hname Ht. destruct (remove_named_ok p bs dot es old Hp Hr Hdot Hmax) as (r & p2 & Hrem & Hres).
  destruct r as [x|e'|]; [|exfalso|done]. 2:{ destruct Hres as (_ & _ & Hno). eapply Forall_forall in Hno; [|exact He]. done. }
  destruct Hres as (es1 & bs1 & Hremd & Hp2 & Hrep1 & Hl1). rewrite (sbind_ok _ _ _ _ _ Hrem).
  assert (x = e) as ->.
  { destruct Hremd as (k1 & a & k2 & Heq & Hxn & _). apply (names_inj (dot :: es)); [done| |set_solver|congruence]. rewrite Heq. set_solver. }
  pose proof (dir_rep_ok _ _ Hr) as Hall. eapply Forall_forall in Hall; [|apply list_elem_of_further; exact He].
  destruct (append_at_ok p2 bs1 es1 (new_entry (e_ino e) new t) Hp2 Hrep1) as (p3 & es' & bs' & Happ & Hp3 & Hrep' & Happd);
    [apply new_entry_ok; [done|apply Hall]|done|by rewrite Hl1|rewrite Hl1; unfold usize_max; lia|].
  exists p3, es', bs'. split; [done|]. split_and!; [|done..]. right. by exists es1, bs1, e, t.
Qed.

Lemma rename_at_ok p dot es0 (b1 b2 : list Z) l es old new :
  holds p (b1 ++ b2) -> dir_rep l b1 -> dir_rep es b2 -> l ++ es = dot :: es0 -> record_len dot = 12 ->
  (BLOCK_SIZE | len (b1 ++ b2)) -> len (b1 ++ b2) < 2 ^ 16 -> name_ok new -> NoDup (e_name <$> l ++ es) -> old <> e_name dot ->
  exists r p', rename_at old new (len b1) p = (r, p') /\
    match r with
    | Ok _ => exists es' bs', renamed old new (l ++ es) es' (b1 ++ b2) bs' /\ holds p' bs' /\ dir_rep es' bs'
    | Err e => e = ENOENT /\ Forall (fun e => e_name e <> old) es /\ holds p' (b1 ++ b2)
    | Panic => False
    end.
Proof.
  intros Hp Hl Hr Hdir Hdot Hblk Hmax Hnew Hnd Hne. pose proof (holds_size _ _ Hp) as [Hs _]. pose proof (dir_rep_length _ _ Hr) as Hlen.
  rewrite length_app in Hs. unfold rename_at. rewrite (sbind_ok sget _ p p p eq_refl).
  destruct (find_entry_ok (has_name old) (fun e => bool_decide (e_name e = old)) (S (Z.to_nat (pc_size p))) es p b1 b2 Hp Hr ltac:(lia))
    as (r & p1 & Hfind & Hp1 & Hres).
  { eapply Forall_impl; [by eapply dir_rep_ok|]. intros e He. unfold has_name. by rewrite (name_str_ok _ (eo_name _ He)). }
  rewrite (sbind_ok _ _ _ _ _ Hfind). destruct r as [[off e]|].
  2:{ exists (Err ENOENT), p1. split; [done|]. split_and!; [done| |done]. eapply Forall_impl; [exact Hres|]. intros e He. by apply bool_decide_eq_false in He. }
  destruct Hres as (l1 & l2 & c1 & c2 & -> & Hf & _ & -> & Hc1 & (b & c3 & -> & Hb & Hc3) & ->). apply bool_decide_eq_true in Hf.
  pose proof Hb as (He & Hle & _). destruct (eo_type _ He) as [t Ht]. cbn [ok_or]. rewrite (slift_ok _ _ _ _ eq_refl). cbn [fst snd].
  rewrite (type_ok _ _ Ht), (slift_ok _ _ _ _ eq_refl), dir_entry_new_ok, (slift_ok _ _ _ _ eq_refl) by done.
  set (ne := new_entry (e_ino e) new t). assert (Hne_ok : entry_ok ne) by (apply new_entry_ok; [done|apply He]).
  change (record_len ne) with (min_len new). destruct (Z.leb_spec (min_len new) (record_len e)) as [Hfit|Hfit].
  - pose proof (eo_rec _ He). rewrite set_record_len_ok, (slift_ok _ _ _ _ eq_refl) by (done || cbn; lia).
    rewrite app_assoc in Hp1. destruct (write_entry_ok p1 (b1 ++ c1) b c3 (with_len (record_len e) ne) Hp1) as (p2 & b' & Hw & Hp2 & Hb').
    { apply entry_ok_len; [done|cbn; lia]. } { done. }
    rewrite length_app, Nat2Z.inj_add in Hw. rewrite (sbind_ok _ _ _ _ _ Hw). exists (Ok tt), p2. split; [done|].
    exists ((l ++ l1) ++ with_len (record_len e) ne :: l2), ((b1 ++ c1) ++ b' ++ c3). split_and!; [|done|].
    + left. exists (l ++ l1), e, l2, t. split_and!; [by rewrite <- app_assoc|done|by apply type_ok|done|].
      destruct Hb' as (_ & Hlb' & _). cbn [with_len header h_record_len] in Hlb'. rewrite !length_app. lia.
    + apply dir_rep_app. exists (b1 ++ c1), (b' ++ c3). split_and!; [done| |by exists b', c3]. apply dir_rep_app. by exists b1, c1.
  - assert (Hrep : dir_rep (l ++ l1 ++ e :: l2) (b1 ++ c1 ++ b ++ c3)).
    { apply dir_rep_app. exists b1, (c1 ++ b ++ c3). split_and!; [done..|]. apply dir_rep_app. exists c1, (b ++ c3). split_and!; [done..|]. by exists b, c3. }
    rewrite Hdir in Hrep, Hnd |- *. assert (Hin : e ∈ dot :: es0) by (rewrite <- Hdir; set_solver).
    apply elem_of_cons in Hin as [-> |Hin]; [by rewrite Hf in Hne|].
    destruct (move_entry_ok p1 _ dot es0 e old new t Hp1 Hrep Hdot Hblk Hmax Hnew Hnd Hin Hf (type_ok _ _ Ht)) as (p' & es' & bs' & Hm & Hres).
    fold ne in Hm. rewrite Hm. exists (Ok tt), p'. split; [done|]. by exists es', bs'.
Qed.

(** [set_parent_ino] *)
Lemma set_parent_ok p bs es n :
  holds p bs -> dir_rep es bs -> 0 < n < 2 ^ 32 -> (exists e, e ∈ es /\ e_name e = DOTDOT) ->
  exists p' l1 e l2 bs', set_parent_ino n p = (Ok tt, p') /\ es = l1 ++ e :: l2 /\ e_name e = DOTDOT /\
    holds p' bs' /\ dir_rep (l1 ++ set_ino n e :: l2) bs' /\ length bs' = length bs.
Proof.
  intros Hp Hr Hn (x & Hx & Hxn). unfold set_parent_ino. destruct (get_entry_ok p bs es DOTDOT Hp Hr) as (r & p1 & Hget & Hp1 & Hres).
  rewrite (sbind_ok _ _ _ _ _ Hget). destruct r as [[off e]|]; [|by eapply Forall_forall in Hres; [|exact Hx]].
  destruct Hres as (l1 & l2 & c1 & c2 & -> & Hname & -> & Hc1 & (b & c3 & -> & Hb & Hc3) & ->). cbn [ounwrap]. rewrite (slift_ok _ _ _ _ eq_refl). cbn [fst snd].
  pose proof Hb as (He & Hle & _). destruct (write_entry_ok p1 c1 b c3 (set_ino n e) Hp1) as (p2 & b' & Hw & Hp2 & Hb'); [by destruct He|done|].
  rewrite (sbind_ok _ _ _ _ _ Hw). exists p2, l1, e, l2, (c1 ++ b' ++ c3). split_and!; [done..| |].
  - apply dir_rep_app. exists c1, (b' ++ c3). split_and!; [done..|]. by exists b', c3.
  - destruct Hb' as (_ & Hlb' & _). cbn in Hlb'. rewrite !length_app. lia.
Qed.

(** The record of another entry still begins where it did. *)
Lemma removed_offset name es es' x l e l2 :
  removed name es es' x -> es = l ++ e :: l2 -> e_name e <> name -> exists l' e' l2', es' = l' ++ e' :: l2' /\ total l' = total l /\ e_name e' = e_name e.
Proof.
  intros (k1 & a & k2 & -> & Hx & _ & ->) Heq Hne. apply app_eq_inv in Heq as [(k & -> & Hk)|(k & -> & Hk)].
  - destruct k as [|z k]; cbn in Hk; injection Hk as <- Hk.
    + exists l, (with_len (record_len e + record_len x) e), k2. by rewrite app_nil_r.
    + exists l, e, (k ++ with_len (record_len a + record_len x) a :: k2). by rewrite <- app_assoc.
  - destruct k as [|z k]; cbn in Hk; injection Hk as <- Hk.
    + exists k1, (with_len (record_len a + record_len x) a), k2. by rewrite app_nil_r.
    + destruct k as [|z k]; cbn in Hk; injection Hk as <- Hk; [done|]. subst k2.
      exists (k1 ++ with_len (record_len a + record_len x) a :: k), e, l2. split_and!; [by rewrite <- app_assoc| |done]. rewrite !total_app. cbn. lia.
Qed.
End Dir.
