(* ===== verification/Ext2DirSpec.v ===== *)
(** A directory of ext2 as a finite map from names to inode numbers and types:
    what splitting, merging and rewriting records means for the map. *)

From stdpp Require Import gmap.
From S2P Require Import Prelude Perms Pod AlignExt PathLookup RamFs Ext2Raw Ext2Alloc Ext2AllocFacts Ext2Inode Ext2InodeFacts Ext2Dir Ext2DirFacts.

Implicit Types (e : DirEntry) (es : list DirEntry) (bs : list Z).

(** * The map of a directory *)

Definition etype e : FileType := match type_ e with Ok t => t | _ => FileT end.
Definition kv e : path * (Z * FileType) := (e_name e, (e_ino e, etype e)).
Definition dir_map es : gmap path (Z * FileType) := list_to_map (kv <$> es).

Record dir_wf es : Prop := {
  dw_head : exists dot dotdot rest, es = dot :: dotdot :: rest /\ e_name dot = DOT /\ record_len dot = 12 /\ e_name dotdot = DOTDOT;
  dw_nodup : NoDup (e_name <$> es);
}.

Lemma kv_names es : (kv <$> es).*1 = e_name <$> es.
Proof. rewrite <- list_fmap_compose. done. Qed.

Lemma dir_map_lookup es e : NoDup (e_name <$> es) -> e ∈ es -> dir_map es !! e_name e = Some (e_ino e, etype e).
Proof. intros Hnd He. apply elem_of_list_to_map; [by rewrite kv_names|]. apply list_elem_of_fmap. by exists e. Qed.

Lemma dir_map_none es s : Forall (fun e => e_name e <> s) es -> dir_map es !! s = None.
Proof.
  intros Hall. apply not_elem_of_list_to_map. rewrite kv_names. intros (e & -> & He)%list_elem_of_fmap. by eapply Forall_forall in Hall.
Qed.

Lemma dir_map_perm es es' : NoDup (e_name <$> es) -> (kv <$> es) ≡ₚ (kv <$> es') -> dir_map es = dir_map es' /\ NoDup (e_name <$> es').
Proof.
  intros Hnd Hp. split; [apply list_to_map_proper; [by rewrite kv_names|done]|]. rewrite <- kv_names in *. by rewrite <- Hp.
Qed.

Lemma type_etype e t : type_ e = Ok t -> etype e = t.
Proof. unfold etype. by intros ->. Qed.

Lemma dir_map_size es : NoDup (e_name <$> es) -> base.size (dir_map es) = length es.
Proof.
  intros Hnd. unfold dir_map. rewrite <- (length_fmap kv es). rewrite <- kv_names in Hnd. revert Hnd. generalize (kv <$> es).
  intros l. induction l as [|[k v] l IH]; intros Hnd; [done|]. cbn in *. apply NoDup_cons in Hnd as [Hk Hnd].
  rewrite map_size_insert_None by (by apply not_elem_of_list_to_map). by rewrite IH.
Qed.

(** * Changes of the list *)

Lemma gap_dot dot : e_name dot = DOT -> record_len dot = 12 -> gap dot = 0.
Proof. intros Hn Hl. unfold gap. rewrite Hn, Hl. done. Qed.

Lemma appended_map new es es' bs bs' :
  dir_wf es -> entry_ok new -> record_len new = min_len (e_name new) -> dir_map es !! e_name new = None -> appended new es es' bs bs' ->
  dir_wf es' /\ dir_map es' = <[e_name new := (e_ino new, etype new)]> (dir_map es).
Proof.
  intros [(dot & dotdot & rest & Hes & Hd & Hl & Hdd) Hnd] Hnew Hmin Hfresh Happ.
  pose proof (min_len_range _ (nm_len _ (eo_name _ Hnew))) as Hr. pose proof (gap_dot _ Hd Hl) as Hg.
  assert (Hperm : kv <$> es' ≡ₚ kv new :: (kv <$> es)).
  { destruct Happ as [(l1 & e & l2 & -> & _ & _ & -> & _) | (_ & -> & _)]; rewrite !fmap_app; cbn [fmap list_fmap].
    - change (kv (with_len _ e)) with (kv e). change (kv (with_len _ new)) with (kv new). solve_Permutation.
    - change (kv (with_len _ new)) with (kv new). solve_Permutation. }
  assert (Hnd' : NoDup (e_name <$> new :: es)).
  { cbn. apply NoDup_cons. split; [|done]. apply not_elem_of_list_to_map in Hfresh. by rewrite kv_names in Hfresh. }
  destruct (dir_map_perm (new :: es) es' Hnd') as [Hmap Hnd2]; [by rewrite Hperm|]. split; [split|]; [|done|by rewrite <- Hmap].
  destruct Happ as [(l1 & e & l2 & Heq & _ & Hge & -> & _) | (_ & -> & _)].
  - rewrite Hes in Heq. destruct l1 as [|x [|y l1]]; cbn in Heq; simplify_eq/=; [lia| |]; by repeat eexists.
  - rewrite Hes. by repeat eexists.
Qed.

Lemma removed_map s es es' x :
  dir_wf es -> s <> DOT -> s <> DOTDOT -> removed s es es' x ->
  dir_wf es' /\ dir_map es !! s = Some (e_ino x, etype x) /\ dir_map es' = delete s (dir_map es).
Proof.
  intros [(dot & dotdot & rest & Hes & Hd & Hl & Hdd) Hnd] H1 H2 (l1 & a & l2 & Heq & Hs & _ & ->). set (es' := l1 ++ _ :: l2).
  assert (Hperm : kv <$> es ≡ₚ kv x :: (kv <$> es')).
  { unfold es'. rewrite Heq, !fmap_app. cbn [fmap list_fmap]. change (kv (with_len _ a)) with (kv a). solve_Permutation. }
  destruct (dir_map_perm es (x :: es') Hnd Hperm) as [Hmap Hnd']. cbn in Hnd'. apply NoDup_cons in Hnd' as [Hx Hnd'].
  assert (Hmap' : dir_map es = <[s := (e_ino x, etype x)]> (dir_map es')) by (rewrite Hmap, <- Hs; done).
  assert (Hnone : dir_map es' !! s = None) by (apply not_elem_of_list_to_map; by rewrite kv_names, <- Hs).
  split; [split; [|done]|]; [|by rewrite Hmap', lookup_insert_eq, delete_insert_id].
  unfold es'. rewrite Hes in Heq. destruct l1 as [|y [|z l1]]; cbn in Heq; simplify_eq/=; by repeat eexists.
Qed.

Lemma renamed_map old new es es' bs bs' :
  dir_wf es -> Forall entry_ok es -> name_ok new -> old <> DOT -> old <> DOTDOT -> dir_map es !! new = None -> renamed old new es es' bs bs' ->
  dir_wf es' /\ exists v, dir_map es !! old = Some v /\ dir_map es' = <[new := v]> (delete old (dir_map es)).
Proof.
  intros Hwf Hok Hnew H1 H2 Hfresh [(l1 & e & l2 & t & Heq & Hs & Ht & -> & _) | (es1 & bs1 & x & t & Hrem & Ht & _ & Happ)].
  - pose proof Hwf as [(dot & dotdot & rest & Hes & Hd & Hl & Hdd) Hnd]. set (ne := with_len (record_len e) (new_entry (e_ino e) new t)).
    assert (Hkv : kv ne = (new, (e_ino e, etype e))).
    { unfold kv, ne. cbn. do 2 f_equal. rewrite (type_etype _ _ Ht). unfold etype. by rewrite (type_ok _ t). }
    assert (Hperm : kv <$> es ≡ₚ kv e :: (kv <$> l1 ++ l2)) by (rewrite Heq, !fmap_app; cbn [fmap list_fmap]; solve_Permutation).
    destruct (dir_map_perm es (e :: l1 ++ l2) Hnd Hperm) as [Hmap Hnd']. cbn in Hnd'. apply NoDup_cons in Hnd' as [He Hnd'].
    assert (Hm : dir_map es = <[old := (e_ino e, etype e)]> (dir_map (l1 ++ l2))) by (rewrite Hmap, <- Hs; done).
    assert (Hnone : dir_map (l1 ++ l2) !! old = None) by (apply not_elem_of_list_to_map; by rewrite kv_names, <- Hs).
    assert (Hfresh' : new ∉ e_name <$> l1 ++ l2).
    { rewrite Hm in Hfresh. destruct (decide (old = new)) as [->|Hne]; [by rewrite lookup_insert_eq in Hfresh|]. rewrite lookup_insert_ne in Hfresh by done.
      rewrite <- kv_names. by apply not_elem_of_list_to_map. }
    destruct (dir_map_perm (ne :: l1 ++ l2) (l1 ++ ne :: l2)) as [Hmap2 Hnd2].
    { cbn. by apply NoDup_cons. } { rewrite fmap_cons, !fmap_app. cbn [fmap list_fmap]. solve_Permutation. }
    split; [split; [|done]|].
    + rewrite Hes in Heq. destruct l1 as [|y [|z l1]]; cbn in Heq; simplify_eq/=; by repeat eexists.
    + exists (e_ino e, etype e). rewrite <- Hmap2, Hm. rewrite lookup_insert_eq, delete_insert_id by done. split; [done|].
      unfold dir_map. rewrite fmap_cons, Hkv. done.
  - destruct (removed_map old es es1 x Hwf H1 H2 Hrem) as (Hwf1 & Hold & Hdel).
    assert (Hx : x ∈ es) by (destruct Hrem as (k1 & a & k2 & -> & _); set_solver). eapply Forall_forall in Hok; [|exact Hx].
    destruct (appended_map (new_entry (e_ino x) new t) es1 es' bs1 bs' Hwf1) as [Hwf' Hmap']; [by apply new_entry_ok; [|apply Hok]|done| |done|].
    { rewrite Hdel. cbn. apply lookup_delete_None. by right. }
    split; [done|]. exists (e_ino x, etype x). split; [done|]. rewrite Hmap', Hdel. cbn [new_entry e_name header h_ino]. do 2 f_equal.
    rewrite (type_etype _ _ Ht). unfold etype. by rewrite (type_ok _ t).
Qed.

Lemma set_parent_map n es l1 e l2 :
  dir_wf es -> es = l1 ++ e :: l2 -> e_name e = DOTDOT ->
  dir_wf (l1 ++ set_ino n e :: l2) /\ dir_map (l1 ++ set_ino n e :: l2) = <[DOTDOT := (n, etype e)]> (dir_map es).
Proof.
  intros [(dot & dotdot & rest & Hes & Hd & Hl & Hdd) Hnd] Heq He.
  assert (Hnd' : NoDup (e_name <$> l1 ++ set_ino n e :: l2)) by (rewrite Heq, !fmap_app in *; done).
  assert (Hp : kv <$> l1 ++ set_ino n e :: l2 ≡ₚ (DOTDOT, (n, etype e)) :: (kv <$> l1 ++ l2)).
  { rewrite !fmap_app. cbn [fmap list_fmap]. rewrite <- He. change (kv (MkDirEntry _ _)) with (e_name e, (n, etype e)). solve_Permutation. }
  assert (Hp2 : kv <$> es ≡ₚ (DOTDOT, (e_ino e, etype e)) :: (kv <$> l1 ++ l2)).
  { rewrite Heq, !fmap_app. cbn [fmap list_fmap]. rewrite <- He. change (kv e) with (e_name e, (e_ino e, etype e)). solve_Permutation. }
  split; [split; [|done]|].
  - rewrite Hes in Heq. destruct l1 as [|y [|z l1]]; cbn in Heq; simplify_eq/=; by repeat eexists.
  - unfold dir_map. rewrite (list_to_map_proper (kv <$> l1 ++ set_ino n e :: l2) _ ltac:(by rewrite kv_names) Hp), (list_to_map_proper (kv <$> es) _ ltac:(by rewrite kv_names) Hp2).
    cbn. by rewrite insert_insert_eq.
Qed.
