(* ===== verification/Ext2Namei.v ===== *)
(** The operations of a directory of ext2 on its names (the struct [Inode] of
    fs/ext2/inode.rs under kernel/aster-nix/src): creation, lookup, links,
    removal and renaming.

    The state is the file system with its inode objects, and the page caches of
    these objects at the same positions.  An object gets its page cache when
    it is made; what the cache of a loaded inode holds is a parameter.  The
    operations run one after the other: the locks of the inodes are left out. *)

From stdpp Require Import gmap.
From S2P Require Import Prelude Perms Pod AlignExt PathLookup RamFs Ext2Raw Ext2Alloc Ext2Inode Ext2Dir.

Section Namei.
Context {P blk : Type} `{!PageCache P}.

(** [PageCache::with_capacity] over the blocks of the inode *)
Context (pc_open : World blk -> nat -> P).

Notation FS := (World blk * list P)%type.
Notation N := (stM FS Errno).

Definition on_world {A} (m : stM (World blk) Errno A) : N A := fun s =>
  let '(r, w) := m s.1 in
  (r, (w, s.2 ++ (pc_open w <$> seq (length s.2) (length (inodes w) - length s.2)))).
Definition on_inner {A} (h : nat) (m : stM (World blk * P) Errno A) : N A := fun s =>
  match s.2 !! h with
  | Some p => let '(r, (w, p')) := m (s.1, p) in (r, (w, <[h := p']> s.2))
  | None => (Panic, s)
  end.
Definition entry_of (h : nat) (name : path) : N (option (Z * DirEntry)) := on_inner h (on_cache (get_entry name 0)).

(** [r.unwrap()], and [if let Err(e) = m { undo; return Err(e); }] *)
Definition unwrap {A} (m : N A) : N A := fun s => match m s with (Err _, s') => (Panic, s') | r => r end.
Definition on_error {A} (m : N A) (undo : N unit) : N A := fun s =>
  match m s with (Err e, s') => (undo ;! serr e) s' | r => r end.

(** [file_type()] and [hard_links()] of an inode *)
Notation type_of i := (i_type (desc (inode_impl i))).
Notation links_of i := (hard_links (desc (inode_impl i))).

(** The checks that operations on a directory begin with *)
Definition check_dir (h : nat) : N Inode :=
  let! i := on_world (get_inode h) in
  if bool_decide (type_of i <> DirT) then serr ENOTDIR
  else if links_of i =? 0 then serr ENOENT
  else sret i.
Definition check_len (name : path) : N unit := if (MAX_FNAME_LEN <? length name)%nat then serr ENAMETOOLONG else sret tt.

(** [Inode::init] *)
Definition init (h : nat) (dir_ino : Z) : N unit :=
  let! i := on_world (get_inode h) in
  if bool_decide (type_of i = DirT) then on_inner h (init_dir h (ino i) dir_ino) else sret tt.

Definition create (h : nat) (name : path) (file_type : FileType) (file_perm : Z) : N nat :=
  let! i := check_dir h in
  check_len name ;!
  let! r := entry_of h name in
  if bool_decide (is_Some r) then serr EEXIST
  else
    let! c := on_world (create_inode (block_group_idx i) file_type file_perm) in
    let! ci := on_world (get_inode c) in
    let undo := unwrap (on_world (on_fs (free_inode (ino ci) (bool_decide (file_type = DirT))))) in
    on_error (init c (ino i)) undo ;!
    let! new_entry := slift (dir_entry_new (ino ci) name file_type) in
    on_error (on_inner h (append_entry h new_entry 0)) undo ;!
    sret c.

(** The inode that an entry names *)
Definition find_inode (h : nat) (name : path) : N (Z * nat) :=
  let! r := entry_of h name in
  let! oe := slift (ok_or r ENOENT) in
  let! c := on_world (lookup_inode (e_ino oe.2)) in
  sret (oe.1, c).

Definition lookup (h : nat) (name : path) : N nat :=
  let! _ := check_dir h in
  check_len name ;!
  let! oc := find_inode h name in sret oc.2.

Definition link (h inode : nat) (name : path) : N unit :=
  let! _ := check_dir h in
  check_len name ;!
  let! i := on_world (get_inode inode) in
  if bool_decide (type_of i = DirT) then serr EPERM
  else
    let! r := entry_of h name in
    if bool_decide (is_Some r) then serr EEXIST
    else
      let! new_entry := slift (dir_entry_new (ino i) name (type_of i)) in
      on_inner h (append_entry h new_entry 0) ;!
      on_world (inc_hard_links inode).

Definition unlink (h : nat) (name : path) : N unit :=
  let! _ := check_dir h in
  if is_dot name then serr EISDIR
  else
    check_len name ;!
    let! oc := find_inode h name in
    let! i := on_world (get_inode oc.2) in
    if bool_decide (type_of i = DirT) then serr EISDIR
    else
      on_inner h (remove_entry h name) ;!
      on_world (dec_hard_links oc.2).

Definition rmdir (h : nat) (name : path) : N unit :=
  let! _ := check_dir h in
  if bool_decide (name = DOT) then serr EINVAL
  else if bool_decide (name = DOTDOT) then serr ENOTEMPTY
  else
    check_len name ;!
    let! oc := find_inode h name in
    let! i := on_world (get_inode oc.2) in
    if bool_decide (type_of i <> DirT) then serr ENOTDIR
    else
      let! n := on_inner oc.2 (on_cache entry_count) in
      if 2 <? n then serr ENOTEMPTY
      else
        on_inner h (remove_entry h name) ;!
        on_world (dec_hard_links oc.2) ;!
        on_world (dec_hard_links oc.2).

(** Whether an inode of type [src] may replace the inode at [dst] *)
Definition check_replace (src : FileType) (dst : nat) : N FileType :=
  let! i := on_world (get_inode dst) in
  match src, type_of i with
  | DirT, DirT =>
      let! n := on_inner dst (on_cache entry_count) in
      if 2 <? n then serr ENOTEMPTY else sret DirT
  | DirT, _ => serr ENOTDIR
  | _, DirT => serr EISDIR
  | _, t => sret t
  end.

Definition rename_within (h : nat) (old_name new_name : path) : N unit :=
  let! _ := check_dir h in
  let! src := find_inode h old_name in
  let! si := on_world (get_inode src.2) in
  let! dst := entry_of h new_name in
  match dst with
  | None => on_inner h (rename_entry h old_name new_name src.1)
  | Some (_, dst_entry) =>
      if ino si =? e_ino dst_entry then sret tt
      else
        let! d := on_world (lookup_inode (e_ino dst_entry)) in
        let! dst_type := check_replace (type_of si) d in
        on_inner h (remove_entry h new_name) ;!
        on_inner h (rename_entry h old_name new_name src.1) ;!
        on_world (dec_hard_links d) ;!
        if bool_decide (dst_type = DirT) then on_world (dec_hard_links d) else sret tt
  end.

Definition rename (h : nat) (old_name : path) (target : nat) (new_name : path) : N unit :=
  if is_dot old_name || is_dot new_name then serr EISDIR
  else
    check_len new_name ;!
    let! i := on_world (get_inode h) in
    let! ti := on_world (get_inode target) in
    if ino i =? ino ti then rename_within h old_name new_name
    else if bool_decide (type_of i <> DirT) || bool_decide (type_of ti <> DirT) then serr ENOTDIR
    else if (links_of i =? 0) || (links_of ti =? 0) then serr ENOENT
    else
      let! src := find_inode h old_name in
      let! si := on_world (get_inode src.2) in
      if ino si =? ino ti then serr EINVAL
      else
        let is_dir := bool_decide (type_of si = DirT) in
        let! dst := entry_of target new_name in
        match dst with
        | None =>
            on_inner h (remove_entry h old_name) ;!
            let! new_entry := slift (dir_entry_new (ino si) new_name (type_of si)) in
            on_inner target (append_entry target new_entry 0) ;!
            if is_dir then on_inner src.2 (on_cache (set_parent_ino (ino ti))) else sret tt
        | Some (_, dst_entry) =>
            if ino si =? e_ino dst_entry then sret tt
            else if ino i =? e_ino dst_entry then serr ENOTEMPTY
            else
              let! d := on_world (lookup_inode (e_ino dst_entry)) in
              let! _ := check_replace (type_of si) d in
              on_inner h (remove_entry h old_name) ;!
              on_inner target (remove_entry target new_name) ;!
              let! new_entry := slift (dir_entry_new (ino si) new_name (type_of si)) in
              on_inner target (append_entry target new_entry 0) ;!
              on_world (dec_hard_links d) ;!
              (if is_dir then on_world (dec_hard_links d) else sret tt) ;!
              if is_dir then on_inner src.2 (on_cache (set_parent_ino (ino ti))) else sret tt
        end.

End Namei.
