(* ===== verification/Ext2Tree.v ===== *)
(** Trees of named inodes, which the directories of ext2 stand for, and when the
    counts of links in such a tree agree with its names. *)

From stdpp Require Import gmap.
From S2P Require Import Prelude PathLookup RamFs Ext2Raw.

(** * Sums over finite maps *)

Section Sums.
Context {K A : Type} `{Countable K}.
Implicit Types (f : A -> Z) (m : gmap K A).

Definition msum f m : Z := map_fold (fun _ a acc => f a + acc) 0 m.

Lemma msum_insert f m k a : m !! k = None -> msum f (<[k := a]> m) = f a + msum f m.
Proof. intros Hk. unfold msum. refine (map_fold_insert_L (fun _ a acc => f a + acc) 0 k a m _ Hk). intros. lia. Qed.

Lemma msum_delete f m k a : m !! k = Some a -> msum f m = f a + msum f (delete k m).
Proof. intros Hk. rewrite <- (insert_delete_id m k a Hk) at 1. apply msum_insert. apply lookup_delete_eq. Qed.

Lemma msum_update f m k a a' : m !! k = Some a -> msum f (<[k := a']> m) = msum f m - f a + f a'.
Proof. intros Hk. rewrite (msum_delete f m k a Hk), <- insert_delete_eq, msum_insert by apply lookup_delete_eq. lia. Qed.

Lemma msum_nonneg f m : (forall a, 0 <= f a) -> 0 <= msum f m.
Proof. intros Hf. unfold msum. apply (map_fold_weak_ind (fun acc _ => 0 <= acc)); [lia|]. intros k a m' acc _ Hacc. specialize (Hf a). lia. Qed.

Lemma msum_ge f m k a : (forall a, 0 <= f a) -> m !! k = Some a -> f a <= msum f m.
Proof. intros Hf Hk. rewrite (msum_delete f m k a Hk). pose proof (msum_nonneg f (delete k m) Hf). lia. Qed.

Lemma msum_zero f m : (forall k a, m !! k = Some a -> f a = 0) -> msum f m = 0.
Proof.
  revert m. refine (map_ind _ _ _); [done|]. intros k a m Hk IH Hf. rewrite msum_insert by done.
  rewrite (Hf k a) by apply lookup_insert_eq. rewrite IH; [done|]. intros k' a' Hk'. apply (Hf k').
  rewrite lookup_insert_ne; [done|]. intros ->. congruence.
Qed.

Lemma msum_one f m k a : m !! k = Some a -> (forall k' a', k' <> k -> m !! k' = Some a' -> f a' = 0) -> msum f m = f a.
Proof.
  intros Hk Hf. rewrite (msum_delete f m k a Hk), (msum_zero f (delete k m)); [lia|].
  intros k' a' [Hne Hk']%lookup_delete_Some. by apply (Hf k').
Qed.
End Sums.

(** * Trees *)

(** An inode: its type, its count of links, and the names it holds *)
Record node : Type := MkNode { n_type : FileType; n_links : Z; n_names : gmap path (Z * FileType) }.
Notation tree := (gmap Z node).
Implicit Types (T : tree) (nd : node) (s : path).

Notation is_dir t := (bool_decide (t = DirT)).

(** Directories that were removed hold no names any more. *)
Definition live nd : bool := is_dir (n_type nd) && (0 <? n_links nd).
Definition lives T (n : Z) : Prop := exists nd, T !! n = Some nd /\ live nd = true.
Definition edge T (n : Z) s (m : Z) (t : FileType) : Prop :=
  exists nd, T !! n = Some nd /\ live nd = true /\ n_names nd !! s = Some (m, t).

(** How often a directory, and how often a tree, names an inode *)
Definition cnt (m : Z) nd : Z := if live nd then msum (fun v : Z * FileType => Z.b2z (v.1 =? m)) (n_names nd) else 0.
Definition refs T (m : Z) : Z := msum (cnt m) T.

(** A consistent tree: the entries [.] and [..] are what they should be, names
    lead to inodes of the recorded type, every count of links is the number of
    names, and a directory other than the root has one name, in its parent. *)
Record consistent (root : Z) T : Prop := {
  cs_root : is_Some (T !! root);
  cs_top p t : edge T root DOTDOT p t -> p = root;
  cs_dot n : lives T n -> edge T n DOT n DirT;
  cs_dotdot n : lives T n -> exists p, edge T n DOTDOT p DirT;
  cs_ref n s m t : edge T n s m t -> exists md, T !! m = Some md /\ n_type md = t;
  cs_links n nd : T !! n = Some nd -> n_links nd = refs T n;
  cs_up n p : n <> root -> edge T n DOTDOT p DirT -> exists s, is_dot s = false /\ edge T p s n DirT;
  cs_down n s m : is_dot s = false -> edge T n s m DirT -> m <> root /\ m <> n /\ edge T m DOTDOT n DirT;
  cs_one n s s' m : is_dot s = false -> is_dot s' = false -> edge T n s m DirT -> edge T n s' m DirT -> s = s';
}.

(** * Operations on trees *)

Notation add_links k := (fun nd => MkNode (n_type nd) (n_links nd + k) (n_names nd)).

(** A new name, and the end of a name, in a directory; a subdirectory counts as
    a link *)
Definition add_name s (v : Z * FileType) nd : node :=
  MkNode (n_type nd) (n_links nd + Z.b2z (is_dir v.2)) (<[s := v]> (n_names nd)).
Definition del_name s (v : Z * FileType) nd : node :=
  MkNode (n_type nd) (n_links nd - Z.b2z (is_dir v.2)) (delete s (n_names nd)).
Definition set_name s (v : Z * FileType) nd : node := MkNode (n_type nd) (n_links nd) (<[s := v]> (n_names nd)).

Definition new_node (t : FileType) (m parent : Z) : node :=
  if is_dir t then MkNode t 2 {[DOT := (m, DirT); DOTDOT := (parent, DirT)]} else MkNode t 1 ∅.

Definition tree_create (n : Z) s (m : Z) (t : FileType) T : tree := alter (add_name s (m, t)) n (<[m := new_node t m n]> T).
Definition tree_link (n : Z) s (v : Z * FileType) T : tree := alter (add_links 1) v.1 (alter (add_name s v) n T).
Definition tree_remove (n : Z) s (v : Z * FileType) T : tree :=
  alter (add_links (if is_dir v.2 then -2 else -1)) v.1 (alter (del_name s v) n T).
Definition tree_move (n : Z) old (n' : Z) new (v : Z * FileType) T : tree :=
  let T := alter (add_name new v) n' (alter (del_name old v) n T) in
  if is_dir v.2 && negb (n =? n') then alter (set_name DOTDOT (n', DirT)) v.1 T else T.

(** * Counts *)

Lemma cnt_nonneg m nd : 0 <= cnt m nd.
Proof. unfold cnt. destruct (live nd); [|lia]. apply msum_nonneg. intros v. destruct (v.1 =? m); cbn; lia. Qed.

Lemma refs_update T n nd nd' m : T !! n = Some nd -> refs (<[n := nd']> T) m = refs T m - cnt m nd + cnt m nd'.
Proof. intros Hn. unfold refs. by rewrite (msum_update (cnt m) T n nd). Qed.

Lemma edge_refs T n s m t : edge T n s m t -> 1 <= refs T m.
Proof.
  intros (nd & Hn & Hl & Hs). pose proof (msum_ge (cnt m) T n nd (cnt_nonneg m) Hn). fold (refs T m) in H.
  assert (1 <= cnt m nd); [|lia]. unfold cnt. rewrite Hl.
  pose proof (msum_ge (fun v : Z * FileType => Z.b2z (v.1 =? m)) (n_names nd) s (m, t)) as Hc. cbn in Hc. rewrite Z.eqb_refl in Hc.
  apply Hc; [|done]. intros v. destruct (v.1 =? m); cbn; lia.
Qed.

Lemma live_add s v nd : live nd = true -> live (add_name s v nd) = true.
Proof. unfold live. cbn. destruct (is_dir (n_type nd)); [cbn|done]. rewrite !Z.ltb_lt. destruct (is_dir v.2); cbn; lia. Qed.

Lemma cnt_add x s v nd : live nd = true -> n_names nd !! s = None -> cnt x (add_name s v nd) = cnt x nd + Z.b2z (v.1 =? x).
Proof.
  intros Hl Hs. unfold cnt. rewrite Hl, live_add by done. cbn [add_name n_names]. rewrite msum_insert by done. lia.
Qed.

Lemma cnt_del x s v nd : live (del_name s v nd) = true -> n_names nd !! s = Some v -> cnt x (del_name s v nd) = cnt x nd - Z.b2z (v.1 =? x).
Proof.
  intros Hl' Hs. assert (Hl : live nd = true).
  { revert Hl'. unfold live. cbn. destruct (is_dir (n_type nd)); [cbn|done]. rewrite !Z.ltb_lt. destruct (is_dir _); cbn; lia. }
  unfold cnt. rewrite Hl, Hl'. cbn [del_name n_names]. rewrite (msum_delete _ (n_names nd) s v Hs). lia.
Qed.

Lemma cnt_same x nd nd' : live nd' = live nd -> n_names nd' = n_names nd -> cnt x nd' = cnt x nd.
Proof. intros H1 H2. unfold cnt. by rewrite H1, H2. Qed.

Lemma cnt_dead x nd : live nd = false -> cnt x nd = 0.
Proof. unfold cnt. by intros ->. Qed.

Lemma edge_insert T n nd' x s y t :
  edge (<[n := nd']> T) x s y t <-> (x = n /\ live nd' = true /\ n_names nd' !! s = Some (y, t)) \/ (x <> n /\ edge T x s y t).
Proof.
  unfold edge. destruct (decide (x = n)) as [->|Hne].
  - rewrite lookup_insert_eq. split; [intros (nd & [= <-] & ?); by left|]. intros [(_ & ?)|[? _]]; [|done]. by exists nd'.
  - rewrite lookup_insert_ne by done. split; [intros H; by right|by intros [[? _]|[_ ?]]].
Qed.

Lemma lives_insert T n nd' x : lives (<[n := nd']> T) x <-> (x = n /\ live nd' = true) \/ (x <> n /\ lives T x).
Proof.
  unfold lives. destruct (decide (x = n)) as [->|Hne].
  - rewrite lookup_insert_eq. split; [intros (nd & [= <-] & ?); by left|]. intros [(_ & ?)|[? _]]; [|done]. by exists nd'.
  - rewrite lookup_insert_ne by done. split; [intros H; by right|by intros [[? _]|[_ ?]]].
Qed.

Lemma edge_at T n nd s y t : T !! n = Some nd -> edge T n s y t <-> live nd = true /\ n_names nd !! s = Some (y, t).
Proof. intros Hn. unfold edge. split; [|by exists nd]. intros (nd' & ? & ?). by simplify_eq. Qed.
Lemma lives_at T n nd : T !! n = Some nd -> lives T n <-> live nd = true.
Proof. intros Hn. unfold lives. split; [|by exists nd]. intros (nd' & ? & ?). by simplify_eq. Qed.

Lemma alter_some {A} (f : A -> A) (k : Z) (M : gmap Z A) a : M !! k = Some a -> alter f k M = <[k := f a]> M.
Proof.
  intros Hk. apply map_eq. intros j. destruct (decide (k = j)) as [<-|]; [by rewrite lookup_alter_eq, lookup_insert_eq, Hk|].
  by rewrite lookup_alter_ne, lookup_insert_ne.
Qed.

(** The same inodes with the same types, perhaps among others *)
Definition typed T T' : Prop := forall n nd, T !! n = Some nd -> exists nd', T' !! n = Some nd' /\ n_type nd' = n_type nd.
Lemma typed_refl T : typed T T.
Proof. intros n nd Hn. by exists nd. Qed.
Lemma typed_insert T T' n nd nd' : typed T T' -> T' !! n = Some nd -> n_type nd' = n_type nd -> typed T (<[n := nd']> T').
Proof.
  intros HT Hn Ht x xd Hx. destruct (HT x xd Hx) as (yd & Hy & Hyt). destruct (decide (n = x)) as [<-|].
  - exists nd'. rewrite lookup_insert_eq. split; [done|]. congruence.
  - exists yd. by rewrite lookup_insert_ne.
Qed.

Section Consistent.
Context (root : Z).

Lemma edge_lives T n s m t : edge T n s m t -> lives T n.
Proof. intros (nd & H1 & H2 & _). by exists nd. Qed.

Lemma not_dots T n s nd : consistent root T -> T !! n = Some nd -> live nd = true -> n_names nd !! s = None -> is_dot s = false.
Proof.
  intros HC Hn Hl Hs. apply not_true_is_false. intros [Hd|Hd]%orb_true_iff; apply bool_decide_eq_true in Hd as ->.
  - destruct (cs_dot _ _ HC n) as (? & ? & ? & ?); [by exists nd|]. congruence.
  - destruct (cs_dotdot _ _ HC n) as (? & ? & ? & ? & ?); [by exists nd|]. congruence.
Qed.

(** Two inodes change, but not their types. *)
Lemma typed_two T n nd nd' m md md' : n <> m -> T !! n = Some nd -> T !! m = Some md -> n_type nd' = n_type nd -> n_type md' = n_type md ->
  typed T (<[m := md']> (<[n := nd']> T)).
Proof. intros Hne Hn Hm H1 H2. apply (typed_insert _ _ m md); [by apply (typed_insert _ _ n nd); [apply typed_refl|..]|by rewrite lookup_insert_ne|done]. Qed.

(** An inode that is named, other than a directory, gets one more name. *)
Lemma consistent_link T n s m t nd md :
  consistent root T -> T !! n = Some nd -> live nd = true -> n_names nd !! s = None -> T !! m = Some md -> n_type md = t -> t <> DirT ->
  consistent root (tree_link n s (m, t) T).
Proof.
  intros HC Hn Hl Hs Hm Ht Hnd. assert (Hne : n <> m).
  { intros ->. assert (nd = md) by congruence. subst. unfold live in Hl. by rewrite bool_decide_eq_false_2 in Hl. }
  unfold tree_link. cbn [fst]. rewrite (alter_some _ n T nd Hn), (alter_some _ m _ md) by (by rewrite lookup_insert_ne).
  set (nd' := add_name s (m, t) nd). set (md' := MkNode _ _ _).
  assert (Hl' : live nd' = true) by (by apply live_add).
  assert (Hdm : live md = false /\ live md' = false) by (unfold live, md'; cbn; by rewrite bool_decide_eq_false_2 by congruence).
  pose proof (not_dots T n s nd HC Hn Hl Hs) as Hdot.
  set (T' := <[m := md']> _).
  assert (HE : forall x s' y t', edge T' x s' y t' <-> edge T x s' y t' \/ (x = n /\ s' = s /\ y = m /\ t' = t)).
  { intros x s' y t'. unfold T'. rewrite !edge_insert. destruct (decide (x = m)) as [->|]; [|destruct (decide (x = n)) as [->|]].
    - rewrite (edge_at T m md) by done. destruct Hdm as [-> ->]. naive_solver.
    - rewrite (edge_at T n nd) by done. cbn [nd' add_name n_names]. rewrite lookup_insert_Some. destruct (decide (s = s')) as [<-|]; naive_solver.
    - naive_solver. }
  assert (HL : forall x, lives T' x <-> lives T x).
  { intros x. unfold T'. rewrite !lives_insert. destruct (decide (x = m)) as [->|]; [|destruct (decide (x = n)) as [->|]].
    - rewrite (lives_at T m md) by done. destruct Hdm as [-> ->]. naive_solver.
    - rewrite (lives_at T n nd) by done. naive_solver.
    - naive_solver. }
  assert (HT : typed T T') by (by apply (typed_two T n nd nd' m md md')).
  pose proof HC as [C0 CR C1 C2 C3 C4 C5 C6 C7]. split.
  - destruct C0 as [rd Hr]. destruct (HT _ _ Hr) as (? & ? & _). by eexists.
  - intros p t' [He|(_ & <- & _)]%HE; [by eapply CR|done].
  - intros x Hx. apply HE. left. apply C1. by apply HL.
  - intros x Hx. destruct (C2 x) as [p Hp]; [by apply HL|]. exists p. apply HE. by left.
  - intros x s' y t' [Hxy|(-> & -> & -> & ->)]%HE.
    + destruct (C3 _ _ _ _ Hxy) as (yd & Hy & <-). by apply HT.
    + rewrite <- Ht. by apply HT.
  - intros x xd Hx. unfold T', nd'. rewrite (refs_update _ m md), (refs_update T n nd), (cnt_add x), (cnt_dead x md), (cnt_dead x md') by (done || tauto || by rewrite lookup_insert_ne).
    cbn [fst]. unfold T' in Hx. destruct (decide (x = m)) as [->|]; [|destruct (decide (x = n)) as [->|]].
    + rewrite lookup_insert_eq in Hx. injection Hx as <-. cbn. rewrite (C4 m md), Z.eqb_refl by done. cbn. lia.
    + rewrite lookup_insert_ne, lookup_insert_eq in Hx by done. injection Hx as <-. cbn. rewrite (C4 n nd), (bool_decide_eq_false_2 (t = DirT)) by done.
      rewrite (proj2 (Z.eqb_neq m n)) by done. cbn. lia.
    + rewrite !lookup_insert_ne in Hx by done. rewrite (C4 x xd), (proj2 (Z.eqb_neq m x)) by done. cbn. lia.
  - intros x p Hx [Hxp|(_ & Hsd & _)]%HE; [|by subst]. destruct (C5 x p Hx Hxp) as (s' & Hs' & He). exists s'. split; [done|]. apply HE. by left.
  - intros x s' y Hs' [He|(-> & -> & -> & ?)]%HE; [|done]. destruct (C6 x s' y Hs' He) as (? & ? & ?). split_and!; [done..|]. apply HE. by left.
  - intros x s1 s2 y H1 H2 [He1|(_ & _ & _ & ?)]%HE [He2|(_ & _ & _ & ?)]%HE; [|done..]. by eapply C7.
Qed.

Lemma not_named T m x s t : consistent root T -> T !! m = None -> edge T x s m t -> False.
Proof. intros HC Hm He. destruct (cs_ref _ _ HC _ _ _ _ He) as (md & ? & _). congruence. Qed.

(** A new inode without names *)
Lemma consistent_fresh T m nd : consistent root T -> T !! m = None -> live nd = false -> n_links nd = 0 -> consistent root (<[m := nd]> T).
Proof.
  intros HC Hm Hd H0. assert (HE : forall x s y t, edge (<[m := nd]> T) x s y t <-> edge T x s y t).
  { intros x s y t. rewrite edge_insert, Hd. split; [naive_solver|]. intros He. right. split; [|done]. intros ->. destruct He as (? & ? & _). congruence. }
  assert (HL : forall x, lives (<[m := nd]> T) x -> lives T x) by (intros x; rewrite lives_insert, Hd; naive_solver).
  assert (Hnn : forall x xd, T !! x = Some xd -> x <> m) by (intros x xd Hx ->; congruence).
  pose proof HC as [C0 CR C1 C2 C3 C4 C5 C6 C7]. split.
  - destruct C0 as [rd Hr]. exists rd. rewrite lookup_insert_ne; [done|]. intros ->. congruence.
  - intros p t He. apply (CR p t). by apply HE.
  - intros x Hx. apply HE, C1. by apply HL.
  - intros x Hx. destruct (C2 x) as [p Hp]; [by apply HL|]. exists p. by apply HE.
  - intros x s y t He. destruct (C3 x s y t) as (yd & Hy & Ht); [by apply HE|]. exists yd. rewrite lookup_insert_ne; [done|]. intros ->. congruence.
  - intros x xd Hx. unfold refs. rewrite msum_insert, cnt_dead by done. fold (refs T x). destruct (decide (x = m)) as [->|].
    + rewrite lookup_insert_eq in Hx. injection Hx as <-. rewrite H0. unfold refs. rewrite msum_zero; [done|]. intros k kd Hk.
      unfold cnt. destruct (live kd) eqn:Hl; [|done]. apply msum_zero. intros s [y t] Hs. cbn. destruct (Z.eqb_spec y m) as [->|]; [|done].
      exfalso. eapply (not_named T m k s t); [done..|]. by exists kd.
    + rewrite lookup_insert_ne in Hx by done. rewrite (C4 x xd) by done. lia.
  - intros x p Hx He. destruct (C5 x p Hx) as (s & Hs & He'); [by apply HE|]. exists s. split; [done|]. by apply HE.
  - intros x s y Hs He. destruct (C6 x s y Hs) as (? & ? & ?); [by apply HE|]. split_and!; [done..|]. by apply HE.
  - intros x s1 s2 y H1 H2 He1 He2. apply (C7 x s1 s2 y H1 H2); by apply HE.
Qed.

Lemma cnt_dots x m p : cnt x (MkNode DirT 2 {[DOT := (m, DirT); DOTDOT := (p, DirT)]}) = Z.b2z (m =? x) + Z.b2z (p =? x).
Proof.
  unfold cnt. change (live _) with true. cbn [n_names]. rewrite msum_insert by done. rewrite <- insert_empty, msum_insert by done.
  unfold msum. rewrite map_fold_empty. cbn. lia.
Qed.

(** A directory without names gets one. *)
Lemma consistent_attach T n s m nd md :
  consistent root T -> T !! n = Some nd -> live nd = true -> n_names nd !! s = None -> T !! m = Some md -> m <> root ->
  n_type md = DirT -> n_links md = 0 -> n_names md = {[DOT := (m, DirT); DOTDOT := (n, DirT)]} ->
  consistent root (<[m := MkNode DirT 2 (n_names md)]> (<[n := add_name s (m, DirT) nd]> T)).
Proof.
  intros HC Hn Hl Hs Hm Hroot Htm H0 Hnames. pose proof (not_dots T n s nd HC Hn Hl Hs) as Hdot.
  assert (Hdm : live md = false) by (unfold live; by rewrite H0, andb_false_r). assert (Hne : n <> m) by (intros ->; congruence).
  set (nd' := add_name s (m, DirT) nd). set (md' := MkNode _ _ _). set (T' := <[m := md']> _).
  assert (Hl' : live nd' = true) by (by apply live_add).
  assert (HE : forall x s' y t', edge T' x s' y t' <-> edge T x s' y t' \/ (x = n /\ s' = s /\ y = m /\ t' = DirT) \/
      (x = m /\ s' = DOT /\ y = m /\ t' = DirT) \/ (x = m /\ s' = DOTDOT /\ y = n /\ t' = DirT)).
  { intros x s' y t'. unfold T'. rewrite !edge_insert. destruct (decide (x = m)) as [->|]; [|destruct (decide (x = n)) as [->|]].
    - rewrite (edge_at T m md), Hdm by done. cbn [md' n_names]. rewrite Hnames, lookup_insert_Some, lookup_singleton_Some. naive_solver.
    - rewrite (edge_at T n nd) by done. cbn [nd' add_name n_names]. rewrite lookup_insert_Some. destruct (decide (s = s')) as [<-|]; naive_solver.
    - naive_solver. }
  assert (HL : forall x, lives T' x <-> lives T x \/ x = m).
  { intros x. unfold T'. rewrite !lives_insert. destruct (decide (x = m)) as [->|]; [|destruct (decide (x = n)) as [->|]].
    - naive_solver.
    - rewrite (lives_at T n nd) by done. naive_solver.
    - naive_solver. }
  assert (Hno : forall x s' t', edge T x s' m t' -> False).
  { intros x s' t' He. apply edge_refs in He. rewrite <- (cs_links _ _ HC m md) in He by done. lia. }
  assert (Hno' : forall s' y t', edge T m s' y t' -> False) by (intros s' y t' He; apply (edge_at T m md) in He as [? _]; [congruence|done]).
  assert (HT : typed T T') by (by apply (typed_two T n nd nd' m md md')).
  pose proof HC as [C0 CR C1 C2 C3 C4 C5 C6 C7]. split.
  - destruct C0 as [rd Hr]. destruct (HT _ _ Hr) as (? & ? & _). by eexists.
  - intros p t' [He|[(_ & <- & _)|[(_ & ? & _)|(<- & _)]]]%HE; [by eapply CR|done..].
  - intros x [Hx| ->]%HL; apply HE; [left; by apply C1|tauto].
  - intros x [Hx| ->]%HL; [destruct (C2 x Hx) as [p Hp]; exists p; apply HE; by left|]. exists n. apply HE. tauto.
  - intros x s' y t' [Hxy|[(-> & -> & -> & ->)|[(-> & -> & -> & ->)|(-> & -> & -> & ->)]]]%HE.
    + destruct (C3 _ _ _ _ Hxy) as (yd & Hy & <-). by apply HT.
    + rewrite <- Htm. by apply HT.
    + rewrite <- Htm. by apply HT.
    + destruct (HT n nd Hn) as (nd2 & ? & Ht2). exists nd2. split; [done|]. rewrite Ht2. unfold live in Hl. apply andb_true_iff in Hl as [Hd _]. by apply bool_decide_eq_true in Hd.
  - intros x xd Hx. unfold T', nd'. rewrite (refs_update _ m md), (refs_update T n nd), (cnt_add x), (cnt_dead x md) by (done || by rewrite lookup_insert_ne).
    unfold md'. rewrite Hnames, cnt_dots. cbn [fst]. unfold T' in Hx. destruct (decide (x = m)) as [->|]; [|destruct (decide (x = n)) as [->|]].
    + rewrite lookup_insert_eq in Hx. injection Hx as <-. cbn. rewrite <- (C4 m md), Z.eqb_refl, (proj2 (Z.eqb_neq n m)) by done. cbn. lia.
    + rewrite lookup_insert_ne, lookup_insert_eq in Hx by done. injection Hx as <-. cbn. rewrite (C4 n nd), Z.eqb_refl, (proj2 (Z.eqb_neq m n)) by done. change (is_dir DirT) with true. cbn. lia.
    + rewrite !lookup_insert_ne in Hx by done. rewrite (C4 x xd), (proj2 (Z.eqb_neq m x)), (proj2 (Z.eqb_neq n x)) by done. cbn. lia.
  - intros x p Hx [He|[(_ & Hsd & _)|[(_ & Hsd & _)|(-> & _ & -> & _)]]]%HE; [|by subst|by subst|].
    + destruct (C5 x p Hx He) as (s' & Hs' & He'). exists s'. split; [done|]. apply HE. by left.
    + exists s. split; [done|]. apply HE. tauto.
  - intros x s' y Hs' [He|[(-> & -> & -> & _)|[(_ & -> & _)|(_ & -> & _)]]]%HE; [|split_and!; [done..|apply HE; tauto]|done|done].
    destruct (C6 x s' y Hs' He) as (? & ? & ?). split_and!; [done..|]. apply HE. by left.
  - intros x s1 s2 y H1 H2 [He1|[(-> & -> & -> & _)|[(_ & -> & _)|(_ & -> & _)]]]%HE [He2|[(? & ? & ? & _)|[(_ & -> & _)|(_ & -> & _)]]]%HE;
      try done; subst; try done; [by eapply C7|exfalso; by eapply Hno..].
Qed.

Lemma edge_fun T n s m t m' t' : edge T n s m t -> edge T n s m' t' -> m = m' /\ t = t'.
Proof. intros (nd & Hn & _ & Hs) (nd' & Hn' & _ & Hs'). by simplify_eq. Qed.

Lemma dir_of_live nd : live nd = true -> n_type nd = DirT.
Proof. unfold live. intros [H _]%andb_true_iff. by apply bool_decide_eq_true in H. Qed.

(** An inode that is no directory loses a name. *)
Lemma consistent_unlink T n s m t nd md :
  consistent root T -> T !! n = Some nd -> live nd = true -> is_dot s = false -> n_names nd !! s = Some (m, t) -> T !! m = Some md ->
  n_type md = t -> t <> DirT -> consistent root (tree_remove n s (m, t) T).
Proof.
  intros HC Hn Hl Hdot Hs Hm Ht Hnd. assert (Hne : n <> m) by (intros ->; simplify_eq; by apply Hnd, dir_of_live).
  unfold tree_remove. cbn [fst snd]. rewrite (bool_decide_eq_false_2 (t = DirT)) by done.
  rewrite (alter_some _ n T nd Hn), (alter_some _ m _ md) by (by rewrite lookup_insert_ne).
  set (nd' := del_name s (m, t) nd). set (md' := MkNode _ _ _). set (T' := <[m := md']> _).
  assert (Hl' : live nd' = true) by (rewrite <- Hl; unfold live, nd'; cbn; by rewrite (bool_decide_eq_false_2 (t = DirT)), Z.sub_0_r by done).
  assert (Hdm : live md = false /\ live md' = false) by (unfold live, md'; cbn; by rewrite bool_decide_eq_false_2 by congruence).
  assert (HE : forall x s' y t', edge T' x s' y t' <-> edge T x s' y t' /\ ~ (x = n /\ s' = s)).
  { intros x s' y t'. unfold T'. rewrite !edge_insert. destruct (decide (x = m)) as [->|]; [|destruct (decide (x = n)) as [->|]].
    - rewrite (edge_at T m md) by done. destruct Hdm as [-> ->]. naive_solver.
    - rewrite (edge_at T n nd) by done. cbn [nd' del_name n_names]. rewrite lookup_delete_Some. naive_solver.
    - naive_solver. }
  assert (HL : forall x, lives T' x <-> lives T x).
  { intros x. unfold T'. rewrite !lives_insert. destruct (decide (x = m)) as [->|]; [|destruct (decide (x = n)) as [->|]].
    - rewrite (lives_at T m md) by done. destruct Hdm as [-> ->]. naive_solver.
    - rewrite (lives_at T n nd) by done. naive_solver.
    - naive_solver. }
  assert (HT : typed T T') by (by apply (typed_two T n nd nd' m md md')).
  assert (Hes : edge T n s m t) by (by exists nd).
  assert (Hkeep : forall x s' y t', edge T x s' y t' -> is_dot s' = true \/ t' = DirT -> edge T' x s' y t').
  { intros x s' y t' He Hor. apply HE. split; [done|]. intros [-> ->]. destruct (edge_fun _ _ _ _ _ _ _ Hes He) as [_ ->]. destruct Hor; congruence. }
  pose proof HC as [C0 CR C1 C2 C3 C4 C5 C6 C7]. split.
  - destruct C0 as [rd Hr]. destruct (HT _ _ Hr) as (? & ? & _). by eexists.
  - intros p t' [He _]%HE. by eapply CR.
  - intros x Hx. apply Hkeep; [by apply C1, HL|by left].
  - intros x Hx. destruct (C2 x) as [p Hp]; [by apply HL|]. exists p. apply Hkeep; [done|by left].
  - intros x s' y t' [Hxy _]%HE. destruct (C3 _ _ _ _ Hxy) as (yd & Hy & <-). by apply HT.
  - intros x xd Hx. unfold T', nd'. rewrite (refs_update _ m md), (refs_update T n nd), (cnt_del x), (cnt_dead x md), (cnt_dead x md') by (done || tauto || by rewrite lookup_insert_ne).
    cbn [fst]. unfold T' in Hx. destruct (decide (x = m)) as [->|]; [|destruct (decide (x = n)) as [->|]].
    + rewrite lookup_insert_eq in Hx. injection Hx as <-. cbn. rewrite (C4 m md), Z.eqb_refl by done. cbn. lia.
    + rewrite lookup_insert_ne, lookup_insert_eq in Hx by done. injection Hx as <-. cbn. rewrite (C4 n nd), (bool_decide_eq_false_2 (t = DirT)) by done.
      rewrite (proj2 (Z.eqb_neq m n)) by done. cbn. lia.
    + rewrite !lookup_insert_ne in Hx by done. rewrite (C4 x xd), (proj2 (Z.eqb_neq m x)) by done. cbn. lia.
  - intros x p Hx [Hxp _]%HE. destruct (C5 x p Hx Hxp) as (s' & Hs' & He). exists s'. split; [done|]. apply Hkeep; [done|by right].
  - intros x s' y Hs' [He _]%HE. destruct (C6 x s' y Hs' He) as (? & ? & ?). split_and!; [done..|]. apply Hkeep; [done|by left].
  - intros x s1 s2 y H1 H2 [He1 _]%HE [He2 _]%HE. by eapply C7.
Qed.

(** An empty directory *)
Lemma two_names {A} (M : gmap path A) a b : (base.size M <= 2)%nat -> M !! DOT = Some a -> M !! DOTDOT = Some b -> M = {[DOT := a; DOTDOT := b]}.
Proof.
  intros Hsz Ha Hb. rewrite <- (insert_delete_id M DOT a Ha). f_equal.
  rewrite <- (insert_delete_id (delete DOT M) DOTDOT b) by (by rewrite lookup_delete_ne). rewrite <- insert_empty. f_equal.
  apply map_size_empty_inv. rewrite !map_size_delete_Some by (done || by rewrite lookup_delete_ne); lia.
Qed.

(** Exactly two entries name an empty directory: its own and the one in its parent. *)
Lemma empty_dir_refs T n s m md :
  consistent root T -> edge T n s m DirT -> is_dot s = false -> T !! m = Some md -> (base.size (n_names md) <= 2)%nat ->
  n_names md = {[DOT := (m, DirT); DOTDOT := (n, DirT)]} /\ n <> m /\ n_links md = 2 /\
  (forall x s' t', edge T x s' m t' -> (x = n /\ s' = s) \/ (x = m /\ s' = DOT)) /\ (forall s' x t', edge T m s' x t' -> is_dot s' = true).
Proof.
  intros HC He Hdot Hm Hsz. destruct (cs_down _ _ HC n s m Hdot He) as (Hroot & Hmn & Hup).
  pose proof (cs_dot _ _ HC m (edge_lives _ _ _ _ _ Hup)) as Hself.
  apply (edge_at T m md) in Hup as [Hlm Hup']; [|done]. pose proof Hself as Hself'. apply (edge_at T m md) in Hself' as [_ Hself']; [|done].
  pose proof (two_names _ _ _ Hsz Hself' Hup') as Hnames.
  assert (Honly : forall s' x t', edge T m s' x t' -> (s' = DOT /\ x = m) \/ (s' = DOTDOT /\ x = n)).
  { intros s' x t' [_ Hx]%(edge_at T m md); [|done]. rewrite Hnames, lookup_insert_Some, lookup_singleton_Some in Hx. naive_solver. }
  assert (Hto : forall x s' t', edge T x s' m t' -> (x = n /\ s' = s) \/ (x = m /\ s' = DOT)).
  { intros x s' t' Hx. assert (t' = DirT) as -> by (destruct (cs_ref _ _ HC _ _ _ _ Hx) as (md' & ? & ?); rewrite <- (dir_of_live md) by done; congruence).
    destruct (is_dot s') eqn:Hd; [apply orb_true_iff in Hd as [Hd|Hd]; apply bool_decide_eq_true in Hd as ->|].
    - right. destruct (edge_fun _ _ _ _ _ _ _ Hx (cs_dot _ _ HC x (edge_lives _ _ _ _ _ Hx))) as [-> _]. done.
    - exfalso. destruct (decide (x = root)) as [->|Hxr]; [by apply (cs_top _ _ HC) in Hx|].
      destruct (cs_up _ _ HC x m Hxr Hx) as (s2 & Hs2 & He2). destruct (Honly _ _ _ He2) as [[-> _]|[-> _]]; done.
    - left. destruct (cs_down _ _ HC x s' m Hd Hx) as (_ & _ & Hup2). apply (edge_at T m md) in Hup2 as [_ Hup2]; [|done]. assert (x = n) as -> by congruence.
      split; [done|]. by apply (cs_one _ _ HC n s' s m). }
  split_and!; [done|done| |done|]; [|intros s' x t' Hx; by destruct (Honly _ _ _ Hx) as [[-> _]|[-> _]]].
  rewrite (cs_links _ _ HC m md Hm). destruct He as (nd & Hn & Hl & Hs). unfold refs.
  rewrite (msum_delete (cnt m) T n nd Hn), (msum_delete (cnt m) (delete n T) m md) by (by rewrite lookup_delete_ne).
  assert (cnt m nd = 1) as ->.
  { unfold cnt. rewrite Hl. rewrite (msum_one _ (n_names nd) s (m, DirT) Hs); [cbn; by rewrite Z.eqb_refl|]. intros s' [y t'] Hne Hs'. cbn.
    destruct (Z.eqb_spec y m) as [->|]; [|done]. exfalso. destruct (Hto n s' t') as [[_ ?]|[? _]]; [by exists nd|done|done]. }
  assert (cnt m md = 1) as ->.
  { unfold cnt. rewrite Hlm. rewrite (msum_one _ (n_names md) DOT (m, DirT) Hself'); [cbn; by rewrite Z.eqb_refl|]. intros s' [y t'] Hne Hs'. cbn.
    destruct (Z.eqb_spec y m) as [->|]; [|done]. exfalso. destruct (Hto m s' t') as [[? _]|[_ ?]]; [by exists md|done|done]. }
  rewrite msum_zero; [done|]. intros x xd [Hxm [Hxn Hx]%lookup_delete_Some]%lookup_delete_Some. unfold cnt. destruct (live xd) eqn:Hlx; [|done].
  apply msum_zero. intros s' [y t'] Hs'. cbn. destruct (Z.eqb_spec y m) as [->|]; [|done]. exfalso.
  destruct (Hto x s' t') as [[? _]|[? _]]; [by exists xd|done|done].
Qed.

Lemma edge_cnt T x s m t xd : T !! x = Some xd -> edge T x s m t -> 1 <= cnt m xd.
Proof.
  intros Hx [Hl Hs]%(edge_at T x xd); [|done]. unfold cnt. rewrite Hl.
  pose proof (msum_ge (fun v : Z * FileType => Z.b2z (v.1 =? m)) (n_names xd) s (m, t)) as Hc. cbn in Hc. rewrite Z.eqb_refl in Hc.
  apply Hc; [|done]. intros v. destruct (v.1 =? m); cbn; lia.
Qed.

Lemma edges_two T x s t x' s' t' m : x <> x' -> edge T x s m t -> edge T x' s' m t' -> 2 <= refs T m.
Proof.
  intros Hne He He'. pose proof He as (xd & Hx & _). pose proof He' as (xd' & Hx' & _). unfold refs.
  rewrite (msum_delete (cnt m) T x xd Hx), (msum_delete (cnt m) (delete x T) x' xd') by (by rewrite lookup_delete_ne).
  pose proof (edge_cnt _ _ _ _ _ _ Hx He). pose proof (edge_cnt _ _ _ _ _ _ Hx' He'). pose proof (msum_nonneg (cnt m) (delete x' (delete x T)) (cnt_nonneg m)). lia.
Qed.

(** A directory stays when it loses a subdirectory. *)
Lemma live_del T n s m nd : consistent root T -> T !! n = Some nd -> edge T n s m DirT -> is_dot s = false -> live (del_name s (m, DirT) nd) = true.
Proof.
  intros HC Hn He Hdot. destruct (cs_down _ _ HC n s m Hdot He) as (_ & Hmn & Hup).
  pose proof (cs_dot _ _ HC n (edge_lives _ _ _ _ _ He)) as Hself. assert (Hl : live nd = true) by (by apply (edge_at T n nd) in He as [? _]).
  pose proof (edges_two T n DOT DirT m DOTDOT DirT n (not_eq_sym Hmn) Hself Hup) as H2. rewrite <- (cs_links _ _ HC n nd Hn) in H2.
  unfold live, del_name. cbn. rewrite (dir_of_live nd Hl). cbn. apply Z.ltb_lt. change (is_dir DirT) with true. cbn. lia.
Qed.

(** An empty directory is removed. *)
Lemma consistent_rmdir T n s m nd md :
  consistent root T -> T !! n = Some nd -> live nd = true -> is_dot s = false -> n_names nd !! s = Some (m, DirT) -> T !! m = Some md ->
  (base.size (n_names md) <= 2)%nat -> consistent root (tree_remove n s (m, DirT) T).
Proof.
  intros HC Hn Hl Hdot Hs Hm Hsz. assert (Hes : edge T n s m DirT) by (by exists nd).
  destruct (empty_dir_refs T n s m md HC Hes Hdot Hm Hsz) as (Hnames & Hne & H2 & Hto & Hfrom).
  destruct (cs_down _ _ HC n s m Hdot Hes) as (Hroot & _ & Hup).
  unfold tree_remove. cbn [fst snd]. change (is_dir DirT) with true. cbn iota.
  rewrite (alter_some _ n T nd Hn), (alter_some _ m _ md) by (by rewrite lookup_insert_ne).
  pose proof (live_del T n s m nd HC Hn Hes Hdot) as Hl'. set (nd' := del_name s (m, DirT) nd) in *. set (md' := MkNode _ _ _). set (T' := <[m := md']> _).
  assert (Hdm : live md' = false) by (unfold live, md'; cbn; by rewrite H2, andb_false_r).
  assert (HE : forall x s' y t', edge T' x s' y t' <-> edge T x s' y t' /\ x <> m /\ ~ (x = n /\ s' = s)).
  { intros x s' y t'. unfold T'. rewrite !edge_insert. destruct (decide (x = m)) as [->|]; [|destruct (decide (x = n)) as [->|]].
    - rewrite Hdm. naive_solver.
    - rewrite (edge_at T n nd) by done. cbn [nd' del_name n_names]. rewrite lookup_delete_Some. naive_solver.
    - naive_solver. }
  assert (HL : forall x, lives T' x <-> lives T x /\ x <> m).
  { intros x. unfold T'. rewrite !lives_insert. destruct (decide (x = m)) as [->|]; [|destruct (decide (x = n)) as [->|]].
    - rewrite Hdm. naive_solver.
    - rewrite (lives_at T n nd) by done. naive_solver.
    - naive_solver. }
  assert (HT : typed T T') by (by apply (typed_two T n nd nd' m md md')).
  pose proof HC as [C0 CR C1 C2 C3 C4 C5 C6 C7]. split.
  - destruct C0 as [rd Hr]. destruct (HT _ _ Hr) as (? & ? & _). by eexists.
  - intros p t' [He _]%HE. by eapply CR.
  - intros x [Hx Hxm]%HL. apply HE. split_and!; [by apply C1|done|]. by intros [_ <-].
  - intros x [Hx Hxm]%HL. destruct (C2 x Hx) as [p Hp]. exists p. apply HE. split_and!; [done..|]. by intros [_ <-].
  - intros x s' y t' [Hxy _]%HE. destruct (C3 _ _ _ _ Hxy) as (yd & Hy & <-). by apply HT.
  - intros x xd Hx. unfold T', nd'. rewrite (refs_update _ m md), (refs_update T n nd), (cnt_del x), (cnt_dead x md') by (done || by rewrite lookup_insert_ne).
    assert (Hc : cnt x md = Z.b2z (m =? x) + Z.b2z (n =? x)).
    { unfold cnt. assert (live md = true) as -> by (by apply (edge_at T m md) in Hup as [? _]). rewrite Hnames.
      rewrite msum_insert by done. rewrite <- insert_empty, msum_insert by done. unfold msum. rewrite map_fold_empty. cbn. lia. }
    rewrite Hc. cbn [fst]. unfold T' in Hx. destruct (decide (x = m)) as [->|]; [|destruct (decide (x = n)) as [->|]].
    + rewrite lookup_insert_eq in Hx. injection Hx as <-. cbn. rewrite <- (C4 m md), Z.eqb_refl, (proj2 (Z.eqb_neq n m)) by done. cbn. lia.
    + rewrite lookup_insert_ne, lookup_insert_eq in Hx by done. injection Hx as <-. cbn. rewrite (C4 n nd), Z.eqb_refl, (proj2 (Z.eqb_neq m n)) by done.
      change (is_dir DirT) with true. cbn. lia.
    + rewrite !lookup_insert_ne in Hx by done. rewrite (C4 x xd), (proj2 (Z.eqb_neq m x)), (proj2 (Z.eqb_neq n x)) by done. cbn. lia.
  - intros x p Hx (Hxp & Hxm & _)%HE. destruct (C5 x p Hx Hxp) as (s' & Hs' & He). exists s'. split; [done|]. apply HE. split_and!; [done| |].
    + intros ->. apply Hfrom in He. congruence.
    + intros [-> ->]. destruct (edge_fun _ _ _ _ _ _ _ He Hes) as [-> _]. done.
  - intros x s' y Hs' (He & Hxm & Hns)%HE. destruct (C6 x s' y Hs' He) as (? & ? & ?). split_and!; [done..|]. apply HE. split_and!; [done| |].
    + intros ->. destruct (Hto x s' DirT He) as [?|[? ?]]; [done|congruence].
    + intros [_ <-]. done.
  - intros x s1 s2 y H1 H3 [He1 _]%HE [He2 _]%HE. by eapply C7.
Qed.

(** A name moves, within its directory or for an inode that is no directory. *)
Lemma consistent_moved T T' n old n' new m t :
  consistent root T -> edge T n old m t -> is_dot old = false -> is_dot new = false -> (t = DirT -> n' = n) -> typed T T' ->
  (forall x s y u, edge T' x s y u <-> (edge T x s y u /\ ~ (x = n /\ s = old)) \/ (x = n' /\ s = new /\ y = m /\ u = t)) ->
  (forall x, lives T' x -> lives T x) -> (forall x xd, T' !! x = Some xd -> n_links xd = refs T' x) -> consistent root T'.
Proof.
  intros HC Ho Hdo Hdn Hsame HT HE HL Hlinks. pose proof HC as [C0 CR C1 C2 C3 C4 C5 C6 C7].
  assert (Hkeep : forall x s y u, edge T x s y u -> is_dot s = true -> edge T' x s y u).
  { intros x s y u He Hd. apply HE. left. split; [done|]. intros [_ ->]. congruence. }
  split; [..|done| | |].
  - destruct C0 as [rd Hr]. destruct (HT _ _ Hr) as (? & ? & _). by eexists.
  - intros p u [[He _]|(_ & <- & _)]%HE; [by eapply CR|done].
  - intros x Hx. apply Hkeep; [by apply C1, HL|done].
  - intros x Hx. destruct (C2 x) as [p Hp]; [by apply HL|]. exists p. by apply Hkeep.
  - intros x s y u [[He _]|(-> & -> & -> & ->)]%HE; [destruct (C3 _ _ _ _ He) as (yd & Hy & <-)|destruct (C3 _ _ _ _ Ho) as (yd & Hy & <-)]; by apply HT.
  - intros x p Hx [[He _]|(_ & <- & _)]%HE; [|done]. destruct (C5 x p Hx He) as (s & Hs & Hps).
    destruct (decide (p = n /\ s = old)) as [[-> ->]|Hno].
    + destruct (edge_fun _ _ _ _ _ _ _ Ho Hps) as [-> ->]. exists new. split; [done|]. apply HE. right. by rewrite Hsame.
    + exists s. split; [done|]. apply HE. by left.
  - intros x s y Hs [[He _]|(-> & -> & -> & <-)]%HE.
    + destruct (C6 x s y Hs He) as (? & ? & ?). split_and!; [done..|]. by apply Hkeep.
    + rewrite Hsame by done. destruct (C6 n old m Hdo Ho) as (? & ? & ?). split_and!; [done..|]. by apply Hkeep.
  - intros x s1 s2 y H1 H2 [[He1 Hn1]|(-> & -> & -> & <-)]%HE [[He2 Hn2]|(? & ? & ? & ?)]%HE; subst; [by eapply C7| | |done].
    + exfalso. apply Hn1. split; [by apply Hsame|]. apply (C7 n s1 old m H1 Hdo); [|done]. by rewrite <- Hsame.
    + exfalso. apply Hn2. split; [by apply Hsame|]. apply (C7 n s2 old m H2 Hdo); [|done]. by rewrite <- Hsame.
Qed.

Section Move.
Context (T : tree) (n : Z) (old : path) (n' : Z) (new : path) (m : Z) (t : FileType) (nd nd2 : node).
Context (HC : consistent root T) (Hn : T !! n = Some nd) (Hl : live nd = true) (Hdo : is_dot old = false) (Hold : n_names nd !! old = Some (m, t)).
Context (Hn2 : T !! n' = Some nd2) (Hl2 : live nd2 = true) (Hnew : n_names nd2 !! new = None).

Lemma move_same : n = n' -> consistent root (tree_move n old n' new (m, t) T).
Proof using All.
  intros <-. assert (nd2 = nd) as -> by congruence. unfold tree_move. rewrite Z.eqb_refl, andb_false_r.
  rewrite (alter_some _ n T nd Hn), (alter_some _ n _ (del_name old (m, t) nd)), insert_insert_eq by (by rewrite lookup_insert_eq).
  set (nd' := add_name _ _ _). assert (Hl' : live nd' = true) by (rewrite <- Hl; unfold live, nd', add_name, del_name; cbn; by rewrite Z.sub_add).
  apply (consistent_moved T _ n old n new m t HC); try done; [by exists nd|by eapply not_dots|by apply (typed_insert _ _ n nd); [apply typed_refl|..]| | |].
  - intros x s y u. rewrite edge_insert. destruct (decide (x = n)) as [->|]; [|naive_solver]. rewrite (edge_at T n nd) by done.
    cbn [nd' add_name del_name n_names]. rewrite lookup_insert_Some, lookup_delete_Some. destruct (decide (new = s)) as [<-|]; naive_solver.
  - intros x. rewrite lives_insert. intros [[-> _]|[_ ?]]; [by exists nd|done].
  - intros x xd Hx. rewrite (refs_update T n nd) by done. assert (Hc : cnt x nd' = cnt x nd).
    { unfold cnt. rewrite Hl, Hl'. cbn [nd' add_name del_name n_names]. rewrite msum_insert by (by rewrite lookup_delete_ne by congruence).
      by rewrite (msum_delete _ (n_names nd) old (m, t) Hold). }
    rewrite Hc. destruct (decide (x = n)) as [->|].
    + rewrite lookup_insert_eq in Hx. injection Hx as <-. cbn. rewrite (cs_links _ _ HC n nd Hn). lia.
    + rewrite lookup_insert_ne in Hx by done. rewrite (cs_links _ _ HC x xd Hx). lia.
Qed.

Lemma move_file : n <> n' -> t <> DirT -> consistent root (tree_move n old n' new (m, t) T).
Proof using All.
  intros Hne Ht. unfold tree_move. cbn [snd]. rewrite (bool_decide_eq_false_2 (t = DirT)) by done. cbn [andb].
  rewrite (alter_some _ n T nd Hn), (alter_some _ n' _ nd2) by (by rewrite lookup_insert_ne).
  set (nd' := del_name _ _ _). assert (Hl' : live nd' = true) by (rewrite <- Hl; unfold live, nd', del_name; cbn; by rewrite (bool_decide_eq_false_2 (t = DirT)), Z.sub_0_r by done).
  set (nd3 := add_name _ _ _). assert (Hl3 : live nd3 = true) by (by apply live_add).
  apply (consistent_moved T _ n old n' new m t HC); try done; [by exists nd|by eapply (not_dots T n' new nd2)| | | |].
  - apply (typed_insert _ _ n' nd2); [apply (typed_insert _ _ n nd); [apply typed_refl|done..]|by rewrite lookup_insert_ne|done].
  - intros x s y u. rewrite !edge_insert. destruct (decide (x = n')) as [->|]; [|destruct (decide (x = n)) as [->|]; [|naive_solver]].
    + rewrite (edge_at T n' nd2) by done. cbn [nd3 add_name n_names]. rewrite lookup_insert_Some. destruct (decide (new = s)) as [<-|]; naive_solver.
    + rewrite (edge_at T n nd) by done. cbn [nd' del_name n_names]. rewrite lookup_delete_Some. naive_solver.
  - intros x. rewrite !lives_insert. intros [[-> _]|[_ [[-> _]|[_ ?]]]]; [by exists nd2|by exists nd|done].
  - intros x xd Hx. unfold nd3, nd'. rewrite (refs_update _ n' nd2), (refs_update T n nd), cnt_add, cnt_del by (done || by rewrite lookup_insert_ne).
    destruct (decide (x = n')) as [->|]; [|destruct (decide (x = n)) as [->|]].
    + rewrite lookup_insert_eq in Hx. injection Hx as <-. cbn. rewrite (cs_links _ _ HC n' nd2 Hn2), (bool_decide_eq_false_2 (t = DirT)) by done. cbn. lia.
    + rewrite lookup_insert_ne, lookup_insert_eq in Hx by done. injection Hx as <-. cbn.
      rewrite (cs_links _ _ HC n nd Hn), (bool_decide_eq_false_2 (t = DirT)) by done. cbn. lia.
    + rewrite !lookup_insert_ne in Hx by done. rewrite (cs_links _ _ HC x xd Hx). lia.
Qed.

(** The counts of links when a directory moves *)
Lemma move_dir_links md : n <> n' -> n <> m -> m <> n' -> t = DirT -> T !! m = Some md -> live md = true -> n_names md !! DOTDOT = Some (n, DirT) ->
  live (del_name old (m, DirT) nd) = true ->
  let T' := <[m := set_name DOTDOT (n', DirT) md]> (<[n' := add_name new (m, DirT) nd2]> (<[n := del_name old (m, DirT) nd]> T)) in
  forall x xd, T' !! x = Some xd -> n_links xd = refs T' x.
Proof using All.
  intros Hne Hmn Hmn' -> Hm Hlm Hdd Hl' T'. set (md' := set_name _ _ md) in *. assert (Hlm' : live md' = true) by done.
  intros x xd Hx. assert (Hc : cnt x md' = cnt x md - Z.b2z (n =? x) + Z.b2z (n' =? x)).
  { unfold cnt. rewrite Hlm, Hlm'. cbn [md' set_name n_names]. by rewrite (msum_update _ (n_names md) DOTDOT (n, DirT) (n', DirT) Hdd). }
  unfold T' in *. rewrite (refs_update _ m md), (refs_update _ n' nd2), (refs_update T n nd), cnt_add, cnt_del, Hc by (done || by rewrite !lookup_insert_ne).
  cbn [fst]. destruct (decide (x = m)) as [->|]; [|destruct (decide (x = n')) as [->|]; [|destruct (decide (x = n)) as [->|]]].
  - rewrite lookup_insert_eq in Hx. injection Hx as <-. cbn. rewrite (cs_links _ _ HC m md Hm), (proj2 (Z.eqb_neq n m)), (proj2 (Z.eqb_neq n' m)) by done. cbn. lia.
  - rewrite lookup_insert_ne, lookup_insert_eq in Hx by done. injection Hx as <-. cbn. change (is_dir DirT) with true.
    rewrite (cs_links _ _ HC n' nd2 Hn2), Z.eqb_refl, (proj2 (Z.eqb_neq n n')) by done. cbn. lia.
  - rewrite !lookup_insert_ne, lookup_insert_eq in Hx by done. injection Hx as <-. cbn. change (is_dir DirT) with true.
    rewrite (cs_links _ _ HC n nd Hn), Z.eqb_refl, (proj2 (Z.eqb_neq n' n)) by done. cbn. lia.
  - rewrite !lookup_insert_ne in Hx by done. rewrite (cs_links _ _ HC x xd Hx), (proj2 (Z.eqb_neq n x)), (proj2 (Z.eqb_neq n' x)) by done. cbn. lia.
Qed.

(** A directory moves to another directory, which becomes its parent. *)
Lemma move_dir : n <> n' -> t = DirT -> m <> n' -> consistent root (tree_move n old n' new (m, t) T).
Proof using All.
  intros Hne Ht Hmn'. pose proof move_dir_links as Hml. rewrite Ht in *. assert (Ho : edge T n old m DirT) by (by exists nd). destruct (cs_down _ _ HC n old m Hdo Ho) as (Hroot & Hmn & Hup).
  pose proof Hup as (md & Hm & Hlm & Hdd). pose proof (not_dots T n' new nd2 HC Hn2 Hl2 Hnew) as Hdn.
  unfold tree_move. cbn [fst snd]. change (is_dir DirT) with true. rewrite (proj2 (Z.eqb_neq n n')) by done. cbn [andb negb].
  rewrite (alter_some _ n T nd Hn), (alter_some _ n' _ nd2), (alter_some _ m _ md) by (by rewrite !lookup_insert_ne).
  pose proof (live_del T n old m nd HC Hn Ho Hdo) as Hl'. set (nd' := del_name _ _ _) in *. set (nd3 := add_name _ _ _). set (md' := set_name _ _ _).
  assert (Hl3 : live nd3 = true) by (by apply live_add). assert (Hlm' : live md' = true) by done. set (T' := <[m := md']> _).
  assert (HE : forall x s y u, edge T' x s y u <-> (edge T x s y u /\ ~ (x = n /\ s = old) /\ ~ (x = m /\ s = DOTDOT)) \/
      (x = n' /\ s = new /\ y = m /\ u = DirT) \/ (x = m /\ s = DOTDOT /\ y = n' /\ u = DirT)).
  { intros x s y u. unfold T'. rewrite !edge_insert. destruct (decide (x = m)) as [->|]; [|destruct (decide (x = n')) as [->|]; [|destruct (decide (x = n)) as [->|]; [|naive_solver]]].
    - rewrite (edge_at T m md) by done. cbn [md' set_name n_names]. rewrite lookup_insert_Some. destruct (decide (DOTDOT = s)) as [<-|]; naive_solver.
    - rewrite (edge_at T n' nd2) by done. cbn [nd3 add_name n_names]. rewrite lookup_insert_Some. destruct (decide (new = s)) as [<-|]; naive_solver.
    - rewrite (edge_at T n nd) by done. cbn [nd' del_name n_names]. rewrite lookup_delete_Some. naive_solver. }
  assert (HT : typed T T').
  { apply (typed_insert _ _ m md); [apply (typed_insert _ _ n' nd2); [apply (typed_insert _ _ n nd); [apply typed_refl|done..]|by rewrite lookup_insert_ne|done]|by rewrite !lookup_insert_ne|done]. }
  assert (HL : forall x, lives T' x -> lives T x).
  { intros x. unfold T'. rewrite !lives_insert. intros [[-> _]|[_ [[-> _]|[_ [[-> _]|[_ ?]]]]]]; [by exists md|by exists nd2|by exists nd|done]. }
  pose proof HC as [C0 CR C1 C2 C3 C4 C5 C6 C7]. split.
  - destruct C0 as [rd Hr]. destruct (HT _ _ Hr) as (? & ? & _). by eexists.
  - intros p u [[He _]|[(_ & <- & _)|(<- & _)]]%HE; [by eapply CR|done|done].
  - intros x Hx%HL. apply HE. left. split_and!; [by apply C1|by intros [_ <-]|by intros [_ ?]].
  - intros x Hx%HL. destruct (decide (x = m)) as [->|Hxm]; [exists n'; apply HE; tauto|]. destruct (C2 x Hx) as [p Hp]. exists p. apply HE. left.
    split_and!; [done|by intros [_ <-]|by intros [? _]].
  - intros x s y u [[He _]|[(-> & -> & -> & ->)|(-> & -> & -> & ->)]]%HE.
    + destruct (C3 _ _ _ _ He) as (yd & Hy & <-). by apply HT.
    + rewrite <- (dir_of_live md Hlm). by apply HT.
    + rewrite <- (dir_of_live nd2 Hl2). by apply HT.
  - by apply (Hml md).
  - intros x p Hx [(He & _ & Hnm)|[(_ & <- & _)|(-> & _ & -> & _)]]%HE; [|done|exists new; split; [done|apply HE; tauto]].
    destruct (C5 x p Hx He) as (s & Hs & Hps). exists s. split; [done|]. apply HE. left. split_and!; [done| |by intros [_ ->]].
    intros [-> ->]. destruct (edge_fun _ _ _ _ _ _ _ Ho Hps) as [-> _]. by apply Hnm.
  - intros x s y Hs [(He & Hno & _)|[(-> & -> & -> & _)|(_ & -> & _)]]%HE; [|split_and!; [done..|apply HE; tauto]|done].
    destruct (C6 x s y Hs He) as (? & ? & ?). split_and!; [done..|]. apply HE. left. split_and!; [done|by intros [_ <-]|]. intros [-> _]. apply Hno.
    destruct (C6 n old m Hdo Ho) as (_ & _ & Hup'). destruct (edge_fun _ _ _ _ _ _ _ Hup' H1) as [<- _]. split; [done|]. by apply (C7 n s old m).
  - assert (Hnone : forall s, is_dot s = false -> edge T n' s m DirT -> False).
    { intros s Hs He. destruct (C6 n' s m Hs He) as (_ & _ & Hup'). destruct (edge_fun _ _ _ _ _ _ _ Hup Hup') as [? _]. done. }
    intros x s1 s2 y H1 H2 [(He1 & _)|[(-> & -> & -> & _)|(_ & -> & _)]]%HE [(He2 & _)|[(? & ? & ? & _)|(_ & -> & _)]]%HE; try done; subst; try done;
      [by eapply C7|exfalso; (eapply Hnone; [|eassumption]); done..].
Qed.
End Move.

(** A new inode with its first name *)
Lemma consistent_create T n s m t nd :
  consistent root T -> T !! n = Some nd -> live nd = true -> n_names nd !! s = None -> T !! m = None -> consistent root (tree_create n s m t T).
Proof.
  intros HC Hn Hl Hs Hm. assert (Hne : n <> m) by (intros ->; congruence). assert (Hroot : m <> root).
  { intros ->. destruct (cs_root _ _ HC) as [? ?]. congruence. }
  unfold tree_create. rewrite (alter_some _ n _ nd) by (by rewrite lookup_insert_ne). unfold new_node. case_bool_decide as Ht.
  - subst t. set (md := MkNode DirT 0 {[DOT := (m, DirT); DOTDOT := (n, DirT)]}).
    pose proof (consistent_fresh T m md HC Hm eq_refl eq_refl) as HC0.
    pose proof (consistent_attach (<[m := md]> T) n s m nd md HC0 ltac:(by rewrite lookup_insert_ne) Hl Hs (lookup_insert_eq _ _ _) Hroot eq_refl eq_refl eq_refl) as HC1.
    by rewrite (insert_insert_ne (<[m := md]> T) m n), insert_insert_eq in HC1 by done.
  - set (md := MkNode t 0 ∅). assert (Hd : live md = false) by (unfold live; cbn; by rewrite bool_decide_eq_false_2).
    pose proof (consistent_fresh T m md HC Hm Hd eq_refl) as HC0.
    pose proof (consistent_link (<[m := md]> T) n s m t nd md HC0 ltac:(by rewrite lookup_insert_ne) Hl Hs (lookup_insert_eq _ _ _) eq_refl Ht) as HC1.
    unfold tree_link in HC1. cbn [fst] in HC1. rewrite (alter_some _ n _ nd), (alter_some _ m _ md) in HC1 by (rewrite lookup_insert_ne by done; rewrite ?lookup_insert_eq; done).
    by rewrite (insert_insert_ne (<[m := md]> T) m n), insert_insert_eq in HC1 by done.
Qed.
End Consistent.
