(* ===== verification/Ext2NameiFacts.v ===== *)
(** What the operations on the blocks and the entries of a directory of ext2
    leave alone: the inodes that are cached, and the other inode objects. *)

From stdpp Require Import gmap.
From S2P Require Import Prelude Perms Pod AlignExt PathLookup RamFs Ext2Raw Ext2Alloc Ext2AllocFacts Ext2Inode Ext2InodeFacts Ext2Dir Ext2DirFacts Ext2DirSpec.

(** * Operations that respect a preorder on states *)

Definition preserves {S E A} (R : relation S) (m : stM S E A) : Prop := forall s, R s (m s).2.

Section Preserves.
Context {S E : Type} (R : relation S) `{!PreOrder R}.

Lemma preserves_bind {A B} (m : stM S E A) (k : A -> stM S E B) : preserves R m -> (forall a, preserves R (k a)) -> preserves R (sbind m k).
Proof.
  intros Hm Hk s. specialize (Hm s). unfold sbind. destruct (m s) as [[a|e|] s']; cbn in *; [|done..]. etrans; [done|apply Hk].
Qed.
Lemma preserves_same {A} (m : stM S E A) : (forall s, (m s).2 = s) -> preserves R m.
Proof. intros Hm s. by rewrite Hm. Qed.
Lemma preserves_sfor {A} (l : list A) (body : A -> stM S E unit) : (forall a, preserves R (body a)) -> preserves R (sfor l body).
Proof. intros Hb. induction l as [|a l IH]; [by apply preserves_same|]. apply preserves_bind; [apply Hb|done]. Qed.
End Preserves.

Ltac unchanged := apply preserves_same; [typeclasses eauto|done].
Ltac preserve := repeat
  match goal with
  | |- preserves _ (sbind _ _) => apply preserves_bind; [typeclasses eauto| |intros ?]
  | |- preserves _ (sfor _ _) => apply preserves_sfor; [typeclasses eauto|intros ?]
  | |- _ => unchanged
  end.

(** * Inodes in the block groups *)

(** Something that is kept of every group, with the number of inodes of a group *)
Section View.
Context {X : Type} (v : BlockGroup -> X).

Definition same_view (fs fs' : Ext2) : Prop := inodes_per_group fs' = inodes_per_group fs /\ v <$> block_groups fs' = v <$> block_groups fs.

#[export] Instance same_view_preorder : PreOrder same_view.
Proof. split; [done|]. intros a b c [H1 H2] [H3 H4]. split; congruence. Qed.

Lemma same_view_length fs fs' : same_view fs fs' -> length (block_groups fs') = length (block_groups fs).
Proof. intros [_ H]. apply (f_equal length) in H. by rewrite !length_fmap in H. Qed.

Lemma same_view_at fs fs' j g : same_view fs fs' -> block_groups fs !! j = Some g -> exists g', block_groups fs' !! j = Some g' /\ v g' = v g.
Proof.
  intros [_ H] Hg. assert (Hj : (v <$> block_groups fs') !! j = Some (v g)) by (by rewrite H, list_lookup_fmap, Hg).
  rewrite list_lookup_fmap in Hj. destruct (block_groups fs' !! j) as [g'|]; [|done]. injection Hj as Hj. by exists g'.
Qed.

Lemma sb_update_view b i : preserves same_view (sb_update b i).
Proof. intros fs. unfold sb_update, sbind, slift, sput. destruct (b _); [|done..]. destruct (i _); done. Qed.

Lemma on_group_view {A} idx (op : BlockGroup -> outcome Errno (A * BlockGroup)) :
  (forall g r, op g = Ok r -> v r.2 = v g) -> preserves same_view (on_group idx op).
Proof.
  intros Hop fs. unfold on_group, sbind, sget, slift, sput, sret. destruct (block_groups fs !! idx) as [g|] eqn:Hg; [|done]. cbn [ounwrap].
  destruct (op g) as [r|e|] eqn:Ho; [|done..]. cbn. split; [done|]. cbn. rewrite list_fmap_insert.
  apply list_insert_id. rewrite list_lookup_fmap, Hg. cbn. by rewrite (Hop g r Ho).
Qed.
End View.

Definition inode_state (g : BlockGroup) : IdAlloc * gmap Z Z * Z * Z :=
  (inode_bitmap (metadata g), inode_cache g, g_free_inodes (descriptor (metadata g)), dirs_count (descriptor (metadata g))).
Notation same_inodes := (same_view inode_state).

Lemma bg_alloc_block_same g r : @bg_alloc_block Errno g = Ok r -> inode_state r.2 = inode_state g.
Proof.
  unfold bg_alloc_block, gm_alloc_block. destruct (_ =? 0); [by intros [= <-]|]. destruct (id_alloc _) as [[b|] a]; cbn; [|by intros [= <-]; destruct g].
  unfold dec_counter, oassert. destruct (_ <? _); cbn; [|done]. by intros [= <-].
Qed.

Lemma alloc_block_same idx : preserves same_inodes (alloc_block idx).
Proof.
  assert (Hloop : forall n idx, preserves same_inodes (alloc_block_loop n idx)).
  { induction n as [|n IH]; intros j; cbn [alloc_block_loop]; [unchanged|].
    apply preserves_bind; [typeclasses eauto|unchanged|intros fs]. apply preserves_bind; [typeclasses eauto| |intros [b|]; [|apply IH]].
    - apply on_group_view. apply bg_alloc_block_same.
    - preserve. apply sb_update_view. }
  unfold alloc_block. apply preserves_bind; [typeclasses eauto|unchanged|intros fs]. destruct (_ <=? _)%nat; [unchanged|apply Hloop].
Qed.

Lemma free_block_same bid : preserves same_inodes (free_block bid).
Proof.
  unfold free_block. preserve; [apply sb_update_view|]. apply on_group_view. intros g r. unfold bg_free_block, gm_free_block.
  destruct (is_allocated _ _) as [[]| |]; cbn; [|done..]. destruct (id_free _ _) as [bm| |]; cbn; [|done..].
  destruct (inc_counter _ _) as [c| |]; cbn; [|done..]. by intros [= <-].
Qed.

Lemma alloc_ino_caches idx is_dir : preserves (same_view inode_cache) (alloc_ino idx is_dir).
Proof.
  assert (Hloop : forall n idx, preserves (same_view inode_cache) (alloc_ino_loop n idx is_dir)).
  { induction n as [|n IH]; intros j; cbn [alloc_ino_loop]; [unchanged|].
    apply preserves_bind; [typeclasses eauto|unchanged|intros fs]. apply preserves_bind; [typeclasses eauto| |intros [b|]; [|apply IH]].
    - apply on_group_view. intros g r. unfold bg_alloc_inode. destruct (_ =? 0); [by intros [= <-]|].
      destruct (gm_alloc_inode _ _) as [[]| |]; cbn; [|done..]. by intros [= <-].
    - preserve. apply sb_update_view. }
  unfold alloc_ino. apply preserves_bind; [typeclasses eauto|unchanged|intros fs]. destruct (_ <=? _)%nat; [unchanged|apply Hloop].
Qed.

(** * Inode objects *)

Section Touched.
Context {blk : Type}.
Notation World := (World blk).
Implicit Types (w : World) (i : Inode).
Notation type_of i := (i_type (desc (inode_impl i))).
Notation links_of i := (hard_links (desc (inode_impl i))).
Notation size_of i := (i_size (desc (inode_impl i))).

(** The same inode up to the blocks of its file *)
Definition keep i i' : Prop :=
  ino i' = ino i /\ block_group_idx i' = block_group_idx i /\ type_of i' = type_of i /\ links_of i' = links_of i /\ size_of i' = size_of i.

(** Only the object [h] may change, in a way that [Q] allows. *)
Definition touched (Q : relation Inode) (h : nat) w w' : Prop :=
  same_inodes (w_fs w) (w_fs w') /\ length (block_groups (w_fs w')) = length (block_groups (w_fs w)) /\ length (inodes w') = length (inodes w) /\
  (forall h', h' <> h -> inodes w' !! h' = inodes w !! h') /\
  (forall i, inodes w !! h = Some i -> exists i', inodes w' !! h = Some i' /\ Q i i').

#[export] Instance keep_preorder : PreOrder keep.
Proof. split; [done|]. intros a b c (?&?&?&?&?) (?&?&?&?&?). unfold keep. split_and!; congruence. Qed.

Lemma touched_trans (Q1 Q2 Q3 : relation Inode) h w1 w2 w3 :
  (forall a b c, Q1 a b -> Q2 b c -> Q3 a c) -> touched Q1 h w1 w2 -> touched Q2 h w2 w3 -> touched Q3 h w1 w3.
Proof.
  intros HQ (A1 & A2 & A3 & A4 & A5) (B1 & B2 & B3 & B4 & B5). unfold touched. split_and!; [by etrans|congruence|congruence| |].
  - intros h' Hne. by rewrite B4, A4.
  - intros i Hi. destruct (A5 i Hi) as (i1 & H1 & Q1i). destruct (B5 i1 H1) as (i2 & H2 & Q2i). exists i2. split; [done|]. by eapply HQ.
Qed.
#[export] Instance touched_preorder h : PreOrder (touched keep h).
Proof.
  split; [|intros w1 w2 w3; apply touched_trans; intros a b c; apply keep_preorder].
  intros w. unfold touched. split_and!; try done. intros i Hi. by exists i.
Qed.

Lemma on_fs_touched {A} h (m : fsM A) : preserves same_inodes m -> preserves (touched keep h) (@on_fs blk A m).
Proof.
  intros Hm w. unfold on_fs. specialize (Hm (w_fs w)). destruct (m (w_fs w)) as [r fs]; cbn in *. unfold touched. cbn. split_and!; try done.
  - by eapply same_view_length.
  - intros i Hi. by exists i.
Qed.

Lemma set_impl_touched (Q : relation Inode) h f : (forall i, Q i (MkInode (ino i) (block_group_idx i) (f (inode_impl i)))) ->
  preserves (touched Q h) (@set_impl blk h f).
Proof.
  intros HQ w. unfold set_impl, touched. cbn. split_and!; try done; [by rewrite length_alter|intros h' Hne; by rewrite list_lookup_alter_ne|].
  intros i Hi. rewrite list_lookup_alter_eq, Hi. cbn. by eexists.
Qed.

Lemma get_inode_touched h h' : preserves (touched keep h) (@get_inode blk h').
Proof. unfold get_inode. preserve. Qed.

Lemma desc_touched h f : (forall d, i_type (f d) = i_type d /\ hard_links (f d) = hard_links d /\ i_size (f d) = i_size d) ->
  preserves (touched keep h) (@set_impl blk h (with_desc f)).
Proof. intros Hf. apply set_impl_touched. intros j. destruct (Hf (desc (inode_impl j))) as (? & ? & ?). by unfold keep. Qed.

Lemma free_file_block_touched h b : preserves (touched keep h) (@free_file_block blk h b).
Proof. unfold free_file_block. preserve. apply on_fs_touched, free_block_same. Qed.

Lemma alloc_file_block_touched h b : preserves (touched keep h) (@alloc_file_block blk h b).
Proof.
  unfold alloc_file_block. preserve; [apply on_fs_touched, alloc_block_same|]. apply desc_touched. by intros [].
Qed.

(** Like [keep], with another size *)
Definition sized (size : Z) i i' : Prop :=
  ino i' = ino i /\ block_group_idx i' = block_group_idx i /\ type_of i' = type_of i /\ links_of i' = links_of i /\ size_of i' = size.

(** [resize] changes the size of one inode, and only when it succeeds. *)
Lemma resize_touched h size w :
  match @resize blk h size w with
  | (Ok _, w') => touched (sized size) h w w'
  | (_, w') => touched keep h w w'
  end.
Proof.
  unfold resize. unfold sbind at 1. pose proof (get_inode_touched h h w) as Hget. destruct (get_inode h w) as [[i|e|] w0]; cbn in Hget; [|done..].
  unfold sbind at 1, slift. destruct (blocks_count _) as [n| |]; [|done..].
  match goal with |- context [sbind ?m _] => set (loop := m) end. assert (Hloop : preserves (touched keep h) loop).
  { unfold loop. destruct (Z.compare _ _); [unchanged|..].
    - preserve; [apply free_file_block_touched|apply desc_touched; by intros []].
    - preserve; [apply alloc_file_block_touched|apply desc_touched; by intros []]. }
  specialize (Hloop w0). unfold sbind at 1.
  destruct (loop w0) as [[u|e|] w1]; cbn in Hloop; [|by etrans..].
  set (m1 := set_impl h (with_desc (set_size size))). rewrite (sbind_ok m1 _ w1 tt (m1 w1).2 eq_refl). cbn [snd set_impl].
  eapply touched_trans; [|etrans; [exact Hget|exact Hloop]|
    eapply (touched_trans _ keep (fun i i' => keep (MkInode (ino i) (block_group_idx i) (with_desc (set_size size) (inode_impl i))) i')); cycle 1].
  2:{ exact (set_impl_touched (fun i i' => i' = MkInode (ino i) (block_group_idx i) (with_desc (set_size size) (inode_impl i))) h _ (fun _ => eq_refl) w1). }
  2:{ refine (set_impl_touched keep h (with_holes _) _ _). done. }
  - intros a b c (?&?&?&?&?) (?&?&?&?&?). destruct b as [? ? [[] ? ? ?]]. cbn in *. unfold sized. split_and!; congruence.
  - intros a b c -> Hbc. done.
Qed.

(** Counts of links *)
Definition linked (n : Z) i : Inode := MkInode (ino i) (block_group_idx i) (with_desc (set_hard_links n) (inode_impl i)).

Lemma linked_ok n i : inode_ok i -> inode_ok (linked n i) /\ file_blocks (linked n i) = file_blocks i.
Proof. destruct i as [? ? [[] ? ? ?]]. intros [H1 H2 H3 H4]. by split. Qed.

Lemma inc_links_ok w h i : inodes w !! h = Some i -> 0 <= links_of i < 65535 -> inc_hard_links h w = (Ok tt, put h (linked (links_of i + 1) i) w).
Proof.
  intros Hi Hl. unfold inc_hard_links. rewrite (sbind_ok _ _ _ _ _ (get_inode_ok _ _ _ Hi)). unfold inc_counter, add_w.
  rewrite (proj2 (Z.ltb_lt _ _)) by lia. rewrite (slift_ok _ _ _ _ eq_refl). by rewrite (set_impl_ok _ _ _ _ Hi).
Qed.

Lemma dec_links_ok w h i : inodes w !! h = Some i -> 0 < links_of i -> dec_hard_links h w = (Ok tt, put h (linked (links_of i - 1) i) w).
Proof.
  intros Hi Hl. unfold dec_hard_links. rewrite (sbind_ok _ _ _ _ _ (get_inode_ok _ _ _ Hi)). unfold dec_counter.
  rewrite (proj2 (Z.ltb_lt _ _)) by lia. cbn [oassert obind]. rewrite (slift_ok _ _ _ _ eq_refl). by rewrite (set_impl_ok _ _ _ _ Hi).
Qed.

(** Like [keep], with other counts of links and bytes *)
Definition relinked (links size : Z) i i' : Prop :=
  ino i' = ino i /\ block_group_idx i' = block_group_idx i /\ type_of i' = type_of i /\ links_of i' = links /\ size_of i' = size.

Lemma put_touched (Q : relation Inode) w h i i' : inodes w !! h = Some i -> Q i i' -> touched Q h w (put h i' w).
Proof.
  intros Hi HQ. unfold touched, put. cbn. split_and!; try done; [by rewrite length_insert|intros h' Hne; by rewrite list_lookup_insert_ne|].
  intros j Hj. exists i'. simplify_eq. split; [|done]. apply list_lookup_insert_eq. by eapply lookup_lt_Some.
Qed.

Lemma touched_at (Q Q' : relation Inode) w w' h i :
  touched Q h w w' -> inodes w !! h = Some i -> (forall i', Q i i' -> Q' i i') -> touched Q' h w w'.
Proof.
  intros (A1 & A2 & A3 & A4 & A5) Hi HQ. unfold touched. split_and!; try done. intros j Hj. simplify_eq.
  destruct (A5 i Hi) as (i' & H1 & H2). exists i'. split; [done|by apply HQ].
Qed.
End Touched.

(** * Directories with their inodes *)

Section Inner.
Context {P blk : Type} `{!PageCache P, !PageCacheLaws P} (zero : blk).
Implicit Types (w : World blk) (p : P) (i : Inode) (es : list DirEntry) (bs : list Z).
Notation len bs := (Z.of_nat (length bs)).
Notation type_of i := (i_type (desc (inode_impl i))).
Notation links_of i := (hard_links (desc (inode_impl i))).
Notation size_of i := (i_size (desc (inode_impl i))).

(** The entries [es] of a directory in its page cache *)
Record dir_in p bs es (size : Z) : Prop := {
  di_holds : holds p bs;
  di_rep : dir_rep es bs;
  di_size : size = len bs;
  di_blocks : (BLOCK_SIZE | len bs);
  di_max : len bs <= 12 * BLOCK_SIZE;
}.

(** [resize] of a directory to the size of its page cache *)
Lemma resize_dir sb si w h i size :
  world_wf sb si w -> inodes w !! h = Some i -> 0 <= size <= 12 * BLOCK_SIZE -> (BLOCK_SIZE | size) ->
  (block_group_idx i < length (block_groups (w_fs w)))%nat ->
  match resize h size w with
  | (Ok _, w') => world_wf sb si w' /\ touched (relinked (links_of i) size) h w w'
  | (Err e, w') => e = ENOSPC /\ world_wf sb si w' /\ touched keep h w w'
  | (Panic, _) => False
  end.
Proof.
  intros Hw Hi Hs Hd Hg. pose proof (resize_spec zero sb si w h i size Hw Hi Hs (fun _ => Hd)) as Hpost. pose proof (resize_touched h size w) as Ht.
  unfold resize_post in Hpost. destruct (resize h size w) as [[u|e|] w']; [|destruct Hpost as (Hw' & _ & [[-> _]|[-> Hge]])|done].
  - destruct Hpost as [Hw' _]. split; [done|]. eapply touched_at; [exact Ht|exact Hi|]. intros i' (?&?&?&?&?). by unfold relinked.
  - done.
  - destruct Ht as (_ & Hlen & _). lia.
Qed.

Lemma sizes_ok w p h i : inodes w !! h = Some i -> sizes h (w, p) = (Ok (size_of i, pc_size p), (w, p)).
Proof.
  intros Hi. unfold sizes, on_inode, sbind. cbn [fst]. by rewrite (get_inode_ok _ _ _ Hi).
Qed.

Lemma on_inode_eq {A} (m : stM (World blk) Errno A) w p r w' : m w = (r, w') -> on_inode m (w, p) = (r, (w', p)).
Proof. unfold on_inode. cbn. by intros ->. Qed.
Lemma on_cache_eq {A} (m : stM P Errno A) w p r p' : m p = (r, p') -> on_cache m (w, p) = (r, (w, p')).
Proof. unfold on_cache. cbn. by intros ->. Qed.

Lemma append_entry_spec sb si w p h i bs es e t :
  world_wf sb si w -> inodes w !! h = Some i -> dir_in p bs es (size_of i) -> len bs <= 11 * BLOCK_SIZE ->
  entry_ok e -> record_len e = min_len (e_name e) -> type_ e = Ok t ->
  0 <= links_of i < 65535 -> (block_group_idx i < length (block_groups (w_fs w)))%nat ->
  match append_entry h e 0 (w, p) with
  | (Ok _, (w', p')) => exists bs' es', world_wf sb si w' /\ dir_in p' bs' es' (len bs') /\ appended e es es' bs bs' /\
      touched (relinked (links_of i + Z.b2z (bool_decide (t = DirT) && negb (bool_decide (e_name e = DOTDOT)))) (len bs')) h w w'
  | (Err er, (w', p')) => er = ENOSPC /\ world_wf sb si w' /\ touched keep h w w' /\ Forall (fun x => gap x < record_len e) es
  | (Panic, _) => False
  end.
Proof.
  intros Hw Hi [Hp Hr Hsz Hb Hmax] Hroom He Hmin Ht Hl Hg. unfold append_entry. rewrite Ht, (slift_ok _ _ _ _ eq_refl).
  rewrite (name_str_ok _ (eo_name _ He)), (slift_ok _ _ _ _ eq_refl).
  destruct (append_at_ok p bs es e Hp Hr He Hmin Hb) as (p1 & es' & bs' & Ha & Hp1 & Hr1 & Happ); [unfold usize_max; lia|].
  rewrite (sbind_ok _ _ _ _ _ (on_cache_eq _ w p _ _ Ha)), (sbind_ok _ _ _ _ _ (sizes_ok w p1 h i Hi)). cbn [fst snd].
  pose proof (holds_size _ _ Hp1) as [Hs1 _]. rewrite Hsz, Hs1.
  assert (Hb' : (BLOCK_SIZE | len bs') /\ len bs <= len bs' <= 12 * BLOCK_SIZE).
  { destruct Happ as [(_ & _ & _ & _ & _ & _ & _ & ->)|(_ & _ & ->)]; [split; [done|lia]|]. split; [apply Z.divide_add_r; [done|by exists 1]|lia]. }
  destruct Hb' as [Hb' Hmax']. assert (Hin : dir_in p1 bs' es' (len bs')) by (split; [done..|lia]).
  match goal with |- context [sbind (if len bs <? len bs' then ?a else ?b)] => set (grow := if len bs <? len bs' then a else b) end.
  assert (Hres : match grow (w, p1) with
    | (Ok _, s') => s'.2 = p1 /\ world_wf sb si s'.1 /\ touched (relinked (links_of i) (len bs')) h w s'.1
    | (Err er, s') => er = ENOSPC /\ world_wf sb si s'.1 /\ touched keep h w s'.1 /\ Forall (fun x => gap x < record_len e) es
    | (Panic, _) => False end).
  { unfold grow. destruct (Z.ltb_spec (len bs) (len bs')).
    - pose proof (resize_dir sb si w h i (len bs') Hw Hi ltac:(lia) Hb' Hg) as Hrs. unfold on_inode. cbn [fst snd].
      destruct (resize h (len bs') w) as [[u|er|] w']; [by destruct Hrs| |done]. destruct Hrs as (? & ? & ?). split_and!; [done..|].
      destruct Happ as [(_ & _ & _ & _ & _ & _ & _ & Heq)|(Hno & _)]; [rewrite Heq in *; lia|done].
    - cbn. split_and!; [done..|]. eapply touched_at; [reflexivity|exact Hi|]. intros i' (?&?&?&?&?). unfold relinked. split_and!; [done..|lia]. }
  unfold sbind at 1. destruct (grow (w, p1)) as [[u|er|] [w1 p1']]; cbn [fst snd] in Hres; [|done..].
  destruct Hres as (-> & Hw1 & Ht1). destruct (bool_decide (t = DirT) && _) eqn:Hinc.
  - pose proof Ht1 as (_ & _ & _ & _ & Ht1i). destruct (Ht1i i Hi) as (i1 & Hi1 & H1 & H2 & H3 & H4 & H5).
    unfold on_inode. cbn [fst snd]. rewrite (inc_links_ok w1 h i1 Hi1) by (rewrite H4; lia). exists bs', es'.
    destruct (linked_ok (links_of i1 + 1) i1 (ww_ok _ _ _ Hw1 _ _ Hi1)) as [Hok Hfb]. split_and!; [by eapply world_wf_put|done|done|].
    eapply touched_trans; [|exact Ht1|eapply (put_touched (relinked (links_of i + 1) (len bs'))); [exact Hi1|]].
    + intros a b c (?&?&?&?&?) (?&?&?&?&?). unfold relinked. cbn. split_and!; congruence.
    + destruct i1 as [? ? [[] ? ? ?]]. unfold relinked. cbn in *. split_and!; congruence.
  - cbn. exists bs', es'. rewrite Z.add_0_r. done.
Qed.

Lemma remove_entry_spec sb si w p h i bs dot es name t m :
  world_wf sb si w -> inodes w !! h = Some i -> dir_in p bs (dot :: es) (size_of i) -> dir_wf (dot :: es) ->
  name <> DOT -> name <> DOTDOT -> dir_map (dot :: es) !! name = Some (m, t) -> (t = DirT -> 0 < links_of i) ->
  exists w' p' bs' es' x, remove_entry h name (w, p) = (Ok tt, (w', p')) /\ world_wf sb si w' /\ dir_in p' bs' es' (len bs') /\ len bs' = len bs /\
    removed name (dot :: es) es' x /\ touched (relinked (links_of i - Z.b2z (bool_decide (t = DirT))) (len bs')) h w w'.
Proof.
  intros Hw Hi [Hp Hr Hsz Hb Hmax] Hwf Hn1 Hn2 Hm Hl. pose proof (dw_head _ Hwf) as (d & dd & rest & [= <- ->] & _ & Hd12 & _).
  destruct (remove_named_ok p bs dot (dd :: rest) name Hp Hr Hd12) as (r & p1 & Hrem & Hres); [lia|]. destruct r as [x|er|]; [|exfalso|done].
  2:{ destruct Hres as (_ & _ & Hno). rewrite dir_map_none in Hm; [done|]. constructor; [|done]. intros Heq.
      pose proof (dw_head _ Hwf) as (? & ? & ? & [= <- _ _] & Hdot & _). congruence. }
  destruct Hres as (es' & bs' & Hremd & Hp1 & Hr1 & Hlen).
  destruct (removed_map name _ es' x Hwf Hn1 Hn2 Hremd) as (_ & Hx & _). assert (Hox : entry_ok x).
  { pose proof (dir_rep_ok _ _ Hr) as Hall. eapply Forall_forall; [exact Hall|]. destruct Hremd as (l1 & a & l2 & -> & _). set_solver. }
  assert (Htx : type_ x = Ok t).
  { destruct (eo_type _ Hox) as [tx Htx]. rewrite (type_ok _ _ Htx). f_equal. rewrite Hm in Hx. injection Hx as _ Hx. by rewrite Hx, (type_etype _ _ (type_ok _ _ Htx)). }
  unfold remove_entry. rewrite (sbind_ok _ _ _ _ _ (on_cache_eq _ w p _ _ Hrem)), Htx, (slift_ok _ _ _ _ eq_refl).
  rewrite (sbind_ok _ _ _ _ _ (sizes_ok w p1 h i Hi)). cbn [fst snd]. pose proof (holds_size _ _ Hp1) as [Hs1 _].
  rewrite Hsz, Hs1, Hlen, Z.ltb_irrefl. rewrite (sbind_ok (sret tt) _ (w, p1) tt (w, p1) eq_refl).
  assert (Hin : dir_in p1 bs' es' (len bs')) by (split; [done..|by rewrite Hlen|by rewrite Hlen]).
  case_bool_decide as Hdir.
  - rewrite (on_inode_eq _ _ p1 _ _ (dec_links_ok w h i Hi (Hl Hdir))). eexists _, p1, bs', es', x. split; [done|].
    destruct (linked_ok (links_of i - 1) i (ww_ok _ _ _ Hw _ _ Hi)) as [Hok Hfb]. split_and!; [by eapply world_wf_put|done|by rewrite Hlen|done|].
    apply (put_touched _ w h i); [done|]. rewrite Hlen, <- Hsz. by destruct i as [? ? [[] ? ? ?]].
  - exists w, p1, bs', es', x. split_and!; [done..|by rewrite Hlen|done|]. eapply touched_at; [reflexivity|exact Hi|]. intros i' (?&?&?&?&?).
    unfold relinked. cbn. split_and!; try done; [lia|]. rewrite Hlen. congruence.
Qed.

Lemma renamed_len old new es es' bs bs' : renamed old new es es' bs bs' -> len bs' = len bs \/ len bs' = len bs + BLOCK_SIZE.
Proof.
  intros [(_ & _ & _ & _ & _ & _ & _ & _ & ->)|(es1 & bs1 & x & t & _ & _ & Hl & Happ)]; [by left|].
  rewrite <- Hl. destruct Happ as [(_ & _ & _ & _ & _ & _ & _ & ->)|(_ & _ & ->)]; [by left|by right].
Qed.

Lemma rename_entry_spec sb si w p h i (c1 c2 : list Z) l es2 dot es old new :
  world_wf sb si w -> inodes w !! h = Some i -> dir_in p (c1 ++ c2) (dot :: es) (size_of i) -> dir_wf (dot :: es) -> len (c1 ++ c2) <= 11 * BLOCK_SIZE ->
  dir_rep l c1 -> dir_rep es2 c2 -> l ++ es2 = dot :: es -> (exists e, e ∈ es2 /\ e_name e = old) -> old <> DOT -> name_ok new ->
  (block_group_idx i < length (block_groups (w_fs w)))%nat ->
  match rename_entry h old new (len c1) (w, p) with
  | (Ok _, (w', p')) => exists bs' es', world_wf sb si w' /\ dir_in p' bs' es' (len bs') /\ renamed old new (dot :: es) es' (c1 ++ c2) bs' /\
      touched (relinked (links_of i) (len bs')) h w w'
  | (Err er, (w', p')) => er = ENOSPC /\ world_wf sb si w' /\ touched keep h w w'
  | (Panic, _) => False
  end.
Proof.
  intros Hw Hi [Hp Hr Hsz Hb Hmax] Hwf Hroom Hl Hr2 Heq (x & Hx & Hxn) Hold Hnew Hg.
  pose proof (dw_head _ Hwf) as (d & dd & rest & [= <- ->] & Hdot & Hd12 & _). unfold rename_entry.
  destruct (rename_at_ok p dot (dd :: rest) c1 c2 l es2 old new Hp Hl Hr2 Heq Hd12 Hb) as (r & p1 & Hren & Hres);
    [lia|done|rewrite Heq; apply Hwf|congruence|]. destruct r as [u|er|]; [|exfalso|done].
  2:{ destruct Hres as (_ & Hno & _). by eapply Forall_forall in Hno; [|exact Hx]. }
  destruct Hres as (es' & bs' & Hrn & Hp1 & Hr1). rewrite Heq in Hrn.
  rewrite (sbind_ok _ _ _ _ _ (on_cache_eq _ w p _ _ Hren)), (sbind_ok _ _ _ _ _ (sizes_ok w p1 h i Hi)). cbn [fst snd].
  pose proof (holds_size _ _ Hp1) as [Hs1 _]. rewrite Hsz, Hs1.
  assert (Hb' : (BLOCK_SIZE | len bs') /\ len bs' <= 12 * BLOCK_SIZE).
  { destruct (renamed_len _ _ _ _ _ _ Hrn) as [-> | ->]; [split; [done|lia]|]. split; [apply Z.divide_add_r; [done|by exists 1]|lia]. }
  destruct Hb' as [Hb' Hmax']. assert (Hin : dir_in p1 bs' es' (len bs')) by (split; [done..|lia]).
  destruct (Z.eqb_spec (len bs') (len (c1 ++ c2))) as [Hsame|Hdiff]; cbn [negb].
  - exists bs', es'. split_and!; [done..|]. eapply touched_at; [reflexivity|exact Hi|]. intros i' (?&?&?&?&?). unfold relinked. split_and!; [done..|lia].
  - pose proof (resize_dir sb si w h i (len bs') Hw Hi ltac:(lia) Hb' Hg) as Hrs. unfold on_inode. cbn [fst snd].
    destruct (resize h (len bs') w) as [[v|er|] w']; [|by destruct Hrs|done]. destruct Hrs as [Hw' Ht]. by exists bs', es'.
Qed.

(** The two entries of a new directory *)
Lemma init_dir_spec sb si w p h i self parent :
  world_wf sb si w -> inodes w !! h = Some i -> dir_in p [] [] (size_of i) -> links_of i = 1 -> 0 < self < 2 ^ 32 -> 0 < parent < 2 ^ 32 ->
  (block_group_idx i < length (block_groups (w_fs w)))%nat ->
  match init_dir h self parent (w, p) with
  | (Ok _, (w', p')) => exists bs es, world_wf sb si w' /\ dir_in p' bs es (len bs) /\ dir_wf es /\
      dir_map es = {[DOT := (self, DirT); DOTDOT := (parent, DirT)]} /\ touched (relinked 2 (len bs)) h w w'
  | (Err er, (w', p')) => er = ENOSPC /\ world_wf sb si w' /\ touched keep h w w'
  | (Panic, _) => False
  end.
Proof.
  intros Hw Hi Hin Hl Hself Hpar Hg. assert (Hd : name_ok DOT) by (split; cbn; [lia|done|done]). assert (Hdd : name_ok DOTDOT) by (split; cbn; [lia|done|done]).
  unfold init_dir. rewrite dir_entry_new_ok, (slift_ok _ _ _ _ eq_refl) by done. set (dot := new_entry self DOT DirT).
  pose proof (append_entry_spec sb si w p h i [] [] dot DirT Hw Hi Hin ltac:(cbn; lia) (new_entry_ok _ _ _ Hd Hself) eq_refl (type_ok dot DirT eq_refl) ltac:(lia) Hg) as H1.
  unfold sbind at 1. destruct (append_entry h dot 0 (w, p)) as [[u|er|] [w1 p1]]; [|by destruct H1 as (? & ? & ? & _)|done]. destruct H1 as (bs1 & es1 & Hw1 & Hin1 & Happ1 & Ht1).
  destruct Happ1 as [(l1 & e & l2 & Hnil & _)|(_ & -> & Hlen1)]; [by destruct l1|]. cbn [app] in Hin1.
  pose proof Ht1 as (_ & Hgl & _ & _ & Ht1i). destruct (Ht1i i Hi) as (i1 & Hi1 & A1 & A2 & A3 & A4 & A5). assert (Hl1 : links_of i1 = 2) by (rewrite A4, Hl; done). cbn in Hlen1.
  rewrite dir_entry_new_ok, (slift_ok _ _ _ _ eq_refl) by done. set (dotdot := new_entry parent DOTDOT DirT).
  pose proof (append_entry_spec sb si w1 p1 h i1 bs1 [with_len BLOCK_SIZE dot] dotdot DirT Hw1 Hi1) as H2. rewrite A5 in H2.
  specialize (H2 Hin1 ltac:(lia) (new_entry_ok _ _ _ Hdd Hpar) eq_refl (type_ok dotdot DirT eq_refl) ltac:(lia) ltac:(rewrite A2; lia)).
  assert (Hgap : gap (with_len BLOCK_SIZE dot) = 4084) by done. destruct (append_entry h dotdot 0 (w1, p1)) as [[u2|er|] [w2 p2]]; [|exfalso|done].
  - destruct H2 as (bs2 & es2 & Hw2 & Hin2 & Happ2 & Ht2). exists bs2, es2.
    destruct Happ2 as [(l1 & e & l2 & Heq & _ & _ & -> & Hlen2)|(Hno & _)]; [|exfalso; inversion Hno as [|? ? H3 _]; rewrite Hgap in H3; by cbn in H3].
    destruct l1 as [|? []]; [|done..]. injection Heq as <- <-. cbn [app]. split_and!; [done|done| | |].
    + split; [by repeat eexists|]. cbn. by repeat constructor; set_solver.
    + done.
    + eapply touched_trans; [|exact Ht1|exact Ht2]. intros a b c (?&?&?&?&?) (?&?&?&B4&?). rewrite Hl1 in B4. unfold relinked. split_and!; try congruence. by rewrite B4.
  - destruct H2 as (_ & _ & _ & Hno). inversion Hno as [|? ? H3 _]. rewrite Hgap in H3. by cbn in H3.
Qed.
End Inner.
