(* ===== verification/Ext2NameiRefine.v ===== *)
(** Directories of ext2 refine trees: each step of the operations on names does
    to the state what it does to the tree. *)

From stdpp Require Import gmap.
From S2P Require Import Prelude Perms Pod AlignExt PathLookup RamFs Ext2Raw Ext2Alloc Ext2AllocFacts Ext2Inode Ext2InodeFacts Ext2Files Ext2Dir Ext2DirFacts Ext2DirSpec Ext2Tree Ext2Namei Ext2NameiFacts.

(** * Cached inodes *)

(** The inode [n] is allocated, and its object is [h]. *)
Definition cached (fs : Ext2) (n : Z) (h : nat) : Prop :=
  0 < n /\ ino_used fs (n - 1) = true /\ exists g, block_groups fs !! Z.to_nat ((n - 1) / inodes_per_group fs) = Some g /\
    inode_cache g !! ((n - 1) mod inodes_per_group fs) = Some (Z.of_nat h).

Lemma cached_fun fs n h h' : cached fs n h -> cached fs n h' -> h = h'.
Proof. intros (_ & _ & g & Hg & Hc) (_ & _ & g' & Hg' & Hc'). simplify_eq. lia. Qed.

Lemma same_used fs fs' k : same_inodes fs fs' -> ino_used fs' k = ino_used fs k.
Proof.
  intros Hs. pose proof Hs as [Hi Hv]. unfold ino_used, in_use, inodes_of. rewrite Hi. f_equal.
  assert (Hm : inode_view <$> block_groups fs' = inode_view <$> block_groups fs); [|by rewrite Hm].
  pose proof (f_equal (fmap (fun x : IdAlloc * gmap Z Z * Z * Z => (x.1.1.1, x.1.2))) Hv) as Hf. by rewrite <- !list_fmap_compose in Hf.
Qed.

Lemma cached_same fs fs' n h : same_inodes fs fs' -> cached fs n h -> cached fs' n h.
Proof.
  intros Hs (H0 & Hu & g & Hg & Hc). split; [done|]. split; [by rewrite (same_used fs)|]. destruct (same_view_at _ _ _ _ _ Hs Hg) as (g' & Hg' & Hv).
  pose proof Hs as [-> _]. exists g'. split; [done|]. injection Hv as _ -> _ _. done.
Qed.

Lemma used_bit sb si fs n g : fs_wf sb si fs -> 0 < n -> block_groups fs !! Z.to_nat ((n - 1) / inodes_per_group fs) = Some g ->
  ino_used fs (n - 1) = true -> bitset (inode_bitmap (metadata g)) !! Z.to_nat ((n - 1) mod inodes_per_group fs) = Some true.
Proof.
  intros Hwf H0 Hg Hu. unfold ino_used, in_use, inodes_of in Hu. rewrite list_lookup_fmap, Hg in Hu. cbn in Hu.
  by destruct (bitset _ !! _) as [[]|].
Qed.

Lemma n_inodes_bound sb si fs : fs_wf sb si fs -> n_inodes fs < 2 ^ 32.
Proof.
  intros Hf. pose proof (pool_bound _ _ _ _ (wf_inodes _ _ _ Hf)) as H. pose proof (pool_slack _ _ _ _ (wf_inodes _ _ _ Hf)).
  unfold inodes_of in H. rewrite length_fmap in H. unfold n_inodes. lia.
Qed.

Section Cached.
Context {blk : Type}.
Implicit Types (w : World blk).

Lemma group_bound sb si fs n g : fs_wf sb si fs -> 0 < n -> block_groups fs !! Z.to_nat ((n - 1) / inodes_per_group fs) = Some g -> n <= n_inodes fs.
Proof.
  intros Hwf H0 Hg. pose proof (pool_n _ _ _ _ (wf_inodes _ _ _ Hwf)) as Hn. apply lookup_lt_Some in Hg. unfold n_inodes.
  pose proof (Z.div_pos (n - 1) (inodes_per_group fs) ltac:(lia) ltac:(lia)). pose proof (Z.mul_succ_div_gt (n - 1) (inodes_per_group fs)). nia.
Qed.

Lemma lookup_cached sb si w n h : fs_wf sb si (w_fs w) -> cached (w_fs w) n h -> lookup_inode n w = (Ok h, w).
Proof.
  intros Hwf (H0 & Hu & g & Hg & Hc). pose proof (pool_n _ _ _ _ (wf_inodes _ _ _ Hwf)) as Hn. pose proof (used_bit _ _ _ _ _ Hwf H0 Hg Hu) as Hbit.
  pose proof (Z.div_pos (n - 1) (inodes_per_group (w_fs w)) ltac:(lia) ltac:(lia)). pose proof (lookup_lt_Some _ _ _ Hg).
  unfold lookup_inode. rewrite (sbind_ok sget _ w w w eq_refl). unfold block_group_of_ino, inode_idx, div_w. rewrite usub_ok by lia. cbn [obind].
  rewrite (proj2 (Z.eqb_neq _ 0)) by lia. cbn [obind]. rewrite (proj2 (Z.leb_gt _ _)) by lia. rewrite !(slift_ok _ _ _ _ eq_refl).
  unfold bg_lookup_inode. rewrite (sbind_ok sget _ w w w eq_refl), Hg. cbn [ounwrap]. rewrite (slift_ok _ _ _ _ eq_refl).
  unfold is_allocated. rewrite Hbit. cbn [ounwrap]. rewrite (slift_ok _ _ _ _ eq_refl). cbn [negb]. rewrite Hc. unfold sret. by rewrite Nat2Z.id.
Qed.

(** [create_inode] makes an object for an inode number that was free. *)
Lemma create_inode_node sb si w dir t pm :
  world_wf sb si w ->
  match create_inode dir t pm w with
  | (Ok h, w') => exists n grp, h = length (inodes w) /\
      inodes w' = inodes w ++ [MkInode n grp (MkInodeImpl (inode_desc_new t pm) true [] false)] /\ 0 < n < 2 ^ 32 /\
      (grp < length (block_groups (w_fs w')))%nat /\ length (block_groups (w_fs w')) = length (block_groups (w_fs w)) /\
      cached (w_fs w') n h /\ kind_ok (w_fs w') n (bool_decide (t = DirT)) /\
      (forall m k, cached (w_fs w) m k -> m <> n /\ cached (w_fs w') m k)
  | (Err e, w') => w' = w /\ (e = ENOSPC \/ e = EINVAL /\ (length (block_groups (w_fs w)) <= dir)%nat)
  | (Panic, _) => False
  end.
Proof.
  intros [Hfs _ _ _]. unfold create_inode. pose proof (alloc_ino_spec sb si (w_fs w) dir (bool_decide (t = DirT)) Hfs) as Hal.
  pose proof (alloc_ino_caches dir (bool_decide (t = DirT)) (w_fs w)) as Hca.
  unfold sbind at 1, on_fs at 1. destruct (alloc_ino dir _ (w_fs w)) as [[[grp number]|e|] fs']; [| |done].
  2:{ destruct Hal as [-> [[-> ?]|[-> _]]]; (split; [by destruct w|tauto]). }
  destruct Hal as (Hr & Hgrp & Hfs' & [Hfree Hal] & Hbo & Hni & Hbpg & Hipg & Hkind). cbn [fst snd] in *.
  pose proof (pool_n _ _ _ _ (wf_inodes _ _ _ Hfs')) as Hn. unfold sbind at 1, new_inode, sbind, slift, sput, sret, sget.
  assert (Hnew : blocks_count (inode_desc_new t pm) = Ok 0) by (unfold blocks_count; destruct (decide (i_type _ = DirT)); done). rewrite Hnew. cbn [w_fs disk io inodes fst snd].
  destruct (group_of_ok _ fs' (number - 1) inode_view _ _ (wf_inodes _ _ _ Hfs')) as (g & Hg & Hq & Hm & _ & _ & Hin); [unfold n_inodes in *; lia|].
  unfold inode_idx, div_w. rewrite usub_ok by lia. cbn [obind]. rewrite (proj2 (Z.eqb_neq _ 0)) by lia. cbn [obind].
  assert (Hu1 : ino_used fs' (number - 1) = true) by (rewrite Hal by lia; by rewrite Z.eqb_refl).
  pose proof (used_bit sb si fs' number g Hfs' ltac:(lia) Hg Hu1) as Hbit. set (idx := (number - 1) mod inodes_per_group fs') in *.
  assert (Hgrp' : grp = Z.to_nat ((number - 1) / inodes_per_group fs')) by (rewrite Hipg; lia). rewrite <- Hgrp' in Hg.
  unfold on_fs. cbn [w_fs]. unfold insert_cache. set (g' := MkBlockGroup (metadata g) (<[idx := Z.of_nat (length (inodes w))]> (inode_cache g)) (raw_inodes g)).
  rewrite (on_group_ok _ _ _ g tt g') by (done || (unfold is_allocated; rewrite Hbit; done)). cbn [disk io inodes].
  pose proof (lookup_lt_Some _ _ _ Hg) as Hglt. pose proof (n_inodes_bound sb si fs' Hfs').
  assert (Hio : inodes_of (set_group grp g' fs') = inodes_of fs').
  { unfold inodes_of. cbn. rewrite list_fmap_insert. apply list_insert_id. by rewrite list_lookup_fmap, Hg. }
  assert (Hus : forall k, ino_used (set_group grp g' fs') k = ino_used fs' k) by (intros k; unfold ino_used; by rewrite Hio).
  exists number, grp. split_and!; [done|done|lia|unfold n_inodes in *; lia|cbn; by rewrite length_insert|cbn; by rewrite length_insert, (same_view_length _ _ _ Hca)| | |].
  - split; [lia|]. split; [by rewrite Hus|]. exists g'. cbn. rewrite <- Hgrp', list_lookup_insert_eq by done. split; [done|]. apply lookup_insert_eq.
  - intros g2. cbn. rewrite <- Hgrp', list_lookup_insert_eq by done. intros [= <-]. cbn. specialize (Hkind g). rewrite <- Hgrp' in Hkind. by apply Hkind.
  - intros m k (H0 & Hum & gm & Hgm & Hcm). assert (Hmn : m <> number) by (intros ->; congruence). split; [done|]. split; [done|].
    split; [by rewrite Hus, Hal, Hum, orb_true_r by lia|]. destruct (same_view_at _ _ _ _ _ Hca Hgm) as (gm' & Hgm' & Hcc). cbn. rewrite <- Hipg in *.
    destruct (decide (grp = Z.to_nat ((m - 1) / inodes_per_group fs'))) as [Heq|Hne].
    + rewrite <- Heq, list_lookup_insert_eq by done. exists g'. split; [done|]. cbn. assert (gm' = g) as -> by congruence.
      rewrite lookup_insert_ne; [by rewrite Hcc|]. unfold idx. intros Hmod. apply Hmn.
      pose proof (Z.div_mod (m - 1) (inodes_per_group fs') ltac:(lia)). pose proof (Z.div_mod (number - 1) (inodes_per_group fs') ltac:(lia)).
      pose proof (Z.div_pos (m - 1) (inodes_per_group fs') ltac:(lia) ltac:(lia)).
      assert ((m - 1) / inodes_per_group fs' = (number - 1) / inodes_per_group fs') by lia. nia.
    + rewrite list_lookup_insert_ne by done. exists gm'. split; [done|]. by rewrite Hcc.
Qed.
End Cached.

Lemma kind_ok_same fs fs' n d : same_inodes fs fs' -> kind_ok fs n d -> kind_ok fs' n d.
Proof.
  intros Hs Hk g' Hg'. pose proof Hs as [Hi _]. rewrite Hi in *.
  assert (Hs' : same_inodes fs' fs) by (destruct Hs; by split). destruct (same_view_at _ _ _ _ _ Hs' Hg') as (g & Hg & Hv).
  specialize (Hk g Hg). injection Hv as _ _ Hf Hd. cbn zeta in *. by rewrite <- Hf, <- Hd.
Qed.

(** * States and trees *)

Section Refine.
Context {P blk : Type} `{!PageCache P, !PageCacheLaws P} (zero : blk) (pc_open : World blk -> nat -> P).
Notation FS := (World blk * list P)%type.
Implicit Types (s : FS) (T : tree) (nd : node) (n m : Z) (h : nat) (name : path) (i : Inode).
Notation len bs := (Z.of_nat (length bs)).
Notation type_of i := (i_type (desc (inode_impl i))).
Notation links_of i := (hard_links (desc (inode_impl i))).
Notation size_of i := (i_size (desc (inode_impl i))).

(** A directory holds the names of its node. *)
Definition names_at s h (size : Z) (names : gmap path (Z * FileType)) : Prop :=
  exists p bs es, s.2 !! h = Some p /\ dir_in p bs es size /\ dir_wf es /\ dir_map es = names.
Definition node_at s h n nd : Prop :=
  exists i, inodes s.1 !! h = Some i /\ ino i = n /\ (block_group_idx i < length (block_groups (w_fs s.1)))%nat /\
    type_of i = n_type nd /\ links_of i = n_links nd /\ (n_type nd = DirT -> names_at s h (size_of i) (n_names nd)).

Record refines sb si s T : Prop := {
  rf_world : world_wf sb si s.1;
  rf_caches : length s.2 = length (inodes s.1);
  rf_node n nd : T !! n = Some nd -> n < 2 ^ 32 /\ exists h, cached (w_fs s.1) n h /\ node_at s h n nd;
}.

Lemma refines_at sb si s T n nd h : refines sb si s T -> T !! n = Some nd -> cached (w_fs s.1) n h -> node_at s h n nd.
Proof. intros HR Hn Hc. destruct (rf_node _ _ _ _ HR n nd Hn) as (_ & h' & Hc' & Hat). by rewrite (cached_fun _ _ _ _ Hc Hc'). Qed.

(** One object and its page cache change. *)
Lemma refines_update sb si s s' T n nd' h (Q : relation Inode) :
  refines sb si s T -> (exists i, inodes s.1 !! h = Some i /\ ino i = n) -> n < 2 ^ 32 -> cached (w_fs s.1) n h -> world_wf sb si s'.1 ->
  touched Q h s.1 s'.1 -> length s'.2 = length s.2 -> (forall h', h' <> h -> s'.2 !! h' = s.2 !! h') -> node_at s' h n nd' ->
  refines sb si s' (<[n := nd']> T).
Proof.
  intros [Hw Hl Hn] (i & Hi & Hin) Hlt Hc Hw' (T1 & T2 & T3 & T4 & T5) Hl' Hoth Hat. split; [done|congruence|]. intros m md Hm.
  apply lookup_insert_Some in Hm as [[<- <-]|[Hne Hm]].
  - split; [done|]. exists h. split; [by eapply cached_same|done].
  - destruct (Hn m md Hm) as (? & k & Hk & j & Hj & Hino & Hgr & Hty & Hli & Hna). split; [done|]. exists k. split; [by eapply cached_same|].
    assert (Hkh : k <> h) by (intros ->; congruence).
    exists j. rewrite T4, T2 by done. split_and!; try done. intros Hd. destruct (Hna Hd) as (p & bs & es & Hp & Hrest). exists p, bs, es. by rewrite Hoth.
Qed.

Lemma refines_ino sb si s T n nd h : refines sb si s T -> T !! n = Some nd -> cached (w_fs s.1) n h ->
  (exists i, inodes s.1 !! h = Some i /\ ino i = n) /\ 0 < n < 2 ^ 32.
Proof.
  intros HR Hn Hc. destruct (refines_at _ _ _ _ _ _ _ HR Hn Hc) as (i & Hi & Hino & _). split; [by exists i|]. destruct (rf_node _ _ _ _ HR _ _ Hn) as [? _].
  destruct Hc as (? & _). lia.
Qed.

Lemma refines_self sb si s s' T n nd h :
  refines sb si s T -> T !! n = Some nd -> cached (w_fs s.1) n h -> s'.1 = s.1 -> length s'.2 = length s.2 ->
  (forall h', h' <> h -> s'.2 !! h' = s.2 !! h') -> node_at s' h n nd -> refines sb si s' T.
Proof.
  intros HR Hn Hc H1 H2 H3 H4. rewrite <- (insert_id T n nd Hn). destruct (refines_ino _ _ _ _ _ _ _ HR Hn Hc) as [Hino Hr].
  eapply (refines_update sb si s s' T n nd h eq); try done; rewrite ?H1; [lia|apply HR|].
  unfold touched. split_and!; try done. intros i Hi. by exists i.
Qed.

Lemma on_world_same {A} (m : stM (World blk) Errno A) s r w' :
  length s.2 = length (inodes s.1) -> m s.1 = (r, w') -> length (inodes w') = length (inodes s.1) -> on_world pc_open m s = (r, (w', s.2)).
Proof. intros Hl Hm Hl'. unfold on_world. rewrite Hm, Hl', Hl, Nat.sub_diag. cbn. by rewrite app_nil_r. Qed.

Lemma on_inner_eq {A} h (m : stM (World blk * P) Errno A) s p r w' p' :
  s.2 !! h = Some p -> m (s.1, p) = (r, (w', p')) -> on_inner h m s = (r, (w', <[h := p']> s.2)).
Proof. intros Hp Hm. unfold on_inner. by rewrite Hp, Hm. Qed.

(** The record of the entry of a name begins at an offset. *)
Definition at_offset s h (off : Z) name : Prop :=
  exists p c1 c2 l e l2, s.2 !! h = Some p /\ holds p (c1 ++ c2) /\ dir_rep l c1 /\ dir_rep (e :: l2) c2 /\ e_name e = name /\ off = len c1.

(** Page caches keep their bytes. *)
Definition keeps s s' : Prop := forall h p, s.2 !! h = Some p -> exists p', s'.2 !! h = Some p' /\ forall bs, holds p bs -> holds p' bs.

Lemma keeps_offset s s' h off name : keeps s s' -> at_offset s h off name -> at_offset s' h off name.
Proof.
  intros Hk (p & c1 & c2 & l & e & l2 & Hp & Hh & Hrest). destruct (Hk h p Hp) as (p' & Hp' & Hb). exists p', c1, c2, l, e, l2. split; [done|]. split; [by apply Hb|done].
Qed.

Lemma keeps_insert s h p p' bs : s.2 !! h = Some p -> holds p bs -> holds p' bs -> keeps s (s.1, <[h := p']> s.2).
Proof.
  intros Hp Hh Hh' k q Hq. cbn. destruct (decide (h = k)) as [<-|Hne].
  - exists p'. rewrite list_lookup_insert_eq by (by eapply lookup_lt_Some). split; [done|]. intros bs' Hb. simplify_eq. destruct Hh as [_ <-], Hb as [_ <-]. done.
  - exists q. by rewrite list_lookup_insert_ne.
Qed.

Section Step.
Context (sb si : Z) (s : FS) (T : tree) (HR : refines sb si s T).
Context (n : Z) (nd : node) (h : nat) (Hn : T !! n = Some nd) (Hc : cached (w_fs s.1) n h).

Lemma get_inode_step : exists i, on_world pc_open (get_inode h) s = (Ok i, s) /\ inodes s.1 !! h = Some i /\ ino i = n /\
  (block_group_idx i < length (block_groups (w_fs s.1)))%nat /\ type_of i = n_type nd /\ links_of i = n_links nd.
Proof using HR Hn Hc.
  destruct (refines_at _ _ _ _ _ _ _ HR Hn Hc) as (i & Hi & H1 & H2 & H3 & H4 & _). exists i. split; [|done].
  rewrite (on_world_same _ s (Ok i) s.1); [by destruct s|apply HR|by apply get_inode_ok|done].
Qed.

Lemma lookup_step : on_world pc_open (lookup_inode n) s = (Ok h, s).
Proof using HR Hc.
  rewrite (on_world_same _ s (Ok h) s.1); [by destruct s|apply HR|eapply lookup_cached; [apply HR|done]|done].
Qed.

(** The page cache of the directory changes, but not its bytes. *)
Lemma cache_step p p' bs es i : s.2 !! h = Some p -> inodes s.1 !! h = Some i -> dir_in p bs es (size_of i) -> dir_wf es -> dir_map es = n_names nd ->
  holds p' bs -> refines sb si (s.1, <[h := p']> s.2) T.
Proof using HR Hn Hc.
  intros Hp Hi [Hh Hr Hs Hb Hm] Hwf Hmap Hh'. apply (refines_self sb si s _ T n nd h HR Hn Hc); [done|cbn; by rewrite length_insert|
    intros h' Hne; cbn; by rewrite list_lookup_insert_ne|].
  destruct (refines_at _ _ _ _ _ _ _ HR Hn Hc) as (j & Hj & H1 & H2 & H3 & H4 & _). simplify_eq. exists i. split_and!; try done. intros Hd.
  exists p', bs, es. cbn. rewrite list_lookup_insert_eq by (by eapply lookup_lt_Some). by split_and!.
Qed.

Lemma entry_step name : n_type nd = DirT ->
  exists r s', entry_of h name s = (Ok r, s') /\ refines sb si s' T /\ s'.1 = s.1 /\ keeps s s' /\
    match r with
    | None => n_names nd !! name = None
    | Some (off, e) => n_names nd !! name = Some (e_ino e, etype e) /\ at_offset s' h off name
    end.
Proof using HR Hn Hc.
  intros Hd. destruct (refines_at _ _ _ _ _ _ _ HR Hn Hc) as (i & Hi & H1 & H2 & H3 & H4 & Hnames). destruct (Hnames Hd) as (p & bs & es & Hp & Hin & Hwf & Hmap).
  pose proof Hin as [Hh Hr _ _ _]. destruct (get_entry_ok p bs es name Hh Hr) as (r & p' & Hg & Hh' & Hres).
  exists r, (s.1, <[h := p']> s.2). split; [exact (on_inner_eq h _ s p _ _ _ Hp (on_cache_eq _ _ _ _ _ Hg))|].
  split; [by eapply cache_step|]. split; [done|]. split; [by eapply keeps_insert|]. rewrite <- Hmap. destruct r as [[off e]|]; [|by apply dir_map_none].
  destruct Hres as (l1 & l2 & c1 & c2 & Heq & Hname & Hbs & Hc1 & Hc2 & Hoff). split.
  - rewrite <- Hname. apply dir_map_lookup; [apply Hwf|]. rewrite Heq. set_solver.
  - exists p', c1, c2, l1, e, l2. cbn. rewrite list_lookup_insert_eq by (by eapply lookup_lt_Some). by rewrite <- Hbs.
Qed.

Lemma count_step : n_type nd = DirT ->
  exists s', on_inner h (on_cache entry_count) s = (Ok (Z.of_nat (base.size (n_names nd))), s') /\ refines sb si s' T /\ s'.1 = s.1 /\ keeps s s'.
Proof using HR Hn Hc.
  intros Hd. destruct (refines_at _ _ _ _ _ _ _ HR Hn Hc) as (i & Hi & H1 & H2 & H3 & H4 & Hnames). destruct (Hnames Hd) as (p & bs & es & Hp & Hin & Hwf & Hmap).
  pose proof Hin as [Hh Hr _ _ _]. destruct (entry_count_ok p bs es Hh Hr) as (p' & Hg & Hh').
  exists (s.1, <[h := p']> s.2). rewrite (on_inner_eq h _ s p _ _ _ Hp (on_cache_eq _ _ _ _ _ Hg)), <- Hmap, (dir_map_size es) by apply Hwf.
  split; [done|]. split_and!; [by eapply cache_step|done|by eapply keeps_insert].
Qed.

Lemma touched_same {Q : relation Inode} {h0 w w'} : touched (blk := blk) Q h0 w w' -> same_inodes (w_fs w) (w_fs w').
Proof. by intros (? & _). Qed.

(** An object that changed, with the entries of its directory *)
Lemma dir_update w' p' bs' es' nd' i links :
  inodes s.1 !! h = Some i -> world_wf sb si w' -> touched (relinked links (len bs')) h s.1 w' -> dir_in p' bs' es' (len bs') -> dir_wf es' ->
  n_type nd' = n_type nd -> n_links nd' = links -> n_names nd' = dir_map es' ->
  refines sb si (w', <[h := p']> s.2) (<[n := nd']> T).
Proof using HR Hn Hc.
  intros Hi Hw' Ht Hin Hwf Hty Hli Hna. destruct (refines_ino _ _ _ _ _ _ _ HR Hn Hc) as [Hino Hrange].
  eapply (refines_update sb si s _ T n nd' h); [done|done|lia|done|done|exact Ht|cbn; by rewrite length_insert| |].
  { intros h' Hne. cbn. by rewrite list_lookup_insert_ne. }
  destruct Ht as (T1 & T2 & T3 & T4 & T5). destruct (T5 i Hi) as (i' & Hi' & R1 & R2 & R3 & R4 & R5).
  destruct (refines_at _ _ _ _ _ _ _ HR Hn Hc) as (j & Hj & H1 & H2 & H3 & H4 & _). simplify_eq. exists i'. cbn. split_and!; try congruence.
  intros _. exists p', bs', es'. cbn. rewrite list_lookup_insert_eq by (rewrite (rf_caches _ _ _ _ HR); by eapply lookup_lt_Some). split_and!; [done| |done|done]. by rewrite R5.
Qed.

Lemma append_step name m t : n_type nd = DirT -> 0 <= n_links nd < 65535 -> n_names nd !! name = None -> name_ok name -> 0 < m < 2 ^ 32 ->
  (forall i, inodes s.1 !! h = Some i -> size_of i <= 11 * BLOCK_SIZE) ->
  match on_inner h (append_entry h (new_entry m name t) 0) s with
  | (Ok _, s') => refines sb si s' (<[n := add_name name (m, t) nd]> T) /\ same_inodes (w_fs s.1) (w_fs s'.1) /\ touched (fun _ _ => True) h s.1 s'.1
  | (Err e, s') => e = ENOSPC /\ world_wf sb si s'.1 /\ same_inodes (w_fs s.1) (w_fs s'.1) /\ length s'.2 = length s.2 /\ length (inodes s'.1) = length (inodes s.1)
  | (Panic, _) => False
  end.
Proof using HR Hn Hc zero.
  intros Hd Hl Hname Hok Hm Hroom. destruct (refines_at _ _ _ _ _ _ _ HR Hn Hc) as (i & Hi & H1 & H2 & H3 & H4 & Hnames).
  destruct (Hnames Hd) as (p & bs & es & Hp & Hin & Hwf & Hmap). pose proof (di_size _ _ _ _ Hin) as Hsz. specialize (Hroom i Hi).
  pose proof (append_entry_spec zero sb si s.1 p h i bs es (new_entry m name t) t (rf_world _ _ _ _ HR) Hi Hin ltac:(lia) (new_entry_ok _ _ _ Hok Hm)
    eq_refl (type_ok (new_entry m name t) t eq_refl) ltac:(lia) H2) as Hspec. unfold on_inner. rewrite Hp.
  assert (Hdd : name <> DOTDOT).
  { intros ->. pose proof (dw_head _ Hwf) as (d & dd & rest & Hes & _ & _ & Hdd). rewrite <- Hmap, <- Hdd in Hname.
    rewrite (dir_map_lookup es dd) in Hname; [done|apply Hwf|rewrite Hes; set_solver]. }
  destruct (append_entry h (new_entry m name t) 0 (s.1, p)) as [[u|e|] [w' p']]; [| |done].
  - destruct Hspec as (bs' & es' & Hw' & Hin' & Happ & Ht). rewrite <- Hmap in Hname.
    destruct (appended_map (new_entry m name t) es es' bs bs' Hwf (new_entry_ok _ _ _ Hok Hm) eq_refl Hname Happ) as [Hwf' Hmap'].
    cbn [e_name new_entry] in Ht. rewrite (bool_decide_eq_false_2 (name = DOTDOT)), andb_true_r in Ht by done.
    split_and!; [|exact (touched_same Ht)|eapply touched_at; [exact Ht|exact Hi|done]].
    eapply (dir_update w' p' bs' es' _ i); [done|done|exact Ht|done|done|done|cbn; by rewrite H4|]. cbn. rewrite Hmap', Hmap. cbn. do 2 f_equal.
    by rewrite (type_etype _ t (type_ok (new_entry m name t) t eq_refl)).
  - destruct Hspec as (-> & Hw' & Ht & _). pose proof Ht as (_ & _ & ? & _). split_and!; [done|done|exact (touched_same Ht)|cbn; by rewrite length_insert|done].
Qed.

Lemma remove_step name m t : n_type nd = DirT -> is_dot name = false -> n_names nd !! name = Some (m, t) -> (t = DirT -> 0 < n_links nd) ->
  exists s', on_inner h (remove_entry h name) s = (Ok tt, s') /\ refines sb si s' (<[n := del_name name (m, t) nd]> T) /\
    same_inodes (w_fs s.1) (w_fs s'.1) /\ touched (fun i i' => size_of i' = size_of i) h s.1 s'.1 /\
    (forall off name', name' <> name -> at_offset s h off name' -> at_offset s' h off name').
Proof using HR Hn Hc.
  intros Hd Hdot Hname Hl. apply orb_false_iff in Hdot as [Hd1 Hd2]. apply bool_decide_eq_false in Hd1, Hd2.
  destruct (refines_at _ _ _ _ _ _ _ HR Hn Hc) as (i & Hi & H1 & H2 & H3 & H4 & Hnames).
  destruct (Hnames Hd) as (p & bs & es & Hp & Hin & Hwf & Hmap). pose proof (dw_head _ Hwf) as (dot & dd & rest & Hes & _). rewrite <- Hmap, Hes in Hname.
  pose proof (remove_entry_spec sb si s.1 p h i bs dot (dd :: rest) name t m (rf_world _ _ _ _ HR) Hi) as Hspec. rewrite <- Hes in *.
  destruct (Hspec Hin Hwf Hd1 Hd2 Hname) as (w' & p' & bs' & es' & x & Hrun & Hw' & Hin' & Hlen & Hrem & Ht); [rewrite H4; done|].
  destruct (removed_map name es es' x Hwf Hd1 Hd2 Hrem) as (Hwf' & Hx & Hmap'). exists (w', <[h := p']> s.2).
  split; [exact (on_inner_eq h _ s p _ _ _ Hp Hrun)|]. split_and!; [|exact (touched_same Ht)| |].
  - eapply (dir_update w' p' bs' es' _ i); [done|done|exact Ht|done|done|done|cbn; by rewrite H4|]. cbn. by rewrite Hmap', Hmap.
  - eapply touched_at; [exact Ht|exact Hi|]. intros i' (_ & _ & _ & _ & ->). rewrite Hlen. symmetry. apply Hin.
  - intros off name' Hne (p0 & c1 & c2 & l & e & l2 & Hp0 & Hh0 & Hc1 & Hc2 & He & ->). assert (p0 = p) as -> by congruence.
    assert (Hbs : bs = c1 ++ c2) by (destruct (di_holds _ _ _ _ Hin) as [_ <-]; by destruct Hh0).
    assert (Hall : es = l ++ e :: l2) by (apply (dir_rep_inj _ _ bs); [apply Hin|rewrite Hbs; apply dir_rep_app; by exists c1, c2]).
    destruct (removed_offset name es es' x l e l2 Hrem Hall) as (l' & e' & l2' & -> & Htot & He'); [congruence|].
    pose proof (di_rep _ _ _ _ Hin') as Hr'. apply dir_rep_app in Hr' as (c1' & c2' & Hbs' & Hc1' & Hc2').
    exists p', c1', c2', l', e', l2'. cbn. rewrite list_lookup_insert_eq by (by eapply lookup_lt_Some). split_and!; try done; [rewrite <- Hbs'; apply Hin'|congruence|].
    rewrite (dir_rep_total _ _ Hc1), (dir_rep_total _ _ Hc1'). lia.
Qed.

Lemma rename_step old new off v : n_type nd = DirT -> is_dot old = false -> n_names nd !! old = Some v -> n_names nd !! new = None -> name_ok new ->
  at_offset s h off old -> (forall i, inodes s.1 !! h = Some i -> size_of i <= 11 * BLOCK_SIZE) ->
  match on_inner h (rename_entry h old new off) s with
  | (Ok _, s') => refines sb si s' (<[n := MkNode (n_type nd) (n_links nd) (<[new := v]> (delete old (n_names nd)))]> T) /\ same_inodes (w_fs s.1) (w_fs s'.1)
  | (Err e, s') => e = ENOSPC
  | (Panic, _) => False
  end.
Proof using HR Hn Hc zero.
  intros Hd Hdot Hold Hnew Hok (p0 & c1 & c2 & l & e & l2 & Hp0 & Hh0 & Hc1 & Hc2 & He & ->) Hroom.
  apply orb_false_iff in Hdot as [Hd1 Hd2]. apply bool_decide_eq_false in Hd1, Hd2.
  destruct (refines_at _ _ _ _ _ _ _ HR Hn Hc) as (i & Hi & H1 & H2 & H3 & H4 & Hnames). destruct (Hnames Hd) as (p & bs & es & Hp & Hin & Hwf & Hmap).
  assert (p0 = p) as -> by congruence. assert (Hbs : bs = c1 ++ c2) by (destruct (di_holds _ _ _ _ Hin) as [_ <-]; by destruct Hh0).
  assert (Hall : es = l ++ e :: l2) by (apply (dir_rep_inj _ _ bs); [apply Hin|rewrite Hbs; apply dir_rep_app; by exists c1, c2]).
  pose proof (dw_head _ Hwf) as (dot & dd & rest & Hes & _). pose proof (di_size _ _ _ _ Hin) as Hsz. specialize (Hroom i Hi). subst bs.
  pose proof (rename_entry_spec zero sb si s.1 p h i c1 c2 l (e :: l2) dot (dd :: rest) old new (rf_world _ _ _ _ HR) Hi) as Hspec. rewrite <- Hes in Hspec.
  specialize (Hspec Hin Hwf ltac:(lia) Hc1 Hc2 (eq_sym Hall) ltac:(exists e; split; [set_solver|done]) Hd1 Hok H2). unfold on_inner. rewrite Hp.
  destruct (rename_entry h old new (len c1) (s.1, p)) as [[u|er|] [w' p']]; [|by destruct Hspec as (-> & _)|done].
  destruct Hspec as (bs' & es' & Hw' & Hin' & Hren & Ht). rewrite <- Hmap in Hnew, Hold.
  destruct (renamed_map old new es es' _ bs' Hwf (dir_rep_ok _ _ (di_rep _ _ _ _ Hin)) Hok Hd1 Hd2 Hnew Hren) as (Hwf' & v' & Hv' & Hmap').
  split; [|exact (touched_same Ht)]. eapply (dir_update w' p' bs' es' _ i); [done|done|exact Ht|done|done|done|by cbn|]. cbn. rewrite Hmap', <- Hmap. congruence.
Qed.

Lemma set_parent_step n' v : n_type nd = DirT -> 0 < n' < 2 ^ 32 -> n_names nd !! DOTDOT = Some (v, DirT) ->
  exists s', on_inner h (on_cache (set_parent_ino n')) s = (Ok tt, s') /\ refines sb si s' (<[n := set_name DOTDOT (n', DirT) nd]> T) /\ s'.1 = s.1.
Proof using HR Hn Hc.
  intros Hd Hn' Hv. destruct (refines_at _ _ _ _ _ _ _ HR Hn Hc) as (i & Hi & H1 & H2 & H3 & H4 & Hnames). destruct (Hnames Hd) as (p & bs & es & Hp & Hin & Hwf & Hmap).
  pose proof (dw_head _ Hwf) as (dot & dd & rest & Hes & _ & _ & Hdd). pose proof Hin as [Hh Hr Hsz Hb Hmax].
  destruct (set_parent_ok p bs es n' Hh Hr Hn') as (p' & l1 & e & l2 & bs' & Hrun & Heq & He & Hh' & Hr' & Hlen); [exists dd; split; [rewrite Hes; set_solver|done]|].
  destruct (set_parent_map n' es l1 e l2 Hwf Heq He) as [Hwf' Hmap']. exists (s.1, <[h := p']> s.2).
  split; [exact (on_inner_eq h _ s p _ _ _ Hp (on_cache_eq _ _ _ _ _ Hrun))|].
  assert (Hty : etype e = DirT).
  { rewrite <- Hmap, <- He, (dir_map_lookup es e) in Hv; [congruence|apply Hwf|rewrite Heq; set_solver]. }
  split; [|done]. eapply (dir_update s.1 p' bs' _ _ i (n_links nd)); [done|apply HR| | |exact Hwf'|done|done|cbn; by rewrite Hmap', Hmap, Hty].
  - eapply (touched_at eq); [|exact Hi|intros i' <-; unfold relinked; by rewrite Hlen]. unfold touched. split_and!; try done. intros j Hj. by exists j.
  - split; [done|done|done|by rewrite Hlen|by rewrite Hlen].
Qed.

Lemma links_step k (op : nat -> stM (World blk) Errno unit) :
  (forall i, inodes s.1 !! h = Some i -> links_of i = n_links nd -> op h s.1 = (Ok tt, put h (linked (n_links nd + k) i) s.1)) ->
  exists s', on_world pc_open (op h) s = (Ok tt, s') /\ refines sb si s' (<[n := add_links k nd]> T) /\ same_inodes (w_fs s.1) (w_fs s'.1).
Proof using HR Hn Hc.
  intros Hop. destruct (refines_at _ _ _ _ _ _ _ HR Hn Hc) as (i & Hi & H1 & H2 & H3 & H4 & Hnames). pose proof (Hop i Hi H4) as Hrun.
  eexists (_, s.2). split; [apply on_world_same; [apply HR|exact Hrun|cbn; by rewrite length_insert]|]. split; [|done].
  destruct (linked_ok (n_links nd + k) i (ww_ok _ _ _ (rf_world _ _ _ _ HR) _ _ Hi)) as [Hok Hfb].
  destruct (refines_ino _ _ _ _ _ _ _ HR Hn Hc) as [Hino Hrange].
  eapply (refines_update sb si s _ T n _ h (fun _ _ => True)); [done|done|lia|done|by eapply world_wf_put; [apply HR|..]|by eapply put_touched|done|done|].
  exists (linked (n_links nd + k) i). cbn. rewrite list_lookup_insert_eq by (by eapply lookup_lt_Some).
  destruct i as [? ? [[] ? ? ?]]. cbn in *. split_and!; try done.
Qed.

Lemma inc_step : 0 <= n_links nd < 65535 ->
  exists s', on_world pc_open (inc_hard_links h) s = (Ok tt, s') /\ refines sb si s' (<[n := add_links 1 nd]> T) /\ same_inodes (w_fs s.1) (w_fs s'.1).
Proof using HR Hn Hc. intros Hl. apply (links_step 1 inc_hard_links). intros i Hi Heq. rewrite <- Heq. apply inc_links_ok; [done|lia]. Qed.

Lemma dec_step : 0 < n_links nd ->
  exists s', on_world pc_open (dec_hard_links h) s = (Ok tt, s') /\ refines sb si s' (<[n := add_links (-1) nd]> T) /\ same_inodes (w_fs s.1) (w_fs s'.1).
Proof using HR Hn Hc. intros Hl. apply (links_step (-1) dec_hard_links). intros i Hi Heq. rewrite <- Heq. apply dec_links_ok; [done|lia]. Qed.
End Step.

(** * New inodes *)

(** The page cache of a file without blocks is empty. *)
Definition opens_empty : Prop := forall (w : World blk) h i, inodes w !! h = Some i -> n_of i = 0%nat -> holds (pc_open w h) [].

Lemma refines_new sb si s T n nd h : refines sb si s T -> cached (w_fs s.1) n h -> n < 2 ^ 32 -> node_at s h n nd -> refines sb si s (<[n := nd]> T).
Proof.
  intros [Hw Hl Hn] Hc Hr Hat. split; [done|done|]. intros m md [[<- <-]|[_ Hm]]%lookup_insert_Some; [|by apply Hn]. split; [done|]. by exists h.
Qed.

Lemma new_inode_step sb si s T dir t pm : opens_empty -> refines sb si s T -> (dir < length (block_groups (w_fs s.1)))%nat ->
  match on_world pc_open (create_inode dir t pm) s with
  | (Ok c, s') => exists m ci p, refines sb si s' T /\ T !! m = None /\ 0 < m < 2 ^ 32 /\ cached (w_fs s'.1) m c /\ kind_ok (w_fs s'.1) m (is_dir t) /\
      inodes s'.1 !! c = Some ci /\ ino ci = m /\ type_of ci = t /\ links_of ci = 1 /\ size_of ci = 0 /\ (block_group_idx ci < length (block_groups (w_fs s'.1)))%nat /\
      s'.2 !! c = Some p /\ holds p [] /\ (forall k kh, cached (w_fs s.1) k kh -> cached (w_fs s'.1) k kh) /\
      (forall k, (k < length (inodes s.1))%nat -> inodes s'.1 !! k = inodes s.1 !! k)
  | (Err e, s') => e = ENOSPC
  | (Panic, _) => False
  end.
Proof.
  intros Hopen HR Hdir. pose proof HR as [Hw Hl Hn]. pose proof (create_inode_node sb si s.1 dir t pm Hw) as Hnode.
  pose proof (create_inode_spec zero sb si s.1 dir t pm Hw) as Hspec. unfold on_world.
  destruct (create_inode dir t pm s.1) as [[c|e|] w']; [|destruct Hnode as [_ [-> |[_ ?]]]; [done|lia]|done].
  destruct Hnode as (m & grp & -> & Hin & Hm & Hgrp & Hlen & Hcm & Hk & Hold). destruct Hspec as (_ & Hw' & _). cbn [fst snd].
  set (ci := MkInode m grp _) in Hin. assert (Hci : inodes w' !! length (inodes s.1) = Some ci) by (by rewrite Hin, list_lookup_middle).
  assert (Hsz : length (inodes w') = S (length (inodes s.1))) by (rewrite Hin, length_app; cbn; lia).
  replace (length (inodes w') - length s.2)%nat with 1%nat by lia. cbn [seq fmap list_fmap]. set (p := pc_open w' (length s.2)).
  assert (Hp : (s.2 ++ [p]) !! length (inodes s.1) = Some p) by (rewrite <- Hl; by apply list_lookup_middle).
  assert (Hkeep : forall k, (k < length (inodes s.1))%nat -> inodes w' !! k = inodes s.1 !! k) by (intros k Hk0; rewrite Hin; by apply lookup_app_l).
  exists m, ci, p. split_and!; try done; [|destruct (T !! m) as [md|] eqn:Hmd; [|done]|apply Hm|apply Hm| |].
  - split; [done|cbn; rewrite length_app; cbn; lia|]. intros k kd Hkd. destruct (Hn k kd Hkd) as (? & kh & Hkc & j & Hj & J1 & J2 & J3 & J4 & J5).
    split; [done|]. exists kh. split; [by apply Hold|]. exists j. pose proof (lookup_lt_Some _ _ _ Hj). cbn. rewrite Hkeep, Hlen by done. split_and!; try done.
    intros Hd. destruct (J5 Hd) as (q & bs & es & Hq & Hrest). exists q, bs, es. cbn. rewrite lookup_app_l by lia. done.
  - destruct (Hn m md Hmd) as (_ & k & Hkc & _). by destruct (Hold m k Hkc).
  - cbn. apply (Hopen w' (length s.2) ci); [by rewrite Hl|]. done.
  - intros k kh Hkc. by apply Hold.
Qed.

Lemma undo_ok sb si s n h d : world_wf sb si s.1 -> cached (w_fs s.1) n h -> kind_ok (w_fs s.1) n d ->
  exists s', unwrap (on_world pc_open (on_fs (free_inode n d))) s = (Ok tt, s').
Proof.
  intros [Hfs _ _ _] (H0 & Hu & g & Hg & _) Hk. pose proof (free_inode_spec sb si (w_fs s.1) n d Hfs H0 Hk) as Hf. pose proof (group_bound sb si _ _ _ Hfs H0 Hg).
  unfold unwrap, on_world, on_fs. destruct (free_inode n d (w_fs s.1)) as [[[]|e|] fs']; cbn; [by eexists|lia|]. destruct Hf as [_ Hf]. congruence.
Qed.
End Refine.
