(* ===== verification/Ext2NameiProps.v ===== *)
(** The operations on names of ext2 against their meaning for trees. *)

From stdpp Require Import gmap.
From S2P Require Import Prelude Perms Pod AlignExt PathLookup RamFs Ext2Raw Ext2Alloc Ext2AllocFacts Ext2Inode Ext2InodeFacts Ext2Files Ext2Dir Ext2DirFacts Ext2DirSpec Ext2Tree Ext2Namei Ext2NameiFacts Ext2NameiRefine.

(** * What the operations mean *)

Implicit Types (T : tree) (nd : node) (n m : Z) (name : path).

Definition t_check nd : outcome Errno unit :=
  if bool_decide (n_type nd <> DirT) then Err ENOTDIR else if n_links nd =? 0 then Err ENOENT else Ok tt.
Definition t_len name : outcome Errno unit := if (255 <? length name)%nat then Err ENAMETOOLONG else Ok tt.
Definition t_free nd name : outcome Errno unit := if bool_decide (is_Some (n_names nd !! name)) then Err EEXIST else Ok tt.
Definition t_find nd name : outcome Errno (Z * FileType) := ok_or (n_names nd !! name) ENOENT.
Definition t_replace (src : FileType) (md : node) : outcome Errno unit :=
  match src, n_type md with
  | DirT, DirT => if (2 <? base.size (n_names md))%nat then Err ENOTEMPTY else Ok tt
  | DirT, _ => Err ENOTDIR
  | _, DirT => Err EISDIR
  | _, _ => Ok tt
  end.

(** The new inode has the number [m]. *)
Definition spec_create n name (t : FileType) m T : outcome Errno tree :=
  let? nd := ounwrap (T !! n) in
  let? _ := t_check nd in
  let? _ := t_len name in
  let? _ := t_free nd name in
  Ok (tree_create n name m t T).

Definition spec_lookup n name T : outcome Errno Z :=
  let? nd := ounwrap (T !! n) in
  let? _ := t_check nd in
  let? _ := t_len name in
  let? v := t_find nd name in Ok v.1.

Definition spec_link n m name T : outcome Errno tree :=
  let? nd := ounwrap (T !! n) in
  let? _ := t_check nd in
  let? _ := t_len name in
  let? md := ounwrap (T !! m) in
  if bool_decide (n_type md = DirT) then Err EPERM
  else let? _ := t_free nd name in Ok (tree_link n name (m, n_type md) T).

Definition spec_unlink n name T : outcome Errno tree :=
  let? nd := ounwrap (T !! n) in
  let? _ := t_check nd in
  if is_dot name then Err EISDIR
  else
    let? _ := t_len name in
    let? v := t_find nd name in
    if bool_decide (v.2 = DirT) then Err EISDIR else Ok (tree_remove n name v T).

Definition spec_rmdir n name T : outcome Errno tree :=
  let? nd := ounwrap (T !! n) in
  let? _ := t_check nd in
  if bool_decide (name = DOT) then Err EINVAL
  else if bool_decide (name = DOTDOT) then Err ENOTEMPTY
  else
    let? _ := t_len name in
    let? v := t_find nd name in
    let? md := ounwrap (T !! v.1) in
    if bool_decide (v.2 <> DirT) then Err ENOTDIR
    else let? _ := t_replace DirT md in Ok (tree_remove n name v T).

(** An entry that is replaced is removed first; two names of one inode stay. *)
Definition spec_rename n old n' new T : outcome Errno tree :=
  if is_dot old || is_dot new then Err EISDIR
  else
    let? _ := t_len new in
    let? nd := ounwrap (T !! n) in
    let? nd' := ounwrap (T !! n') in
    let? _ := (if n =? n' then t_check nd
      else if bool_decide (n_type nd <> DirT) || bool_decide (n_type nd' <> DirT) then Err ENOTDIR
      else if (n_links nd =? 0) || (n_links nd' =? 0) then Err ENOENT else Ok tt) in
    let? v := t_find nd old in
    if negb (n =? n') && (v.1 =? n') then Err EINVAL
    else
      match n_names nd' !! new with
      | None => Ok (tree_move n old n' new v T)
      | Some u =>
          if v.1 =? u.1 then Ok T
          else if negb (n =? n') && (u.1 =? n) then Err ENOTEMPTY
          else
            let? md := ounwrap (T !! u.1) in
            let? _ := t_replace v.2 md in
            Ok (tree_move n old n' new v (tree_remove n' new u T))
      end.

Lemma t_check_ok nd : t_check nd <> Panic.
Proof. unfold t_check. case_bool_decide; [done|]. by destruct (_ =? _). Qed.
Lemma t_len_ok name : t_len name <> Panic.
Proof. unfold t_len. by destruct (_ <? _)%nat. Qed.

Section Props.
Context {P blk : Type} `{!PageCache P, !PageCacheLaws P} (zero : blk) (pc_open : World blk -> nat -> P) (root : Z).
Notation FS := (World blk * list P)%type.
Implicit Types (s : FS) (h : nat) (i : Inode).
Notation type_of i := (i_type (desc (inode_impl i))).
Notation links_of i := (hard_links (desc (inode_impl i))).
Notation size_of i := (i_size (desc (inode_impl i))).

(** The object of an inode stays its object. *)
Definition handles s s' : Prop := forall k c, cached (w_fs s.1) k c -> cached (w_fs s'.1) k c.

(** The operation does what the meaning says, or there is no space for it. *)
Definition agrees {A} sb si s T (r : outcome Errno A * FS) (spec : outcome Errno tree) : Prop :=
  match r, spec with
  | (Ok _, s'), Ok T' => refines sb si s' T' /\ handles s s' /\ consistent root T'
  | (Err e, s'), Err e' => e = e' /\ refines sb si s' T /\ handles s s'
  | (Err e, _), Ok _ => e = ENOSPC
  | _, _ => False
  end.

Ltac same_object :=
  intros ? ? ?;
  repeat first [eassumption | match goal with |- cached (w_fs ?x) _ _ => match goal with H : x = _ |- _ => rewrite H | H : same_inodes _ (w_fs x) |- _ => eapply (cached_same _ _ _ _ H) end end].
#[local] Hint Extern 0 (handles _ _) => solve [same_object] : core.

(** Names are UTF-8 without zero bytes; directories have room for one more
    block, and counts of links are not at their limit. *)
Definition valid_name name : Prop := until_nul name = name /\ utf8_valid name = true.
Definition has_room s : Prop :=
  forall h i, inodes s.1 !! h = Some i -> links_of i < 65535 /\ (type_of i = DirT -> size_of i <= 11 * BLOCK_SIZE).

Lemma room_links sb si s T : refines sb si s T -> has_room s -> forall n nd, T !! n = Some nd -> n_links nd < 65535.
Proof.
  intros HR Hroom n nd Hn. destruct (rf_node _ _ _ _ HR n nd Hn) as (_ & h & _ & i & Hi & _ & _ & _ & Hl & _). rewrite <- Hl. by eapply Hroom.
Qed.

Lemma valid_ok name : valid_name name -> (length name <= 255)%nat -> name_ok name.
Proof. intros [H1 H2] Hl. by split. Qed.

Lemma links_nonneg T n nd : consistent root T -> T !! n = Some nd -> 0 <= n_links nd.
Proof. intros HC Hn. rewrite (cs_links _ _ HC n nd Hn). apply msum_nonneg. apply cnt_nonneg. Qed.

Lemma live_check T n nd : consistent root T -> T !! n = Some nd -> t_check nd = Ok tt -> live nd = true.
Proof.
  intros HC Hn. unfold t_check, live. case_bool_decide as Hd; [done|]. rewrite bool_decide_eq_true_2 by done.
  destruct (Z.eqb_spec (n_links nd) 0) as [|Hne]; [done|]. intros _. cbn. apply Z.ltb_lt. pose proof (links_nonneg T n nd HC Hn). lia.
Qed.

Lemma count_cond (M : gmap path (Z * FileType)) : (2 <? Z.of_nat (base.size M)) = (2 <? base.size M)%nat.
Proof. destruct (Z.ltb_spec 2 (Z.of_nat (base.size M))), (Nat.ltb_spec 2 (base.size M)); lia || done. Qed.

Lemma check_replace_step sb si s T d md hd t : refines sb si s T -> T !! d = Some md -> cached (w_fs s.1) d hd ->
  exists s', check_replace pc_open t hd s = (let? _ := t_replace t md in Ok (n_type md), s') /\ refines sb si s' T /\ s'.1 = s.1 /\ keeps s s'.
Proof.
  intros HR Hd Hc. unfold check_replace, t_replace. destruct (get_inode_step pc_open sb si s T HR d md hd Hd Hc) as (j & Hg & _ & _ & _ & Hjt & _).
  assert (Hkk : keeps s s) by (intros k q Hq; by exists q). rewrite (sbind_ok _ _ _ _ _ Hg), Hjt.
  destruct t, (n_type md) eqn:Hty; try (exists s; done).
  destruct (count_step sb si s T HR d md hd Hd Hc Hty) as (s2 & Hcnt & HR2 & Hs2 & Hk2). exists s2. rewrite (sbind_ok _ _ _ _ _ Hcnt), count_cond.
  destruct (2 <? base.size (n_names md))%nat; done.
Qed.
(** The links that a name, and the entry [.] of a directory, stood for *)
Lemma drop_step sb si s T d md hd (b : bool) : refines sb si s T -> T !! d = Some md -> cached (w_fs s.1) d hd -> (if b then 2 else 1) <= n_links md ->
  exists s', (on_world pc_open (dec_hard_links hd) ;! if b then on_world pc_open (dec_hard_links hd) else sret tt) s = (Ok tt, s') /\
    refines sb si s' (<[d := add_links (if b then -2 else -1) md]> T) /\ same_inodes (w_fs s.1) (w_fs s'.1).
Proof.
  intros HR Hd Hc Hl. destruct (dec_step pc_open sb si s T HR d md hd Hd Hc) as (s1 & Hdec & HR1 & Hsi1); [destruct b; lia|].
  rewrite (sbind_ok _ _ _ _ _ Hdec). destruct b; [|by exists s1].
  destruct (dec_step pc_open sb si s1 _ HR1 d _ hd (lookup_insert_eq _ _ _) (cached_same _ _ _ _ Hsi1 Hc)) as (s2 & Hdec2 & HR2 & Hsi2); [cbn; lia|].
  exists s2. split; [done|]. split; [|exact (transitivity Hsi1 Hsi2)]. rewrite insert_insert_eq in HR2. cbn [n_type n_links n_names] in HR2.
  by replace (n_links md + -2) with (n_links md + -1 + -1) by lia.
Qed.

(** An inode that may be replaced loses its name. *)
Lemma replace_ok T n nd name u md t : consistent root T -> T !! n = Some nd -> live nd = true -> is_dot name = false -> n_names nd !! name = Some u ->
  T !! u.1 = Some md -> n_type md = u.2 -> t_replace t md = Ok tt ->
  is_dir u.2 = is_dir t /\ consistent root (tree_remove n name u T) /\ (if is_dir t then 2 else 1) <= n_links md /\ live (del_name name u nd) = true.
Proof.
  intros HC Hn Hl Hdot Hu Hm Hmt Hrep. destruct u as [d ut]. cbn [fst snd] in *. assert (He : edge T n name d ut) by (by exists nd).
  unfold t_replace in Hrep. rewrite Hmt in Hrep. destruct (decide (ut = DirT)) as [->|Hd].
  - destruct t; try done. destruct (Nat.ltb_spec 2 (base.size (n_names md))) as [|Hsz]; [done|].
    destruct (empty_dir_refs root T n name d md HC He Hdot Hm Hsz) as (_ & _ & H2 & _ & _). change (is_dir DirT) with true. cbn iota.
    split_and!; [done|by eapply consistent_rmdir|lia|by eapply live_del].
  - assert (t <> DirT) by (intros ->; by destruct ut). rewrite !bool_decide_eq_false_2 by done.
    split_and!; [done|by eapply consistent_unlink|rewrite (cs_links _ _ HC d md Hm); by eapply edge_refs|].
    unfold live, del_name in *. cbn. by rewrite (bool_decide_eq_false_2 (ut = DirT)), Z.sub_0_r by done.
Qed.
Lemma t_replace_panic t md : t_replace t md <> Panic.
Proof. unfold t_replace. destruct t, (n_type md); try done. by destruct (_ <? _)%nat. Qed.

(** A name other than [.] and [..] leads to another inode. *)
Lemma remove_ne T n nd name m t md : consistent root T -> T !! n = Some nd -> live nd = true -> is_dot name = false ->
  n_names nd !! name = Some (m, t) -> T !! m = Some md -> n_type md = t -> n <> m.
Proof.
  intros HC Hn Hl Hdot Hname Hm Ht Heq. destruct (decide (t = DirT)) as [->|Hd].
  - destruct (cs_down _ _ HC n name m Hdot) as (_ & Hmn & _); [by exists nd|done].
  - apply Hd. rewrite <- Ht. assert (md = nd) as -> by congruence. by apply dir_of_live.
Qed.

Lemma tree_remove_eq T n nd name m t md : T !! n = Some nd -> n <> m -> T !! m = Some md ->
  tree_remove n name (m, t) T = <[m := add_links (if is_dir t then -2 else -1) md]> (<[n := del_name name (m, t) nd]> T).
Proof. intros Hn Hne Hm. unfold tree_remove. cbn [fst snd]. by rewrite (alter_some _ n T nd Hn), (alter_some _ m _ md) by (by rewrite lookup_insert_ne). Qed.

Lemma live_links nd : live nd = true -> 0 < n_links nd.
Proof. intros [_ Hl]%andb_true_iff. by apply Z.ltb_lt. Qed.

(** A directory that lost a name is as large as before. *)
Lemma room_touched sb si s s' T n nd h b : refines sb si s T -> T !! n = Some nd -> cached (w_fs s.1) n h ->
  touched (fun i i' => size_of i' = size_of i) h s.1 s'.1 -> (forall i, inodes s.1 !! h = Some i -> size_of i <= b) ->
  forall i, inodes s'.1 !! h = Some i -> size_of i <= b.
Proof.
  intros HR Hn Hc (_ & _ & _ & _ & Ht) Hb i Hi. destruct (refines_at _ _ _ _ _ _ _ HR Hn Hc) as (j & Hj & _).
  destruct (Ht j Hj) as (i' & Hi' & Heq). simplify_eq. rewrite Heq. by apply Hb.
Qed.

Section Ops.
Context (sb si : Z) (s : FS) (T : tree) (HR : refines sb si s T) (HC : consistent root T).
Context (n : Z) (nd : node) (h : nat) (Hn : T !! n = Some nd) (Hc : cached (w_fs s.1) n h).

Lemma check_dir_step : exists i, check_dir pc_open h s = (let? _ := t_check nd in Ok i, s) /\ inodes s.1 !! h = Some i /\ ino i = n /\
  (block_group_idx i < length (block_groups (w_fs s.1)))%nat.
Proof using HR Hn Hc.
  destruct (get_inode_step pc_open sb si s T HR n nd h Hn Hc) as (i & Hrun & Hi & H1 & H2 & H3 & H4). exists i. split; [|done].
  unfold check_dir, t_check. rewrite (sbind_ok _ _ _ _ _ Hrun), H3, H4. case_bool_decide; [done|]. by destruct (n_links nd =? 0).
Qed.

Lemma check_len_step name (s0 : FS) : check_len name s0 = (t_len name, s0).
Proof. unfold check_len, t_len. by destruct (_ <? _)%nat. Qed.

(** The inode that an entry names *)
Lemma find_step name : live nd = true ->
  match n_names nd !! name with
  | None => exists s', find_inode pc_open h name s = (Err ENOENT, s') /\ refines sb si s' T /\ s'.1 = s.1
  | Some (m, t) => exists s' off c md, find_inode pc_open h name s = (Ok (off, c), s') /\ refines sb si s' T /\ s'.1 = s.1 /\
      cached (w_fs s.1) m c /\ T !! m = Some md /\ n_type md = t /\ at_offset s' h off name
  end.
Proof using HR HC Hn Hc.
  intros Hl. destruct (entry_step sb si s T HR n nd h Hn Hc name (dir_of_live nd Hl)) as (r & s' & Hrun & HR' & Hs & Hke & Hres). unfold find_inode.
  rewrite (sbind_ok _ _ _ _ _ Hrun). destruct r as [[off e]|]; [|rewrite Hres; by exists s'].
  destruct Hres as [Hname Hoff]. rewrite Hname. cbn [ok_or]. rewrite (slift_ok _ _ _ _ eq_refl). cbn [snd fst].
  destruct (cs_ref _ _ HC n name (e_ino e) (etype e)) as (md & Hm & Ht); [by exists nd|].
  destruct (rf_node _ _ _ _ HR' _ _ Hm) as (_ & c & Hcm & _).
  rewrite (sbind_ok _ _ _ _ _ (lookup_step pc_open sb si s' T HR' (e_ino e) c Hcm)). exists s', off, c, md. by rewrite <- Hs.
Qed.

Lemma room_here : has_room s -> n_type nd = DirT -> forall i, inodes s.1 !! h = Some i -> size_of i <= 11 * BLOCK_SIZE.
Proof using HR Hn Hc.
  intros Hroom Hd i Hi. destruct (refines_at _ _ _ _ _ _ _ HR Hn Hc) as (j & Hj & _ & _ & Ht & _). simplify_eq. apply (Hroom h i Hi). congruence.
Qed.

Lemma links_pos name m t md : live nd = true -> n_names nd !! name = Some (m, t) -> T !! m = Some md -> 0 < n_links md.
Proof using HC Hn.
  intros Hl Hname Hm. rewrite (cs_links _ _ HC m md Hm). enough (1 <= refs T m) by lia. apply (edge_refs T n name m t). by exists nd.
Qed.

(** The checks that the operations begin with *)
Ltac begin_dir :=
  let Hchk := fresh "Hchk" in
  destruct check_dir_step as (i & Hchk & Hi); unfold sbind at 1; rewrite Hchk; clear Hchk;
  destruct (t_check nd) as [[]|e|] eqn:Ht; cbn [obind]; [|done|by destruct (t_check_ok nd)];
  pose proof (live_check T n nd HC Hn Ht) as Hl.
Ltac check_name :=
  unfold sbind at 1; rewrite check_len_step;
  match goal with |- context [t_len ?x] => destruct (t_len x) as [[]|e|] eqn:Hlen; cbn [obind]; [|done|by destruct (t_len_ok x)] end.
Ltac find_name s0 Hl :=
  pose proof (find_step s0 Hl) as Hfind; unfold t_find; destruct (n_names nd !! s0) as [[m t]|] eqn:Hname;
  [|let s' := fresh in destruct Hfind as (s' & Hf & HR' & Hs'); unfold sbind at 1; by rewrite Hf].

Lemma unlink_agrees name : agrees sb si s T (unlink pc_open h name s) (spec_unlink n name T).
Proof using HR HC Hn Hc.
  unfold unlink, spec_unlink. rewrite Hn. cbn [ounwrap obind]. begin_dir. destruct (is_dot name) eqn:Hdot; [done|]. check_name. find_name name Hl.
  destruct Hfind as (s1 & off & c & md & Hf & HR1 & Hs1 & Hcm & Hm & Hmt & _). cbn [ok_or obind snd]. rewrite (sbind_ok _ _ _ _ _ Hf). cbn [snd].
  rewrite <- Hs1 in Hcm. destruct (get_inode_step pc_open sb si s1 T HR1 m md c Hm Hcm) as (j & Hg & _ & _ & _ & Hjt & _). rewrite (sbind_ok _ _ _ _ _ Hg), Hjt, Hmt.
  case_bool_decide as Hd; [done|]. pose proof (remove_ne T n nd name m t md HC Hn Hl Hdot Hname Hm Hmt) as Hne. rewrite <- Hs1 in Hc.
  destruct (remove_step sb si s1 T HR1 n nd h Hn Hc name m t (dir_of_live nd Hl) Hdot Hname ltac:(done)) as (s2 & Hrm & HR2 & Hsi & _ & _).
  rewrite (sbind_ok _ _ _ _ _ Hrm).
  destruct (dec_step pc_open sb si s2 _ HR2 m md c ltac:(by rewrite lookup_insert_ne) (cached_same _ _ _ _ Hsi Hcm)) as (s3 & Hdec & HR3 & Hsi3); [by eapply links_pos|].
  rewrite Hdec. unfold agrees. rewrite (tree_remove_eq T n nd name m t md Hn Hne Hm), (bool_decide_eq_false_2 (t = DirT)) by done. do 2 (split; [done|]).
  pose proof (consistent_unlink root T n name m t nd md HC Hn Hl Hdot Hname Hm Hmt Hd) as HC'.
  by rewrite (tree_remove_eq T n nd name m t md Hn Hne Hm), (bool_decide_eq_false_2 (t = DirT)) in HC' by done.
Qed.

Lemma rmdir_agrees name : agrees sb si s T (rmdir pc_open h name s) (spec_rmdir n name T).
Proof using HR HC Hn Hc.
  unfold rmdir, spec_rmdir. rewrite Hn. cbn [ounwrap obind]. begin_dir.
  case_bool_decide as Hd1; [done|]. case_bool_decide as Hd2; [done|].
  assert (Hdot : is_dot name = false) by (unfold is_dot; by rewrite !bool_decide_eq_false_2). check_name.
  find_name name Hl. destruct Hfind as (s1 & off & c & md & Hf & HR1 & Hs1 & Hcm & Hm & Hmt & _). cbn [ok_or obind fst snd].
  rewrite Hm. cbn [ounwrap obind]. rewrite (sbind_ok _ _ _ _ _ Hf). cbn [snd]. rewrite <- Hs1 in Hcm, Hc.
  destruct (get_inode_step pc_open sb si s1 T HR1 m md c Hm Hcm) as (j & Hg & _ & _ & _ & Hjt & _). rewrite (sbind_ok _ _ _ _ _ Hg), Hjt, Hmt.
  case_bool_decide as Hd; [done|]. unfold t_replace. rewrite Hmt, Hd.
  destruct (count_step sb si s1 T HR1 m md c Hm Hcm) as (s2 & Hcnt & HR2 & Hs2 & _); [congruence|]. rewrite (sbind_ok _ _ _ _ _ Hcnt), count_cond.
  destruct (Nat.ltb_spec 2 (base.size (n_names md))) as [|Hsz]; [done|]. cbn [obind]. subst t. rewrite Hd in *. rewrite <- Hs2 in Hc, Hcm.
  assert (Hmt : n_type md = DirT) by done. pose proof (remove_ne T n nd name m DirT md HC Hn Hl Hdot Hname Hm Hmt) as Hne.
  destruct (remove_step sb si s2 T HR2 n nd h Hn Hc name m DirT (dir_of_live nd Hl) Hdot Hname) as (s3 & Hrm & HR3 & Hsi & _ & _).
  { intros _. by apply live_links. }
  rewrite (sbind_ok _ _ _ _ _ Hrm). assert (He : edge T n name m DirT) by (by exists nd).
  destruct (empty_dir_refs root T n name m md HC He Hdot Hm Hsz) as (_ & _ & H2 & _ & _).
  destruct (dec_step pc_open sb si s3 _ HR3 m md c ltac:(by rewrite lookup_insert_ne) (cached_same _ _ _ _ Hsi Hcm)) as (s4 & Hdec & HR4 & Hsi4); [lia|].
  rewrite (sbind_ok _ _ _ _ _ Hdec).
  destruct (dec_step pc_open sb si s4 _ HR4 m _ c (lookup_insert_eq _ _ _) (cached_same _ _ _ _ Hsi4 (cached_same _ _ _ _ Hsi Hcm))) as (s5 & Hdec5 & HR5 & Hsi5); [cbn; lia|].
  rewrite Hdec5. unfold agrees. pose proof (consistent_rmdir root T n name m nd md HC Hn Hl Hdot Hname Hm Hsz) as HC'. split; [|done].
  rewrite (tree_remove_eq T n nd name m DirT md Hn Hne Hm). change (is_dir DirT) with true. cbn iota. rewrite insert_insert_eq in HR5. cbn [n_type n_links n_names] in HR5.
  by replace (n_links md + -2) with (n_links md + -1 + -1) by lia.
Qed.

Lemma lookup_agrees name :
  match lookup pc_open h name s, spec_lookup n name T with
  | (Ok c, s'), Ok m => cached (w_fs s'.1) m c /\ refines sb si s' T /\ handles s s'
  | (Err e, s'), Err e' => e = e' /\ refines sb si s' T /\ handles s s'
  | _, _ => False
  end.
Proof using HR HC Hn Hc.
  unfold lookup, spec_lookup. rewrite Hn. cbn [ounwrap obind]. begin_dir. check_name. find_name name Hl.
  destruct Hfind as (s1 & off & c & md & Hf & HR1 & Hs1 & Hcm & Hm & Hmt & _). rewrite (sbind_ok _ _ _ _ _ Hf). cbn. by rewrite Hs1.
Qed.

Lemma link_agrees m hm name : has_room s -> valid_name name -> is_Some (T !! m) -> cached (w_fs s.1) m hm ->
  agrees sb si s T (link pc_open h hm name s) (spec_link n m name T).
Proof using HR HC Hn Hc zero.
  intros Hroom Hv [md Hm] Hcm. pose proof (room_links sb si s T HR Hroom) as Hmax. unfold link, spec_link. rewrite Hn, Hm. cbn [ounwrap obind]. begin_dir. check_name.
  destruct (get_inode_step pc_open sb si s T HR m md hm Hm Hcm) as (j & Hg & _ & Hjn & _ & Hjt & _). rewrite (sbind_ok _ _ _ _ _ Hg), Hjt, Hjn.
  case_bool_decide as Hd; [done|]. destruct (entry_step sb si s T HR n nd h Hn Hc name (dir_of_live nd Hl)) as (r & s1 & Hrun & HR1 & Hs1 & _ & Hres).
  rewrite (sbind_ok _ _ _ _ _ Hrun). unfold t_free. destruct r as [[off e]|].
  { destruct Hres as [-> _]. by rewrite !bool_decide_eq_true_2 by (by eexists). }
  rewrite Hres, !bool_decide_eq_false_2 by (by intros [? ?]). cbn [obind].
  assert (Hok : name_ok name) by (apply valid_ok; [done|]; unfold t_len in Hlen; destruct (Nat.ltb_spec 255 (length name)); [done|lia]).
  rewrite dir_entry_new_ok, (slift_ok _ _ _ _ eq_refl) by done.
  pose proof (room_here Hroom (dir_of_live nd Hl)) as Hrm. rewrite <- Hs1 in Hc, Hcm, Hrm.
  destruct (refines_ino _ _ _ _ _ _ _ HR1 Hm Hcm) as [_ Hmr].
  pose proof (append_step zero sb si s1 T HR1 n nd h Hn Hc name m (n_type md) (dir_of_live nd Hl)) as Happ.
  specialize (Happ (conj (links_nonneg T n nd HC Hn) (Hmax n nd Hn)) Hres Hok Hmr Hrm). unfold sbind at 1.
  destruct (on_inner h _ s1) as [[u|e|] s2]; [|unfold agrees; apply Happ|apply Happ]. destruct Happ as (HR2 & Hsi & _).
  assert (Hne : n <> m) by (intros ->; apply Hd; assert (md = nd) as -> by congruence; by apply dir_of_live).
  destruct (inc_step pc_open sb si s2 _ HR2 m md hm ltac:(by rewrite lookup_insert_ne) (cached_same _ _ _ _ Hsi Hcm)) as (s3 & Hinc & HR3 & Hsi3);
    [exact (conj (links_nonneg T m md HC Hm) (Hmax m md Hm))|].
  rewrite Hinc. unfold agrees. split; [|split; [done|by eapply consistent_link]]. unfold tree_link. cbn [fst].
  by rewrite (alter_some _ n T nd Hn), (alter_some _ m _ md) by (by rewrite lookup_insert_ne).
Qed.

(** [Inode::init] of a new inode [m] at [c] *)
Lemma init_step s2 m c ci p t : refines sb si s2 T -> T !! m = None -> 0 < m < 2 ^ 32 -> 0 < n < 2 ^ 32 -> cached (w_fs s2.1) m c ->
  inodes s2.1 !! c = Some ci -> ino ci = m -> type_of ci = t -> links_of ci = 1 -> size_of ci = 0 ->
  (block_group_idx ci < length (block_groups (w_fs s2.1)))%nat -> s2.2 !! c = Some p -> holds p [] ->
  match init pc_open c n s2 with
  | (Ok _, s3) => refines sb si s3 (<[m := new_node t m n]> T) /\ same_inodes (w_fs s2.1) (w_fs s3.1) /\
      (forall k, k <> c -> inodes s3.1 !! k = inodes s2.1 !! k)
  | (Err e, s3) => e = ENOSPC /\ world_wf sb si s3.1 /\ same_inodes (w_fs s2.1) (w_fs s3.1)
  | (Panic, _) => False
  end.
Proof using zero.
  intros HR2 Hm Hmr Hnr Hcm Hci H1 H2 H3 H4 H5 Hp Hh. unfold init.
  rewrite (sbind_ok _ _ _ _ _ (on_world_same pc_open _ s2 _ _ (rf_caches _ _ _ _ HR2) (get_inode_ok _ _ _ Hci) eq_refl)), H1, H2. unfold new_node.
  replace (s2.1, s2.2) with s2 by (by destruct s2). case_bool_decide as Hd.
  - assert (Hin : dir_in p [] [] (size_of ci)) by (split; [done|done|done|by exists 0|done]).
    pose proof (init_dir_spec zero sb si s2.1 p c ci m n (rf_world _ _ _ _ HR2) Hci Hin H3 Hmr Hnr H5) as Hspec. unfold on_inner. rewrite Hp.
    destruct (init_dir c m n (s2.1, p)) as [[u|e|] [w' p']]; [|by destruct Hspec as (-> & ? & Ht & _)|done].
    destruct Hspec as (bs & es & Hw' & Hin' & Hwf & Hmap & Ht). pose proof Ht as (T1 & T2 & T3 & T4 & T5). destruct (T5 ci Hci) as (ci' & Hci' & R1 & R2 & R3 & R4 & R5).
    split_and!; [|done|done]. eapply (refines_update sb si s2 _ T m _ c); [done|by exists ci|lia|done|done|exact Ht|cbn; by rewrite length_insert| |].
    { intros h' Hne. cbn. by rewrite list_lookup_insert_ne. }
    exists ci'. cbn. split_and!; try congruence. intros _. exists p', bs, es. cbn. rewrite list_lookup_insert_eq by (by eapply lookup_lt_Some). by rewrite R5.
  - cbn. split_and!; [|done|done]. apply (refines_new sb si s2 T m _ c); [done|done|lia|]. exists ci. cbn. by split_and!.
Qed.

(** Like [agrees], with the object of the new inode *)
Definition creates m (r : outcome Errno nat * FS) (spec : outcome Errno tree) : Prop :=
  match r, spec with
  | (Ok c, s'), Ok T' => refines sb si s' T' /\ handles s s' /\ consistent root T' /\ cached (w_fs s'.1) m c
  | (Err e, s'), Err e' => e = e' /\ refines sb si s' T /\ handles s s'
  | (Err e, _), Ok _ => e = ENOSPC
  | _, _ => False
  end.

(** The rest of [create], once there is an inode *)
Lemma create_rest s2 name m c ci p t : refines sb si s2 T -> T !! m = None -> 0 < m < 2 ^ 32 -> handles s s2 -> cached (w_fs s2.1) m c ->
  kind_ok (w_fs s2.1) m (is_dir t) -> inodes s2.1 !! c = Some ci -> ino ci = m -> type_of ci = t -> links_of ci = 1 -> size_of ci = 0 ->
  (block_group_idx ci < length (block_groups (w_fs s2.1)))%nat -> s2.2 !! c = Some p -> holds p [] ->
  live nd = true -> n_names nd !! name = None -> name_ok name -> n_links nd < 65535 -> (forall i, inodes s2.1 !! h = Some i -> size_of i <= 11 * BLOCK_SIZE) ->
  let undo := unwrap (on_world pc_open (on_fs (free_inode m (is_dir t)))) in
  creates m ((on_error (init pc_open c n) undo ;!
    let! new_entry := slift (dir_entry_new m name t) in
    on_error (on_inner h (append_entry h new_entry 0)) undo ;! sret c) s2) (Ok (tree_create n name m t T)).
Proof using HR HC Hn Hc zero.
  intros HR2 Hm Hmr Hkeep Hcm Hk Hci C1 C2 C3 C4 C5 Hp Hh Hl Hname Hok Hmax Hrm undo. pose proof (Hkeep n h Hc) as Hcn. destruct (refines_ino _ _ _ _ _ _ _ HR Hn Hc) as [_ Hnr].
  assert (Hundo : forall s', world_wf sb si s'.1 -> same_inodes (w_fs s2.1) (w_fs s'.1) -> exists s'', (undo ;! serr ENOSPC) s' = (Err ENOSPC : outcome Errno unit, s'')).
  { intros s' Hw Hsi. destruct (undo_ok pc_open sb si s' m c (is_dir t) Hw (cached_same _ _ _ _ Hsi Hcm) (kind_ok_same _ _ _ _ Hsi Hk)) as (s'' & Hu).
    exists s''. unfold undo. by rewrite (sbind_ok _ _ _ _ _ Hu). }
  pose proof (init_step s2 m c ci p t HR2 Hm Hmr Hnr Hcm Hci C1 C2 C3 C4 C5 Hp Hh) as Hinit. unfold sbind at 1, on_error at 1.
  destruct (init pc_open c n s2) as [[u|e|] s3]; [| |done].
  2:{ destruct Hinit as (-> & Hw & Hsi). destruct (Hundo s3 Hw Hsi) as [s'' ->]. done. }
  destruct Hinit as (HR3 & Hsi3 & Hoth). rewrite dir_entry_new_ok, (slift_ok _ _ _ _ eq_refl) by done. assert (Hne : n <> m) by (intros ->; congruence).
  assert (Hhc : h <> c) by (intros ->; destruct (refines_at _ _ _ _ _ _ _ HR2 Hn Hcn) as (j & Hj & ? & _); congruence).
  pose proof (append_step zero sb si s3 _ HR3 n nd h ltac:(by rewrite lookup_insert_ne) (cached_same _ _ _ _ Hsi3 Hcn) name m t (dir_of_live nd Hl)
    (conj (links_nonneg T n nd HC Hn) Hmax) Hname Hok Hmr) as Happ. rewrite Hoth in Happ by done. specialize (Happ Hrm).
  unfold sbind at 1, on_error at 1. destruct (on_inner h _ s3) as [[u'|e|] s4]; [| |done].
  - destruct Happ as (HR4 & Hsi4 & _). cbn. split_and!; [|intros ? ? ?%Hkeep; by eapply cached_same; [|eapply cached_same]|by eapply consistent_create|by eapply cached_same; [|eapply cached_same]].
    unfold tree_create. by rewrite (alter_some _ n _ nd) by (by rewrite lookup_insert_ne).
  - destruct Happ as (-> & Hw & Hsi & _). destruct (Hundo s4 Hw (transitivity Hsi3 Hsi)) as [s'' ->]. done.
Qed.

Lemma create_agrees name t pm : opens_empty pc_open -> has_room s -> valid_name name ->
  exists m, T !! m = None /\ creates m (create pc_open h name t pm s) (spec_create n name t m T).
Proof using HR HC Hn Hc zero.
  intros Hopen Hroom Hv. pose proof (room_links sb si s T HR Hroom) as Hmax. destruct (exist_fresh (dom T)) as [m0 Hm0%not_elem_of_dom]. unfold create, spec_create. rewrite Hn. cbn [ounwrap obind].
  destruct check_dir_step as (i & Hchk & Hi & Hino & Hgrp). unfold sbind at 1. rewrite Hchk.
  destruct (t_check nd) as [[]|e|] eqn:Ht; cbn [obind]; [|by exists m0|by destruct (t_check_ok nd)]. pose proof (live_check T n nd HC Hn Ht) as Hl.
  unfold sbind at 1. rewrite check_len_step. destruct (t_len name) as [[]|e|] eqn:Hlen; cbn [obind]; [|by exists m0|by destruct (t_len_ok name)].
  destruct (entry_step sb si s T HR n nd h Hn Hc name (dir_of_live nd Hl)) as (r & s1 & Hrun & HR1 & Hs1 & _ & Hres). rewrite !(sbind_ok _ _ _ _ _ Hrun).
  unfold t_free. destruct r as [[off e]|]. { destruct Hres as [-> _]. exists m0. by rewrite !bool_decide_eq_true_2 by (by eexists). }
  rewrite Hres, !bool_decide_eq_false_2 by (by intros [? ?]). cbn [obind].
  assert (Hok : name_ok name) by (apply valid_ok; [done|]; unfold t_len in Hlen; destruct (Nat.ltb_spec 255 (length name)); [done|lia]).
  pose proof (room_here Hroom (dir_of_live nd Hl)) as Hrm. rewrite <- Hs1 in Hrm, Hgrp, Hi.
  pose proof (new_inode_step zero pc_open sb si s1 T (block_group_idx i) t pm Hopen HR1 Hgrp) as Hnew.
  unfold sbind at 1. destruct (on_world pc_open (create_inode _ t pm) s1) as [[c|e|] s2]; [|by exists m0|done].
  destruct Hnew as (m & ci & p & HR2 & Hm & Hmr & Hcm & Hk & Hci & C1 & C2 & C3 & C4 & C5 & Hp & Hh & Hkeep & Hsame). exists m. split; [done|].
  rewrite (sbind_ok _ _ _ _ _ (on_world_same pc_open _ s2 _ _ (rf_caches _ _ _ _ HR2) (get_inode_ok _ _ _ Hci) eq_refl)), C1, Hino.
  replace (s2.1, s2.2) with s2 by (by destruct s2).
  apply (create_rest s2 name m c ci p t); try done; [intros k kh Hkc; apply Hkeep; by rewrite Hs1|by eapply Hmax|]. rewrite Hsame by (by eapply lookup_lt_Some). done.
Qed.
(** * Renaming *)

Lemma move_here old new v (nd1 : node) T1 : T1 !! n = Some nd1 ->
  tree_move n old n new v T1 = <[n := MkNode (n_type nd1) (n_links nd1) (<[new := v]> (delete old (n_names nd1)))]> T1.
Proof.
  intros H1. unfold tree_move. rewrite Z.eqb_refl, andb_false_r, (alter_some _ n T1 nd1 H1), (alter_some _ n _ _ (lookup_insert_eq _ _ _)), insert_insert_eq.
  unfold add_name, del_name. cbn. by rewrite Z.sub_add.
Qed.

(** The part of [spec_rename] after the checks of the directories *)
Definition spec_within old new : outcome Errno tree :=
  let? v := t_find nd old in
  match n_names nd !! new with
  | None => Ok (tree_move n old n new v T)
  | Some u =>
      if v.1 =? u.1 then Ok T
      else
        let? md := ounwrap (T !! u.1) in
        let? _ := t_replace v.2 md in
        Ok (tree_move n old n new v (tree_remove n new u T))
  end.

(** The rest of [rename_within] when there is an entry to replace *)
Lemma within_replace s2 old new off m t d ut : refines sb si s2 T -> s2.1 = s.1 -> has_room s -> at_offset s2 h off old -> live nd = true ->
  name_ok new -> is_dot old = false -> is_dot new = false -> n_names nd !! old = Some (m, t) -> n_names nd !! new = Some (d, ut) -> m <> d ->
  agrees sb si s T ((let! hd := on_world pc_open (lookup_inode d) in
    let! dst_type := check_replace pc_open t hd in
    on_inner h (remove_entry h new) ;!
    on_inner h (rename_entry h old new off) ;!
    on_world pc_open (dec_hard_links hd) ;!
    if bool_decide (dst_type = DirT) then on_world pc_open (dec_hard_links hd) else sret tt) s2)
    (let? md := ounwrap (T !! d) in let? _ := t_replace t md in Ok (tree_move n old n new (m, t) (tree_remove n new (d, ut) T))).
Proof using HR HC Hn Hc zero.
  intros HR2 Hs2 Hroom Hoff Hl Hok Hdo Hdn Hold Hnew Hne. pose proof (room_here Hroom (dir_of_live nd Hl)) as Hrm. rewrite <- Hs2 in Hc, Hrm.
  destruct (cs_ref _ _ HC n new d ut) as (md & Hd & Hdt); [by exists nd|]. destruct (rf_node _ _ _ _ HR2 _ _ Hd) as (_ & hd & Hcd & _).
  rewrite (sbind_ok _ _ _ _ _ (lookup_step pc_open sb si s2 T HR2 d hd Hcd)), Hd. cbn [ounwrap obind].
  destruct (check_replace_step sb si s2 T d md hd t HR2 Hd Hcd) as (s3 & Hchk & HR3 & Hs3 & Hk3).
  unfold sbind at 1. rewrite Hchk. destruct (t_replace t md) as [[]|er|] eqn:Hrep; cbn [obind]; [|done|by destruct (t_replace_panic t md)].
  destruct (replace_ok T n nd new (d, ut) md t HC Hn Hl Hdn Hnew Hd Hdt Hrep) as (Hsame & HC1 & Hlinks & Hl1). cbn [snd] in Hsame.
  pose proof (remove_ne T n nd new d ut md HC Hn Hl Hdn Hnew Hd Hdt) as Hnd. rewrite <- Hs3 in Hc, Hcd, Hrm.
  destruct (remove_step sb si s3 T HR3 n nd h Hn Hc new d ut (dir_of_live nd Hl) Hdn Hnew) as (s4 & Hrun4 & HR4 & Hsi4 & Ht4 & Hoff4).
  { intros _. by apply live_links. }
  rewrite (sbind_ok _ _ _ _ _ Hrun4). assert (Hon : old <> new) by congruence.
  pose proof (room_touched sb si s3 s4 T n nd h _ HR3 Hn Hc Ht4 Hrm) as Hrm4.
  pose proof (rename_step zero sb si s4 _ HR4 n _ h (lookup_insert_eq _ _ _) (cached_same _ _ _ _ Hsi4 Hc) old new off (m, t) (dir_of_live nd Hl) Hdo
    ltac:(cbn; by rewrite lookup_delete_ne) (lookup_delete_eq _ _) Hok (Hoff4 off old Hon (keeps_offset _ _ _ _ _ Hk3 Hoff)) Hrm4) as Hren.
  unfold sbind at 1. destruct (on_inner h (rename_entry h old new off) s4) as [[u|er|] s5]; [|by subst er|done]. destruct Hren as [HR5 Hsi5]. rewrite insert_insert_eq in HR5.
  destruct (drop_step sb si s5 _ d md hd (is_dir t) HR5 ltac:(by rewrite lookup_insert_ne) (cached_same _ _ _ _ Hsi5 (cached_same _ _ _ _ Hsi4 Hcd)) Hlinks) as (s6 & Hrun6 & HR6 & Hsi6).
  rewrite Hdt, Hsame, Hrun6. unfold agrees. rewrite (tree_remove_eq T n nd new d ut md Hn Hnd Hd), Hsame in HC1 |- *.
  set (T1 := <[d := _]> _) in *. assert (Hn1 : T1 !! n = Some (del_name new (d, ut) nd)) by (unfold T1; by rewrite lookup_insert_ne, lookup_insert_eq).
  split; [|split; [done|]; apply (move_same root T1 n old n new m t _ _ HC1 Hn1 Hl1 Hdo ltac:(cbn; by rewrite lookup_delete_ne) Hn1 Hl1 (lookup_delete_eq _ _) eq_refl)].
  rewrite (move_here old new (m, t) _ T1 Hn1). unfold T1. rewrite insert_insert_ne, insert_insert_eq by done. done.
Qed.

Lemma within_agrees old new : has_room s -> name_ok new -> is_dot old = false -> is_dot new = false ->
  agrees sb si s T (rename_within pc_open h old new s) (let? _ := t_check nd in spec_within old new).
Proof using HR HC Hn Hc zero.
  intros Hroom Hok Hdo Hdn. pose proof within_replace as Hwr. unfold rename_within, spec_within. begin_dir. find_name old Hl.
  destruct Hfind as (s1 & off & c & md & Hf & HR1 & Hs1 & Hcm & Hm & Hmt & Hoff). cbn [ok_or obind fst snd]. rewrite (sbind_ok _ _ _ _ _ Hf). cbn [fst snd].
  pose proof (room_here Hroom (dir_of_live nd Hl)) as Hrm. rewrite <- Hs1 in Hc, Hcm, Hrm.
  destruct (get_inode_step pc_open sb si s1 T HR1 m md c Hm Hcm) as (j & Hg & _ & Hjn & _ & Hjt & _). rewrite (sbind_ok _ _ _ _ _ Hg), Hjt, Hmt, Hjn.
  destruct (entry_step sb si s1 T HR1 n nd h Hn Hc new (dir_of_live nd Hl)) as (r & s2 & Hrun & HR2 & Hs2 & Hk2 & Hres). rewrite (sbind_ok _ _ _ _ _ Hrun).
  rewrite <- Hs2 in Hc, Hcm, Hrm. pose proof (keeps_offset _ _ _ _ _ Hk2 Hoff) as Hoff2. destruct r as [[off' e]|].
  - destruct Hres as [Hnew _]. rewrite Hnew. cbn [fst snd]. destruct (Z.eqb_spec m (e_ino e)) as [|Hne]; [by cbn|].
    apply Hwr; try done. congruence.
  - rewrite Hres. pose proof (rename_step zero sb si s2 T HR2 n nd h Hn Hc old new off (m, t) (dir_of_live nd Hl) Hdo Hname Hres Hok Hoff2 Hrm) as Hren.
    destruct (on_inner h (rename_entry h old new off) s2) as [[u|er|] s3]; [|by subst er|done]. destruct Hren as [HR3 Hsi3]. cbn.
    split; [by rewrite (move_here old new (m, t) nd T Hn)|]. split; [done|]. by apply (move_same root T n old n new m t nd nd).
Qed.
(** The entry [..] of a subdirectory *)
Lemma up_entry name m t md : live nd = true -> is_dot name = false -> n_names nd !! name = Some (m, t) -> T !! m = Some md -> t = DirT ->
  n_names md !! DOTDOT = Some (n, DirT).
Proof using HC Hn.
  intros Hl Hdot Hname Hm ->. destruct (cs_down _ _ HC n name m Hdot) as (_ & _ & Hup); [by exists nd|].
  by apply (edge_at T m md DOTDOT n DirT Hm) in Hup as [_ ?].
Qed.

(** Renaming from one directory to another *)
Section Across.
Context (n' : Z) (nd' : node) (h' : nat) (Hn' : T !! n' = Some nd') (Hc' : cached (w_fs s.1) n' h') (Hnn : n <> n') (Hroom : has_room s).

Lemma handles_ne : h <> h'.
Proof using HR Hn Hc Hn' Hc' Hnn.
  intros <-. destruct (refines_at _ _ _ _ _ _ _ HR Hn Hc) as (i & Hi & H1 & _). destruct (refines_at _ _ _ _ _ _ _ HR Hn' Hc') as (j & Hj & H2 & _). congruence.
Qed.

Lemma room_there : n_type nd' = DirT -> forall i, inodes s.1 !! h' = Some i -> size_of i <= 11 * BLOCK_SIZE.
Proof using HR Hn' Hc' Hroom.
  intros Hd i Hi. destruct (refines_at _ _ _ _ _ _ _ HR Hn' Hc') as (j & Hj & _ & _ & Ht & _). simplify_eq. apply (Hroom h' i Hi). congruence.
Qed.

Lemma tree_move_across old new m t md T1 nd1 nd1' : T1 !! n = Some nd1 -> T1 !! n' = Some nd1' -> T1 !! m = Some md -> n <> m -> n' <> m ->
  tree_move n old n' new (m, t) T1 =
    let T2 := <[n' := add_name new (m, t) nd1']> (<[n := del_name old (m, t) nd1]> T1) in
    if is_dir t then <[m := set_name DOTDOT (n', DirT) md]> T2 else T2.
Proof using Hnn.
  intros H1 H1' Hm Hnm Hnm'. unfold tree_move. rewrite (proj2 (Z.eqb_neq _ _) Hnn), andb_true_r. cbn [fst snd].
  rewrite (alter_some _ n T1 nd1 H1), (alter_some _ n' _ nd1') by (by rewrite lookup_insert_ne). destruct (is_dir t); [|done].
  by rewrite (alter_some _ m _ md) by (by rewrite !lookup_insert_ne).
Qed.

Lemma moved_consistent old new m t T1 nd1 nd1' : consistent root T1 -> T1 !! n = Some nd1 -> live nd1 = true -> is_dot old = false -> n_names nd1 !! old = Some (m, t) ->
  T1 !! n' = Some nd1' -> live nd1' = true -> n_names nd1' !! new = None -> m <> n' -> consistent root (tree_move n old n' new (m, t) T1).
Proof using Hnn.
  intros H1 H2 H3 H4 H5 H6 H7 H8 H9. destruct (decide (t = DirT)) as [Ht|Ht]; [by eapply (move_dir root T1)|by eapply (move_file root T1)].
Qed.

(** The entry [..] of a directory that moved *)
Lemma parent_step s0 T0 m md hm t p : refines sb si s0 T0 -> T0 !! m = Some md -> cached (w_fs s0.1) m hm -> n_type md = t ->
  (t = DirT -> n_names md !! DOTDOT = Some (p, DirT)) ->
  exists s', (if is_dir t then on_inner hm (on_cache (set_parent_ino n')) else sret tt) s0 = (Ok tt, s') /\
    refines sb si s' (if is_dir t then <[m := set_name DOTDOT (n', DirT) md]> T0 else T0) /\ s'.1 = s0.1.
Proof using HR Hn' Hc'.
  intros HR0 Hm Hcm Ht Hp. destruct (refines_ino _ _ _ _ _ _ _ HR Hn' Hc') as [_ Hr]. case_bool_decide as Hd; [|by exists s0].
  apply (set_parent_step sb si s0 T0 HR0 m md hm Hm Hcm n' p); [congruence|done|by apply Hp].
Qed.

Lemma across_fresh s2 old new m t md hm : refines sb si s2 T -> s2.1 = s.1 -> live nd = true -> live nd' = true -> name_ok new -> is_dot old = false ->
  n_names nd !! old = Some (m, t) -> n_names nd' !! new = None -> T !! m = Some md -> n_type md = t -> cached (w_fs s.1) m hm -> m <> n' ->
  agrees sb si s T ((on_inner h (remove_entry h old) ;!
    let! new_entry := slift (dir_entry_new m new t) in
    on_inner h' (append_entry h' new_entry 0) ;!
    if is_dir t then on_inner hm (on_cache (set_parent_ino n')) else sret tt) s2) (Ok (tree_move n old n' new (m, t) T)).
Proof using All.
  intros HR2 Hs2 Hl Hl' Hok Hdo Hold Hnew Hm Hmt Hcm Hmn'. pose proof (remove_ne T n nd old m t md HC Hn Hl Hdo Hold Hm Hmt) as Hnm. pose proof handles_ne as Hhh.
  pose proof (room_there (dir_of_live nd' Hl')) as Hrm. pose proof (parent_step : forall s0, _) as Hpar. pose proof (room_links sb si s T HR Hroom) as Hmax.
  destruct (refines_ino _ _ _ _ _ _ _ HR Hm Hcm) as [_ Hmr]. rewrite <- Hs2 in Hc, Hc', Hcm, Hrm.
  destruct (remove_step sb si s2 T HR2 n nd h Hn Hc old m t (dir_of_live nd Hl) Hdo Hold) as (s3 & Hrun3 & HR3 & Hsi3 & Ht3 & _).
  { intros _. by apply live_links. }
  rewrite (sbind_ok _ _ _ _ _ Hrun3), dir_entry_new_ok, (slift_ok _ _ _ _ eq_refl) by done. destruct Ht3 as (_ & _ & _ & Ht3 & _).
  rewrite <- (Ht3 h') in Hrm by done.
  pose proof (append_step zero sb si s3 _ HR3 n' nd' h' ltac:(by rewrite lookup_insert_ne) (cached_same _ _ _ _ Hsi3 Hc') new m t (dir_of_live nd' Hl')
    (conj (links_nonneg T n' nd' HC Hn') (Hmax n' nd' Hn')) Hnew Hok Hmr Hrm) as Happ.
  unfold sbind at 1. destruct (on_inner h' (append_entry _ _ _) s3) as [[u|er|] s4]; [|by destruct Happ as (-> & _)|done]. destruct Happ as (HR4 & Hsi4 & _).
  destruct (Hpar s4 _ m md hm t n HR4 ltac:(by rewrite !lookup_insert_ne) (cached_same _ _ _ _ Hsi4 (cached_same _ _ _ _ Hsi3 Hcm)) Hmt
    (up_entry old m t md Hl Hdo Hold Hm)) as (s5 & -> & HR5 & Hs5).
  unfold agrees. split; [|split; [done|by eapply moved_consistent]]. by rewrite (tree_move_across old new m t md T nd nd').
Qed.

Lemma across_over s2 old new m t md hm d ut : refines sb si s2 T -> s2.1 = s.1 -> live nd = true -> live nd' = true -> name_ok new ->
  is_dot old = false -> is_dot new = false -> n_names nd !! old = Some (m, t) -> n_names nd' !! new = Some (d, ut) -> T !! m = Some md -> n_type md = t ->
  cached (w_fs s.1) m hm -> m <> n' -> m <> d -> n <> d ->
  agrees sb si s T ((let! hd := on_world pc_open (lookup_inode d) in
    let! _ := check_replace pc_open t hd in
    on_inner h (remove_entry h old) ;!
    on_inner h' (remove_entry h' new) ;!
    let! new_entry := slift (dir_entry_new m new t) in
    on_inner h' (append_entry h' new_entry 0) ;!
    on_world pc_open (dec_hard_links hd) ;!
    (if is_dir t then on_world pc_open (dec_hard_links hd) else sret tt) ;!
    if is_dir t then on_inner hm (on_cache (set_parent_ino n')) else sret tt) s2)
    (let? dd := ounwrap (T !! d) in let? _ := t_replace t dd in Ok (tree_move n old n' new (m, t) (tree_remove n' new (d, ut) T))).
Proof using All.
  intros HR2 Hs2 Hl Hl' Hok Hdo Hdn Hold Hnew Hm Hmt Hcm Hmn' Hmd Hnd. pose proof (remove_ne T n nd old m t md HC Hn Hl Hdo Hold Hm Hmt) as Hnm. pose proof handles_ne as Hhh.
  pose proof (room_there (dir_of_live nd' Hl')) as Hrm. pose proof (parent_step : forall s0, _) as Hpar. pose proof (room_links sb si s T HR Hroom) as Hmax.
  destruct (refines_ino _ _ _ _ _ _ _ HR Hm Hcm) as [_ Hmr].
  destruct (cs_ref _ _ HC n' new d ut) as (dd & Hd & Hdt); [by exists nd'|]. destruct (rf_node _ _ _ _ HR2 _ _ Hd) as (_ & hd & Hcd & _).
  rewrite (sbind_ok _ _ _ _ _ (lookup_step pc_open sb si s2 T HR2 d hd Hcd)), Hd. cbn [ounwrap obind].
  destruct (check_replace_step sb si s2 T d dd hd t HR2 Hd Hcd) as (s3 & Hchk & HR3 & Hs3 & _).
  unfold sbind at 1. rewrite Hchk. destruct (t_replace t dd) as [[]|er|] eqn:Hrep; cbn [obind]; [|done|by destruct (t_replace_panic t dd)].
  destruct (replace_ok T n' nd' new (d, ut) dd t HC Hn' Hl' Hdn Hnew Hd Hdt Hrep) as (Hsame & HC1 & Hlinks & Hl1). cbn [snd] in Hsame.
  rewrite <- Hs3 in Hcd. rewrite <- Hs2, <- Hs3 in Hc, Hc', Hcm, Hrm.
  pose proof (remove_ne T n' nd' new d ut dd HC Hn' Hl' Hdn Hnew Hd Hdt) as Hnd'.
  destruct (remove_step sb si s3 T HR3 n nd h Hn Hc old m t (dir_of_live nd Hl) Hdo Hold) as (s4 & Hrun4 & HR4 & Hsi4 & Ht4 & _).
  { intros _. by apply live_links. }
  rewrite (sbind_ok _ _ _ _ _ Hrun4). destruct Ht4 as (_ & _ & _ & Ht4 & _). rewrite <- (Ht4 h') in Hrm by done.
  assert (Hn4 : <[n := del_name old (m, t) nd]> T !! n' = Some nd') by (by rewrite lookup_insert_ne). pose proof (cached_same _ _ _ _ Hsi4 Hc') as Hc4.
  destruct (remove_step sb si s4 _ HR4 n' nd' h' Hn4 Hc4 new d ut (dir_of_live nd' Hl') Hdn Hnew) as (s5 & Hrun5 & HR5 & Hsi5 & Ht5 & _).
  { intros _. by apply live_links. }
  rewrite (sbind_ok _ _ _ _ _ Hrun5), dir_entry_new_ok, (slift_ok _ _ _ _ eq_refl) by done.
  pose proof (append_step zero sb si s5 _ HR5 n' _ h' (lookup_insert_eq _ _ _) (cached_same _ _ _ _ Hsi5 Hc4) new m t (dir_of_live nd' Hl')) as Happ.
  assert (Hlk : 0 <= n_links (del_name new (d, ut) nd') < 65535).
  { pose proof (live_links _ Hl1). specialize (Hmax n' nd' Hn'). split; [lia|]. cbn. destruct (is_dir ut); cbn; lia. }
  specialize (Happ Hlk (lookup_delete_eq _ _) Hok Hmr (room_touched sb si s4 s5 _ n' nd' h' _ HR4 Hn4 Hc4 Ht5 Hrm)).
  unfold sbind at 1. destruct (on_inner h' (append_entry _ _ _) s5) as [[u|er|] s6]; [|by destruct Happ as (-> & _)|done]. destruct Happ as (HR6 & Hsi6 & _).
  rewrite insert_insert_eq in HR6. rewrite <- sbind_assoc. pose proof (transitivity Hsi4 (transitivity Hsi5 Hsi6)) as Hsi.
  destruct (drop_step sb si s6 _ d dd hd (is_dir t) HR6 ltac:(by rewrite !lookup_insert_ne) (cached_same _ _ _ _ Hsi Hcd) Hlinks) as (s7 & Hrun7 & HR7 & Hsi7).
  rewrite (sbind_ok _ _ _ _ _ Hrun7).
  destruct (Hpar s7 _ m md hm t n HR7 ltac:(by rewrite !lookup_insert_ne) (cached_same _ _ _ _ (transitivity Hsi Hsi7) Hcm) Hmt (up_entry old m t md Hl Hdo Hold Hm)) as (s8 & -> & HR8 & Hs8).
  unfold agrees. rewrite (tree_remove_eq T n' nd' new d ut dd Hn' Hnd' Hd), Hsame in HC1 |- *. set (T1 := <[d := _]> _) in *.
  assert (T1 !! n = Some nd /\ T1 !! n' = Some (del_name new (d, ut) nd') /\ T1 !! m = Some md) as (E1 & E2 & E3).
  { unfold T1. by rewrite lookup_insert_ne, (lookup_insert_ne _ d n'), (lookup_insert_ne _ d m), lookup_insert_eq, !lookup_insert_ne by done. }
  split; [|split; [done|]; eapply moved_consistent; try done; apply lookup_delete_eq].
  rewrite (tree_move_across old new m t md T1 nd _ E1 E2 E3) by done. cbn zeta. unfold T1.
  rewrite (insert_insert_ne _ n d), (insert_insert_ne _ n' d), (insert_insert_ne _ n n'), insert_insert_eq by done.
  done.
Qed.

Lemma across_agrees old new : name_ok new -> is_dot old = false -> is_dot new = false -> live nd = true -> live nd' = true ->
  agrees sb si s T ((let! src := find_inode pc_open h old in
    let! si := on_world pc_open (get_inode src.2) in
    if ino si =? n' then serr EINVAL
    else
      let is_dir := bool_decide (type_of si = DirT) in
      let! dst := entry_of h' new in
      match dst with
      | None =>
          on_inner h (remove_entry h old) ;!
          let! new_entry := slift (dir_entry_new (ino si) new (type_of si)) in
          on_inner h' (append_entry h' new_entry 0) ;!
          if is_dir then on_inner src.2 (on_cache (set_parent_ino n')) else sret tt
      | Some (_, dst_entry) =>
          if ino si =? e_ino dst_entry then sret tt
          else if n =? e_ino dst_entry then serr ENOTEMPTY
          else
            let! d := on_world pc_open (lookup_inode (e_ino dst_entry)) in
            let! _ := check_replace pc_open (type_of si) d in
            on_inner h (remove_entry h old) ;!
            on_inner h' (remove_entry h' new) ;!
            let! new_entry := slift (dir_entry_new (ino si) new (type_of si)) in
            on_inner h' (append_entry h' new_entry 0) ;!
            on_world pc_open (dec_hard_links d) ;!
            (if is_dir then on_world pc_open (dec_hard_links d) else sret tt) ;!
            if is_dir then on_inner src.2 (on_cache (set_parent_ino n')) else sret tt
      end) s)
    (let? v := t_find nd old in
     if v.1 =? n' then Err EINVAL
     else
       match n_names nd' !! new with
       | None => Ok (tree_move n old n' new v T)
       | Some u =>
           if v.1 =? u.1 then Ok T
           else if u.1 =? n then Err ENOTEMPTY
           else
             let? md := ounwrap (T !! u.1) in
             let? _ := t_replace v.2 md in
             Ok (tree_move n old n' new v (tree_remove n' new u T))
       end).
Proof using All.
  intros Hok Hdo Hdn Hl Hl'. find_name old Hl. destruct Hfind as (s1 & off & c & md & Hf & HR1 & Hs1 & Hcm & Hm & Hmt & _). cbn [ok_or obind fst snd].
  rewrite (sbind_ok _ _ _ _ _ Hf). cbn [fst snd]. pose proof Hcm as Hcm1. rewrite <- Hs1 in Hcm1.
  destruct (get_inode_step pc_open sb si s1 T HR1 m md c Hm Hcm1) as (j & Hg & _ & Hjn & _ & Hjt & _). rewrite (sbind_ok _ _ _ _ _ Hg), Hjt, Hmt, Hjn.
  destruct (Z.eqb_spec m n') as [|Hmn']; [done|]. pose proof Hc' as Hc1. rewrite <- Hs1 in Hc1. cbn zeta.
  destruct (entry_step sb si s1 T HR1 n' nd' h' Hn' Hc1 new (dir_of_live nd' Hl')) as (r & s2 & Hrun & HR2 & Hs2 & _ & Hres). rewrite (sbind_ok _ _ _ _ _ Hrun).
  rewrite Hs1 in Hs2. destruct r as [[off' e]|]; [|rewrite Hres; by apply (across_fresh s2 old new m t md c)].
  destruct Hres as [Hnew _]. rewrite Hnew, (Z.eqb_sym _ n). cbn [fst snd]. destruct (Z.eqb_spec m (e_ino e)) as [|Hne]; [by cbn|].
  destruct (Z.eqb_spec n (e_ino e)) as [|Hne']; [done|]. by apply (across_over s2 old new m t md c (e_ino e) (etype e)).
Qed.
End Across.

Lemma rename_agrees n' nd' h' old new : T !! n' = Some nd' -> cached (w_fs s.1) n' h' -> has_room s -> valid_name new ->
  agrees sb si s T (rename pc_open h old h' new s) (spec_rename n old n' new T).
Proof using HR HC Hn Hc zero.
  intros Hn' Hc' Hroom Hv. unfold rename, spec_rename. destruct (is_dot old) eqn:Hdo; [done|]. destruct (is_dot new) eqn:Hdn; [done|]. cbn [orb].
  check_name. assert (Hok : name_ok new) by (apply valid_ok; [done|]; unfold t_len in Hlen; destruct (Nat.ltb_spec 255 (length new)); [done|lia]).
  rewrite Hn, Hn'. cbn [ounwrap obind].
  destruct (get_inode_step pc_open sb si s T HR n nd h Hn Hc) as (i & Hg & _ & H1 & _ & H3 & H4). rewrite (sbind_ok _ _ _ _ _ Hg), H1, H3, H4.
  destruct (get_inode_step pc_open sb si s T HR n' nd' h' Hn' Hc') as (i' & Hg' & _ & H1' & _ & H3' & H4'). rewrite (sbind_ok _ _ _ _ _ Hg'), H1', H3', H4'.
  destruct (Z.eqb_spec n n') as [<-|Hne]; cbn [negb andb].
  { assert (nd' = nd) as -> by congruence. by apply within_agrees. }
  pose proof (live_check T n nd HC Hn) as Hl. pose proof (live_check T n' nd' HC Hn') as Hl'. unfold t_check in Hl, Hl'.
  destruct (bool_decide (n_type nd <> DirT)), (bool_decide (n_type nd' <> DirT)); try done.
  destruct (n_links nd =? 0), (n_links nd' =? 0); try done. cbn [orb obind]. apply across_agrees; auto.
Qed.
End Ops.
End Props.
