(* ===== verification/Ext2Namespace.v ===== *)
(** Operations on the names of an ext2 file system, their meaning for trees of
    inodes, and a file system to start from. *)

From stdpp Require Import gmap.
From S2P Require Import Prelude Perms Pod AlignExt PathLookup RamFs Ext2Raw Ext2Alloc Ext2AllocFacts Ext2Inode Ext2InodeFacts Ext2Files Ext2Dir Ext2DirFacts Ext2DirSpec Ext2Tree Ext2Namei Ext2NameiFacts Ext2NameiRefine Ext2NameiProps.

(** An inode object, and the number of its inode *)
Record Obj : Type := MkObj { o_at : nat; o_ino : Z }.

Inductive NameOp : Type :=
| NCreate (d : Obj) (name : path) (t : FileType) (perm : Z)
| NLookup (d : Obj) (name : path)
| NLink (d i : Obj) (name : path)
| NUnlink (d : Obj) (name : path)
| NRmdir (d : Obj) (name : path)
| NRename (d : Obj) (old : path) (d' : Obj) (new : path).

(** The tree after the operation, and the inode that it returns; an inode that is
    created gets the number [m]. *)
Definition spec_op (op : NameOp) (m : Z) (T : tree) : outcome Errno (tree * option Z) :=
  let tree_only r := let? T' := r in Ok (T', None) in
  match op with
  | NCreate d name t _ => let? T' := spec_create (o_ino d) name t m T in Ok (T', Some m)
  | NLookup d name => let? k := spec_lookup (o_ino d) name T in Ok (T, Some k)
  | NLink d i name => tree_only (spec_link (o_ino d) (o_ino i) name T)
  | NUnlink d name => tree_only (spec_unlink (o_ino d) name T)
  | NRmdir d name => tree_only (spec_rmdir (o_ino d) name T)
  | NRename d old d' new => tree_only (spec_rename (o_ino d) old (o_ino d') new T)
  end.

(** The names that an operation writes, and the objects that it is called with *)
Definition op_names (op : NameOp) : list path :=
  match op with
  | NCreate _ name _ _ | NLink _ _ name => [name]
  | NRename _ _ _ new => [new]
  | _ => []
  end.
Definition op_objs (op : NameOp) : list Obj :=
  match op with
  | NCreate d _ _ _ | NLookup d _ | NUnlink d _ | NRmdir d _ => [d]
  | NLink d i _ => [d; i]
  | NRename d _ d' _ => [d; d']
  end.

(** Inodes stay in the tree, and an inode that is returned is in it. *)
Lemma spec_keeps op m T T' k n : spec_op op m T = Ok (T', k) -> is_Some (T !! n) -> is_Some (T' !! n).
Proof.
  intros Hspec Hn. destruct op; cbn in Hspec; unfold spec_create, spec_lookup, spec_link, spec_unlink, spec_rmdir, spec_rename, obind in Hspec;
    repeat case_match; simplify_eq; try done; unfold tree_create, tree_link, tree_remove, tree_move; repeat case_match;
    rewrite ?lookup_alter_is_Some; try done. by apply lookup_insert_is_Some'; right.
Qed.

Lemma spec_returned root op m T T' k : consistent root T -> spec_op op m T = Ok (T', Some k) -> is_Some (T' !! k).
Proof.
  intros HC Hspec. destruct op as [d name t perm|d name|d i name|d name|d name|d old d' new]; cbn in Hspec;
    [| |destruct (spec_link _ _ _ _); by simplify_eq|destruct (spec_unlink _ _ _); by simplify_eq|destruct (spec_rmdir _ _ _); by simplify_eq|
      destruct (spec_rename _ _ _ _ _); by simplify_eq].
  - unfold spec_create, obind in Hspec. repeat case_match; simplify_eq. unfold tree_create. rewrite lookup_alter_is_Some, lookup_insert_eq. by eexists.
  - unfold spec_lookup in Hspec. destruct (T !! o_ino d) as [nd|] eqn:Hn; [|done]. cbn [ounwrap obind] in Hspec.
    destruct (t_check nd) as [[]| |] eqn:Ht; [|done..]. destruct (t_len name); [|done..]. unfold t_find in Hspec. cbn [obind] in Hspec.
    destruct (n_names nd !! name) as [[j t]|] eqn:Hname; [|done]. cbn in Hspec. simplify_eq.
    destruct (cs_ref _ _ HC (o_ino d) name k t) as (md & Hm & _); [exists nd; split; [done|]; split; [by eapply live_check|done]|by exists md].
Qed.

Section Namespace.
Context {P blk : Type} `{!PageCache P, !PageCacheLaws P} (zero : blk) (pc_open : World blk -> nat -> P).
Notation FS := (World blk * list P)%type.
Implicit Types (s : FS) (T : tree) (op : NameOp).

Definition run_name_op op : stM FS Errno (option nat) :=
  let object m := let! c := m in sret (Some c) in
  let done m := m ;! sret None in
  match op with
  | NCreate d name t perm => object (create pc_open (o_at d) name t perm)
  | NLookup d name => object (lookup pc_open (o_at d) name)
  | NLink d i name => done (link pc_open (o_at d) (o_at i) name)
  | NUnlink d name => done (unlink pc_open (o_at d) name)
  | NRmdir d name => done (rmdir pc_open (o_at d) name)
  | NRename d old d' new => done (rename pc_open (o_at d) old (o_at d') new)
  end.

(** An object of the tree *)
Definition held s T (o : Obj) : Prop := cached (w_fs s.1) (o_ino o) (o_at o) /\ is_Some (T !! o_ino o).
Definition returned s T (r : option nat) (k : option Z) : Prop :=
  match r, k with Some c, Some n => held s T (MkObj c n) | None, None => True | _, _ => False end.

(** What the operation does, or that there is no space for it *)
Definition simulates root sb si s T (r : outcome Errno (option nat) * FS) (spec : outcome Errno (tree * option Z)) : Prop :=
  match r, spec with
  | (Ok c, s'), Ok (T', k) => refines sb si s' T' /\ consistent root T' /\ returned s' T' c k /\ (forall o, held s T o -> held s' T' o)
  | (Err e, s'), Err e' => e = e' /\ refines sb si s' T /\ (forall o, held s T o -> held s' T o)
  | (Err e, _), Ok _ => e = ENOSPC
  | _, _ => False
  end.

Lemma held_after s s' T T' : handles s s' -> (forall n, is_Some (T !! n) -> is_Some (T' !! n)) -> forall o, held s T o -> held s' T' o.
Proof. intros Hh HT o [H1 H2]. split; [by apply Hh|by apply HT]. Qed.

Lemma agrees_sim root sb si s T (m : stM FS Errno unit) (spec : outcome Errno tree) op m0 : spec_op op m0 T = (let? T' := spec in Ok (T', None)) ->
  agrees root sb si s T (m s) spec -> simulates root sb si s T ((m ;! sret None) s) (spec_op op m0 T).
Proof.
  intros Hop. pose proof (spec_keeps op m0 T) as Hk. rewrite Hop in *. unfold agrees, simulates, sbind. destruct (m s) as [[[]|e|] s'], spec as [T'|e'|]; cbn in *; try done.
  - intros (H1 & H2 & H3). split_and!; try done. apply held_after; [done|]. intros n. by eapply Hk.
  - intros (H1 & H2 & H3). split_and!; try done. by apply held_after.
Qed.

(** An operation that returns an object *)
Lemma object_sim root sb si s T (m : stM FS Errno nat) op m0 : consistent root T ->
  match m s, spec_op op m0 T with
  | (Ok c, s'), Ok (T', Some k) => refines sb si s' T' /\ handles s s' /\ consistent root T' /\ cached (w_fs s'.1) k c
  | (Err e, s'), Err e' => e = e' /\ refines sb si s' T /\ handles s s'
  | (Err e, _), Ok _ => e = ENOSPC
  | _, _ => False
  end -> simulates root sb si s T ((let! c := m in sret (Some c)) s) (spec_op op m0 T).
Proof.
  intros HC. pose proof (spec_keeps op m0 T) as Hk. pose proof (spec_returned root op m0 T) as Hr. unfold simulates, sbind.
  destruct (m s) as [[c|e|] s'], (spec_op op m0 T) as [[T' [k|]]|e'|]; cbn in *; try done.
  - intros (H1 & H2 & H3 & H4). split_and!; try done; [split; [done|by eapply Hr]|]. apply held_after; [done|]. intros n. by eapply Hk.
  - intros (H1 & H2 & H3). split_and!; try done. by apply held_after.
Qed.

Lemma run_simulates root sb si s T op : refines sb si s T -> consistent root T -> opens_empty pc_open -> has_room s ->
  Forall valid_name (op_names op) -> Forall (held s T) (op_objs op) ->
  exists m, T !! m = None /\ simulates root sb si s T (run_name_op op s) (spec_op op m T).
Proof using zero.
  intros HR HC Hopen Hroom Hnames Hobjs. assert (Hfresh : exists m0, T !! m0 = None) by (destruct (exist_fresh (dom T)) as [m0 Hm0]; exists m0; by apply not_elem_of_dom).
  destruct op as [d name t perm|d name|d i name|d name|d name|d old d' new]; cbn [op_names op_objs run_name_op] in *;
    apply Forall_cons in Hobjs as [[Hc [nd Hn]] Hobjs]; [|destruct Hfresh as [m0 Hm0]; exists m0; split; [exact Hm0|]..].
  - apply Forall_cons in Hnames as [Hv _]. destruct (create_agrees zero pc_open root sb si s T HR HC _ nd _ Hn Hc name t perm Hopen Hroom Hv) as (m & Hm & Hcr).
    exists m. split; [done|]. apply object_sim; [done|]. unfold creates in Hcr. cbn. set (sp := spec_create _ _ _ _ _) in *.
    destruct (create _ _ _ _ _ s) as [[c|e|] s'], sp as [T'|e'|]; by cbn in *.
  - pose proof (lookup_agrees pc_open root sb si s T HR HC _ nd _ Hn Hc name) as Hlo. apply object_sim; [done|]. cbn. set (sp := spec_lookup _ _ _) in *.
    destruct (lookup _ _ _ s) as [[c|e|] s'], sp as [k|e'|]; cbn in *; try done. by destruct Hlo as (H1 & H2 & H3).
  - apply Forall_cons in Hnames as [Hv _]. apply Forall_cons in Hobjs as [[Hci Hi] _]. eapply agrees_sim; [done|]. by apply (link_agrees zero pc_open root sb si s T HR HC _ nd).
  - eapply agrees_sim; [done|]. by apply (unlink_agrees pc_open root sb si s T HR HC _ nd).
  - eapply agrees_sim; [done|]. by apply (rmdir_agrees pc_open root sb si s T HR HC _ nd).
  - apply Forall_cons in Hnames as [Hv _]. apply Forall_cons in Hobjs as [[Hcd [nd' Hd]] _]. eapply agrees_sim; [done|].
    by apply (rename_agrees zero pc_open root sb si s T HR HC _ nd _ Hn Hc _ nd').
Qed.

(** * A file system to start from: a root directory that is its own parent *)

Definition format : stM FS Errno nat :=
  let! c := on_world pc_open (create_inode 0 DirT 493) in
  let! i := on_world pc_open (get_inode c) in
  init pc_open c (ino i) ;! sret c.

Lemma consistent_top n : consistent n {[n := new_node DirT n n]}.
Proof.
  change (new_node DirT n n) with (MkNode DirT 2 {[DOT := (n, DirT); DOTDOT := (n, DirT)]}). set (top := MkNode _ _ _).
  assert (Hl : live top = true) by done.
  assert (HE : forall x name y t, edge {[n := top]} x name y t -> x = n /\ y = n /\ t = DirT /\ is_dot name = true).
  { intros x name y t (nd & [<- <-]%lookup_singleton_Some & _ & Hs). cbn in Hs.
    apply lookup_insert_Some in Hs as [[<- [= <- <-]]|[_ [<- [= <- <-]]%lookup_singleton_Some]]; done. }
  assert (Hdots : forall name, is_dot name = true -> edge {[n := top]} n name n DirT).
  { intros name Hd. exists (top). rewrite lookup_singleton_eq. split_and!; [done|done|].
    apply orb_true_iff in Hd as [Hd|Hd]; apply bool_decide_eq_true in Hd as ->; done. }
  split.
  - by rewrite lookup_singleton_eq.
  - intros p t He. by apply HE in He as (_ & -> & _).
  - intros x (nd & [<- _]%lookup_singleton_Some & _). by apply Hdots.
  - intros x (nd & [<- _]%lookup_singleton_Some & _). exists n. by apply Hdots.
  - intros x name y t (_ & -> & -> & _)%HE. exists (top). by rewrite lookup_singleton_eq.
  - intros x nd [<- <-]%lookup_singleton_Some. unfold refs, cnt. rewrite <- insert_empty, msum_insert by done. rewrite Hl. cbn [top n_links n_names]. rewrite msum_insert by (by rewrite lookup_singleton_ne). rewrite <- insert_empty, msum_insert by done. cbn. by rewrite Z.eqb_refl.
  - intros x p Hx He. apply HE in He as (-> & _). done.
  - intros x name y Hd He. apply HE in He as (_ & _ & _ & ?). congruence.
  - intros x name name' y Hd _ He. apply HE in He as (_ & _ & _ & ?). congruence.
Qed.

Lemma format_ok sb si w c s' : world_wf sb si w -> opens_empty pc_open -> (0 < length (block_groups (w_fs w)))%nat -> inodes w = [] -> format (w, []) = (Ok c, s') ->
  exists n, refines sb si s' {[n := new_node DirT n n]} /\ cached (w_fs s'.1) n c.
Proof using zero.
  intros Hw Hopen Hg Hin. assert (HR : refines sb si (w, []) ∅) by (split; [done|cbn; by rewrite Hin|done]). unfold format.
  pose proof (new_inode_step zero pc_open sb si (w, []) ∅ 0 DirT 493 Hopen HR Hg) as Hnew. unfold sbind at 1.
  destruct (on_world pc_open (create_inode 0 DirT 493) (w, [])) as [[c'|e|] s2]; [|done|done].
  destruct Hnew as (m & ci & p & HR2 & Hm & Hmr & Hcm & Hk & Hci & C1 & C2 & C3 & C4 & C5 & Hp & Hh & _).
  rewrite (sbind_ok _ _ _ _ _ (on_world_same pc_open _ s2 _ _ (rf_caches _ _ _ _ HR2) (get_inode_ok _ _ _ Hci) eq_refl)), C1.
  replace (s2.1, s2.2) with s2 by (by destruct s2).
  pose proof (init_step zero pc_open sb si ∅ m s2 m c' ci p DirT HR2 Hm Hmr Hmr Hcm Hci C1 C2 C3 C4 C5 Hp Hh) as Hinit. unfold sbind.
  destruct (init pc_open c' m s2) as [[u|e|] s3]; [|done|done]. destruct Hinit as (HR3 & Hsi & _). intros [= <- <-]. exists m. split; [done|by eapply cached_same].
Qed.
End Namespace.

(** * A page cache that is a list of bytes *)

#[export] Instance bytes_cache : PageCache (list Z) := {
  pc_size bs := Z.of_nat (length bs);
  pc_read off n bs := if off + Z.of_nat n <=? Z.of_nat (length bs) then (Ok (field (Z.to_nat off) n bs), bs) else (Err EINVAL, bs);
  pc_write off new bs :=
    if off + Z.of_nat (length new) <=? Z.of_nat (length bs) then (Ok tt, take (Z.to_nat off) bs ++ new ++ drop (Z.to_nat off + length new) bs)
    else (Err EINVAL, bs);
  pc_resize n bs := (Ok tt, take (Z.to_nat n) bs ++ replicate (Z.to_nat n - length bs) 0);
}.

#[export, refine] Instance bytes_cache_laws : PageCacheLaws (list Z) := {
  pc_ok bs := is_usize (Z.of_nat (length bs));
  pc_bytes bs := bs;
}.
Proof.
  - done.
  - intros off n p Hp H0 Hle. exists p. cbn in *. by rewrite (proj2 (Z.leb_le _ _)).
  - intros off n p Hp Hlt. cbn in *. by rewrite (proj2 (Z.leb_gt _ _)).
  - intros off bs p Hp H0 Hle. cbn in *. rewrite (proj2 (Z.leb_le _ _)) by done. eexists. split; [done|]. split; [|done].
    rewrite !length_app, length_take, length_drop. unfold is_usize in *. lia.
  - intros n p Hp Hn _ Hle. cbn in *. eexists. split; [done|]. rewrite take_ge by lia. replace (Z.to_nat (n - Z.of_nat (length p))) with (Z.to_nat n - length p)%nat by lia.
    split; [|done]. rewrite length_app, length_replicate. unfold is_usize in *. lia.
Defined.

(** A new file is empty. *)
Definition no_bytes : World Z -> nat -> list Z := fun _ _ => [].
Lemma no_bytes_empty : opens_empty no_bytes.
Proof. intros w h i _ _. split; [by cbv|done]. Qed.

Definition demo_start : outcome Errno nat * (World Z * list (list Z)) := format no_bytes (demo_world, []).
Definition demo_name : path := [102].

(** C1: the operations on names of ext2 (create, lookup, link, unlink, rmdir and
    rename) do to the file system what their meaning does to a tree of inodes.
    The state represents a consistent tree, every inode of which has its object
    in memory; page caches answer every access within their size
    ([PageCacheLaws]), and new files open with an empty one; directories have at
    most 11 blocks and link counts are below 65535; new names are UTF-8
    without zero bytes.  Then the operation does not panic.  If it succeeds, the
    state represents the tree that the meaning gives, which is consistent, and
    what it returns is the object of the inode that the meaning names.  If it
    fails with an error of the meaning, the state represents the tree as before.
    Otherwise it fails with [ENOSPC], and nothing is said of the state.  Except
    after [ENOSPC], objects of inodes of the tree stay their objects. *)
Theorem ext2_namespace {P blk : Type} `{!PageCache P, !PageCacheLaws P} (zero : blk) (pc_open : World blk -> nat -> P) root sb si s T op :
  refines sb si s T -> consistent root T -> opens_empty pc_open -> has_room s ->
  Forall valid_name (op_names op) -> Forall (held s T) (op_objs op) ->
  exists m, T !! m = None /\ simulates root sb si s T (run_name_op pc_open op s) (spec_op op m T).
Proof. apply (run_simulates zero). Qed.

Lemma ext2_namespace_witness :
  match demo_start with
  | (Ok c, s) => exists n m T', spec_op (NCreate (MkObj c n) demo_name FileT 420) m {[n := new_node DirT n n]} = Ok (T', Some m) /\
      match run_name_op no_bytes (NCreate (MkObj c n) demo_name FileT 420) s with
      | (Ok _, s') => refines 0 0 s' T' /\ consistent n T'
      | (Err e, _) => e = ENOSPC
      | (Panic, _) => False
      end
  | _ => False
  end.
Proof.
  destruct demo_start as [r s] eqn:E. assert (Hr : (demo_start).1 = Ok 0%nat) by (vm_compute; reflexivity). rewrite E in Hr. cbn in Hr. subst r.
  destruct (format_ok 0 no_bytes 0 0 demo_world 0 s demo_world_wf no_bytes_empty ltac:(cbn; lia) eq_refl E) as (n & HR & Hc). exists n.
  assert (Hroom : has_room s).
  { replace s with demo_start.2 by (by rewrite E). intros [|[|h]] i Hi; vm_compute in Hi; [injection Hi as <-; vm_compute; split; [done|]; intros _; discriminate|discriminate..]. }
  destruct (ext2_namespace 0 no_bytes n 0 0 s {[n := new_node DirT n n]} (NCreate (MkObj 0 n) demo_name FileT 420) HR (consistent_top n) no_bytes_empty Hroom)
    as (m & Hm & Hsim).
  { constructor; [by split|constructor]. }
  { constructor; [|constructor]. split; [done|]. cbn. rewrite lookup_singleton_eq. by eexists. }
  exists m, (tree_create n demo_name m FileT {[n := new_node DirT n n]}).
  assert (Hspec : spec_op (NCreate (MkObj 0 n) demo_name FileT 420) m {[n := new_node DirT n n]} = Ok (tree_create n demo_name m FileT {[n := new_node DirT n n]}, Some m)).
  { cbn. unfold spec_create. rewrite lookup_singleton_eq. reflexivity. }
  split; [exact Hspec|]. rewrite Hspec in Hsim. unfold simulates in Hsim.
  destruct (run_name_op _ _ s) as [[c|e|] s']; [|exact Hsim|exact Hsim]. destruct Hsim as (H1 & H2 & _). by split.
Defined.

(** * A device without free blocks *)

(** A directory of one block without room for a long name, on a device whose
    blocks are all in use *)
Definition long_name (k : nat) : path := (97 + Z.of_nat k) :: replicate 254 98.
Definition full_run : stM (World Z * list (list Z)) Errno nat :=
  let! r := format no_bytes in
  let! f := create no_bytes r demo_name FileT 420 in
  on_world no_bytes (resize f (12 * BLOCK_SIZE)) ;!
  sfor (seq 0 15) (fun k => link no_bytes r f (long_name k)) ;!
  sret r.

(** On a device without free blocks, [create] in a directory whose block is
    full fails with [ENOSPC] and frees the inode that it made, but leaves the entry
    in the page cache of the directory: the name then leads to a free inode,
    [lookup] fails with [ENOENT] and [create] with [EEXIST]. *)
Lemma ext2_create_leaves_entry :
  match full_run (demo_world, []) with
  | (Ok r, s) =>
      match create no_bytes r (long_name 15) FileT 420 s with
      | (Err e, s1) => e = ENOSPC /\
          match entry_of r (long_name 15) s1 with
          | (Ok (Some (_, entry)), s2) => ino_used (w_fs s2.1) (e_ino entry - 1) = false /\
              (lookup no_bytes r (long_name 15) s2).1 = Err ENOENT /\ (create no_bytes r (long_name 15) FileT 420 s2).1 = Err EEXIST
          | _ => False
          end
      | _ => False
      end
  | _ => False
  end.
Proof. vm_compute. split_and!; reflexivity. Qed.
